(* ===== verification/_CoqProject ===== *)
-Q . S2P
Prelude.v
Schema.v
Json.v
MessageJobs.v
OutboundLease.v
Groups.v
SendPolicy.v
Service.v
MessageProcessor.v
CampaignPreflight.v
Campaigns.v
CampaignRuns.v
Retention.v
CampaignLifecycle.v
CampaignVersions.v
CampaignRows.v
CampaignDeliveries.v
CampaignLaunch.v
CampaignService.v
CampaignRunService.v
GroupListService.v
GatewaySchema.v
GatewayPacing.v
GatewayIntents.v
GatewayRuns.v
GatewayItems.v
GatewaySync.v
GatewayDiscovery.v
GatewayService.v
WebhookSchema.v
WebhookEvents.v
Webhooks.v
WebhookService.v
Scheduler.v
OpenWAClient.v
ContactSchema.v
ContactQueue.v
ContactIdentity.v
Relational.v
ContactEvidence.v
ContactStore.v
ContactLife.v
ContactMerge.v
ContactSnapshots.v
ContactResolution.v
ContactPeople.v
ContactProjection.v
ContactBatches.v
ContactRequests.v
ContactBackfill.v
ContactTyping.v
ContactSync.v
Search.v
Listings.v
Cleanup.v
Rely.v
ContactObserver.v
Dispatch.v
CampaignRepair.v
Migrations.v
StorageAcceptance.v
WebhookRegistration.v
ErrorResponses.v
Logging.v
Listener.v
Configuration.v
