(* ===== verification/Prelude.v ===== *)
(** * WA Runtime: a verification library

    WA Runtime (TypeScript, under [src/src/]) sends WhatsApp messages for operators
    through an OpenWA gateway.  It keeps everything it must not forget in PostgreSQL: an
    outbox of message jobs, a lease per gateway session, the groups with what is known
    of the permission to send to them, campaigns with their targets, runs and
    deliveries, saved lists of groups, the synchronisation with the gateway, an inbox of
    webhooks with the ledger of events, and the contacts of a session with the evidence
    they rest on.  Any number of API and worker processes share that database; nothing
    else coordinates them.  This library models the statements they issue and the code
    around them, and proves that together they keep the promises of
    [docs/failure-model.md], [docs/campaign-lifecycle.md] and [docs/api-contract.md].

    ** The parts, and the code each file models

    Foundations:
    - [Prelude] (this file): record update, SQL-like operations on finite maps
      ([update_where], [update_row], [select_where], [delete_where], ..), ORDER BY as
      [order_by], strings ([trim], [ends_with]), and shared tactics.
    - [Schema]: the enumerations, rows and tables ([migrations/], the [..Row] types).
      [db] is a record of finite maps, one per table; [config] the settings that are read.
      [GatewaySchema] ([gdb]), [WebhookSchema] ([wdb]) and [ContactSchema] add the tables
      of the later parts.
    - [Json]: [JSON.stringify] of the objects whose text is hashed.
    - [Relational]: DISTINCT ON, [min] and the recursive query over edges.
    - [Service]: the monad of service calls, [serv] and [serv_over].  [Rely]: rules for
      calls whose statements, and those of everybody else, keep to a relation.
    - [Search]: orders of several keys, pages of a list with their count, and ILIKE.

    Sending:
    - [MessageJobs]: [messages/message-idempotency.ts] and [message-job.repository.ts].
      Module [Idempotency] is the request hash, [Repo] has one definition per statement,
      [Outbox] the step relation [op] of all statements on the outbox.
    - [OutboundLease]: [messages/outbound-session-lease.repository.ts].
    - [Groups]: [gateway/group-capability.ts] (Module [GroupCapability]),
      [gateway-capability.repository.ts] ([CapabilityRepo]), the group columns of
      [gateway-group-snapshot.repository.ts] and the group events of
      [webhooks/runtime-event.repository.ts] ([Snapshot]).
    - [SendPolicy]: [gateway/session-scope.service.ts], [messages/message-send-policy.service.ts],
      the reads of [gateway/gateway.repository.ts] they use, [messages/message-job.service.ts].
    - [MessageProcessor]: [messages/message-job-processor.service.ts] with
      [outbound-session-lease.service.ts].  A worker is a program counter [pc]; [step]
      performs one await, to which the environment answers or fails; [Workers] is any
      number of workers that interleave with each other, with crashes and with the
      recovery statements.

    Campaigns:
    - [CampaignPreflight]: [campaigns/campaign-preflight.ts], [campaign-preflight.service.ts].
    - [Campaigns]: [group-lists/group-list.repository.ts] ([GroupListRepo]) and
      [campaigns/campaign.repository.ts] ([CampaignRepo]), with their shared validation
      ([Membership]).
    - [CampaignRuns]: [campaigns/campaign-run.persistence.ts] ([Persistence]),
      [campaign-run.repository.ts] ([RunRepo]), [campaign-run-lifecycle.repository.ts]
      ([LifecycleRepo]), [campaign-delivery.repository.ts] ([DeliveryRepo]).
    - [CampaignLifecycle], [CampaignVersions], [CampaignRows], [CampaignDeliveries],
      [CampaignLaunch]: what holds of these statements together.  [Life.cstep] is the
      step relation of every statement that writes campaigns or runs.
    - [CampaignService]: [campaigns/campaign.service.ts]; [CampaignRunService]:
      [campaign-run.service.ts] and [campaign-run-processor.service.ts];
      [GroupListService]: [group-lists/group-list.service.ts].
    - [Listings]: the paged lists of groups, members, saved lists, campaigns, runs and
      deliveries, and [gateway/group.service.ts].
    - [CampaignRepair]: the script [reconcile-campaign-live-status.ts] (in [src/scripts]).

    Synchronisation with the gateway ([modules/gateway]):
    - [GatewayPacing]: [gateway-sync-rate-limit.repository.ts]; [GatewayIntents]:
      [gateway-group-intent.repository.ts]; [GatewayRuns]: [gateway-sync-run.repository.ts]
      and [gateway-write-fence.repository.ts]; [GatewayItems]:
      [gateway-sync-item.repository.ts].
    - [GatewaySync], [GatewayDiscovery]: runs, items and epochs as one step relation, and
      what a discovery makes of a listing.
    - [GatewayService]: [gateway-sync.service.ts], [gateway-sync-processor.service.ts].
    - [OpenWAClient]: the requests and listings of [integrations/openwa/openwa.client.ts].

    Webhooks ([modules/webhooks]):
    - [WebhookEvents]: [webhook-normalizer.ts], [runtime-event.repository.ts] and the queue
      of [contacts/contact-message-observation-intent.repository.ts].
    - [Webhooks]: [webhook.repository.ts] and the transaction that handles an event;
      [WebhookService]: [webhook.controller.ts], [webhook-signature.ts] and
      [webhook-processor.service.ts].
    - [WebhookRegistration]: [webhook-registration-reconciliation.tick.ts]; the gateway that
      keeps the registrations is the class [webhook_store], with its laws.

    Contacts ([modules/contacts]):
    - [ContactIdentity]: [contact-normalization.ts], [contact-name-resolution.sql.ts].
    - [ContactQueue]: [contact-projection.enqueue.ts]; [ContactEvidence]:
      [contact-evidence.writer.ts]; [ContactStore]: [contact.repository.ts],
      [contact-observation.repository.ts] and the member rows of a group snapshot.
    - [ContactLife], [ContactMerge]: what these transactions keep, and which contacts a
      page joins.
    - [ContactSnapshots]: [contact-snapshot-lifecycle.repository.ts]; [ContactSync]:
      [contact-sync.service.ts], [contact-sync-query.repository.ts] and the periodic tick.
    - [ContactResolution]: [contact-resolution.repository.ts] and its tick;
      [ContactPeople], [ContactRequests]: who shares a cluster, and what a resolution asks
      the projection to do.
    - [ContactProjection]: [contact-projection.repository.ts] and
      [contact-projection-batch.repository.ts]; [ContactBatches]: what the batches of one
      piece of work do together.
    - [ContactObserver]: [contact-message-observer.service.ts] and
      [contact-message-observation.tick.ts], which write the names seen in messages.
    - [ContactBackfill], [ContactTyping]: the jobs that fill in what older members lack
      ([contact-member-identity-backfill.repository.ts] among them).

    Upkeep ([modules/orchestration]):
    - [Retention], [Cleanup]: [data-retention.tick.ts], first its statements on runs and
      jobs, then all of it.
    - [Scheduler]: [isolated-scheduler-tick.ts], [scheduler-leadership.service.ts], and the
      coalescing of wake-up calls of [gateway-work-listener.service.ts] and
      [gateway-dispatch.tick.ts].  [Listener]: the rest of [gateway-work-listener.service.ts].
    - [Dispatch]: [message-dispatch.tick.ts], [webhook-dispatch.tick.ts],
      [campaign-dispatch.tick.ts] and [gateway-dispatch.tick.ts], with
      [core/queue/queue-job-id.ts].

    Around it ([src/src/core]):
    - [Configuration]: [config/runtime-config.ts].
    - [Migrations]: [database/migration-runner.ts].
    - [ErrorResponses]: [http/runtime-http-exception.filter.ts] and the exception filters of
      groups, saved lists and campaigns.
    - [Logging]: the redaction and the levels of [observability/json-logger.ts].
    - [StorageAcceptance]: [observability/runtime-storage-acceptance.ts].

    ** How the code is modelled

    A statement, or a transaction, is a function of the database and of the time, with
    its answer: [now -> .. -> db -> answer * db].  It is atomic: the code takes row locks
    or runs one statement, and READ COMMITTED statements that find a row changed
    re-evaluate their WHERE.  [FOR UPDATE SKIP LOCKED] is a predicate that says which
    rows others hold.  [now()] and [new Date()] are one clock, in milliseconds; ids drawn
    by [gen_random_uuid()] or [randomUUID()] are arguments and, where it matters, fresh by
    hypothesis.  Code that needs several awaits is never one function: the message worker
    is a step machine, and a service call is a [serv], in which before each await the
    other clients change the database at will ([between]) and each statement may fail
    before or after it took effect ([faults]).  Errors are values: an answer type for what
    a repository reports by flags, [failure] for what a service throws.  Strings have the
    code units 0..255; ORDER BY on text is the order of code units (the "C" collation),
    which is also that of [Array.sort].  uuids are positives, in their order; numbers are
    [Z]: the counters and revisions of the code stay far below 2^53.  An optional revision
    of a request body is [option Z]: absent or a number.

    What is not the code's own is an argument of the definitions that use it: SHA-256,
    HMAC and md5, the validators of class-validator, Date parsing and printing, the
    conversions [Number] and [Date.parse], NFC, PostgreSQL's [lower] and the case folding
    of ILIKE, the random jitter, and what the gateway answers, be it the reply to the
    [n]-th request or the [n]-th page of a listing.  No theorem assumes more of them than
    it says.  Numbers in JSON bodies are integers; the spacing of requests is in whole
    milliseconds and jitter in thousandths, and a Retry-After is compared as an exact
    rational.  A heartbeat that finds its lease lost is an oracle of the call.

    Every statement on contacts but the queue of resolutions works on one session, so the
    contact tables of a session are one record and the fleet is a map of them; the values
    that a statement draws from a sequence are arguments.

    ** What is proved

    - Sending.  [no_double_send]: however workers interleave, crash and lose answers of
      the database, each job, and each (scope, key), is in at most one request to the
      provider.  [request_is_authorised]: before that request its worker claimed the live
      job, found policy and session permitting it, and held the session lease.
      [stored_outcome_sound]: a stored outcome is justified by what happened to the
      request; in doubt it is UNKNOWN.  [worker_terminates] bounds a worker's steps.
      [claimed_at_most_once], [attempt_log_exact], [create_idempotent],
      [claimDue_takes_oldest], [acks_order_independent] are the outbox,
      [lease_excludes] the lease.
    - Permission.  [evaluate_correct], [allowed_on_evidence], [stale_refresh_is_fenced]:
      a group is ALLOWED only on current metadata, and an old refresh cannot overwrite a
      newer event.  [live_policy_exact]: the policy admits exactly the permitted sends.
    - Campaigns.  [lifecycle_never_drifts], [run_walks_its_machine], [run_rows_exact],
      [preparation_progresses], [launch_happens_once], [launch_snapshots_targets],
      [materialize_sound], [deliveries_stay_linked], [progress_counts_all],
      [preflight_decides], [repair_restores_the_lifecycle]: from launch to the last delivery a run keeps its snapshot,
      walks one state machine in step with its campaign, gives each target at most one
      job, and never sends to a group whose capability changed; a status that an
      operator's script finds out of step is set right, and nothing else.
    - Editing.  [targets_replaced_exactly], [list_applied_exactly],
      [list_membership_versioned], [revisions_name_contents].
    - Requests, under interference and faults.  [runs_start_justified],
      [failed_preparation_is_recorded], [patch_loses_no_update],
      [refused_changes_nothing], [run_refusals_leave_no_trace],
      [hidden_campaign_is_not_found], [archive_leaves_archived],
      [schedule_pattern_exact], [hash_body_injective], [list_hash_names_request].
    - Lists.  [search_is_literal]: a search finds what contains the text, whatever
      wildcards it has.  [pages_are_whole]: the pages of a list partition its rows.
    - Synchronisation.  [requests_per_minute] bounds the reads of a session in any window;
      [completed_covers_every_event] and [intents_stay_sound]: an event is not forgotten
      until a read that started after it succeeded.  [sync_runs_stay_exact],
      [active_run_is_never_stranded], [superseded_attempt_never_writes],
      [group_read_is_fenced], [discovery_publishes_exactly], [large_loss_is_confirmed]:
      one run per session counts its items, can always go on, and alone writes; a listing
      that lost most groups is believed the second time.
    - The client.  [requests_are_bounded]: a call makes finitely many requests and waits a
      bounded time.  [listing_is_whole]: a listing that is returned has every page.
    - Webhooks.  [only_authentic_webhooks_are_stored], [normalized_events_are_storable],
      [each_event_counts_once], [processing_is_atomic], [no_webhook_is_stranded].
      [registrations_converge]: whatever fails, a session does not lose its registration, and a
      run that ends well leaves exactly the one the runtime wants.
    - Contacts.  [phones_have_one_identity], [merge_follows_evidence],
      [clusters_hold_one_person]: contacts are joined when evidence connects them and never
      otherwise.  [names_never_drift]: a contact shows what its names say.
      [published_is_final], [publication_is_exact], [snapshot_is_the_listing],
      [failed_attempt_closes]: a snapshot is the listing that was received, or is not
      published.  [resolution_is_exact], [resolution_requests_every_change],
      [every_member_is_projected], [every_member_is_typed]: what a published generation
      changes reaches every member it concerns.  [every_seen_name_is_kept],
      [quiet_tick_notes_what_is_due]: a name seen in a message leaves the queue only when
      it was noted, and stays noted however contacts are merged.
    - Upkeep.  [retention_deletes_finished], [cleanup_keeps_what_counts],
      [drained_means_clean]: retention deletes only what is finished and old, and when it
      reports that it is done nothing expired is left.  [ticks_never_overlap],
      [backoff_stays_bounded], [one_live_leader]: one process runs the ticks, one at a
      time.  [no_claimed_message_is_forgotten], [every_due_row_is_offered],
      [campaign_tick_is_lawful]: a tick hands every row that is due to a queue, or leaves it
      due.  [listener_stays_alive]: announced work is looked for, through any loss of the
      connection.
    - Around it.  [configuration_is_sound]: an accepted environment fits together.
      [migrations_are_applied_once_in_order], [pending_migrations_are_applied];
      [every_error_is_answered]; [logs_are_redacted]; [acceptance_means_healthy]: the storage
      gate passes exactly when all that is asked for holds of the samples it looks at.

    The theorems about the outbox in [MessageJobs] and [MessageProcessor] speak of jobs
    that retention has not deleted: a key is remembered as long as its job is.

    ** Bounds and fuel

    Most loops of the code are over lists or bounded queries.  A worker that waits for the
    session lease is a cycle of its step machine; [worker_terminates] counts the steps
    outside it.  A call of the client has fuel for 17 requests, which suffices
    ([requests_are_bounded]); a listing has the 100 pages of the code's own bound, and retention its
    [maxBatches].  The recursive query runs one round more than there are edges
    ([reach_spec]); the batches of a projection, and of a backfill, one round more than
    there are full pages, and the theorems on them show that they end before.  Attempts,
    batch limits, lease times and back-off are those of the code.

    ** What is not modelled

    Controllers, the validation of request classes, and the details of error bodies;
    metrics and health; the connection pool; the queues and their
    workers as a library keeps them (what a worker does with a job is modelled with its
    component, and what a tick adds to a queue in [Dispatch]); the list of sessions and that of
    received messages; the texts of log entries; the parsers of the storage samples, which the
    gate reads as exact rationals; the other scripts of operators (files, load tests). *)

From stdpp Require Export base gmap sets list strings sorting.
From Stdlib Require Export ZArith Lia.

Declare Scope runtime_scope.
Delimit Scope runtime_scope with runtime.
Open Scope runtime_scope.
#[export] Set Default Goal Selector "!".

(** ** Functional record update

    [r <| field := v |>] is the record [r] with one field replaced.  A record
    type opts in with an [Eta] instance that lists its projections; the setter
    of one projection is found by abstracting that projection in the list. *)

Class Eta (R : Type) := eta_of : R -> R.
Class Upd {R E : Type} (get : R -> E) := upd : (E -> E) -> R -> R.
Arguments upd {R E} get {_} f r.

Ltac build_upd get :=
  lazymatch type of get with
  | ?R -> ?E =>
    let inst := constr:(_ : Eta R) in
    exact (fun (f : E -> E) (r : R) =>
      ltac:(let expanded := eval hnf in (@eta_of R inst r) in
            let abstracted := eval pattern (get r) in expanded in
            lazymatch abstracted with ?g _ => exact (g (f (get r))) end))
  end.
#[export] Hint Extern 1 (Upd ?get) => build_upd get : typeclass_instances.

Notation "r <| g := v |>" := (upd g (fun _ => v) r)
  (at level 1, left associativity, g at level 9, v at level 200) : runtime_scope.

(** ** Values of the database and of the language

    Identifiers drawn by [gen_random_uuid()] or [randomUUID()] are only compared
    and ordered, so they are [positive]s.  Timestamps are milliseconds. *)

Abbreviation uuid := positive (only parsing).
Abbreviation timestamp := Z (only parsing).

(** A comparison with SQL's NULL is not true. *)
Definition before (o : option Z) (t : Z) : bool :=
  match o with Some x => Z.ltb x t | None => false end.
Definition after (o : option Z) (t : Z) : bool :=
  match o with Some x => Z.ltb t x | None => false end.
Definition coalesce {A : Type} (a b : option A) : option A :=
  match a with Some _ => a | None => b end.
Definition is_null {A : Type} (a : option A) : bool :=
  match a with Some _ => false | None => true end.

(** [x IN (...)], [list.includes(x)] *)
Definition mem {A : Type} `{EqDecision A} (x : A) (l : list A) : bool :=
  existsb (fun y => bool_decide (x = y)) l.
Arguments mem : simpl never.

Lemma mem_true {A : Type} `{EqDecision A} (x : A) (l : list A) :
  mem x l = true <-> x ∈ l.
Proof.
  unfold mem. rewrite existsb_exists. split.
  - intros (y & Hy & He). apply bool_decide_eq_true in He as ->.
    by apply list_elem_of_In.
  - intros Hx. exists x. split; [by apply list_elem_of_In | by apply bool_decide_eq_true].
Qed.

Lemma mem_false {A : Type} `{EqDecision A} (x : A) (l : list A) :
  mem x l = false <-> x ∉ l.
Proof. rewrite <- mem_true. destruct (mem x l); split; congruence. Qed.

(** A JavaScript string is modelled over the code units 0..255. *)
Definition is_space (c : Ascii.ascii) : bool :=
  let n := Ascii.nat_of_ascii c in
  ((9 <=? n) && (n <=? 13))%nat || (n =? 32)%nat || (n =? 160)%nat.

Fixpoint trim_start (s : string) : string :=
  match s with
  | String c s' => if is_space c then trim_start s' else s
  | EmptyString => EmptyString
  end.

Fixpoint trim_end (s : string) : string :=
  match s with
  | String c s' =>
      match trim_end s' with
      | EmptyString => if is_space c then EmptyString else String c EmptyString
      | t => String c t
      end
  | EmptyString => EmptyString
  end.

Definition trim (s : string) : string := trim_end (trim_start s).

(** Truthiness of a string: [""] is the only false one. *)
Definition truthy (s : string) : bool :=
  match s with EmptyString => false | _ => true end.

Fixpoint ends_with (suffix s : string) : bool :=
  bool_decide (s = suffix) ||
  match s with String _ s' => ends_with suffix s' | EmptyString => false end.

(** ** Tables

    A table with a primary key is a finite map.  The helpers below are the
    statements the repositories use, each with the lemma that unfolds it. *)

Section Tables.
Context {K : Type} `{Countable K} {V : Type}.
Implicit Types (P : K -> V -> bool) (W : V -> bool) (f : V -> V) (t : gmap K V).

(** [UPDATE t SET .. WHERE P] over every row *)
Definition update_where P f t : gmap K V :=
  map_imap (fun k v => Some (if P k v then f v else v)) t.

(** [UPDATE t SET .. WHERE key = k AND P RETURNING *] *)
Definition update_row (k : K) (P : V -> bool) f t : option V * gmap K V :=
  match t !! k with
  | Some v => if P v then (Some (f v), <[k := f v]> t) else (None, t)
  | None => (None, t)
  end.

(** [SELECT .. WHERE P] without an order *)
Definition select_where P t : list (K * V) :=
  List.filter (fun kv => P kv.1 kv.2) (map_to_list t).

Definition count_where P t : Z := Z.of_nat (length (select_where P t)).
Definition exists_where P t : bool := existsb (fun kv => P kv.1 kv.2) (map_to_list t).
Definition find_where P t : option (K * V) := head (select_where P t).

(** [DELETE FROM t WHERE P] *)
Definition delete_where P t : gmap K V :=
  map_imap (fun k v => if P k v then None else Some v) t.

(** [INSERT .. ON CONFLICT (key) DO NOTHING] *)
Definition insert_absent (k : K) (v : V) t : gmap K V :=
  match t !! k with Some _ => t | None => <[k := v]> t end.

Lemma lookup_update_where P f t k :
  update_where P f t !! k = (fun v => if P k v then f v else v) <$> t !! k.
Proof. unfold update_where. rewrite map_lookup_imap. by destruct (t !! k). Qed.

Lemma lookup_delete_where P t k :
  delete_where P t !! k =
    match t !! k with Some v => if P k v then None else Some v | None => None end.
Proof. unfold delete_where. rewrite map_lookup_imap. by destruct (t !! k). Qed.

Lemma update_where_Some P f t k v' :
  update_where P f t !! k = Some v' <->
  exists v, t !! k = Some v /\ v' = if P k v then f v else v.
Proof.
  rewrite lookup_update_where. destruct (t !! k) as [v|]; simpl.
  - split; [intros [= <-]; eauto | intros (w & [= ->] & ->); done].
  - split; [done | by intros (w & ? & _)].
Qed.

Lemma delete_where_Some P t k v :
  delete_where P t !! k = Some v <-> t !! k = Some v /\ P k v = false.
Proof.
  rewrite lookup_delete_where. destruct (t !! k) as [w|].
  - destruct (P k w) eqn:E; split; [done| |intros [= ->]; done|].
    + intros ([= ->] & HP). congruence.
    + by intros ([= ->] & HP).
  - split; [done | by intros [? _]].
Qed.

Lemma select_where_elem P t k v :
  (k, v) ∈ select_where P t <-> t !! k = Some v /\ P k v = true.
Proof.
  unfold select_where. rewrite list_elem_of_In, filter_In, <- list_elem_of_In.
  by rewrite elem_of_map_to_list.
Qed.

Lemma select_where_NoDup P t : NoDup ((select_where P t).*1).
Proof.
  unfold select_where. pose proof (NoDup_fst_map_to_list t) as Hnd.
  induction (map_to_list t) as [|[k v] l IH]; simpl in *; [constructor|].
  apply NoDup_cons in Hnd as [Hk Hnd].
  destruct (P k v); simpl; [|by apply IH].
  constructor; [|by apply IH].
  intros Hin. apply Hk. apply list_elem_of_fmap in Hin as ([k' v'] & -> & Hin).
  apply list_elem_of_fmap. exists (k', v'). split; [done|].
  apply list_elem_of_In in Hin. apply filter_In in Hin as [Hin _].
  by apply list_elem_of_In.
Qed.

Lemma exists_where_true P t :
  exists_where P t = true <-> exists k v, t !! k = Some v /\ P k v = true.
Proof.
  unfold exists_where. rewrite existsb_exists. split.
  - intros ([k v] & Hin & HP). exists k, v. split; [|done].
    by apply elem_of_map_to_list, list_elem_of_In.
  - intros (k & v & Hl & HP). exists (k, v). split; [|done].
    by apply list_elem_of_In, elem_of_map_to_list.
Qed.

Lemma exists_where_false P t :
  exists_where P t = false <-> forall k v, t !! k = Some v -> P k v = false.
Proof.
  split.
  - intros He k v Hl. destruct (P k v) eqn:E; [|done].
    enough (exists_where P t = true) by congruence.
    apply exists_where_true. eauto.
  - intros Hall. destruct (exists_where P t) eqn:E; [|done].
    apply exists_where_true in E as (k & v & Hl & HP).
    rewrite (Hall k v Hl) in HP. done.
Qed.

Lemma find_where_Some P t k v :
  find_where P t = Some (k, v) -> t !! k = Some v /\ P k v = true.
Proof.
  unfold find_where. intros Hh. apply select_where_elem.
  destruct (select_where P t) as [|x l]; simplify_eq/=. left.
Qed.

Lemma find_where_None P t :
  find_where P t = None <-> forall k v, t !! k = Some v -> P k v = false.
Proof.
  unfold find_where. split.
  - intros Hh k v Hl. destruct (P k v) eqn:E; [|done].
    assert (Hin : (k, v) ∈ select_where P t) by by apply select_where_elem.
    destruct (select_where P t); [by apply not_elem_of_nil in Hin | done].
  - intros Hall. destruct (select_where P t) as [|[k v] l] eqn:E; [done|].
    assert (Hin : (k, v) ∈ select_where P t) by (rewrite E; left).
    apply select_where_elem in Hin as [Hl HP]. rewrite (Hall k v Hl) in HP. done.
Qed.

(** A unique constraint makes the found row the one row. *)
Lemma find_where_unique P t k v :
  (forall k1 v1 k2 v2, t !! k1 = Some v1 -> t !! k2 = Some v2 ->
     P k1 v1 = true -> P k2 v2 = true -> k1 = k2) ->
  t !! k = Some v -> P k v = true -> find_where P t = Some (k, v).
Proof.
  intros Huniq Hl HP. destruct (find_where P t) as [[k' v']|] eqn:E.
  - apply find_where_Some in E as [Hl' HP'].
    assert (k' = k) as -> by eauto. congruence.
  - rewrite find_where_None in E. rewrite (E k v Hl) in HP. done.
Qed.

Lemma count_where_nonneg P t : (0 <= count_where P t)%Z.
Proof. unfold count_where. lia. Qed.

Lemma count_where_zero P t :
  count_where P t = 0%Z <-> forall k v, t !! k = Some v -> P k v = false.
Proof.
  unfold count_where. split.
  - intros Hc. apply find_where_None. unfold find_where.
    destruct (select_where P t); [done | simpl in Hc; lia].
  - intros Hall. apply find_where_None in Hall. unfold find_where in Hall.
    by destruct (select_where P t).
Qed.

(** A row update leaves the other rows alone. *)
Lemma update_row_cases k W f t :
  (exists v, t !! k = Some v /\ W v = true /\ update_row k W f t = (Some (f v), <[k := f v]> t)) \/
  ((forall v, t !! k = Some v -> W v = false) /\ update_row k W f t = (None, t)).
Proof.
  unfold update_row. destruct (t !! k) as [v|]; [|right; split; done].
  destruct (W v) eqn:E; [left; eauto | right; split; [by intros ? [= <-]|done]].
Qed.

Lemma update_row_Some k W f t v' t' :
  update_row k W f t = (Some v', t') <->
  exists v, t !! k = Some v /\ W v = true /\ v' = f v /\ t' = <[k := f v]> t.
Proof.
  unfold update_row. destruct (t !! k) as [v|].
  - destruct (W v) eqn:E; split.
    + intros [= <- <-]. eauto.
    + by intros (w & [= ->] & _ & -> & ->).
    + done.
    + intros (w & [= ->] & HP & _). congruence.
  - split; [done | by intros (w & ? & _)].
Qed.

Lemma update_row_None k W f t t' :
  update_row k W f t = (None, t') -> t' = t /\ forall v, t !! k = Some v -> W v = false.
Proof.
  unfold update_row. destruct (t !! k) as [v|].
  - destruct (W v) eqn:E; [done|]. intros [= <-]. split; [done|]. by intros ? [= <-].
  - intros [= <-]. by split.
Qed.

Lemma lookup_update_row k W f t k' :
  (update_row k W f t).2 !! k' =
    (fun v => if bool_decide (k' = k) && W v then f v else v) <$> t !! k'.
Proof.
  unfold update_row. destruct (decide (k' = k)) as [->|Hne].
  - rewrite bool_decide_true by done. simpl. destruct (t !! k) as [v|] eqn:E; simpl.
    + destruct (W v); simpl; [by rewrite lookup_insert_eq | by rewrite E].
    + by rewrite E.
  - rewrite bool_decide_false by done. simpl.
    assert (t !! k' = (fun v => v) <$> t !! k') as Hid by by destruct (t !! k').
    rewrite <- Hid. destruct (t !! k) as [v|]; simpl; [|done].
    destruct (W v); simpl; [by rewrite lookup_insert_ne | done].
Qed.

Lemma update_row_dom k W f t r t' : update_row k W f t = (r, t') -> dom t' = dom t.
Proof.
  intros E. apply set_eq. intros x. rewrite !elem_of_dom.
  change t' with (r, t').2. by rewrite <- E, lookup_update_row, fmap_is_Some.
Qed.

Lemma insert_absent_lookup k v t k' :
  insert_absent k v t !! k' =
    match t !! k' with
    | Some w => Some w
    | None => if bool_decide (k' = k) then Some v else None
    end.
Proof.
  unfold insert_absent. destruct (t !! k) as [w|] eqn:E.
  - destruct (t !! k') eqn:E'; [done|]. case_bool_decide; [congruence|done].
  - destruct (decide (k' = k)) as [->|Hne].
    + by rewrite E, lookup_insert_eq, bool_decide_true.
    + rewrite lookup_insert_ne by done. rewrite bool_decide_false by done.
      by destruct (t !! k').
Qed.

(** Invariants of every row *)
Lemma update_where_all (Q : K -> V -> Prop) P f t :
  (forall k v, t !! k = Some v -> Q k v) ->
  (forall k v, t !! k = Some v -> Q k v -> P k v = true -> Q k (f v)) ->
  forall k v, update_where P f t !! k = Some v -> Q k v.
Proof.
  intros HQ Hf k v' (v & Hl & ->)%update_where_Some.
  destruct (P k v) eqn:E; eauto.
Qed.

Lemma update_row_all (Q : K -> V -> Prop) k0 W f t :
  (forall k v, t !! k = Some v -> Q k v) ->
  (forall v, t !! k0 = Some v -> Q k0 v -> W v = true -> Q k0 (f v)) ->
  forall k v, (update_row k0 W f t).2 !! k = Some v -> Q k v.
Proof.
  intros HQ Hf k v'. rewrite lookup_update_row.
  destruct (t !! k) as [v|] eqn:Hl; simpl; [|done]. intros [= <-].
  destruct (decide (k = k0)) as [->|Hne].
  - rewrite bool_decide_true by done. simpl. destruct (W v) eqn:E; eauto.
  - rewrite bool_decide_false by done. simpl. eauto.
Qed.

Lemma update_where_same_dom P f t : dom (update_where P f t) = dom t.
Proof.
  apply set_eq. intros k. rewrite !elem_of_dom, lookup_update_where.
  by rewrite fmap_is_Some.
Qed.

End Tables.

(** [ORDER BY] with a boolean order, and [LIMIT] *)
Definition order_by {A : Type} (leb : A -> A -> bool) (l : list A) : list A :=
  merge_sort (fun x y => Is_true (leb x y)) l.

Lemma order_by_Permutation {A : Type} (leb : A -> A -> bool) (l : list A) :
  order_by leb l ≡ₚ l.
Proof. apply merge_sort_Permutation. Qed.

Lemma order_by_elem {A : Type} (leb : A -> A -> bool) (l : list A) x :
  x ∈ order_by leb l <-> x ∈ l.
Proof. by rewrite order_by_Permutation. Qed.

Lemma order_by_sorted {A : Type} (leb : A -> A -> bool) (l : list A) :
  (forall x y, leb x y = true \/ leb y x = true) ->
  Sorted (fun x y => Is_true (leb x y)) (order_by leb l).
Proof.
  intros Htot. apply Sorted_merge_sort. intros x y.
  destruct (Htot x y) as [E|E]; rewrite E; auto.
Qed.

Lemma take_elem {A : Type} (n : nat) (l : list A) x : x ∈ take n l -> x ∈ l.
Proof. intros Hx. rewrite <- (take_drop n l). apply elem_of_app. by left. Qed.

(** What [ORDER BY .. LIMIT n] leaves out does not come before what it takes. *)
Lemma take_order_by_first {A : Type} (leb : A -> A -> bool) (n : nat) (l : list A) x y :
  (forall a b, leb a b = true \/ leb b a = true) ->
  (forall a b c, leb a b = true -> leb b c = true -> leb a c = true) ->
  x ∈ take n (order_by leb l) -> y ∈ l -> y ∉ take n (order_by leb l) -> leb x y = true.
Proof.
  intros Htot Htr Hx Hy Hout.
  assert (Hs : StronglySorted (fun a b => Is_true (leb a b)) (order_by leb l)).
  { apply Sorted_StronglySorted; [|by apply order_by_sorted].
    intros a b c. rewrite !Is_true_true. apply Htr. }
  rewrite <- (order_by_elem leb) in Hy. rewrite <- (take_drop n (order_by leb l)) in Hs, Hy.
  apply elem_of_app in Hy as [Hy|Hy]; [done|].
  by apply Is_true_true, (StronglySorted_app_1_elem_of _ _ _ _ _ Hs).
Qed.

Lemma take_order_by_NoDup {A B : Type} (leb : A * B -> A * B -> bool) (n : nat) (l : list (A * B)) :
  NoDup l.*1 -> NoDup (take n (order_by leb l)).*1.
Proof.
  intros Hnd. rewrite fmap_take.
  assert (Hnd' : NoDup (order_by leb l).*1) by by rewrite order_by_Permutation.
  rewrite <- (take_drop n (order_by leb l).*1) in Hnd'. by apply NoDup_app in Hnd' as [? _].
Qed.

(** ** Automation *)

Create HintDb runtime.
Create Rewrite HintDb tables.
#[export] Hint Resolve order_by_elem take_elem count_where_nonneg : runtime.
#[export] Hint Rewrite @lookup_update_where @lookup_delete_where @lookup_update_row
  @insert_absent_lookup using done : tables.

(** Split the boolean hypotheses and goals into their atoms. *)
Ltac split_bool :=
  cbv beta in *;
  repeat match goal with
  | H : context [negb _ = true] |- _ => rewrite negb_true_iff in H
  | H : context [negb _ = false] |- _ => rewrite negb_false_iff in H
  | H : _ && _ = true |- _ => apply andb_true_iff in H as [? ?]
  | H : _ || _ = false |- _ => apply orb_false_iff in H as [? ?]
  | H : _ || _ = true |- _ => apply orb_true_iff in H as [?|?]
  | H : bool_decide _ = true |- _ => apply bool_decide_eq_true in H
  | H : bool_decide _ = false |- _ => apply bool_decide_eq_false in H
  | H : Z.ltb _ _ = true |- _ => apply Z.ltb_lt in H
  | H : Z.ltb _ _ = false |- _ => apply Z.ltb_ge in H
  | H : Z.leb _ _ = true |- _ => apply Z.leb_le in H
  | H : Z.leb _ _ = false |- _ => apply Z.leb_gt in H
  | H : Z.eqb _ _ = true |- _ => apply Z.eqb_eq in H
  | H : Z.eqb _ _ = false |- _ => apply Z.eqb_neq in H
  | H : true = false |- _ => discriminate H
  | H : false = true |- _ => discriminate H
  end.

(** Case analysis on every test of the goal and the hypotheses. *)
Ltac case_tests :=
  repeat match goal with
  | H : context [if ?b then _ else _] |- _ => destruct b eqn:?
  | |- context [if ?b then _ else _] => destruct b eqn:?
  | H : context [match ?o with Some _ => _ | None => _ end] |- _ => destruct o eqn:?
  | |- context [match ?o with Some _ => _ | None => _ end] => destruct o eqn:?
  end.
