(* ===== verification/Schema.v ===== *)
(** * The durable state

    The enumerations, the rows and the tables the modelled components share:
    message jobs, outbound leases, gateway sessions and groups, campaigns, runs,
    deliveries and saved group lists.  A row type has the columns the repositories
    read or write; a table is a finite map from its primary key. *)

From S2P Require Import Prelude.

(** ** Enumerations *)

(** [MESSAGE_JOB_STATUSES], and the [message_job_status] column *)
Module JobStatus.
Inductive t : Set :=
  | SCHEDULED | QUEUED | PROCESSING | ACCEPTED | SENT | DELIVERED | READ
  | FAILED | UNKNOWN | DRY_RUN_COMPLETED | CANCELLED.
#[export] Instance t_eq_dec : EqDecision t.
Proof. solve_decision. Defined.
End JobStatus.
Export (hints) JobStatus.

(** [CampaignStatus] *)
Module CampaignStatus.
Inductive t : Set := DRAFT | ACTIVE | PAUSED | ARCHIVED.
#[export] Instance t_eq_dec : EqDecision t.
Proof. solve_decision. Defined.
End CampaignStatus.
Export (hints) CampaignStatus.

(** [campaign_run_status] *)
Module RunStatus.
Inductive t : Set :=
  | PREPARING | BLOCKED | SCHEDULED | RUNNING | PAUSED
  | COMPLETED | PARTIAL_FAILED | CANCELLED | FAILED.
#[export] Instance t_eq_dec : EqDecision t.
Proof. solve_decision. Defined.
End RunStatus.
Export (hints) RunStatus.

(** [campaign_delivery_status] *)
Module DeliveryStatus.
Inductive t : Set :=
  | PENDING | MATERIALIZED | PROCESSING | DRY_RUN_COMPLETED | ACCEPTED | SENT
  | DELIVERED | READ | FAILED | UNKNOWN | BLOCKED_CAPABILITY_CHANGED | CANCELLED.
#[export] Instance t_eq_dec : EqDecision t.
Proof. solve_decision. Defined.
End DeliveryStatus.
Export (hints) DeliveryStatus.

(** [CampaignExecutionMode] *)
Module Mode.
Inductive t : Set := DRY_RUN | LIVE.
#[export] Instance t_eq_dec : EqDecision t.
Proof. solve_decision. Defined.
End Mode.
Export (hints) Mode.

(** [CampaignScheduleType] *)
Module ScheduleType.
Inductive t : Set := IMMEDIATE | ONCE.
#[export] Instance t_eq_dec : EqDecision t.
Proof. solve_decision. Defined.
End ScheduleType.
Export (hints) ScheduleType.

(** [GroupSendCapabilityStatus] *)
Module Capability.
Inductive t : Set := ALLOWED | DENIED | UNKNOWN.
#[export] Instance t_eq_dec : EqDecision t.
Proof. solve_decision. Defined.
End Capability.
Export (hints) Capability.

(** [GroupSendCapabilityReason] *)
Module CapabilityReason.
Inductive t : Set :=
  | SEND_ALLOWED | GROUP_INACTIVE | GROUP_READ_ONLY | ADMIN_ONLY
  | ADMIN_STATUS_UNKNOWN | METADATA_INCOMPLETE | GROUP_CHANGED
  | GATEWAY_PERMISSION_DENIED | MANUAL_REFRESH | REFRESH_FAILED.
#[export] Instance t_eq_dec : EqDecision t.
Proof. solve_decision. Defined.
End CapabilityReason.
Export (hints) CapabilityReason.

(** [CampaignPreflightStatus], [CampaignPreflightCheckCode] and
    [CampaignTargetIssueReason] *)
Module Preflight.
Inductive status : Set := PASS | WARN | BLOCK.
Inductive check_code : Set :=
  | CONTENT_VALID | TARGETS_VALID | SESSION_SENDABLE | GROUP_CAPABILITY | LIVE_SEND_ALLOWED.
Inductive issue_reason : Set :=
  | TARGET_CAPABILITY_DENIED | TARGET_CAPABILITY_UNKNOWN | TARGET_CAPABILITY_STALE.
#[export] Instance status_eq_dec : EqDecision status.
Proof. solve_decision. Defined.
#[export] Instance check_code_eq_dec : EqDecision check_code.
Proof. solve_decision. Defined.

(** [CampaignPreflightCheckDto], [CampaignTargetIssueDto] *)
Record check := Check_ { chk_code : check_code; chk_status : status; chk_message : string }.
Record target_issue := TargetIssue {
  ti_group_id : string; ti_group_name : string;
  ti_capability : Capability.t; ti_reason : issue_reason }.

(** [CampaignPreflightDto] *)
Record report := Report {
  rep_status : status;
  rep_policy_version : Z;
  rep_campaign_revision : Z;
  rep_targets_revision : Z;
  rep_execution_mode : Mode.t;
  rep_checked_at : timestamp;
  rep_total_targets : Z;
  rep_allowed_targets : Z;
  rep_denied_targets : Z;
  rep_unknown_targets : Z;
  rep_checks : list check;
  rep_target_issues : list target_issue }.
End Preflight.
Export (hints) Preflight.

(** ** Rows *)

(** [message_jobs]: [MessageJobRow] and the lease and hash columns *)
Record message_job := MessageJob {
  mj_idempotency_scope : string;
  mj_idempotency_key : string;
  mj_request_hash : string;
  mj_session_id : string;
  mj_recipient_id : string;
  mj_text : string;
  mj_scheduled_at : timestamp;
  mj_status : JobStatus.t;
  mj_dry_run : bool;
  mj_attempt_count : Z;
  mj_openwa_message_id : option string;
  mj_last_error : option string;
  mj_processing_started_at : option timestamp;
  mj_lease_expires_at : option timestamp;
  mj_created_at : timestamp;
  mj_updated_at : timestamp }.
#[export] Instance message_job_eta : Eta message_job := fun j => MessageJob
  (mj_idempotency_scope j) (mj_idempotency_key j) (mj_request_hash j) (mj_session_id j)
  (mj_recipient_id j) (mj_text j) (mj_scheduled_at j) (mj_status j) (mj_dry_run j)
  (mj_attempt_count j) (mj_openwa_message_id j) (mj_last_error j)
  (mj_processing_started_at j) (mj_lease_expires_at j) (mj_created_at j) (mj_updated_at j).

(** [message_attempts], keyed by (message_job_id, attempt_number) *)
Record message_attempt := MessageAttempt {
  ma_outcome : JobStatus.t;
  ma_response : option string;
  ma_error : option string }.

(** [outbound_session_leases], keyed by session *)
Record outbound_lease := OutboundLease {
  ol_lease_token : uuid;
  ol_holder_message_job_id : uuid;
  ol_lease_expires_at : timestamp;
  ol_acquired_at : timestamp;
  ol_updated_at : timestamp }.
#[export] Instance outbound_lease_eta : Eta outbound_lease := fun l => OutboundLease
  (ol_lease_token l) (ol_holder_message_job_id l) (ol_lease_expires_at l)
  (ol_acquired_at l) (ol_updated_at l).

(** [gateway_sessions]: the columns of [SessionRow] a decision reads *)
Record gateway_session := GatewaySession {
  gs_status : string;
  gs_engine_loaded : bool;
  gs_restriction : option string;
  gs_status_observed_at : timestamp;
  gs_restriction_observed_at : timestamp;
  gs_gateway_updated_at : timestamp }.
#[export] Instance gateway_session_eta : Eta gateway_session := fun s => GatewaySession
  (gs_status s) (gs_engine_loaded s) (gs_restriction s) (gs_status_observed_at s)
  (gs_restriction_observed_at s) (gs_gateway_updated_at s).

(** [gateway_groups], keyed by (session_id, id): [GroupRow] *)
Record gateway_group := GatewayGroup {
  gg_name : string;
  gg_participants_count : option Z;
  gg_is_admin : option bool;
  gg_is_read_only : option bool;
  gg_is_announce : option bool;
  gg_is_active : bool;
  gg_details_synced_at : option timestamp;
  gg_send_capability : Capability.t;
  gg_send_capability_reason : CapabilityReason.t;
  gg_capability_checked_at : option timestamp;
  gg_capability_invalidated_at : option timestamp;
  gg_capability_revision : Z;
  gg_refresh_attempt_count : Z;
  gg_refresh_next_attempt_at : timestamp;
  gg_refresh_lease_token : option uuid;
  gg_refresh_lease_expires_at : option timestamp;
  gg_refresh_error : option string }.
#[export] Instance gateway_group_eta : Eta gateway_group := fun g => GatewayGroup
  (gg_name g) (gg_participants_count g) (gg_is_admin g) (gg_is_read_only g)
  (gg_is_announce g) (gg_is_active g) (gg_details_synced_at g) (gg_send_capability g)
  (gg_send_capability_reason g) (gg_capability_checked_at g)
  (gg_capability_invalidated_at g) (gg_capability_revision g) (gg_refresh_attempt_count g)
  (gg_refresh_next_attempt_at g) (gg_refresh_lease_token g)
  (gg_refresh_lease_expires_at g) (gg_refresh_error g).

(** The four [target_source_*] columns, null together by a table constraint *)
Record target_source := TargetSource {
  ts_group_list_id : uuid;
  ts_group_list_name_snapshot : string;
  ts_membership_revision : Z;
  ts_applied_at : timestamp }.

(** [campaigns]: [CampaignRow] *)
Record campaign := Campaign {
  c_session_id : string;
  c_name : string;
  c_text : string;
  c_schedule_type : ScheduleType.t;
  c_scheduled_at : option timestamp;
  c_status : CampaignStatus.t;
  c_revision : Z;
  c_targets_revision : Z;
  c_target_source : option target_source;
  c_create_idempotency_key : option uuid;
  c_create_request_hash : option string;
  c_deleted_at : option timestamp;
  c_created_at : timestamp;
  c_updated_at : timestamp }.
#[export] Instance campaign_eta : Eta campaign := fun c => Campaign
  (c_session_id c) (c_name c) (c_text c) (c_schedule_type c) (c_scheduled_at c)
  (c_status c) (c_revision c) (c_targets_revision c) (c_target_source c)
  (c_create_idempotency_key c) (c_create_request_hash c) (c_deleted_at c)
  (c_created_at c) (c_updated_at c).

(** [campaign_targets], keyed by (campaign_id, group_id) *)
Record campaign_target := CampaignTarget { ct_session_id : string; ct_enabled : bool }.

(** [campaign_runs]: [CampaignRunRow] and the preparation columns *)
Record campaign_run := CampaignRun {
  cr_campaign_id : uuid;
  cr_session_id : string;
  cr_idempotency_key : string;
  cr_execution_mode : Mode.t;
  cr_status : RunStatus.t;
  cr_status_reason : option string;
  cr_text : string;
  cr_campaign_revision : Z;
  cr_targets_revision : Z;
  cr_target_source : option target_source;
  cr_preflight_report : option Preflight.report;
  cr_scheduled_at : timestamp;
  cr_started_at : option timestamp;
  cr_completed_at : option timestamp;
  cr_prep_attempt_count : Z;
  cr_prep_next_attempt_at : timestamp;
  cr_prep_lease_token : option uuid;
  cr_prep_lease_expires_at : option timestamp;
  cr_prep_error : option string;
  cr_created_at : timestamp;
  cr_updated_at : timestamp }.
#[export] Instance campaign_run_eta : Eta campaign_run := fun r => CampaignRun
  (cr_campaign_id r) (cr_session_id r) (cr_idempotency_key r) (cr_execution_mode r)
  (cr_status r) (cr_status_reason r) (cr_text r) (cr_campaign_revision r)
  (cr_targets_revision r) (cr_target_source r) (cr_preflight_report r)
  (cr_scheduled_at r) (cr_started_at r) (cr_completed_at r) (cr_prep_attempt_count r)
  (cr_prep_next_attempt_at r) (cr_prep_lease_token r) (cr_prep_lease_expires_at r)
  (cr_prep_error r) (cr_created_at r) (cr_updated_at r).

(** [campaign_run_targets], keyed by (run_id, group_id) *)
Record run_target := RunTarget {
  rt_session_id : string;
  rt_group_name : string;
  rt_capability : Capability.t;
  rt_capability_reason : CapabilityReason.t;
  rt_capability_revision : Z;
  rt_capability_checked_at : option timestamp }.
#[export] Instance run_target_eta : Eta run_target := fun t => RunTarget
  (rt_session_id t) (rt_group_name t) (rt_capability t) (rt_capability_reason t)
  (rt_capability_revision t) (rt_capability_checked_at t).

(** [campaign_deliveries], keyed by the unique (run_id, group_id) *)
Record delivery := Delivery {
  cd_id : uuid;
  cd_message_job_id : option uuid;
  cd_status : DeliveryStatus.t;
  cd_failure_reason : option string;
  cd_created_at : timestamp;
  cd_updated_at : timestamp }.
#[export] Instance delivery_eta : Eta delivery := fun d => Delivery
  (cd_id d) (cd_message_job_id d) (cd_status d) (cd_failure_reason d) (cd_created_at d)
  (cd_updated_at d).

(** [group_lists]: [GroupListRow] *)
Record group_list := GroupList {
  gl_session_id : string;
  gl_name : string;
  gl_description : option string;
  gl_revision : Z;
  gl_membership_revision : Z;
  gl_create_idempotency_key : option uuid;
  gl_create_request_hash : option string;
  gl_archived_at : option timestamp;
  gl_created_at : timestamp;
  gl_updated_at : timestamp }.
#[export] Instance group_list_eta : Eta group_list := fun l => GroupList
  (gl_session_id l) (gl_name l) (gl_description l) (gl_revision l)
  (gl_membership_revision l) (gl_create_idempotency_key l) (gl_create_request_hash l)
  (gl_archived_at l) (gl_created_at l) (gl_updated_at l).

(** ** The database *)

Record db := Db {
  message_jobs : gmap uuid message_job;
  message_attempts : gmap (uuid * Z) message_attempt;
  outbound_session_leases : gmap string outbound_lease;
  gateway_sessions : gmap string gateway_session;
  gateway_groups : gmap (string * string) gateway_group;
  campaigns : gmap uuid campaign;
  campaign_targets : gmap (uuid * string) campaign_target;
  campaign_runs : gmap uuid campaign_run;
  campaign_run_targets : gmap (uuid * string) run_target;
  campaign_deliveries : gmap (uuid * string) delivery;
  group_lists : gmap uuid group_list;
  (** keyed by (group_list_id, group_id), the value is the session id *)
  group_list_items : gmap (uuid * string) string }.
#[export] Instance db_eta : Eta db := fun d => Db
  (message_jobs d) (message_attempts d) (outbound_session_leases d) (gateway_sessions d)
  (gateway_groups d) (campaigns d) (campaign_targets d) (campaign_runs d)
  (campaign_run_targets d) (campaign_deliveries d) (group_lists d) (group_list_items d).

Definition empty_db : db :=
  Db ∅ ∅ ∅ ∅ ∅ ∅ ∅ ∅ ∅ ∅ ∅ ∅.

(** The part of [RuntimeConfig] the modelled components read *)
Record config := Config {
  ALLOW_LIVE_SENDS : bool;
  OPENWA_ALLOWED_SESSION_IDS : list string;
  OUTBOUND_MIN_DELAY_MS : Z;
  OUTBOUND_MAX_DELAY_MS : Z }.

(** Order on strings used by [ORDER BY] of a text column and by [Array.sort]: the
    order of their code units *)
Definition text_leb (a b : string) : bool := String.leb a b.

Lemma text_leb_total a b : text_leb a b = true \/ text_leb b a = true.
Proof. apply String.leb_total. Qed.

Lemma text_leb_antisym a b : text_leb a b = true -> text_leb b a = true -> a = b.
Proof. apply String.leb_antisym. Qed.

Lemma text_leb_cons x a y b : text_leb (String x a) (String y b) =
  match Ascii.compare x y with Lt => true | Eq => text_leb a b | Gt => false end.
Proof. unfold text_leb, String.leb. cbn. by destruct (Ascii.compare x y). Qed.

Lemma text_leb_trans a b c : text_leb a b = true -> text_leb b c = true -> text_leb a c = true.
Proof.
  revert b c. induction a as [|x a IH]; intros b c; [by destruct c|].
  destruct b as [|y b]; [done|]. destruct c as [|z c]; [done|].
  rewrite !text_leb_cons. unfold Ascii.compare.
  destruct (N.compare_spec (Ascii.N_of_ascii x) (Ascii.N_of_ascii y)) as [E|E|E];
  destruct (N.compare_spec (Ascii.N_of_ascii y) (Ascii.N_of_ascii z)) as [F|F|F]; try done;
  destruct (N.compare_spec (Ascii.N_of_ascii x) (Ascii.N_of_ascii z)) as [G|G|G]; try done; try lia.
  apply IH.
Qed.

(** Sorting by [text_leb] depends only on the elements. *)
Lemma text_sort_unique (l l' : list string) : l ≡ₚ l' -> order_by text_leb l = order_by text_leb l'.
Proof.
  intros Hp. assert (Hs : forall k, StronglySorted (fun a b => Is_true (text_leb a b)) (order_by text_leb k)).
  { intros k. apply Sorted_StronglySorted; [|apply order_by_sorted, text_leb_total].
    intros a b c. rewrite !Is_true_true. apply text_leb_trans. }
  assert (AntiSymm eq (fun a b => Is_true (text_leb a b))).
  { intros a b. rewrite !Is_true_true. apply text_leb_antisym. }
  apply (StronglySorted_unique (fun a b => Is_true (text_leb a b))); [done|done|].
  by rewrite !order_by_Permutation.
Qed.
