(* ===== verification/Json.v ===== *)
(** * JSON.stringify

    The request hashes of campaigns and group lists are taken over
    [JSON.stringify] of an object of strings, nulls and arrays of strings.
    [json_string] is QuoteJSONString of ECMAScript over the code units 0..255; what
    it writes can be read back, whatever follows. *)

From S2P Require Import Prelude.

Module Json.
#[local] Arguments String.append !_ _ /.

Definition chr (n : nat) : Ascii.ascii := Ascii.ascii_of_nat n.
Definition text (c : Ascii.ascii) : string := String c EmptyString.
Definition quote_mark : Ascii.ascii := chr 34.
Definition backslash : Ascii.ascii := chr 92.

Definition hex_digit (n : nat) : Ascii.ascii := if (n <? 10)%nat then chr (48 + n) else chr (87 + n).

(** One code unit inside a JSON string *)
Definition escape (c : Ascii.ascii) : string :=
  let n := Ascii.nat_of_ascii c in
  if (n =? 8)%nat then String backslash "b"
  else if (n =? 9)%nat then String backslash "t"
  else if (n =? 10)%nat then String backslash "n"
  else if (n =? 12)%nat then String backslash "f"
  else if (n =? 13)%nat then String backslash "r"
  else if (n =? 34)%nat || (n =? 92)%nat then String backslash (text c)
  else if (n <? 32)%nat
  then String backslash ("u00" ++ String (hex_digit (n / 16)) (text (hex_digit (n mod 16))))
  else text c.

Fixpoint escape_all (s : string) : string :=
  match s with
  | EmptyString => EmptyString
  | String c s' => (escape c ++ escape_all s')%string
  end.

Definition json_string (s : string) : string :=
  String quote_mark (escape_all s ++ text quote_mark)%string.

Definition json_nullable (s : option string) : string :=
  match s with Some s => json_string s | None => "null" end.

Fixpoint json_elements (l : list string) : string :=
  match l with
  | [] => "]"
  | [s] => (json_string s ++ "]")%string
  | s :: l' => (json_string s ++ "," ++ json_elements l')%string
  end.

Definition json_array (l : list string) : string := ("[" ++ json_elements l)%string.

(** The members of an object; keys are literals without characters to escape *)
Definition member (key value rest : string) : string :=
  (json_string key ++ ":" ++ value ++ rest)%string.

(** *** Reading back *)

Definition hex_value (c : Ascii.ascii) : nat :=
  let n := Ascii.nat_of_ascii c in if (n <? 58)%nat then n - 48 else n - 87.

(** One code unit read from the inside of a JSON string; [None] at the closing mark *)
Definition read_one (s : string) : option (Ascii.ascii * string) :=
  match s with
  | EmptyString => None
  | String c rest =>
      if Ascii.eqb c quote_mark then None
      else if negb (Ascii.eqb c backslash) then Some (c, rest)
      else match rest with
           | String e rest1 =>
               let n := Ascii.nat_of_ascii e in
               if (n =? 98)%nat then Some (chr 8, rest1)
               else if (n =? 116)%nat then Some (chr 9, rest1)
               else if (n =? 110)%nat then Some (chr 10, rest1)
               else if (n =? 102)%nat then Some (chr 12, rest1)
               else if (n =? 114)%nat then Some (chr 13, rest1)
               else if (n =? 117)%nat then
                 match rest1 with
                 | String _ (String _ (String h (String l rest2))) =>
                     Some (chr (16 * hex_value h + hex_value l), rest2)
                 | _ => None
                 end
               else Some (e, rest1)
           | EmptyString => None
           end
  end.

Lemma append_assoc (a b c : string) : ((a ++ b) ++ c)%string = (a ++ b ++ c)%string.
Proof. induction a as [|x a IH]; cbn; [done|by rewrite IH]. Qed.

Lemma append_cancel (a b c : string) : (a ++ b)%string = (a ++ c)%string -> b = c.
Proof. induction a as [|x a IH]; cbn; [done|]. intros [= E]. by apply IH. Qed.

Lemma read_escape c s : read_one (escape c ++ s) = Some (c, s).
Proof. by destruct c as [[] [] [] [] [] [] [] []]. Qed.

Lemma read_end s : read_one (String quote_mark s) = None.
Proof. done. Qed.

Lemma escape_all_inj a b x y :
  (escape_all a ++ String quote_mark x)%string = (escape_all b ++ String quote_mark y)%string -> a = b /\ x = y.
Proof.
  revert b. induction a as [|c a IH]; intros [|c' b]; cbn [escape_all]; rewrite ?append_assoc; intros E.
  - cbn in E. by injection E as ->.
  - apply (f_equal read_one) in E. by rewrite read_escape in E.
  - apply (f_equal read_one) in E. by rewrite read_escape in E.
  - apply (f_equal read_one) in E. rewrite !read_escape in E. injection E as -> E.
    by destruct (IH _ E) as [-> ->].
Qed.

(** A JSON string ends where its closing mark is, so what follows can be told apart. *)
Lemma json_string_inj a b x y : (json_string a ++ x)%string = (json_string b ++ y)%string -> a = b /\ x = y.
Proof.
  unfold json_string. cbn. rewrite !append_assoc. intros [= E]. by apply escape_all_inj in E.
Qed.

Lemma json_string_null a x y : (json_string a ++ x)%string <> ("null" ++ y)%string.
Proof. intros E. apply (f_equal (String.get 0)) in E. vm_compute in E. done. Qed.

Lemma json_nullable_inj a b x y :
  (json_nullable a ++ x)%string = (json_nullable b ++ y)%string -> a = b /\ x = y.
Proof.
  destruct a as [a|], b as [b|]; cbn [json_nullable]; intros E.
  - by apply json_string_inj in E as [-> ->].
  - by apply json_string_null in E.
  - by apply eq_sym, json_string_null in E.
  - split; [done|]. by apply append_cancel in E.
Qed.

Lemma json_elements_inj l l' x y :
  (json_elements l ++ x)%string = (json_elements l' ++ y)%string -> l = l' /\ x = y.
Proof.
  revert l'. induction l as [|a l IH]; intros l' E.
  - destruct l' as [|b [|c l']]; cbn in E; [by injection E as ->| |]; by injection E.
  - destruct l' as [|b l'].
    { destruct l as [|a' l]; cbn in E; by injection E. }
    assert (Hstep : forall (s : string) (t : list string) (z : string),
      (json_elements (s :: t) ++ z)%string =
      (json_string s ++ (match t with [] => "]" | _ => "," ++ json_elements t end) ++ z)%string).
    { intros s [|t0 t] z; cbn [json_elements]; by rewrite !append_assoc. }
    rewrite !Hstep in E. apply json_string_inj in E as [-> E].
    destruct l as [|a' l], l' as [|b' l']; cbn in E; try discriminate E; injection E as E.
    + done.
    + destruct (IH (b' :: l') E) as [-> ->]. done.
Qed.

Lemma json_array_inj l l' x y : (json_array l ++ x)%string = (json_array l' ++ y)%string -> l = l' /\ x = y.
Proof. unfold json_array. cbn. intros [= E]. by apply json_elements_inj. Qed.

(** A member is read off the front of an object. *)
Lemma member_inj {A : Type} (write : A -> string) (key : string) (v v' : A) (x y : string) :
  (write v ++ x = write v' ++ y -> v = v' /\ x = y)%string ->
  member key (write v) x = member key (write v') y -> v = v' /\ x = y.
Proof.
  unfold member. intros Hv E. apply append_cancel in E. cbn in E. injection E as E. by apply Hv.
Qed.

Example json_string_example : json_string (String (chr 10) "a") =
  String quote_mark (String backslash ("na" ++ text quote_mark)).
Proof. reflexivity. Qed.

End Json.
