(* ===== verification/MessageJobs.v ===== *)
(** * Message jobs

    [src/modules/messages/message-job.repository.ts] and
    [message-idempotency.ts]: the durable outbox of single sends.  A job is
    inserted once per (scope, key), queued when due, claimed for processing at
    most once, and then only moves forward.  [now] is the timestamp of the
    transaction; [gen_random_uuid()] is the argument [new_id]. *)

From S2P Require Import Prelude Schema.

(** ** The request hash *)

Module Idempotency.
Section RequestHash.
(** [createHash('sha256')...digest('hex')] and [new Date(s).toISOString()] *)
Variable sha256 : string -> string.
Variable to_iso : string -> string.

Definition newline_char : Ascii.ascii := Ascii.ascii_of_nat 10.
Definition newline : string := String newline_char EmptyString.

(** [parts.join('\n')] *)
Fixpoint join_lines (parts : list string) : string :=
  match parts with
  | [] => ""
  | [p] => p
  | p :: rest => (p ++ newline ++ join_lines rest)%string
  end.

Record request := Request {
  rq_session_id : string;
  rq_recipient_id : string;
  rq_text : string;
  rq_scheduled_at : option string;
  rq_dry_run : bool }.

Definition hash_input (r : request) : string :=
  let scheduledAt :=
    match rq_scheduled_at r with
    | Some s => if truthy s then to_iso s else ""
    | None => ""
    end in
  join_lines [rq_session_id r; rq_recipient_id r; rq_text r; scheduledAt;
              if rq_dry_run r then "true" else "false"].

Definition messageRequestHash (r : request) : string := sha256 (hash_input r).
End RequestHash.
#[local] Opaque newline_char.
#[local] Arguments String.append !_ _ /.

(** [s.includes('\n')] *)
Fixpoint has_newline (s : string) : bool :=
  match s with
  | EmptyString => false
  | String c s' => Ascii.eqb c newline_char || has_newline s'
  end.

Lemma newline_first a b a' b' : has_newline a = false -> has_newline a' = false ->
  (a ++ String newline_char b)%string = (a' ++ String newline_char b')%string -> a = a' /\ b = b'.
Proof.
  revert a'. induction a as [|c a IH]; intros [|c' a'] Ha Ha' E; cbn in *.
  - by injection E as ->.
  - injection E as <- _. by rewrite Ascii.eqb_refl in Ha'.
  - injection E as -> _. by rewrite Ascii.eqb_refl in Ha.
  - injection E as <- E. split_bool. destruct (IH a') as [-> ->]; done.
Qed.

Lemma newline_inside s b : has_newline (s ++ String newline_char b) = true.
Proof. induction s as [|c s IH]; cbn; [done|]. by rewrite IH, orb_true_r. Qed.

Lemma newline_last a b a' b' : has_newline b = false -> has_newline b' = false ->
  (a ++ String newline_char b)%string = (a' ++ String newline_char b')%string -> a = a' /\ b = b'.
Proof.
  intros Hb Hb'. revert a'. induction a as [|c a IH]; intros [|c' a'] E; cbn in *.
  - by injection E as ->.
  - injection E as _ ->. by rewrite newline_inside in Hb.
  - injection E as _ <-. by rewrite newline_inside in Hb'.
  - injection E as <- E. by destruct (IH a' E) as [-> ->].
Qed.

Lemma last_line_assoc (a b c : string) :
  ((a ++ String newline_char b) ++ String newline_char c)%string =
  (a ++ String newline_char (b ++ String newline_char c))%string.
Proof. induction a as [|x a IH]; cbn; [done|]. by rewrite IH. Qed.

(** The request hash separates requests.  When the ids hold no line break and
    ISO timestamps hold none, the string that is hashed determines the session,
    the recipient, the text (which may hold line breaks), the instant the request
    is scheduled for and the dry-run flag. *)
Theorem hash_input_injective to_iso r r' :
  (forall s, has_newline (to_iso s) = false) ->
  has_newline (rq_session_id r) = false -> has_newline (rq_session_id r') = false ->
  has_newline (rq_recipient_id r) = false -> has_newline (rq_recipient_id r') = false ->
  hash_input to_iso r = hash_input to_iso r' ->
  rq_session_id r = rq_session_id r' /\ rq_recipient_id r = rq_recipient_id r' /\
  rq_text r = rq_text r' /\ rq_dry_run r = rq_dry_run r' /\
  forall s, rq_scheduled_at r = Some s -> truthy s = true -> truthy (to_iso s) = true ->
    exists s', rq_scheduled_at r' = Some s' /\ to_iso s' = to_iso s.
Proof.
  intros Hiso Hs Hs' Hr Hr' E. unfold hash_input in E.
  set (at_ := match rq_scheduled_at r with Some _ => _ | None => _ end) in E.
  set (at' := match rq_scheduled_at r' with Some _ => _ | None => _ end) in E.
  assert (Ha : has_newline at_ = false).
  { unfold at_. destruct (rq_scheduled_at r) as [s|]; [|done]. by destruct (truthy s). }
  assert (Ha' : has_newline at' = false).
  { unfold at'. destruct (rq_scheduled_at r') as [s|]; [|done]. by destruct (truthy s). }
  cbn in E.
  apply newline_first in E as [E1 E]; [|done|done].
  apply newline_first in E as [E2 E]; [|done|done].
  rewrite <- !last_line_assoc in E.
  apply newline_last in E as [E E5]; [|by destruct (rq_dry_run r)|by destruct (rq_dry_run r')].
  apply newline_last in E as [E3 E4]; [|done|done].
  split_and!; [done|done|done|by destruct (rq_dry_run r), (rq_dry_run r')|].
  intros s Hs1 Hs2 Hs3. unfold at_, at' in E4. rewrite Hs1, Hs2 in E4.
  destruct (rq_scheduled_at r') as [s'|]; [|by rewrite E4 in Hs3].
  destruct (truthy s'); [eauto|by rewrite E4 in Hs3].
Qed.

#[local] Transparent newline_char.
(** Two different requests with one hash input: a dry run may name any recipient. *)
Example hash_input_collision (to_iso : string -> string) :
  let r := Request "s" ("a" ++ newline ++ "b") "c" None true in
  let r' := Request "s" "a" ("b" ++ newline ++ "c") None true in
  hash_input to_iso r = hash_input to_iso r' /\ r <> r'.
Proof. split; [reflexivity|discriminate]. Qed.
End Idempotency.

(** ** The repository *)

Module Repo.

Record create_input := CreateInput {
  in_scope : string;
  in_key : string;
  in_hash : string;
  in_session_id : string;
  in_recipient_id : string;
  in_text : string;
  in_scheduled_at : timestamp;
  in_dry_run : bool }.

Record create_result := CreateResult {
  res_id : uuid;
  res_job : message_job;
  res_created : bool;
  res_conflict : bool }.

Definition same_key (scope key : string) (j : message_job) : bool :=
  bool_decide (mj_idempotency_scope j = scope) && bool_decide (mj_idempotency_key j = key).

(** The inserted row, with the column defaults of the table *)
Definition new_job (now : timestamp) (i : create_input) : message_job :=
  MessageJob (in_scope i) (in_key i) (in_hash i) (in_session_id i) (in_recipient_id i)
    (in_text i) (in_scheduled_at i) JobStatus.SCHEDULED (in_dry_run i) 0 None None None None
    now now.

(** [create] and [createWithClient]: INSERT .. ON CONFLICT (scope, key) DO NOTHING,
    then the existing row with the comparison of its hash.  [None] is the
    [rows[0]!] of a row that is not there. *)
Definition create (now : timestamp) (new_id : uuid) (i : create_input) (d : db)
    : option create_result * db :=
  let conflict := fun (_ : uuid) j => same_key (in_scope i) (in_key i) j in
  match find_where conflict (message_jobs d) with
  | None =>
      let row := new_job now i in
      (Some (CreateResult new_id row true false),
       d <| message_jobs := <[new_id := row]> (message_jobs d) |>)
  | Some (id, row) =>
      (Some (CreateResult id row false (negb (bool_decide (mj_request_hash row = in_hash i)))), d)
  end.

Definition find (id : uuid) (d : db) : option message_job := message_jobs d !! id.

(** [claimDue]: [locked] are the rows another transaction holds ([SKIP LOCKED]) *)
Definition due (locked : uuid -> bool) (now : timestamp) (id : uuid) (j : message_job) : bool :=
  bool_decide (mj_status j = JobStatus.SCHEDULED) && (mj_scheduled_at j <=? now)%Z
  && negb (locked id).

Definition by_scheduled_at (a b : uuid * message_job) : bool :=
  (mj_scheduled_at a.2 <=? mj_scheduled_at b.2)%Z.

Definition due_rows (locked : uuid -> bool) (now : timestamp) (limit : nat) (d : db)
    : list (uuid * message_job) :=
  take limit (order_by by_scheduled_at (select_where (due locked now) (message_jobs d))).

Definition claimDue (locked : uuid -> bool) (now : timestamp) (limit : nat) (d : db)
    : list (uuid * message_job) * db :=
  let rows := due_rows locked now limit d in
  match rows with
  | [] => ([], d)
  | _ =>
      let ids := rows.*1 in
      (map (fun kv => (kv.1, kv.2 <| mj_status := JobStatus.QUEUED |>)) rows,
       d <| message_jobs := update_where (fun id _ => mem id ids)
              (fun j => j <| mj_status := JobStatus.QUEUED |> <| mj_updated_at := now |>)
              (message_jobs d) |>)
  end.

Definition two_minutes : Z := 120000.

Definition markProcessing (now : timestamp) (id : uuid) (d : db) : option message_job * db :=
  let '(row, jobs) := update_row id
    (fun j => bool_decide (mj_status j = JobStatus.QUEUED))
    (fun j => j <| mj_status := JobStatus.PROCESSING |>
                <| mj_attempt_count := (mj_attempt_count j + 1)%Z |>
                <| mj_processing_started_at := Some now |>
                <| mj_lease_expires_at := Some (now + two_minutes)%Z |>
                <| mj_updated_at := now |>)
    (message_jobs d) in
  (row, d <| message_jobs := jobs |>).

Definition refreshProcessingLease (now : timestamp) (id : uuid) (d : db) : bool * db :=
  let '(row, jobs) := update_row id
    (fun j => bool_decide (mj_status j = JobStatus.PROCESSING) && after (mj_lease_expires_at j) now)
    (fun j => j <| mj_lease_expires_at := Some (now + two_minutes)%Z |> <| mj_updated_at := now |>)
    (message_jobs d) in
  (negb (is_null row), d <| message_jobs := jobs |>).

Definition resetQueued (now : timestamp) (id : uuid) (error : string) (d : db) : db :=
  d <| message_jobs := (update_row id
    (fun j => bool_decide (mj_status j = JobStatus.QUEUED))
    (fun j => j <| mj_status := JobStatus.SCHEDULED |> <| mj_last_error := Some error |>
                <| mj_updated_at := now |>)
    (message_jobs d)).2 |>.

Definition stale_queued (now : timestamp) (_ : uuid) (j : message_job) : bool :=
  bool_decide (mj_status j = JobStatus.QUEUED) && (mj_updated_at j <? now - two_minutes)%Z.

Definition recoverStaleQueued (now : timestamp) (d : db) : Z * db :=
  (count_where (stale_queued now) (message_jobs d),
   d <| message_jobs := update_where (stale_queued now)
     (fun j => j <| mj_status := JobStatus.SCHEDULED |>
                 <| mj_last_error := Some "Recovered stale queued job" |>
                 <| mj_updated_at := now |>)
     (message_jobs d) |>).

Definition lease_expired_error : string :=
  "Processing lease expired; delivery outcome is unknown".

Definition expired_processing (now : timestamp) (_ : uuid) (j : message_job) : bool :=
  bool_decide (mj_status j = JobStatus.PROCESSING) && before (mj_lease_expires_at j) now.

(** INSERT INTO message_attempts .. ON CONFLICT (message_job_id, attempt_number) DO NOTHING *)
Definition insert_attempt (id : uuid) (number : Z) (a : message_attempt)
    (t : gmap (uuid * Z) message_attempt) : gmap (uuid * Z) message_attempt :=
  insert_absent (id, number) a t.

(** The INSERT .. SELECT of the attempts of the rows that expired *)
Fixpoint log_expired (expired : list (uuid * message_job)) (t : gmap (uuid * Z) message_attempt)
    : gmap (uuid * Z) message_attempt :=
  match expired with
  | [] => t
  | (id, j) :: rest =>
      insert_attempt id (mj_attempt_count j)
        (MessageAttempt JobStatus.UNKNOWN None (Some lease_expired_error)) (log_expired rest t)
  end.

Definition markExpiredProcessingUnknown (now : timestamp) (d : db) : Z * db :=
  let expired := select_where (expired_processing now) (message_jobs d) in
  (count_where (expired_processing now) (message_jobs d),
   d <| message_jobs := update_where (expired_processing now)
          (fun j => j <| mj_status := JobStatus.UNKNOWN |>
                      <| mj_last_error := Some lease_expired_error |>
                      <| mj_lease_expires_at := None |> <| mj_updated_at := now |>)
          (message_jobs d) |>
     <| message_attempts := log_expired expired (message_attempts d) |>).

Record result_options := ResultOptions {
  opt_openwa_message_id : option string;
  opt_error : option string;
  opt_response : option string }.

Definition updateResult (now : timestamp) (id : uuid) (status : JobStatus.t)
    (options : result_options) (d : db) : db :=
  let '(updated, jobs) := update_row id
    (fun j => bool_decide (mj_status j = JobStatus.PROCESSING))
    (fun j => j <| mj_status := status |>
                <| mj_openwa_message_id :=
                     coalesce (opt_openwa_message_id options) (mj_openwa_message_id j) |>
                <| mj_last_error := opt_error options |>
                <| mj_lease_expires_at := None |> <| mj_updated_at := now |>)
    (message_jobs d) in
  match updated with
  | Some row =>
      d <| message_jobs := jobs |>
        <| message_attempts := insert_attempt id (mj_attempt_count row)
             (MessageAttempt status (Some (default "null" (opt_response options))) (opt_error options))
             (message_attempts d) |>
  | None => d
  end.

(** The two CASE expressions of the acknowledgement update *)
Definition ack_rank (s : JobStatus.t) : Z :=
  match s with
  | JobStatus.ACCEPTED => 10 | JobStatus.SENT => 20
  | JobStatus.DELIVERED => 30 | JobStatus.READ => 40
  | _ => 0
  end.

Definition ack_applies (status current : JobStatus.t) : bool :=
  negb (mem current [JobStatus.FAILED; JobStatus.CANCELLED; JobStatus.DRY_RUN_COMPLETED])
  && (bool_decide (status = JobStatus.FAILED)
        && mem current [JobStatus.SCHEDULED; JobStatus.QUEUED; JobStatus.PROCESSING;
                        JobStatus.ACCEPTED; JobStatus.UNKNOWN]
      || negb (bool_decide (status = JobStatus.FAILED))
        && (ack_rank current <? ack_rank status)%Z).

Definition updateStatusByOpenWAMessageId (now : timestamp) (openwaMessageId : string)
    (status : JobStatus.t) (d : db) : db :=
  d <| message_jobs := update_where
    (fun _ j => bool_decide (mj_openwa_message_id j = Some openwaMessageId)
                && ack_applies status (mj_status j))
    (fun j => j <| mj_status := status |> <| mj_updated_at := now |>)
    (message_jobs d) |>.

(** The statement [CampaignRunLifecycleRepository.cancel] issues on this table *)
Definition cancelJobs (now : timestamp) (ids : uuid -> bool) (d : db) : db :=
  d <| message_jobs := update_where
    (fun id j => ids id && mem (mj_status j) [JobStatus.SCHEDULED; JobStatus.QUEUED])
    (fun j => j <| mj_status := JobStatus.CANCELLED |> <| mj_updated_at := now |>)
    (message_jobs d) |>.

End Repo.

(** ** How one row moves *)

Module Lifecycle.
Import Repo.

(** The statements above, seen from one row *)
Inductive row_step : message_job -> message_job -> Prop :=
  | rs_same j : row_step j j
  | rs_queue now j : mj_status j = JobStatus.SCHEDULED ->
      row_step j (j <| mj_status := JobStatus.QUEUED |> <| mj_updated_at := now |>)
  | rs_requeue now error j : mj_status j = JobStatus.QUEUED ->
      row_step j (j <| mj_status := JobStatus.SCHEDULED |> <| mj_last_error := Some error |>
                    <| mj_updated_at := now |>)
  | rs_start now j : mj_status j = JobStatus.QUEUED ->
      row_step j (j <| mj_status := JobStatus.PROCESSING |>
                    <| mj_attempt_count := (mj_attempt_count j + 1)%Z |>
                    <| mj_processing_started_at := Some now |>
                    <| mj_lease_expires_at := Some (now + two_minutes)%Z |>
                    <| mj_updated_at := now |>)
  | rs_refresh now j : mj_status j = JobStatus.PROCESSING ->
      row_step j (j <| mj_lease_expires_at := Some (now + two_minutes)%Z |>
                    <| mj_updated_at := now |>)
  | rs_expire now j : mj_status j = JobStatus.PROCESSING -> before (mj_lease_expires_at j) now = true ->
      row_step j (j <| mj_status := JobStatus.UNKNOWN |>
                    <| mj_last_error := Some lease_expired_error |>
                    <| mj_lease_expires_at := None |> <| mj_updated_at := now |>)
  | rs_result now status options j : mj_status j = JobStatus.PROCESSING ->
      mem status [JobStatus.ACCEPTED; JobStatus.FAILED; JobStatus.UNKNOWN;
                  JobStatus.DRY_RUN_COMPLETED] = true ->
      row_step j (j <| mj_status := status |>
                    <| mj_openwa_message_id :=
                         coalesce (opt_openwa_message_id options) (mj_openwa_message_id j) |>
                    <| mj_last_error := opt_error options |>
                    <| mj_lease_expires_at := None |> <| mj_updated_at := now |>)
  | rs_ack now status wa j : mj_openwa_message_id j = Some wa ->
      mem status [JobStatus.SENT; JobStatus.DELIVERED; JobStatus.READ; JobStatus.FAILED] = true ->
      ack_applies status (mj_status j) = true ->
      row_step j (j <| mj_status := status |> <| mj_updated_at := now |>)
  | rs_cancel now j : mem (mj_status j) [JobStatus.SCHEDULED; JobStatus.QUEUED] = true ->
      row_step j (j <| mj_status := JobStatus.CANCELLED |> <| mj_updated_at := now |>).

(** Waiting for a worker, in a worker's hands, decided *)
Definition phase (s : JobStatus.t) : nat :=
  match s with
  | JobStatus.SCHEDULED | JobStatus.QUEUED => 0
  | JobStatus.PROCESSING => 1
  | _ => 2
  end.

Definition job_ok (j : message_job) : Prop :=
  (0 <= mj_attempt_count j <= 1)%Z /\
  (phase (mj_status j) = 0%nat -> mj_attempt_count j = 0%Z) /\
  (phase (mj_status j) = 1%nat -> mj_attempt_count j = 1%Z /\ is_Some (mj_lease_expires_at j)) /\
  (is_Some (mj_openwa_message_id j) -> phase (mj_status j) = 2%nat /\ mj_attempt_count j = 1%Z).

Definition same_intent (j j' : message_job) : Prop :=
  mj_idempotency_scope j' = mj_idempotency_scope j /\
  mj_idempotency_key j' = mj_idempotency_key j /\
  mj_request_hash j' = mj_request_hash j /\
  mj_session_id j' = mj_session_id j /\ mj_recipient_id j' = mj_recipient_id j /\
  mj_text j' = mj_text j /\ mj_dry_run j' = mj_dry_run j.

(** Replace the statuses a step names by their values. *)
Ltac use_status :=
  repeat match goal with
  | E : mj_status ?j = _ |- _ => rewrite E in *; clear E; cbn in *
  | E : mem (mj_status ?j) _ = true |- _ => destruct (mj_status j) eqn:?; try discriminate E; clear E
  | E : mem ?s _ = true |- _ => is_var s; destruct s; try discriminate E; clear E
  end.

Lemma row_step_ok j j' : row_step j j' -> job_ok j -> job_ok j'.
Proof.
  intros Hs (Hr & H0 & H1 & Hw). unfold job_ok.
  destruct Hs; cbn in *; use_status; try done.
  all: try rewrite (H0 eq_refl) in *.
  all: try destruct (H1 eq_refl) as [Ha Hl]; try rewrite Ha in *.
  all: split_and!; try done; try lia; eauto.
  all: try (intros Hsome; destruct (Hw Hsome) as [? ?]; split; done).
  all: match goal with E : mj_openwa_message_id _ = Some _ |- _ =>
         destruct (Hw (mk_is_Some _ _ E)) as [? ?]; by split
       end.
Qed.

Lemma row_step_phase j j' : job_ok j -> row_step j j' ->
  (phase (mj_status j) <= phase (mj_status j'))%nat.
Proof.
  intros (_ & _ & _ & Hw) Hs.
  destruct Hs as [| | | | | | |now status wa j Hid Hst Happ|]; cbn in *; try done;
    try (use_status; cbn; lia).
  destruct (Hw (mk_is_Some _ _ Hid)) as [-> _].
  use_status; cbn; lia.
Qed.

Lemma row_step_intent j j' : row_step j j' -> same_intent j j'.
Proof. by destruct 1. Qed.

(** *** Every statement of the repository, as its callers issue it *)

Inductive op (d : db) : db -> Prop :=
  | op_create now new_id i : message_jobs d !! new_id = None -> op d (create now new_id i d).2
  | op_claim locked now limit : op d (claimDue locked now limit d).2
  | op_start now id : op d (markProcessing now id d).2
  | op_refresh now id : op d (refreshProcessingLease now id d).2
  | op_reset now id error : op d (resetQueued now id error d)
  | op_recover now : op d (recoverStaleQueued now d).2
  | op_expire now : op d (markExpiredProcessingUnknown now d).2
  | op_result now id status options :
      mem status [JobStatus.ACCEPTED; JobStatus.FAILED; JobStatus.UNKNOWN;
                  JobStatus.DRY_RUN_COMPLETED] = true ->
      op d (updateResult now id status options d)
  | op_ack now wa status :
      mem status [JobStatus.SENT; JobStatus.DELIVERED; JobStatus.READ; JobStatus.FAILED] = true ->
      op d (updateStatusByOpenWAMessageId now wa status d)
  | op_cancel now ids : op d (cancelJobs now ids d)
  (** a statement on other tables *)
  | op_other d' : message_jobs d' = message_jobs d -> message_attempts d' = message_attempts d ->
      op d d'.

Definition kept (d d' : db) : Prop :=
  forall id j, message_jobs d !! id = Some j ->
    exists j', message_jobs d' !! id = Some j' /\ row_step j j'.

Lemma kept_update_where P f (d : db) jobs :
  jobs = update_where P f (message_jobs d) ->
  (forall id j, message_jobs d !! id = Some j -> P id j = true -> row_step j (f j)) ->
  kept d (d <| message_jobs := jobs |>).
Proof.
  intros -> Hf id j Hj. cbn. rewrite lookup_update_where, Hj. cbn.
  eexists. split; [done|]. destruct (P id j) eqn:E; [eauto|constructor].
Qed.

Lemma kept_update_row k W f (d : db) jobs :
  jobs = (update_row k W f (message_jobs d)).2 ->
  (forall j, message_jobs d !! k = Some j -> W j = true -> row_step j (f j)) ->
  kept d (d <| message_jobs := jobs |>).
Proof.
  intros -> Hf id j Hj. cbn. rewrite lookup_update_row, Hj. cbn.
  eexists. split; [done|]. case_bool_decide as Hk; subst; cbn; [|constructor].
  destruct (W j) eqn:E; [eauto|constructor].
Qed.

Lemma kept_same_jobs (d d' : db) : message_jobs d' = message_jobs d -> kept d d'.
Proof. intros E id j Hj. rewrite E. exists j. split; [done|constructor]. Qed.

Lemma due_rows_spec locked now limit d id j :
  (id, j) ∈ due_rows locked now limit d ->
  message_jobs d !! id = Some j /\ due locked now id j = true.
Proof. intros Hin%take_elem%order_by_elem. by apply select_where_elem in Hin. Qed.

Lemma claimDue_jobs locked now limit d id :
  message_jobs (claimDue locked now limit d).2 !! id =
    (fun j => if mem id (due_rows locked now limit d).*1
              then j <| mj_status := JobStatus.QUEUED |> <| mj_updated_at := now |>
              else j) <$> message_jobs d !! id.
Proof.
  unfold claimDue. destruct (due_rows locked now limit d) as [|r rows] eqn:E; cbn [snd].
  - cbn. by destruct (message_jobs d !! id).
  - cbn [message_jobs]. unfold upd. cbn [message_jobs]. by rewrite lookup_update_where.
Qed.

Lemma claimed_is_due locked now limit d id j :
  message_jobs d !! id = Some j -> mem id (due_rows locked now limit d).*1 = true ->
  due locked now id j = true.
Proof.
  intros Hj Hm%mem_true. apply list_elem_of_fmap in Hm as ([id' j'] & -> & Hin).
  apply due_rows_spec in Hin as [Hj' Hd]. cbn in *. congruence.
Qed.

Lemma updateResult_jobs now id status options d :
  message_jobs (updateResult now id status options d) =
    (update_row id (fun j => bool_decide (mj_status j = JobStatus.PROCESSING))
      (fun j => j <| mj_status := status |>
                  <| mj_openwa_message_id :=
                       coalesce (opt_openwa_message_id options) (mj_openwa_message_id j) |>
                  <| mj_last_error := opt_error options |>
                  <| mj_lease_expires_at := None |> <| mj_updated_at := now |>)
      (message_jobs d)).2.
Proof.
  unfold updateResult.
  destruct (update_row id _ _ (message_jobs d)) as [[row|] jobs] eqn:E; [done|].
  by apply update_row_None in E as [-> _].
Qed.

Lemma op_kept d d' : op d d' -> kept d d'.
Proof.
  destruct 1 as [now nid i Hn|locked now limit|now id|now id|now id e|now|now|now id st o Hst
                |now wa st Hst|now ids|d' Ej Ea].
  - intros id j Hj. exists j. split; [|constructor]. unfold create.
    destruct (find_where _ _) as [[? ?]|]; [done|]. cbn.
    rewrite lookup_insert_ne; congruence.
  - intros id j Hj. rewrite claimDue_jobs, Hj. cbn. eexists. split; [done|].
    destruct (mem id _) eqn:Hm; [|constructor].
    apply (claimed_is_due _ _ _ _ _ _ Hj) in Hm. unfold due in Hm. split_bool.
    by constructor.
  - unfold markProcessing. destruct (update_row _ _ _ _) as [row jobs] eqn:E.
    eapply kept_update_row; [by rewrite E|]. intros j _ Hp. split_bool. by constructor.
  - unfold refreshProcessingLease. destruct (update_row _ _ _ _) as [row jobs] eqn:E.
    eapply kept_update_row; [by rewrite E|]. intros j _ Hp. split_bool. by constructor.
  - eapply kept_update_row; [done|]. intros j _ Hp. split_bool. by constructor.
  - eapply kept_update_where; [done|]. intros id j _ Hp. unfold stale_queued in Hp.
    split_bool. by constructor.
  - intros id j Hj. cbn. rewrite lookup_update_where, Hj. cbn. eexists. split; [done|].
    destruct (expired_processing now id j) eqn:Hp; [|constructor].
    unfold expired_processing in Hp. split_bool. by constructor.
  - intros id' j Hj. rewrite updateResult_jobs, lookup_update_row, Hj. cbn.
    eexists. split; [done|]. case_bool_decide; cbn; [|constructor].
    case_bool_decide; [|constructor]. by constructor.
  - eapply kept_update_where; [done|]. intros id j _ Hp. split_bool. by econstructor.
  - eapply kept_update_where; [done|]. intros id j _ Hp. split_bool. by constructor.
  - by apply kept_same_jobs.
Qed.

(** Only [create] adds a row, and it adds one. *)
Lemma op_dom d d' : op d d' ->
  dom (message_jobs d') = dom (message_jobs d) \/
  exists now new_id i, message_jobs d !! new_id = None /\
    message_jobs d' = <[new_id := new_job now i]> (message_jobs d) /\
    message_attempts d' = message_attempts d /\
    find_where (fun _ j => same_key (in_scope i) (in_key i) j) (message_jobs d) = None.
Proof.
  destruct 1 as [now nid i Hn|locked now limit|now id|now id|now id e|now|now|now id st o Hst
                |now wa st Hst|now ids|d' Ej Ea].
  2-11: left.
  - unfold create. destruct (find_where _ _) as [[? ?]|] eqn:E; [by left|].
    right. exists now, nid, i. by split_and!.
  - apply set_eq. intros x. by rewrite !elem_of_dom, claimDue_jobs, fmap_is_Some.
  - unfold markProcessing. destruct (update_row _ _ _ _) as [row jobs] eqn:E.
    by eapply update_row_dom.
  - unfold refreshProcessingLease. destruct (update_row _ _ _ _) as [row jobs] eqn:E.
    by eapply update_row_dom.
  - cbn. eapply update_row_dom, surjective_pairing.
  - apply update_where_same_dom.
  - apply update_where_same_dom.
  - rewrite updateResult_jobs. eapply update_row_dom, surjective_pairing.
  - apply update_where_same_dom.
  - apply update_where_same_dom.
  - by rewrite Ej.
Qed.

(** *** Invariants of the reachable states *)

Definition jobs_ok (d : db) : Prop :=
  forall id j, message_jobs d !! id = Some j -> job_ok j.

(** The unique index on (idempotency_scope, idempotency_key) *)
Definition keys_unique (d : db) : Prop :=
  forall id1 j1 id2 j2,
    message_jobs d !! id1 = Some j1 -> message_jobs d !! id2 = Some j2 ->
    mj_idempotency_scope j1 = mj_idempotency_scope j2 ->
    mj_idempotency_key j1 = mj_idempotency_key j2 -> id1 = id2.

(** One attempt row for each decided attempt, and no other *)
Definition attempts_ok (d : db) : Prop :=
  (forall id n a, message_attempts d !! (id, n) = Some a ->
     n = 1%Z /\ exists j, message_jobs d !! id = Some j /\
       phase (mj_status j) = 2%nat /\ mj_attempt_count j = 1%Z) /\
  (forall id j, message_jobs d !! id = Some j -> phase (mj_status j) = 2%nat ->
     mj_attempt_count j = 1%Z -> is_Some (message_attempts d !! (id, 1%Z))).

(** States reached by the statements from an empty outbox *)
Definition reachable (d : db) : Prop :=
  exists d0, message_jobs d0 = ∅ /\ message_attempts d0 = ∅ /\ rtc op d0 d.

Lemma op_back d d' id j' : op d d' -> message_jobs d' !! id = Some j' ->
  (exists j, message_jobs d !! id = Some j /\ row_step j j') \/
  (message_jobs d !! id = None /\ exists now i, j' = new_job now i /\
     message_jobs d' = <[id := j']> (message_jobs d) /\
     message_attempts d' = message_attempts d /\
     find_where (fun _ j => same_key (in_scope i) (in_key i) j) (message_jobs d) = None).
Proof.
  intros Hop Hj'. destruct (message_jobs d !! id) as [j|] eqn:Hj.
  - left. destruct (op_kept _ _ Hop _ _ Hj) as (j'' & Hj'' & Hs).
    exists j. split; [done|]. congruence.
  - right. split; [done|]. destruct (op_dom _ _ Hop) as [Hd|(now & nid & i & Hn & E & Ea & F)].
    + apply not_elem_of_dom in Hj. rewrite <- Hd in Hj.
      by apply not_elem_of_dom in Hj; congruence.
    + assert (id = nid) as ->.
      { rewrite E in Hj'. apply lookup_insert_Some in Hj' as [[-> _]|[_ Hj']]; congruence. }
      exists now, i. rewrite E in Hj'. rewrite lookup_insert_eq in Hj'. by simplify_eq.
Qed.

Lemma new_job_ok now i : job_ok (new_job now i).
Proof. unfold job_ok. cbn. split_and!; [lia|lia|done|done|by intros [? ?]]. Qed.

Lemma op_jobs_ok d d' : op d d' -> jobs_ok d -> jobs_ok d'.
Proof.
  intros Hop Hok id j' Hj'.
  destruct (op_back _ _ _ _ Hop Hj') as [(j & Hj & Hs)|(_ & now & i & -> & _)].
  - eapply row_step_ok; eauto.
  - apply new_job_ok.
Qed.

Lemma same_key_true scope key j :
  same_key scope key j = true <-> mj_idempotency_scope j = scope /\ mj_idempotency_key j = key.
Proof. unfold same_key. by rewrite andb_true_iff, !bool_decide_eq_true. Qed.

Lemma op_keys_unique d d' : op d d' -> keys_unique d -> keys_unique d'.
Proof.
  intros Hop Huniq.
  assert (Hnew : forall id1 j1 i, message_jobs d !! id1 = Some j1 ->
    find_where (fun _ j => same_key (in_scope i) (in_key i) j) (message_jobs d) = None ->
    mj_idempotency_scope j1 = in_scope i -> mj_idempotency_key j1 = in_key i -> False).
  { intros id1 j1 i Hj1 Hnone Hs Hk.
    rewrite find_where_None in Hnone. specialize (Hnone _ _ Hj1).
    enough (same_key (in_scope i) (in_key i) j1 = true) by congruence.
    by apply same_key_true. }
  intros id1 j1 id2 j2 H1 H2 Hs Hk.
  destruct (op_back _ _ _ _ Hop H1) as [(k1 & Hk1 & S1)|(N1 & now1 & i1 & -> & E1 & _ & F1)];
  destruct (op_back _ _ _ _ Hop H2) as [(k2 & Hk2 & S2)|(N2 & now2 & i2 & -> & E2 & _ & F2)].
  - apply row_step_intent in S1 as (I1 & I1' & _), S2 as (I2 & I2' & _).
    eapply Huniq; eauto; congruence.
  - apply row_step_intent in S1 as (I1 & I1' & _). exfalso. cbn in *.
    eapply (Hnew id1 k1 i2); eauto; congruence.
  - apply row_step_intent in S2 as (I2 & I2' & _). exfalso. cbn in *.
    eapply (Hnew id2 k2 i1); eauto; congruence.
  - rewrite E1 in H2. apply lookup_insert_Some in H2 as [[-> _]|[_ H2]]; congruence.
Qed.

(** *** The attempt log *)

Lemma row_step_attempts j j' : job_ok j -> row_step j j' ->
  phase (mj_status j) <> 0%nat -> mj_attempt_count j' = mj_attempt_count j.
Proof. intros _ Hs Hp. destruct Hs; cbn; try done. by use_status. Qed.

(** A waiting job is only decided by a cancellation, which attempts nothing. *)
Lemma row_step_waiting j j' : job_ok j -> row_step j j' ->
  phase (mj_status j) = 0%nat -> phase (mj_status j') = 2%nat -> mj_attempt_count j' = 0%Z.
Proof.
  intros (_ & H0 & _ & Hw) Hs Hp Hp'.
  destruct Hs as [| | | | | | |now status wa j Hid Hst Happ|]; cbn in *; try (by use_status); auto.
Qed.

Lemma log_expired_kept l t k a : t !! k = Some a -> log_expired l t !! k = Some a.
Proof.
  intros Hk. induction l as [|[id j] l IH]; cbn; [done|].
  unfold insert_attempt. by rewrite insert_absent_lookup, IH.
Qed.

Lemma log_expired_new l t id j : (id, j) ∈ l -> is_Some (log_expired l t !! (id, mj_attempt_count j)).
Proof.
  induction l as [|[id' j'] l IH]; intros Hin; [by apply not_elem_of_nil in Hin|].
  cbn. unfold insert_attempt. rewrite insert_absent_lookup.
  destruct (log_expired l t !! _) eqn:E; [done|].
  apply elem_of_cons in Hin as [[= -> ->]|Hin]; [by rewrite bool_decide_true|].
  destruct (IH Hin) as [x Hx]. congruence.
Qed.

Lemma log_expired_back l t id n a : log_expired l t !! (id, n) = Some a ->
  t !! (id, n) = Some a \/ exists j, (id, j) ∈ l /\ n = mj_attempt_count j.
Proof.
  induction l as [|[id' j'] l IH]; cbn; [by left|].
  unfold insert_attempt. rewrite insert_absent_lookup.
  destruct (log_expired l t !! (id, n)) eqn:E.
  - intros [= <-]. destruct (IH eq_refl) as [?|(j & Hin & ->)]; [by left|].
    right. exists j. split; [by right|done].
  - case_bool_decide as Hk; [|done]. intros _. right. simplify_eq. exists j'. split; [left|done].
Qed.

Lemma updateResult_attempts now id status options d :
  message_attempts (updateResult now id status options d) =
    match message_jobs d !! id with
    | Some j =>
        if bool_decide (mj_status j = JobStatus.PROCESSING)
        then insert_attempt id (mj_attempt_count j)
               (MessageAttempt status (Some (default "null" (opt_response options)))
                  (opt_error options)) (message_attempts d)
        else message_attempts d
    | None => message_attempts d
    end.
Proof.
  unfold updateResult, update_row. destruct (message_jobs d !! id) as [j|]; [|done].
  by case_bool_decide.
Qed.

Lemma op_attempts_kept d d' k a : op d d' ->
  message_attempts d !! k = Some a -> message_attempts d' !! k = Some a.
Proof.
  intros Hop Hk. destruct Hop as [now nid i Hn|locked now limit|now id|now id|now id e|now|now
    |now id st o Hst|now wa st Hst|now ids|d' Ej Ea]; try done.
  - unfold create. by destruct (find_where _ _) as [[? ?]|].
  - unfold claimDue. by destruct (due_rows _ _ _ _).
  - unfold markProcessing. by destruct (update_row _ _ _ _).
  - unfold refreshProcessingLease. by destruct (update_row _ _ _ _).
  - by apply (log_expired_kept (select_where _ _)).
  - rewrite updateResult_attempts. destruct (message_jobs d !! id) as [j|]; [|done].
    case_bool_decide; [|done]. unfold insert_attempt. by rewrite insert_absent_lookup, Hk.
  - by rewrite Ea.
Qed.

Lemma op_attempts_back d d' id n a : op d d' -> message_attempts d' !! (id, n) = Some a ->
  message_attempts d !! (id, n) = Some a \/
  exists j j', message_jobs d !! id = Some j /\ mj_status j = JobStatus.PROCESSING /\
    n = mj_attempt_count j /\ message_jobs d' !! id = Some j' /\ phase (mj_status j') = 2%nat.
Proof.
  intros Hop Hk. destruct Hop as [now nid i Hn|locked now limit|now id'|now id'|now id' e|now|now
    |now id' st o Hst|now wa st Hst|now ids|d' Ej Ea]; try (by left).
  - unfold create in Hk. left. by destruct (find_where _ _) as [[? ?]|].
  - unfold claimDue in Hk. left. by destruct (due_rows _ _ _ _).
  - unfold markProcessing in Hk. left. by destruct (update_row _ _ _ _).
  - unfold refreshProcessingLease in Hk. left. by destruct (update_row _ _ _ _).
  - apply (log_expired_back (select_where _ _)) in Hk as [Hk|(j & Hin & ->)]; [by left|right].
    apply select_where_elem in Hin as [Hj HP]. exists j.
    eexists. cbn. rewrite lookup_update_where, Hj. cbn. rewrite HP.
    unfold expired_processing in HP. split_bool. by split_and!.
  - rewrite updateResult_attempts in Hk.
    destruct (message_jobs d !! id') as [j|] eqn:Hj; [|by left].
    case_bool_decide as Hp; [|by left].
    unfold insert_attempt in Hk. rewrite insert_absent_lookup in Hk.
    destruct (message_attempts d !! (id, n)) eqn:E; [left; congruence|right].
    case_bool_decide as Hid; [|done]. simplify_eq. exists j. eexists.
    rewrite updateResult_jobs, lookup_update_row, Hj. cbn.
    rewrite !bool_decide_true by done. cbn. split_and!; try done.
    cbn. by use_status.
  - left. by rewrite <- Ea.
Qed.

Lemma op_processing d d' id j j' : op d d' -> jobs_ok d ->
  message_jobs d !! id = Some j -> message_jobs d' !! id = Some j' ->
  mj_status j = JobStatus.PROCESSING -> mj_status j' <> JobStatus.PROCESSING ->
  is_Some (message_attempts d' !! (id, mj_attempt_count j)).
Proof.
  intros Hop Hok Hj Hj' Hp Hp'. destruct (Hok _ _ Hj) as (_ & _ & _ & Hw).
  assert (Hnw : mj_openwa_message_id j = None).
  { destruct (mj_openwa_message_id j); [|done]. destruct (Hw (mk_is_Some _ _ eq_refl)) as [E _].
    by rewrite Hp in E. }
  destruct Hop as [now nid i Hn|locked now limit|now id'|now id'|now id' e|now|now
    |now id' st o Hst|now wa st Hst|now ids|d' Ej Ea].
  - exfalso. unfold create in Hj'. destruct (find_where _ _) as [[? ?]|]; [cbn in *; congruence|].
    cbn in Hj'. rewrite lookup_insert_ne in Hj' by congruence. congruence.
  - exfalso. rewrite claimDue_jobs, Hj in Hj'. cbn in Hj'. destruct (mem id _) eqn:Hm; [|congruence].
    apply (claimed_is_due _ _ _ _ _ _ Hj) in Hm. unfold due in Hm. split_bool. congruence.
  - exfalso. unfold markProcessing in Hj'. destruct (update_row _ _ _ _) as [r jobs] eqn:E.
    apply (f_equal snd) in E. cbn in E, Hj'. subst jobs.
    rewrite lookup_update_row, Hj in Hj'. cbn in Hj'. rewrite Hp in Hj'. cbn in Hj'.
    rewrite andb_false_r in Hj'. congruence.
  - exfalso. unfold refreshProcessingLease in Hj'. destruct (update_row _ _ _ _) as [r jobs] eqn:E.
    apply (f_equal snd) in E. cbn in E, Hj'. subst jobs.
    rewrite lookup_update_row, Hj in Hj'. cbn in Hj'.
    destruct (bool_decide (id = id') && _) in Hj'; by simplify_eq.
  - exfalso. cbn in Hj'. rewrite lookup_update_row, Hj in Hj'. cbn in Hj'. rewrite Hp in Hj'.
    cbn in Hj'. rewrite andb_false_r in Hj'. congruence.
  - exfalso. cbn in Hj'. rewrite lookup_update_where, Hj in Hj'. cbn in Hj'.
    destruct (stale_queued now id j) eqn:E; [|congruence].
    unfold stale_queued in E. split_bool. congruence.
  - cbn in Hj' |- *. rewrite lookup_update_where, Hj in Hj'. cbn in Hj'.
    destruct (expired_processing now id j) eqn:E; [|congruence].
    by apply log_expired_new, select_where_elem.
  - rewrite updateResult_attempts. rewrite updateResult_jobs, lookup_update_row, Hj in Hj'.
    cbn in Hj'. destruct (decide (id = id')) as [<-|Hne].
    + rewrite Hj, bool_decide_true by done. unfold insert_attempt.
      rewrite insert_absent_lookup. destruct (message_attempts d !! _); [done|].
      by rewrite bool_decide_true.
    + rewrite bool_decide_false in Hj' by done. cbn in Hj'. congruence.
  - exfalso. cbn in Hj'. rewrite lookup_update_where, Hj in Hj'. cbn in Hj'.
    rewrite Hnw in Hj'. rewrite bool_decide_false in Hj' by done. cbn in Hj'. congruence.
  - exfalso. cbn in Hj'. rewrite lookup_update_where, Hj in Hj'. cbn in Hj'. rewrite Hp in Hj'.
    cbn in Hj'. rewrite andb_false_r in Hj'. congruence.
  - exfalso. rewrite Ej in Hj'. congruence.
Qed.

Lemma op_attempts_ok d d' : op d d' -> jobs_ok d -> attempts_ok d -> attempts_ok d'.
Proof.
  intros Hop Hok [Hf Hb]. split.
  - intros id n a Ha. destruct (op_attempts_back _ _ _ _ _ Hop Ha) as [Ho|Hn].
    + destruct (Hf _ _ _ Ho) as (-> & j & Hj & Hp & Hc). split; [done|].
      destruct (op_kept _ _ Hop _ _ Hj) as (j' & Hj' & Hs). exists j'. split; [done|].
      pose proof (row_step_phase _ _ (Hok _ _ Hj) Hs) as Hle.
      split; [|rewrite (row_step_attempts _ _ (Hok _ _ Hj) Hs); [done|lia]].
      destruct (mj_status j'); cbn in *; lia.
    + destruct Hn as (j & j' & Hj & Hp & -> & Hj' & Hp').
      destruct (Hok _ _ Hj) as (_ & _ & H1 & _). rewrite Hp in H1.
      destruct (H1 eq_refl) as [Hc _]. split; [done|]. exists j'. split_and!; [done|done|].
      destruct (op_kept _ _ Hop _ _ Hj) as (j'' & Hj'' & Hs).
      assert (j'' = j') as -> by congruence.
      rewrite (row_step_attempts _ _ (Hok _ _ Hj) Hs); [done|by rewrite Hp].
  - intros id j' Hj' Hp' Hc'.
    destruct (op_back _ _ _ _ Hop Hj') as [(j & Hj & Hs)|(_ & now & i & -> & _)]; [|done].
    pose proof (Hok _ _ Hj) as Hjok.
    destruct (phase (mj_status j)) as [|[|p]] eqn:Hph.
    + rewrite (row_step_waiting _ _ Hjok Hs Hph Hp') in Hc'. done.
    + assert (mj_status j = JobStatus.PROCESSING) as Hp by by destruct (mj_status j).
      destruct Hjok as (_ & _ & H1 & _). rewrite Hp in H1. destruct (H1 eq_refl) as [Hc _].
      rewrite <- Hc. eapply op_processing; eauto. intros E. by rewrite E in Hp'.
    + assert (phase (mj_status j) = 2%nat) as Hph2 by by destruct (mj_status j); cbn in *; lia.
      assert (mj_attempt_count j = 1%Z) as Hc
        by by rewrite <- (row_step_attempts _ _ Hjok Hs); [|lia].
      destruct (Hb _ _ Hj Hph2 Hc) as [a Ha]. exists a. by eapply op_attempts_kept.
Qed.

(** The three invariants together, in every reachable state *)
Definition outbox_ok (d : db) : Prop := jobs_ok d /\ keys_unique d /\ attempts_ok d.

Lemma op_outbox_ok d d' : op d d' -> outbox_ok d -> outbox_ok d'.
Proof.
  intros Hop (H1 & H2 & H3). split_and!; eauto using op_jobs_ok, op_keys_unique, op_attempts_ok.
Qed.

Lemma reachable_outbox_ok d : reachable d -> outbox_ok d.
Proof.
  intros (d0 & Ej & Ea & Hr). revert d Hr. apply rtc_ind_r.
  - unfold outbox_ok, jobs_ok, keys_unique, attempts_ok. rewrite Ej, Ea.
    split_and!; intros *; rewrite ?lookup_empty; done.
  - intros d1 d2 _ Hop IH. by eapply op_outbox_ok.
Qed.

(** What holds of a row through any number of statements *)
Lemma ops_row d d' id j : jobs_ok d -> rtc op d d' -> message_jobs d !! id = Some j ->
  exists j', message_jobs d' !! id = Some j' /\ rtc row_step j j' /\ jobs_ok d'.
Proof.
  intros Hok Hr. revert j. induction Hr as [d|d d1 d2 Hop Hr IH]; intros j Hj.
  - exists j. split_and!; [done|apply rtc_refl|done].
  - destruct (op_kept _ _ Hop _ _ Hj) as (j1 & Hj1 & Hs).
    destruct (IH (op_jobs_ok _ _ Hop Hok) _ Hj1) as (j2 & Hj2 & Hs2 & Hok2).
    exists j2. split_and!; [done| |done]. eapply rtc_l; eauto.
Qed.

Lemma row_steps_phase j j' : job_ok j -> rtc row_step j j' ->
  (phase (mj_status j) <= phase (mj_status j'))%nat /\ job_ok j'.
Proof.
  intros Hok Hr. induction Hr as [j|j j1 j2 Hs Hr IH]; [done|].
  destruct (IH (row_step_ok _ _ Hs Hok)) as [Hle Hok2]. split; [|done].
  pose proof (row_step_phase _ _ Hok Hs). lia.
Qed.

Lemma row_steps_intent j j' : rtc row_step j j' -> same_intent j j'.
Proof.
  induction 1 as [j|j j1 j2 Hs Hr IH]; [done|].
  apply row_step_intent in Hs. unfold same_intent in *. intuition congruence.
Qed.

End Lifecycle.

(** ** The properties of the outbox *)

Module Outbox.
Import Repo Lifecycle.

Lemma markProcessing_Some now id d row d1 :
  markProcessing now id d = (Some row, d1) ->
  exists j, message_jobs d !! id = Some j /\ mj_status j = JobStatus.QUEUED /\
    mj_status row = JobStatus.PROCESSING /\ row_step j row /\ message_jobs d1 !! id = Some row.
Proof.
  unfold markProcessing. destruct (update_row _ _ _ _) as [r jobs] eqn:E.
  intros [= -> <-]. apply update_row_Some in E as (j & Hj & Hq & -> & ->).
  split_bool. exists j. split_and!; [done|done|done|by constructor|].
  cbn. by rewrite lookup_insert_eq.
Qed.

Lemma not_waiting_not_started now id d j :
  message_jobs d !! id = Some j -> phase (mj_status j) <> 0%nat ->
  (markProcessing now id d).1 = None.
Proof.
  intros Hj Hp. unfold markProcessing, update_row. rewrite Hj.
  case_bool_decide as E; [|done]. by rewrite E in Hp.
Qed.

Lemma not_waiting_not_due locked now id j :
  phase (mj_status j) <> 0%nat -> due locked now id j = false.
Proof.
  intros Hp. unfold due. destruct (bool_decide _) eqn:E; [|done].
  apply bool_decide_eq_true in E. by rewrite E in Hp.
Qed.

(** A job is handed to a worker for processing at most once.  Once
    [markProcessing] returned it, no sequence of repository statements makes the
    job due again or lets [markProcessing] return it again; the job keeps its
    recipient, text, key and hash, and its only attempt is attempt 1. *)
Theorem claimed_at_most_once now id d row d1 d2 :
  reachable d -> markProcessing now id d = (Some row, d1) -> rtc op d1 d2 ->
  mj_attempt_count row = 1%Z /\
  (forall now', (markProcessing now' id d2).1 = None) /\
  (forall locked now' limit, id ∉ (claimDue locked now' limit d2).1.*1) /\
  exists row2, message_jobs d2 !! id = Some row2 /\ same_intent row row2 /\
    mj_attempt_count row2 = 1%Z.
Proof.
  intros Hre Hmark Hops.
  destruct (reachable_outbox_ok _ Hre) as (Hok & _ & _).
  assert (Hok1 : jobs_ok d1).
  { change d1 with (Some row, d1).2. rewrite <- Hmark. eapply op_jobs_ok; [constructor|done]. }
  apply markProcessing_Some in Hmark as (j & Hj & Hq & Hp & Hs & Hrow).
  destruct (ops_row _ _ _ _ Hok1 Hops Hrow) as (row2 & Hrow2 & Hss & Hok2).
  destruct (row_steps_phase _ _ (Hok1 _ _ Hrow) Hss) as [Hle (_ & H0 & H1 & _)].
  rewrite Hp in Hle. cbn in Hle.
  destruct (Hok1 _ _ Hrow) as (_ & _ & Hrow1 & _). rewrite Hp in Hrow1.
  destruct (Hrow1 eq_refl) as [Hc _].
  split_and!; [done| | |].
  - intros now'. eapply not_waiting_not_started; [done|lia].
  - intros locked now' limit Hin. unfold claimDue in Hin.
    assert (Hin' : id ∈ (due_rows locked now' limit d2).*1).
    { destruct (due_rows _ _ _ _); [done|]. cbn [fst] in Hin.
      by rewrite <- list_fmap_compose in Hin. }
    apply list_elem_of_fmap in Hin' as ([id' j'] & -> & Hin').
    apply due_rows_spec in Hin' as [Hj' Hd]. cbn in Hrow2.
    assert (j' = row2) as -> by congruence.
    rewrite not_waiting_not_due in Hd; [done|lia].
  - exists row2. split_and!; [done|by apply row_steps_intent|].
    rewrite <- Hc. clear -Hss Hok1 Hrow Hp. specialize (Hok1 _ _ Hrow).
    assert (Hph : phase (mj_status row) <> 0%nat) by by rewrite Hp.
    clear Hp Hrow. induction Hss as [|j0 j1 j2 Hs Hss IH]; [done|].
    rewrite IH.
    + by eapply row_step_attempts.
    + by eapply row_step_ok.
    + pose proof (row_step_phase _ _ Hok1 Hs). lia.
Qed.

(** The attempt log is exact.  In every reachable state a job has an attempt
    row exactly when a worker took it and its outcome is decided (recorded by the
    worker, or UNKNOWN after the lease expired), the row is attempt 1, and no
    statement ever changes or removes a logged attempt. *)
Theorem attempt_log_exact d d' :
  reachable d -> op d d' ->
  (forall id, is_Some (message_attempts d !! (id, 1%Z)) <->
     exists j, message_jobs d !! id = Some j /\ phase (mj_status j) = 2%nat /\
       mj_attempt_count j = 1%Z) /\
  (forall id n, is_Some (message_attempts d !! (id, n)) -> n = 1%Z) /\
  (forall k a, message_attempts d !! k = Some a -> message_attempts d' !! k = Some a).
Proof.
  intros Hre Hop. destruct (reachable_outbox_ok _ Hre) as (_ & _ & Hf & Hb). split_and!.
  - intros id. split.
    + intros [a Ha]. by destruct (Hf _ _ _ Ha) as [_ ?].
    + intros (j & Hj & Hp & Hc). eauto.
  - intros id n [a Ha]. by destruct (Hf _ _ _ Ha) as [? _].
  - intros k a. by apply op_attempts_kept.
Qed.

Lemma create_found now new_id i d id j :
  keys_unique d -> message_jobs d !! id = Some j ->
  same_key (in_scope i) (in_key i) j = true ->
  create now new_id i d =
    (Some (CreateResult id j false (negb (bool_decide (mj_request_hash j = in_hash i)))), d).
Proof.
  intros Hu Hj Hk. unfold create.
  rewrite (find_where_unique _ _ id j); [done| |done|done].
  cbv beta. intros k1 v1 k2 v2 H1 H2 [S1 K1]%same_key_true [S2 K2]%same_key_true.
  eapply Hu; eauto; congruence.
Qed.

(** C12: creation is idempotent.  After [create] returned a job for a (scope, key),
    and after any further statements, every [create] with that scope and key
    returns the same job id, inserts nothing, and reports a conflict exactly when
    the request hash differs from the one stored first. *)
Theorem create_idempotent now new_id i d r d1 d2 now' new_id' i' :
  reachable d -> message_jobs d !! new_id = None ->
  create now new_id i d = (Some r, d1) -> rtc op d1 d2 ->
  in_scope i' = in_scope i -> in_key i' = in_key i ->
  exists j, create now' new_id' i' d2 =
      (Some (CreateResult (res_id r) j false
               (negb (bool_decide (mj_request_hash (res_job r) = in_hash i')))), d2) /\
    same_intent (res_job r) j /\ (res_created r = true -> mj_request_hash j = in_hash i).
Proof.
  intros Hre Hnew Hc Hops Hs Hk. destruct (reachable_outbox_ok _ Hre) as (Hok & Hu & Ha).
  assert (Hop : op d d1).
  { change d1 with (Some r, d1).2. rewrite <- Hc. by constructor. }
  assert (Hok1 : jobs_ok d1) by by eapply op_jobs_ok.
  assert (Hr : message_jobs d1 !! res_id r = Some (res_job r) /\
    same_key (in_scope i) (in_key i) (res_job r) = true /\
    (res_created r = true -> mj_request_hash (res_job r) = in_hash i)).
  { unfold create in Hc. destruct (find_where _ _) as [[id j]|] eqn:E; injection Hc as <- <-.
    - apply find_where_Some in E as [Hj HP]. cbn in *. split_and!; done.
    - cbn. rewrite lookup_insert_eq. split_and!; [done| |done]. by apply same_key_true. }
  destruct Hr as (Hj & HK & Hh).
  destruct (ops_row _ _ _ _ Hok1 Hops Hj) as (j & Hj2 & Hss & _).
  apply row_steps_intent in Hss as Hint. pose proof Hint as (I1 & I2 & I3 & _).
  assert (Hu2 : keys_unique d2).
  { apply op_keys_unique in Hop; [|done]. clear -Hops Hop.
    induction Hops; eauto using op_keys_unique. }
  exists j. rewrite (create_found _ _ _ _ (res_id r) j); [|done|done|].
  - rewrite I3. split_and!; [done|done|auto].
  - rewrite Hs, Hk. apply same_key_true in HK as [? ?]. apply same_key_true. by rewrite I1, I2.
Qed.

Lemma due_rows_length locked now limit d : length (due_rows locked now limit d) <= limit.
Proof. unfold due_rows. rewrite length_take. lia. Qed.

Lemma by_scheduled_at_total x y : by_scheduled_at x y = true \/ by_scheduled_at y x = true.
Proof. unfold by_scheduled_at. rewrite !Z.leb_le. lia. Qed.

(** What [ORDER BY scheduled_at LIMIT n] leaves out is not older than what it takes. *)
Lemma due_rows_oldest locked now limit d id j id' j' :
  (id, j) ∈ due_rows locked now limit d -> message_jobs d !! id' = Some j' ->
  due locked now id' j' = true -> id' ∉ (due_rows locked now limit d).*1 ->
  (mj_scheduled_at j <= mj_scheduled_at j')%Z.
Proof.
  intros Hin Hj' Hdue Hout. apply Z.leb_le.
  change (by_scheduled_at (id, j) (id', j') = true). unfold due_rows in *.
  eapply take_order_by_first; [apply by_scheduled_at_total| |done|by apply select_where_elem|].
  - intros a b c. unfold by_scheduled_at. rewrite !Z.leb_le. lia.
  - intros Hin'. destruct Hout. apply list_elem_of_fmap. by exists (id', j').
Qed.

Lemma claimDue_ids locked now limit d :
  (claimDue locked now limit d).1.*1 = (due_rows locked now limit d).*1.
Proof.
  unfold claimDue. destruct (due_rows _ _ _ _) as [|r l]; [done|]. cbn [fst].
  by rewrite <- list_fmap_compose.
Qed.

Lemma due_rows_fill locked now limit d :
  (length (due_rows locked now limit d) < limit)%nat ->
  forall id j, message_jobs d !! id = Some j -> due locked now id j = true ->
  id ∈ (due_rows locked now limit d).*1.
Proof.
  unfold due_rows. rewrite length_take. intros Hlen id j Hj Hd.
  rewrite take_ge by lia. apply list_elem_of_fmap. exists (id, j). split; [done|].
  by apply order_by_elem, select_where_elem.
Qed.

Lemma due_rows_NoDup locked now limit d : NoDup (due_rows locked now limit d).*1.
Proof.
  unfold due_rows. apply take_order_by_NoDup, select_where_NoDup.
Qed.

(** [claimDue] takes the oldest due jobs and only those.  It returns at most
    [limit] distinct jobs, each of them SCHEDULED, due and not held by another
    claimer before the call and QUEUED after it; a due job it leaves is not older
    than one it takes, and none is left when it took fewer than [limit]; every
    other row is unchanged. *)
Theorem claimDue_takes_oldest locked now limit d :
  let rows := (claimDue locked now limit d).1 in
  let d' := (claimDue locked now limit d).2 in
  (length rows <= limit)%nat /\ NoDup rows.*1 /\
  (forall id j', (id, j') ∈ rows -> exists j, message_jobs d !! id = Some j /\
     due locked now id j = true /\ j' = j <| mj_status := JobStatus.QUEUED |> /\
     message_jobs d' !! id = Some (j' <| mj_updated_at := now |>)) /\
  (forall id j, message_jobs d !! id = Some j -> id ∉ rows.*1 ->
     message_jobs d' !! id = Some j /\
     (due locked now id j = true ->
        (length rows = limit)%nat /\
        forall id1 j1, (id1, j1) ∈ rows -> (mj_scheduled_at j1 <= mj_scheduled_at j)%Z)).
Proof.
  cbv zeta. set (rows := due_rows locked now limit d).
  assert (Hrows : (claimDue locked now limit d).1 =
    map (fun kv => (kv.1, kv.2 <| mj_status := JobStatus.QUEUED |>)) rows).
  { unfold claimDue. fold rows. by destruct rows. }
  rewrite claimDue_ids. fold rows. split_and!.
  - rewrite Hrows, length_map. apply due_rows_length.
  - apply due_rows_NoDup.
  - intros id j' Hin. rewrite Hrows in Hin. apply list_elem_of_fmap in Hin as ([id0 j] & E & Hin).
    injection E as -> ->. destruct (due_rows_spec _ _ _ _ _ _ Hin) as [Hj Hd].
    exists j. split_and!; [done|done|done|]. rewrite claimDue_jobs, Hj. fold rows. cbn.
    assert (mem id0 rows.*1 = true) as ->; [|done].
    apply mem_true, list_elem_of_fmap. by exists (id0, j).
  - intros id j Hj Hout. split.
    + rewrite claimDue_jobs, Hj. fold rows. apply mem_false in Hout. by rewrite Hout.
    + intros Hd. split.
      * destruct (decide (length rows < limit)%nat) as [Hlt|].
        { by destruct Hout; eapply due_rows_fill. }
        pose proof (due_rows_length locked now limit d). fold rows in H.
        rewrite Hrows, length_map. lia.
      * intros id1 j1 Hin. rewrite Hrows in Hin.
        apply list_elem_of_fmap in Hin as ([id0 j0] & E & Hin). injection E as -> ->.
        change (mj_scheduled_at (j0 <| mj_status := JobStatus.QUEUED |>)) with (mj_scheduled_at j0).
        by eapply due_rows_oldest.
Qed.

(** *** Acknowledgements *)

(** Acknowledgements of provider messages, applied in the order they arrive *)
Definition apply_acks (acks : list (timestamp * string * JobStatus.t)) (d : db) : db :=
  foldl (fun d a => updateStatusByOpenWAMessageId a.1.1 a.1.2 a.2 d) d acks.

Definition ack_status (s a : JobStatus.t) : JobStatus.t := if ack_applies a s then a else s.

(** The progress acknowledgements of OpenWA *)
Definition is_progress (s : JobStatus.t) : bool :=
  mem s [JobStatus.SENT; JobStatus.DELIVERED; JobStatus.READ].

Lemma ack_status_comm a b s : is_progress a = true -> is_progress b = true ->
  ack_status (ack_status s a) b = ack_status (ack_status s b) a.
Proof. destruct a, b; try discriminate; destruct s; reflexivity. Qed.

Lemma ack_status_idem a s : ack_status (ack_status s a) a = ack_status s a.
Proof. destruct a, s; reflexivity. Qed.

Lemma ack_status_rank s a : is_progress a = true -> (ack_rank s <= ack_rank (ack_status s a))%Z.
Proof. destruct a; try discriminate; destruct s; by vm_compute. Qed.

Lemma foldl_ack_perm l l' s : l ≡ₚ l' -> Forall (fun a => is_progress a = true) l ->
  foldl ack_status s l = foldl ack_status s l'.
Proof.
  intros Hp. revert s. induction Hp as [|a l l' Hp IH|a b l|l1 l2 l3 H1 IH1 H2 IH2]; intros s Hall.
  - done.
  - apply Forall_cons in Hall as [_ Hall]. cbn. by apply IH.
  - apply Forall_cons in Hall as [Ha Hall]. apply Forall_cons in Hall as [Hb _]. cbn.
    by rewrite (ack_status_comm b a).
  - rewrite IH1 by done. apply IH2. by rewrite <- H1.
Qed.

(** The acknowledgements that name a job's message decide its status. *)
Lemma apply_acks_status acks d id j : message_jobs d !! id = Some j ->
  exists j', message_jobs (apply_acks acks d) !! id = Some j' /\
    mj_openwa_message_id j' = mj_openwa_message_id j /\
    mj_status j' = foldl ack_status (mj_status j)
      (filter (fun a => mj_openwa_message_id j = Some a.1.2) acks).*2.
Proof.
  revert d j. induction acks as [|[[now wa] st] acks IH]; intros d j Hj; [by exists j|].
  destruct (IH (updateStatusByOpenWAMessageId now wa st d)
    (if bool_decide (mj_openwa_message_id j = Some wa) && ack_applies st (mj_status j)
     then j <| mj_status := st |> <| mj_updated_at := now |> else j)) as (j' & Hj' & Hw & Hs).
  { cbn. by rewrite lookup_update_where, Hj. }
  exists j'. split; [done|]. clear -Hw Hs. rewrite filter_cons. cbn in *.
  destruct (decide (mj_openwa_message_id j = Some wa)) as [E|E].
  - rewrite bool_decide_true in * by done. cbn in *. unfold ack_status at 2.
    by destruct (ack_applies st (mj_status j)).
  - by rewrite bool_decide_false in * by done.
Qed.

Lemma foldl_ack_rank l s : Forall (fun a => is_progress a = true) l ->
  (ack_rank s <= ack_rank (foldl ack_status s l))%Z.
Proof.
  revert s. induction l as [|a l IH]; intros s Hall; cbn; [done|].
  apply Forall_cons in Hall as [Ha Hall].
  etransitivity; [by apply ack_status_rank|by apply IH].
Qed.

Lemma foldl_ack_absorb l s a : Forall (fun a => is_progress a = true) l -> a ∈ l ->
  ack_status (foldl ack_status s l) a = foldl ack_status s l.
Proof.
  intros Hall Hin. apply elem_of_Permutation in Hin as [l' Hp].
  rewrite (Permutation_cons_append l' a) in Hp.
  rewrite (foldl_ack_perm l _ s Hp Hall), foldl_app. apply ack_status_idem.
Qed.

Lemma foldl_ack_twice l s : Forall (fun a => is_progress a = true) l ->
  foldl ack_status s (l ++ l) = foldl ack_status s l.
Proof.
  intros Hall. rewrite foldl_app.
  assert (Hsub : forall k, (forall a, a ∈ k -> a ∈ l) ->
    foldl ack_status (foldl ack_status s l) k = foldl ack_status s l).
  { induction k as [|a k IH]; intros Hk; cbn; [done|].
    rewrite foldl_ack_absorb; [|done|apply Hk; left]. apply IH. intros x Hx. apply Hk. by right. }
  by apply Hsub.
Qed.

(** Progress acknowledgements commute and are idempotent.  SENT, DELIVERED
    and READ acknowledgements of any messages leave every job in the same status
    in whatever order they arrive, delivering all of them again changes no
    status, and no acknowledgement lowers a job's progress. *)
Theorem acks_order_independent acks acks' d id j :
  acks ≡ₚ acks' -> Forall (fun a => is_progress a.2 = true) acks ->
  message_jobs d !! id = Some j ->
  exists j1 j2 j3, message_jobs (apply_acks acks d) !! id = Some j1 /\
    message_jobs (apply_acks acks' d) !! id = Some j2 /\
    message_jobs (apply_acks (acks ++ acks) d) !! id = Some j3 /\
    mj_status j2 = mj_status j1 /\ mj_status j3 = mj_status j1 /\
    (ack_rank (mj_status j) <= ack_rank (mj_status j1))%Z.
Proof.
  intros Hp Hall Hj.
  destruct (apply_acks_status acks _ _ _ Hj) as (j1 & H1 & _ & S1).
  destruct (apply_acks_status acks' _ _ _ Hj) as (j2 & H2 & _ & S2).
  destruct (apply_acks_status (acks ++ acks) _ _ _ Hj) as (j3 & H3 & _ & S3).
  exists j1, j2, j3. rewrite S1, S2, S3. rewrite filter_app, fmap_app.
  set (l := (filter _ acks).*2).
  assert (Hl : Forall (fun a => is_progress a = true) l).
  { apply Forall_fmap, Forall_forall. intros a [_ Hin]%list_elem_of_filter.
    rewrite Forall_forall in Hall. by apply Hall. }
  split_and!; [done|done|done| |by apply foldl_ack_twice|by apply foldl_ack_rank].
  symmetry. apply foldl_ack_perm; [|done]. unfold l. by rewrite Hp.
Qed.

End Outbox.

(** ** What the outbox promises to a worker *)

(** [inv] are the states of the outbox, [step] its statements, and [claimed id] says
    that a worker was given the job: at most one ever is. *)
Class ClaimOnce (inv : db -> Prop) (step : db -> db -> Prop) (claimed : uuid -> db -> Prop) := {
  co_inv d d' : step d d' -> inv d -> inv d';
  co_stable id d d' : inv d -> step d d' -> claimed id d -> claimed id d';
  co_claim now id d row : inv d -> (Repo.markProcessing now id d).1 = Some row ->
    ~ claimed id d /\ claimed id (Repo.markProcessing now id d).2;
  co_start now id d : step d (Repo.markProcessing now id d).2;
  co_refresh now id d : step d (Repo.refreshProcessingLease now id d).2;
  co_result now id status options d :
    mem status [JobStatus.ACCEPTED; JobStatus.FAILED; JobStatus.UNKNOWN;
                JobStatus.DRY_RUN_COMPLETED] = true ->
    step d (Repo.updateResult now id status options d);
  co_other d d' : message_jobs d' = message_jobs d ->
    message_attempts d' = message_attempts d -> step d d' }.

(** A job that left the waiting statuses was claimed, or will never be. *)
Definition job_claimed (id : uuid) (d : db) : Prop :=
  exists j, message_jobs d !! id = Some j /\ Lifecycle.phase (mj_status j) <> 0%nat.

#[export] Instance outbox_claims_once : ClaimOnce Lifecycle.outbox_ok Lifecycle.op job_claimed.
Proof.
  split.
  - intros d d' Hop. by apply Lifecycle.op_outbox_ok.
  - intros id d d' (Hok & _) Hop (j & Hj & Hp).
    destruct (Lifecycle.op_kept _ _ Hop _ _ Hj) as (j' & Hj' & Hs). exists j'. split; [done|].
    pose proof (Lifecycle.row_step_phase _ _ (Hok _ _ Hj) Hs). lia.
  - intros now id d row _ Hm. destruct (Repo.markProcessing now id d) as [r d1] eqn:E.
    cbn in Hm. subst r. apply Outbox.markProcessing_Some in E as (j & Hj & Hq & Hp & _ & Hr).
    split.
    + intros (j' & Hj' & Hne). assert (j' = j) as -> by congruence. by rewrite Hq in Hne.
    + exists row. by rewrite Hp.
  - intros. constructor.
  - intros. constructor.
  - intros. by constructor.
  - intros. by constructor.
Qed.

(** ** Concrete runs *)

Module Runs.
Import Idempotency Repo Lifecycle Outbox.

Definition input (key hash : string) : create_input :=
  CreateInput "runtime-api" key hash "session-1" "1203630@g.us" "hello" 1000 false.

Definition nobody (_ : uuid) : bool := false.

(** One job, created at 1000, claimed at 2000, started at 3000, accepted at 4000 *)
Definition created : db := (create 1000 7 (input "k1" "h1") empty_db).2.
Definition claimed : db := (claimDue nobody 2000 10 created).2.
Definition started : db := (markProcessing 3000 7 claimed).2.
Definition accepted : db :=
  updateResult 4000 7 JobStatus.ACCEPTED (ResultOptions (Some "wa-1") None None) started.

Lemma created_reachable : reachable created.
Proof. exists empty_db. split_and!; [done..|]. apply rtc_once. by constructor. Defined.

Lemma claimed_reachable : reachable claimed.
Proof.
  exists empty_db. split_and!; [done..|].
  eapply rtc_l; [by apply (op_create _ 1000 7 (input "k1" "h1"))|].
  apply rtc_once. constructor.
Defined.

Lemma started_reachable : reachable started.
Proof.
  destruct claimed_reachable as (d0 & H1 & H2 & Hr). exists d0. split_and!; [done..|].
  eapply rtc_r; [done|]. constructor.
Defined.

Lemma started_to_accepted : rtc op started accepted.
Proof. apply rtc_once. by constructor. Defined.

Definition started_row : message_job :=
  MessageJob "runtime-api" "k1" "h1" "session-1" "1203630@g.us" "hello" 1000
    JobStatus.PROCESSING false 1 None None (Some 3000%Z) (Some 123000%Z) 1000 3000.

Lemma claimed_at_most_once_witness :
  markProcessing 3000 7 claimed = (Some started_row, started) /\
  (markProcessing 9000 7 accepted).1 = None.
Proof.
  split; [by vm_compute|].
  apply (claimed_at_most_once 3000 7 claimed started_row started accepted).
  - apply claimed_reachable.
  - by vm_compute.
  - apply started_to_accepted.
Defined.

Lemma attempt_log_exact_witness :
  (is_Some (message_attempts started !! (7%positive, 1%Z)) <->
     exists j, message_jobs started !! 7%positive = Some j /\ phase (mj_status j) = 2%nat /\
       mj_attempt_count j = 1%Z) /\
  message_attempts accepted !! (7%positive, 1%Z) =
    Some (MessageAttempt JobStatus.ACCEPTED (Some "null") None).
Proof.
  split; [|by vm_compute].
  apply (attempt_log_exact started accepted); [apply started_reachable|by constructor].
Defined.

Lemma create_idempotent_witness :
  exists j, create 5000 9 (input "k1" "other") accepted =
    (Some (CreateResult 7 j false true), accepted).
Proof.
  destruct (create_idempotent 1000 7 (input "k1" "h1") empty_db
    (CreateResult 7 (new_job 1000 (input "k1" "h1")) true false) created accepted
    5000 9 (input "k1" "other")) as (j & E & _).
  - exists empty_db. split_and!; [done..|apply rtc_refl].
  - done.
  - by vm_compute.
  - eapply rtc_l; [apply (op_claim _ nobody 2000 10)|].
    eapply rtc_l; [apply (op_start _ 3000 7)|]. apply started_to_accepted.
  - done.
  - done.
  - exists j. rewrite E. by vm_compute.
Defined.

Definition accepted_row : message_job :=
  MessageJob "runtime-api" "k1" "h1" "session-1" "1203630@g.us" "hello" 1000
    JobStatus.ACCEPTED false 1 (Some "wa-1") None (Some 3000%Z) None 1000 4000.

Definition read_then_sent : list (timestamp * string * JobStatus.t) :=
  [(5000%Z, "wa-1", JobStatus.READ); (6000%Z, "wa-1", JobStatus.SENT)].
Definition sent_then_read : list (timestamp * string * JobStatus.t) :=
  [(6000%Z, "wa-1", JobStatus.SENT); (5000%Z, "wa-1", JobStatus.READ)].

Lemma acks_order_independent_witness :
  exists j1 j2 j3, message_jobs (apply_acks read_then_sent accepted) !! 7%positive = Some j1 /\
    message_jobs (apply_acks sent_then_read accepted) !! 7%positive = Some j2 /\
    message_jobs (apply_acks (read_then_sent ++ read_then_sent) accepted) !! 7%positive = Some j3 /\
    mj_status j2 = mj_status j1 /\ mj_status j3 = mj_status j1 /\
    (ack_rank (mj_status accepted_row) <= ack_rank (mj_status j1))%Z.
Proof.
  apply (acks_order_independent read_then_sent sent_then_read accepted 7 accepted_row).
  - apply perm_swap.
  - repeat constructor.
  - by vm_compute.
Defined.

Definition iso_of (s : string) : string :=
  if has_newline s then "" else s.

Definition two_lines : request :=
  Request "s" "a" ("b" ++ newline ++ "c") (Some "2026-01-01T00:00:00Z") false.

Lemma hash_input_injective_witness :
  rq_text two_lines = rq_text two_lines /\
  exists s', rq_scheduled_at two_lines = Some s' /\ iso_of s' = "2026-01-01T00:00:00Z".
Proof.
  destruct (hash_input_injective iso_of two_lines two_lines) as (_ & _ & Ht & _ & Hat);
    [|reflexivity..|].
  - intros s. unfold iso_of. by destruct (has_newline s) eqn:E.
  - split; [exact Ht|]. by apply (Hat "2026-01-01T00:00:00Z").
Defined.

End Runs.
