(* ===== verification/OutboundLease.v ===== *)
(** * Outbound session leases

    [src/modules/messages/outbound-session-lease.repository.ts]: the one row per
    session that serialises its live sends.  A holder is a (job, token) pair; the
    token is the [randomUUID()] of one [withLease] call.  [withLease] itself is a
    part of the processor's steps, in the file MessageProcessor. *)

From S2P Require Import Prelude Schema.

Module Lease.

Definition held_by (job token : uuid) (l : outbound_lease) : bool :=
  bool_decide (ol_holder_message_job_id l = job) && bool_decide (ol_lease_token l = token).

(** INSERT .. ON CONFLICT (session_id) DO UPDATE .. WHERE expired OR own row *)
Definition tryAcquire (now : timestamp) (session : string) (job token : uuid) (ttlMs : Z) (d : db)
    : bool * db :=
  match outbound_session_leases d !! session with
  | None =>
      (true, d <| outbound_session_leases :=
        <[session := OutboundLease token job (now + ttlMs)%Z now now]> (outbound_session_leases d) |>)
  | Some l =>
      if (ol_lease_expires_at l <? now)%Z || held_by job token l
      then (true, d <| outbound_session_leases :=
        <[session := l <| ol_lease_token := token |> <| ol_holder_message_job_id := job |>
                       <| ol_lease_expires_at := (now + ttlMs)%Z |>
                       <| ol_acquired_at := now |> <| ol_updated_at := now |>]>
          (outbound_session_leases d) |>)
      else (false, d)
  end.

Definition renew (now : timestamp) (session : string) (job token : uuid) (ttlMs : Z) (d : db)
    : bool * db :=
  let '(row, leases) := update_row session
    (fun l => held_by job token l && (now <? ol_lease_expires_at l)%Z)
    (fun l => l <| ol_lease_expires_at := (now + ttlMs)%Z |> <| ol_updated_at := now |>)
    (outbound_session_leases d) in
  (negb (is_null row), d <| outbound_session_leases := leases |>).

Definition release (session : string) (job token : uuid) (d : db) : bool * db :=
  match outbound_session_leases d !! session with
  | Some l =>
      if held_by job token l
      then (true, d <| outbound_session_leases := delete session (outbound_session_leases d) |>)
      else (false, d)
  | None => (false, d)
  end.

(** *** Every statement on the table, with its caller and its time *)

Inductive lease_op : Set :=
  | Acquire (now : timestamp) (session : string) (job token : uuid) (ttlMs : Z)
  | Renew (now : timestamp) (session : string) (job token : uuid) (ttlMs : Z)
  | Release (now : timestamp) (session : string) (job token : uuid).

Definition op_now (o : lease_op) : timestamp :=
  match o with Acquire now _ _ _ _ | Renew now _ _ _ _ | Release now _ _ _ => now end.
Definition op_session (o : lease_op) : string :=
  match o with Acquire _ s _ _ _ | Renew _ s _ _ _ | Release _ s _ _ => s end.
Definition op_token (o : lease_op) : uuid :=
  match o with Acquire _ _ _ t _ | Renew _ _ _ t _ | Release _ _ _ t => t end.

(** The statement's answer and the new state *)
Definition run (o : lease_op) (d : db) : bool * db :=
  match o with
  | Acquire now s j t ttl => tryAcquire now s j t ttl d
  | Renew now s j t ttl => renew now s j t ttl d
  | Release _ s j t => release s j t d
  end.

Definition run_all (os : list lease_op) (d : db) : db := foldl (fun d o => (run o d).2) d os.

(** [job] holds the session until [until] with [token]. *)
Definition holds (session : string) (job token : uuid) (until : timestamp) (d : db) : Prop :=
  exists l, outbound_session_leases d !! session = Some l /\
    held_by job token l = true /\ ol_lease_expires_at l = until.

Lemma held_by_true job token l :
  held_by job token l = true <-> ol_holder_message_job_id l = job /\ ol_lease_token l = token.
Proof. unfold held_by. by rewrite andb_true_iff, !bool_decide_eq_true. Qed.

Lemma held_by_other job token job' token' l :
  held_by job token l = true -> token' <> token -> held_by job' token' l = false.
Proof.
  intros [_ H]%held_by_true Hne. destruct (held_by job' token' l) eqn:E; [|done].
  apply held_by_true in E as [_ E]. congruence.
Qed.

Lemma tryAcquire_holds now s job token ttl d d' :
  tryAcquire now s job token ttl d = (true, d') -> holds s job token (now + ttl) d'.
Proof.
  unfold tryAcquire, holds. destruct (outbound_session_leases d !! s) as [l|].
  - destruct (_ || _); [|done]. intros [= <-]. eexists. cbn. rewrite lookup_insert_eq.
    split_and!; [done|by apply held_by_true|done].
  - intros [= <-]. eexists. cbn. rewrite lookup_insert_eq.
    split_and!; [done|by apply held_by_true|done].
Qed.

Lemma renew_holds now s job token ttl d d' :
  renew now s job token ttl d = (true, d') ->
  holds s job token (now + ttl) d' /\ exists until, holds s job token until d /\ (now < until)%Z.
Proof.
  unfold renew, holds. destruct (update_row _ _ _ _) as [r t] eqn:E. intros [= Hr <-].
  destruct r as [row|]; [|done].
  apply update_row_Some in E as (l & Hl & HP & -> & ->). split_bool. split.
  - eexists. cbn. rewrite lookup_insert_eq.
    split_and!; [done| |done]. apply held_by_true. by apply held_by_true in H.
  - exists (ol_lease_expires_at l). split; [by exists l|lia].
Qed.

(** A statement of another token on a held session changes nothing and fails. *)
Lemma foreign_op s job token until d o :
  holds s job token until d -> op_token o <> token -> (op_now o <= until)%Z ->
  holds s job token until (run o d).2 /\ (op_session o = s -> (run o d).1 = false).
Proof.
  intros (l & Hl & Hh & <-) Ht Hnow.
  assert (Hother : forall job', held_by job' (op_token o) l = false)
    by (intros job'; by eapply held_by_other).
  destruct o as [now s' j t ttl|now s' j t ttl|now s' j t]; cbn in *;
    (destruct (decide (s' = s)) as [->|Hne]; [|split; [|done]; exists l]).
  - unfold tryAcquire. rewrite Hl, Hother. assert ((ol_lease_expires_at l <? now)%Z = false) as ->
      by (apply Z.ltb_ge; lia). cbn. split; [by exists l|done].
  - unfold tryAcquire. destruct (outbound_session_leases d !! s'); [destruct (_ || _)|]; cbn;
      rewrite ?lookup_insert_ne by done; done.
  - unfold renew, update_row. rewrite Hl, Hother. cbn. split; [by exists l|done].
  - unfold renew. destruct (update_row _ _ _ _) as [r t'] eqn:E. cbn.
    apply (f_equal snd) in E. cbn in E. rewrite <- E, lookup_update_row, bool_decide_false by done.
    by rewrite Hl.
  - unfold release. rewrite Hl, Hother. cbn. split; [by exists l|done].
  - unfold release. destruct (outbound_session_leases d !! s') as [l'|];
      [destruct (held_by j t l')|]; cbn; rewrite ?lookup_delete_ne by done; done.
Qed.

(** A session lease excludes every other holder for its whole window.  From
    the moment a job acquired or renewed the session's lease at [now] until
    [now + ttlMs], whatever statements the holders of other tokens run on any
    session, the lease stays the job's, every attempt by another token to
    acquire, renew or release that session fails, and the job itself can still
    renew. *)
Theorem lease_excludes now s job token ttl d d' os :
  (tryAcquire now s job token ttl d = (true, d') \/ renew now s job token ttl d = (true, d')) ->
  Forall (fun o => op_token o <> token /\ (op_now o <= now + ttl)%Z) os ->
  holds s job token (now + ttl) (run_all os d') /\
  (forall o, op_token o <> token -> (op_now o <= now + ttl)%Z -> op_session o = s ->
     (run o (run_all os d')).1 = false) /\
  (forall now' ttl', (now' < now + ttl)%Z ->
     (renew now' s job token ttl' (run_all os d')).1 = true).
Proof.
  intros Hgot Hos.
  assert (Hh : holds s job token (now + ttl) (run_all os d')).
  { assert (H0 : holds s job token (now + ttl) d')
      by (destruct Hgot as [H|H]; [by eapply tryAcquire_holds|by apply renew_holds in H as [? _]]).
    clear Hgot. revert d' H0. induction os as [|o os IH]; intros d' H0; [done|].
    apply Forall_cons in Hos as [[Ht Hn] Hos]. cbn. apply IH; [done|]. by apply foreign_op. }
  split_and!; [done| |].
  - intros o Ht Hn Hs. by eapply foreign_op.
  - intros now' ttl' Hlt. destruct Hh as (l & Hl & Hb & He). unfold renew, update_row.
    rewrite Hl, Hb, He. assert ((now' <? now + ttl)%Z = true) as -> by (apply Z.ltb_lt; lia).
    done.
Qed.

(** Waiters are not locked out: once a lease expired, or was released by its
    holder, the next attempt succeeds whoever makes it. *)
Lemma lease_handover now s job token until d job' token' ttl' :
  holds s job token until d ->
  ((until < now)%Z -> (tryAcquire now s job' token' ttl' d).1 = true) /\
  (tryAcquire now s job' token' ttl' (release s job token d).2).1 = true.
Proof.
  intros (l & Hl & Hb & He). split.
  - intros Hlt. unfold tryAcquire. rewrite Hl, He.
    by assert ((until <? now)%Z = true) as -> by (apply Z.ltb_lt; lia).
  - unfold release. rewrite Hl, Hb. unfold tryAcquire. cbn. by rewrite lookup_delete_eq.
Qed.

Lemma lease_excludes_witness :
  let d' := (tryAcquire 1000 "s" 1 10 45000 empty_db).2 in
  (run (Acquire 46000 "s" 2 20 45000)
     (run_all [Acquire 2000 "s" 2 20 45000; Release 3000 "s" 2 20; Acquire 4000 "t" 2 20 45000] d')).1
  = false.
Proof.
  cbv zeta. apply (lease_excludes 1000 "s" 1 10 45000 empty_db).
  - left. by vm_compute.
  - repeat constructor; cbn; lia.
  - done.
  - cbn. lia.
  - done.
Defined.

End Lease.
