(* ===== verification/Groups.v ===== *)
(** * Groups and their send capability

    [src/modules/gateway/group-capability.ts], [gateway-capability.repository.ts],
    the group rows of [gateway-group-snapshot.repository.ts] and the group events of
    [webhooks/runtime-event.repository.ts]: how the decision that a group may be
    sent to is taken, invalidated and refreshed. *)

From S2P Require Import Prelude Schema.

(** ** The decision *)

Module GroupCapability.

Record input := Input {
  isActive : bool;
  isReadOnly : option bool;
  isAnnounce : option bool;
  isAdmin : option bool;
  hasDetails : bool }.

Definition decision : Type := Capability.t * CapabilityReason.t.

Definition evaluateGroupCapability (i : input) : decision :=
  if negb (isActive i) then (Capability.DENIED, CapabilityReason.GROUP_INACTIVE)
  else if negb (hasDetails i) then (Capability.UNKNOWN, CapabilityReason.METADATA_INCOMPLETE)
  else if bool_decide (isReadOnly i = Some true)
  then (Capability.DENIED, CapabilityReason.GROUP_READ_ONLY)
  else if bool_decide (isAnnounce i = Some true) && bool_decide (isAdmin i = Some false)
  then (Capability.DENIED, CapabilityReason.ADMIN_ONLY)
  else if bool_decide (isAnnounce i = Some true) && is_null (isAdmin i)
  then (Capability.UNKNOWN, CapabilityReason.ADMIN_STATUS_UNKNOWN)
  else if bool_decide (isAnnounce i = Some false) && bool_decide (isReadOnly i = Some false)
  then (Capability.ALLOWED, CapabilityReason.SEND_ALLOWED)
  else (Capability.UNKNOWN, CapabilityReason.METADATA_INCOMPLETE).

(** The capability decision is safe and total.  A group is ALLOWED exactly
    when it is active, its details are known and they say it is neither read-only
    nor announce-only; it is DENIED exactly when one known fact forbids sending;
    and the reason determines the status. *)
Theorem evaluate_correct i :
  let '(status, reason) := evaluateGroupCapability i in
  (status = Capability.ALLOWED <->
     isActive i = true /\ hasDetails i = true /\
     isReadOnly i = Some false /\ isAnnounce i = Some false) /\
  (status = Capability.DENIED <->
     isActive i = false \/
     hasDetails i = true /\
       (isReadOnly i = Some true \/ isAnnounce i = Some true /\ isAdmin i = Some false)) /\
  (status = Capability.ALLOWED <-> reason = CapabilityReason.SEND_ALLOWED).
Proof.
  destruct i as [[] [[]|] [[]|] [[]|] []]; vm_compute; intuition congruence.
Qed.

(** An administrator of an announce group, with all metadata known, stays UNKNOWN. *)
Example announce_admin_unknown :
  evaluateGroupCapability (Input true (Some false) (Some true) (Some true) true) =
    (Capability.UNKNOWN, CapabilityReason.METADATA_INCOMPLETE).
Proof. reflexivity. Qed.

End GroupCapability.

(** ** Invalidation and refresh *)

Module CapabilityRepo.

Definition two_minutes : Z := 120000.
Definition MAX_ATTEMPTS : Z := 3.

Definition invalidate (now : timestamp) (session group : string) (reason : CapabilityReason.t)
    (d : db) : bool * db :=
  let '(row, groups) := update_row (session, group)
    (fun g => gg_is_active g)
    (fun g => g <| gg_send_capability := Capability.UNKNOWN |>
                <| gg_send_capability_reason := reason |>
                <| gg_capability_invalidated_at := Some now |>
                <| gg_capability_revision := (gg_capability_revision g + 1)%Z |>
                <| gg_refresh_attempt_count := 0%Z |>
                <| gg_refresh_next_attempt_at := now |>
                <| gg_refresh_lease_token := None |>
                <| gg_refresh_lease_expires_at := None |>
                <| gg_refresh_error := None |>)
    (gateway_groups d) in
  (negb (is_null row), d <| gateway_groups := groups |>).

(** The rows both [listNeedingRefresh] and [claim] look for.  [discovering] are the
    sessions with a sync run that is PENDING or DISCOVERING. *)
Definition refreshable (discovering : string -> bool) (now : timestamp) (session : string)
    (g : gateway_group) : bool :=
  gg_is_active g && negb (is_null (gg_capability_invalidated_at g))
  && (gg_refresh_attempt_count g <? MAX_ATTEMPTS)%Z
  && (gg_refresh_next_attempt_at g <=? now)%Z
  && (is_null (gg_refresh_lease_token g) || before (gg_refresh_lease_expires_at g) now)
  && negb (discovering session).

Definition needs_refresh (discovering : string -> bool) (intent_open : string -> string -> bool)
    (now : timestamp) (key : string * string) (g : gateway_group) : bool :=
  refreshable discovering now key.1 g && negb (intent_open key.1 key.2).

(** ORDER BY capability_refresh_next_attempt_at, capability_invalidated_at *)
Definition by_next_attempt (a b : (string * string) * gateway_group) : bool :=
  let na := gg_refresh_next_attempt_at a.2 in
  let nb := gg_refresh_next_attempt_at b.2 in
  (na <? nb)%Z ||
  (na =? nb)%Z &&
    match gg_capability_invalidated_at a.2, gg_capability_invalidated_at b.2 with
    | Some x, Some y => (x <=? y)%Z
    | _, None => true
    | None, Some _ => false
    end.

Definition listNeedingRefresh (discovering : string -> bool)
    (intent_open : string -> string -> bool) (now : timestamp) (limit : nat) (d : db)
    : list (string * string * Z) :=
  map (fun kv => (kv.1.1, kv.1.2, gg_capability_revision kv.2))
    (take limit (order_by by_next_attempt
      (select_where (needs_refresh discovering intent_open now) (gateway_groups d)))).

Definition claim (discovering : string -> bool) (now : timestamp) (new_token : uuid)
    (session group : string) (expectedRevision : Z) (d : db) : option (uuid * Z) * db :=
  let '(row, groups) := update_row (session, group)
    (fun g => (gg_capability_revision g =? expectedRevision)%Z
              && refreshable discovering now session g)
    (fun g => g <| gg_refresh_attempt_count := (gg_refresh_attempt_count g + 1)%Z |>
                <| gg_refresh_lease_token := Some new_token |>
                <| gg_refresh_lease_expires_at := Some (now + two_minutes)%Z |>
                <| gg_refresh_error := None |>)
    (gateway_groups d) in
  ((fun g => (new_token, gg_refresh_attempt_count g)) <$> row, d <| gateway_groups := groups |>).

Inductive attempt_result : Set := RETRY | FAILED | LOST_OWNERSHIP.

(** LEAST(300, 5 * power(2, attempt - 1)) seconds; an attempt counts from 1 *)
Definition backoff_ms (attempt : Z) : Z := Z.min 300 (5 * 2 ^ (attempt - 1)) * 1000.

Definition failAttempt (now : timestamp) (session group : string) (expectedRevision : Z)
    (leaseToken : uuid) (error : string) (retryable : bool) (d : db) : attempt_result * db :=
  let exhausted g := negb retryable || (MAX_ATTEMPTS <=? gg_refresh_attempt_count g)%Z in
  let '(row, groups) := update_row (session, group)
    (fun g => (gg_capability_revision g =? expectedRevision)%Z
              && bool_decide (gg_refresh_lease_token g = Some leaseToken)
              && after (gg_refresh_lease_expires_at g) now)
    (fun g => g <| gg_send_capability := Capability.UNKNOWN |>
                <| gg_send_capability_reason :=
                     if exhausted g then CapabilityReason.REFRESH_FAILED
                     else gg_send_capability_reason g |>
                <| gg_capability_checked_at :=
                     if exhausted g then Some now else gg_capability_checked_at g |>
                <| gg_capability_invalidated_at :=
                     if exhausted g then None else gg_capability_invalidated_at g |>
                <| gg_refresh_next_attempt_at :=
                     if exhausted g then gg_refresh_next_attempt_at g
                     else (now + backoff_ms (gg_refresh_attempt_count g))%Z |>
                <| gg_refresh_lease_token := None |>
                <| gg_refresh_lease_expires_at := None |>
                <| gg_refresh_error := Some error |>)
    (gateway_groups d) in
  (match row with
   | Some g => if exhausted g then FAILED else RETRY
   | None => LOST_OWNERSHIP
   end, d <| gateway_groups := groups |>).

Definition recoverable (now : timestamp) (_ : string * string) (g : gateway_group) : bool :=
  negb (is_null (gg_refresh_lease_token g)) && before (gg_refresh_lease_expires_at g) now
  || negb (is_null (gg_capability_invalidated_at g)) && is_null (gg_refresh_lease_token g)
     && (MAX_ATTEMPTS <=? gg_refresh_attempt_count g)%Z.

Definition recoverExpired (now : timestamp) (d : db) : Z * db :=
  let exhausted g := (MAX_ATTEMPTS <=? gg_refresh_attempt_count g)%Z in
  (count_where (recoverable now) (gateway_groups d),
   d <| gateway_groups := update_where (recoverable now)
     (fun g => g <| gg_send_capability := Capability.UNKNOWN |>
                 <| gg_send_capability_reason :=
                      if exhausted g then CapabilityReason.REFRESH_FAILED
                      else gg_send_capability_reason g |>
                 <| gg_capability_checked_at :=
                      if exhausted g then Some now else gg_capability_checked_at g |>
                 <| gg_capability_invalidated_at :=
                      if exhausted g then None else gg_capability_invalidated_at g |>
                 <| gg_refresh_next_attempt_at := now |>
                 <| gg_refresh_lease_token := None |>
                 <| gg_refresh_lease_expires_at := None |>
                 <| gg_refresh_error := Some "Recovered expired capability refresh lease" |>)
     (gateway_groups d) |>).

End CapabilityRepo.

(** ** Writers of the group rows *)

Module Snapshot.

(** [OpenWAGroupSummary], [OpenWAGroup]: the fields that reach [gateway_groups] *)
Record summary := Summary {
  sm_id : string; sm_name : string;
  sm_participantsCount : option Z; sm_isAdmin : option bool }.

Record details := Details {
  gd_id : string; gd_name : string; gd_participants : Z;
  gd_isAdmin : option bool; gd_isReadOnly : option bool;
  gd_announce : option bool; gd_isAnnounce : option bool }.

Definition pendingGroupName : string := "Group subject pending sync".

(** The row an INSERT of a summary makes, with the column defaults *)
Definition new_group (now : timestamp) (s : summary) : gateway_group :=
  GatewayGroup (sm_name s) (sm_participantsCount s) (sm_isAdmin s) None None true None
    Capability.UNKNOWN CapabilityReason.METADATA_INCOMPLETE None None 1 0 now None None None.

(** ON CONFLICT (session_id, id) DO UPDATE *)
Definition merge_summary (now : timestamp) (s : summary) (g : gateway_group) : gateway_group :=
  g <| gg_name := if bool_decide (sm_name s = pendingGroupName)
                     && negb (is_null (gg_details_synced_at g)) then gg_name g else sm_name s |>
    <| gg_participants_count := coalesce (sm_participantsCount s) (gg_participants_count g) |>
    <| gg_is_admin := coalesce (sm_isAdmin s) (gg_is_admin g) |>
    <| gg_send_capability := if gg_is_active g then gg_send_capability g else Capability.UNKNOWN |>
    <| gg_send_capability_reason :=
         if gg_is_active g then gg_send_capability_reason g else CapabilityReason.GROUP_CHANGED |>
    <| gg_capability_invalidated_at :=
         if gg_is_active g then gg_capability_invalidated_at g else Some now |>
    <| gg_capability_revision :=
         if gg_is_active g then gg_capability_revision g else (gg_capability_revision g + 1)%Z |>
    <| gg_is_active := true |>.

Definition upsert_summary (now : timestamp) (session : string) (s : summary)
    (t : gmap (string * string) gateway_group) : gmap (string * string) gateway_group :=
  <[(session, sm_id s) := match t !! (session, sm_id s) with
                          | Some g => merge_summary now s g
                          | None => new_group now s
                          end]> t.

Definition deactivate (g : gateway_group) : gateway_group := g <| gg_is_active := false |>.

Definition deny_inactive (now : timestamp) (g : gateway_group) : gateway_group :=
  g <| gg_send_capability := Capability.DENIED |>
    <| gg_send_capability_reason := CapabilityReason.GROUP_INACTIVE |>
    <| gg_capability_checked_at := Some now |>
    <| gg_capability_invalidated_at := None |>
    <| gg_capability_revision := (gg_capability_revision g + 1)%Z |>.

Definition inactive_not_denied (session : string) (k : string * string) (g : gateway_group) : bool :=
  bool_decide (k.1 = session) && negb (gg_is_active g)
  && (negb (bool_decide (gg_send_capability g = Capability.DENIED))
      || negb (bool_decide (gg_send_capability_reason g = CapabilityReason.GROUP_INACTIVE))).

(** [replaceGroupSummaries] after its ownership check: the three statements of
    the transaction.  The ids of one listing are distinct. *)
Definition replaceGroupSummaries (now : timestamp) (session : string) (groups : list summary)
    (d : db) : db :=
  let inserted := foldl (fun t s => upsert_summary now session s t) (gateway_groups d) groups in
  let retired := update_where (fun k _ => bool_decide (k.1 = session)
      && negb (mem k.2 (map sm_id groups))) deactivate inserted in
  d <| gateway_groups := update_where (inactive_not_denied session) (deny_inactive now) retired |>.

(** The capability columns [upsertGroupDetails] writes: its read of the row, the
    revision and lease checks, the decision and the upsert.  The result is
    [applied]. *)
Definition details_input (group : details) (existing : option gateway_group)
    : GroupCapability.input :=
  GroupCapability.Input true (gd_isReadOnly group)
    (coalesce (gd_announce group) (gd_isAnnounce group))
    (coalesce (gd_isAdmin group) (existing ≫= gg_is_admin)) true.

Definition details_row (now : timestamp) (group : details) (existing : option gateway_group)
    : gateway_group :=
  let i := details_input group existing in
  let '(status, reason) := GroupCapability.evaluateGroupCapability i in
  let revision :=
    match existing with
    | Some g =>
        if bool_decide (gg_send_capability g = status)
           && bool_decide (gg_send_capability_reason g = reason)
        then gg_capability_revision g else (gg_capability_revision g + 1)%Z
    | None => 1%Z
    end in
  GatewayGroup (gd_name group) (Some (gd_participants group))
    (coalesce (GroupCapability.isAdmin i) (existing ≫= gg_is_admin))
    (GroupCapability.isReadOnly i) (GroupCapability.isAnnounce i) true (Some now)
    status reason (Some now) None revision 0 now None None None.

Definition upsertGroupDetails (now : timestamp) (session : string) (group : details)
    (expectedRevision : option Z) (capabilityLeaseToken : option uuid) (d : db) : bool * db :=
  let key := (session, gd_id group) in
  let existing := gateway_groups d !! key in
  let revision_ok :=
    match expectedRevision with
    | Some r => bool_decide (gg_capability_revision <$> existing = Some r)
    | None => true
    end in
  let lease_ok :=
    match capabilityLeaseToken with
    | Some token => bool_decide ((existing ≫= gg_refresh_lease_token) = Some token)
                    && after (existing ≫= gg_refresh_lease_expires_at) now
    | None => true
    end in
  if revision_ok && lease_ok
  then (true, d <| gateway_groups := <[key := details_row now group existing]> (gateway_groups d) |>)
  else (false, d).

(** The group event of [storeInTransaction] *)
Definition groupChanged (now : timestamp) (session group : string) (d : db) : db :=
  d <| gateway_groups := (update_row (session, group)
    (fun g => gg_is_active g)
    (fun g => g <| gg_send_capability := Capability.UNKNOWN |>
                <| gg_send_capability_reason := CapabilityReason.GROUP_CHANGED |>
                <| gg_capability_invalidated_at := Some now |>
                <| gg_capability_revision := (gg_capability_revision g + 1)%Z |>)
    (gateway_groups d)).2 |>.

End Snapshot.

(** ** The life of a group row *)

Module GroupLife.
Import CapabilityRepo Snapshot.

(** Every statement that writes the group rows *)
Inductive gop (d : db) : db -> Prop :=
  | g_invalidate now s g reason : gop d (invalidate now s g reason d).2
  | g_claim discovering now token s g r : gop d (claim discovering now token s g r d).2
  | g_fail now s g r token e retryable : gop d (failAttempt now s g r token e retryable d).2
  | g_recover now : gop d (recoverExpired now d).2
  | g_summaries now s groups : gop d (replaceGroupSummaries now s groups d)
  | g_details now s group r token : gop d (upsertGroupDetails now s group r token d).2
  | g_changed now s g : gop d (groupChanged now s g d).

Definition group_ok (g : gateway_group) : Prop :=
  (gg_send_capability g = Capability.ALLOWED ->
     gg_is_active g = true /\ is_Some (gg_details_synced_at g) /\
     gg_is_read_only g = Some false /\ gg_is_announce g = Some false /\
     gg_capability_invalidated_at g = None /\
     gg_send_capability_reason g = CapabilityReason.SEND_ALLOWED) /\
  (0 <= gg_refresh_attempt_count g <= MAX_ATTEMPTS)%Z /\
  (is_Some (gg_refresh_lease_token g) <-> is_Some (gg_refresh_lease_expires_at g)) /\
  (is_Some (gg_refresh_lease_token g) -> (1 <= gg_refresh_attempt_count g)%Z).

Definition groups_ok (d : db) : Prop :=
  forall k g, gateway_groups d !! k = Some g -> group_ok g.

(** A statement keeps the rows, never lowers a revision, and raises it when it
    invalidates the decision of a group. *)
Definition revision_grows (g g' : gateway_group) : Prop :=
  (gg_capability_revision g <= gg_capability_revision g')%Z.

Lemma new_group_ok now s : group_ok (new_group now s).
Proof. unfold group_ok, MAX_ATTEMPTS. cbn. split_and!; [done|lia|lia|by split; intros [? ?]|by intros [? ?]]. Qed.

Lemma merge_summary_ok now s g : group_ok g -> group_ok (merge_summary now s g).
Proof.
  intros (Ha & Hc & Hl & Ht). unfold group_ok. cbn.
  destruct (gg_is_active g) eqn:E; split_and!; try done; try apply Hc.
Qed.

Lemma details_row_ok now group existing : group_ok (details_row now group existing).
Proof.
  unfold details_row, group_ok, MAX_ATTEMPTS.
  destruct (GroupCapability.evaluateGroupCapability (details_input group existing))
    as [status reason] eqn:E.
  cbn. split_and!; [|lia|lia|by split; intros [? ?]|by intros [? ?]].
  intros ->. revert E. unfold GroupCapability.evaluateGroupCapability, details_input. cbn.
  destruct (gd_isReadOnly group) as [[]|], (coalesce (gd_announce group) (gd_isAnnounce group)) as [[]|];
    cbn; case_tests; intros [= <-]; try done.
Qed.

Lemma not_allowed_ok g : gg_send_capability g <> Capability.ALLOWED ->
  (0 <= gg_refresh_attempt_count g <= MAX_ATTEMPTS)%Z ->
  (is_Some (gg_refresh_lease_token g) <-> is_Some (gg_refresh_lease_expires_at g)) ->
  (is_Some (gg_refresh_lease_token g) -> (1 <= gg_refresh_attempt_count g)%Z) -> group_ok g.
Proof. intros Hs Hn Hl Hc. split; [by intros HA; destruct (Hs HA)|]. by split; [|split]. Qed.

Lemma groups_ok_update_row (k : string * string) (W : gateway_group -> bool)
    (f : gateway_group -> gateway_group) (t jobs : gmap (string * string) gateway_group) :
  jobs = (update_row k W f t).2 -> (forall k g, t !! k = Some g -> group_ok g) ->
  (forall g, group_ok g -> W g = true -> group_ok (f g)) ->
  forall k' g, jobs !! k' = Some g -> group_ok g.
Proof.
  intros -> Ht Hf k' g Hg. eapply (update_row_all (fun _ => group_ok)); [exact Ht| |exact Hg].
  intros v _ Hv HW. by apply Hf.
Qed.

Lemma summaries_fold_ok now s groups t :
  (forall k g, t !! k = Some g -> group_ok g) ->
  forall k g, foldl (fun t x => upsert_summary now s x t) t groups !! k = Some g -> group_ok g.
Proof.
  revert t. induction groups as [|x groups IH]; intros t Ht k g Hg; [by eapply Ht|].
  cbn in Hg. eapply IH; [|exact Hg]. intros k' g' Hg'. unfold upsert_summary in Hg'.
  apply lookup_insert_Some in Hg' as [[_ <-]|[_ Hg']]; [|by eapply Ht].
  destruct (t !! (s, sm_id x)) eqn:E; [|apply new_group_ok].
  apply merge_summary_ok. by eapply Ht.
Qed.

Ltac not_allowed := apply not_allowed_ok; cbn; unfold MAX_ATTEMPTS in *;
  try done; try lia; try (by intros [? ?]); try (by split; intros [? ?]).

Lemma gop_ok d d' : gop d d' -> groups_ok d -> groups_ok d'.
Proof.
  intros Hop Hok. unfold groups_ok. destruct Hop as [now s g reason|disc now token s g r
    |now s g r token e rt|now|now s groups|now s group r token|now s g].
  - unfold invalidate. destruct (update_row _ _ _ _) as [x t] eqn:E. cbn.
    eapply groups_ok_update_row; [by rewrite E|exact Hok|]. intros v Hv _. not_allowed.
  - unfold claim. destruct (update_row _ _ _ _) as [x t] eqn:E. cbn.
    eapply groups_ok_update_row; [by rewrite E|exact Hok|].
    intros v (Ha & Hc & Hl & Ht) HW. unfold refreshable in HW. split_bool.
    all: unfold group_ok; cbn; split_and!; try lia; try (by split; intros _; eexists).
    all: intros HA; destruct (Ha HA) as (? & ? & ? & ? & Hi & ?); by rewrite Hi in *.
  - unfold failAttempt. destruct (update_row _ _ _ _) as [x t] eqn:E. cbn.
    eapply groups_ok_update_row; [by rewrite E|exact Hok|].
    intros v (Ha & Hc & Hl & Ht) _. not_allowed.
  - cbn. intros k v Hv. eapply (update_where_all (fun _ => group_ok)); [exact Hok| |exact Hv].
    intros k' v' _ (Ha & Hc & Hl & Ht) _. not_allowed.
  - cbn. intros k v Hv. apply update_where_Some in Hv as (v1 & Hv1 & ->).
    apply update_where_Some in Hv1 as (v0 & Hv0 & ->).
    pose proof (summaries_fold_ok now s groups _ Hok _ _ Hv0) as Hv.
    pose proof Hv as (Ha & Hc & Hl & Ht).
    destruct (inactive_not_denied _ _ _) eqn:Ei; [by destruct (bool_decide (k.1 = s) && _); not_allowed|].
    destruct (bool_decide (k.1 = s) && _) eqn:Ed; [|done].
    unfold inactive_not_denied in Ei. split_bool. rewrite bool_decide_true in Ei by done. cbn in Ei.
    split_bool. unfold deactivate in *. cbn in *. not_allowed. congruence.
  - unfold upsertGroupDetails. destruct (_ && _); [|done]. cbn. intros k v Hv.
    apply lookup_insert_Some in Hv as [[_ <-]|[_ Hv]]; [apply details_row_ok|by eapply Hok].
  - cbn. eapply groups_ok_update_row; [done|exact Hok|].
    intros v (Ha & Hc & Hl & Ht) _. not_allowed.
Qed.

(** *** Revisions *)

Definition rows_grow (d d' : db) : Prop :=
  forall k g, gateway_groups d !! k = Some g ->
    exists g', gateway_groups d' !! k = Some g' /\ revision_grows g g'.

Lemma rows_grow_update_row (d : db) k W f t :
  t = (update_row k W f (gateway_groups d)).2 ->
  (forall g, revision_grows g (f g)) -> rows_grow d (d <| gateway_groups := t |>).
Proof.
  intros -> Hf k' g Hg. cbn. rewrite lookup_update_row, Hg. cbn. eexists. split; [done|].
  destruct (_ && _); [apply Hf|]. unfold revision_grows. lia.
Qed.

Lemma summaries_fold_grow now s groups t k g : t !! k = Some g ->
  exists g', foldl (fun t x => upsert_summary now s x t) t groups !! k = Some g' /\
    revision_grows g g'.
Proof.
  unfold revision_grows. revert t g. induction groups as [|x groups IH]; intros t g Hg.
  - exists g. split; [done|lia].
  - cbn. destruct (decide (k = (s, sm_id x))) as [->|Hne].
    + destruct (IH (upsert_summary now s x t) (merge_summary now x g)) as (g' & Hg' & Hle).
      * unfold upsert_summary. by rewrite Hg, lookup_insert_eq.
      * exists g'. split; [done|]. cbn in Hle. destruct (gg_is_active g); lia.
    + apply IH. unfold upsert_summary. by rewrite lookup_insert_ne.
Qed.

Lemma gop_rows_grow d d' : gop d d' -> rows_grow d d'.
Proof.
  assert (Hrefl : forall g, revision_grows g g) by (unfold revision_grows; lia).
  destruct 1 as [now s g reason|disc now token s g r
    |now s g r token e rt|now|now s groups|now s group r token|now s g].
  - unfold invalidate. destruct (update_row _ _ _ _) as [x t] eqn:E.
    eapply rows_grow_update_row; [by rewrite E|]. unfold revision_grows. cbn. lia.
  - unfold claim. destruct (update_row _ _ _ _) as [x t] eqn:E.
    eapply rows_grow_update_row; [by rewrite E|]. done.
  - unfold failAttempt. destruct (update_row _ _ _ _) as [x t] eqn:E.
    eapply rows_grow_update_row; [by rewrite E|]. done.
  - intros k g Hg. cbn. rewrite lookup_update_where, Hg. cbn. eexists. split; [done|].
    unfold revision_grows. destruct (recoverable now k g); cbn; lia.
  - intros k g Hg. cbn. destruct (summaries_fold_grow now s groups _ _ _ Hg) as (g1 & Hg1 & Hle).
    rewrite lookup_update_where, lookup_update_where, Hg1. cbn. eexists. split; [done|].
    unfold revision_grows, deactivate in *. case_match; case_match; cbn; lia.
  - unfold upsertGroupDetails. destruct (_ && _); [|intros k g Hg; by exists g].
    intros k g Hg. cbn. destruct (decide ((s, gd_id group) = k)) as [<-|Hne].
    + rewrite lookup_insert_eq, Hg. eexists. split; [done|]. unfold details_row, revision_grows.
      destruct (GroupCapability.evaluateGroupCapability _) as [status reason]. cbn.
      destruct (_ && _); lia.
    + rewrite lookup_insert_ne by done. by exists g.
  - eapply rows_grow_update_row; [done|]. unfold revision_grows. cbn. lia.
Qed.

Lemma gops_rows_grow d d' : rtc gop d d' -> rows_grow d d'.
Proof.
  induction 1 as [d|d1 d2 d3 Hop _ IH]; intros k g Hg; [exists g; split; [done|unfold revision_grows; lia]|].
  destruct (gop_rows_grow _ _ Hop _ _ Hg) as (g1 & Hg1 & Hle).
  destruct (IH _ _ Hg1) as (g2 & Hg2 & Hle2). exists g2. split; [done|].
  unfold revision_grows in *. lia.
Qed.

(** A state with no groups, and what the statements make of it *)
Definition reachable (d : db) : Prop :=
  exists d0, gateway_groups d0 = ∅ /\ rtc gop d0 d.

Lemma reachable_ok d : reachable d -> groups_ok d.
Proof.
  intros (d0 & E & Hr). assert (H0 : groups_ok d0) by (intros k g; by rewrite E, lookup_empty).
  clear E. induction Hr; eauto using gop_ok.
Qed.

(** A group is ALLOWED only on evidence.  In every state the group statements
    reach, a group whose capability is ALLOWED is active, its details were read,
    they say neither read-only nor announce-only, and nothing has invalidated
    them since; and a refresh holds a lease only after an attempt was counted, of
    which there are never more than three. *)
Theorem allowed_on_evidence d key g :
  reachable d -> gateway_groups d !! key = Some g ->
  (gg_send_capability g = Capability.ALLOWED ->
     gg_is_active g = true /\ is_Some (gg_details_synced_at g) /\
     gg_is_read_only g = Some false /\ gg_is_announce g = Some false /\
     gg_capability_invalidated_at g = None /\
     GroupCapability.evaluateGroupCapability (GroupCapability.Input true (gg_is_read_only g)
       (gg_is_announce g) (gg_is_admin g) true) =
       (Capability.ALLOWED, gg_send_capability_reason g)) /\
  (0 <= gg_refresh_attempt_count g <= 3)%Z /\
  (is_Some (gg_refresh_lease_token g) -> (1 <= gg_refresh_attempt_count g)%Z).
Proof.
  intros Hre Hg. destruct (reachable_ok _ Hre _ _ Hg) as (Ha & Hc & _ & Ht).
  split_and!; [|apply Hc|apply Hc|done]. intros HA.
  destruct (Ha HA) as (? & ? & Hr & Hn & ? & Hreason). rewrite Hr, Hn, Hreason. by split_and!.
Qed.

(** A refresh cannot overwrite a newer group event.  Once an event or a manual
    refresh invalidated a group at revision [r], then whatever statements follow,
    a refresh that was claimed at revision [r] neither stores the details it read
    nor records its failure: both statements report the loss and change nothing. *)
Theorem stale_refresh_is_fenced now s group d d1 d2 g reason r :
  gateway_groups d !! (s, gd_id group) = Some g -> gg_is_active g = true ->
  gg_capability_revision g = r ->
  (d1 = (invalidate now s (gd_id group) reason d).2 \/ d1 = groupChanged now s (gd_id group) d) ->
  rtc gop d1 d2 ->
  forall now' token error retryable,
    upsertGroupDetails now' s group (Some r) (Some token) d2 = (false, d2) /\
    failAttempt now' s (gd_id group) r token error retryable d2 = (LOST_OWNERSHIP, d2).
Proof.
  intros Hg Hact Hr Hd1 Hops now' token error retryable.
  assert (H1 : exists g1, gateway_groups d1 !! (s, gd_id group) = Some g1 /\
    gg_capability_revision g1 = (r + 1)%Z).
  { destruct Hd1 as [-> | ->]; [unfold invalidate|unfold groupChanged]; unfold update_row;
      rewrite Hg, Hact; cbn; rewrite lookup_insert_eq; eexists; (split; [done|]); cbn; lia. }
  destruct H1 as (g1 & Hg1 & Hr1).
  destruct (gops_rows_grow _ _ Hops _ _ Hg1) as (g2 & Hg2 & Hle). unfold revision_grows in Hle.
  assert (Hne : gg_capability_revision g2 <> r) by lia. split.
  - unfold upsertGroupDetails. rewrite Hg2. cbn. rewrite bool_decide_false; [done|]. congruence.
  - unfold failAttempt, update_row. rewrite Hg2.
    rewrite (proj2 (Z.eqb_neq _ _) Hne). cbn. by destruct d2.
Qed.

(** An expired refresh lease of a group that has left meanwhile makes it UNKNOWN again. *)
Example recover_forgets_inactive :
  let g := GatewayGroup "g" None None (Some false) (Some false) false (Some 0%Z) Capability.DENIED
    CapabilityReason.GROUP_INACTIVE (Some 0%Z) None 3 1 0 (Some 5%positive) (Some 100%Z) None in
  (fun g => (gg_is_active g, gg_send_capability g, gg_send_capability_reason g)) <$>
    gateway_groups (recoverExpired 200 (empty_db <| gateway_groups := {[("s", "g@g.us") := g]} |>)).2
      !! ("s", "g@g.us") = Some (false, Capability.UNKNOWN, CapabilityReason.GROUP_INACTIVE).
Proof. reflexivity. Qed.

(** *** Concrete runs *)

Definition open_group : details :=
  Details "g@g.us" "Team" 12 (Some false) (Some false) (Some false) None.
Definition synced : db := (upsertGroupDetails 1000 "s" open_group None None empty_db).2.
Definition synced_row : gateway_group :=
  GatewayGroup "Team" (Some 12%Z) (Some false) (Some false) (Some false) true (Some 1000%Z)
    Capability.ALLOWED CapabilityReason.SEND_ALLOWED (Some 1000%Z) None 1 0 1000 None None None.

Lemma allowed_on_evidence_witness :
  gateway_groups synced !! ("s", "g@g.us") = Some synced_row /\
  gg_is_read_only synced_row = Some false.
Proof.
  split; [reflexivity|].
  apply (allowed_on_evidence synced ("s", "g@g.us") synced_row); [|reflexivity..].
  exists empty_db. split; [done|]. apply rtc_once, g_details.
Defined.

Lemma stale_refresh_is_fenced_witness :
  (upsertGroupDetails 3000 "s" open_group (Some 1%Z) (Some 9%positive)
     (groupChanged 2000 "s" "g@g.us" synced)).1 = false.
Proof.
  rewrite (proj1 (stale_refresh_is_fenced 2000 "s" open_group synced
    (groupChanged 2000 "s" "g@g.us" synced) (groupChanged 2000 "s" "g@g.us" synced) synced_row
    CapabilityReason.GROUP_CHANGED 1 eq_refl eq_refl eq_refl (or_intror eq_refl)
    (rtc_refl _ _) 3000%Z 9%positive "" true)).
  reflexivity.
Defined.

End GroupLife.
