(* ===== verification/SendPolicy.v ===== *)
(** * The send policy

    [src/modules/gateway/session-scope.service.ts], the reads [isSessionSendable]
    and [findGroup] of [gateway.repository.ts], and
    [src/modules/messages/message-send-policy.service.ts] with the creation of a
    message job in [message-job.service.ts]: what a send must pass when it is
    created and again when it is made. *)

From S2P Require Import Prelude Schema MessageJobs.

(** ** Errors of the HTTP layer *)

Inductive http_error : Set :=
  | BadRequest (message : string)
  | Forbidden (message : string)
  | NotFound (message : string)
  | Conflict (message : string).

Module SessionScope.
Definition isAllowed (cfg : config) (sessionId : string) : bool :=
  mem sessionId (OPENWA_ALLOWED_SESSION_IDS cfg).

Definition assertAllowed (cfg : config) (sessionId : string) : option http_error :=
  if isAllowed cfg sessionId then None
  else Some (Forbidden "Session is not in OPENWA_ALLOWED_SESSION_IDS").

Definition assertVisible (cfg : config) (sessionId : string) : option http_error :=
  if isAllowed cfg sessionId then None else Some (NotFound "Resource not found").
End SessionScope.

Module Policy.
Import SessionScope.

Definition sendable (s : gateway_session) : bool :=
  bool_decide (gs_status s = "ready") && gs_engine_loaded s && is_null (gs_restriction s).

Definition isSessionSendable (id : string) (d : db) : bool :=
  match gateway_sessions d !! id with Some s => sendable s | None => false end.

Definition findGroup (sessionId groupId : string) (activeOnly : bool) (d : db)
    : option gateway_group :=
  match gateway_groups d !! (sessionId, groupId) with
  | Some g => if negb activeOnly || gg_is_active g then Some g else None
  | None => None
  end.

Definition reason_text (r : CapabilityReason.t) : string :=
  match r with
  | CapabilityReason.SEND_ALLOWED => "SEND_ALLOWED"
  | CapabilityReason.GROUP_INACTIVE => "GROUP_INACTIVE"
  | CapabilityReason.GROUP_READ_ONLY => "GROUP_READ_ONLY"
  | CapabilityReason.ADMIN_ONLY => "ADMIN_ONLY"
  | CapabilityReason.ADMIN_STATUS_UNKNOWN => "ADMIN_STATUS_UNKNOWN"
  | CapabilityReason.METADATA_INCOMPLETE => "METADATA_INCOMPLETE"
  | CapabilityReason.GROUP_CHANGED => "GROUP_CHANGED"
  | CapabilityReason.GATEWAY_PERMISSION_DENIED => "GATEWAY_PERMISSION_DENIED"
  | CapabilityReason.MANUAL_REFRESH => "MANUAL_REFRESH"
  | CapabilityReason.REFRESH_FAILED => "REFRESH_FAILED"
  end.

Definition group_suffix : string := "@g.us".

Definition not_sendable (g : gateway_group) : string :=
  ("Group is not sendable: " ++ reason_text (gg_send_capability_reason g))%string.

(** [assertCreatable]: the error it throws *)
Definition assertCreatable (cfg : config) (sessionId recipientId : string) (dryRun : bool) (d : db)
    : option http_error :=
  match assertAllowed cfg sessionId with
  | Some e => Some e
  | None =>
      if dryRun then None
      else if negb (ends_with group_suffix recipientId)
      then Some (BadRequest "Live low-level message jobs require a synchronized group recipient")
      else match findGroup sessionId recipientId true d with
           | None => Some (BadRequest "Recipient group is not active in the synchronized read model")
           | Some g =>
               if negb (bool_decide (gg_send_capability g = Capability.ALLOWED))
               then Some (Conflict (not_sendable g)) else None
           end
  end.

(** The part of [liveBlockReason] after its read of the session *)
Definition groupBlockReason (sessionId recipientId : string) (d : db) : option string :=
  if negb (ends_with group_suffix recipientId) then Some "Recipient is not a synchronized group"
  else match findGroup sessionId recipientId true d with
       | None => Some "Recipient group is not active in the synchronized read model"
       | Some g =>
           if negb (bool_decide (gg_send_capability g = Capability.ALLOWED))
           then Some (not_sendable g) else None
       end.

Definition sessionBlockReason (cfg : config) (sessionId : string) (d : db) : option string :=
  if negb (isAllowed cfg sessionId) then Some "Session is outside the Runtime allowlist"
  else if negb (isSessionSendable sessionId d) then Some "Gateway session is not sendable"
  else None.

(** [liveBlockReason] with both reads of one state *)
Definition liveBlockReason (cfg : config) (sessionId recipientId : string) (d : db)
    : option string :=
  match sessionBlockReason cfg sessionId d with
  | Some reason => Some reason
  | None => groupBlockReason sessionId recipientId d
  end.

(** A live send is permitted in [d]. *)
Definition permitted_group (sessionId recipientId : string) (d : db) : Prop :=
  ends_with group_suffix recipientId = true /\
  exists g, gateway_groups d !! (sessionId, recipientId) = Some g /\
    gg_is_active g = true /\ gg_send_capability g = Capability.ALLOWED.

Definition permitted_session (cfg : config) (sessionId : string) (d : db) : Prop :=
  sessionId ∈ OPENWA_ALLOWED_SESSION_IDS cfg /\
  exists s, gateway_sessions d !! sessionId = Some s /\
    gs_status s = "ready" /\ gs_engine_loaded s = true /\ gs_restriction s = None.

Lemma is_null_true {A} (o : option A) : is_null o = true <-> o = None.
Proof. by destruct o. Qed.

Lemma findGroup_active s g d row :
  findGroup s g true d = Some row <->
  gateway_groups d !! (s, g) = Some row /\ gg_is_active row = true.
Proof.
  unfold findGroup. destruct (gateway_groups d !! (s, g)) as [r|]; [|by split; [|intros [? _]]].
  destruct (gg_is_active r) eqn:E; cbn; split; try by intros [= ->].
  - by intros [? _].
  - intros [[= ->] ?]. congruence.
Qed.

Lemma groupBlockReason_None s r d : groupBlockReason s r d = None <-> permitted_group s r d.
Proof.
  unfold groupBlockReason, permitted_group.
  destruct (ends_with group_suffix r); cbn; [|by split; [|intros [? _]]].
  destruct (findGroup s r true d) as [g|] eqn:E.
  - apply findGroup_active in E as [Hg Ha]. case_bool_decide as Hc; cbn.
    + split; [intros _|done]. split; [done|]. by exists g.
    + split; [done|]. intros (_ & g' & Hg' & _ & Hc'). congruence.
  - split; [done|]. intros (_ & g & Hg & Ha & _).
    assert (findGroup s r true d = Some g) by (by apply findGroup_active). congruence.
Qed.

Lemma sessionBlockReason_None cfg s d :
  sessionBlockReason cfg s d = None <-> permitted_session cfg s d.
Proof.
  unfold sessionBlockReason, permitted_session, isAllowed, isSessionSendable, sendable.
  destruct (mem s _) eqn:Hm; cbn.
  - apply mem_true in Hm. destruct (gateway_sessions d !! s) as [row|]; cbn.
    + split.
      * destruct (_ && _) eqn:E; [|done]. intros _. split_bool. apply is_null_true in H0.
        split; [done|]. by exists row.
      * intros (_ & row' & [= <-] & Hst & He & Hr). by rewrite Hst, He, Hr.
    + split; [done|]. by intros (_ & ? & ? & _).
  - apply mem_false in Hm. split; [done|]. by intros [? _].
Qed.

(** The live policy admits exactly the permitted sends.  [liveBlockReason]
    returns no reason if and only if the session is in the allowlist, ready, loaded
    and unrestricted and the recipient is an active synchronized group whose
    capability is ALLOWED; and every recipient it admits could also be created as a
    live job. *)
Theorem live_policy_exact cfg sessionId recipientId d :
  (liveBlockReason cfg sessionId recipientId d = None <->
     permitted_session cfg sessionId d /\ permitted_group sessionId recipientId d) /\
  (assertCreatable cfg sessionId recipientId false d = None <->
     sessionId ∈ OPENWA_ALLOWED_SESSION_IDS cfg /\ permitted_group sessionId recipientId d) /\
  (assertCreatable cfg sessionId recipientId true d = None <->
     sessionId ∈ OPENWA_ALLOWED_SESSION_IDS cfg).
Proof.
  split_and!.
  - unfold liveBlockReason. rewrite <- sessionBlockReason_None, <- groupBlockReason_None.
    destruct (sessionBlockReason cfg sessionId d); [|by split; [|intros [_ ?]]].
    by split; [|intros [? _]].
  - rewrite <- groupBlockReason_None. unfold assertCreatable, assertAllowed, isAllowed, groupBlockReason.
    rewrite <- mem_true. destruct (mem sessionId _); cbn; [|by split; [|intros [? _]]].
    destruct (ends_with _ _); cbn; [|by split; [|intros [_ ?]]].
    destruct (findGroup _ _ _ _) as [g|]; [|by split; [|intros [_ ?]]].
    case_bool_decide; cbn; [done|]. by split; [|intros [_ ?]].
  - unfold assertCreatable, assertAllowed, isAllowed. rewrite <- mem_true.
    by destruct (mem sessionId _).
Qed.

End Policy.

(** ** Creating a job *)

Module MessageJobService.
Section Create.
Variable sha256 : string -> string.
Variable to_iso : string -> string.
(** [new Date(s).getTime()] *)
Variable parse_date : string -> timestamp.

Definition grace_ms : Z := 60000.

Inductive created : Type :=
  | Created (r : Repo.create_result)
  | Rejected (e : http_error)
  | Thrown.

(** [MessageJobService.create]: the key is trimmed by the controller; [now] is the
    clock of the process and of the statement. *)
Definition create (cfg : config) (now : timestamp) (new_id : uuid) (idempotencyKey : string)
    (dto : Idempotency.request) (d : db) : created * db :=
  if (200 <? String.length idempotencyKey)%nat
  then (Rejected (BadRequest "Idempotency-Key must not exceed 200 characters"), d)
  else match Policy.assertCreatable cfg (Idempotency.rq_session_id dto)
               (Idempotency.rq_recipient_id dto) (Idempotency.rq_dry_run dto) d with
       | Some e => (Rejected e, d)
       | None =>
           let scheduledAt :=
             match Idempotency.rq_scheduled_at dto with
             | Some s => if truthy s then parse_date s else now
             | None => now
             end in
           if (scheduledAt <? now - grace_ms)%Z
           then (Rejected (Conflict "scheduledAt is more than 60 seconds in the past"), d)
           else
             let '(result, d') := Repo.create now new_id
               (Repo.CreateInput "runtime-api" idempotencyKey
                  (Idempotency.messageRequestHash sha256 to_iso dto)
                  (Idempotency.rq_session_id dto) (Idempotency.rq_recipient_id dto)
                  (Idempotency.rq_text dto) scheduledAt (Idempotency.rq_dry_run dto)) d in
             match result with
             | None => (Thrown, d')
             | Some r =>
                 if Repo.res_conflict r
                 then (Rejected (Conflict
                   "Idempotency-Key was already used with a different message request"), d')
                 else (Created r, d')
             end
       end.

(** [MessageJobService.get] *)
Definition get (cfg : config) (id : uuid) (d : db) : http_error + message_job :=
  match Repo.find id d with
  | None => inl (NotFound "Message job not found")
  | Some job =>
      match SessionScope.assertVisible cfg (mj_session_id job) with
      | Some e => inl e
      | None => inr job
      end
  end.
End Create.
End MessageJobService.
