(* ===== verification/Service.v ===== *)
(** * Service calls

    A service method awaits one statement after another; between two awaits any other
    client may write, a statement may fail, or its answer may be lost.  [serv] is the
    monad of such calls: an error-and-state monad over the database and the number of
    the next await, with an environment that says what happens at each await. *)

From S2P Require Import Prelude Schema SendPolicy.
From stdpp Require Import pretty.

(** [OpenWAHttpError], [OpenWAResponseValidationError], or a request that got no answer *)
Inductive upstream_error : Set :=
  | HttpError (status : Z) (retryAfterMs : option Z)
  | InvalidResponse (message : string)
  | NetworkError (message : string).

(** [CampaignErrorCode] and [GroupListErrorCode] are strings. *)
Inductive failure : Type :=
  (** [CampaignError], [GroupListError]: HTTP status, code and message; the details of
      the response body are left out *)
  | Refused (status : Z) (code message : string)
  (** an exception of NestJS *)
  | Exception_ (e : http_error)
  (** an error of the database *)
  | Broken (message : string)
  (** a [TypeError] or a [RangeError] *)
  | JsError (message : string)
  (** an error of the gateway client *)
  | Upstream (e : upstream_error).

Module HttpStatus.
Definition BAD_REQUEST : Z := 400.
Definition FORBIDDEN : Z := 403.
Definition NOT_FOUND : Z := 404.
Definition CONFLICT : Z := 409.
Definition UNPROCESSABLE_ENTITY : Z := 422.
End HttpStatus.

(** [error.message] *)
Definition error_message (f : failure) : string :=
  match f with
  | Refused _ _ message | Broken message | JsError message => message
  | Exception_ (BadRequest m) | Exception_ (Forbidden m) | Exception_ (NotFound m)
  | Exception_ (Conflict m) => m
  | Upstream (HttpError status _) => "OpenWA returned HTTP " ++ pretty status
  | Upstream (InvalidResponse m) | Upstream (NetworkError m) => m
  end.

Inductive fault : Type :=
  (** the statement was not run *)
  | NotRun (message : string)
  (** it was, and its answer was lost *)
  | NotAnswered (message : string).

(** [St] is the state the call works on: the tables of [db], or those of the gateway
    synchronisation with them. *)
Record env_over (St : Type) := Env {
  clock : nat -> timestamp;
  drawn : nat -> string -> uuid;
  (** what the other clients did before the await *)
  between : nat -> St -> St;
  faults : nat -> option fault }.
Arguments Env {St} _ _ _ _.
Arguments clock {St} _ _.
Arguments drawn {St} _ _ _.
Arguments between {St} _ _ _.
Arguments faults {St} _ _.

Definition serv_over (St A : Type) : Type := env_over St -> nat -> St -> (failure + A) * nat * St.

Section State.
Context {St : Type}.
Abbreviation env := (env_over St).
Abbreviation serv := (serv_over St).
Abbreviation db := St.

Definition ret {A : Type} (a : A) : serv A := fun _ n d => (inr a, n, d).
Definition throw {A : Type} (f : failure) : serv A := fun _ n d => (inl f, n, d).

Definition bind {A B : Type} (m : serv A) (k : A -> serv B) : serv B := fun e n d =>
  match m e n d with
  | (inr a, n1, d1) => k a e n1 d1
  | (inl f, n1, d1) => (inl f, n1, d1)
  end.

(** [new Date()] *)
Definition now_ : serv timestamp := fun e n d => (inr (clock e n), n, d).

(** One statement or transaction *)
Definition await {A : Type} (f : timestamp -> (string -> uuid) -> db -> A * db) : serv A := fun e n d =>
  let d1 := between e n d in
  let r := f (clock e n) (drawn e n) d1 in
  match faults e n with
  | Some (NotRun m) => (inl (Broken m), S n, d1)
  | Some (NotAnswered m) => (inl (Broken m), S n, r.2)
  | None => (inr r.1, S n, r.2)
  end.

(** A statement that only reads *)
Definition query {A : Type} (f : timestamp -> db -> A) : serv A := await (fun now _ d => (f now d, d)).

(** [try m catch (error) { await handler; throw error; }] *)
Definition catch_rethrow {A : Type} (m : serv A) (handler : failure -> serv unit) : serv A := fun e n d =>
  match m e n d with
  | (inl f, n1, d1) => bind (handler f) (fun _ => throw f) e n1 d1
  | r => r
  end.

(** [try m catch (error) { handler }] *)
Definition catch {A : Type} (m : serv A) (handler : failure -> serv A) : serv A := fun e n d =>
  match m e n d with
  | (inl f, n1, d1) => handler f e n1 d1
  | r => r
  end.

(** A transaction that may throw *)
Definition attempt {A : Type} (f : timestamp -> (string -> uuid) -> db -> (failure + A) * db) : serv A :=
  bind (await f) (fun r => match r with inr a => ret a | inl e => throw e end).

(** A request to the gateway: the other workers go on while it waits. *)
Definition ask {A : Type} (reply : nat -> upstream_error + A) : serv A := fun e n d =>
  (match reply n with inr a => inr a | inl err => inl (Upstream err) end, S n, between e n d).

End State.

Abbreviation env := (env_over db).
Abbreviation serv := (serv_over db).

Declare Scope serv_scope.
Delimit Scope serv_scope with serv.
Notation "'let!' x := m 'in' k" := (bind m (fun x => k))
  (at level 10, x name, m at level 100, k at level 200) : serv_scope.
Notation "'assert!' b 'else' f 'in' k" := (if b then k else throw f)
  (at level 10, b at level 100, f at level 100, k at level 200) : serv_scope.
Open Scope serv_scope.

Section Laws.
Context {St : Type}.
Abbreviation env := (env_over St).
Abbreviation serv := (serv_over St).
Abbreviation db := St.

(** *** What a call leaves behind *)

(** The states the other clients produce by themselves *)
Fixpoint others (e : env) (n k : nat) (d : db) : db :=
  match k with
  | 0 => d
  | S k' => others e (S n) k' (between e n d)
  end.

Lemma others_add e n k1 k2 d : others e n (k1 + k2) d = others e (n + k1) k2 (others e n k1 d).
Proof.
  revert n d. induction k1 as [|k1 IH]; intros n d; cbn; [by rewrite Nat.add_0_r|].
  rewrite IH. by rewrite Nat.add_succ_r.
Qed.

(** An answer that tells the client the request was not carried out *)
Definition refusal (f : failure) : Prop :=
  match f with Broken _ => False | _ => True end.

(** [m] writes nothing at all. *)
Definition reads {A : Type} (m : serv A) : Prop := forall e n d,
  exists k, (m e n d).1.2 = n + k /\ (m e n d).2 = others e n k d.

(** [m] writes nothing when it refuses. *)
Definition clean {A : Type} (m : serv A) : Prop := forall e n d f n' d',
  m e n d = (inl f, n', d') -> refusal f -> exists k, n' = n + k /\ d' = others e n k d.

(** [m] does not refuse. *)
Definition accepts {A : Type} (m : serv A) : Prop := forall e n d f n' d',
  m e n d = (inl f, n', d') -> ~ refusal f.

Lemma reads_clean {A} (m : serv A) : reads m -> clean m.
Proof.
  intros H e n d f n' d' E _. destruct (H e n d) as (k & Hn & Hd). rewrite E in Hn, Hd. by exists k.
Qed.

Lemma accepts_clean {A} (m : serv A) : accepts m -> clean m.
Proof. intros H e n d f n' d' E Hf. by destruct (H _ _ _ _ _ _ E). Qed.

Lemma reads_ret {A} (a : A) : reads (ret a).
Proof. intros e n d. exists 0. cbn. by rewrite Nat.add_0_r. Qed.

Lemma reads_throw {A} f : reads (throw (A := A) f).
Proof. intros e n d. exists 0. cbn. by rewrite Nat.add_0_r. Qed.

Lemma reads_now : reads now_.
Proof. intros e n d. exists 0. cbn. by rewrite Nat.add_0_r. Qed.

Lemma reads_query {A} (f : timestamp -> db -> A) : reads (query f).
Proof.
  intros e n d. exists 1. unfold query, await. cbn. rewrite Nat.add_1_r.
  by destruct (faults e n) as [[]|].
Qed.

Lemma accepts_ret {A} (a : A) : accepts (ret a).
Proof. by intros e n d f n' d'. Qed.

Lemma accepts_query {A} (f : timestamp -> db -> A) : accepts (query f).
Proof.
  intros e n d g n' d'. unfold query, await. destruct (faults e n) as [[]|]; intros [=]; subst; auto.
Qed.

Lemma reads_bind {A B} (m : serv A) (k : A -> serv B) :
  reads m -> (forall a, reads (k a)) -> reads (bind m k).
Proof.
  intros Hm Hk e n d. unfold bind. destruct (Hm e n d) as (k1 & Hn & Hd).
  destruct (m e n d) as [[[f|a] n1] d1]; cbn in *; subst.
  - by exists k1.
  - destruct (Hk a e (n + k1) (others e n k1 d)) as (k2 & Hn2 & Hd2). exists (k1 + k2).
    rewrite others_add. split; [lia|done].
Qed.

Lemma clean_bind {A B} (m : serv A) (k : A -> serv B) :
  reads m -> (forall a, clean (k a)) -> clean (bind m k).
Proof.
  intros Hm Hk e n d f n' d' E Hf. unfold bind in E. destruct (Hm e n d) as (k1 & Hn & Hd).
  destruct (m e n d) as [[[f1|a] n1] d1]; cbn in *; subst.
  - injection E as -> <- <-. by exists k1.
  - destruct (Hk a _ _ _ _ _ _ E Hf) as (k2 & -> & ->). exists (k1 + k2). rewrite others_add.
    split; [lia|done].
Qed.

(** A write that is not [ok] changed nothing; after one that is, the call does not refuse. *)
Lemma clean_write {A B} (f : timestamp -> (string -> uuid) -> db -> A * db) (ok : A -> bool) (k : A -> serv B) :
  (forall now ids d, ok (f now ids d).1 = false -> (f now ids d).2 = d) ->
  (forall a, ok a = true -> accepts (k a)) -> (forall a, ok a = false -> clean (k a)) ->
  clean (bind (await f) k).
Proof.
  intros Hf Hok Hno e n d g n' d' E Hg. unfold bind, await in E.
  destruct (faults e n) as [[m|m]|]; [by injection E as <- _ _|by injection E as <- _ _|].
  destruct (ok (f (clock e n) (drawn e n) (between e n d)).1) eqn:Ek.
  - by destruct (Hok _ Ek _ _ _ _ _ _ E).
  - rewrite (Hf _ _ _ Ek) in E. destruct (Hno _ Ek _ _ _ _ _ _ E Hg) as (k2 & -> & ->).
    exists (S k2). split; [lia|]. cbn. done.
Qed.

Lemma clean_if {A} (b : bool) (m1 m2 : serv A) : clean m1 -> clean m2 -> clean (if b then m1 else m2).
Proof. by destruct b. Qed.

Lemma reads_if {A} (b : bool) (m1 m2 : serv A) : reads m1 -> reads m2 -> reads (if b then m1 else m2).
Proof. by destruct b. Qed.

(** *** Taking a completed call apart *)

Lemma bind_ok {A B} (m : serv A) (k : A -> serv B) e n d b n' d' : bind m k e n d = (inr b, n', d') ->
  exists a n1 d1, m e n d = (inr a, n1, d1) /\ k a e n1 d1 = (inr b, n', d').
Proof. unfold bind. destruct (m e n d) as [[[f|a] n1] d1]; [done|]. intros E. by exists a, n1, d1. Qed.

(** A failed call either failed in its reads or in what follows them. *)
Lemma bind_failed {A B} (m : serv A) (k : A -> serv B) e n d f n' d' : reads m ->
  bind m k e n d = (inl f, n', d') -> exists j,
  d' = others e n j d \/ exists a, m e n d = (inr a, n + j, others e n j d) /\
    k a e (n + j) (others e n j d) = (inl f, n', d').
Proof.
  intros Hm. unfold bind. destruct (Hm e n d) as (j & Hn & Hd).
  destruct (m e n d) as [[[g|a] n1] d1]; cbn in *; subst; intros E; exists j.
  - injection E as _ _ <-. by left.
  - right. by exists a.
Qed.

Lemma query_ok {A} (f : timestamp -> db -> A) e n d a n' d' : query f e n d = (inr a, n', d') ->
  a = f (clock e n) (between e n d) /\ n' = S n /\ d' = between e n d.
Proof. unfold query, await. destruct (faults e n) as [[]|]; [done|done|]. by intros [= <- <- <-]. Qed.

Lemma await_ok {A} (f : timestamp -> (string -> uuid) -> db -> A * db) e n d a n' d' :
  await f e n d = (inr a, n', d') -> n' = S n /\ f (clock e n) (drawn e n) (between e n d) = (a, d').
Proof.
  unfold await. destruct (faults e n) as [[]|]; [done|done|]. intros [= <- <- <-].
  split; [done|]. by destruct (f _ _ _).
Qed.

Lemma catch_ok {A} (m : serv A) h e n d a n' d' : catch m h e n d = (inr a, n', d') ->
  m e n d = (inr a, n', d') \/ exists f n1 d1, m e n d = (inl f, n1, d1) /\ h f e n1 d1 = (inr a, n', d').
Proof.
  unfold catch. destruct (m e n d) as [[[f|b] n1] d1]; intros E; [right; by exists f, n1, d1|by left].
Qed.

Lemma catch_failed {A} (m : serv A) h e n d f n' d' : catch m h e n d = (inl f, n', d') ->
  exists g n1 d1, m e n d = (inl g, n1, d1) /\ h g e n1 d1 = (inl f, n', d').
Proof. unfold catch. destruct (m e n d) as [[[g|b] n1] d1]; intros E; [by exists g, n1, d1|done]. Qed.

Lemma ask_inv {A} (reply : nat -> upstream_error + A) (e : env) n d (r : failure + A) n' d' : ask reply e n d = (r, n', d') ->
  n' = S n /\ d' = between e n d /\
  match r with
  | inr a => reply n = inr a
  | inl f => exists err : upstream_error, reply n = inl err /\ f = Upstream err
  end.
Proof.
  unfold ask. destruct (reply n) as [err|a] eqn:E; intros [= <- <- <-]; split_and!; try done. by exists err.
Qed.

Lemma await_inv {A} (f : timestamp -> (string -> uuid) -> db -> A * db) e n d (r : failure + A) n' d' :
  await f e n d = (r, n', d') ->
  match r with
  | inr a => n' = S n /\ f (clock e n) (drawn e n) (between e n d) = (a, d')
  | inl err => exists m, err = Broken m
  end.
Proof.
  unfold await. destruct (faults e n) as [[m|m]|]; intros [= <- <- <-]; [by exists m|by exists m|].
  split; [done|]. by destruct (f _ _ _).
Qed.

Lemma bind_inl {A B} (m : serv A) (k : A -> serv B) e n d f n' d' : bind m k e n d = (inl f, n', d') ->
  m e n d = (inl f, n', d') \/ exists a n1 d1, m e n d = (inr a, n1, d1) /\ k a e n1 d1 = (inl f, n', d').
Proof.
  unfold bind. destruct (m e n d) as [[[g|a] n1] d1]; intros E; [left; by injection E as -> -> ->|].
  right. by exists a, n1, d1.
Qed.

Lemma attempt_ok {A} (f : timestamp -> (string -> uuid) -> db -> (failure + A) * db) e n d a n' d' :
  attempt f e n d = (inr a, n', d') ->
  n' = S n /\ f (clock e n) (drawn e n) (between e n d) = (inr a, d').
Proof.
  intros (r & n1 & d1 & E1 & E2)%bind_ok. apply await_ok in E1 as [-> E1].
  destruct r as [g|b]; [done|]. injection E2 as -> <- <-. done.
Qed.

(** [m] awaits nothing when it completes. *)
Definition silent {A : Type} (m : serv A) : Prop := forall e n d a n' d',
  m e n d = (inr a, n', d') -> n' = n /\ d' = d.

Lemma silent_ret {A} (a : A) : silent (ret a).
Proof. by intros e n d a' n' d' [= _ <- <-]. Qed.

Lemma silent_throw {A} f : silent (throw (A := A) f).
Proof. done. Qed.

Lemma silent_now : silent now_.
Proof. by intros e n d a' n' d' [= _ <- <-]. Qed.

Lemma silent_bind {A B} (m : serv A) (k : A -> serv B) :
  silent m -> (forall a, silent (k a)) -> silent (bind m k).
Proof.
  intros Hm Hk e n d b n' d' (a & n1 & d1 & E1 & E2)%bind_ok.
  destruct (Hm _ _ _ _ _ _ E1) as [-> ->]. by eapply Hk.
Qed.

(** A [query] is silent when what follows only throws. *)
Lemma silent_fails {A B} (m : serv A) (f : failure) : silent (bind m (fun _ => throw (A := B) f)).
Proof. intros e n d b n' d' (a & n1 & d1 & _ & E)%bind_ok. done. Qed.

End Laws.

#[export] Hint Resolve silent_ret silent_throw silent_now silent_bind silent_fails : runtime.
#[export] Hint Resolve reads_ret reads_throw reads_now reads_query accepts_ret accepts_query : runtime.

(** Walk through a call down to its writes. *)
Ltac walk :=
  repeat first
    [ apply reads_ret | apply reads_throw | apply reads_now | apply reads_query
    | match goal with
      | |- clean (ret _) => apply reads_clean, reads_ret
      | |- clean (throw _) => apply reads_clean, reads_throw
      | |- clean (query _) => apply reads_clean, reads_query
      | |- reads (bind _ _) => apply reads_bind; [|intros ?]
      | |- clean (bind (await _) _) => fail 1
      | |- clean (bind _ _) => apply clean_bind; [|intros ?]
      | |- reads (if _ then _ else _) => apply reads_if
      | |- clean (if _ then _ else _) => apply clean_if
      | |- reads (match ?x with _ => _ end) => destruct x
      | |- clean (match ?x with _ => _ end) => destruct x
      end ].
