(* ===== verification/MessageProcessor.v ===== *)
(** * The message processor

    [src/modules/messages/message-job-processor.service.ts] with
    [outbound-session-lease.service.ts]: one worker that takes a queued job,
    checks the policy, waits for the session's lease and makes the send.  A
    worker is a program counter; each [await] is one step that reads or writes the
    database as it is at that moment, so other workers and the rest of the
    runtime run between any two steps.  A query may fail before or after it took
    effect, and a worker may vanish at any step. *)

From stdpp Require Import pretty.
From S2P Require Import Prelude Schema MessageJobs OutboundLease Groups SendPolicy.

Module Processor.
Import Repo.

(** *** Errors and answers *)

(** [OpenWAHttpError], [MessageJobNoLongerProcessingError],
    [OutboundSessionLeaseLostError], and every other [Error] *)
Inductive error : Set :=
  | HttpStatus (status : Z)
  | NoLongerProcessing
  | LeaseLost
  | Failure (message : string).

(** The answer of [OpenWAClient.sendText]: a parsed body (its
    [messageId] and its JSON), an HTTP error, or none *)
Inductive response : Set :=
  | Answer (messageId : string) (body : string)
  | Status (status : Z)
  | Broken (message : string).

(** What happens at one [await]: the clock, the [randomUUID()] drawn, whether the
    query fails ([Some applied] when its answer is lost) and the HTTP answer *)
Record event := Event {
  ev_now : timestamp;
  ev_token : uuid;
  ev_fault : option bool;
  ev_response : response }.

Inductive outcome : Set :=
  | Skipped
  | DryRun
  | Sent (messageId : string)
  | Raised (e : error).

(** The job a worker holds: its id and the row [markProcessing] returned *)
Definition job : Type := uuid * message_job.

(** *** The worker *)

Inductive pc : Type :=
  | Begin (id : uuid)
  | Finish_dry_run (id : uuid)
  | Finish_blocked (id : uuid) (message : string)
  | Check_session (j : job)
  | Check_group (j : job)
  | Acquire (j : job) (token : uuid) (refreshedAt : timestamp)
  | Assert_waiting (j : job) (token : uuid)
  | Assert_acquired (j : job) (token : uuid)
  | Renew (j : job) (token : uuid)
  | Assert_before_send (j : job) (token : uuid)
  | Send (j : job) (token : uuid)
  | Await (j : job) (token : uuid)
  | Accept (j : job) (token : uuid) (messageId body : string)
  | Release (j : job) (token : uuid) (upstreamStarted : bool) (result : string + error)
  | Recover (j : job) (upstreamStarted : bool) (e : error)
  | Invalidate (j : job) (e : error) (reason : CapabilityReason.t)
  | Done (o : outcome).

Definition isDefinitiveUpstreamRejection (e : error) : bool :=
  match e with
  | HttpStatus s => (400 <=? s)%Z && (s <? 500)%Z && negb (s =? 408)%Z
  | _ => false
  end.

Definition error_message (e : error) : string :=
  (match e with
  | HttpStatus s => "OpenWA returned HTTP " ++ pretty s
  | NoLongerProcessing => "Message job is no longer processing"
  | LeaseLost => "Outbound session lease lost before send"
  | Failure m => m
  end)%string.

Definition send_ttl : Z := 45000.
Definition acquisitionTtlMs (cfg : config) : Z := (OUTBOUND_MAX_DELAY_MS cfg + 45000)%Z.
Definition refresh_after : Z := 30000.

(** One query: its new state and what follows, also when its answer is lost *)
Definition query {A : Type} (ev : event) (d : db) (r : A * db) (ok : A -> pc) (lost : error -> pc)
    : db * pc :=
  match ev_fault ev with
  | None => (r.2, ok r.1)
  | Some applied => (if applied then r.2 else d, lost (Failure "query failed"))
  end.

Definition no_options : result_options := ResultOptions None None None.
Definition with_error (message : string) : result_options := ResultOptions None (Some message) None.

(** What follows [markProcessing] up to the next [await] *)
Definition after_claim (cfg : config) (id : uuid) (row : option message_job) : pc :=
  match row with
  | None => Done Skipped
  | Some r =>
      if mj_dry_run r then Finish_dry_run id
      else if negb (ALLOW_LIVE_SENDS cfg)
      then Finish_blocked id "Live send blocked: ALLOW_LIVE_SENDS=false"
      else if negb (SessionScope.isAllowed cfg (mj_session_id r))
      then Finish_blocked id "Live send blocked: Session is outside the Runtime allowlist"
      else Check_session (id, r)
  end.

(** What follows the read of the session up to the read of the group *)
Definition after_session (j : job) (sendable : bool) : pc :=
  if negb sendable then Finish_blocked j.1 "Live send blocked: Gateway session is not sendable"
  else if negb (ends_with Policy.group_suffix (mj_recipient_id j.2))
  then Finish_blocked j.1 "Live send blocked: Recipient is not a synchronized group"
  else Check_group j.

(** The status the catch block stores *)
Definition failure_status (upstreamStarted : bool) (e : error) : JobStatus.t :=
  if negb upstreamStarted || isDefinitiveUpstreamRejection e
  then JobStatus.FAILED else JobStatus.UNKNOWN.

(** The rest of the catch block *)
Definition after_failure (j : job) (e : error) : pc :=
  match e with
  | HttpStatus s =>
      if ends_with Policy.group_suffix (mj_recipient_id j.2)
      then if (s =? 403)%Z then Invalidate j e CapabilityReason.GATEWAY_PERMISSION_DENIED
           else if (s =? 404)%Z then Invalidate j e CapabilityReason.GROUP_CHANGED
           else Done (Raised e)
      else Done (Raised e)
  | _ => Done (Raised e)
  end.

(** [assertMessageProcessing]: refresh the job's lease or throw *)
Definition assert_processing (ev : event) (d : db) (j : job) (token : uuid) (ok : pc) : db * pc :=
  query ev d (refreshProcessingLease (ev_now ev) j.1 d)
    (fun refreshed => if refreshed then ok else Release j token false (inr NoLongerProcessing))
    (fun e => Release j token false (inr e)).

Definition step (cfg : config) (ev : event) (d : db) (p : pc) : db * pc :=
  let now := ev_now ev in
  match p with
  | Begin id =>
      query ev d (markProcessing now id d) (after_claim cfg id) (fun e => Done (Raised e))
  | Finish_dry_run id =>
      query ev d (tt, updateResult now id JobStatus.DRY_RUN_COMPLETED
                        (ResultOptions None None (Some "{dryRun:true}")) d)
        (fun _ => Done DryRun) (fun e => Done (Raised e))
  | Finish_blocked id message =>
      query ev d (tt, updateResult now id JobStatus.FAILED (with_error message) d)
        (fun _ => Done (Raised (Failure message))) (fun e => Done (Raised e))
  | Check_session j =>
      query ev d (Policy.isSessionSendable (mj_session_id j.2) d, d)
        (after_session j)
        (fun e => Done (Raised e))
  | Check_group j =>
      query ev d (Policy.groupBlockReason (mj_session_id j.2) (mj_recipient_id j.2) d, d)
        (fun reason => match reason with
           | Some r => Finish_blocked j.1 ("Live send blocked: " ++ r)%string
           | None => Acquire j (ev_token ev) now
           end)
        (fun e => Done (Raised e))
  | Acquire j token refreshedAt =>
      query ev d (Lease.tryAcquire now (mj_session_id j.2) j.1 token (acquisitionTtlMs cfg) d)
        (fun acquired =>
           if acquired then Assert_acquired j token
           else if (refresh_after <=? now - refreshedAt)%Z then Assert_waiting j token
           else Acquire j token refreshedAt)
        (fun e => Release j token false (inr e))
  | Assert_waiting j token => assert_processing ev d j token (Acquire j token now)
  | Assert_acquired j token => assert_processing ev d j token (Renew j token)
  | Renew j token =>
      query ev d (Lease.renew now (mj_session_id j.2) j.1 token send_ttl d)
        (fun renewed => if renewed then Assert_before_send j token
                        else Release j token false (inr LeaseLost))
        (fun e => Release j token false (inr e))
  | Assert_before_send j token => assert_processing ev d j token (Send j token)
  | Send j token => (d, Await j token)
  | Await j token =>
      (d, match ev_response ev with
          | Answer m body => Accept j token m body
          | Status s => Release j token true (inr (HttpStatus s))
          | Broken m => Release j token true (inr (Failure m))
          end)
  | Accept j token m body =>
      query ev d (tt, updateResult now j.1 JobStatus.ACCEPTED
                        (ResultOptions (Some m) None (Some body)) d)
        (fun _ => Release j token true (inl m)) (fun e => Release j token true (inr e))
  | Release j token started result =>
      let next := match result with
                  | inl m => Done (Sent m)
                  | inr e => Recover j started e
                  end in
      query ev d (Lease.release (mj_session_id j.2) j.1 token d) (fun _ => next) (fun _ => next)
  | Recover j started e =>
      match e with
      | NoLongerProcessing => (d, Done Skipped)
      | _ =>
          query ev d (tt, updateResult now j.1 (failure_status started e) (with_error (error_message e)) d)
            (fun _ => after_failure j e) (fun e' => Done (Raised e'))
      end
  | Invalidate j e reason =>
      query ev d (CapabilityRepo.invalidate now (mj_session_id j.2) (mj_recipient_id j.2) reason d)
        (fun _ => Done (Raised e)) (fun e' => Done (Raised e'))
  | Done o => (d, Done o)
  end.

(** The request [sendText] makes when a worker leaves [Send] *)
Definition request_of (p : pc) : option job :=
  match p with Send j _ => Some j | _ => None end.

(** *** What one worker does, whatever the rest of the runtime does meanwhile *)

(** A run of one worker: the event and the database each of its steps saw *)
Fixpoint run (cfg : config) (trace : list (event * db)) (p : pc) : pc :=
  match trace with
  | [] => p
  | (ev, d) :: rest => run cfg rest (step cfg ev d p).2
  end.

(** The requests of a run *)
Fixpoint requests (cfg : config) (trace : list (event * db)) (p : pc) : list job :=
  match trace with
  | [] => []
  | (ev, d) :: rest =>
      let after := requests cfg rest (step cfg ev d p).2 in
      match request_of p with Some j => j :: after | None => after end
  end.

(** The answers of the provider a run received *)
Fixpoint responses (cfg : config) (trace : list (event * db)) (p : pc) : list response :=
  match trace with
  | [] => []
  | (ev, d) :: rest =>
      let after := responses cfg rest (step cfg ev d p).2 in
      match p with Await _ _ => ev_response ev :: after | _ => after end
  end.

Lemma run_snoc cfg trace ev d p :
  run cfg (trace ++ [(ev, d)]) p = (step cfg ev d (run cfg trace p)).2.
Proof. revert p. induction trace as [|[ev' d'] trace IH]; intros p; [done|]. apply IH. Qed.

Lemma requests_snoc cfg trace ev d p :
  requests cfg (trace ++ [(ev, d)]) p =
    requests cfg trace p ++ option_list (request_of (run cfg trace p)).
Proof.
  revert p. induction trace as [|[ev' d'] trace IH]; intros p; cbn.
  - by destruct (request_of p).
  - rewrite IH. by destruct (request_of p).
Qed.

Lemma responses_snoc cfg trace ev d p :
  responses cfg (trace ++ [(ev, d)]) p =
    responses cfg trace p ++
      match run cfg trace p with Await _ _ => [ev_response ev] | _ => [] end.
Proof.
  revert p. induction trace as [|[ev' d'] trace IH]; intros p; cbn.
  - by destruct p.
  - rewrite IH. by destruct p.
Qed.

(** The status a worker is about to store *)
Definition storing (p : pc) : option JobStatus.t :=
  match p with
  | Finish_dry_run _ => Some JobStatus.DRY_RUN_COMPLETED
  | Finish_blocked _ _ => Some JobStatus.FAILED
  | Accept _ _ _ _ => Some JobStatus.ACCEPTED
  | Recover _ _ NoLongerProcessing => None
  | Recover _ started e => Some (failure_status started e)
  | _ => None
  end.

(** The history a program counter stands for *)
Definition unsent (trace : list (event * db)) (cfg : config) (p : pc) : Prop :=
  requests cfg trace p = [] /\ responses cfg trace p = [].

Definition history (cfg : config) (id : uuid) (trace : list (event * db)) : Prop :=
  let rs := requests cfg trace (Begin id) in
  let qs := responses cfg trace (Begin id) in
  match run cfg trace (Begin id) with
  | Begin id' => id' = id /\ rs = [] /\ qs = []
  | Finish_dry_run _ | Finish_blocked _ _ | Check_session _ | Check_group _ | Acquire _ _ _
  | Assert_waiting _ _ | Assert_acquired _ _ | Renew _ _ | Assert_before_send _ _ | Send _ _ =>
      rs = [] /\ qs = []
  | Await j _ => rs = [j] /\ qs = []
  | Accept j _ m body => rs = [j] /\ qs = [Answer m body]
  | Release j _ started (inl m) => rs = [j] /\ exists body, qs = [Answer m body]
  | Release j _ started (inr e) | Recover j started e =>
      if started then rs = [j] /\ exists r, qs = [r] /\ match e with
                   | HttpStatus s => r = Status s
                   | _ => match r with Status _ => False | _ => True end end
      else rs = [] /\ qs = [] /\ match e with HttpStatus _ => False | _ => True end
  | Invalidate j e _ => rs = [j] /\ exists s, e = HttpStatus s /\ qs = [Status s]
  | Done (Sent m) => exists j body, rs = [j] /\ qs = [Answer m body]
  | Done _ => (length rs <= 1)%nat
  end.

Lemma history_holds cfg id trace : history cfg id trace.
Proof.
  induction trace as [|[ev d] trace IH] using rev_ind; [done|].
  unfold history in *. rewrite run_snoc, requests_snoc, responses_snoc.
  set (rs := requests cfg trace (Begin id)) in *. set (qs := responses cfg trace (Begin id)) in *.
  destruct (run cfg trace (Begin id)) as [i|i|i m|j|j|j t a|j t|j t|j t|j t|j t|j t|j t m body
    |j t st [m|e]|j st e|j e r|[| |m|e]] eqn:Hp; cbn; rewrite ?app_nil_r;
    unfold assert_processing, query, after_claim, after_session, after_failure.
  all: try (destruct IH as [E1 E2]; rewrite ?E1, ?E2 in * ).
  all: repeat (case_match; cbn in *; rewrite ?app_nil_r); try done.
  all: try (rewrite ?E1, ?E2; cbn; done).
  all: clearbody rs qs; clear Hp; simplify_eq/=; naive_solver (cbn; lia).
Qed.

Lemma one_request cfg id trace : (length (requests cfg trace (Begin id)) <= 1)%nat.
Proof.
  pose proof (history_holds cfg id trace) as H. unfold history in H.
  destruct (run cfg trace (Begin id)) as [i|i|i m|j|j|j t a|j t|j t|j t|j t|j t|j t|j t m body
    |j t st [m|e]|j st e|j e r|[| |m|e]]; try destruct st;
    revert H; generalize (requests cfg trace (Begin id)); generalize (responses cfg trace (Begin id));
    intros qs rs H; simplify_eq/=; naive_solver (cbn; lia).
Qed.

(** C3: the stored outcome is sound.  A worker makes at most one request, and
    whatever fails, is refused or times out around it: it stores ACCEPTED only for
    a request the provider answered with a message, FAILED only when no request was
    made or the provider definitively rejected it (4xx other than 408), UNKNOWN
    only when a request was made, and DRY_RUN_COMPLETED only when none was. *)
Theorem stored_outcome_sound cfg id trace status :
  storing (run cfg trace (Begin id)) = Some status ->
  let rs := requests cfg trace (Begin id) in
  let qs := responses cfg trace (Begin id) in
  (length rs <= 1)%nat /\
  match status with
  | JobStatus.ACCEPTED => exists j m body, rs = [j] /\ qs = [Answer m body]
  | JobStatus.FAILED =>
      rs = [] \/ exists j s, rs = [j] /\ qs = [Status s] /\ (400 <= s < 500)%Z /\ s <> 408%Z
  | JobStatus.UNKNOWN => exists j r, rs = [j] /\ qs = [r] /\
      match r with Status s => (s < 400 \/ 500 <= s)%Z \/ s = 408%Z | _ => True end
  | JobStatus.DRY_RUN_COMPLETED => rs = []
  | _ => False
  end.
Proof.
  cbv zeta. intros Hst. split; [apply one_request|].
  pose proof (history_holds cfg id trace) as H. unfold history in H.
  destruct (run cfg trace (Begin id)) as [i|i|i m|j|j|j t a|j t|j t|j t|j t|j t|j t|j t m body
    |j t st [m|e]|j st e|j e r|[| |m|e]]; cbn in Hst; try done.
  1-3: injection Hst as <-; clear -H; naive_solver.
  revert Hst H. generalize (requests cfg trace (Begin id)) (responses cfg trace (Begin id)).
  intros rs qs Hst H. unfold failure_status in Hst.
  destruct e as [s| | |m]; try done; destruct st; cbn in *; injection Hst as <-.
  2,4,6: by left; destruct H.
  - destruct H as (Hr & r & Hq & ->). destruct (_ && _) eqn:E.
    + right. exists j, s. split_bool. split_and!; try done; lia.
    + exists j, (Status s). split_and!; [done|done|].
      rewrite !andb_false_iff, negb_false_iff in E. destruct E as [[E|E]|E]; split_bool; lia.
  - destruct H as (Hr & r & Hq & Hn). exists j, r. split_and!; [done|done|]. by destruct r.
  - destruct H as (Hr & r & Hq & Hn). exists j, r. split_and!; [done|done|]. by destruct r.
Qed.

(** *** What a request is preceded by *)

(** The worker's own claim of the job *)
Definition claimed_job (cfg : config) (id : uuid) (trace : list (event * db)) (j : job) : Prop :=
  j.1 = id /\ mj_dry_run j.2 = false /\ ALLOW_LIVE_SENDS cfg = true /\
  exists ev d, (ev, d) ∈ trace /\ (markProcessing (ev_now ev) id d).1 = Some j.2.

Definition session_checked (cfg : config) (trace : list (event * db)) (j : job) : Prop :=
  exists ev d, (ev, d) ∈ trace /\ Policy.permitted_session cfg (mj_session_id j.2) d.

Definition group_checked (trace : list (event * db)) (j : job) : Prop :=
  exists ev d, (ev, d) ∈ trace /\
    Policy.permitted_group (mj_session_id j.2) (mj_recipient_id j.2) d.

(** The last step renewed the session's lease for [send_ttl]. *)
Definition just_renewed (trace : list (event * db)) (j : job) (token : uuid) : Prop :=
  exists before_ ev d, trace = before_ ++ [(ev, d)] /\
    (Lease.renew (ev_now ev) (mj_session_id j.2) j.1 token send_ttl d).1 = true.

(** The last step found the job PROCESSING with an unexpired lease. *)
Definition just_verified (trace : list (event * db)) (j : job) (token : uuid) : Prop :=
  exists before_ ev d, trace = before_ ++ [(ev, d)] /\
    (refreshProcessingLease (ev_now ev) j.1 d).1 = true /\ just_renewed before_ j token.

Definition authorised (cfg : config) (id : uuid) (trace : list (event * db)) : Prop :=
  match run cfg trace (Begin id) with
  | Begin i => i = id
  | Check_session j => claimed_job cfg id trace j /\
      SessionScope.isAllowed cfg (mj_session_id j.2) = true
  | Check_group j => claimed_job cfg id trace j /\ session_checked cfg trace j /\
      ends_with Policy.group_suffix (mj_recipient_id j.2) = true
  | Acquire j _ _ | Assert_waiting j _ | Assert_acquired j _ | Renew j _ =>
      claimed_job cfg id trace j /\ session_checked cfg trace j /\ group_checked trace j
  | Assert_before_send j token => claimed_job cfg id trace j /\ session_checked cfg trace j /\
      group_checked trace j /\ just_renewed trace j token
  | Send j token => claimed_job cfg id trace j /\ session_checked cfg trace j /\
      group_checked trace j /\ just_verified trace j token
  | _ => True
  end.

Lemma claimed_job_snoc cfg id trace x j :
  claimed_job cfg id trace j -> claimed_job cfg id (trace ++ [x]) j.
Proof.
  intros (H1 & H2 & H3 & ev & d & Hin & Hm). split_and!; [done..|]. exists ev, d.
  split; [|done]. apply elem_of_app. by left.
Qed.

Lemma session_checked_snoc cfg trace x j :
  session_checked cfg trace j -> session_checked cfg (trace ++ [x]) j.
Proof. intros (ev & d & Hin & Hm). exists ev, d. split; [|done]. apply elem_of_app. by left. Qed.

Lemma group_checked_snoc trace x j : group_checked trace j -> group_checked (trace ++ [x]) j.
Proof. intros (ev & d & Hin & Hm). exists ev, d. split; [|done]. apply elem_of_app. by left. Qed.

Lemma last_elem {A} (l : list A) x : x ∈ l ++ [x].
Proof. apply elem_of_app. right. left. Qed.

#[local] Hint Resolve claimed_job_snoc session_checked_snoc group_checked_snoc last_elem : runtime.

Lemma authorised_holds cfg id trace : authorised cfg id trace.
Proof.
  induction trace as [|[ev d] trace IH] using rev_ind; [done|].
  unfold authorised in *. rewrite run_snoc.
  destruct (run cfg trace (Begin id)) as [i|i|i m|j|j|j t a|j t|j t|j t|j t|j t|j t|j t m body
    |j t st [m|e]|j st e|j e r|[| |m|e]]; cbn;
    unfold assert_processing, query, after_failure; try done;
    try (destruct (ev_fault ev); [done|]); cbn; try done.
  - subst i. unfold after_claim. destruct (markProcessing _ _ _).1 as [row|] eqn:Hm; [|done].
    destruct (mj_dry_run row) eqn:Hd; [done|]. destruct (ALLOW_LIVE_SENDS cfg) eqn:Hl; [|done].
    cbn. destruct (SessionScope.isAllowed _ _) eqn:Hs; [|done]. cbn. split; [|done].
    split_and!; [done..|]. exists ev, d. auto with runtime.
  - destruct IH as [Hc Ha]. unfold after_session.
    destruct (Policy.isSessionSendable _ d) eqn:Hs; [|done]. cbn.
    destruct (ends_with _ _) eqn:He; [|done]. cbn. split_and!; [auto with runtime| |done].
    exists ev, d. split; [auto with runtime|]. apply Policy.sessionBlockReason_None.
    unfold Policy.sessionBlockReason. by rewrite Ha, Hs.
  - destruct IH as (Hc & Hs & He). destruct (Policy.groupBlockReason _ _ d) eqn:Hg; [done|].
    split_and!; [auto with runtime..|]. exists ev, d. split; [auto with runtime|].
    by apply Policy.groupBlockReason_None.
  - destruct IH as (Hc & Hs & Hg). destruct (Lease.tryAcquire _ _ _ _ _ _).1;
      [|destruct (_ <=? _)%Z]; split_and!; auto with runtime.
  - destruct IH as (Hc & Hs & Hg). destruct (refreshProcessingLease _ _ _).1; [|done].
    split_and!; auto with runtime.
  - destruct IH as (Hc & Hs & Hg). destruct (refreshProcessingLease _ _ _).1; [|done].
    split_and!; auto with runtime.
  - destruct IH as (Hc & Hs & Hg). destruct (Lease.renew _ _ _ _ _ _).1 eqn:Hr; [|done].
    split_and!; auto with runtime. by exists trace, ev, d.
  - destruct IH as (Hc & Hs & Hg & Hr). destruct (refreshProcessingLease _ _ _).1 eqn:Hv; [|done].
    split_and!; auto with runtime. by exists trace, ev, d.
  - by destruct (ev_response ev).
  - destruct e; try done; destruct (ev_fault ev); try done; cbn. by repeat case_match.
Qed.

(** C2: every request was authorised.  When a worker is about to make a request,
    whatever the rest of the runtime did between its steps, it holds the live job
    it claimed itself, live sends are enabled, the session and the group were each
    found permitted after the claim, its last step found the job still PROCESSING
    under an unexpired lease, and the step before that renewed the session's lease
    for longer than the request may take. *)
Theorem request_is_authorised cfg id trace j token :
  run cfg trace (Begin id) = Send j token ->
  claimed_job cfg id trace j /\ session_checked cfg trace j /\ group_checked trace j /\
  just_verified trace j token.
Proof.
  intros Hp. pose proof (authorised_holds cfg id trace) as H. unfold authorised in H.
  by rewrite Hp in H.
Qed.

(** *** Termination *)

Definition rank (p : pc) : nat :=
  match p with
  | Begin _ => 14 | Check_session _ => 13 | Check_group _ => 12 | Assert_waiting _ _ => 11
  | Acquire _ _ _ => 10 | Assert_acquired _ _ => 9 | Renew _ _ => 8
  | Assert_before_send _ _ => 7 | Send _ _ => 6 | Await _ _ => 5 | Accept _ _ _ _ => 4
  | Release _ _ _ _ => 3 | Recover _ _ _ => 2 | Invalidate _ _ _ => 1
  | Finish_dry_run _ | Finish_blocked _ _ => 1
  | Done _ => 0
  end.

(** The session is held by another job. *)
Definition refused (cfg : config) (ev : event) (d : db) (p : pc) : bool :=
  match p with
  | Acquire j token _ =>
      is_null (ev_fault ev) &&
      negb (Lease.tryAcquire (ev_now ev) (mj_session_id j.2) j.1 token (acquisitionTtlMs cfg) d).1
  | _ => false
  end.

Fixpoint refusals (cfg : config) (trace : list (event * db)) (p : pc) : nat :=
  match trace with
  | [] => 0
  | (ev, d) :: rest =>
      (if refused cfg ev d p then 1 else 0) + refusals cfg rest (step cfg ev d p).2
  end.

Lemma step_rank cfg ev d p :
  if refused cfg ev d p then rank p = 10 /\ (rank (step cfg ev d p).2 <= 11)%nat
  else rank p = 0%nat \/ (rank (step cfg ev d p).2 < rank p)%nat.
Proof.
  destruct p as [i|i|i m|j|j|j t a|j t|j t|j t|j t|j t|j t|j t m body|j t st [x|x]|j st e|j e r|o];
    cbn; unfold assert_processing, query, after_claim, after_session, after_failure;
    try destruct (ev_fault ev); cbn;
    repeat (case_match; cbn); try done; try (right; lia); try (left; done);
    try (split; [done|lia]).
Qed.

Lemma done_stays cfg trace o : run cfg trace (Done o) = Done o.
Proof. induction trace as [|[ev d] trace IH]; done. Qed.

Lemma run_terminates cfg trace p :
  (rank p + 2 * refusals cfg trace p <= length trace)%nat -> exists o, run cfg trace p = Done o.
Proof.
  revert p. induction trace as [|[ev d] trace IH]; intros p Hlen.
  - destruct p; cbn in Hlen; try lia. by eexists.
  - cbn in *. pose proof (step_rank cfg ev d p) as Hr. destruct (refused cfg ev d p).
    + apply IH. lia.
    + destruct Hr as [H0|Hr]; [|apply IH; lia].
      destruct p; try done. cbn. rewrite done_stays. by eexists.
Qed.

(** A worker only ever waits for its session.  Whatever fails and whatever the
    database and the provider answer, a worker that was refused the session's
    lease [n] times is finished after at most [14 + 2 * n] steps. *)
Theorem worker_terminates cfg id trace :
  (14 + 2 * refusals cfg trace (Begin id) <= length trace)%nat ->
  exists o, run cfg trace (Begin id) = Done o.
Proof. apply (run_terminates cfg trace (Begin id)). Qed.

(** *** Concrete runs *)

(** The trace of a worker that runs alone *)
Fixpoint alone (cfg : config) (evs : list event) (d : db) (p : pc) : list (event * db) :=
  match evs with
  | [] => []
  | ev :: rest => (ev, d) :: alone cfg rest (step cfg ev d p).1 (step cfg ev d p).2
  end.

Definition live : config := Config true ["s"] 0 5000.
Definition ready : db :=
  empty_db
    <| message_jobs := {[7%positive := (Repo.new_job 1000 (Repo.CreateInput "runtime-api" "k" "h" "s"
         "g@g.us" "hello" 1000 false)) <| mj_status := JobStatus.QUEUED |>]} |>
    <| gateway_sessions := {["s" := GatewaySession "ready" true None 0 0 0]} |>
    <| gateway_groups := gateway_groups GroupLife.synced |>.

Definition at_ (now : timestamp) (r : response) : event := Event now 9 None r.
Definition no_answer : response := Broken "no request".

Definition to_send : list event := map (fun n => at_ (2000 + n) no_answer) [0; 1; 2; 3; 4; 5; 6]%Z.
Definition rejected : list event := to_send ++ [at_ 2010 no_answer; at_ 2500 (Status 403)].
Definition rejected_trace : list (event * db) := alone live (rejected ++ [at_ 2600 no_answer]) ready (Begin 7).

Lemma stored_outcome_sound_witness :
  storing (run live rejected_trace (Begin 7)) = Some JobStatus.FAILED /\
  (requests live rejected_trace (Begin 7) = [] \/
   exists j s, requests live rejected_trace (Begin 7) = [j] /\
     responses live rejected_trace (Begin 7) = [Status s] /\ (400 <= s < 500)%Z /\ s <> 408%Z).
Proof.
  split; [by vm_compute|].
  apply (stored_outcome_sound live 7 rejected_trace JobStatus.FAILED). by vm_compute.
Defined.

Definition claimed_row : message_job :=
  default (Repo.new_job 0 (Repo.CreateInput "" "" "" "" "" "" 0 false))
    (markProcessing 2000 7 ready).1.

Lemma request_is_authorised_witness :
  run live (alone live to_send ready (Begin 7)) (Begin 7) = Send (7%positive, claimed_row) 9 /\
  group_checked (alone live to_send ready (Begin 7)) (7%positive, claimed_row).
Proof.
  split; [by vm_compute|].
  apply (request_is_authorised live 7 _ (7%positive, claimed_row) 9). by vm_compute.
Defined.

Definition finished_trace : list (event * db) :=
  alone live (rejected ++ map (fun n => at_ (2600 + n) no_answer) [0; 1; 2; 3; 4]%Z) ready (Begin 7).

Lemma worker_terminates_witness : exists o, run live finished_trace (Begin 7) = Done o.
Proof. apply (worker_terminates live 7 finished_trace). vm_compute. lia. Defined.

End Processor.

(** ** Many workers on one outbox *)

Module Workers.
Import Processor.

(** The runtime: the database, the workers (of any number of processes) and the
    requests made so far *)
Record system := System {
  s_db : db;
  s_workers : gmap nat pc;
  s_requests : list uuid }.

(** The id of the job a worker may still make a request for *)
Definition may_send (p : pc) : option uuid :=
  match p with
  | Check_session j | Check_group j | Acquire j _ _ | Assert_waiting j _ | Assert_acquired j _
  | Renew j _ | Assert_before_send j _ | Send j _ => Some j.1
  | _ => None
  end.

Section Workers.
Context {inv : db -> Prop} {outbox_step : db -> db -> Prop} {claimed : uuid -> db -> Prop}.
Context {Hclaims : ClaimOnce inv outbox_step claimed}.
Variable cfg : config.

Inductive sys_step (s : system) : system -> Prop :=
  (** the queue delivers a job id, possibly one it delivered before *)
  | sys_deliver w id : s_workers s !! w = None ->
      sys_step s (System (s_db s) (<[w := Begin id]> (s_workers s)) (s_requests s))
  | sys_work w p ev : s_workers s !! w = Some p ->
      sys_step s (System (step cfg ev (s_db s) p).1
        (<[w := (step cfg ev (s_db s) p).2]> (s_workers s))
        (s_requests s ++ option_list (fst <$> request_of p)))
  (** a process dies, or a finished worker goes away *)
  | sys_crash w : sys_step s (System (s_db s) (delete w (s_workers s)) (s_requests s))
  (** the rest of the runtime runs a statement *)
  | sys_other d' : outbox_step (s_db s) d' ->
      sys_step s (System d' (s_workers s) (s_requests s)).

Definition sys_inv (s : system) : Prop :=
  inv (s_db s) /\ NoDup (s_requests s) /\
  (forall id, id ∈ s_requests s -> claimed id (s_db s)) /\
  (forall w p id, s_workers s !! w = Some p -> may_send p = Some id ->
     claimed id (s_db s) /\ id ∉ s_requests s) /\
  (forall w1 w2 p1 p2 id, s_workers s !! w1 = Some p1 -> s_workers s !! w2 = Some p2 ->
     may_send p1 = Some id -> may_send p2 = Some id -> w1 = w2).

Lemma query_outbox {A} ev d (r : A * db) ok lost :
  outbox_step d r.2 -> outbox_step d (query ev d r ok lost).1.
Proof.
  intros Hr. unfold query. destruct (ev_fault ev) as [[]|]; cbn; try done. by apply co_other.
Qed.

Lemma lease_outbox d s : outbox_step d (d <| outbound_session_leases := s |>).
Proof. by apply co_other. Qed.

(** A worker's step is a statement of the outbox or of another table. *)
Lemma step_outbox ev d p : outbox_step d (step cfg ev d p).1.
Proof.
  assert (Hid : outbox_step d d) by (by apply co_other).
  destruct p as [i|i|i m|j|j|j t a|j t|j t|j t|j t|j t|j t|j t m body|j t st x|j st e|j e r|o];
    cbn -[Repo.updateResult]; unfold assert_processing; try done; try (destruct e; try done);
    apply query_outbox; try done.
  - apply co_start.
  - by apply co_result.
  - by apply co_result.
  - unfold Lease.tryAcquire. destruct (outbound_session_leases d !! _); [destruct (_ || _)|];
      try done; apply lease_outbox.
  - apply co_refresh.
  - apply co_refresh.
  - unfold Lease.renew. destruct (update_row _ _ _ _). apply lease_outbox.
  - apply co_refresh.
  - by apply co_result.
  - unfold Lease.release. destruct (outbound_session_leases d !! _); [destruct (Lease.held_by _ _ _)|];
      try done; apply lease_outbox.
  - apply co_result. unfold failure_status. by destruct (_ || _).
  - apply co_result. unfold failure_status. by destruct (_ || _).
  - apply co_result. unfold failure_status. by destruct (_ || _).
  - unfold CapabilityRepo.invalidate. destruct (update_row _ _ _ _). by apply co_other.
  - unfold CapabilityRepo.invalidate. destruct (update_row _ _ _ _). by apply co_other.
  - unfold CapabilityRepo.invalidate. destruct (update_row _ _ _ _). by apply co_other.
  - unfold CapabilityRepo.invalidate. destruct (update_row _ _ _ _). by apply co_other.
Qed.

(** A worker comes to hold a job only by claiming it. *)
Lemma step_may_send ev d p id : may_send (step cfg ev d p).2 = Some id ->
  may_send p = Some id \/
  p = Begin id /\ (exists row, (Repo.markProcessing (ev_now ev) id d).1 = Some row) /\
    (step cfg ev d p).1 = (Repo.markProcessing (ev_now ev) id d).2.
Proof.
  destruct p as [i|i|i m|j|j|j t a|j t|j t|j t|j t|j t|j t|j t m body|j t st x|j st e|j e r|o];
    cbn; unfold assert_processing, query, after_session, after_failure; cbn;
    try (destruct (ev_fault ev) as [b|]; cbn; [try done|]); try done.
  1: { unfold after_claim. destruct (Repo.markProcessing (ev_now ev) i d).1 as [row|] eqn:E; [|done].
    intros Hm. right. destruct (mj_dry_run row); [done|].
    destruct (negb (ALLOW_LIVE_SENDS cfg)); [done|].
    destruct (negb (SessionScope.isAllowed _ _)); [done|]. cbn in Hm. injection Hm as ->.
    split_and!; [done|by exists row|done]. }
  all: intros Hm; left; revert Hm; repeat case_match; done.
Qed.

Lemma request_may_send ev d p j : request_of p = Some j ->
  may_send p = Some j.1 /\ may_send (step cfg ev d p).2 = None.
Proof. destruct p; try done. by intros [= ->]. Qed.

Lemma sys_step_inv s s' : sys_step s s' -> sys_inv s -> sys_inv s'.
Proof.
  intros Hs (Hinv & Hnd & Hreq & Hw & Huniq). destruct Hs as [w id Hn|w p ev Hp|w|d' Hd]; cbn.
  - split_and!; cbn; try done.
    + intros w' p' id' Hp' Hm. apply lookup_insert_Some in Hp' as [[_ <-]|[_ Hp']]; [done|eauto].
    + intros w1 w2 p1 p2 id' H1 H2 M1 M2.
      apply lookup_insert_Some in H1 as [[_ <-]|[_ H1]]; [done|].
      apply lookup_insert_Some in H2 as [[_ <-]|[_ H2]]; [done|]. eauto.
  - pose proof (step_outbox ev (s_db s) p) as Hstep.
    set (d' := (step cfg ev (s_db s) p).1) in *. set (p' := (step cfg ev (s_db s) p).2) in *.
    assert (Hst : forall id, claimed id (s_db s) -> claimed id d')
      by (intros id Hc; by eapply co_stable).
    assert (Hold : forall id, may_send p' = Some id -> claimed id d' /\ (id ∉ s_requests s) /\
      request_of p = None /\
      (forall w2 p2, w2 <> w -> s_workers s !! w2 = Some p2 -> may_send p2 <> Some id)).
    { intros id Hm. destruct (step_may_send _ _ _ _ Hm) as [Hm'|(-> & (row & Hr) & Hd)].
      - destruct (Hw _ _ _ Hp Hm') as [Hc Hnr]. split_and!; auto.
        + destruct (request_of p) as [j|] eqn:E; [|done].
          destruct (request_may_send ev (s_db s) _ _ E) as [_ Hnone].
          unfold p' in Hm. by rewrite Hnone in Hm.
        + intros w2 p2 Hne H2 M2. apply Hne. eauto.
      - destruct (co_claim _ _ _ _ Hinv Hr) as [Hnc Hc]. split_and!; [unfold d'; by rewrite Hd| |done|].
        + intros Hin. by apply Hnc, Hreq.
        + intros w2 p2 _ H2 M2. by destruct (Hw _ _ _ H2 M2). }
    assert (Hsent : forall j, request_of p = Some j -> (j.1 ∉ s_requests s) /\ claimed j.1 (s_db s) /\
      (forall w2 p2, w2 <> w -> s_workers s !! w2 = Some p2 -> may_send p2 <> Some j.1)).
    { intros j E. destruct (request_may_send ev (s_db s) _ _ E) as [Hm _].
      destruct (Hw _ _ _ Hp Hm) as [Hc Hnr]. split_and!; [done|done|].
      intros w2 p2 Hne H2 M2. apply Hne. eauto. }
    split_and!; cbn.
    + by eapply co_inv.
    + destruct (request_of p) as [j|] eqn:E; cbn; [|by rewrite app_nil_r].
      apply NoDup_app. split_and!; [done| |apply NoDup_singleton].
      intros id Hin ->%list_elem_of_singleton. by destruct (Hsent j eq_refl).
    + intros id [Hin|Hin]%elem_of_app; [auto|].
      destruct (request_of p) as [j|] eqn:E; [|by apply elem_of_nil in Hin].
      apply list_elem_of_singleton in Hin as ->. apply Hst. by destruct (Hsent j eq_refl) as (_ & ? & _).
    + intros w' q id Hq Hm. apply lookup_insert_Some in Hq as [[_ <-]|[Hne Hq]].
      * destruct (Hold _ Hm) as (Hc & Hnr & -> & _). by rewrite app_nil_r.
      * destruct (Hw _ _ _ Hq Hm) as [Hc Hnr]. split; [auto|]. intros [Hin|Hin]%elem_of_app; [done|].
        destruct (request_of p) as [j|] eqn:E; [|by apply elem_of_nil in Hin].
        apply list_elem_of_singleton in Hin as ->.
        destruct (Hsent j eq_refl) as (_ & _ & Ho). by apply (Ho _ _ (not_eq_sym Hne) Hq).
    + intros w1 w2 p1 p2 id H1 H2 M1 M2.
      apply lookup_insert_Some in H1 as [[<- <-]|[N1 H1]], H2 as [[<- <-]|[N2 H2]]; try done.
      * destruct (Hold _ M1) as (_ & _ & _ & Ho). by destruct (Ho _ _ (not_eq_sym N2) H2).
      * destruct (Hold _ M2) as (_ & _ & _ & Ho). by destruct (Ho _ _ (not_eq_sym N1) H1).
      * eauto.
  - split_and!; cbn; try done.
    + intros w' p' id [_ Hp']%lookup_delete_Some Hm. eauto.
    + intros w1 w2 p1 p2 id [_ H1]%lookup_delete_Some [_ H2]%lookup_delete_Some M1 M2. eauto.
  - split_and!; cbn; try done.
    + by eapply co_inv.
    + intros id Hin. eapply co_stable; eauto.
    + intros w p id Hp Hm. destruct (Hw _ _ _ Hp Hm) as [Hc Hn]. split; [|done].
      by eapply co_stable.
Qed.

(** No worker yet, no request yet *)
Definition initial (d : db) : system := System d ∅ [].

Lemma sys_reach_inv d s : inv d -> rtc sys_step (initial d) s -> sys_inv s.
Proof.
  intros Hinv Hr. assert (H0 : sys_inv (initial d)).
  { split_and!; cbn; try done.
    - apply NoDup_nil_2.
    - by intros id []%elem_of_nil. }
  revert H0. induction Hr; eauto using sys_step_inv.
Qed.
End Workers.

(** C1: no message is sent twice.  However many workers in however many processes
    are handed the same job ids, however their steps interleave with each other
    and with every other statement of the outbox, and wherever they lose an answer
    of the database or die, each job id is in at most one request to the provider,
    and so is each idempotency key of a scope, such as the group of a campaign run;
    and the invariant of the outbox is kept. *)
Theorem no_double_send cfg d s :
  Lifecycle.reachable d ->
  rtc (sys_step (outbox_step := Lifecycle.op) cfg) (initial d) s ->
  NoDup (s_requests s) /\
  (forall id, id ∈ s_requests s -> job_claimed id (s_db s)) /\
  (forall id1 j1 id2 j2, id1 ∈ s_requests s -> id2 ∈ s_requests s ->
     message_jobs (s_db s) !! id1 = Some j1 -> message_jobs (s_db s) !! id2 = Some j2 ->
     mj_idempotency_scope j1 = mj_idempotency_scope j2 ->
     mj_idempotency_key j1 = mj_idempotency_key j2 -> id1 = id2) /\
  Lifecycle.outbox_ok (s_db s).
Proof.
  intros Hre Hr. pose proof (Lifecycle.reachable_outbox_ok _ Hre) as Hok.
  destruct (sys_reach_inv (Hclaims := outbox_claims_once) cfg d s Hok Hr)
    as (Hinv & Hnd & Hc & _). split_and!; [done|done| |done].
  intros id1 j1 id2 j2 _ _. apply Hinv.
Qed.

(** One worker, left alone, as steps of the system *)
Definition work (cfg : config) (w : nat) (s : system) (ev : event) : system :=
  match s_workers s !! w with
  | Some p => System (step cfg ev (s_db s) p).1 (<[w := (step cfg ev (s_db s) p).2]> (s_workers s))
      (s_requests s ++ option_list (fst <$> request_of p))
  | None => s
  end.

Lemma work_steps (cfg : config) evs w s :
  rtc (sys_step (outbox_step := Lifecycle.op) cfg) s (foldl (work cfg w) s evs).
Proof.
  revert s. induction evs as [|ev evs IH]; intros s; [apply rtc_refl|]. cbn.
  etransitivity; [|apply IH]. unfold work. destruct (s_workers s !! w) as [p|] eqn:Hp; [|apply rtc_refl].
  apply rtc_once. by apply sys_work.
Qed.

Definition queued : db :=
  (Repo.claimDue (fun _ => false) 1500 10 (Repo.create 1000 7 (Repo.CreateInput "runtime-api" "k" "h"
     "s" "g@g.us" "hello" 1000 false) (ready <| message_jobs := ∅ |>)).2).2.

Lemma queued_reachable : Lifecycle.reachable queued.
Proof.
  exists (ready <| message_jobs := ∅ |>). split_and!; [done..|].
  eapply rtc_l; [|apply rtc_once, Lifecycle.op_claim]. by apply Lifecycle.op_create.
Qed.

Definition after_rejection : system :=
  foldl (work live 1) (System queued {[1%nat := Begin 7]} []) rejected.

Lemma no_double_send_witness :
  s_requests after_rejection = [7%positive] /\ NoDup (s_requests after_rejection).
Proof.
  split; [by vm_compute|].
  apply (no_double_send live queued after_rejection queued_reachable).
  eapply rtc_l; [by apply (sys_deliver live (initial queued) 1 7)|]. apply work_steps.
Defined.

End Workers.
