(* ===== verification/CampaignPreflight.v ===== *)
(** * Campaign preflight

    [src/modules/campaigns/campaign-preflight.ts] and
    [campaign-preflight.service.ts]: the decision, taken before a run starts or
    resumes, whether its content, targets and session allow it. *)

From stdpp Require Import pretty.
From S2P Require Import Prelude Schema Groups SendPolicy.
Import Preflight.

Module CampaignPreflight.

(** [CampaignTargetDto] *)
Record target := Target {
  tg_groupId : string;
  tg_groupName : string;
  tg_enabled : bool;
  tg_status : Capability.t;
  tg_reason : CapabilityReason.t;
  tg_checkedAt : option timestamp;
  tg_invalidatedAt : option timestamp;
  tg_revision : Z }.

(** ORDER BY name, id *)
Definition by_group_name (a b : target) : bool :=
  if bool_decide (tg_groupName a = tg_groupName b) then text_leb (tg_groupId a) (tg_groupId b)
  else text_leb (tg_groupName a) (tg_groupName b).

(** [CampaignPreflightSessionState] *)
Record session_state := SessionState {
  ps_status : string; ps_engineLoaded : bool; ps_restricted : bool }.

Record input := Input {
  pi_executionMode : Mode.t;
  pi_text : string;
  pi_targets : list target;
  pi_session : session_state;
  pi_liveSendsEnabled : bool;
  pi_campaignRevision : Z;
  pi_targetsRevision : Z;
  pi_checkedAt : timestamp }.

Definition effectiveCapability (t : target) : Capability.t :=
  if is_null (tg_invalidatedAt t) then tg_status t else Capability.UNKNOWN.

Definition issue (t : target) : target_issue :=
  TargetIssue (tg_groupId t) (tg_groupName t) (effectiveCapability t)
    (if negb (is_null (tg_invalidatedAt t)) then TARGET_CAPABILITY_STALE
     else if bool_decide (effectiveCapability t = Capability.DENIED)
     then TARGET_CAPABILITY_DENIED else TARGET_CAPABILITY_UNKNOWN).

Definition targetIssues (targets : list target) : list target_issue :=
  map issue (List.filter
    (fun t => negb (bool_decide (effectiveCapability t = Capability.ALLOWED))) targets).

Definition count_issues (c : Capability.t) (l : list target_issue) : Z :=
  Z.of_nat (length (List.filter (fun i => bool_decide (ti_capability i = c)) l)).

Definition text_valid (text : string) : bool :=
  truthy (trim text) && (String.length text <=? 4096)%nat.

Definition sessionReady (s : session_state) : bool :=
  bool_decide (ps_status s = "ready") && ps_engineLoaded s && negb (ps_restricted s).

Definition pass_or_block (b : bool) : status := if b then PASS else BLOCK.

Definition show_count (n : nat) : string := pretty (Z.of_nat n).

Definition checks (i : input) : list check :=
  let issues := targetIssues (pi_targets i) in
  let some_issue := negb (Nat.eqb (length issues) 0) in
  let live := bool_decide (pi_executionMode i = Mode.LIVE) in
  [ Check_ CONTENT_VALID (pass_or_block (text_valid (pi_text i)))
      (if text_valid (pi_text i) then "Text content is valid" else "Text content is invalid");
    Check_ TARGETS_VALID (pass_or_block (negb (Nat.eqb (length (pi_targets i)) 0)))
      (if negb (Nat.eqb (length (pi_targets i)) 0)
       then (show_count (length (pi_targets i)) ++ " target groups selected")%string
       else "At least one target group is required");
    Check_ SESSION_SENDABLE (pass_or_block (sessionReady (pi_session i)))
      (if sessionReady (pi_session i) then "Session is ready"
       else "Session is not ready or is restricted");
    Check_ GROUP_CAPABILITY
      (if some_issue
       then if bool_decide (pi_executionMode i = Mode.DRY_RUN) then WARN else BLOCK
       else PASS)
      (if some_issue then (show_count (length issues) ++ " targets are denied or unknown")%string
       else "All targets have current send capability");
    Check_ LIVE_SEND_ALLOWED (pass_or_block (negb (live && negb (pi_liveSendsEnabled i))))
      (if live then if pi_liveSendsEnabled i then "Live sends are enabled"
                    else "Live sends are disabled"
       else "Dry-run does not require live sends") ].

Definition has_status (s : status) (c : check) : bool := bool_decide (chk_status c = s).

Definition overall (cs : list check) : status :=
  if existsb (has_status BLOCK) cs then BLOCK
  else if existsb (has_status WARN) cs then WARN else PASS.

Definition evaluateCampaignPreflight (i : input) : report :=
  let issues := targetIssues (pi_targets i) in
  let total := Z.of_nat (length (pi_targets i)) in
  Report (overall (checks i)) 2 (pi_campaignRevision i) (pi_targetsRevision i)
    (pi_executionMode i) (pi_checkedAt i) total (total - Z.of_nat (length issues))%Z
    (count_issues Capability.DENIED issues) (count_issues Capability.UNKNOWN issues)
    (checks i) issues.

(** [CampaignPreflightService.evaluate], with its read of the session *)
Definition session_of (sessionId : string) (d : db) : session_state :=
  match gateway_sessions d !! sessionId with
  | Some s => SessionState (gs_status s) (gs_engine_loaded s) (negb (is_null (gs_restriction s)))
  | None => SessionState "missing" false true
  end.

Definition evaluate (cfg : config) (now : timestamp) (executionMode : Mode.t) (sessionId text : string)
    (targets : list target) (campaignRevision targetsRevision : Z) (d : db) : report :=
  evaluateCampaignPreflight (Input executionMode text targets (session_of sessionId d)
    (ALLOW_LIVE_SENDS cfg) campaignRevision targetsRevision now).

(** *** Its meaning *)

(** A target the group's current metadata allows *)
Definition current_target (t : target) : Prop :=
  tg_status t = Capability.ALLOWED /\ tg_invalidatedAt t = None.

Lemma effective_allowed t : effectiveCapability t = Capability.ALLOWED <-> current_target t.
Proof.
  unfold effectiveCapability, current_target.
  destruct (tg_invalidatedAt t); cbn; split; try done; intros [? ?]; done.
Qed.

Lemma targetIssues_nil targets : targetIssues targets = [] <-> Forall current_target targets.
Proof.
  unfold targetIssues. induction targets as [|t targets IH]; cbn; [done|].
  rewrite Forall_cons, <- effective_allowed, <- IH.
  destruct (decide (effectiveCapability t = Capability.ALLOWED)) as [E|E].
  - rewrite bool_decide_true by done. cbn. by split; [|intros [_ ?]].
  - rewrite bool_decide_false by done. cbn. by split; [|intros [? _]].
Qed.

Lemma filter_issues targets c : c <> Capability.ALLOWED ->
  length (List.filter (fun i => bool_decide (ti_capability i = c)) (targetIssues targets)) =
  length (List.filter (fun t => bool_decide (effectiveCapability t = c)) targets).
Proof.
  intros Hc. unfold targetIssues. induction targets as [|t targets IH]; cbn; [done|].
  destruct (decide (effectiveCapability t = Capability.ALLOWED)) as [E|E].
  - rewrite (bool_decide_true _ E). cbn. rewrite bool_decide_false by congruence. done.
  - rewrite (bool_decide_false _ E). cbn. case_bool_decide; cbn; by rewrite IH.
Qed.

Lemma issues_length targets :
  length (targetIssues targets) = length (List.filter
    (fun t => negb (bool_decide (effectiveCapability t = Capability.ALLOWED))) targets).
Proof. unfold targetIssues. by rewrite length_map. Qed.

(** The preflight totals partition the targets: every target is counted once,
    as allowed, denied or unknown by its effective capability, which is UNKNOWN
    while its metadata is invalidated, and the issues list the others. *)
Theorem preflight_counts_partition i :
  let r := evaluateCampaignPreflight i in
  let count c := Z.of_nat (length (List.filter
    (fun t => bool_decide (effectiveCapability t = c)) (pi_targets i))) in
  rep_allowed_targets r = count Capability.ALLOWED /\
  rep_denied_targets r = count Capability.DENIED /\
  rep_unknown_targets r = count Capability.UNKNOWN /\
  (rep_total_targets r = rep_allowed_targets r + rep_denied_targets r + rep_unknown_targets r)%Z /\
  Z.of_nat (length (rep_target_issues r)) = (rep_denied_targets r + rep_unknown_targets r)%Z.
Proof.
  cbv zeta. cbn. unfold count_issues. rewrite !filter_issues, issues_length by done.
  induction (pi_targets i) as [|t l IH]; cbn [length List.filter]; [done|].
  destruct (effectiveCapability t); repeat (case_bool_decide; try done); cbn [negb length]; lia.
Qed.

(** The conditions of a run that may start *)
Definition admissible (i : input) : Prop :=
  text_valid (pi_text i) = true /\ pi_targets i <> [] /\ sessionReady (pi_session i) = true /\
  (pi_executionMode i = Mode.LIVE ->
     pi_liveSendsEnabled i = true /\ Forall current_target (pi_targets i)).

(** The preflight decides exactly the stated policy.  It blocks a run exactly
    when the text is blank or longer than 4096, there is no target, the session is
    not ready, or the run is LIVE while live sends are off or some target is not
    currently ALLOWED; it passes without a warning exactly when, besides, every
    target is currently ALLOWED; so a LIVE run is never started on a warning. *)
Theorem preflight_decides i :
  let s := rep_status (evaluateCampaignPreflight i) in
  (s <> BLOCK <-> admissible i) /\
  (s = PASS <-> admissible i /\ Forall current_target (pi_targets i)) /\
  (pi_executionMode i = Mode.LIVE -> s <> WARN).
Proof.
  cbv zeta. cbn. rewrite <- targetIssues_nil. unfold admissible, overall.
  rewrite <- targetIssues_nil. cbn.
  assert (Ht : pi_targets i <> [] <-> Nat.eqb (length (pi_targets i)) 0 = false)
    by (by destruct (pi_targets i)).
  assert (Hi : targetIssues (pi_targets i) = [] <->
               Nat.eqb (length (targetIssues (pi_targets i))) 0 = true)
    by (by destruct (targetIssues (pi_targets i))).
  rewrite Ht, Hi. unfold has_status. cbn. clear Ht Hi.
  destruct (text_valid _), (Nat.eqb (length (pi_targets i)) 0), (sessionReady _),
    (Nat.eqb (length (targetIssues _)) 0), (pi_executionMode i), (pi_liveSendsEnabled i);
    vm_compute; intuition congruence.
Qed.

End CampaignPreflight.
