(* ===== verification/Campaigns.v ===== *)
(** * Saved group lists and campaign definitions

    [src/modules/group-lists/group-list.repository.ts] and
    [src/modules/campaigns/campaign.repository.ts]: the editable aggregates.  Each
    carries revisions that its writes compare and advance; a campaign's targets are
    replaced as a whole, by hand or from one saved list. *)

From S2P Require Import Prelude Schema CampaignPreflight.

(** ** Validation shared by the two repositories *)

Module Membership.

(** [found.get(id)]: absent, or whether some group with the id is of the session *)
Definition found (session : string) (d : db) (id : string) : option bool :=
  let rows := select_where (fun k _ => bool_decide (k.2 = id)) (gateway_groups d) in
  match rows with
  | [] => None
  | _ => Some (existsb (fun kv => bool_decide (kv.1.1 = session)) rows)
  end.

Definition missingGroupIds (session : string) (ids : list string) (d : db) : list string :=
  List.filter (fun id => is_null (found session d id)) ids.

Definition mismatchedGroupIds (session : string) (ids : list string) (d : db) : list string :=
  List.filter (fun id => bool_decide (found session d id = Some false)) ids.

Definition invalid (session : string) (ids : list string) (d : db) : bool :=
  negb (is_null (head (missingGroupIds session ids d)))
  || negb (is_null (head (mismatchedGroupIds session ids d))).

(** ORDER BY group_id, and [ids.sort()] *)
Definition sort_ids (ids : list string) : list string := order_by text_leb ids.

(** The group ids of the rows (owner, group) of a membership table *)
Definition members {V : Type} (owner : uuid) (t : gmap (uuid * string) V) : list string :=
  sort_ids (map (fun kv => kv.1.2) (select_where (fun k _ => bool_decide (k.1 = owner)) t)).

(** DELETE the rows of the owner, then INSERT one row for each id.  The services
    refuse duplicate ids, on which the INSERT would fail. *)
Definition replace_members {V : Type} (owner : uuid) (row : V) (ids : list string)
    (t : gmap (uuid * string) V) : gmap (uuid * string) V :=
  foldr (fun id t => <[(owner, id) := row]> t)
    (delete_where (fun k _ => bool_decide (k.1 = owner)) t) ids.

(** *** A replaced membership is exactly the given one *)

Lemma lookup_replace {V : Type} (owner : uuid) (row : V) (ids : list string)
    (t : gmap (uuid * string) V) (k : uuid * string) :
  replace_members owner row ids t !! k =
    if bool_decide (k.1 = owner)
    then if mem k.2 ids then Some row else None
    else t !! k.
Proof.
  unfold replace_members. induction ids as [|id ids IH]; cbn [foldr].
  - rewrite lookup_delete_where. cbn. destruct (t !! k); by repeat case_bool_decide.
  - destruct (decide (k = (owner, id))) as [->|Hne].
    + rewrite lookup_insert_eq. cbn. rewrite bool_decide_true by done. unfold mem. cbn.
      by rewrite bool_decide_true.
    + rewrite lookup_insert_ne by done. rewrite IH. case_bool_decide as Hk; [|done].
      unfold mem. cbn. rewrite (bool_decide_false (k.2 = id)); [done|]. intros Heq.
      apply Hne. destruct k. cbn in *. congruence.
Qed.

Lemma member_keys_NoDup {V : Type} (owner : uuid) (t : gmap (uuid * string) V) :
  NoDup (map (fun kv => kv.1.2) (select_where (fun k _ => bool_decide (k.1 = owner)) t)).
Proof.
  pose proof (select_where_NoDup (fun k (_ : V) => bool_decide (k.1 = owner)) t) as Hk.
  assert (Hall : Forall (fun kv : (uuid * string) * V => kv.1.1 = owner)
    (select_where (fun k _ => bool_decide (k.1 = owner)) t)).
  { apply Forall_forall. intros [k v] [_ HP]%select_where_elem. by apply bool_decide_eq_true in HP. }
  revert Hall Hk. generalize (select_where (fun k (_ : V) => bool_decide (k.1 = owner)) t).
  intros l. induction l as [|[[o g] v] l IH]; intros Hall Hk; cbn; [constructor|].
  apply Forall_cons in Hall as [Ho Hall]. cbn in *. apply NoDup_cons in Hk as [Hn Hk].
  constructor; [|by apply IH]. intros Hin. apply Hn.
  apply list_elem_of_fmap in Hin as ([[o' g'] v'] & Hg & Hin).
  apply list_elem_of_fmap. exists ((o', g'), v'). split; [|done].
  rewrite Forall_forall in Hall. specialize (Hall _ Hin). cbn in *. by subst.
Qed.

Lemma members_NoDup {V : Type} (owner : uuid) (t : gmap (uuid * string) V) : NoDup (members owner t).
Proof. unfold members, sort_ids. rewrite order_by_Permutation. apply member_keys_NoDup. Qed.

Lemma members_perm {V : Type} (owner : uuid) (t : gmap (uuid * string) V) ids : NoDup ids ->
  (forall g, is_Some (t !! (owner, g)) <-> g ∈ ids) -> members owner t = sort_ids ids.
Proof.
  intros Hnd Hspec. unfold members, sort_ids. apply text_sort_unique.
  apply NoDup_Permutation; [apply member_keys_NoDup|done|]. intros g. rewrite <- Hspec. split.
  - intros ([[o g'] v] & -> & [Hv HP]%select_where_elem)%list_elem_of_fmap.
    cbn in *. apply bool_decide_eq_true in HP. cbn in HP. subst. by exists v.
  - intros [v Hv]. apply list_elem_of_fmap. exists ((owner, g), v). split; [done|].
    apply select_where_elem. by rewrite bool_decide_true.
Qed.

Lemma members_replace {V : Type} (owner : uuid) (row : V) (ids : list string)
    (t : gmap (uuid * string) V) : NoDup ids ->
  members owner (replace_members owner row ids t) = sort_ids ids.
Proof.
  intros Hnd. apply members_perm; [done|]. intros g. rewrite lookup_replace. cbn.
  rewrite bool_decide_true by done. destruct (mem g ids) eqn:E.
  - apply mem_true in E. split; eauto.
  - apply mem_false in E. split; [by intros [? ?]|done].
Qed.

Lemma sort_ids_elem ids g : g ∈ sort_ids ids <-> g ∈ ids.
Proof. apply order_by_elem. Qed.

Lemma sort_ids_NoDup ids : NoDup ids -> NoDup (sort_ids ids).
Proof. unfold sort_ids. by rewrite order_by_Permutation. Qed.

Lemma sort_ids_idem ids : sort_ids (sort_ids ids) = sort_ids ids.
Proof. apply text_sort_unique. unfold sort_ids at 1. apply order_by_Permutation. Qed.

Lemma members_sorted {V : Type} (owner : uuid) (t : gmap (uuid * string) V) :
  sort_ids (members owner t) = members owner t.
Proof. unfold members. apply sort_ids_idem. Qed.

(** [invalid] is false exactly when every id names a group of the session. *)
Lemma found_true session d g : found session d g = Some true <-> is_Some (gateway_groups d !! (session, g)).
Proof.
  unfold found. set (rows := select_where _ _).
  assert (Hrow : forall s grp, ((s, g), grp) ∈ rows <-> gateway_groups d !! (s, g) = Some grp).
  { intros s grp. unfold rows. rewrite select_where_elem. cbn. rewrite bool_decide_true by done. by intuition. }
  assert (Hex : existsb (fun kv : string * string * gateway_group => bool_decide (kv.1.1 = session)) rows = true
                <-> is_Some (gateway_groups d !! (session, g))).
  { rewrite existsb_exists. split.
    - intros ([[s g'] grp] & Hin & E). apply list_elem_of_In in Hin. cbn in E. apply bool_decide_eq_true in E. subst s.
      pose proof Hin as Hin'. unfold rows in Hin'. apply select_where_elem in Hin' as [_ HP]. cbn in HP.
      apply bool_decide_eq_true in HP. subst g'. exists grp. by apply Hrow.
    - intros [grp Hg]. exists ((session, g), grp). split; [|by apply bool_decide_eq_true].
      apply list_elem_of_In. by apply Hrow. }
  destruct rows as [|x l] eqn:E.
  - rewrite <- Hex. done.
  - rewrite <- Hex. split; [intros [= Hb]; exact Hb|intros Hb; by f_equal].
Qed.

Lemma invalid_false session ids d : invalid session ids d = false <->
  forall g, g ∈ ids -> is_Some (gateway_groups d !! (session, g)).
Proof.
  assert (Hnil : forall l : list string, is_null (head l) = true <-> forall g, g ∉ l).
  { intros [|x l]; cbn; split; try done.
    - by intros _ g ?%elem_of_nil.
    - intros H. destruct (H x). left. }
  unfold invalid. rewrite orb_false_iff, !negb_false_iff, !Hnil. unfold missingGroupIds, mismatchedGroupIds.
  split.
  - intros [H1 H2] g Hg. apply found_true. specialize (H1 g). specialize (H2 g).
    rewrite list_elem_of_In, filter_In, <- list_elem_of_In in H1, H2.
    destruct (found session d g) as [[]|]; [done| |].
    + destruct H2. split; [done|by apply bool_decide_eq_true].
    + by destruct H1.
  - intros H. split; intros g; rewrite list_elem_of_In, filter_In, <- list_elem_of_In; intros [Hg E];
      apply H, found_true in Hg; rewrite Hg in E; done.
Qed.

End Membership.

(** ** [GroupListRepository] *)

Module GroupListRepo.
Import Membership.

Record create_input := CreateInput {
  gi_sessionId : string; gi_name : string; gi_description : option string;
  gi_groupIds : list string; gi_idempotencyKey : uuid; gi_requestHash : string }.

Inductive create_answer : Type :=
  | Replayed (id : uuid) (l : group_list) (requestHash : option string)
  | SessionNotFound
  | InvalidGroups (missing mismatched : list string)
  | Created (id : uuid) (l : group_list) (groupCount : nat)
  (** violation of the unique index on (session_id, lower(name)) of active lists *)
  | NameConflict.

Section Names.
(** PostgreSQL's [lower] *)
Variable lower : string -> string.

Definition by_key (key : uuid) (_ : uuid) (l : group_list) : bool :=
  bool_decide (gl_create_idempotency_key l = Some key).

Definition same_name (self : option uuid) (session name : string) (id : uuid) (l : group_list) : bool :=
  negb (bool_decide (Some id = self)) && is_null (gl_archived_at l)
  && bool_decide (gl_session_id l = session) && bool_decide (lower (gl_name l) = lower name).

Definition new_list (now : timestamp) (i : create_input) : group_list :=
  GroupList (gi_sessionId i) (gi_name i) (gi_description i) 1 1 (Some (gi_idempotencyKey i))
    (Some (gi_requestHash i)) None now now.

Definition create (now : timestamp) (new_id : uuid) (i : create_input) (d : db) : create_answer * db :=
  match find_where (by_key (gi_idempotencyKey i)) (group_lists d) with
  | Some (id, l) => (Replayed id l (gl_create_request_hash l), d)
  | None =>
      if is_null (gateway_sessions d !! gi_sessionId i) then (SessionNotFound, d)
      else if invalid (gi_sessionId i) (gi_groupIds i) d
      then (InvalidGroups (missingGroupIds (gi_sessionId i) (gi_groupIds i) d)
              (mismatchedGroupIds (gi_sessionId i) (gi_groupIds i) d), d)
      else if exists_where (same_name None (gi_sessionId i) (gi_name i)) (group_lists d)
      then (NameConflict, d)
      else
        let l := new_list now i in
        (Created new_id l (length (gi_groupIds i)),
         d <| group_lists := <[new_id := l]> (group_lists d) |>
           <| group_list_items := foldr (fun g t => <[(new_id, g) := gi_sessionId i]> t)
                (group_list_items d) (gi_groupIds i) |>)
  end.

Inductive update_answer : Type := Updated (l : group_list) | NotUpdated | UpdateNameConflict.

Definition update (now : timestamp) (id : uuid) (name : string) (description : option string)
    (expectedRevision : Z) (d : db) : update_answer * db :=
  match group_lists d !! id with
  | Some l =>
      if is_null (gl_archived_at l) && (gl_revision l =? expectedRevision)%Z then
        if exists_where (same_name (Some id) (gl_session_id l) name) (group_lists d)
        then (UpdateNameConflict, d)
        else
          let changed := negb (bool_decide (gl_name l = name)
                               && bool_decide (gl_description l = description)) in
          let l' := l <| gl_name := name |> <| gl_description := description |>
            <| gl_revision := if changed then (gl_revision l + 1)%Z else gl_revision l |>
            <| gl_updated_at := if changed then now else gl_updated_at l |> in
          (Updated l', d <| group_lists := <[id := l']> (group_lists d) |>)
      else (NotUpdated, d)
  | None => (NotUpdated, d)
  end.

Definition archive (now : timestamp) (id : uuid) (expectedRevision : Z) (d : db)
    : option group_list * db :=
  let '(row, lists) := update_row id
    (fun l => is_null (gl_archived_at l) && (gl_revision l =? expectedRevision)%Z)
    (fun l => l <| gl_archived_at := Some now |> <| gl_revision := (gl_revision l + 1)%Z |>
                <| gl_updated_at := now |>)
    (group_lists d) in
  (row, d <| group_lists := lists |>).

Inductive replace_answer : Type :=
  | ListNotFound
  | ListRevisionConflict
  | ListInvalidGroups (missing mismatched : list string)
  | Replaced (l : group_list) (groups : list (string * gateway_group)).

(** [listGroupsWithClient]: the members joined with their groups, ORDER BY
    lower(g.name), g.id *)
Definition by_lower_name (a b : string * gateway_group) : bool :=
  if bool_decide (lower (gg_name a.2) = lower (gg_name b.2)) then text_leb a.1 b.1
  else text_leb (lower (gg_name a.2)) (lower (gg_name b.2)).

Definition listGroups (id : uuid) (d : db) : list (string * gateway_group) :=
  order_by by_lower_name (omap (fun kv : (uuid * string) * string =>
    if bool_decide (kv.1.1 = id)
    then (fun g => (kv.1.2, g)) <$> gateway_groups d !! (kv.2, kv.1.2)
    else None) (map_to_list (group_list_items d))).

Definition bump_membership (now : timestamp) (l : group_list) : group_list :=
  l <| gl_revision := (gl_revision l + 1)%Z |>
    <| gl_membership_revision := (gl_membership_revision l + 1)%Z |> <| gl_updated_at := now |>.

Definition replaceGroups (now : timestamp) (id : uuid) (groupIds : list string)
    (expectedRevision : Z) (expectedMembershipRevision : option Z) (d : db) : replace_answer * db :=
  match group_lists d !! id with
  | None => (ListNotFound, d)
  | Some l =>
      if negb (is_null (gl_archived_at l)) then (ListNotFound, d)
      else if negb (gl_revision l =? expectedRevision)%Z
           || match expectedMembershipRevision with
              | Some e => negb (gl_membership_revision l =? e)%Z
              | None => false
              end
      then (ListRevisionConflict, d)
      else if invalid (gl_session_id l) groupIds d
      then (ListInvalidGroups (missingGroupIds (gl_session_id l) groupIds d)
              (mismatchedGroupIds (gl_session_id l) groupIds d), d)
      else
        let current := members id (group_list_items d) in
        let next := sort_ids groupIds in
        if bool_decide (current = next) then (Replaced l (listGroups id d), d)
        else
          let l' := bump_membership now l in
          let d' := d
            <| group_list_items := replace_members id (gl_session_id l) next (group_list_items d) |>
            <| group_lists := <[id := l']> (group_lists d) |> in
          (Replaced l' (listGroups id d'), d')
  end.
End Names.

Record snapshot := Snapshot_ {
  sn_id : uuid; sn_name : string; sn_sessionId : string; sn_revision : Z;
  sn_membershipRevision : Z; sn_groupIds : list string }.

Definition lockMembershipSnapshot (id : uuid) (d : db) : option snapshot :=
  match group_lists d !! id with
  | Some l =>
      if is_null (gl_archived_at l)
      then Some (Snapshot_ id (gl_name l) (gl_session_id l) (gl_revision l)
                   (gl_membership_revision l) (members id (group_list_items d)))
      else None
  | None => None
  end.

End GroupListRepo.

(** ** [CampaignRepository] *)

Module CampaignRepo.
Import Membership CampaignPreflight.

Record create_input := CreateInput {
  cc_sessionId : string; cc_name : string; cc_text : string;
  cc_scheduleType : ScheduleType.t; cc_scheduledAt : option timestamp;
  cc_idempotencyKey : uuid; cc_requestHash : string }.

Record create_answer := CreateAnswer {
  ca_id : uuid; ca_campaign : campaign; ca_created : bool;
  ca_requestHash : option string; ca_deleted : bool }.

Definition by_key (key : uuid) (_ : uuid) (c : campaign) : bool :=
  bool_decide (c_create_idempotency_key c = Some key).

Definition new_campaign (now : timestamp) (i : create_input) : campaign :=
  Campaign (cc_sessionId i) (cc_name i) (cc_text i) (cc_scheduleType i) (cc_scheduledAt i)
    CampaignStatus.DRAFT 1 0 None (Some (cc_idempotencyKey i)) (Some (cc_requestHash i)) None now now.

Definition create (now : timestamp) (new_id : uuid) (i : create_input) (d : db) : create_answer * db :=
  match find_where (by_key (cc_idempotencyKey i)) (campaigns d) with
  | Some (id, c) =>
      (CreateAnswer id c false (c_create_request_hash c) (negb (is_null (c_deleted_at c))), d)
  | None =>
      let c := new_campaign now i in
      (CreateAnswer new_id c true (Some (cc_requestHash i)) false,
       d <| campaigns := <[new_id := c]> (campaigns d) |>)
  end.

Definition find (id : uuid) (includeDeleted : bool) (d : db) : option campaign :=
  match campaigns d !! id with
  | Some c => if includeDeleted || is_null (c_deleted_at c) then Some c else None
  | None => None
  end.

(** The content a PATCH writes *)
Record content := Content {
  co_name : string; co_text : string; co_scheduleType : ScheduleType.t;
  co_scheduledAt : option timestamp }.

Definition content_of (c : campaign) : content :=
  Content (c_name c) (c_text c) (c_schedule_type c) (c_scheduled_at c).

#[export] Instance content_eq_dec : EqDecision content.
Proof. solve_decision. Defined.

Definition set_content (now : timestamp) (i : content) (c : campaign) : campaign :=
  let changed := negb (bool_decide (content_of c = i)) in
  c <| c_name := co_name i |> <| c_text := co_text i |>
    <| c_schedule_type := co_scheduleType i |> <| c_scheduled_at := co_scheduledAt i |>
    <| c_revision := if changed then (c_revision c + 1)%Z else c_revision c |>
    <| c_updated_at := if changed then now else c_updated_at c |>.

Definition update (now : timestamp) (id : uuid) (i : content) (expectedRevision : Z) (d : db)
    : option campaign * db :=
  let '(row, cs) := update_row id
    (fun c => is_null (c_deleted_at c) && bool_decide (c_status c = CampaignStatus.DRAFT)
              && (c_revision c =? expectedRevision)%Z)
    (set_content now i) (campaigns d) in
  (row, d <| campaigns := cs |>).

Inductive targets_answer : Type :=
  | CampaignNotFound
  | NotEditable
  | TargetsRevisionConflict (current : Z)
  | InvalidTargets (missing mismatched : list string)
  | SourceNotFound
  | SourceSessionMismatch (session : string)
  | SourceRevisionConflict (current : Z)
  | TargetsApplied (targets : list target) (targetsRevision : Z) (source : option target_source).

(** [mapTarget] *)
Definition mapTarget (group : string) (ct : campaign_target) (g : gateway_group) : target :=
  Target group (gg_name g) (ct_enabled ct) (gg_send_capability g) (gg_send_capability_reason g)
    (gg_capability_checked_at g) (gg_capability_invalidated_at g) (gg_capability_revision g).

(** The campaign's targets joined with their groups, ORDER BY g.name, g.id *)
Definition listTargets (id : uuid) (d : db) : list target :=
  order_by by_group_name (omap (fun kv : (uuid * string) * campaign_target =>
    let '((cid, group), ct) := kv in
    if bool_decide (cid = id) then mapTarget group ct <$> gateway_groups d !! (ct_session_id ct, group)
    else None) (map_to_list (campaign_targets d))).

Definition editable (c : campaign) : bool := bool_decide (c_status c = CampaignStatus.DRAFT).

(** UPDATE campaigns SET targets_revision = targets_revision + 1, target_source = .. *)
Definition bump_targets (now : timestamp) (source : option target_source) (c : campaign) : campaign :=
  c <| c_targets_revision := (c_targets_revision c + 1)%Z |> <| c_target_source := source |>
    <| c_updated_at := now |>.

(** The writes of both replacements: the rows if the membership changed, then the campaign *)
Definition write_targets (now : timestamp) (id : uuid) (c : campaign) (next : list string)
    (source : option target_source) (d : db) : db :=
  let rows := if bool_decide (members id (campaign_targets d) = next) then campaign_targets d
    else replace_members id (CampaignTarget (c_session_id c) true) next (campaign_targets d) in
  d <| campaign_targets := rows |>
    <| campaigns := <[id := bump_targets now source c]> (campaigns d) |>.

Definition replaceTargets (now : timestamp) (id : uuid) (groupIds : list string)
    (expectedTargetsRevision : Z) (d : db) : targets_answer * db :=
  match find id false d with
  | None => (CampaignNotFound, d)
  | Some c =>
      if negb (editable c) then (NotEditable, d)
      else if negb (c_targets_revision c =? expectedTargetsRevision)%Z
      then (TargetsRevisionConflict (c_targets_revision c), d)
      else if invalid (c_session_id c) groupIds d
      then (InvalidTargets (missingGroupIds (c_session_id c) groupIds d)
              (mismatchedGroupIds (c_session_id c) groupIds d), d)
      else
        let next := sort_ids groupIds in
        let membershipChanged := negb (bool_decide (members id (campaign_targets d) = next)) in
        if membershipChanged || negb (is_null (c_target_source c))
        then
          let d' := write_targets now id c next None d in
          (TargetsApplied (listTargets id d') (c_targets_revision c + 1) None, d')
        else (TargetsApplied (listTargets id d) (c_targets_revision c) None, d)
  end.

Definition same_source (s : GroupListRepo.snapshot) (source : option target_source) : bool :=
  match source with
  | Some t => bool_decide (ts_group_list_id t = GroupListRepo.sn_id s)
              && (ts_membership_revision t =? GroupListRepo.sn_membershipRevision s)%Z
  | None => false
  end.

Definition source_of (now : timestamp) (s : GroupListRepo.snapshot) : target_source :=
  TargetSource (GroupListRepo.sn_id s) (GroupListRepo.sn_name s)
    (GroupListRepo.sn_membershipRevision s) now.

Definition applyGroupListTargets (now : timestamp) (id groupListId : uuid)
    (expectedTargetsRevision : Z) (expectedMembershipRevision : option Z) (d : db)
    : targets_answer * db :=
  match find id false d with
  | None => (CampaignNotFound, d)
  | Some c =>
      if negb (editable c) then (NotEditable, d)
      else if negb (c_targets_revision c =? expectedTargetsRevision)%Z
      then (TargetsRevisionConflict (c_targets_revision c), d)
      else match GroupListRepo.lockMembershipSnapshot groupListId d with
      | None => (SourceNotFound, d)
      | Some s =>
          if negb (bool_decide (GroupListRepo.sn_sessionId s = c_session_id c))
          then (SourceSessionMismatch (GroupListRepo.sn_sessionId s), d)
          else if match expectedMembershipRevision with
                  | Some e => negb (GroupListRepo.sn_membershipRevision s =? e)%Z
                  | None => false
                  end
          then (SourceRevisionConflict (GroupListRepo.sn_membershipRevision s), d)
          else
            let next := GroupListRepo.sn_groupIds s in
            let membershipChanged := negb (bool_decide (members id (campaign_targets d) = next)) in
            if membershipChanged || negb (same_source s (c_target_source c))
            then
              let d' := write_targets now id c next (Some (source_of now s)) d in
              (TargetsApplied (listTargets id d') (c_targets_revision c + 1) (Some (source_of now s)), d')
            else (TargetsApplied (listTargets id d) (c_targets_revision c)
                    ((fun t => source_of (ts_applied_at t) s) <$> c_target_source c), d)
      end
  end.

Inductive delete_answer : Type :=
  | NotFound
  | AlreadyDeleted
  | DeleteRevisionConflict
  | DeleteStateConflict
  | DeleteRunConflict
  | Deleted.

Definition active_run (id : uuid) (_ : uuid) (r : campaign_run) : bool :=
  bool_decide (cr_campaign_id r = id)
  && mem (cr_status r) [RunStatus.PREPARING; RunStatus.BLOCKED; RunStatus.SCHEDULED;
                        RunStatus.RUNNING; RunStatus.PAUSED].

Definition delete (now : timestamp) (id : uuid) (allowedSessionIds : list string)
    (expectedRevision expectedTargetsRevision : Z) (d : db) : delete_answer * db :=
  match campaigns d !! id with
  | None => (NotFound, d)
  | Some c =>
      if negb (mem (c_session_id c) allowedSessionIds) then (NotFound, d)
      else if negb (is_null (c_deleted_at c)) then (AlreadyDeleted, d)
      else if negb (c_revision c =? expectedRevision)%Z
           || negb (c_targets_revision c =? expectedTargetsRevision)%Z
      then (DeleteRevisionConflict, d)
      else if negb (mem (c_status c) [CampaignStatus.DRAFT; CampaignStatus.ARCHIVED])
      then (DeleteStateConflict, d)
      else if exists_where (active_run id) (campaign_runs d) then (DeleteRunConflict, d)
      else (Deleted, d <| campaigns := <[id := c <| c_deleted_at := Some now |>
              <| c_revision := (c_revision c + 1)%Z |> <| c_updated_at := now |>]> (campaigns d) |>)
  end.

End CampaignRepo.

(** ** What the edits guarantee *)

Module Edits.
Import Membership CampaignRepo.

(** A campaign a PATCH with the expected revision may write *)
Definition patchable (rev : Z) (c : campaign) : Prop :=
  c_deleted_at c = None /\ c_status c = CampaignStatus.DRAFT /\ c_revision c = rev.

Lemma patchable_true rev c :
  is_null (c_deleted_at c) && bool_decide (c_status c = CampaignStatus.DRAFT)
    && (c_revision c =? rev)%Z = true <-> patchable rev c.
Proof.
  unfold patchable. rewrite !andb_true_iff, bool_decide_eq_true, Z.eqb_eq.
  destruct (c_deleted_at c); cbn; intuition congruence.
Qed.

Lemma update_success now id i rev d c : campaigns d !! id = Some c -> patchable rev c ->
  CampaignRepo.update now id i rev d =
    (Some (set_content now i c), d <| campaigns := <[id := set_content now i c]> (campaigns d) |>).
Proof.
  intros Hc Hp. unfold CampaignRepo.update, update_row. rewrite Hc.
  by rewrite (proj2 (patchable_true rev c) Hp).
Qed.

Lemma update_failure now id i rev d : (forall c, campaigns d !! id = Some c -> ~ patchable rev c) ->
  CampaignRepo.update now id i rev d = (None, d).
Proof.
  intros Hn. unfold CampaignRepo.update, update_row. destruct (campaigns d !! id) as [c|] eqn:Hc.
  - destruct (_ && _) eqn:E; [|by destruct d]. apply patchable_true in E. by destruct (Hn c).
  - by destruct d.
Qed.

(** No edit of a campaign is lost.  A PATCH writes its content exactly when the
    campaign is an undeleted draft at the expected revision; it advances the revision
    exactly when the content differs, and changes nothing else but the update time;
    otherwise it changes nothing.  After a PATCH that changed the content, every
    PATCH that expects the same revision is refused. *)
Theorem update_compare_and_swap now id i rev d :
  let '(res, d') := CampaignRepo.update now id i rev d in
  match res with
  | Some c' => exists c, campaigns d !! id = Some c /\ patchable rev c /\
      content_of c' = i /\
      c_revision c' = (if bool_decide (content_of c = i) then rev else rev + 1)%Z /\
      c_targets_revision c' = c_targets_revision c /\ c_target_source c' = c_target_source c /\
      c_status c' = c_status c /\ c_session_id c' = c_session_id c /\
      d' = d <| campaigns := <[id := c']> (campaigns d) |> /\
      (content_of c <> i -> forall now' i', CampaignRepo.update now' id i' rev d' = (None, d'))
  | None => d' = d /\ forall c, campaigns d !! id = Some c -> ~ patchable rev c
  end.
Proof.
  destruct (campaigns d !! id) as [c|] eqn:Hc.
  2:{ rewrite update_failure by congruence. split; [done|congruence]. }
  destruct (is_null (c_deleted_at c) && bool_decide (c_status c = CampaignStatus.DRAFT)
            && (c_revision c =? rev)%Z) eqn:E.
  - apply patchable_true in E. rewrite (update_success _ _ _ _ _ _ Hc E). exists c.
    destruct E as (E1 & E2 & E3). split_and!; try done.
    + by destruct i.
    + unfold set_content. cbn. rewrite E3. by destruct (bool_decide _).
    + intros Hne now' i'. apply update_failure. cbn. intros c'. rewrite lookup_insert_eq. intros [= <-].
      intros (_ & _ & E4). unfold set_content in E4. cbn in E4.
      rewrite bool_decide_false in E4 by done. cbn in E4. lia.
  - rewrite update_failure.
    + split; [done|]. intros q [= <-] Hp. apply patchable_true in Hp. by rewrite Hp in E.
    + intros q Hq Hp. rewrite Hc in Hq. injection Hq as <-. apply patchable_true in Hp. by rewrite Hp in E.
Qed.

Lemma find_Some id d c : find id false d = Some c <-> campaigns d !! id = Some c /\ c_deleted_at c = None.
Proof.
  unfold find. destruct (campaigns d !! id) as [q|]; [|by split; [|intros [? _]]]. cbn.
  destruct (c_deleted_at q) eqn:E; cbn; split; try done; [intros [[= ->] ?]; congruence|intros [= ->]; done|by intros [[= ->] _]].
Qed.

(** The membership of a campaign after [write_targets] *)
Lemma write_targets_members now id c ids source d : NoDup ids ->
  members id (campaign_targets (write_targets now id c (sort_ids ids) source d)) = sort_ids ids.
Proof.
  intros Hnd. unfold write_targets. cbn. case_bool_decide; [done|].
  rewrite members_replace by (by apply sort_ids_NoDup). apply sort_ids_idem.
Qed.

Lemma write_targets_others now id c next source d k : k.1 <> id ->
  campaign_targets (write_targets now id c next source d) !! k = campaign_targets d !! k.
Proof.
  intros Hk. unfold write_targets. cbn. case_bool_decide; [done|].
  by rewrite lookup_replace, bool_decide_false.
Qed.

(** A replacement that was applied: what was true before, and what it left *)
Record replaced (now : timestamp) (id : uuid) (rev : Z) (next : list string)
    (source : option target_source) (moved : bool) (d d' : db) (c : campaign) : Prop := Replaced {
  rp_draft : campaigns d !! id = Some c /\ c_deleted_at c = None /\ c_status c = CampaignStatus.DRAFT;
  rp_revision : c_targets_revision c = rev;
  rp_members : members id (campaign_targets d') = next;
  rp_others k : k.1 <> id -> campaign_targets d' !! k = campaign_targets d !! k;
  rp_row : campaigns d' !! id = Some (if moved then bump_targets now source c else c);
  rp_moved : moved = false -> d' = d }.

(** The targets of a draft are replaced as a whole.  When [replaceTargets] is
    given distinct groups and applies them, the campaign is an undeleted draft at the
    expected targets revision, every group belongs to its session, and afterwards
    the campaign's targets are exactly those groups and no other campaign's targets
    changed; the revision advances exactly when the membership changed or came from
    a saved list, which it then no longer names; and whenever it is refused it
    changes nothing. *)
Theorem targets_replaced_exactly now id ids rev d (Hnd : NoDup ids) :
  let '(res, d') := replaceTargets now id ids rev d in
  match res with
  | TargetsApplied l rev' source =>
      exists c moved, replaced now id rev (sort_ids ids) None moved d d' c /\
        (forall g, g ∈ ids -> is_Some (gateway_groups d !! (c_session_id c, g))) /\
        (moved = true <-> members id (campaign_targets d) <> sort_ids ids \/ is_Some (c_target_source c)) /\
        rev' = (if moved then rev + 1 else rev)%Z /\ source = None /\ l = listTargets id d'
  | _ => d' = d
  end.
Proof.
  unfold replaceTargets. destruct (find id false d) as [c|] eqn:Hf; [|done].
  apply find_Some in Hf as [Hc Hdel].
  destruct (editable c) eqn:He; cbn [negb]; [|done]. apply bool_decide_eq_true in He.
  destruct (c_targets_revision c =? rev)%Z eqn:Hrev; cbn [negb]; [|done]. apply Z.eqb_eq in Hrev.
  destruct (invalid _ _ _) eqn:Hinv; [done|]. pose proof (proj1 (invalid_false _ _ _) Hinv) as Hgroups. cbv zeta.
  destruct (negb (bool_decide _) || _) eqn:Hm.
  - exists c, true. split_and!; try done; [split; try done| |by rewrite Hrev].
    + by apply write_targets_members.
    + intros k. apply write_targets_others.
    + apply lookup_insert_eq.
    + split; [intros _|done]. apply orb_true_iff in Hm as [Hm|Hm]; split_bool; [by left|right].
      by destruct (c_target_source c).
  - apply orb_false_iff in Hm as [Hm1 Hm2]. apply negb_false_iff, bool_decide_eq_true in Hm1.
    apply negb_false_iff in Hm2.
    exists c, false. split_and!; try done.
    split; [done|]. intros [?|Hs]; [done|]. destruct (c_target_source c); [done|by destruct Hs].
Qed.

(** What the snapshot of a saved list says *)
Definition list_state (listId : uuid) (d : db) (l : group_list) : Prop :=
  group_lists d !! listId = Some l /\ gl_archived_at l = None.

Lemma lock_Some listId d s : GroupListRepo.lockMembershipSnapshot listId d = Some s ->
  exists l, list_state listId d l /\
    s = GroupListRepo.Snapshot_ listId (gl_name l) (gl_session_id l) (gl_revision l)
          (gl_membership_revision l) (members listId (group_list_items d)).
Proof.
  unfold GroupListRepo.lockMembershipSnapshot. destruct (group_lists d !! listId) as [l|] eqn:Hl; [|done].
  destruct (gl_archived_at l) eqn:E; [done|]. intros [= <-]. by exists l.
Qed.

Lemma same_source_true s source : same_source s source = true ->
  exists t, source = Some t /\ ts_group_list_id t = GroupListRepo.sn_id s /\
    ts_membership_revision t = GroupListRepo.sn_membershipRevision s.
Proof. unfold same_source. destruct source as [t|]; [|done]. intros ?. split_bool. by exists t. Qed.

(** Applying a saved list copies it and records its version.  When
    [applyGroupListTargets] applies a list, the campaign is an undeleted draft at the
    expected targets revision, the list is not archived and of the same session, the
    campaign's targets become exactly the list's groups, and the stored provenance
    names the list and the membership revision that was copied; the targets revision
    advances exactly when the membership or the provenance changed; and whenever it
    is refused it changes nothing. *)
Theorem list_applied_exactly now id listId rev mrev d :
  let '(res, d') := applyGroupListTargets now id listId rev mrev d in
  match res with
  | TargetsApplied targets rev' source =>
      exists c l moved stored, list_state listId d l /\ gl_session_id l = c_session_id c /\
        replaced now id rev (members listId (group_list_items d)) stored moved d d' c /\
        (moved = false -> c_target_source c = stored) /\
        (exists t, stored = Some t /\ ts_group_list_id t = listId /\
           ts_membership_revision t = gl_membership_revision l) /\
        (forall e, mrev = Some e -> gl_membership_revision l = e) /\
        rev' = (if moved then rev + 1 else rev)%Z /\ targets = listTargets id d'
  | _ => d' = d
  end.
Proof.
  unfold applyGroupListTargets. destruct (find id false d) as [c|] eqn:Hf; [|done].
  apply find_Some in Hf as [Hc Hdel].
  destruct (editable c) eqn:He; cbn [negb]; [|done]. apply bool_decide_eq_true in He.
  destruct (c_targets_revision c =? rev)%Z eqn:Hrev; cbn [negb]; [|done]. apply Z.eqb_eq in Hrev.
  destruct (GroupListRepo.lockMembershipSnapshot listId d) as [s|] eqn:Hs; [|done].
  apply lock_Some in Hs as (l & Hl & ->). cbn [GroupListRepo.sn_sessionId].
  case_bool_decide as Hsess; cbn [negb]; [|done]. cbn [GroupListRepo.sn_membershipRevision GroupListRepo.sn_groupIds].
  destruct (match mrev with Some e => _ | None => _ end) eqn:Hmrev; [done|]. cbv zeta.
  assert (Hexp : forall e, mrev = Some e -> gl_membership_revision l = e).
  { intros e ->. apply negb_false_iff in Hmrev. by apply Z.eqb_eq in Hmrev. }
  set (s := GroupListRepo.Snapshot_ _ _ _ _ _ _).
  destruct (negb (bool_decide _) || _) eqn:Hm.
  - exists c, l, true, (Some (source_of now s)).
    split_and!; try done; [split; try done|by eexists|by rewrite Hrev].
    + rewrite <- (members_sorted listId). apply write_targets_members, members_NoDup.
    + intros k. apply write_targets_others.
    + apply lookup_insert_eq.
  - apply orb_false_iff in Hm as [Hm1 Hm2]. apply negb_false_iff, bool_decide_eq_true in Hm1.
    apply negb_false_iff, same_source_true in Hm2 as (t & Ht & E1 & E2).
    exists c, l, false, (Some t). split_and!; try done. by exists t.
Qed.

(** A saved list's membership revision versions its membership.  When
    [replaceGroups] is given distinct groups and applies them, the list is active and
    at the expected revisions, its members become exactly those groups, no other
    list's members change, and both revisions advance exactly when the membership
    changed; whenever it is refused it changes nothing. *)
Theorem list_membership_versioned lower now id ids rev mrev d (Hnd : NoDup ids) :
  let '(res, d') := GroupListRepo.replaceGroups lower now id ids rev mrev d in
  match res with
  | GroupListRepo.Replaced l' gs =>
      exists l, list_state id d l /\ gl_revision l = rev /\ group_lists d' !! id = Some l' /\
        gs = GroupListRepo.listGroups lower id d' /\ members id (group_list_items d') = sort_ids ids /\
        (forall k, k.1 <> id -> group_list_items d' !! k = group_list_items d !! k) /\
        let changed := negb (bool_decide (members id (group_list_items d) = sort_ids ids)) in
        gl_membership_revision l' = (if changed then gl_membership_revision l + 1 else gl_membership_revision l)%Z /\
        gl_revision l' = (if changed then rev + 1 else rev)%Z /\
        (forall g, g ∈ ids -> is_Some (gateway_groups d !! (gl_session_id l, g)))
  | _ => d' = d
  end.
Proof.
  unfold GroupListRepo.replaceGroups. destruct (group_lists d !! id) as [l|] eqn:Hl; [|done].
  destruct (gl_archived_at l) eqn:Ha; cbn [is_null negb]; [done|].
  destruct (_ || _) eqn:Hrev; [done|]. apply orb_false_iff in Hrev as [Hrev _].
  apply negb_false_iff, Z.eqb_eq in Hrev.
  destruct (invalid _ _ _) eqn:Hinv; [done|]. pose proof (proj1 (invalid_false _ _ _) Hinv) as Hgroups. cbv zeta.
  case_bool_decide as Hm; exists l.
  - by split_and!.
  - unfold GroupListRepo.bump_membership. cbn. split_and!; try done.
    + apply lookup_insert_eq.
    + rewrite members_replace by (by apply sort_ids_NoDup). apply sort_ids_idem.
    + intros k Hk. by rewrite lookup_replace, bool_decide_false.
    + by rewrite Hrev.
Qed.

(** *** Concrete edits *)

Definition group (name : string) : gateway_group :=
  GatewayGroup name None None None None true None Capability.UNKNOWN CapabilityReason.METADATA_INCOMPLETE
    None None 0 0 0 None None None.
Definition lists : db := empty_db
  <| gateway_sessions := <["s" := GatewaySession "ready" true None 0 0 0]> ∅ |>
  <| gateway_groups := <[("s", "a@g.us") := group "Alpha"]> (<[("s", "b@g.us") := group "Beta"]> ∅) |>
  <| group_lists := <[3%positive := GroupList "s" "Team" None 1 1 None None None 0 0]> ∅ |>
  <| campaigns := <[1%positive := Campaign "s" "C" "hi" ScheduleType.IMMEDIATE None CampaignStatus.DRAFT
       1 0 None None None None 0 0]> ∅ |>.
Definition same (s : string) : string := s.
Definition filled : db := (GroupListRepo.replaceGroups same 10 3 ["b@g.us"; "a@g.us"] 1 None lists).2.
Definition applied : db := (applyGroupListTargets 20 1 3 0 None filled).2.

(** Renaming a list does not change its membership revision: applying it again to the
    same campaign writes nothing, and answers with the new name while the stored
    snapshot keeps the old one. *)
Definition renamed : db := (GroupListRepo.update same 30 3 "Squad" None 2 applied).2.

Example reported_name_not_stored :
  (match (applyGroupListTargets 40 1 3 1 None renamed).1 with
   | TargetsApplied _ rev source => Some (rev, ts_group_list_name_snapshot <$> source)
   | _ => None
   end,
   ts_group_list_name_snapshot <$> ((campaigns (applyGroupListTargets 40 1 3 1 None renamed).2 !! 1%positive) ≫= c_target_source))
  = (Some (1%Z, Some "Squad"), Some "Team").
Proof. vm_compute. reflexivity. Qed.

Lemma two_groups : NoDup ["b@g.us"; "a@g.us"].
Proof. by apply (bool_decide_unpack _). Qed.

Lemma targets_replaced_exactly_witness :
  members 1 (campaign_targets (replaceTargets 20 1 ["b@g.us"; "a@g.us"] 0 lists).2) = ["a@g.us"; "b@g.us"] /\
  match (replaceTargets 20 1 ["b@g.us"; "a@g.us"] 0 lists).1 with
  | TargetsApplied _ rev' _ => exists moved : bool, rev' = (if moved then 0 + 1 else 0)%Z
  | _ => False
  end.
Proof.
  split; [by vm_compute|].
  pose proof (targets_replaced_exactly 20 1 ["b@g.us"; "a@g.us"] 0 lists two_groups) as H.
  destruct (replaceTargets 20 1 ["b@g.us"; "a@g.us"] 0 lists) as [res d'] eqn:E.
  assert (Hres : res = (replaceTargets 20 1 ["b@g.us"; "a@g.us"] 0 lists).1) by (by rewrite E).
  vm_compute in Hres. subst res. destruct H as (c & moved & _ & _ & _ & Hrev & _). by exists moved.
Defined.

Lemma list_membership_versioned_witness :
  (match (GroupListRepo.replaceGroups same 10 3 ["b@g.us"; "a@g.us"] 1 None lists).1 with
   | GroupListRepo.Replaced l' _ => Some (gl_membership_revision l') | _ => None end = Some 2%Z) /\
  exists l', group_lists filled !! 3%positive = Some l' /\
    members 3 (group_list_items filled) = sort_ids ["b@g.us"; "a@g.us"].
Proof.
  split; [by vm_compute|].
  pose proof (list_membership_versioned same 10 3 ["b@g.us"; "a@g.us"] 1 None lists two_groups) as H.
  unfold filled. destruct (GroupListRepo.replaceGroups same 10 3 ["b@g.us"; "a@g.us"] 1 None lists) as [res d'] eqn:E.
  assert (Hres : res = (GroupListRepo.replaceGroups same 10 3 ["b@g.us"; "a@g.us"] 1 None lists).1) by (by rewrite E).
  vm_compute in Hres. subst res. destruct H as (l & _ & _ & Hl & _ & Hm & _). eexists. by split.
Defined.

End Edits.
