(* ===== verification/CampaignRuns.v ===== *)
(** * Campaign runs

    [src/modules/campaigns/campaign-run.repository.ts],
    [campaign-run-lifecycle.repository.ts], [campaign-delivery.repository.ts] and
    [campaign-run.persistence.ts]: the statements of one campaign run, from its
    launch through preparation, activation, materialisation of its deliveries,
    pause, resume and cancellation to its end.  Each method is one transaction;
    [gen_random_uuid()] of the inserted rows are arguments. *)

From S2P Require Import Prelude Schema MessageJobs Groups SendPolicy CampaignPreflight.

(** ** Reads shared by the repositories *)

Module Persistence.
Import CampaignPreflight.

(** [CampaignRunProgressDto], from [delivery_counts] *)
Record progress := Progress {
  pg_total : Z; pg_pending : Z; pg_materialized : Z; pg_processing : Z; pg_dryRunCompleted : Z;
  pg_accepted : Z; pg_sent : Z; pg_delivered : Z; pg_read : Z; pg_failed : Z; pg_unknown : Z;
  pg_blocked : Z; pg_cancelled : Z }.

Definition all_statuses : list DeliveryStatus.t :=
  [DeliveryStatus.PENDING; DeliveryStatus.MATERIALIZED; DeliveryStatus.PROCESSING;
   DeliveryStatus.DRY_RUN_COMPLETED; DeliveryStatus.ACCEPTED; DeliveryStatus.SENT;
   DeliveryStatus.DELIVERED; DeliveryStatus.READ; DeliveryStatus.FAILED; DeliveryStatus.UNKNOWN;
   DeliveryStatus.BLOCKED_CAPABILITY_CHANGED; DeliveryStatus.CANCELLED].

(** SELECT status, count( * ) FROM campaign_deliveries WHERE run_id = id GROUP BY status *)
Definition delivery_counts (runId : uuid) (d : db) (s : DeliveryStatus.t) : Z :=
  count_where (fun k cd => bool_decide (k.1 = runId) && bool_decide (cd_status cd = s))
    (campaign_deliveries d).

Definition mapProgress (counts : DeliveryStatus.t -> Z) : progress :=
  Progress (foldr (fun s total => counts s + total)%Z 0%Z all_statuses)
    (counts DeliveryStatus.PENDING) (counts DeliveryStatus.MATERIALIZED)
    (counts DeliveryStatus.PROCESSING) (counts DeliveryStatus.DRY_RUN_COMPLETED)
    (counts DeliveryStatus.ACCEPTED) (counts DeliveryStatus.SENT)
    (counts DeliveryStatus.DELIVERED) (counts DeliveryStatus.READ)
    (counts DeliveryStatus.FAILED) (counts DeliveryStatus.UNKNOWN)
    (counts DeliveryStatus.BLOCKED_CAPABILITY_CHANGED) (counts DeliveryStatus.CANCELLED).

(** [CampaignRunDto]: the row with its computed fields *)
Record run_dto := RunDto {
  dto_id : uuid; dto_row : campaign_run; dto_totalTargets : Z; dto_progress : progress }.

Definition mapCampaignRun (d : db) (id : uuid) (row : campaign_run) : run_dto :=
  RunDto id row (count_where (fun k _ => bool_decide (k.1 = id)) (campaign_run_targets d))
    (mapProgress (delivery_counts id d)).

Definition select_run (id : uuid) (d : db) : option run_dto :=
  mapCampaignRun d id <$> campaign_runs d !! id.

(** [mapPreflightTarget] of a run target joined with its group *)
Definition mapPreflightTarget (group_id : string) (rt : run_target) (g : gateway_group) : target :=
  Target group_id (rt_group_name rt) true (gg_send_capability g) (gg_send_capability_reason g)
    (gg_capability_checked_at g) (gg_capability_invalidated_at g) (gg_capability_revision g).

(** [capabilitySnapshotChanged] *)
Definition snapshot_stale (runId : uuid) (d : db) (t : target) : bool :=
  match campaign_run_targets d !! (runId, tg_groupId t) with
  | Some rt =>
      match gateway_groups d !! (rt_session_id rt, tg_groupId t) with
      | Some g => negb (gg_capability_revision g =? tg_revision t)%Z
      | None => true
      end
  | None => true
  end.

Definition capabilitySnapshotChanged (runId : uuid) (observed : list target) (d : db) : bool :=
  match observed with
  | [] => false
  | _ => existsb (snapshot_stale runId d) observed
  end.

(** UPDATE campaign_run_targets FROM gateway_groups: the capability columns of the
    run's targets for which [keep] holds *)
Definition refresh_targets (runId : uuid) (keep : string -> bool) (d : db) : db :=
  d <| campaign_run_targets := map_imap (fun k rt => Some (
    if bool_decide (k.1 = runId) && keep k.2 then
      match gateway_groups d !! (rt_session_id rt, k.2) with
      | Some g => rt <| rt_capability := gg_send_capability g |>
                     <| rt_capability_reason := gg_send_capability_reason g |>
                     <| rt_capability_revision := gg_capability_revision g |>
                     <| rt_capability_checked_at := gg_capability_checked_at g |>
      | None => rt
      end
    else rt)) (campaign_run_targets d) |>.

(** INSERT INTO campaign_deliveries SELECT run_id, group_id FROM campaign_run_targets
    WHERE run_id = id ON CONFLICT DO NOTHING; [new_ids] are the drawn ids. *)
Definition insert_deliveries (now : timestamp) (new_ids : string -> uuid) (runId : uuid) (d : db) : db :=
  d <| campaign_deliveries := campaign_deliveries d ∪
    map_imap (fun k _ => if bool_decide (k.1 = runId)
      then Some (Delivery (new_ids k.2) None DeliveryStatus.PENDING None now now)
      else None) (campaign_run_targets d) |>.

(** UPDATE campaigns SET status WHERE id AND status IN from *)
Definition set_campaign_status (now : timestamp) (id : uuid) (from : list CampaignStatus.t)
    (to : CampaignStatus.t) (d : db) : db :=
  d <| campaigns := (update_row id (fun c => mem (c_status c) from)
    (fun c => c <| c_status := to |> <| c_updated_at := now |>) (campaigns d)).2 |>.

(** UPDATE campaigns SET status = 'ARCHIVED' WHERE id = ANY(ids) AND status IN (..) *)
Definition archive_campaigns (now : timestamp) (ids : list uuid) (d : db) : db :=
  d <| campaigns := update_where
    (fun id c => mem id ids && mem (c_status c) [CampaignStatus.ACTIVE; CampaignStatus.PAUSED])
    (fun c => c <| c_status := CampaignStatus.ARCHIVED |> <| c_updated_at := now |>)
    (campaigns d) |>.

Definition non_terminal : list RunStatus.t :=
  [RunStatus.PREPARING; RunStatus.BLOCKED; RunStatus.SCHEDULED; RunStatus.RUNNING; RunStatus.PAUSED].

End Persistence.

(** ** [CampaignRunRepository] *)

Module RunRepo.
Import Persistence CampaignPreflight.

Record create_input := CreateInput {
  ci_campaignId : uuid;
  ci_idempotencyKey : string;
  ci_executionMode : Mode.t;
  ci_expectedCampaignRevision : option Z;
  ci_expectedTargetsRevision : option Z }.

(** The answer of [create]; exactly one of the cases is the code's record of flags *)
Inductive create_answer : Type :=
  | CampaignNotFound
  | Replayed (run : run_dto) (idempotencyConflict : bool)
  | NotLaunchable
  | RevisionConflict (currentCampaignRevision currentTargetsRevision : Z)
  | ScheduleExpired
  | Created (run : option run_dto).

Definition find_by_key (campaignId : uuid) (key : string) (d : db) : option (uuid * campaign_run) :=
  find_where (fun _ r => bool_decide (cr_campaign_id r = campaignId)
                         && bool_decide (cr_idempotency_key r = key)) (campaign_runs d).

Definition is_live (r : campaign_run) : bool := bool_decide (cr_execution_mode r = Mode.LIVE).

Definition has_live (campaignId : uuid) (d : db) : bool :=
  exists_where (fun _ r => bool_decide (cr_campaign_id r = campaignId) && is_live r) (campaign_runs d).

(** The inserted row, with the column defaults of the table *)
Definition new_run (now scheduledAt : timestamp) (i : create_input) (c : campaign) : campaign_run :=
  CampaignRun (ci_campaignId i) (c_session_id c) (ci_idempotencyKey i) (ci_executionMode i)
    RunStatus.PREPARING None (c_text c) (c_revision c) (c_targets_revision c) (c_target_source c)
    None scheduledAt None None 0 now None None None now now.

(** INSERT INTO campaign_run_targets SELECT .. FROM campaign_targets JOIN gateway_groups *)
Definition snapshot_row (runId campaignId : uuid) (d : db) (kv : (uuid * string) * campaign_target) :
    option ((uuid * string) * run_target) :=
  if bool_decide (kv.1.1 = campaignId) && ct_enabled kv.2 then
    match gateway_groups d !! (ct_session_id kv.2, kv.1.2) with
    | Some g => Some ((runId, kv.1.2), RunTarget (ct_session_id kv.2) (gg_name g)
                  (gg_send_capability g) (gg_send_capability_reason g)
                  (gg_capability_revision g) (gg_capability_checked_at g))
    | None => None
    end
  else None.

Definition snapshot_targets (runId campaignId : uuid) (d : db) : gmap (uuid * string) run_target :=
  list_to_map (omap (snapshot_row runId campaignId d) (map_to_list (campaign_targets d))).

Definition differs (expected : option Z) (current : Z) : bool :=
  match expected with Some e => negb (e =? current)%Z | None => false end.

Definition replay (i : create_input) (d : db) (r : uuid * campaign_run) : create_answer :=
  Replayed (mapCampaignRun d r.1 r.2)
    (negb (bool_decide (cr_execution_mode r.2 = ci_executionMode i))).

(** The unique constraints on (campaign_id, idempotency_key) and on the LIVE run *)
Definition conflicts (i : create_input) (_ : uuid) (r : campaign_run) : bool :=
  bool_decide (cr_campaign_id r = ci_campaignId i)
  && (bool_decide (cr_idempotency_key r = ci_idempotencyKey i)
      || is_live r && bool_decide (ci_executionMode i = Mode.LIVE)).

Definition launch (now : timestamp) (new_id : uuid) (i : create_input) (c : campaign) (d : db)
    : create_answer * db :=
  let scheduledAt :=
    match c_schedule_type c, c_scheduled_at c with
    | ScheduleType.ONCE, Some t => t
    | _, _ => now
    end in
  if exists_where (conflicts i) (campaign_runs d)
  then (match find_by_key (ci_campaignId i) (ci_idempotencyKey i) d with
        | Some r => replay i d r
        | None => NotLaunchable
        end, d)
  else
    let d1 := d <| campaign_runs := <[new_id := new_run now scheduledAt i c]> (campaign_runs d) |> in
    let d2 := d1 <| campaign_run_targets :=
      snapshot_targets new_id (ci_campaignId i) d1 ∪ campaign_run_targets d1 |> in
    let d3 := if bool_decide (ci_executionMode i = Mode.LIVE)
      then set_campaign_status now (ci_campaignId i) [CampaignStatus.DRAFT] CampaignStatus.ACTIVE d2
      else d2 in
    (Created (select_run new_id d3), d3).

Definition create (now : timestamp) (new_id : uuid) (i : create_input) (d : db) : create_answer * db :=
  match campaigns d !! ci_campaignId i with
  | None => (CampaignNotFound, d)
  | Some c =>
      if negb (is_null (c_deleted_at c)) then (CampaignNotFound, d)
      else match find_by_key (ci_campaignId i) (ci_idempotencyKey i) d with
      | Some r => (replay i d r, d)
      | None =>
          if has_live (ci_campaignId i) d then (NotLaunchable, d)
          else if differs (ci_expectedCampaignRevision i) (c_revision c)
               || differs (ci_expectedTargetsRevision i) (c_targets_revision c)
          then (RevisionConflict (c_revision c) (c_targets_revision c), d)
          else if negb (bool_decide (c_status c = CampaignStatus.DRAFT)) then (NotLaunchable, d)
          else if bool_decide (ci_executionMode i = Mode.LIVE)
               && bool_decide (c_schedule_type c = ScheduleType.ONCE)
               && match c_scheduled_at c with Some t => (t <=? now)%Z | None => false end
          then (ScheduleExpired, d)
          else launch now new_id i c d
      end
  end.

Definition find (id : uuid) (d : db) : option run_dto := select_run id d.

Definition two_minutes : Z := 120000.
Definition MAX_ATTEMPTS : Z := 3.

Definition preparable (now : timestamp) (r : campaign_run) : bool :=
  bool_decide (cr_status r = RunStatus.PREPARING) && (cr_prep_next_attempt_at r <=? now)%Z
  && (cr_prep_attempt_count r <? MAX_ATTEMPTS)%Z
  && (is_null (cr_prep_lease_token r) || before (cr_prep_lease_expires_at r) now).

Definition by_next_attempt (a b : uuid * campaign_run) : bool :=
  (cr_prep_next_attempt_at a.2 <? cr_prep_next_attempt_at b.2)%Z ||
  (cr_prep_next_attempt_at a.2 =? cr_prep_next_attempt_at b.2)%Z
    && (cr_created_at a.2 <=? cr_created_at b.2)%Z.

Definition listPreparing (now : timestamp) (limit : nat) (d : db) : list uuid :=
  (take limit (order_by by_next_attempt
    (select_where (fun _ r => preparable now r) (campaign_runs d)))).*1.

Definition claimPreparation (now : timestamp) (new_token runId : uuid) (d : db)
    : option (uuid * Z) * db :=
  let '(row, runs) := update_row runId (preparable now)
    (fun r => r <| cr_prep_attempt_count := (cr_prep_attempt_count r + 1)%Z |>
                <| cr_prep_lease_token := Some new_token |>
                <| cr_prep_lease_expires_at := Some (now + two_minutes)%Z |>
                <| cr_prep_error := None |> <| cr_updated_at := now |>)
    (campaign_runs d) in
  ((fun r => (new_token, cr_prep_attempt_count r)) <$> row, d <| campaign_runs := runs |>).

Definition exhausted (r : campaign_run) : bool := (MAX_ATTEMPTS <=? cr_prep_attempt_count r)%Z.

Definition stalled (now : timestamp) (_ : uuid) (r : campaign_run) : bool :=
  bool_decide (cr_status r = RunStatus.PREPARING) &&
  (negb (is_null (cr_prep_lease_token r)) && before (cr_prep_lease_expires_at r) now
   || is_null (cr_prep_lease_token r) && exhausted r).

Definition recover_row (now : timestamp) (r : campaign_run) : campaign_run :=
  r <| cr_status := if exhausted r then RunStatus.FAILED else RunStatus.PREPARING |>
    <| cr_status_reason := if exhausted r then Some "PREPARATION_FAILED" else cr_status_reason r |>
    <| cr_prep_next_attempt_at := now |> <| cr_prep_lease_token := None |>
    <| cr_prep_lease_expires_at := None |>
    <| cr_prep_error := Some "Recovered expired campaign preparation lease" |>
    <| cr_completed_at := if exhausted r then Some now else cr_completed_at r |>
    <| cr_updated_at := now |>.

Definition recoverExpiredPreparations (now : timestamp) (d : db) : Z * db :=
  let failed := select_where (fun id r => stalled now id r && is_live r && exhausted r)
    (campaign_runs d) in
  (count_where (stalled now) (campaign_runs d),
   archive_campaigns now (map (fun kv => cr_campaign_id kv.2) failed)
     (d <| campaign_runs := update_where (stalled now) (recover_row now) (campaign_runs d) |>)).

(** [getPreflightContext]: the run and its targets joined with their groups, ORDER BY
    group_name, group_id *)
Definition run_targets_of (runId : uuid) (d : db) : list target :=
  order_by by_group_name (omap (fun kv : (uuid * string) * run_target =>
    let '((rid, group), rt) := kv in
    if bool_decide (rid = runId) then
      mapPreflightTarget group rt <$> gateway_groups d !! (rt_session_id rt, group)
    else None) (map_to_list (campaign_run_targets d))).

Definition getPreflightContext (runId : uuid) (d : db) : option (run_dto * list target * Z * Z) :=
  match campaign_runs d !! runId with
  | Some r => Some (mapCampaignRun d runId r, run_targets_of runId d,
                    cr_campaign_revision r, cr_targets_revision r)
  | None => None
  end.

Inductive apply_result : Set := APPLIED | STALE_INPUT | LOST_OWNERSHIP.

Definition owned (now : timestamp) (leaseToken : uuid) (r : campaign_run) : bool :=
  bool_decide (cr_status r = RunStatus.PREPARING)
  && bool_decide (cr_prep_lease_token r = Some leaseToken)
  && after (cr_prep_lease_expires_at r) now.

Definition set_report (report : Preflight.report) (r : campaign_run) : campaign_run :=
  r <| cr_preflight_report := Some report |>.

Definition drop_lease (now : timestamp) (r : campaign_run) : campaign_run :=
  r <| cr_prep_lease_token := None |> <| cr_prep_lease_expires_at := None |> <| cr_updated_at := now |>.

Definition update_run (runId : uuid) (f : campaign_run -> campaign_run) (d : db) : db :=
  d <| campaign_runs := (update_row runId (fun _ => true) f (campaign_runs d)).2 |>.

Definition start_row (now : timestamp) (report : Preflight.report) (r : campaign_run) : campaign_run :=
  let status := if (cr_scheduled_at r <=? now)%Z then RunStatus.RUNNING else RunStatus.SCHEDULED in
  drop_lease now (set_report report r
    <| cr_status := status |> <| cr_status_reason := None |>
    <| cr_started_at := if bool_decide (status = RunStatus.RUNNING) then Some now else None |>).

Definition applyPreflight (now : timestamp) (new_ids : string -> uuid) (runId leaseToken : uuid)
    (report : Preflight.report) (observed : list target) (d : db) : apply_result * db :=
  match campaign_runs d !! runId with
  | None => (LOST_OWNERSHIP, d)
  | Some r =>
      if negb (owned now leaseToken r) then (LOST_OWNERSHIP, d)
      else if capabilitySnapshotChanged runId observed d
      then (STALE_INPUT, update_run runId (fun r => drop_lease now r
              <| cr_prep_next_attempt_at := now |>
              <| cr_prep_attempt_count := Z.max 0 (cr_prep_attempt_count r - 1) |>) d)
      else if bool_decide (Preflight.rep_status report = Preflight.BLOCK)
      then (APPLIED, update_run runId (fun r => drop_lease now (set_report report r
              <| cr_status := RunStatus.BLOCKED |>
              <| cr_status_reason := Some "PREFLIGHT_BLOCKED" |>)) d)
      else
        (APPLIED, update_run runId (start_row now report)
           (insert_deliveries now new_ids runId (refresh_targets runId (fun _ => true) d)))
  end.

Inductive preparation_result : Set := PREPARING | FAILED | LOST.

(** LEAST(300, 5 * power(2, attempt - 1)) seconds *)
Definition backoff_ms (attempt : Z) : Z := (Z.min 300 (5 * 2 ^ (attempt - 1)) * 1000)%Z.

Definition fail_row (now : timestamp) (error : string) (r : campaign_run) : campaign_run :=
  r <| cr_status := if exhausted r then RunStatus.FAILED else RunStatus.PREPARING |>
    <| cr_status_reason := if exhausted r then Some "PREPARATION_FAILED" else cr_status_reason r |>
    <| cr_prep_error := Some error |>
    <| cr_prep_next_attempt_at :=
         if exhausted r then cr_prep_next_attempt_at r
         else (now + backoff_ms (cr_prep_attempt_count r))%Z |>
    <| cr_prep_lease_token := None |> <| cr_prep_lease_expires_at := None |>
    <| cr_completed_at := if exhausted r then Some now else cr_completed_at r |>
    <| cr_updated_at := now |>.

Definition failPreparationAttempt (now : timestamp) (runId leaseToken : uuid) (error : string) (d : db)
    : preparation_result * db :=
  let '(row, runs) := update_row runId (owned now leaseToken) (fail_row now error)
    (campaign_runs d) in
  let d1 := d <| campaign_runs := runs |> in
  match row with
  | None => (LOST, d1)
  | Some r =>
      if bool_decide (cr_status r = RunStatus.FAILED)
      then (FAILED, if is_live r
                    then set_campaign_status now (cr_campaign_id r)
                           [CampaignStatus.ACTIVE; CampaignStatus.PAUSED] CampaignStatus.ARCHIVED d1
                    else d1)
      else (PREPARING, d1)
  end.

(** [auditLifecycle] *)
Record drift := Drift {
  draftWithLive : Z;
  activeWithoutNonTerminalLive : Z;
  pausedWithoutPausedOrBlockedLive : Z;
  archivedWithNonTerminalLive : Z;
  multipleLive : Z }.

Definition live_of (id : uuid) (_ : uuid) (r : campaign_run) : bool :=
  bool_decide (cr_campaign_id r = id) && is_live r.

Definition live_count (id : uuid) (d : db) : Z := count_where (live_of id) (campaign_runs d).

Definition has_live_in (statuses : list RunStatus.t) (id : uuid) (d : db) : bool :=
  exists_where (fun k r => live_of id k r && mem (cr_status r) statuses) (campaign_runs d).

Definition auditLifecycle (d : db) : drift :=
  let count P := count_where P (campaigns d) in
  let in_status s c := bool_decide (c_status c = s) in
  Drift
    (count (fun id c => in_status CampaignStatus.DRAFT c && (0 <? live_count id d)%Z))
    (count (fun id c => in_status CampaignStatus.ACTIVE c && negb (has_live_in non_terminal id d)))
    (count (fun id c => in_status CampaignStatus.PAUSED c
       && negb (has_live_in [RunStatus.PAUSED; RunStatus.BLOCKED] id d)))
    (count (fun id c => in_status CampaignStatus.ARCHIVED c && has_live_in non_terminal id d))
    (count (fun id _ => (1 <? live_count id d)%Z)).

End RunRepo.

(** ** [CampaignRunLifecycleRepository] *)

Module LifecycleRepo.
Import Persistence RunRepo CampaignPreflight.

Definition due_run (now : timestamp) (_ : uuid) (r : campaign_run) : bool :=
  bool_decide (cr_status r = RunStatus.SCHEDULED) && (cr_scheduled_at r <=? now)%Z.

Definition activateDue (now : timestamp) (d : db) : Z * db :=
  (count_where (due_run now) (campaign_runs d),
   d <| campaign_runs := update_where (due_run now)
     (fun r => r <| cr_status := RunStatus.RUNNING |> <| cr_status_reason := None |>
                 <| cr_started_at := coalesce (cr_started_at r) (Some now) |>
                 <| cr_updated_at := now |>)
     (campaign_runs d) |>).

(** The deliveries of a run *)
Definition deliveries_of (runId : uuid) (d : db) : list ((uuid * string) * delivery) :=
  select_where (fun k _ => bool_decide (k.1 = runId)) (campaign_deliveries d).

Definition open_statuses : list DeliveryStatus.t :=
  [DeliveryStatus.PENDING; DeliveryStatus.MATERIALIZED; DeliveryStatus.PROCESSING].
Definition failure_statuses : list DeliveryStatus.t :=
  [DeliveryStatus.FAILED; DeliveryStatus.UNKNOWN; DeliveryStatus.BLOCKED_CAPABILITY_CHANGED;
   DeliveryStatus.CANCELLED].

Definition has_failure (runId : uuid) (d : db) : bool :=
  existsb (fun kv => mem (cd_status kv.2) failure_statuses) (deliveries_of runId d).

(** A RUNNING run with deliveries, none of them open: GROUP BY .. HAVING bool_and *)
Definition finalizable (d : db) (runId : uuid) (r : campaign_run) : bool :=
  bool_decide (cr_status r = RunStatus.RUNNING)
  && negb (Nat.eqb (length (deliveries_of runId d)) 0)
  && forallb (fun kv => negb (mem (cd_status kv.2) open_statuses)) (deliveries_of runId d).

(** ORDER BY min(started_at), id; NULLS LAST *)
Definition by_started (a b : uuid * campaign_run) : bool :=
  match cr_started_at a.2, cr_started_at b.2 with
  | Some x, Some y => (x <? y)%Z || (x =? y)%Z && (a.1 <=? b.1)%positive
  | Some _, None => true
  | None, Some _ => false
  | None, None => (a.1 <=? b.1)%positive
  end.

Definition final_row (now : timestamp) (failed : bool) (r : campaign_run) : campaign_run :=
  r <| cr_status := if failed then RunStatus.PARTIAL_FAILED else RunStatus.COMPLETED |>
    <| cr_status_reason := if failed then Some "ONE_OR_MORE_DELIVERIES_FAILED" else None |>
    <| cr_completed_at := Some now |> <| cr_updated_at := now |>.

Definition finalize (now : timestamp) (limit : nat) (d : db) : Z * db :=
  let rows := take limit (order_by by_started (select_where (finalizable d) (campaign_runs d))) in
  let live := map (fun kv => cr_campaign_id kv.2) (List.filter (fun kv => is_live kv.2) rows) in
  (Z.of_nat (length rows),
   archive_campaigns now live
     (d <| campaign_runs := map_imap (fun id r => Some (
         if mem id rows.*1 then final_row now (has_failure id d) r else r)) (campaign_runs d) |>)).

(** A run's own transition together with that of its campaign *)
Definition with_campaign (now : timestamp) (r : campaign_run) (from : list CampaignStatus.t)
    (to : CampaignStatus.t) (d : db) : db :=
  if is_live r then set_campaign_status now (cr_campaign_id r) from to d else d.

Definition pause (now : timestamp) (id : uuid) (d : db) : option run_dto * db :=
  let '(row, runs) := update_row id
    (fun r => mem (cr_status r) [RunStatus.SCHEDULED; RunStatus.RUNNING])
    (fun r => r <| cr_status := RunStatus.PAUSED |> <| cr_status_reason := Some "MANUAL_PAUSE" |>
                <| cr_updated_at := now |>)
    (campaign_runs d) in
  let d1 := d <| campaign_runs := runs |> in
  match row with
  | None => (None, d1)
  | Some r =>
      let d2 := with_campaign now r [CampaignStatus.ACTIVE] CampaignStatus.PAUSED d1 in
      (select_run id d2, d2)
  end.

Definition recordBlockedResume (now : timestamp) (id : uuid) (report : Preflight.report) (d : db) : db :=
  d <| campaign_runs := (update_row id
    (fun r => mem (cr_status r) [RunStatus.PAUSED; RunStatus.BLOCKED])
    (fun r => set_report report r <| cr_status := RunStatus.BLOCKED |>
                <| cr_status_reason := Some "PREFLIGHT_BLOCKED" |> <| cr_updated_at := now |>)
    (campaign_runs d)).2 |>.

Inductive resume_result : Type := Resumed (run : option run_dto) | StaleInput | NotResumable.

Definition resume_row (now : timestamp) (report : Preflight.report) (r : campaign_run) : campaign_run :=
  let status := if (now <? cr_scheduled_at r)%Z then RunStatus.SCHEDULED else RunStatus.RUNNING in
  set_report report r <| cr_status := status |> <| cr_status_reason := None |>
    <| cr_started_at := if bool_decide (status = RunStatus.RUNNING)
                        then coalesce (cr_started_at r) (Some now) else cr_started_at r |>
    <| cr_completed_at := None |> <| cr_updated_at := now |>.

(** NOT EXISTS a delivery of the target that is not PENDING *)
Definition only_pending (runId : uuid) (d : db) (group : string) : bool :=
  match campaign_deliveries d !! (runId, group) with
  | Some cd => bool_decide (cd_status cd = DeliveryStatus.PENDING)
  | None => true
  end.

Definition resume (now : timestamp) (new_ids : string -> uuid) (id : uuid) (report : Preflight.report)
    (observed : list target) (d : db) : resume_result * db :=
  match campaign_runs d !! id with
  | None => (NotResumable, d)
  | Some r =>
      if negb (mem (cr_status r) [RunStatus.PAUSED; RunStatus.BLOCKED]) then (NotResumable, d)
      else if capabilitySnapshotChanged id observed d then (StaleInput, d)
      else
        let d1 := refresh_targets id (only_pending id d) d in
        let d2 := insert_deliveries now new_ids id d1 in
        let d3 := update_run id (resume_row now report) d2 in
        let d4 := with_campaign now r [CampaignStatus.PAUSED] CampaignStatus.ACTIVE d3 in
        (Resumed (select_run id d4), d4)
  end.

Definition cancel_row (now : timestamp) (r : campaign_run) : campaign_run :=
  r <| cr_status := RunStatus.CANCELLED |> <| cr_status_reason := Some "CANCELLED_BY_OPERATOR" |>
    <| cr_completed_at := Some now |> <| cr_updated_at := now |>.

(** [id IN (SELECT message_job_id FROM campaign_deliveries WHERE run_id = ..)] *)
Definition job_of_run (runId : uuid) (d : db) (jobId : uuid) : bool :=
  exists_where (fun k cd => bool_decide (k.1 = runId) && bool_decide (cd_message_job_id cd = Some jobId))
    (campaign_deliveries d).

Definition job_cancelled (d : db) (cd : delivery) : bool :=
  match cd_message_job_id cd with
  | Some id => match message_jobs d !! id with
               | Some j => bool_decide (mj_status j = JobStatus.CANCELLED)
               | None => false
               end
  | None => false
  end.

Definition cancel_deliveries (now : timestamp) (runId : uuid) (d : db) : db :=
  d <| campaign_deliveries := update_where
    (fun k cd => bool_decide (k.1 = runId)
       && (bool_decide (cd_status cd = DeliveryStatus.PENDING) || job_cancelled d cd))
    (fun cd => cd <| cd_status := DeliveryStatus.CANCELLED |>
                  <| cd_failure_reason := Some "Campaign run cancelled" |> <| cd_updated_at := now |>)
    (campaign_deliveries d) |>.

Definition cancel (now : timestamp) (new_ids : string -> uuid) (id : uuid) (d : db)
    : option run_dto * db :=
  match campaign_runs d !! id with
  | None => (None, d)
  | Some r =>
      if negb (mem (cr_status r) non_terminal) then (None, d)
      else
        let d1 := insert_deliveries now new_ids id d in
        let d2 := Repo.cancelJobs now (job_of_run id d1) d1 in
        let d3 := cancel_deliveries now id d2 in
        let d4 := update_run id (cancel_row now) d3 in
        let d5 := with_campaign now r [CampaignStatus.ACTIVE; CampaignStatus.PAUSED]
                    CampaignStatus.ARCHIVED d4 in
        (select_run id d5, d5)
  end.

Definition listRunningIds (limit : nat) (d : db) : list uuid :=
  (take limit (order_by by_started (select_where
    (fun _ r => bool_decide (cr_status r = RunStatus.RUNNING)) (campaign_runs d)))).*1.

End LifecycleRepo.

(** ** [CampaignDeliveryRepository] *)

Module DeliveryRepo.
Import Persistence RunRepo LifecycleRepo.
Section Delivery.
Variable sha256 : string -> string.
Variable to_iso : string -> string.
(** The text of a uuid, as it appears in the idempotency scope *)
Variable uuid_text : uuid -> string.

Definition reconciled_status (s : JobStatus.t) (current : DeliveryStatus.t) : DeliveryStatus.t :=
  match s with
  | JobStatus.PROCESSING => DeliveryStatus.PROCESSING
  | JobStatus.DRY_RUN_COMPLETED => DeliveryStatus.DRY_RUN_COMPLETED
  | JobStatus.ACCEPTED => DeliveryStatus.ACCEPTED
  | JobStatus.SENT => DeliveryStatus.SENT
  | JobStatus.DELIVERED => DeliveryStatus.DELIVERED
  | JobStatus.READ => DeliveryStatus.READ
  | JobStatus.FAILED => DeliveryStatus.FAILED
  | JobStatus.UNKNOWN => DeliveryStatus.UNKNOWN
  | JobStatus.CANCELLED => DeliveryStatus.CANCELLED
  | JobStatus.SCHEDULED | JobStatus.QUEUED => current
  end.

Definition failed_or_unknown (s : JobStatus.t) : bool := mem s [JobStatus.FAILED; JobStatus.UNKNOWN].

(** The WHERE clause: the job has moved and the delivery does not show it *)
Definition out_of_date (j : message_job) (cd : delivery) : bool :=
  negb (mem (mj_status j) [JobStatus.SCHEDULED; JobStatus.QUEUED])
  && (negb (bool_decide (reconciled_status (mj_status j) (cd_status cd) = cd_status cd))
      || failed_or_unknown (mj_status j)
         && negb (bool_decide (cd_failure_reason cd = mj_last_error j))).

Definition reconcile_row (now : timestamp) (j : message_job) (cd : delivery) : delivery :=
  cd <| cd_status := reconciled_status (mj_status j) (cd_status cd) |>
     <| cd_failure_reason := if failed_or_unknown (mj_status j) then mj_last_error j
                             else cd_failure_reason cd |>
     <| cd_updated_at := now |>.

Definition job_of (d : db) (cd : delivery) : option message_job :=
  cd_message_job_id cd ≫= (fun id => message_jobs d !! id).

Definition stale_delivery (d : db) (_ : uuid * string) (cd : delivery) : bool :=
  match job_of d cd with Some j => out_of_date j cd | None => false end.

Definition reconcile (now : timestamp) (d : db) : Z * db :=
  (count_where (stale_delivery d) (campaign_deliveries d),
   d <| campaign_deliveries := map_imap (fun k cd => Some (
     match job_of d cd with
     | Some j => if out_of_date j cd then reconcile_row now j cd else cd
     | None => cd
     end)) (campaign_deliveries d) |>).

Definition session_sendable (r : campaign_run) (d : db) : bool :=
  Policy.isSessionSendable (cr_session_id r) d.

(** The jobs of the run that are not decided yet *)
Definition active_count (runId : uuid) (d : db) : Z :=
  count_where (fun k cd => bool_decide (k.1 = runId) &&
    match job_of d cd with
    | Some j => mem (mj_status j) [JobStatus.SCHEDULED; JobStatus.QUEUED; JobStatus.PROCESSING]
    | None => false
    end) (campaign_deliveries d).

(** A pending delivery joined with its target and group: the group id, and whether
    the capability changed after the snapshot *)
Definition capability_changed (rt : run_target) (g : gateway_group) : bool :=
  negb (rt_capability_revision rt =? gg_capability_revision g)%Z
  || negb (bool_decide (gg_send_capability g = Capability.ALLOWED)).

Definition joined (runId : uuid) (d : db) (group : string) : option bool :=
  match campaign_run_targets d !! (runId, group) with
  | Some rt => capability_changed rt <$> gateway_groups d !! (rt_session_id rt, group)
  | None => None
  end.

Definition by_created (a b : (uuid * string) * delivery) : bool :=
  (cd_created_at a.2 <? cd_created_at b.2)%Z ||
  (cd_created_at a.2 =? cd_created_at b.2)%Z && (cd_id a.2 <=? cd_id b.2)%positive.

(** ORDER BY created_at, id FOR UPDATE SKIP LOCKED LIMIT slots *)
Definition pending_deliveries (locked : uuid -> bool) (runId : uuid) (slots : nat) (d : db)
    : list ((uuid * string) * delivery) :=
  take slots (order_by by_created (select_where (fun k cd =>
    bool_decide (k.1 = runId) && bool_decide (cd_status cd = DeliveryStatus.PENDING)
    && negb (is_null (joined runId d k.2)) && negb (locked (cd_id cd))) (campaign_deliveries d))).

Definition update_delivery (k : uuid * string) (W : delivery -> bool) (f : delivery -> delivery)
    (d : db) : db :=
  d <| campaign_deliveries := (update_row k W f (campaign_deliveries d)).2 |>.

Definition block_row (now : timestamp) (cd : delivery) : delivery :=
  cd <| cd_status := DeliveryStatus.BLOCKED_CAPABILITY_CHANGED |>
     <| cd_failure_reason := Some "Group capability changed after preflight" |>
     <| cd_updated_at := now |>.

Definition is_pending (cd : delivery) : bool := bool_decide (cd_status cd = DeliveryStatus.PENDING).

(** The request of the job of one delivery *)
Definition delivery_job (now : timestamp) (runId : uuid) (r : campaign_run) (group : string)
    : Repo.create_input :=
  let dryRun := bool_decide (cr_execution_mode r = Mode.DRY_RUN) in
  Repo.CreateInput ("campaign-run:" ++ uuid_text runId) group
    (Idempotency.messageRequestHash sha256 to_iso
       (Idempotency.Request (cr_session_id r) group (cr_text r) None dryRun))
    (cr_session_id r) group (cr_text r) now dryRun.

(** The body of the loop; [new_id] draws the job's id. *)
Definition materialize (now : timestamp) (new_id : string -> uuid) (runId : uuid) (r : campaign_run)
    (changed : string -> option bool) (nd : Z * db) (k : uuid * string) : Z * db :=
  let '(n, d) := nd in
  if is_live r && bool_decide (changed k.2 = Some true)
  then (n, update_delivery k (fun _ => true) (block_row now) d)
  else
    match Repo.create now (new_id k.2) (delivery_job now runId r k.2) d with
    | (None, d1) => (n, d1)
    | (Some res, d1) =>
        ((n + 1)%Z,
         update_delivery k is_pending
           (fun cd => cd <| cd_message_job_id := Some (Repo.res_id res) |>
                         <| cd_status := DeliveryStatus.MATERIALIZED |> <| cd_updated_at := now |>)
           d1)
    end.

Definition materializePending (now : timestamp) (locked : uuid -> bool) (new_id : string -> uuid)
    (runId : uuid) (maxBuffered : Z) (d : db) : Z * db :=
  match campaign_runs d !! runId with
  | None => (0%Z, d)
  | Some r =>
      if negb (bool_decide (cr_status r = RunStatus.RUNNING)) then (0%Z, d)
      else if is_live r && negb (session_sendable r d)
      then (0%Z, set_campaign_status now (cr_campaign_id r) [CampaignStatus.ACTIVE] CampaignStatus.PAUSED
             (update_run runId (fun r => r <| cr_status := RunStatus.PAUSED |>
                <| cr_status_reason := Some "SESSION_NOT_SENDABLE" |> <| cr_updated_at := now |>) d))
      else
        let slots := Z.to_nat (Z.max 0 (maxBuffered - active_count runId d)) in
        if Nat.eqb slots 0 then (0%Z, d)
        else foldl (materialize now new_id runId r (joined runId d)) (0%Z, d)
               (pending_deliveries locked runId slots d).*1
  end.

End Delivery.
End DeliveryRepo.
