(* ===== verification/Retention.v ===== *)
(** * Data retention

    The statements of [src/modules/orchestration/data-retention.tick.ts] that delete
    the modelled tables: old campaign runs that have ended, with what they own, and
    old message jobs that are decided and that no delivery refers to.  [cutoff] is
    the instant before which a row is old, [limit] the batch size, and [locked] the
    rows another transaction holds ([FOR UPDATE SKIP LOCKED]). *)

From S2P Require Import Prelude Schema.

Module Retention.

Definition ended : list RunStatus.t :=
  [RunStatus.COMPLETED; RunStatus.PARTIAL_FAILED; RunStatus.CANCELLED; RunStatus.FAILED].

Definition decided : list JobStatus.t :=
  [JobStatus.ACCEPTED; JobStatus.SENT; JobStatus.DELIVERED; JobStatus.READ; JobStatus.FAILED;
   JobStatus.UNKNOWN; JobStatus.DRY_RUN_COMPLETED; JobStatus.CANCELLED].

(** ORDER BY updated_at, id *)
Definition by_updated {V : Type} (at_ : V -> timestamp) (a b : uuid * V) : bool :=
  (at_ a.2 <? at_ b.2)%Z || (at_ a.2 =? at_ b.2)%Z && (a.1 <=? b.1)%positive.

Definition candidates {V : Type} (at_ : V -> timestamp) (P : uuid -> V -> bool) (cutoff : timestamp)
    (limit : nat) (locked : uuid -> bool) (t : gmap uuid V) : list uuid :=
  (take limit (order_by (by_updated at_) (select_where
    (fun id v => P id v && (at_ v <? cutoff)%Z && negb (locked id)) t))).*1.

(** DELETE FROM campaign_runs; targets and deliveries follow by ON DELETE CASCADE *)
Definition run_candidates (cutoff : timestamp) (limit : nat) (locked : uuid -> bool) (d : db) : list uuid :=
  candidates cr_updated_at (fun _ r => mem (cr_status r) ended) cutoff limit locked (campaign_runs d).

Definition deleteCampaignRuns (cutoff : timestamp) (limit : nat) (locked : uuid -> bool) (d : db) : Z * db :=
  let ids := run_candidates cutoff limit locked d in
  (Z.of_nat (length ids),
   d <| campaign_runs := delete_where (fun id _ => mem id ids) (campaign_runs d) |>
     <| campaign_run_targets := delete_where (fun k _ => mem k.1 ids) (campaign_run_targets d) |>
     <| campaign_deliveries := delete_where (fun k _ => mem k.1 ids) (campaign_deliveries d) |>).

(** EXISTS (SELECT 1 FROM campaign_deliveries WHERE message_job_id = id) *)
Definition referenced (d : db) (id : uuid) : bool :=
  exists_where (fun _ cd => bool_decide (cd_message_job_id cd = Some id)) (campaign_deliveries d).

Definition job_candidates (cutoff : timestamp) (limit : nat) (locked : uuid -> bool) (d : db) : list uuid :=
  candidates mj_updated_at (fun id j => mem (mj_status j) decided && negb (referenced d id))
    cutoff limit locked (message_jobs d).

(** DELETE FROM message_jobs; the attempts follow by ON DELETE CASCADE *)
Definition deleteMessageJobs (cutoff : timestamp) (limit : nat) (locked : uuid -> bool) (d : db) : Z * db :=
  let ids := job_candidates cutoff limit locked d in
  (Z.of_nat (length ids),
   d <| message_jobs := delete_where (fun id _ => mem id ids) (message_jobs d) |>
     <| message_attempts := delete_where (fun k _ => mem k.1 ids) (message_attempts d) |>).

(** *** What it may delete *)

Lemma candidates_old {V : Type} (at_ : V -> timestamp) P cutoff limit locked t id :
  id ∈ candidates at_ P cutoff limit locked t ->
  exists v, t !! id = Some v /\ P id v = true /\ (at_ v < cutoff)%Z /\ locked id = false.
Proof.
  unfold candidates. intros Hin. apply list_elem_of_fmap in Hin as ([k v] & -> & Hin).
  apply take_elem, order_by_elem, select_where_elem in Hin as [Hv HP]. split_bool. eauto.
Qed.

Lemma candidates_bound {V : Type} (at_ : V -> timestamp) P cutoff limit locked t :
  length (candidates at_ P cutoff limit locked t) <= limit.
Proof. unfold candidates. rewrite length_fmap, length_take. lia. Qed.

(** The foreign keys of the tables retention deletes from *)
Record refs_ok (d : db) : Prop := RefsOk {
  rf_target k t : campaign_run_targets d !! k = Some t -> is_Some (campaign_runs d !! k.1);
  rf_delivery k cd : campaign_deliveries d !! k = Some cd -> is_Some (campaign_run_targets d !! k);
  rf_job k cd id : campaign_deliveries d !! k = Some cd -> cd_message_job_id cd = Some id ->
    is_Some (message_jobs d !! id);
  rf_attempt k a : message_attempts d !! k = Some a -> is_Some (message_jobs d !! k.1) }.

Lemma deleteCampaignRuns_refs cutoff limit locked d :
  refs_ok d -> refs_ok (deleteCampaignRuns cutoff limit locked d).2.
Proof.
  intros Hok. unfold deleteCampaignRuns. cbn. split; cbn.
  - intros k t (Ht & Hk)%delete_where_Some. destruct (rf_target _ Hok _ _ Ht) as [r Hr].
    exists r. by apply delete_where_Some.
  - intros k cd (Ht & Hk)%delete_where_Some. destruct (rf_delivery _ Hok _ _ Ht) as [t Hr].
    exists t. by apply delete_where_Some.
  - intros k cd id (Ht & _)%delete_where_Some. by apply (rf_job _ Hok _ _ _ Ht).
  - apply (rf_attempt _ Hok).
Qed.

Lemma deleteMessageJobs_refs cutoff limit locked d :
  refs_ok d -> refs_ok (deleteMessageJobs cutoff limit locked d).2.
Proof.
  intros Hok. unfold deleteMessageJobs. cbn. split; cbn.
  - apply (rf_target _ Hok).
  - apply (rf_delivery _ Hok).
  - intros k cd id Hcd Hid. destruct (rf_job _ Hok _ _ _ Hcd Hid) as [j Hj]. exists j.
    apply delete_where_Some. split; [done|]. apply mem_false. intros Hin.
    apply candidates_old in Hin as (j' & _ & HP & _). split_bool.
    match goal with H : referenced _ _ = false |- _ => unfold referenced in H;
      rewrite exists_where_false in H; specialize (H _ _ Hcd) end.
    by split_bool.
  - intros k a (Ha & Hk)%delete_where_Some. destruct (rf_attempt _ Hok _ _ Ha) as [j Hj].
    exists j. by apply delete_where_Some.
Qed.

(** One batch of [cleanup]: the runs, then the jobs they leave without a delivery *)
Definition batch (cutoff : timestamp) (limit : nat) (locked_runs locked_jobs : uuid -> bool)
    (d : db) : db :=
  (deleteMessageJobs cutoff limit locked_jobs (deleteCampaignRuns cutoff limit locked_runs d).2).2.

Lemma batch_runs cutoff limit lr lj d : campaign_runs (batch cutoff limit lr lj d) =
  delete_where (fun id _ => mem id (run_candidates cutoff limit lr d)) (campaign_runs d).
Proof. done. Qed.

Lemma batch_jobs cutoff limit lr lj d : message_jobs (batch cutoff limit lr lj d) =
  delete_where (fun id _ => mem id (job_candidates cutoff limit lj (deleteCampaignRuns cutoff limit lr d).2))
    (message_jobs d).
Proof. done. Qed.

(** A finished run and its job, both old, beside a newer run that still has work *)
Definition example_run (s : RunStatus.t) (updated : timestamp) : campaign_run :=
  CampaignRun 1 "s" "k" Mode.LIVE s None "hi" 1 1 None None 0 None None 0 0 None None None 0 updated.

Definition example_job (s : JobStatus.t) : message_job :=
  MessageJob "campaign-run:x" "g" "h" "s" "g" "hi" 0 s false 1 None None None None 0 5.

Definition example_target : run_target :=
  RunTarget "s" "g" Capability.ALLOWED CapabilityReason.SEND_ALLOWED 1 None.

Definition example_db : db :=
  empty_db <| campaign_runs := <[7%positive := example_run RunStatus.COMPLETED 5]>
                (<[8%positive := example_run RunStatus.RUNNING 5]> ∅) |>
    <| campaign_run_targets := <[(7%positive, "g") := example_target]>
         (<[(8%positive, "g") := example_target]> ∅) |>
    <| campaign_deliveries := <[(7%positive, "g") := Delivery 1 (Some 3%positive) DeliveryStatus.SENT None 0 5]>
         (<[(8%positive, "g") := Delivery 2 (Some 4%positive) DeliveryStatus.SENT None 0 5]> ∅) |>
    <| message_jobs := <[3%positive := example_job JobStatus.SENT]>
         (<[4%positive := example_job JobStatus.SENT]> ∅) |>.

Example example_batch :
  let d := batch 10 5 (fun _ => false) (fun _ => false) example_db in
  ((map_to_list (campaign_runs d)).*1, (map_to_list (message_jobs d)).*1,
   (map_to_list (campaign_deliveries d)).*1) = ([8%positive], [4%positive], [(8%positive, "g")]).
Proof. vm_compute. reflexivity. Qed.

(** Retention deletes only finished, old work.  A run a batch deletes has ended
    and a job it deletes is decided; both were last updated before the cutoff, and no
    delivery left refers to the job.  What it keeps is unchanged, a batch deletes at
    most [limit] rows of each table, and no row left refers to a deleted one. *)
Theorem retention_deletes_finished cutoff limit lr lj d (Hok : refs_ok d) :
  let d' := batch cutoff limit lr lj d in
  (forall id r, campaign_runs d !! id = Some r ->
     campaign_runs d' !! id = Some r \/
     campaign_runs d' !! id = None /\ cr_status r ∈ ended /\ (cr_updated_at r < cutoff)%Z /\ lr id = false) /\
  (forall id j, message_jobs d !! id = Some j ->
     message_jobs d' !! id = Some j \/
     message_jobs d' !! id = None /\ mj_status j ∈ decided /\ (mj_updated_at j < cutoff)%Z /\
     forall k cd, campaign_deliveries d' !! k = Some cd -> cd_message_job_id cd <> Some id) /\
  length (run_candidates cutoff limit lr d) <= limit /\
  length (job_candidates cutoff limit lj (deleteCampaignRuns cutoff limit lr d).2) <= limit /\
  refs_ok d'.
Proof.
  cbv zeta. assert (Hrefs : refs_ok (batch cutoff limit lr lj d))
    by (by apply deleteMessageJobs_refs, deleteCampaignRuns_refs).
  split_and!; [| |apply candidates_bound|apply candidates_bound|done].
  - intros id r Hr. rewrite batch_runs, lookup_delete_where, Hr.
    destruct (mem id _) eqn:Em; [right|by left]. apply mem_true in Em.
    apply candidates_old in Em as (r' & Hr' & HP & Hold & Hlock). simplify_eq.
    apply mem_true in HP. done.
  - intros id j Hj. rewrite batch_jobs, lookup_delete_where, Hj.
    destruct (mem id _) eqn:Em; [right|by left]. apply mem_true in Em.
    apply candidates_old in Em as (j' & Hj' & HP & Hold & _).
    cbn [deleteCampaignRuns snd] in Hj'. unfold upd in Hj'. cbn in Hj'. simplify_eq. split_bool.
    split_and!; [done|by apply mem_true|done|].
    intros k cd Hcd Hid. match goal with H : referenced _ _ = false |- _ =>
      unfold referenced in H; rewrite exists_where_false in H; specialize (H _ _ Hcd) end.
    by split_bool.
Qed.

Lemma retention_deletes_finished_witness :
  length (run_candidates 10 5 (fun _ => false) example_db) = 1%nat /\
  refs_ok (batch 10 5 (fun _ => false) (fun _ => false) example_db).
Proof.
  split; [by vm_compute|]. apply (retention_deletes_finished 10 5 (fun _ => false) (fun _ => false) example_db).
  split.
  - intros k t Ht. cbn in Ht. apply lookup_insert_Some in Ht as [[<- _]|[_ Ht]]; [vm_compute; by eexists|].
    apply lookup_insert_Some in Ht as [[<- _]|[_ Ht]]; [vm_compute; by eexists|]. by rewrite lookup_empty in Ht.
  - intros k t Ht. cbn in Ht. apply lookup_insert_Some in Ht as [[<- _]|[_ Ht]]; [vm_compute; by eexists|].
    apply lookup_insert_Some in Ht as [[<- _]|[_ Ht]]; [vm_compute; by eexists|]. by rewrite lookup_empty in Ht.
  - intros k t id Ht. cbn in Ht. apply lookup_insert_Some in Ht as [[_ <-]|[_ Ht]]; [intros [= <-]; vm_compute; by eexists|].
    apply lookup_insert_Some in Ht as [[_ <-]|[_ Ht]]; [intros [= <-]; vm_compute; by eexists|]. by rewrite lookup_empty in Ht.
  - intros k t Ht. cbn in Ht. by rewrite lookup_empty in Ht.
Defined.

End Retention.
