(* ===== verification/CampaignLifecycle.v ===== *)
(** * The lifecycle of campaigns and runs

    The statements of the files Campaigns and CampaignRuns as one step relation, the
    state machine they walk through, and the invariant that ties the status of a
    campaign to the status of its LIVE run. *)

From stdpp Require Import pretty.
From S2P Require Import Prelude Schema MessageJobs Groups CampaignPreflight Campaigns CampaignRuns Retention.
Import Persistence RunRepo LifecycleRepo DeliveryRepo.

Module Life.
Section Life.
Variable sha256 : string -> string.
Variable to_iso : string -> string.
Variable uuid_text : uuid -> string.

Definition terminal (s : RunStatus.t) : bool := negb (mem s non_terminal).

(** Every statement that writes campaigns or runs *)
Inductive cstep (d : db) : db -> Prop :=
  | c_create now new_id i : campaigns d !! new_id = None ->
      cstep d (CampaignRepo.create now new_id i d).2
  | c_update now id i rev : cstep d (CampaignRepo.update now id i rev d).2
  | c_targets now id ids rev : cstep d (CampaignRepo.replaceTargets now id ids rev d).2
  | c_apply_list now id list rev mrev :
      cstep d (CampaignRepo.applyGroupListTargets now id list rev mrev d).2
  | c_delete now id allowed rev trev : cstep d (CampaignRepo.delete now id allowed rev trev d).2
  | r_create now new_id i : campaign_runs d !! new_id = None ->
      cstep d (RunRepo.create now new_id i d).2
  | r_claim now token id : cstep d (claimPreparation now token id d).2
  | r_recover now : cstep d (recoverExpiredPreparations now d).2
  | r_apply now ids id token report observed :
      cstep d (applyPreflight now ids id token report observed d).2
  | r_fail now id token e : cstep d (failPreparationAttempt now id token e d).2
  | r_activate now : cstep d (activateDue now d).2
  | r_finalize now limit : cstep d (finalize now limit d).2
  | r_pause now id : cstep d (pause now id d).2
  | r_blocked now id report : cstep d (recordBlockedResume now id report d)
  | r_resume now ids id report observed : cstep d (resume now ids id report observed d).2
  | r_cancel now ids id : cstep d (cancel now ids id d).2
  | r_materialize now locked new_id id buffered :
      cstep d (materializePending sha256 to_iso uuid_text now locked new_id id buffered d).2
  | r_retire cutoff limit lr lj : cstep d (Retention.batch cutoff limit lr lj d)
  (** a statement on other tables *)
  | r_other d' : campaigns d' = campaigns d -> campaign_runs d' = campaign_runs d -> cstep d d'.

(** *** The state machine of a run *)

Definition run_edge (s s' : RunStatus.t) : bool :=
  bool_decide (s = s') ||
  match s with
  | RunStatus.PREPARING => mem s' [RunStatus.BLOCKED; RunStatus.SCHEDULED; RunStatus.RUNNING;
                                   RunStatus.FAILED; RunStatus.CANCELLED]
  | RunStatus.BLOCKED => mem s' [RunStatus.SCHEDULED; RunStatus.RUNNING; RunStatus.CANCELLED]
  | RunStatus.SCHEDULED => mem s' [RunStatus.RUNNING; RunStatus.PAUSED; RunStatus.CANCELLED]
  | RunStatus.RUNNING => mem s' [RunStatus.PAUSED; RunStatus.COMPLETED; RunStatus.PARTIAL_FAILED;
                                 RunStatus.CANCELLED]
  | RunStatus.PAUSED => mem s' [RunStatus.BLOCKED; RunStatus.SCHEDULED; RunStatus.RUNNING;
                                RunStatus.CANCELLED]
  | _ => false
  end.

(** What a launch fixed *)
Definition same_snapshot (r r' : campaign_run) : Prop :=
  cr_campaign_id r' = cr_campaign_id r /\ cr_session_id r' = cr_session_id r /\
  cr_idempotency_key r' = cr_idempotency_key r /\ cr_execution_mode r' = cr_execution_mode r /\
  cr_text r' = cr_text r /\ cr_campaign_revision r' = cr_campaign_revision r /\
  cr_targets_revision r' = cr_targets_revision r /\ cr_target_source r' = cr_target_source r /\
  cr_scheduled_at r' = cr_scheduled_at r.

Definition run_kept (r r' : campaign_run) : Prop :=
  same_snapshot r r' /\ run_edge (cr_status r) (cr_status r') = true.

(** *** A run's status decides its campaign's *)

Definition live_ok (s : RunStatus.t) (c : CampaignStatus.t) : bool :=
  match s with
  | RunStatus.PREPARING | RunStatus.SCHEDULED | RunStatus.RUNNING =>
      bool_decide (c = CampaignStatus.ACTIVE)
  | RunStatus.BLOCKED => mem c [CampaignStatus.ACTIVE; CampaignStatus.PAUSED]
  | RunStatus.PAUSED => bool_decide (c = CampaignStatus.PAUSED)
  | _ => bool_decide (c = CampaignStatus.ARCHIVED)
  end.

Definition live_run (d : db) (id k : uuid) (r : campaign_run) : Prop :=
  campaign_runs d !! k = Some r /\ cr_campaign_id r = id /\ cr_execution_mode r = Mode.LIVE.

Record life_ok (d : db) : Prop := LifeOk {
  (** the foreign key *)
  lo_owner k r : campaign_runs d !! k = Some r -> is_Some (campaigns d !! cr_campaign_id r);
  (** the unique index of LIVE runs *)
  lo_single id k1 r1 k2 r2 : live_run d id k1 r1 -> live_run d id k2 r2 -> k1 = k2;
  lo_live id k r c : live_run d id k r -> campaigns d !! id = Some c ->
    live_ok (cr_status r) (c_status c) = true;
  lo_launched id c : campaigns d !! id = Some c ->
    c_status c = CampaignStatus.DRAFT \/ c_status c = CampaignStatus.ARCHIVED \/
    exists k r, live_run d id k r;
  lo_deleted id c : campaigns d !! id = Some c -> is_Some (c_deleted_at c) ->
    (c_status c = CampaignStatus.DRAFT \/ c_status c = CampaignStatus.ARCHIVED) /\
    forall k r, campaign_runs d !! k = Some r -> cr_campaign_id r = id ->
      terminal (cr_status r) = true }.

(** *** How a statement moves the two tables *)

(** Nothing is added or removed; runs keep their snapshot and walk an edge; a
    campaign's deletion mark is kept; a LIVE run and its campaign move together; and
    a campaign without a LIVE run, or deleted, keeps its status. *)
Record moves (d d' : db) : Prop := Moves {
  mv_campaigns id : is_Some (campaigns d' !! id) -> is_Some (campaigns d !! id);
  mv_campaign id c : campaigns d !! id = Some c -> exists c', campaigns d' !! id = Some c' /\
    c_deleted_at c' = c_deleted_at c /\
    (c_status c' = c_status c \/ c_deleted_at c = None /\ exists k r, live_run d id k r);
  mv_runs k : is_Some (campaign_runs d' !! k) -> is_Some (campaign_runs d !! k);
  mv_run k r : campaign_runs d !! k = Some r ->
    exists r', campaign_runs d' !! k = Some r' /\ run_kept r r';
  mv_live id k r r' c c' : live_run d id k r -> campaign_runs d' !! k = Some r' ->
    campaigns d !! id = Some c -> campaigns d' !! id = Some c' ->
    live_ok (cr_status r) (c_status c) = true -> live_ok (cr_status r') (c_status c') = true }.

Lemma run_edge_terminal s s' : run_edge s s' = true -> terminal s = true -> s' = s.
Proof. by destruct s, s'. Qed.

Lemma moves_back d d' id k r' : moves d d' -> live_run d' id k r' ->
  exists r, live_run d id k r /\ run_kept r r'.
Proof.
  intros Hm (Hk & Hc & Hl). destruct (mv_runs _ _ Hm k (mk_is_Some _ _ Hk)) as [r Hr].
  destruct (mv_run _ _ Hm _ _ Hr) as (r'' & Hr'' & Hkept).
  assert (r'' = r') as -> by congruence. exists r. split; [|done].
  destruct Hkept as [(E1 & _ & _ & E2 & _) _]. split_and!; congruence.
Qed.

Lemma moves_life_ok d d' : moves d d' -> life_ok d -> life_ok d'.
Proof.
  intros Hm Hok. split.
  - intros k r' Hr'. destruct (mv_runs _ _ Hm k (mk_is_Some _ _ Hr')) as [r Hr].
    destruct (mv_run _ _ Hm _ _ Hr) as (r'' & Hr'' & [(E & _) _]).
    assert (r'' = r') as -> by congruence. rewrite E.
    destruct (lo_owner _ Hok _ _ Hr) as [c Hc].
    destruct (mv_campaign _ _ Hm _ _ Hc) as (c' & Hc' & _). eauto.
  - intros id k1 r1 k2 r2 H1 H2.
    destruct (moves_back _ _ _ _ _ Hm H1) as (q1 & Q1 & _).
    destruct (moves_back _ _ _ _ _ Hm H2) as (q2 & Q2 & _). by eapply (lo_single _ Hok).
  - intros id k r' c' H1 Hc'. destruct (moves_back _ _ _ _ _ Hm H1) as (r & Hr & _).
    destruct (mv_campaigns _ _ Hm id (mk_is_Some _ _ Hc')) as [c Hc].
    eapply (mv_live _ _ Hm); [done|apply H1|done|done|]. by eapply (lo_live _ Hok).
  - intros id c' Hc'. destruct (mv_campaigns _ _ Hm id (mk_is_Some _ _ Hc')) as [c Hc].
    assert (Hlift : forall k r, live_run d id k r -> exists k r, live_run d' id k r).
    { intros k r (Hr & E1 & E2). destruct (mv_run _ _ Hm _ _ Hr) as (r' & Hr' & [(F1 & _ & _ & F2 & _) _]).
      exists k, r'. split_and!; congruence. }
    destruct (mv_campaign _ _ Hm _ _ Hc) as (c'' & Hc'' & _ & [Hs|(_ & k & r & Hr)]); [|eauto].
    assert (c'' = c') as -> by congruence. rewrite Hs.
    destruct (lo_launched _ Hok _ _ Hc) as [?|[?|(k & r & Hr)]]; eauto.
  - intros id c' Hc' Hdel. destruct (mv_campaigns _ _ Hm id (mk_is_Some _ _ Hc')) as [c Hc].
    destruct (mv_campaign _ _ Hm _ _ Hc) as (c'' & Hc'' & Hd & Hs).
    assert (c'' = c') as -> by congruence. rewrite Hd in Hdel.
    destruct (lo_deleted _ Hok _ _ Hc Hdel) as [Hst Hruns]. split.
    + destruct Hs as [->|[Hn _]]; [done|]. rewrite Hn in Hdel. by destruct Hdel.
    + intros k r' Hr' E. destruct (mv_runs _ _ Hm k (mk_is_Some _ _ Hr')) as [r Hr].
      destruct (mv_run _ _ Hm _ _ Hr) as (r'' & Hr'' & [(E1 & _) Hedge]).
      assert (r'' = r') as -> by congruence.
      assert (Ht : terminal (cr_status r) = true) by (eapply Hruns; [done|congruence]).
      by rewrite (run_edge_terminal _ _ Hedge Ht).
Qed.

(** *** Moves, one shape of statement at a time *)

Lemma run_edge_refl s : run_edge s s = true.
Proof. unfold run_edge. by rewrite bool_decide_true. Qed.

Lemma run_kept_refl r : run_kept r r.
Proof. split; [done|apply run_edge_refl]. Qed.

Lemma fmap_same {A} (o : option A) : o = (fun x => x) <$> o.
Proof. by destruct o. Qed.

Definition settled (c : campaign) : Prop :=
  c_status c = CampaignStatus.DRAFT \/ c_status c = CampaignStatus.ARCHIVED.

Lemma moves_intro d d' (f : uuid -> campaign_run -> campaign_run) (g : uuid -> campaign -> campaign) :
  life_ok d ->
  (forall k, campaign_runs d' !! k = f k <$> campaign_runs d !! k) ->
  (forall id, campaigns d' !! id = g id <$> campaigns d !! id) ->
  (forall k r, campaign_runs d !! k = Some r -> run_kept r (f k r)) ->
  (forall id c, campaigns d !! id = Some c -> c_deleted_at (g id c) = c_deleted_at c /\
     (c_status (g id c) = c_status c \/ ~ settled c)) ->
  (forall id k r c, live_run d id k r -> campaigns d !! id = Some c ->
     live_ok (cr_status r) (c_status c) = true ->
     live_ok (cr_status (f k r)) (c_status (g id c)) = true) ->
  moves d d'.
Proof.
  intros Hok Hf Hg Hkept Hc Hlive. split.
  - intros id. by rewrite Hg, fmap_is_Some.
  - intros id c E. exists (g id c). rewrite Hg, E. destruct (Hc _ _ E) as [Hd Hs].
    split_and!; [done|done|]. destruct Hs as [Hs|Hs]; [by left|right].
    destruct (lo_launched _ Hok _ _ E) as [?|[?|Hrun]]; [destruct Hs; by left|destruct Hs; by right|].
    split; [|done]. destruct (c_deleted_at c) eqn:Ed; [|done].
    destruct (lo_deleted _ Hok _ _ E) as [Hset _]; [by rewrite Ed|]. by destruct Hs.
  - intros k. by rewrite Hf, fmap_is_Some.
  - intros k r E. exists (f k r). rewrite Hf, E. split; [done|]. by apply Hkept.
  - intros id k r r' c c' Hr Hr' E E' Hlo. rewrite Hf in Hr'. rewrite Hg, E in E'.
    pose proof Hr as (E0 & _). rewrite E0 in Hr'. cbn in *. simplify_eq. eauto.
Qed.

(** Only the runs move, to a status that fits the campaign as it is. *)
Lemma moves_runs d d' f :
  life_ok d -> campaigns d' = campaigns d ->
  (forall k, campaign_runs d' !! k = f k <$> campaign_runs d !! k) ->
  (forall k r, campaign_runs d !! k = Some r -> run_kept r (f k r) /\
     forall c, live_ok (cr_status r) c = true -> live_ok (cr_status (f k r)) c = true) ->
  moves d d'.
Proof.
  intros Hok Hc Hf Hk. eapply (moves_intro d d' f (fun _ c => c)); try done.
  - intros id. rewrite Hc. apply fmap_same.
  - intros k r Hr. by apply Hk.
  - intros id c _. split; [done|by left].
  - intros id k r c (Hr & _) _. by apply Hk.
Qed.

(** Only the campaigns move, keeping status and deletion mark. *)
Lemma moves_campaigns d d' g :
  life_ok d -> campaign_runs d' = campaign_runs d ->
  (forall id, campaigns d' !! id = g id <$> campaigns d !! id) ->
  (forall id c, campaigns d !! id = Some c ->
     c_deleted_at (g id c) = c_deleted_at c /\ c_status (g id c) = c_status c) ->
  moves d d'.
Proof.
  intros Hok Hr Hg Hk. eapply (moves_intro d d' (fun _ r => r) g); try done.
  - intros k. rewrite Hr. apply fmap_same.
  - intros k r _. apply run_kept_refl.
  - intros id c E. destruct (Hk _ _ E). by auto.
  - intros id k r c _ E. destruct (Hk _ _ E) as [_ ->]. done.
Qed.

(** The status of a campaign after [set_campaign_status] *)
Definition moved_status (from : list CampaignStatus.t) (to s : CampaignStatus.t) : CampaignStatus.t :=
  if mem s from then to else s.

Lemma lookup_set_status now id from to d x :
  campaigns (set_campaign_status now id from to d) !! x =
    (fun c => if bool_decide (x = id) && mem (c_status c) from
              then c <| c_status := to |> <| c_updated_at := now |> else c) <$> campaigns d !! x.
Proof. unfold set_campaign_status. cbn. apply lookup_update_row. Qed.

(** One run moves and, when it is LIVE, its campaign with it. *)
Lemma moves_one now d d' k0 r0 r1 from to :
  life_ok d -> campaign_runs d !! k0 = Some r0 ->
  campaign_runs d' = <[k0 := r1]> (campaign_runs d) ->
  campaigns d' = campaigns (with_campaign now r0 from to d) ->
  (forall s, mem s from = true -> s = CampaignStatus.ACTIVE \/ s = CampaignStatus.PAUSED) ->
  run_kept r0 r1 ->
  (forall s, live_ok (cr_status r0) s = true ->
     live_ok (cr_status r1) (moved_status from to s) = true) ->
  moves d d'.
Proof.
  intros Hok Hr0 Hruns Hcs Hfrom Hkept Hlive.
  set (touched id c := is_live r0 && (bool_decide (id = cr_campaign_id r0) && mem (c_status c) from)).
  eapply (moves_intro d d' (fun k r => if bool_decide (k = k0) then r1 else r)
    (fun id c => if touched id c then c <| c_status := to |> <| c_updated_at := now |> else c)); try done.
  - intros k. rewrite Hruns. case_bool_decide as Hk; subst.
    + by rewrite lookup_insert_eq, Hr0.
    + rewrite lookup_insert_ne by done. apply fmap_same.
  - intros id. rewrite Hcs. unfold with_campaign, touched. destruct (is_live r0); cbn.
    + apply lookup_set_status.
    + apply fmap_same.
  - intros k r Hr. case_bool_decide; [|apply run_kept_refl]. by simplify_eq.
  - intros id c _. destruct (touched id c) eqn:E; [|by auto]. cbn. split; [done|right].
    unfold touched in E. split_bool. intros [Hs|Hs]; rewrite Hs in *;
      by destruct (Hfrom _ ltac:(eassumption)).
  - intros id k r c Hr Hc Hlo. case_bool_decide as Hk; subst.
    + destruct Hr as (Hr & Hid & Hl). simplify_eq. specialize (Hlive _ Hlo).
      unfold touched, moved_status in *. unfold is_live.
      rewrite !bool_decide_true by done. cbn. by destruct (mem (c_status c) from).
    + destruct (touched id c) eqn:E; [|done]. unfold touched, is_live in E. split_bool.
      destruct Hk. eapply (lo_single _ Hok id); [exact Hr|]. by split_and!.
Qed.

(** A batch of runs moves; the campaigns [ids] are archived. *)
Lemma moves_batch now d d' f ids :
  life_ok d ->
  (forall k, campaign_runs d' !! k = f k <$> campaign_runs d !! k) ->
  (forall id, campaigns d' !! id = campaigns (archive_campaigns now ids d) !! id) ->
  (forall id, id ∈ ids -> exists k r, live_run d id k r /\ terminal (cr_status (f k r)) = true) ->
  (forall k r, campaign_runs d !! k = Some r -> run_kept r (f k r) /\
     (is_live r = true -> cr_campaign_id r ∉ ids ->
      forall s, live_ok (cr_status r) s = true -> live_ok (cr_status (f k r)) s = true) /\
     (terminal (cr_status r) = true -> f k r = r)) ->
  moves d d'.
Proof.
  intros Hok Hf Hg Hids Hk.
  set (touched id c := mem id ids && mem (c_status c) [CampaignStatus.ACTIVE; CampaignStatus.PAUSED]).
  eapply (moves_intro d d' f
    (fun id c => if touched id c
                 then c <| c_status := CampaignStatus.ARCHIVED |> <| c_updated_at := now |> else c)); try done.
  - intros id. rewrite Hg. unfold archive_campaigns. cbn. by rewrite lookup_update_where.
  - intros k r Hr. by apply Hk.
  - intros id c _. destruct (touched id c) eqn:E; [|by auto]. cbn. split; [done|right].
    unfold touched in E. split_bool. intros [Hs|Hs]; by rewrite Hs in *.
  - intros id k r c Hr Hc Hlo. pose proof Hr as (Er & Hid & Hl).
    destruct (Hk _ _ Er) as (_ & Hfit & Hterm).
    destruct (decide (id ∈ ids)) as [Hin|Hout].
    + destruct (Hids _ Hin) as (k1 & r1 & Hr1 & Ht).
      assert (k1 = k) as -> by (eapply (lo_single _ Hok); eauto).
      assert (r1 = r) as -> by (destruct Hr1 as (? & _); congruence).
      unfold touched. apply mem_true in Hin. rewrite Hin. cbn.
      destruct (terminal (cr_status r)) eqn:Etr.
      * rewrite (Hterm eq_refl).
        destruct (mem (c_status c) _) eqn:Em; [|done].
        destruct (cr_status r), (c_status c); done.
      * destruct (mem (c_status c) _) eqn:Em; cbn.
        { by destruct (cr_status (f k r)). }
        { destruct (cr_status r), (c_status c); done. }
    + unfold touched. pose proof Hout as Hm. apply mem_false in Hm. rewrite Hm. cbn.
      apply Hfit; [by apply bool_decide_true|by rewrite Hid|done].
Qed.

(** *** Each statement *)

Lemma moves_same d d' : life_ok d -> campaigns d' = campaigns d ->
  campaign_runs d' = campaign_runs d -> moves d d'.
Proof.
  intros Hok Hc Hr. eapply (moves_runs d d' (fun _ r => r)); try done.
  - intros k. rewrite Hr. apply fmap_same.
  - intros k r _. split; [apply run_kept_refl|done].
Qed.

(** A row update of one run that keeps its campaign fitting *)
Lemma moves_update_row d k0 (W : campaign_run -> bool) f t :
  life_ok d -> t = (update_row k0 W f (campaign_runs d)).2 ->
  (forall r, W r = true -> run_kept r (f r) /\
     forall c, live_ok (cr_status r) c = true -> live_ok (cr_status (f r)) c = true) ->
  moves d (d <| campaign_runs := t |>).
Proof.
  intros Hok -> Hf. eapply (moves_runs d _ (fun k r => if bool_decide (k = k0) && W r then f r else r)); try done.
  - intros k. apply lookup_update_row.
  - intros k r _. destruct (bool_decide (k = k0) && W r) eqn:E.
    + split_bool. by apply Hf.
    + split; [apply run_kept_refl|done].
Qed.

Lemma moves_update_where d (P : uuid -> campaign_run -> bool) f :
  life_ok d ->
  (forall k r, P k r = true -> run_kept r (f r) /\
     forall c, live_ok (cr_status r) c = true -> live_ok (cr_status (f r)) c = true) ->
  moves d (d <| campaign_runs := update_where P f (campaign_runs d) |>).
Proof.
  intros Hok Hf. eapply (moves_runs d _ (fun k r => if P k r then f r else r)); try done.
  - intros k. apply lookup_update_where.
  - intros k r _. destruct (P k r) eqn:E; [by apply (Hf k)|]. split; [apply run_kept_refl|done].
Qed.

(** [run_kept] of an update, with the status of the row known *)
Ltac kept :=
  match goal with |- run_kept ?r ?r' => split; [unfold same_snapshot; cbn; by split_and!|cbn] end;
  first [apply run_edge_refl
        | match goal with E : cr_status ?r = _ |- _ => rewrite E end; reflexivity].

Lemma claim_moves now token id d : life_ok d -> moves d (claimPreparation now token id d).2.
Proof.
  intros Hok. unfold claimPreparation. destruct (update_row _ _ _ _) as [r t] eqn:E.
  eapply moves_update_row; [done|by rewrite E|]. intros q _. split; [kept|done].
Qed.

Lemma activate_moves now d : life_ok d -> moves d (activateDue now d).2.
Proof.
  intros Hok. apply moves_update_where; [done|]. intros k r HP. unfold due_run in HP. split_bool.
  split; [kept|]. intros c. cbn. match goal with E : cr_status ?q = _ |- _ => rewrite E end. by destruct c.
Qed.

Lemma blocked_moves now id report d : life_ok d -> moves d (recordBlockedResume now id report d).
Proof.
  intros Hok. eapply moves_update_row; [done|done|]. intros r HW.
  apply mem_true in HW. repeat (apply elem_of_cons in HW as [E|HW]); [| |by apply elem_of_nil in HW];
    (split; [kept|]); intros c; cbn; rewrite E; by destruct c.
Qed.

Lemma set_campaign_runs now id from to d :
  campaign_runs (set_campaign_status now id from to d) = campaign_runs d.
Proof. done. Qed.

Lemma with_campaign_runs now r from to d :
  campaign_runs (with_campaign now r from to d) = campaign_runs d.
Proof. unfold with_campaign. by destruct (is_live r). Qed.

Lemma with_campaign_eq now r r' from to d d' :
  campaigns d' = campaigns d -> cr_campaign_id r' = cr_campaign_id r ->
  cr_execution_mode r' = cr_execution_mode r ->
  campaigns (with_campaign now r' from to d') = campaigns (with_campaign now r from to d).
Proof.
  intros E E1 E2. unfold with_campaign, is_live. rewrite E2, E1. destruct (bool_decide _); [|done].
  unfold set_campaign_status. cbn. by rewrite E.
Qed.

Lemma active_from s : mem s [CampaignStatus.ACTIVE] = true ->
  s = CampaignStatus.ACTIVE \/ s = CampaignStatus.PAUSED.
Proof. destruct s; vm_compute; auto; discriminate. Qed.

Lemma paused_from s : mem s [CampaignStatus.PAUSED] = true ->
  s = CampaignStatus.ACTIVE \/ s = CampaignStatus.PAUSED.
Proof. destruct s; vm_compute; auto; discriminate. Qed.

Lemma open_from s : mem s [CampaignStatus.ACTIVE; CampaignStatus.PAUSED] = true ->
  s = CampaignStatus.ACTIVE \/ s = CampaignStatus.PAUSED.
Proof. destruct s; vm_compute; auto; discriminate. Qed.

Lemma pause_moves now id d : life_ok d -> moves d (pause now id d).2.
Proof.
  intros Hok. unfold pause. destruct (update_row _ _ _ _) as [[r|] t] eqn:E; cbv zeta; cbn [snd].
  - apply update_row_Some in E as (q & Hq & HW & -> & ->).
    eapply (moves_one now d _ id q _ [CampaignStatus.ACTIVE] CampaignStatus.PAUSED);
      [done|done|by rewrite with_campaign_runs|by apply with_campaign_eq|apply active_from| |].
    + destruct (cr_status q) eqn:Es; vm_compute in HW; try discriminate HW; kept.
    + intros s Hs. cbn. destruct (cr_status q); vm_compute in HW; try discriminate HW; by destruct s.
  - apply update_row_None in E as [-> _]. by apply moves_same.
Qed.

Lemma fail_moves now id token e d : life_ok d -> moves d (failPreparationAttempt now id token e d).2.
Proof.
  intros Hok. unfold failPreparationAttempt.
  destruct (update_row _ _ _ _) as [[r|] t] eqn:E; cbn [snd].
  - apply update_row_Some in E as (q & Hq & HW & -> & ->). unfold owned in HW. split_bool.
    assert (Hs : cr_status (fail_row now e q) =
      if exhausted q then RunStatus.FAILED else RunStatus.PREPARING) by done.
    rewrite Hs. destruct (exhausted q) eqn:Ex.
    + rewrite bool_decide_true by done. cbn [snd].
      assert (Hl : is_live (fail_row now e q) = is_live q) by done. rewrite Hl.
      eapply (moves_one now d _ id q (fail_row now e q) [CampaignStatus.ACTIVE; CampaignStatus.PAUSED]
        CampaignStatus.ARCHIVED); [done|exact Hq| | |apply open_from| |].
      * by destruct (is_live q).
      * unfold with_campaign. by destruct (is_live q).
      * split; [by split_and!|]. rewrite Hs. by match goal with H : cr_status q = _ |- _ => rewrite H end.
      * intros s. rewrite Hs. match goal with H : cr_status q = _ |- _ => rewrite H end. by destruct s.
    + rewrite bool_decide_false by done. cbn [snd].
      apply (moves_runs d _ (fun k r => if bool_decide (k = id) then fail_row now e q else r));
        [done|done| |].
      * intros k. cbn. case_bool_decide; subst; [by rewrite lookup_insert_eq, Hq|].
        rewrite lookup_insert_ne by done. apply fmap_same.
      * intros k r Hr. case_bool_decide; [|split; [apply run_kept_refl|done]].
        simplify_eq. unfold run_kept. rewrite Hs.
        match goal with H : cr_status q = _ |- _ => rewrite H end. by split.
  - apply update_row_None in E as [-> _]. by apply moves_same.
Qed.

(** A row update whose row is not returned *)
Lemma moves_update_run d d' k0 r0 f :
  life_ok d -> campaign_runs d !! k0 = Some r0 -> campaigns d' = campaigns d ->
  campaign_runs d' = campaign_runs (update_run k0 f d) -> run_kept r0 (f r0) ->
  (forall c, live_ok (cr_status r0) c = true -> live_ok (cr_status (f r0)) c = true) ->
  moves d d'.
Proof.
  intros Hok Hr0 Hc Hruns Hkept Hfit.
  apply (moves_runs d d' (fun k r => if bool_decide (k = k0) then f r else r)); [done|done| |].
  - intros k. rewrite Hruns. unfold update_run. cbn. rewrite lookup_update_row.
    apply option_fmap_ext. intros r. by rewrite andb_true_r.
  - intros k r Hr. case_bool_decide; [|split; [apply run_kept_refl|done]]. by simplify_eq.
Qed.

Lemma apply_moves now ids id token report observed d :
  life_ok d -> moves d (applyPreflight now ids id token report observed d).2.
Proof.
  intros Hok. unfold applyPreflight.
  destruct (campaign_runs d !! id) as [r|] eqn:Hr; [|by apply moves_same].
  destruct (owned now token r) eqn:Ho; cbn [negb]; [|by apply moves_same].
  unfold owned in Ho. split_bool.
  repeat case_match; cbn [snd];
    (eapply moves_update_run; [done|exact Hr|done|reflexivity| |]); try kept.
  all: try (intros c; cbn; match goal with E : cr_status ?q = _ |- _ => rewrite E end; by destruct c).
  all: unfold start_row, drop_lease, set_report; cbn; destruct (_ <=? _)%Z; try kept.
  all: intros c; match goal with E : cr_status ?q = _ |- _ => rewrite E end; by destruct c.
Qed.

Lemma update_run_insert k f d r : campaign_runs d !! k = Some r ->
  campaign_runs (update_run k f d) = <[k := f r]> (campaign_runs d).
Proof. intros Hr. unfold update_run, update_row. cbn. by rewrite Hr. Qed.

Lemma resume_moves now ids id report observed d :
  life_ok d -> moves d (resume now ids id report observed d).2.
Proof.
  intros Hok. unfold resume.
  destruct (campaign_runs d !! id) as [r|] eqn:Hr; [|by apply moves_same].
  destruct (mem (cr_status r) _) eqn:Hm; cbn [negb]; [|by apply moves_same].
  destruct (capabilitySnapshotChanged _ _ _); [by apply moves_same|]. cbv zeta. cbn [snd].
  eapply (moves_one now d _ id r (resume_row now report r) [CampaignStatus.PAUSED] CampaignStatus.ACTIVE);
    [done|done| |by apply with_campaign_eq|apply paused_from| |].
  - rewrite with_campaign_runs. etransitivity; [by apply update_run_insert|done].
  - apply mem_true in Hm. unfold resume_row, set_report.
    repeat (apply elem_of_cons in Hm as [E|Hm]); [| |by apply elem_of_nil in Hm];
      destruct (now <? _)%Z; kept.
  - intros s. unfold resume_row, set_report. cbn. apply mem_true in Hm.
    repeat (apply elem_of_cons in Hm as [E|Hm]); [| |by apply elem_of_nil in Hm];
      rewrite E; destruct (now <? _)%Z; by destruct s.
Qed.

Lemma cancel_moves now ids id d : life_ok d -> moves d (cancel now ids id d).2.
Proof.
  intros Hok. unfold cancel.
  destruct (campaign_runs d !! id) as [r|] eqn:Hr; [|by apply moves_same].
  destruct (mem (cr_status r) _) eqn:Hm; cbn [negb]; [|by apply moves_same]. cbv zeta. cbn [snd].
  eapply (moves_one now d _ id r (cancel_row now r) [CampaignStatus.ACTIVE; CampaignStatus.PAUSED]
    CampaignStatus.ARCHIVED); [done|done| |by apply with_campaign_eq|apply open_from| |].
  - rewrite with_campaign_runs. etransitivity; [by apply update_run_insert|done].
  - destruct (cr_status r) eqn:E; try discriminate Hm; kept.
  - intros s. cbn. destruct (cr_status r); try discriminate Hm; by destruct s.
Qed.

(** Runs that end in a batch: their LIVE ones take their campaigns along. *)
Lemma recover_moves now d : life_ok d -> moves d (recoverExpiredPreparations now d).2.
Proof.
  intros Hok. unfold recoverExpiredPreparations. cbn [snd].
  set (failed := select_where _ _).
  eapply (moves_batch now d _ (fun k r => if stalled now k r then recover_row now r else r));
    [done| |done| |].
  - intros k. apply lookup_update_where.
  - intros id Hid. apply list_elem_of_fmap in Hid as ([k r] & -> & Hin).
    apply select_where_elem in Hin as [Hr HP]. split_bool. exists k, r. cbn in *. split.
    + split_and!; [done|done|]. by eapply bool_decide_eq_true_1.
    + match goal with E : stalled _ _ _ = true |- _ => rewrite E end.
      unfold recover_row. cbn. by match goal with E : exhausted _ = true |- _ => rewrite E end.
  - intros k r Hr. destruct (stalled now k r) eqn:Est.
    2:{ split; [apply run_kept_refl|done]. }
    assert (Hs : cr_status r = RunStatus.PREPARING).
    { unfold stalled in Est. apply andb_true_iff in Est as [Es _]. by apply bool_decide_eq_true in Es. }
    split_and!.
    + split; [by split_and!|]. unfold recover_row. cbn. rewrite Hs. by destruct (exhausted r).
    + intros Hl Hout s. unfold recover_row. cbn. rewrite Hs.
      destruct (exhausted r) eqn:Ex; [|done]. destruct Hout.
      apply list_elem_of_fmap. exists (k, r). split; [done|].
      apply select_where_elem. by rewrite Est, Hl, Ex.
    + by rewrite Hs.
Qed.

Lemma finalize_moves now limit d : life_ok d -> moves d (finalize now limit d).2.
Proof.
  intros Hok. unfold finalize. cbv zeta. cbn [snd].
  set (rows := take _ _).
  assert (Hrows : forall k r, (k, r) ∈ rows -> campaign_runs d !! k = Some r /\ cr_status r = RunStatus.RUNNING).
  { intros k r Hin. apply take_elem, order_by_elem, select_where_elem in Hin as [Hr HP].
    split; [done|]. unfold finalizable in HP. by split_bool. }
  eapply (moves_batch now d _ (fun k r => if mem k rows.*1 then final_row now (has_failure k d) r else r));
    [done| |done| |].
  - intros k. cbn. rewrite map_lookup_imap. by destruct (campaign_runs d !! k).
  - intros id Hid. apply list_elem_of_fmap in Hid as ([k r] & -> & Hin).
    apply list_elem_of_In, filter_In in Hin as [Hin Hl]. apply list_elem_of_In in Hin.
    destruct (Hrows _ _ Hin) as [Hr Hs]. exists k, r. split.
    + split_and!; [done|done|]. by apply bool_decide_eq_true in Hl.
    + assert (mem k rows.*1 = true) as -> by (apply mem_true, list_elem_of_fmap; by exists (k, r)).
      unfold final_row. cbn. by destruct (has_failure k d).
  - intros k r Hr. destruct (mem k rows.*1) eqn:Em.
    2:{ split; [apply run_kept_refl|done]. }
    apply mem_true, list_elem_of_fmap in Em as ([k' r'] & -> & Hin).
    pose proof (Hrows _ _ Hin) as [Hr' Hs]. cbn in Hr. simplify_eq.
    split_and!.
    + split; [by split_and!|]. unfold final_row. cbn. rewrite Hs. by destruct (has_failure k' d).
    + intros Hl Hout. destruct Hout. apply list_elem_of_fmap. exists (k', r). split; [done|].
      apply list_elem_of_In, filter_In. split; [by apply list_elem_of_In|done].
    + by rewrite Hs.
Qed.

(** The loop of [materializePending] leaves campaigns and runs alone. *)
Lemma materialize_tables now new_id id r changed ks : forall nd,
  campaigns (foldl (materialize sha256 to_iso uuid_text now new_id id r changed) nd ks).2 = campaigns nd.2 /\
  campaign_runs (foldl (materialize sha256 to_iso uuid_text now new_id id r changed) nd ks).2 = campaign_runs nd.2.
Proof.
  induction ks as [|k ks IH]; intros [n d]; [done|]. cbn [foldl].
  destruct (IH (materialize sha256 to_iso uuid_text now new_id id r changed (n, d) k)) as [-> ->].
  unfold materialize. destruct (is_live r && _); [done|].
  unfold Repo.create. repeat case_match; simplify_eq; done.
Qed.

Lemma materialize_moves now locked new_id id buffered d :
  life_ok d -> moves d (materializePending sha256 to_iso uuid_text now locked new_id id buffered d).2.
Proof.
  intros Hok. unfold materializePending.
  destruct (campaign_runs d !! id) as [r|] eqn:Hr; [|by apply moves_same].
  case_bool_decide as Hs; cbn [negb]; [|by apply moves_same].
  destruct (is_live r && _) eqn:Hl; cbv zeta; cbn [snd].
  - apply andb_true_iff in Hl as [Hl _].
    eapply (moves_one now d _ id r (r <| cr_status := RunStatus.PAUSED |>
      <| cr_status_reason := Some "SESSION_NOT_SENDABLE" |> <| cr_updated_at := now |>)
      [CampaignStatus.ACTIVE] CampaignStatus.PAUSED); [done|done| | |apply active_from| |].
    + rewrite set_campaign_runs. by rewrite (update_run_insert _ _ _ _ Hr).
    + unfold with_campaign. by rewrite Hl.
    + kept.
    + intros s. rewrite Hs. by destruct s.
  - destruct (Nat.eqb _ _); [by apply moves_same|]. apply moves_same; [done| |]; apply materialize_tables.
Qed.

(** The edits of a campaign's definition *)
Lemma insert_moves d d' id c c' :
  life_ok d -> campaigns d !! id = Some c -> campaign_runs d' = campaign_runs d ->
  campaigns d' = <[id := c']> (campaigns d) ->
  c_deleted_at c' = c_deleted_at c -> c_status c' = c_status c -> moves d d'.
Proof.
  intros Hok Hc Hr Hcs Hd Hs.
  apply (moves_campaigns d d' (fun x q => if bool_decide (x = id) then c' else q)); [done|done| |].
  - intros x. rewrite Hcs. case_bool_decide; subst; [by rewrite lookup_insert_eq, Hc|].
    rewrite lookup_insert_ne by done. apply fmap_same.
  - intros x q Hq. case_bool_decide; [|done]. by simplify_eq.
Qed.

Lemma update_moves now id i rev d : life_ok d -> moves d (CampaignRepo.update now id i rev d).2.
Proof.
  intros Hok. unfold CampaignRepo.update. destruct (update_row _ _ _ _) as [[c|] t] eqn:E; cbn [snd].
  - apply update_row_Some in E as (q & Hq & _ & -> & ->). by eapply insert_moves.
  - apply update_row_None in E as [-> _]. by apply moves_same.
Qed.

Lemma find_active id d c : CampaignRepo.find id false d = Some c ->
  campaigns d !! id = Some c /\ c_deleted_at c = None.
Proof.
  unfold CampaignRepo.find. destruct (campaigns d !! id) as [q|]; [|done]. cbn.
  destruct (c_deleted_at q) eqn:E; cbn; [done|]. by intros [= ->].
Qed.

Lemma targets_moves now id ids rev d : life_ok d -> moves d (CampaignRepo.replaceTargets now id ids rev d).2.
Proof.
  intros Hok. unfold CampaignRepo.replaceTargets.
  destruct (CampaignRepo.find id false d) as [c|] eqn:E; [|by apply moves_same].
  apply find_active in E as [Hc _].
  repeat case_match; try (by apply moves_same). cbn [snd]. by eapply insert_moves.
Qed.

Lemma apply_list_moves now id list rev mrev d :
  life_ok d -> moves d (CampaignRepo.applyGroupListTargets now id list rev mrev d).2.
Proof.
  intros Hok. unfold CampaignRepo.applyGroupListTargets.
  destruct (CampaignRepo.find id false d) as [c|] eqn:E; [|by apply moves_same].
  apply find_active in E as [Hc _].
  destruct (GroupListRepo.lockMembershipSnapshot list d) as [s|].
  2:{ repeat case_match; by apply moves_same. }
  repeat (case_match; try (by apply moves_same)); cbn [snd]; by eapply insert_moves.
Qed.

(** *** The statements that add or remove rows *)

Lemma create_campaign_ok now new_id i d :
  campaigns d !! new_id = None -> life_ok d -> life_ok (CampaignRepo.create now new_id i d).2.
Proof.
  intros Hnew Hok. unfold CampaignRepo.create.
  destruct (find_where _ _) as [[id c]|]; [done|]. cbn [snd]. split; cbn.
  - intros k r Hr. destruct (lo_owner _ Hok _ _ Hr) as [c Hc]. exists c.
    rewrite lookup_insert_ne; [done|]. congruence.
  - intros id k1 r1 k2 r2. apply (lo_single _ Hok).
  - intros id k r c Hr. destruct (decide (id = new_id)) as [->|Hne].
    + destruct Hr as (Hr & Hid & _). destruct (lo_owner _ Hok _ _ Hr) as [c' Hc']. congruence.
    + rewrite lookup_insert_ne by done. by eapply (lo_live _ Hok).
  - intros id c. destruct (decide (id = new_id)) as [->|Hne].
    + rewrite lookup_insert_eq. intros [= <-]. by left.
    + rewrite lookup_insert_ne by done. apply (lo_launched _ Hok).
  - intros id c. destruct (decide (id = new_id)) as [->|Hne].
    + rewrite lookup_insert_eq. intros [= <-]. cbn. by intros [? ?].
    + rewrite lookup_insert_ne by done. apply (lo_deleted _ Hok).
Qed.

(** A campaign's deletion mark and revision may change while it has no open run. *)
Lemma delete_campaign_ok now id allowed rev trev d :
  life_ok d -> life_ok (CampaignRepo.delete now id allowed rev trev d).2.
Proof.
  intros Hok. unfold CampaignRepo.delete.
  destruct (campaigns d !! id) as [c|] eqn:Hc; [|done].
  repeat (case_match; try done). cbn [snd].
  match goal with H : exists_where _ _ = false |- _ => rename H into Hruns end.
  match goal with H : negb (mem (c_status c) _) = false |- _ => rename H into Hst end.
  rewrite exists_where_false in Hruns.
  set (c' := c <| c_deleted_at := Some now |> <| c_revision := (c_revision c + 1)%Z |> <| c_updated_at := now |>).
  assert (Hlk : forall x q, <[id := c']> (campaigns d) !! x = Some q ->
    exists q0, campaigns d !! x = Some q0 /\ c_status q = c_status q0 /\ (x <> id -> q = q0)).
  { intros x q. destruct (decide (x = id)) as [->|Hne].
    - rewrite lookup_insert_eq. intros [= <-]. by exists c.
    - rewrite lookup_insert_ne by done. intros Hq. by exists q. }
  split; cbn.
  - intros k r Hr. destruct (lo_owner _ Hok _ _ Hr) as [q Hq].
    destruct (decide (cr_campaign_id r = id)) as [->|Hne]; [rewrite lookup_insert_eq; eauto|].
    rewrite lookup_insert_ne by done. eauto.
  - intros x k1 r1 k2 r2. apply (lo_single _ Hok).
  - intros x k r q Hr (q0 & Hq0 & -> & _)%Hlk. by eapply (lo_live _ Hok).
  - intros x q (q0 & Hq0 & -> & _)%Hlk. by apply (lo_launched _ Hok).
  - intros x q Hq Hdel. apply Hlk in Hq as (q0 & Hq0 & -> & Hsame).
    destruct (decide (x = id)) as [->|Hne].
    + assert (q0 = c) as -> by congruence. split.
      * apply negb_false_iff in Hst. by destruct (c_status c); [left|discriminate|discriminate|right].
      * intros k r Hr Hid. specialize (Hruns _ _ Hr). unfold CampaignRepo.active_run in Hruns.
        rewrite bool_decide_true in Hruns by done. by destruct (cr_status r).
    + rewrite (Hsame Hne) in Hdel. by eapply (lo_deleted _ Hok).
Qed.

(** A launch adds one run of a campaign that has no LIVE one; a LIVE run activates it. *)
Lemma add_run_ok now d d' k r c :
  life_ok d -> campaign_runs d !! k = None -> campaigns d !! cr_campaign_id r = Some c ->
  c_deleted_at c = None -> c_status c = CampaignStatus.DRAFT ->
  has_live (cr_campaign_id r) d = false -> cr_status r = RunStatus.PREPARING ->
  campaign_runs d' = <[k := r]> (campaign_runs d) ->
  campaigns d' = campaigns (with_campaign now r [CampaignStatus.DRAFT] CampaignStatus.ACTIVE d) ->
  life_ok d'.
Proof.
  intros Hok Hnew Hc Hdel Hst Hnone Hprep Hruns Hcs.
  unfold has_live in Hnone. rewrite exists_where_false in Hnone.
  assert (Hone : forall k' r', campaign_runs d !! k' = Some r' -> cr_campaign_id r' = cr_campaign_id r ->
    cr_execution_mode r' = Mode.LIVE -> False).
  { intros k' r' Hr' Hid Hl. specialize (Hnone _ _ Hr'). unfold is_live in Hnone.
    rewrite !bool_decide_true in Hnone by done. done. }
  set (g x c := if is_live r && bool_decide (x = cr_campaign_id r) && bool_decide (c_status c = CampaignStatus.DRAFT)
                then c <| c_status := CampaignStatus.ACTIVE |> <| c_updated_at := now |> else c).
  assert (Hlk : forall x, campaigns d' !! x = g x <$> campaigns d !! x).
  { intros x. rewrite Hcs. unfold with_campaign, g. destruct (is_live r); cbn [andb]; [|apply fmap_same].
    rewrite lookup_set_status. apply option_fmap_ext. intros q. unfold mem. cbn. by rewrite orb_false_r. }
  assert (Hback : forall x q, campaigns d' !! x = Some q -> exists q0, campaigns d !! x = Some q0 /\ q = g x q0).
  { intros x q. rewrite Hlk. destruct (campaigns d !! x) as [q0|]; [|done]. intros [= <-]. by exists q0. }
  assert (Hrun : forall k' r', campaign_runs d' !! k' = Some r' ->
    k' = k /\ r' = r \/ k' <> k /\ campaign_runs d !! k' = Some r').
  { intros k' r'. rewrite Hruns, lookup_insert_Some. intros [[<- <-]|[? ?]]; [by left|right]. by split. }
  assert (Hother : forall x q, x <> cr_campaign_id r -> g x q = q).
  { intros x q Hne. unfold g. by rewrite (bool_decide_false (x = _)), andb_false_r by done. }
  split.
  - intros k' r' [[-> ->]|[_ Hr]]%Hrun; rewrite Hlk, fmap_is_Some; [eauto|by eapply (lo_owner _ Hok)].
  - intros x k1 r1 k2 r2 (H1 & I1 & L1) (H2 & I2 & L2).
    apply Hrun in H1 as [[-> ->]|[_ H1]]; apply Hrun in H2 as [[-> ->]|[_ H2]];
      [done| | |by eapply (lo_single _ Hok x)]; exfalso;
      [eapply (Hone k2); [exact H2|congruence|done]|eapply (Hone k1); [exact H1|congruence|done]].
  - intros x k' r' q (Hr & Hid & Hl) (q0 & Hq0 & ->)%Hback.
    apply Hrun in Hr as [[-> ->]|[_ Hr]].
    + rewrite Hprep. assert (q0 = c) as -> by congruence. unfold g, is_live.
      by rewrite !bool_decide_true by done.
    + rewrite Hother; [by eapply (lo_live _ Hok)|]. intros ->. by eapply Hone.
  - intros x q (q0 & Hq0 & ->)%Hback.
    destruct (decide (x = cr_campaign_id r)) as [->|Hne].
    + assert (q0 = c) as -> by congruence. unfold g. destruct (is_live r) eqn:Hl; cbn [andb].
      * right. right. exists k, r. unfold live_run. rewrite Hruns, lookup_insert_eq.
        split_and!; [done|done|]. by apply bool_decide_eq_true in Hl.
      * by left.
    + rewrite Hother by done. destruct (lo_launched _ Hok _ _ Hq0) as [?|[?|(k' & r' & Hr & ? & ?)]]; [by auto|by auto|].
      right. right. exists k', r'. split_and!; [|done|done]. rewrite Hruns, lookup_insert_ne; congruence.
  - intros x q (q0 & Hq0 & ->)%Hback Hdq.
    destruct (decide (x = cr_campaign_id r)) as [->|Hne].
    + assert (q0 = c) as -> by congruence. exfalso. unfold g in Hdq.
      destruct (_ && _); cbn in Hdq; rewrite Hdel in Hdq; by destruct Hdq.
    + rewrite Hother in Hdq |- * by done. destruct (lo_deleted _ Hok _ _ Hq0 Hdq) as [? Hall].
      split; [done|]. intros k' r' [[-> ->]|[_ Hr]]%Hrun Hid; [congruence|by eapply Hall].
Qed.

Lemma create_run_ok now new_id i d :
  campaign_runs d !! new_id = None -> life_ok d -> life_ok (RunRepo.create now new_id i d).2.
Proof.
  intros Hnew Hok. unfold RunRepo.create.
  destruct (campaigns d !! ci_campaignId i) as [c|] eqn:Hc; [|done].
  destruct (c_deleted_at c) eqn:Hdel; cbn [is_null negb]; [done|].
  destruct (find_by_key _ _ _); [done|].
  destruct (has_live _ _) eqn:Hl; [done|]. destruct (_ || _); [done|].
  case_bool_decide as Hst; cbn [negb]; [|done]. destruct (_ && _); [done|].
  unfold launch. destruct (exists_where _ _); [done|]. cbv zeta. cbn [snd].
  set (at_ := match c_schedule_type c with ScheduleType.IMMEDIATE => now | _ => _ end). clearbody at_.
  apply (add_run_ok now d _ new_id (new_run now at_ i c) c); try done; unfold with_campaign, is_live; cbn;
    by case_bool_decide.
Qed.

(** Retention removes ended runs: their campaigns are archived already. *)
Lemma ended_terminal s : mem s Retention.ended = terminal s.
Proof. by destruct s. Qed.

Lemma retire_kept cutoff limit lr lj d k r :
  campaign_runs d !! k = Some r ->
  campaign_runs (Retention.batch cutoff limit lr lj d) !! k = Some r \/
  campaign_runs (Retention.batch cutoff limit lr lj d) !! k = None /\ terminal (cr_status r) = true.
Proof.
  intros Hr. rewrite Retention.batch_runs, lookup_delete_where, Hr.
  destruct (mem k _) eqn:Em; [right; split; [done|]|by left].
  apply mem_true, Retention.candidates_old in Em as (r' & Hr' & HP & _).
  rewrite Hr in Hr'. simplify_eq. by rewrite <- ended_terminal.
Qed.

Lemma retire_back cutoff limit lr lj d k r :
  campaign_runs (Retention.batch cutoff limit lr lj d) !! k = Some r -> campaign_runs d !! k = Some r.
Proof. rewrite Retention.batch_runs. by intros [? _]%delete_where_Some. Qed.

Lemma retire_ok cutoff limit lr lj d : life_ok d -> life_ok (Retention.batch cutoff limit lr lj d).
Proof.
  intros Hok. set (d' := Retention.batch cutoff limit lr lj d).
  assert (Hc : campaigns d' = campaigns d) by done.
  assert (Hb : forall id k r, live_run d' id k r -> live_run d id k r).
  { intros id k r (Hr & ? & ?). split_and!; [by apply retire_back in Hr|done|done]. }
  split; rewrite ?Hc.
  - intros k r Hr%retire_back. by eapply (lo_owner _ Hok).
  - intros id k1 r1 k2 r2 ?%Hb ?%Hb. by eapply (lo_single _ Hok).
  - intros id k r c ?%Hb. by eapply (lo_live _ Hok).
  - intros id c Hid. destruct (lo_launched _ Hok _ _ Hid) as [?|[?|(k & r & Hr)]]; [by auto|by auto|].
    destruct (retire_kept cutoff limit lr lj d k r (proj1 Hr)) as [Hk|[_ Ht]].
    + right. right. exists k, r. by destruct Hr as (_ & ? & ?).
    + right. left. pose proof (lo_live _ Hok _ _ _ _ Hr Hid) as Hl.
      destruct (cr_status r); try discriminate Ht; by apply bool_decide_eq_true in Hl.
  - intros id c Hid Hdel. destruct (lo_deleted _ Hok _ _ Hid Hdel) as [? Hall]. split; [done|].
    intros k r Hr%retire_back. by apply (Hall k).
Qed.

(** *** Every statement keeps the invariant *)

Lemma cstep_cases d d' : life_ok d -> cstep d d' -> moves d d' \/ life_ok d' /\
  (forall k r, campaign_runs d !! k = Some r -> campaign_runs d' !! k = Some r \/
     campaign_runs d' !! k = None /\ terminal (cr_status r) = true).
Proof.
  intros Hok Hst. destruct Hst.
  1: { right. split; [by apply create_campaign_ok|]. unfold CampaignRepo.create.
       intros k r Hr. destruct (find_where _ _) as [[? ?]|]; by left. }
  4: { right. split; [by apply delete_campaign_ok|]. intros k r Hr. left.
       unfold CampaignRepo.delete. by repeat case_match. }
  4: { right. split; [by apply create_run_ok|]. intros k r Hr. left. unfold RunRepo.create, launch.
       repeat case_match; try done; cbn; by rewrite lookup_insert_ne by congruence. }
  15: { right. split; [by apply retire_ok|]. intros k r. apply retire_kept. }
  all: left.
  - by apply update_moves.
  - by apply targets_moves.
  - by apply apply_list_moves.
  - by apply claim_moves.
  - by apply recover_moves.
  - by apply apply_moves.
  - by apply fail_moves.
  - by apply activate_moves.
  - by apply finalize_moves.
  - by apply pause_moves.
  - by apply blocked_moves.
  - by apply resume_moves.
  - by apply cancel_moves.
  - by apply materialize_moves.
  - by apply moves_same.
Qed.

Lemma cstep_ok d d' : life_ok d -> cstep d d' -> life_ok d'.
Proof. intros Hok [?|[? _]]%cstep_cases; [by eapply moves_life_ok|done|done]. Qed.

(** States reached by the statements from a database without campaigns *)
Definition started (d : db) : Prop := campaigns d = ∅ /\ campaign_runs d = ∅.
Definition lives (d : db) : Prop := exists d0, started d0 /\ rtc cstep d0 d.

Lemma started_ok d : started d -> life_ok d.
Proof.
  intros [Hc Hr]. split; rewrite ?Hc; unfold live_run; rewrite ?Hr.
  - intros k r. by rewrite lookup_empty.
  - intros id k1 r1 k2 r2 (H & _). by rewrite lookup_empty in H.
  - intros id k r c (H & _). by rewrite lookup_empty in H.
  - intros id c. by rewrite lookup_empty.
  - intros id c. by rewrite lookup_empty.
Qed.

Lemma lives_ok d : lives d -> life_ok d.
Proof.
  intros (d0 & H0%started_ok & Hs). induction Hs as [|x y z Hst _ IH]; [done|].
  apply IH. by eapply cstep_ok.
Qed.

(** *** What the audit finds *)

Lemma count_where_le_one {K V : Type} `{Countable K} (P : K -> V -> bool) (t : gmap K V) :
  (forall k1 v1 k2 v2, t !! k1 = Some v1 -> P k1 v1 = true -> t !! k2 = Some v2 -> P k2 v2 = true -> k1 = k2) ->
  (count_where P t <= 1)%Z.
Proof.
  intros Hu. unfold count_where. pose proof (select_where_NoDup P t) as Hnd.
  destruct (select_where P t) as [|[k1 v1] [|[k2 v2] l]] eqn:E; cbn; [lia|lia|].
  exfalso. cbn in Hnd. apply NoDup_cons in Hnd as [Hn _]. apply Hn.
  assert (H1 : (k1, v1) ∈ select_where P t) by (rewrite E; left).
  assert (H2 : (k2, v2) ∈ select_where P t) by (rewrite E; right; left).
  apply select_where_elem in H1 as [? ?], H2 as [? ?].
  assert (k1 = k2) as -> by eauto. left.
Qed.

Lemma live_of_true id k r d : campaign_runs d !! k = Some r -> live_of id k r = true -> live_run d id k r.
Proof. unfold live_of, is_live. intros Hr ?. split_bool. by split_and!. Qed.

Lemma live_run_of id k r d : live_run d id k r -> live_of id k r = true.
Proof. intros (_ & <- & E). unfold live_of, is_live. by rewrite !bool_decide_true by done. Qed.

Lemma has_live_in_true statuses id k r d :
  live_run d id k r -> mem (cr_status r) statuses = true -> has_live_in statuses id d = true.
Proof.
  intros Hr Hm. apply exists_where_true. exists k, r. split; [apply Hr|].
  by rewrite (live_run_of _ _ _ _ Hr), Hm.
Qed.

Lemma has_live_in_false statuses id d :
  (forall k r, live_run d id k r -> mem (cr_status r) statuses = false) -> has_live_in statuses id d = false.
Proof.
  intros Hall. apply exists_where_false. intros k r Hr.
  destruct (live_of id k r) eqn:E; [|done]. cbn. apply (Hall k r). by apply live_of_true.
Qed.

(** C7: the lifecycle never drifts.  In every state the statements reach, however
    they interleave, the audit of [auditLifecycle] counts nothing: no DRAFT campaign
    has a LIVE run, every ACTIVE one has an open LIVE run, every PAUSED one a PAUSED
    or BLOCKED one, no ARCHIVED one has an open LIVE run, and none has two. *)
Theorem lifecycle_never_drifts d (Hd : lives d) : auditLifecycle d = Drift 0 0 0 0 0.
Proof.
  apply lives_ok in Hd as Hok. unfold auditLifecycle.
  assert (Hone : forall id, (live_count id d <= 1)%Z).
  { intros id. apply count_where_le_one. intros k1 r1 k2 r2 H1 L1 H2 L2.
    eapply (lo_single _ Hok id); by apply live_of_true. }
  assert (Hzero : forall P, (forall id c, campaigns d !! id = Some c -> P id c = false) ->
    count_where P (campaigns d) = 0%Z) by (intros; by apply count_where_zero).
  f_equal; apply Hzero; intros id c Hc; clear Hzero; try (case_bool_decide as Hs; cbn; [|done]).
  - apply Z.ltb_ge. enough (live_count id d = 0%Z) by lia. apply count_where_zero. intros k r Hr.
    destruct (live_of id k r) eqn:E; [|done]. apply (live_of_true _ _ _ _ Hr) in E.
    pose proof (lo_live _ Hok _ _ _ _ E Hc) as Hl. rewrite Hs in Hl. by destruct (cr_status r).
  - apply negb_false_iff. destruct (lo_launched _ Hok _ _ Hc) as [E|[E|(k & r & Hr)]]; [congruence|congruence|].
    pose proof (lo_live _ Hok _ _ _ _ Hr Hc) as Hl. rewrite Hs in Hl.
    eapply has_live_in_true; [done|]. by destruct (cr_status r).
  - apply negb_false_iff. destruct (lo_launched _ Hok _ _ Hc) as [E|[E|(k & r & Hr)]]; [congruence|congruence|].
    pose proof (lo_live _ Hok _ _ _ _ Hr Hc) as Hl. rewrite Hs in Hl.
    eapply has_live_in_true; [done|]. by destruct (cr_status r).
  - apply has_live_in_false. intros k r Hr.
    pose proof (lo_live _ Hok _ _ _ _ Hr Hc) as Hl. rewrite Hs in Hl. by destruct (cr_status r).
  - by apply Z.ltb_ge.
Qed.


End Life.

(** *** A campaign, launched, prepared, paused, resumed and cancelled *)

Module Story.
Definition digest (s : string) : string := s.
Definition iso (s : string) : string := s.
Definition text_of (id : uuid) : string := pretty id.
Definition no_ids (g : string) : uuid := 50.

Definition group (r : Z) : gateway_group :=
  GatewayGroup "Team" (Some 3%Z) (Some false) (Some false) (Some false) true (Some 1%Z)
    Capability.ALLOWED CapabilityReason.SEND_ALLOWED (Some 1%Z) None r 0 0 None None None.

Definition d0 : db := empty_db
  <| gateway_sessions := <["s" := GatewaySession "ready" true None 0 0 0]> ∅ |>
  <| gateway_groups := <[("s", "g@g.us") := group 4]> ∅ |>.

Definition draft : db := (CampaignRepo.create 10 1
  (CampaignRepo.CreateInput "s" "Launch" "hello" ScheduleType.IMMEDIATE None 2 "h") d0).2.
Definition targeted : db := (CampaignRepo.replaceTargets 20 1 ["g@g.us"] 0 draft).2.
Definition launched : db := (RunRepo.create 30 9
  (CreateInput 1 "k" Mode.LIVE (Some 1%Z) (Some 1%Z)) targeted).2.
Definition claimed : db := (claimPreparation 40 77 9 launched).2.
Definition report : Preflight.report :=
  CampaignPreflight.evaluate (Config true ["s"] 0 5000) 50 Mode.LIVE "s" "hello"
    (run_targets_of 9 claimed) 1 1 claimed.
Definition running : db :=
  (applyPreflight 50 no_ids 9 77 report (run_targets_of 9 claimed) claimed).2.
Definition paused : db := (pause 60 9 running).2.
Definition cancelled : db := (cancel 70 no_ids 9 paused).2.

Abbreviation lives := (lives digest iso text_of).
Abbreviation cstep := (cstep digest iso text_of).

Lemma launched_lives : lives launched.
Proof.
  exists d0. split; [done|].
  apply (rtc_l _ _ draft); [by apply c_create|].
  apply (rtc_l _ _ targeted); [apply c_targets|].
  apply rtc_once. by apply r_create.
Qed.

Lemma lives_step d d' : lives d -> cstep d d' -> lives d'.
Proof. intros (d1 & H1 & Hr) Hs. exists d1. split; [done|]. by eapply rtc_r. Qed.

Lemma paused_lives : lives paused.
Proof.
  apply (lives_step running); [|apply r_pause]. apply (lives_step claimed); [|apply r_apply].
  apply (lives_step launched); [|apply r_claim]. apply launched_lives.
Qed.

Example story_statuses :
  map (fun d => (cr_status <$> campaign_runs d !! 9%positive, c_status <$> campaigns d !! 1%positive))
    [launched; running; paused; cancelled] =
  [(Some RunStatus.PREPARING, Some CampaignStatus.ACTIVE);
   (Some RunStatus.RUNNING, Some CampaignStatus.ACTIVE);
   (Some RunStatus.PAUSED, Some CampaignStatus.PAUSED);
   (Some RunStatus.CANCELLED, Some CampaignStatus.ARCHIVED)].
Proof. vm_compute. reflexivity. Qed.

Lemma lifecycle_never_drifts_witness :
  c_status <$> campaigns paused !! 1%positive = Some CampaignStatus.PAUSED /\
  auditLifecycle paused = Drift 0 0 0 0 0.
Proof.
  split; [by vm_compute|]. apply (lifecycle_never_drifts digest iso text_of paused paused_lives).
Defined.

Definition paused_row : campaign_run :=
  default (new_run 0 0 (CreateInput 1 "k" Mode.LIVE None None) (CampaignRepo.new_campaign 0
    (CampaignRepo.CreateInput "s" "" "" ScheduleType.IMMEDIATE None 2 "h"))) (campaign_runs paused !! 9%positive).


End Story.
End Life.
