(* ===== verification/CampaignVersions.v ===== *)
(** * Revisions name contents

    The optimistic locking of the service rests on one invariant: between two states
    with the same revision no statement has changed the content.  Here it is proved for
    every statement that writes campaigns, and so for every sequence of them. *)

From S2P Require Import Prelude Schema MessageJobs CampaignPreflight Campaigns CampaignRuns Retention CampaignLifecycle.

Module Versions.
Import Persistence RunRepo LifecycleRepo CampaignRepo.

(** [c'] is a later version of [c]: its session is [c]'s, its revisions have not gone
    back, and at the same revision it has the same content, at the same targets revision
    the same source *)
Record later (c c' : campaign) : Prop := Later {
  la_session : c_session_id c' = c_session_id c;
  la_revision : (c_revision c <= c_revision c')%Z;
  la_targets : (c_targets_revision c <= c_targets_revision c')%Z;
  la_content : c_revision c' = c_revision c -> content_of c' = content_of c;
  la_source : c_targets_revision c' = c_targets_revision c -> c_target_source c' = c_target_source c }.

#[export] Instance later_preorder : PreOrder later.
Proof.
  split; [by intros c; split|]. intros a b c [] []. split; try lia; try congruence.
  - intros E. rewrite la_content1, la_content0; [done|lia|lia].
  - intros E. rewrite la_source1, la_source0; [done|lia|lia].
Qed.

Definition versioned (t t' : gmap uuid campaign) : Prop :=
  forall id c, t !! id = Some c -> exists c', t' !! id = Some c' /\ later c c'.

#[export] Instance versioned_preorder : PreOrder versioned.
Proof.
  split; [by intros t id c Hc; exists c|]. intros a b t H1 H2 id c Hc.
  destruct (H1 id c Hc) as (c1 & Hc1 & L1). destruct (H2 id c1 Hc1) as (c2 & Hc2 & L2).
  exists c2. split; [done|by etrans].
Qed.

Lemma versioned_insert t id c c' : t !! id = Some c -> later c c' -> versioned t (<[id := c']> t).
Proof.
  intros Hc HL x q Hq. destruct (decide (x = id)) as [->|Hne].
  - exists c'. rewrite lookup_insert_eq. simplify_eq. done.
  - exists q. by rewrite lookup_insert_ne.
Qed.

Lemma versioned_row t id W f : (forall c, later c (f c)) -> versioned t (update_row id W f t).2.
Proof.
  intros Hf x c Hc. rewrite lookup_update_row, Hc. cbn. destruct (_ && _); eexists; split; [done|done|done|done].
Qed.

Lemma versioned_where t P f : (forall c, later c (f c)) -> versioned t (update_where P f t).
Proof.
  intros Hf x c Hc. rewrite lookup_update_where, Hc. cbn. destruct (P x c); eexists; split; [done|done|done|done].
Qed.

(** A change of status is no new version. *)
Lemma later_status c s now : later c (c <| c_status := s |> <| c_updated_at := now |>).
Proof. by split. Qed.

Lemma later_content now i c : later c (set_content now i c).
Proof.
  split; cbn; try done; unfold set_content; cbn; destruct (bool_decide_reflect (content_of c = i)) as [E|E];
    cbn; try lia; try done. intros _. rewrite E. by destruct i.
Qed.

Lemma later_targets now s c : later c (bump_targets now s c).
Proof. split; cbn; [done|lia|lia|done|lia]. Qed.

Lemma versioned_set_status now id from to d : versioned (campaigns d) (campaigns (set_campaign_status now id from to d)).
Proof. apply versioned_row. intros c. apply later_status. Qed.

Lemma versioned_archive now ids d : versioned (campaigns d) (campaigns (archive_campaigns now ids d)).
Proof. apply versioned_where. intros c. apply later_status. Qed.

Lemma versioned_with now r from to d : versioned (campaigns d) (campaigns (with_campaign now r from to d)).
Proof. unfold with_campaign. destruct (is_live r); [apply versioned_set_status|done]. Qed.

Lemma versioned_launch now new_id i c d : versioned (campaigns d) (campaigns (launch now new_id i c d).2).
Proof.
  unfold launch. destruct (exists_where _ _); [done|]. cbv zeta. cbn [snd].
  case_bool_decide; [|done]. by etrans; [|apply versioned_set_status].
Qed.

Lemma versioned_write now id c next s d : campaigns d !! id = Some c ->
  versioned (campaigns d) (campaigns (write_targets now id c next s d)).
Proof. intros Hc. eapply versioned_insert; [done|apply later_targets]. Qed.

Section Steps.
Variable sha256 to_iso : string -> string.
Variable uuid_text : uuid -> string.

Lemma versioned_materialize now locked new_id id buffered d :
  versioned (campaigns d)
    (campaigns (DeliveryRepo.materializePending sha256 to_iso uuid_text now locked new_id id buffered d).2).
Proof.
  unfold DeliveryRepo.materializePending. destruct (campaign_runs d !! id) as [r|]; [|done].
  case_bool_decide; cbn [negb]; [|done]. destruct (is_live r && _); cbv zeta; cbn [snd].
  - by etrans; [|apply versioned_set_status].
  - destruct (Nat.eqb _ _); [done|].
    by rewrite (proj1 (Life.materialize_tables sha256 to_iso uuid_text now new_id id r _ _ (0%Z, d))).
Qed.

(** Every statement that writes campaigns keeps versions apart. *)
Lemma cstep_versioned d d' : Life.cstep sha256 to_iso uuid_text d d' -> versioned (campaigns d) (campaigns d').
Proof.
  destruct 1.
  - unfold CampaignRepo.create. destruct (find_where _ _) as [[k c]|]; [done|]. cbn.
    intros x c Hc. exists c. split; [|done]. rewrite lookup_insert_ne; [done|]. by intros ->; simplify_eq.
  - unfold CampaignRepo.update. destruct (update_row _ _ _ _) as [row cs] eqn:E. cbn.
    change cs with (row, cs).2. rewrite <- E. apply versioned_row. intros c. apply later_content.
  - unfold CampaignRepo.replaceTargets. destruct (CampaignRepo.find id false d) as [c|] eqn:E; [|done].
    apply Life.find_active in E as [E _]. repeat case_match; try done; by apply versioned_write.
  - unfold CampaignRepo.applyGroupListTargets. destruct (CampaignRepo.find id false d) as [c|] eqn:E; [|done].
    apply Life.find_active in E as [E _]. repeat case_match; try done; by apply versioned_write.
  - unfold CampaignRepo.delete. destruct (campaigns d !! id) as [c|] eqn:E; [|done].
    repeat case_match; try done. cbn [snd campaigns]. eapply versioned_insert; [done|]. split; cbn; try done; lia.
  - unfold RunRepo.create. repeat case_match; try done; apply versioned_launch.
  - unfold claimPreparation. by destruct (update_row _ _ _ _).
  - unfold recoverExpiredPreparations. cbn [snd]. by etrans; [|apply versioned_archive].
  - unfold applyPreflight. repeat case_match; done.
  - unfold failPreparationAttempt. destruct (update_row _ _ _ _) as [row runs]. repeat case_match; try done.
    cbn [snd]. by etrans; [|apply versioned_set_status].
  - done.
  - unfold finalize. cbn [snd]. by etrans; [|apply versioned_archive].
  - unfold pause. destruct (update_row _ _ _ _) as [[r|] runs]; [|done]. cbv zeta. cbn [snd].
    by etrans; [|apply versioned_with].
  - done.
  - unfold resume. repeat case_match; try done. cbv zeta. cbn [snd]. by etrans; [|apply versioned_with].
  - unfold cancel. repeat case_match; try done. cbv zeta. cbn [snd].
    etrans; [|apply versioned_with]. unfold Repo.cancelJobs. done.
  - apply versioned_materialize.
  - unfold Retention.batch. done.
  - by rewrite H.
Qed.

Lemma csteps_versioned d d' : rtc (Life.cstep sha256 to_iso uuid_text) d d' -> versioned (campaigns d) (campaigns d').
Proof. induction 1; [done|]. etrans; [by apply cstep_versioned|done]. Qed.

(** A revision names one content.  However many statements lie between two states,
    whichever components and clients issued them, a campaign that has the same revision
    in both has the same name, text and schedule, one that has the same targets revision
    has the same recorded source, its revisions never go back and its session never
    changes. *)
Theorem revisions_name_contents d d' id c (Hd : rtc (Life.cstep sha256 to_iso uuid_text) d d')
    (Hc : campaigns d !! id = Some c) :
  exists c', campaigns d' !! id = Some c' /\ later c c'.
Proof. by apply (csteps_versioned d d' Hd). Qed.
End Steps.

(** A draft, its targets replaced, launched: the content stays at revision 1. *)
Lemma revisions_name_contents_witness :
  rtc (Life.cstep Life.Story.digest Life.Story.iso Life.Story.text_of) Life.Story.draft Life.Story.launched /\
  exists c, campaigns Life.Story.draft !! (1%positive : uuid) = Some c /\
  exists c', campaigns Life.Story.launched !! (1%positive : uuid) = Some c' /\ later c c'.
Proof.
  assert (H : rtc (Life.cstep Life.Story.digest Life.Story.iso Life.Story.text_of) Life.Story.draft Life.Story.launched).
  { eapply rtc_l; [|eapply rtc_l; [|apply rtc_refl]].
    - exact (Life.c_targets _ _ _ _ 20 1 ["g@g.us"] 0).
    - refine (Life.r_create _ _ _ _ 30 9 _ _). reflexivity. }
  split; [exact H|]. eexists. split; [reflexivity|].
  apply (revisions_name_contents _ _ _ _ _ 1 _ H). reflexivity.
Defined.
End Versions.
