(* ===== verification/CampaignRows.v ===== *)
(** * The rows of campaign runs

    What each statement may do to one row of [campaign_runs], and what therefore
    holds of every row: preparation is attempted at most three times and never gets
    stuck, and the timestamps of a run say what its status says. *)

From S2P Require Import Prelude Schema Campaigns CampaignRuns Retention CampaignLifecycle.
Import Persistence RunRepo LifecycleRepo DeliveryRepo.

Module Rows.

(** The SET clauses of the statements, with the rows they apply to *)
Inductive row_move (r : campaign_run) : campaign_run -> Prop :=
  | rm_same : row_move r r
  | rm_claim now token : preparable now r = true ->
      row_move r (r <| cr_prep_attempt_count := (cr_prep_attempt_count r + 1)%Z |>
        <| cr_prep_lease_token := Some token |>
        <| cr_prep_lease_expires_at := Some (now + two_minutes)%Z |>
        <| cr_prep_error := None |> <| cr_updated_at := now |>)
  | rm_recover now k : stalled now k r = true -> row_move r (recover_row now r)
  | rm_stale now token : owned now token r = true ->
      row_move r (drop_lease now r <| cr_prep_next_attempt_at := now |>
        <| cr_prep_attempt_count := Z.max 0 (cr_prep_attempt_count r - 1) |>)
  | rm_block now token report : owned now token r = true ->
      row_move r (drop_lease now (set_report report r
        <| cr_status := RunStatus.BLOCKED |> <| cr_status_reason := Some "PREFLIGHT_BLOCKED" |>))
  | rm_start now token report : owned now token r = true -> row_move r (start_row now report r)
  | rm_fail now token e : owned now token r = true -> row_move r (fail_row now e r)
  | rm_activate now : cr_status r = RunStatus.SCHEDULED ->
      row_move r (r <| cr_status := RunStatus.RUNNING |> <| cr_status_reason := None |>
        <| cr_started_at := coalesce (cr_started_at r) (Some now) |> <| cr_updated_at := now |>)
  | rm_final now failed : cr_status r = RunStatus.RUNNING -> row_move r (final_row now failed r)
  | rm_pause now reason :
      mem (cr_status r) [RunStatus.SCHEDULED; RunStatus.RUNNING] = true ->
      row_move r (r <| cr_status := RunStatus.PAUSED |> <| cr_status_reason := Some reason |>
        <| cr_updated_at := now |>)
  | rm_blocked now report : mem (cr_status r) [RunStatus.PAUSED; RunStatus.BLOCKED] = true ->
      row_move r (set_report report r <| cr_status := RunStatus.BLOCKED |>
        <| cr_status_reason := Some "PREFLIGHT_BLOCKED" |> <| cr_updated_at := now |>)
  | rm_resume now report : mem (cr_status r) [RunStatus.PAUSED; RunStatus.BLOCKED] = true ->
      row_move r (resume_row now report r)
  | rm_cancel now : mem (cr_status r) non_terminal = true -> row_move r (cancel_row now r).

Section Rows.
Variable sha256 : string -> string.
Variable to_iso : string -> string.
Variable uuid_text : uuid -> string.
Abbreviation cstep := (Life.cstep sha256 to_iso uuid_text).

(** A row after a statement: moved from the row before, or just launched *)
Definition row_from (d : db) (k : uuid) (r' : campaign_run) : Prop :=
  (exists r, campaign_runs d !! k = Some r /\ row_move r r') \/
  (campaign_runs d !! k = None /\ exists now at_ i c, r' = new_run now at_ i c).

Definition rows_from (d d' : db) : Prop :=
  forall k r', campaign_runs d' !! k = Some r' -> row_from d k r'.

Lemma rows_same d d' : campaign_runs d' = campaign_runs d -> rows_from d d'.
Proof. intros E k r' Hr. left. exists r'. rewrite <- E. split; [done|constructor]. Qed.

Lemma rows_update_row d d' k0 W f :
  campaign_runs d' = (update_row k0 W f (campaign_runs d)).2 ->
  (forall r, campaign_runs d !! k0 = Some r -> W r = true -> row_move r (f r)) -> rows_from d d'.
Proof.
  intros E Hf k r'. rewrite E, lookup_update_row.
  destruct (campaign_runs d !! k) as [r|] eqn:Hr; [|done]. cbn. intros [= <-].
  left. exists r. split; [done|]. case_bool_decide; [subst|constructor]. cbn.
  destruct (W r) eqn:?; [eauto|constructor].
Qed.

Lemma rows_update_where d d' P f :
  campaign_runs d' = update_where P f (campaign_runs d) ->
  (forall k r, P k r = true -> row_move r (f r)) -> rows_from d d'.
Proof.
  intros E Hf k r'. rewrite E, lookup_update_where.
  destruct (campaign_runs d !! k) as [r|] eqn:Hr; [|done]. cbn. intros [= <-].
  left. exists r. split; [done|]. destruct (P k r) eqn:?; [eauto|constructor].
Qed.

Lemma rows_update_run d d' k0 f :
  campaign_runs d' = campaign_runs (update_run k0 f d) ->
  (forall r, campaign_runs d !! k0 = Some r -> row_move r (f r)) -> rows_from d d'.
Proof. intros E Hf. eapply rows_update_row; [exact E|]. intros r Hr _. by apply Hf. Qed.

Lemma apply_rows now ids id token report observed d :
  rows_from d (applyPreflight now ids id token report observed d).2.
Proof.
  unfold applyPreflight. destruct (campaign_runs d !! id) as [r|] eqn:Hr; [|by apply rows_same].
  destruct (owned now token r) eqn:Ho; cbn [negb]; [|by apply rows_same].
  destruct (capabilitySnapshotChanged _ _ _); [|destruct (bool_decide _)];
    (eapply rows_update_run; [reflexivity|intros q Hq; simplify_eq]).
  - by eapply rm_stale.
  - by eapply rm_block.
  - by eapply rm_start.
Qed.

Lemma finalize_rows now limit d : rows_from d (finalize now limit d).2.
Proof.
  unfold finalize. cbv zeta. cbn [snd]. set (rows := take _ _). intros k r'. cbn.
  rewrite map_lookup_imap. destruct (campaign_runs d !! k) as [r|] eqn:Hr; [|done]. cbn.
  intros [= <-]. left. exists r. split; [done|]. destruct (mem k rows.*1) eqn:Em; [|constructor].
  constructor. apply mem_true, list_elem_of_fmap in Em as ([k' q] & -> & Hin).
  apply take_elem, order_by_elem, select_where_elem in Hin as [Hq HP]. cbn in Hr. simplify_eq.
  unfold finalizable in HP. by split_bool.
Qed.

Lemma pause_rows now id d : rows_from d (pause now id d).2.
Proof.
  unfold pause. destruct (update_row _ _ _ _) as [row t] eqn:E.
  apply (f_equal snd) in E. cbn [snd] in E. subst t.
  eapply (rows_update_row _ _ id).
  - destruct row as [r|]; cbv zeta; cbn [snd]; [rewrite Life.with_campaign_runs|]; reflexivity.
  - intros r Hr HW. by apply (rm_pause r now).
Qed.

Lemma fail_rows now id token e d : rows_from d (failPreparationAttempt now id token e d).2.
Proof.
  unfold failPreparationAttempt. destruct (update_row _ _ _ _) as [row t] eqn:E.
  apply (f_equal snd) in E. cbn [snd] in E. subst t.
  eapply (rows_update_row _ _ id).
  - destruct row as [r|]; [|reflexivity]. case_bool_decide; [|reflexivity].
    destruct (is_live r); reflexivity.
  - intros r Hr HW. by apply (rm_fail r now token).
Qed.

Lemma resume_rows now ids id report observed d : rows_from d (resume now ids id report observed d).2.
Proof.
  unfold resume. destruct (campaign_runs d !! id) as [r|] eqn:Hr; [|by apply rows_same].
  destruct (mem (cr_status r) _) eqn:Hm; cbn [negb]; [|by apply rows_same].
  destruct (capabilitySnapshotChanged _ _ _); [by apply rows_same|]. cbv zeta. cbn [snd].
  eapply (rows_update_run _ _ id); [rewrite Life.with_campaign_runs; reflexivity|].
  intros q Hq. assert (q = r) as -> by congruence. by apply (rm_resume r now).
Qed.

Lemma cancel_rows now ids id d : rows_from d (cancel now ids id d).2.
Proof.
  unfold cancel. destruct (campaign_runs d !! id) as [r|] eqn:Hr; [|by apply rows_same].
  destruct (mem (cr_status r) _) eqn:Hm; cbn [negb]; [|by apply rows_same]. cbv zeta. cbn [snd].
  eapply (rows_update_run _ _ id); [rewrite Life.with_campaign_runs; reflexivity|].
  intros q Hq. assert (q = r) as -> by congruence. by apply (rm_cancel r now).
Qed.

Lemma materialize_rows now locked new_id id buffered d :
  rows_from d (materializePending sha256 to_iso uuid_text now locked new_id id buffered d).2.
Proof.
  unfold materializePending. destruct (campaign_runs d !! id) as [r|] eqn:Hr; [|by apply rows_same].
  case_bool_decide as Hs; cbn [negb]; [|by apply rows_same].
  destruct (is_live r && _) eqn:Hl; cbv zeta; cbn [snd].
  - eapply (rows_update_run _ _ id); [reflexivity|]. intros q Hq. assert (q = r) as -> by congruence.
    apply (rm_pause r now). by rewrite Hs.
  - destruct (Nat.eqb _ _); [by apply rows_same|].
    apply rows_same, (Life.materialize_tables sha256 to_iso uuid_text now new_id id r).
Qed.

Lemma create_rows now new_id i d : campaign_runs d !! new_id = None ->
  rows_from d (RunRepo.create now new_id i d).2.
Proof.
  intros Hnew. unfold RunRepo.create, launch. repeat (case_match; try (by apply rows_same)).
  all: intros k r'; cbn; destruct (decide (k = new_id)) as [->|Hne];
    [|rewrite lookup_insert_ne by done; intros Hr; left; exists r'; by split; [|constructor]].
  all: rewrite lookup_insert_eq; intros [= <-]; right; split; [done|by eauto].
Qed.

Lemma retire_rows cutoff limit lr lj d : rows_from d (Retention.batch cutoff limit lr lj d).
Proof. intros k r Hr%Life.retire_back. left. exists r. split; [done|constructor]. Qed.

Lemma definition_rows now id i rev d : campaign_runs (CampaignRepo.update now id i rev d).2 = campaign_runs d.
Proof. unfold CampaignRepo.update. by destruct (update_row _ _ _ _). Qed.

Lemma cstep_rows d d' : cstep d d' -> rows_from d d'.
Proof.
  intros Hs. destruct Hs.
  - apply rows_same. unfold CampaignRepo.create. by destruct (find_where _ _) as [[? ?]|].
  - apply rows_same, definition_rows.
  - apply rows_same. unfold CampaignRepo.replaceTargets. by repeat case_match.
  - apply rows_same. unfold CampaignRepo.applyGroupListTargets. by repeat case_match.
  - apply rows_same. unfold CampaignRepo.delete. by repeat case_match.
  - by apply create_rows.
  - unfold claimPreparation. destruct (update_row _ _ _ _) as [row t] eqn:E.
    apply (f_equal snd) in E. cbn [snd] in *. subst t.
    eapply rows_update_row; [reflexivity|]. intros r Hr HW. by apply (rm_claim r now).
  - eapply rows_update_where; [reflexivity|]. intros k r Hst. by apply (rm_recover r now k).
  - apply apply_rows.
  - apply fail_rows.
  - eapply rows_update_where; [reflexivity|]. intros k r Hst. unfold due_run in Hst. split_bool.
    by apply rm_activate.
  - apply finalize_rows.
  - apply pause_rows.
  - eapply rows_update_row; [reflexivity|]. intros r Hr HW. by apply rm_blocked.
  - apply resume_rows.
  - apply cancel_rows.
  - apply materialize_rows.
  - apply retire_rows.
  - by apply rows_same.
Qed.

(** *** What holds of every row *)

Definition has_started : list RunStatus.t :=
  [RunStatus.RUNNING; RunStatus.COMPLETED; RunStatus.PARTIAL_FAILED].

Record row_ok (r : campaign_run) : Prop := RowOk {
  ro_attempts : (0 <= cr_prep_attempt_count r <= MAX_ATTEMPTS)%Z;
  ro_lease : is_null (cr_prep_lease_token r) = is_null (cr_prep_lease_expires_at r);
  ro_completed : negb (is_null (cr_completed_at r)) = Life.terminal (cr_status r);
  ro_started : mem (cr_status r) has_started = true -> is_Some (cr_started_at r) }.

Lemma owned_preparing now token r : owned now token r = true -> cr_status r = RunStatus.PREPARING.
Proof. unfold owned. intros ?. by split_bool. Qed.

Lemma row_move_ok r r' : row_move r r' -> row_ok r -> row_ok r'.
Proof.
  intros Hm [Ha Hl Hc Hs]. unfold MAX_ATTEMPTS in *.
  destruct Hm as [|now token Hp|now k Hp|now token Ho|now token report Ho|now token report Ho
    |now token e Ho|now Hst|now failed Hst|now reason Hst|now report Hst|now report Hst|now Hst];
    try apply owned_preparing in Ho.
  - done.
  - unfold preparable, MAX_ATTEMPTS in Hp. split_bool; split; unfold MAX_ATTEMPTS; cbn; try done; lia.
  - unfold stalled in Hp. apply andb_true_iff in Hp as [Hp _]. apply bool_decide_eq_true in Hp.
    rewrite Hp in *. unfold recover_row.
    destruct (exhausted r); split; unfold MAX_ATTEMPTS; cbn; try done; lia.
  - rewrite Ho in *. split; unfold MAX_ATTEMPTS, drop_lease; cbn; rewrite ?Ho; try done; lia.
  - rewrite Ho in *. by split.
  - rewrite Ho in *. unfold start_row. destruct (_ <=? _)%Z; split; cbn; done.
  - rewrite Ho in *. unfold fail_row. destruct (exhausted r); split; unfold MAX_ATTEMPTS; cbn; try done; lia.
  - rewrite Hst in *. split; cbn; try done. by destruct (cr_started_at r).
  - rewrite Hst in *. unfold final_row. destruct failed; split; cbn; try done; auto.
  - split; cbn; try done. rewrite Hc. by destruct (cr_status r).
  - split; cbn; try done. rewrite Hc. by destruct (cr_status r).
  - unfold resume_row. destruct (_ <? _)%Z; split; cbn; try done. by destruct (cr_started_at r).
  - by split.
Qed.

Lemma new_run_ok now at_ i c : row_ok (new_run now at_ i c).
Proof. by split. Qed.

Definition rows_ok (d : db) : Prop := forall k r, campaign_runs d !! k = Some r -> row_ok r.

Lemma lives_rows d : Life.lives sha256 to_iso uuid_text d -> rows_ok d.
Proof.
  intros (d0 & [_ H0] & Hs).
  assert (Hok : rows_ok d0) by (intros k r; by rewrite H0, lookup_empty).
  clear H0. induction Hs as [|x y z Hst _ IH]; [done|]. apply IH.
  intros k r' Hr'. destruct (cstep_rows _ _ Hst _ _ Hr') as [(r & Hr & Hm)|(_ & now & at_ & i & c & ->)].
  - eapply row_move_ok; [done|]. by eapply Hok.
  - apply new_run_ok.
Qed.

Lemma recover_lookup now d k r : campaign_runs d !! k = Some r ->
  campaign_runs (recoverExpiredPreparations now d).2 !! k =
    Some (if stalled now k r then recover_row now r else r).
Proof.
  intros Hr. unfold recoverExpiredPreparations. cbn. by rewrite lookup_update_where, Hr.
Qed.

Lemma claim_lookup now token k d r : campaign_runs d !! k = Some r -> preparable now r = true ->
  (claimPreparation now token k d).1 = Some (token, (cr_prep_attempt_count r + 1)%Z).
Proof. intros Hr Hp. unfold claimPreparation, update_row. by rewrite Hr, Hp. Qed.

(** The row of a run says what happened to it.  In every state the statements
    reach, a run was claimed for preparation at most three times, its lease has a
    token exactly when it has an expiry, it has a completion time exactly when it
    has ended, and it has a start time when it is or was running to its end. *)
Theorem run_rows_exact d k r (Hd : Life.lives sha256 to_iso uuid_text d)
    (Hr : campaign_runs d !! k = Some r) :
  (0 <= cr_prep_attempt_count r <= 3)%Z /\
  (is_Some (cr_prep_lease_token r) <-> is_Some (cr_prep_lease_expires_at r)) /\
  (is_Some (cr_completed_at r) <-> Life.terminal (cr_status r) = true) /\
  (cr_status r ∈ has_started -> is_Some (cr_started_at r)).
Proof.
  destruct (lives_rows _ Hd _ _ Hr) as [Ha Hl Hc Hs]. split_and!; [apply Ha|apply Ha| | |].
  - destruct (cr_prep_lease_token r), (cr_prep_lease_expires_at r); try discriminate Hl; by split; intros [? ?]; eauto.
  - rewrite <- Hc. destruct (cr_completed_at r); cbn; split; try done; by intros [? ?].
  - rewrite <- mem_true. done.
Qed.

(** A run whose next preparation attempt is due and that no live lease covers *)
Definition overdue (now : timestamp) (r : campaign_run) : Prop :=
  cr_status r = RunStatus.PREPARING /\ (cr_prep_next_attempt_at r <= now)%Z /\
  (forall e, cr_prep_lease_expires_at r = Some e -> (e < now)%Z).

(** Preparation never gets stuck.  A PREPARING run whose next attempt is due and
    whose lease, if any, has expired is either handed to the next worker that claims
    it after one recovery, as one of its at most three attempts, or that recovery
    has failed it. *)
Theorem preparation_progresses d k r now token (Hd : Life.lives sha256 to_iso uuid_text d)
    (Hr : campaign_runs d !! k = Some r) (Hready : overdue now r) :
  let d1 := (recoverExpiredPreparations now d).2 in
  (exists n, (claimPreparation now token k d1).1 = Some (token, n) /\ (1 <= n <= 3)%Z) \/
  (exists r1, campaign_runs d1 !! k = Some r1 /\ cr_status r1 = RunStatus.FAILED /\
     cr_prep_attempt_count r = 3%Z).
Proof.
  destruct Hready as (Hs & Hdue & Hexp).
  cbv zeta. destruct (lives_rows _ Hd _ _ Hr) as [Ha Hl _ _]. unfold MAX_ATTEMPTS in Ha.
  pose proof (recover_lookup now d k r Hr) as Hr1.
  destruct (stalled now k r) eqn:Hst.
  - destruct (exhausted r) eqn:Hex.
    + right. eexists. split; [done|]. unfold recover_row. cbn. rewrite Hex. split; [done|].
      unfold exhausted, MAX_ATTEMPTS in Hex. split_bool. lia.
    + left. eexists. split; [apply (claim_lookup _ _ _ _ _ Hr1)|].
      * unfold preparable, recover_row. cbn. rewrite Hex, bool_decide_true by done.
        cbn. rewrite Z.leb_refl. cbn. unfold exhausted, MAX_ATTEMPTS in *. split_bool.
        by rewrite (proj2 (Z.ltb_lt _ _)) by lia.
      * unfold exhausted, MAX_ATTEMPTS in Hex. split_bool. cbn. lia.
  - left. unfold stalled in Hst. rewrite bool_decide_true in Hst by done. cbn in Hst. split_bool.
    assert (Htok : cr_prep_lease_token r = None).
    { destruct (cr_prep_lease_token r) as [x|]; [exfalso|done]. cbn in *.
      destruct (cr_prep_lease_expires_at r) as [e|]; [|done].
      specialize (Hexp e eq_refl). unfold before in *. split_bool. lia. }
    set (d1 := (recoverExpiredPreparations now d).2) in *. clearbody d1.
    rewrite Htok in *. cbn in *. unfold exhausted, MAX_ATTEMPTS in *. split_bool.
    eexists. split; [apply (claim_lookup _ _ _ _ _ Hr1)|lia].
    unfold preparable, MAX_ATTEMPTS. rewrite Htok, bool_decide_true by done. cbn.
    rewrite (proj2 (Z.leb_le _ _)), (proj2 (Z.ltb_lt _ _)) by lia. done.
Qed.
End Rows.

(** *** Concrete runs *)

Module Examples.
Import Life.Story.

Lemma run_rows_exact_witness :
  cr_status paused_row = RunStatus.PAUSED /\ (0 <= cr_prep_attempt_count paused_row <= 3)%Z.
Proof.
  split; [by vm_compute|].
  apply (run_rows_exact digest iso text_of paused 9 paused_row paused_lives).
  vm_compute. reflexivity.
Defined.

Definition claimed_row : campaign_run := default paused_row (campaign_runs claimed !! 9%positive).

Lemma claimed_lives : Life.lives digest iso text_of claimed.
Proof. eapply lives_step; [apply launched_lives|]. apply Life.r_claim. Qed.

(** The worker that claimed the run died; its lease ran out. *)
Lemma preparation_progresses_witness :
  cr_prep_lease_token claimed_row = Some 77%positive /\
  let d1 := (recoverExpiredPreparations 200000 claimed).2 in
  ((exists n, (claimPreparation 200000 78 9 d1).1 = Some (78%positive, n) /\ (1 <= n <= 3)%Z) \/
   (exists r1, campaign_runs d1 !! 9%positive = Some r1 /\ cr_status r1 = RunStatus.FAILED /\
      cr_prep_attempt_count claimed_row = 3%Z)).
Proof.
  split; [by vm_compute|].
  apply (preparation_progresses digest iso text_of claimed 9 claimed_row 200000 78 claimed_lives).
  - vm_compute. reflexivity.
  - split_and!; [by vm_compute|by vm_compute|]. intros e. vm_compute. by intros [= <-].
Defined.
End Examples.
End Rows.
