(* ===== verification/CampaignDeliveries.v ===== *)
(** * Deliveries and their jobs

    The rows of [campaign_deliveries] beside the message jobs they become: every
    statement of the runtime keeps each delivery tied to one job that says exactly
    what its run snapshot says, and only [materializePending] makes such jobs. *)

From stdpp Require Import pretty.
From S2P Require Import Prelude Schema MessageJobs Groups SendPolicy CampaignPreflight Campaigns CampaignRuns Retention CampaignLifecycle.
Import Persistence RunRepo LifecycleRepo DeliveryRepo.

Module Deliveries.
Section Deliveries.
Variable sha256 : string -> string.
Variable to_iso : string -> string.
Variable uuid_text : uuid -> string.
Hypothesis uuid_text_inj : forall a b, uuid_text a = uuid_text b -> a = b.
Abbreviation cstep := (Life.cstep sha256 to_iso uuid_text).

(** The idempotency scope of a run's jobs *)
Definition scope_of (run : uuid) : string := "campaign-run:" ++ uuid_text run.

Lemma append_inj (a b c : string) : (a ++ b = a ++ c)%string -> b = c.
Proof. induction a as [|x a IH]; cbn; [done|]. by intros [= ?%IH]. Qed.

Lemma scope_of_inj a b : scope_of a = scope_of b -> a = b.
Proof. intros E. by eapply uuid_text_inj, append_inj. Qed.

Lemma scope_of_api run : scope_of run <> "runtime-api".
Proof. by intros [=]. Qed.

(** The job says what the run and the target of its delivery say. *)
Definition speaks_for (r : campaign_run) (k : uuid * string) (j : message_job) : Prop :=
  mj_idempotency_scope j = scope_of k.1 /\ mj_idempotency_key j = k.2 /\
  mj_session_id j = cr_session_id r /\ mj_recipient_id j = k.2 /\ mj_text j = cr_text r /\
  mj_dry_run j = bool_decide (cr_execution_mode r = Mode.DRY_RUN).

Record link_ok (d : db) : Prop := LinkOk {
  lk_run k cd : campaign_deliveries d !! k = Some cd -> is_Some (campaign_runs d !! k.1);
  lk_pending k cd : campaign_deliveries d !! k = Some cd -> cd_status cd = DeliveryStatus.PENDING ->
    cd_message_job_id cd = None;
  lk_job k cd id : campaign_deliveries d !! k = Some cd -> cd_message_job_id cd = Some id ->
    exists r j, campaign_runs d !! k.1 = Some r /\ message_jobs d !! id = Some j /\ speaks_for r k j;
  (** and no other job is of the run *)
  lk_scope id j run : message_jobs d !! id = Some j -> mj_idempotency_scope j = scope_of run ->
    is_Some (campaign_runs d !! run) ->
    exists cd, campaign_deliveries d !! (run, mj_idempotency_key j) = Some cd /\
      cd_message_job_id cd = Some id }.

Lemma speaks_for_same r r' k j j' : Life.same_snapshot r r' -> Lifecycle.same_intent j j' ->
  speaks_for r k j -> speaks_for r' k j'.
Proof.
  intros (_ & S1 & _ & S2 & S3 & _) (I1 & I2 & _ & I3 & I4 & I5 & I6) (P1 & P2 & P3 & P4 & P5 & P6).
  unfold speaks_for. rewrite I1, I2, I3, I4, I5, I6, S1, S2, S3. by split_and!.
Qed.

(** *** Statements that make no job for a run *)

Record ties (d d' : db) : Prop := Ties {
  ti_run k r : campaign_runs d !! k = Some r ->
    exists r', campaign_runs d' !! k = Some r' /\ Life.same_snapshot r r';
  ti_new k : campaign_runs d !! k = None -> is_Some (campaign_runs d' !! k) ->
    forall id j, message_jobs d !! id = Some j -> mj_idempotency_scope j <> scope_of k;
  ti_job id j' : message_jobs d' !! id = Some j' ->
    (exists j, message_jobs d !! id = Some j /\ Lifecycle.same_intent j j') \/
    (message_jobs d !! id = None /\ forall k, mj_idempotency_scope j' <> scope_of k);
  ti_kept id j : message_jobs d !! id = Some j ->
    exists j', message_jobs d' !! id = Some j' /\ Lifecycle.same_intent j j';
  ti_back k cd' : campaign_deliveries d' !! k = Some cd' ->
    (exists cd, campaign_deliveries d !! k = Some cd /\ cd_message_job_id cd' = cd_message_job_id cd /\
       (cd_status cd' = DeliveryStatus.PENDING -> cd_status cd = DeliveryStatus.PENDING)) \/
    (campaign_deliveries d !! k = None /\ cd_message_job_id cd' = None /\ is_Some (campaign_runs d' !! k.1));
  ti_delivery k cd : campaign_deliveries d !! k = Some cd ->
    exists cd', campaign_deliveries d' !! k = Some cd' /\ cd_message_job_id cd' = cd_message_job_id cd }.

Lemma ties_link d d' : ties d d' -> link_ok d -> link_ok d'.
Proof.
  intros Ht Hok. split.
  - intros k cd' [(cd & Hcd & _)|(_ & _ & Hr)]%(ti_back _ _ Ht); [|done].
    destruct (lk_run _ Hok _ _ Hcd) as [r Hr]. destruct (ti_run _ _ Ht _ _ Hr) as (r' & Hr' & _). eauto.
  - intros k cd' [(cd & Hcd & -> & Hp)|(_ & E & _)]%(ti_back _ _ Ht) Hs; [|done].
    apply (lk_pending _ Hok _ _ Hcd). by apply Hp.
  - intros k cd' id Hcd' Hid. destruct (ti_back _ _ Ht _ _ Hcd') as [(cd & Hcd & E & _)|(_ & E & _)]; [|congruence].
    rewrite E in Hid. destruct (lk_job _ Hok _ _ _ Hcd Hid) as (r & j & Hr & Hj & Hsp).
    destruct (ti_run _ _ Ht _ _ Hr) as (r' & Hr' & Hsame).
    destruct (ti_kept _ _ Ht _ _ Hj) as (j' & Hj' & Hint).
    exists r', j'. split_and!; [done|done|by eapply speaks_for_same].
  - intros id j' run Hj' Hs Hrun. destruct (ti_job _ _ Ht _ _ Hj') as [(j & Hj & Hint)|[_ Hno]];
      [|by destruct (Hno run)].
    destruct Hint as (I1 & I2 & _). rewrite I1 in Hs. rewrite I2.
    destruct (campaign_runs d !! run) as [r|] eqn:Hr; [|by destruct (ti_new _ _ Ht _ Hr Hrun _ _ Hj)].
    destruct (lk_scope _ Hok _ _ run Hj Hs) as (cd & Hcd & E); [eauto|].
    destruct (ti_delivery _ _ Ht _ _ Hcd) as (cd' & Hcd' & E'). exists cd'. split; [done|congruence].
Qed.

Lemma same_intent_refl j : Lifecycle.same_intent j j.
Proof. done. Qed.
Lemma same_snapshot_refl r : Life.same_snapshot r r.
Proof. done. Qed.

(** Jobs left alone *)
Lemma ties_jobs d d' :
  message_jobs d' = message_jobs d ->
  (forall k r, campaign_runs d !! k = Some r ->
     exists r', campaign_runs d' !! k = Some r' /\ Life.same_snapshot r r') ->
  (forall k, campaign_runs d !! k = None -> is_Some (campaign_runs d' !! k) ->
     forall id j, message_jobs d !! id = Some j -> mj_idempotency_scope j <> scope_of k) ->
  campaign_deliveries d' = campaign_deliveries d -> ties d d'.
Proof.
  intros Ej Hr Hn Ed. split; [done|done| | | |].
  - intros id j. rewrite Ej. intros Hj. left. by exists j.
  - intros id j. rewrite Ej. intros Hj. by exists j.
  - intros k cd. rewrite Ed. intros Hk. left. by exists cd.
  - intros k cd. rewrite Ed. intros Hk. by exists cd.
Qed.

Lemma ties_trans d1 d2 d3 : ties d1 d2 -> ties d2 d3 ->
  campaign_runs d2 = campaign_runs d1 -> ties d1 d3.
Proof.
  intros H1 H2 Er. split.
  - intros k r Hr. rewrite <- Er in Hr. by apply (ti_run _ _ H2).
  - intros k Hk Hk' id j Hj. rewrite <- Er in Hk.
    destruct (ti_kept _ _ H1 _ _ Hj) as (j2 & Hj2 & <- & _). by eapply (ti_new _ _ H2).
  - intros id j3 Hj3. destruct (ti_job _ _ H2 _ _ Hj3) as [(j2 & Hj2 & I2)|[Hn Hno]].
    + destruct (ti_job _ _ H1 _ _ Hj2) as [(j1 & Hj1 & I1)|[Hn Hno]].
      * left. exists j1. split; [done|]. unfold Lifecycle.same_intent in *. intuition congruence.
      * right. split; [done|]. destruct I2 as (-> & _). done.
    + right. split; [|done]. destruct (message_jobs d1 !! id) eqn:E; [|done].
      destruct (ti_kept _ _ H1 _ _ E) as (? & ? & _). congruence.
  - intros id j Hj. destruct (ti_kept _ _ H1 _ _ Hj) as (j2 & Hj2 & I1).
    destruct (ti_kept _ _ H2 _ _ Hj2) as (j3 & Hj3 & I2). exists j3. split; [done|].
    unfold Lifecycle.same_intent in *. intuition congruence.
  - intros k cd3 Hcd3. destruct (ti_back _ _ H2 _ _ Hcd3) as [(cd2 & Hcd2 & E2 & P2)|(Hn & E & Hr)].
    + destruct (ti_back _ _ H1 _ _ Hcd2) as [(cd1 & Hcd1 & E1 & P1)|(Hn & E & Hr)].
      * left. exists cd1. split_and!; [done|congruence|auto].
      * right. split_and!; [done|congruence|]. destruct Hr as [r Hr].
        destruct (ti_run _ _ H2 _ _ Hr) as (r' & ? & _). eauto.
    + right. split_and!; [|done|done]. destruct (campaign_deliveries d1 !! k) eqn:E1; [|done].
      destruct (ti_delivery _ _ H1 _ _ E1) as (? & ? & _). congruence.
  - intros k cd Hcd. destruct (ti_delivery _ _ H1 _ _ Hcd) as (cd2 & Hcd2 & E1).
    destruct (ti_delivery _ _ H2 _ _ Hcd2) as (cd3 & Hcd3 & E2). exists cd3. split; [done|congruence].
Qed.

(** *** Each statement *)

(** A statement of the outbox whose new job, if any, is not of a run *)
Lemma ties_op d d' : Lifecycle.op d d' ->
  (forall id j', message_jobs d' !! id = Some j' -> message_jobs d !! id = None ->
     mj_idempotency_scope j' = "runtime-api") ->
  campaign_runs d' = campaign_runs d -> campaign_deliveries d' = campaign_deliveries d -> ties d d'.
Proof.
  intros Hop Hnew Er Ed. split.
  - intros k r. rewrite Er. intros Hr. by exists r.
  - intros k Hk Hk'. rewrite Er, Hk in Hk'. by destruct Hk'.
  - intros id j' Hj'. destruct (Lifecycle.op_back _ _ _ _ Hop Hj') as [(j & Hj & Hs)|(Hn & _)].
    + left. exists j. split; [done|by apply Lifecycle.row_step_intent].
    + right. split; [done|]. intros k. rewrite (Hnew _ _ Hj' Hn). intros E. by apply (scope_of_api k).
  - intros id j Hj. destruct (Lifecycle.op_kept _ _ Hop _ _ Hj) as (j' & Hj' & Hs).
    exists j'. split; [done|by apply Lifecycle.row_step_intent].
  - intros k cd. rewrite Ed. intros Hk. left. by exists cd.
  - intros k cd. rewrite Ed. intros Hk. by exists cd.
Qed.

(** A statement that writes only deliveries *)
Lemma ties_deliveries d d' :
  campaign_runs d' = campaign_runs d -> message_jobs d' = message_jobs d ->
  (forall k cd', campaign_deliveries d' !! k = Some cd' ->
    (exists cd, campaign_deliveries d !! k = Some cd /\ cd_message_job_id cd' = cd_message_job_id cd /\
       (cd_status cd' = DeliveryStatus.PENDING -> cd_status cd = DeliveryStatus.PENDING)) \/
    (campaign_deliveries d !! k = None /\ cd_message_job_id cd' = None /\ is_Some (campaign_runs d !! k.1))) ->
  (forall k cd, campaign_deliveries d !! k = Some cd ->
    exists cd', campaign_deliveries d' !! k = Some cd' /\ cd_message_job_id cd' = cd_message_job_id cd) ->
  ties d d'.
Proof.
  intros Er Ej Hb Hk. split; [| | | |by rewrite Er|done].
  - intros k r. rewrite Er. intros Hr. by exists r.
  - intros k Hn Hs. rewrite Er, Hn in Hs. by destruct Hs.
  - intros id j. rewrite Ej. intros Hj. left. by exists j.
  - intros id j. rewrite Ej. intros Hj. by exists j.
Qed.

Lemma ties_insert now ids id d : is_Some (campaign_runs d !! id) -> ties d (insert_deliveries now ids id d).
Proof.
  intros Hrun. apply ties_deliveries; [done|done| |]; unfold insert_deliveries; cbn; intros k cd.
  - rewrite lookup_union_Some_raw. intros [Hk|[Hn Hk]]; [left; by exists cd|right].
    rewrite map_lookup_imap in Hk. destruct (campaign_run_targets d !! k); [|done]. cbn in Hk.
    case_bool_decide as Hid; [|done]. simplify_eq. by subst.
  - intros Hk. exists cd. split; [|done]. apply lookup_union_Some_raw. by left.
Qed.

Lemma ties_update_deliveries d d' (P : uuid * string -> delivery -> bool) (f : uuid * string -> delivery -> delivery) :
  campaign_runs d' = campaign_runs d -> message_jobs d' = message_jobs d ->
  campaign_deliveries d' = map_imap (fun k cd => Some (if P k cd then f k cd else cd)) (campaign_deliveries d) ->
  (forall k cd, P k cd = true -> cd_message_job_id (f k cd) = cd_message_job_id cd /\
     (cd_status (f k cd) = DeliveryStatus.PENDING -> cd_status cd = DeliveryStatus.PENDING)) -> ties d d'.
Proof.
  intros Er Ej Ed Hf. apply ties_deliveries; [done|done| |]; intros k cd; rewrite Ed, map_lookup_imap.
  - destruct (campaign_deliveries d !! k) as [c|] eqn:Hc; [|done]. cbn. intros [= <-]. left. exists c.
    split; [done|]. destruct (P k c) eqn:E; [by apply Hf|done].
  - intros ->. cbn. eexists. split; [done|]. destruct (P k cd) eqn:E; [by apply Hf|done].
Qed.

Lemma ties_reconcile now d : ties d (reconcile now d).2.
Proof.
  apply (ties_update_deliveries _ _ (fun k cd => stale_delivery d k cd)
    (fun k cd => match job_of d cd with Some j => reconcile_row now j cd | None => cd end)); try done.
  - cbn. apply map_eq. intros k. rewrite !map_lookup_imap. unfold stale_delivery.
    destruct (campaign_deliveries d !! k) as [cd|]; [|done]. cbn. by destruct (job_of d cd).
  - intros k cd. unfold stale_delivery. destruct (job_of d cd) as [j|]; [|done]. intros _.
    split; [done|]. cbn. by destruct (mj_status j).
Qed.

Lemma ties_cancel_deliveries now id d : ties d (cancel_deliveries now id d).
Proof.
  eapply (ties_update_deliveries _ _ (fun k cd => bool_decide (k.1 = id)
       && (bool_decide (cd_status cd = DeliveryStatus.PENDING) || job_cancelled d cd))
    (fun _ cd => cd <| cd_status := DeliveryStatus.CANCELLED |>
       <| cd_failure_reason := Some "Campaign run cancelled" |> <| cd_updated_at := now |>)); done.
Qed.

Lemma ties_cancelJobs now ids d : ties d (Repo.cancelJobs now ids d).
Proof.
  apply ties_op; [apply Lifecycle.op_cancel| |done|done]. intros id j' Hj' Hn. exfalso.
  unfold Repo.cancelJobs in Hj'. cbn in Hj'. rewrite lookup_update_where, Hn in Hj'. done.
Qed.

Lemma ties_targets d t : ties d (d <| campaign_run_targets := t |>).
Proof. apply ties_deliveries; [done|done| |]; intros k cd Hk; [left|]; by exists cd. Qed.

(** The statements that change a run also keep its snapshot. *)
Lemma ties_run d d' : Life.life_ok d -> cstep d d' ->
  message_jobs d' = message_jobs d -> campaign_deliveries d' = campaign_deliveries d ->
  (forall k, is_Some (campaign_runs d !! k) -> is_Some (campaign_runs d' !! k)) ->
  (forall k, campaign_runs d !! k = None -> is_Some (campaign_runs d' !! k) ->
     forall id j, message_jobs d !! id = Some j -> mj_idempotency_scope j <> scope_of k) ->
  ties d d'.
Proof.
  intros Hok Hs Ej Ed Hkeep Hnew. apply ties_jobs; [done| |done|done]. intros k r Hr.
  destruct (Life.cstep_cases sha256 to_iso uuid_text _ _ Hok Hs) as [Hm|[_ Hrest]].
  - destruct (Life.mv_run _ _ Hm _ _ Hr) as (r' & Hr' & [Hsame _]). eauto.
  - destruct (Hrest _ _ Hr) as [Hr'|[Hn _]]; [by exists r|].
    destruct (Hkeep k) as [? ?]; [eauto|congruence].
Qed.

Lemma ties_update_run k0 f d : (forall r, Life.same_snapshot r (f r)) -> ties d (update_run k0 f d).
Proof.
  intros Hf. apply ties_jobs; [done| | |done].
  - intros k r Hr. unfold update_run. cbn. rewrite lookup_update_row, Hr. cbn.
    eexists. split; [done|]. destruct (bool_decide _ && _); [apply Hf|apply same_snapshot_refl].
  - intros k Hn [r Hr]. unfold update_run in Hr. cbn in Hr. rewrite lookup_update_row, Hn in Hr. done.
Qed.

Lemma ties_with_campaign now r from to d : ties d (with_campaign now r from to d).
Proof.
  unfold with_campaign. destruct (is_live r); apply ties_deliveries; try done;
    intros k cd Hk; [left|..|left|]; by exists cd.
Qed.

(** *** Materialisation *)

Definition materialized (now : timestamp) (id : uuid) (cd : delivery) : delivery :=
  cd <| cd_message_job_id := Some id |> <| cd_status := DeliveryStatus.MATERIALIZED |>
     <| cd_updated_at := now |>.

Definition refused (r : campaign_run) (changed : string -> option bool) (group : string) : bool :=
  is_live r && bool_decide (changed group = Some true).

Section Loop.
Variables (now : timestamp) (new_id : string -> uuid) (run : uuid) (rn : campaign_run).
Variable changed : string -> option bool.
Abbreviation materialize := (materialize sha256 to_iso uuid_text now new_id run rn changed).
Abbreviation job_for g := (Repo.new_job now (delivery_job sha256 to_iso uuid_text now run rn g)).

(** What a step needs: a PENDING delivery of the run and an id never drawn before *)
Definition ready (d : db) (k : uuid * string) : Prop :=
  k.1 = run /\ message_jobs d !! new_id k.2 = None /\
  exists cd, campaign_deliveries d !! k = Some cd /\ cd_status cd = DeliveryStatus.PENDING.

Lemma speaks_for_job g : speaks_for rn (run, g) (job_for g).
Proof. by split_and!. Qed.

(** The job of a PENDING delivery is new: the replay of an idempotent create never happens. *)
Lemma materialize_cases d n k cd :
  link_ok d -> campaign_runs d !! run = Some rn -> ready d k -> campaign_deliveries d !! k = Some cd ->
  materialize (n, d) k =
    if refused rn changed k.2
    then (n, d <| campaign_deliveries := <[k := block_row now cd]> (campaign_deliveries d) |>)
    else ((n + 1)%Z, d <| message_jobs := <[new_id k.2 := job_for k.2]> (message_jobs d) |>
      <| campaign_deliveries := <[k := materialized now (new_id k.2) cd]> (campaign_deliveries d) |>).
Proof.
  intros Hok Hr (Hid & Hfresh & cd' & Hcd' & Hp) Hcd. assert (cd' = cd) as -> by congruence.
  clear Hcd'.
  unfold DeliveryRepo.materialize, refused. destruct (is_live rn && _).
  - unfold update_delivery, update_row. by rewrite Hcd.
  - assert (Hnone : find_where (fun _ j => Repo.same_key (scope_of k.1) k.2 j) (message_jobs d) = None).
    { apply find_where_None. intros id j Hj. destruct (Repo.same_key _ _ _) eqn:E; [exfalso|done].
      apply Lifecycle.same_key_true in E as [Es Ek].
      destruct (lk_scope _ Hok _ _ _ Hj Es) as (q & Hq & Ej); [by rewrite Hid; eauto|].
      rewrite Ek in Hq. destruct k as [k1 k2]. cbn in *. rewrite Hcd in Hq. simplify_eq.
      rewrite (lk_pending _ Hok _ _ Hcd Hp) in Ej. done. }
    unfold Repo.create. cbn [Repo.in_scope Repo.in_key delivery_job]. unfold scope_of in Hnone. rewrite Hid in Hnone.
    rewrite Hnone. unfold update_delivery, update_row. cbn. rewrite Hcd. unfold is_pending.
    by rewrite bool_decide_true.
Qed.

Lemma block_link d k cd : link_ok d -> campaign_deliveries d !! k = Some cd ->
  link_ok (d <| campaign_deliveries := <[k := block_row now cd]> (campaign_deliveries d) |>).
Proof.
  intros Hok Hcd. eapply ties_link; [|exact Hok]. apply ties_deliveries; [done|done| |]; cbn; intros k' q.
  - intros [[<- <-]|[_ Hq]]%lookup_insert_Some; left; [by exists cd|by exists q].
  - intros Hq. destruct (decide (k = k')) as [<-|Hne].
    + simplify_eq. eexists. by rewrite lookup_insert_eq.
    + exists q. by rewrite lookup_insert_ne.
Qed.

Lemma new_link d k cd : link_ok d -> campaign_runs d !! run = Some rn -> ready d k ->
  campaign_deliveries d !! k = Some cd ->
  link_ok (d <| message_jobs := <[new_id k.2 := job_for k.2]> (message_jobs d) |>
      <| campaign_deliveries := <[k := materialized now (new_id k.2) cd]> (campaign_deliveries d) |>).
Proof.
  intros Hok Hr (Hid & Hfresh & cd' & Hcd' & Hp) Hcd.
  assert (cd' = cd) as -> by congruence. clear Hcd'. destruct k as [k1 g]. cbn in *. subst k1. split; cbn.
  - intros k q [[<- <-]|[_ Hq]]%lookup_insert_Some; [by eauto|by eapply (lk_run _ Hok)].
  - intros k q [[<- <-]|[_ Hq]]%lookup_insert_Some; [done|by eapply (lk_pending _ Hok)].
  - intros k q id [[<- <-]|[Hne Hq]]%lookup_insert_Some.
    + cbn. intros [= <-]. exists rn, (job_for g). rewrite lookup_insert_eq.
      split_and!; [done|done|apply speaks_for_job].
    + intros Hj. destruct (lk_job _ Hok _ _ _ Hq Hj) as (r' & j & Hr' & Hj' & Hsp).
      exists r', j. split_and!; [done| |done]. rewrite lookup_insert_ne; congruence.
  - intros id j x [[<- <-]|[Hne Hj]]%lookup_insert_Some Hs Hx.
    + cbn in Hs. apply scope_of_inj in Hs as <-. cbn. rewrite lookup_insert_eq. by eexists.
    + destruct (lk_scope _ Hok _ _ _ Hj Hs Hx) as (q & Hq & E).
      destruct (decide ((run, g) = (x, mj_idempotency_key j))) as [Heq|Hk].
      * exfalso. rewrite <- Heq, Hcd in Hq. simplify_eq.
        rewrite (lk_pending _ Hok _ _ Hcd Hp) in E. done.
      * exists q. by rewrite lookup_insert_ne.
Qed.

(** The whole loop *)
Record pass (d : db) (ks : list (uuid * string)) (nd : Z * db) (n : Z) : Prop := Pass {
  ps_link : link_ok nd.2;
  ps_runs : campaign_runs nd.2 = campaign_runs d;
  ps_done k cd : k ∈ ks -> campaign_deliveries d !! k = Some cd ->
    if refused rn changed k.2
    then campaign_deliveries nd.2 !! k = Some (block_row now cd)
    else campaign_deliveries nd.2 !! k = Some (materialized now (new_id k.2) cd) /\
         message_jobs nd.2 !! new_id k.2 = Some (job_for k.2);
  ps_other k : k ∉ ks -> campaign_deliveries nd.2 !! k = campaign_deliveries d !! k;
  ps_jobs id : (forall k, k ∈ ks -> refused rn changed k.2 = false -> new_id k.2 <> id) ->
    message_jobs nd.2 !! id = message_jobs d !! id;
  ps_count : (n <= nd.1 <= n + Z.of_nat (length ks))%Z }.

Lemma materialize_pass ks : forall d n,
  link_ok d -> campaign_runs d !! run = Some rn -> NoDup ks -> Forall (ready d) ks ->
  (forall k k', k ∈ ks -> k' ∈ ks -> new_id k.2 = new_id k'.2 -> k = k') ->
  pass d ks (foldl materialize (n, d) ks) n.
Proof.
  induction ks as [|k ks IH]; intros d n Hok Hr Hnd Hready Hinj.
  - split; cbn; try done; [by intros k cd ?%elem_of_nil|lia].
  - apply NoDup_cons in Hnd as [Hk Hnd]. apply Forall_cons in Hready as [Hrk Hready].
    pose proof Hrk as (Hid & Hfresh & cd & Hcd & Hp). cbn [foldl].
    rewrite (materialize_cases d n k cd) by done.
    assert (Hother : forall k', k' ∈ ks -> k <> k') by (intros k' ? ->; done).
    rewrite Forall_forall in Hready.
    destruct (refused rn changed k.2) eqn:Href.
    + destruct (IH (d <| campaign_deliveries := <[k := block_row now cd]> (campaign_deliveries d) |>) n)
        as [H1 H2 H3 H4 H5 H6]; try done.
      { by apply block_link. }
      { apply Forall_forall. intros k' Hin. destruct (Hready k' Hin) as (? & ? & q & ? & ?).
        split_and!; [done|done|]. exists q. cbn. by rewrite lookup_insert_ne by auto. }
      { intros a b Ha Hb. by apply Hinj; right. }
      split; cbn in *; [done|done| | | |lia].
      * intros k' q [->|Hin]%elem_of_cons Hq.
        { rewrite Href, H4 by done. rewrite lookup_insert_eq. congruence. }
        { apply H3; [done|]. by rewrite lookup_insert_ne by auto. }
      * intros k' [Hne Hout]%not_elem_of_cons. rewrite H4 by done. by rewrite lookup_insert_ne.
      * intros id Hall. apply H5. intros k' Hin. by apply Hall; right.
    + set (d1 := d <| message_jobs := _ |> <| campaign_deliveries := _ |>).
      assert (Hne : forall k', k' ∈ ks -> new_id k.2 <> new_id k'.2).
      { intros k' Hin E. apply (Hother k' Hin). apply Hinj; [left|by right|done]. }
      destruct (IH d1 (n + 1)%Z) as [H1 H2 H3 H4 H5 H6]; try done.
      { by apply new_link. }
      { apply Forall_forall. intros k' Hin. destruct (Hready k' Hin) as (? & ? & q & ? & ?).
        split_and!; [done| |exists q]; cbn; by rewrite lookup_insert_ne by auto. }
      { intros a b Ha Hb. by apply Hinj; right. }
      assert (Hj : message_jobs (foldl materialize ((n + 1)%Z, d1) ks).2 !! new_id k.2 = Some (job_for k.2)).
      { rewrite H5; [apply lookup_insert_eq|]. intros k' Hin _ E. by apply (Hne k'). }
      split; [done|done| | | |cbn [length]; lia].
      * intros k' q [->|Hin]%elem_of_cons Hq.
        { rewrite Href, H4 by done. cbn. rewrite lookup_insert_eq. simplify_eq. done. }
        { apply H3; [done|]. cbn. by rewrite lookup_insert_ne by auto. }
      * intros k' [Hne' Hout]%not_elem_of_cons. rewrite H4 by done. cbn. by rewrite lookup_insert_ne.
      * intros id Hall. rewrite H5 by (intros k' Hin; by apply Hall; right).
        cbn. apply lookup_insert_ne. apply Hall; [left|done].
Qed.
End Loop.

(** The deliveries one call considers *)
Definition slots (run : uuid) (buffered : Z) (d : db) : nat :=
  Z.to_nat (Z.max 0 (buffered - active_count run d)).

Definition chosen (locked : uuid -> bool) (run : uuid) (buffered : Z) (d : db) : list (uuid * string) :=
  (pending_deliveries locked run (slots run buffered d) d).*1.

Lemma chosen_spec locked run buffered d k : k ∈ chosen locked run buffered d ->
  k.1 = run /\ (exists cd, campaign_deliveries d !! k = Some cd /\ cd_status cd = DeliveryStatus.PENDING) /\
  is_Some (joined run d k.2).
Proof.
  unfold chosen, pending_deliveries. intros Hin. apply list_elem_of_fmap in Hin as ([k' cd] & -> & Hin).
  apply take_elem, order_by_elem, select_where_elem in Hin as [Hcd HP]. split_bool. cbn in *.
  split_and!; [done|by exists cd|]. by destruct (joined run d k'.2).
Qed.

Lemma chosen_NoDup locked run buffered d : NoDup (chosen locked run buffered d).
Proof. apply take_order_by_NoDup, select_where_NoDup. Qed.

Lemma chosen_length locked run buffered d : length (chosen locked run buffered d) <= slots run buffered d.
Proof. unfold chosen, pending_deliveries. rewrite length_fmap, length_take. lia. Qed.

(** A target whose group still allows sending, exactly as the preflight saw it *)
Definition still_allowed (run : uuid) (g : string) (d : db) : Prop :=
  exists rt grp, campaign_run_targets d !! (run, g) = Some rt /\
    gateway_groups d !! (rt_session_id rt, g) = Some grp /\
    gg_send_capability grp = Capability.ALLOWED /\
    gg_capability_revision grp = rt_capability_revision rt.

Lemma joined_allowed run g d : joined run d g = Some false -> still_allowed run g d.
Proof.
  unfold joined. destruct (campaign_run_targets d !! (run, g)) as [rt|] eqn:Ht; [|done].
  destruct (gateway_groups d !! _) as [grp|] eqn:Hg; [|done]. cbn. intros [= E].
  unfold capability_changed in E. split_bool. exists rt, grp. by split_and!.
Qed.

Definition draws (new_id : string -> uuid) (d : db) : Prop :=
  (forall g, message_jobs d !! new_id g = None) /\ (forall g g', new_id g = new_id g' -> g = g').

(** The run may make jobs now. *)
Definition dispatching (r : campaign_run) (d : db) : Prop :=
  cr_status r = RunStatus.RUNNING /\
  (cr_execution_mode r = Mode.LIVE -> session_sendable r d = true).

Abbreviation materializePending := (materializePending sha256 to_iso uuid_text).

Lemma ties_paused now run d : ties d (update_run run (fun r => r <| cr_status := RunStatus.PAUSED |>
   <| cr_status_reason := Some "SESSION_NOT_SENDABLE" |> <| cr_updated_at := now |>) d).
Proof. apply ties_update_run. intros r. done. Qed.

Lemma materializePending_cases now locked new_id run buffered d r :
  link_ok d -> campaign_runs d !! run = Some r -> draws new_id d ->
  let res := materializePending now locked new_id run buffered d in
  (dispatching r d /\ pass now new_id run r (joined run d) d (chosen locked run buffered d) res 0) \/
  (link_ok res.2 /\ res.1 = 0%Z /\ message_jobs res.2 = message_jobs d /\
   campaign_deliveries res.2 = campaign_deliveries d /\ (dispatching r d -> chosen locked run buffered d = [])).
Proof.
  intros Hok Hr [Hfresh Hinj]. cbv zeta. unfold DeliveryRepo.materializePending. rewrite Hr.
  case_bool_decide as Hs; cbn [negb].
  2:{ right. split_and!; try done. by intros [? _]. }
  destruct (is_live r && negb (session_sendable r d)) eqn:Hl.
  { right. cbn [fst snd]. split_and!; try done.
    - eapply ties_link; [|eapply ties_link; [apply ties_paused|exact Hok]].
      apply ties_deliveries; [done|done| |]; intros k cd Hk; [left|]; by exists cd.
    - intros [_ Hlive]. unfold is_live in Hl. split_bool. rewrite Hlive in *; congruence. }
  assert (Hd : dispatching r d).
  { split; [done|]. intros E. unfold is_live in Hl. rewrite bool_decide_true in Hl by done.
    by apply negb_false_iff in Hl. }
  fold (slots run buffered d). destruct (Nat.eqb (slots run buffered d) 0) eqn:Hz.
  { right. split_and!; try done. intros _. pose proof (chosen_length locked run buffered d) as Hlen.
    apply Nat.eqb_eq in Hz. rewrite Hz in Hlen. destruct (chosen locked run buffered d); [done|cbn in Hlen; lia]. }
  left. split; [done|]. apply materialize_pass; [done|done|apply chosen_NoDup| |].
  - apply Forall_forall. intros k Hk. apply chosen_spec in Hk as (? & ? & _). by split_and!.
  - intros [a g] [b g'] Ha Hb E. apply chosen_spec in Ha as [Ea _], Hb as [Eb _].
    apply Hinj in E. cbn in *. by subst.
Qed.

Lemma refused_false r run d g : refused r (joined run d) g = false -> is_Some (joined run d g) ->
  cr_execution_mode r = Mode.LIVE -> still_allowed run g d.
Proof.
  intros Href [b Hb] Hl. unfold refused, is_live in Href. rewrite bool_decide_true in Href by done.
  cbn in Href. apply bool_decide_eq_false in Href. apply joined_allowed. by destruct b.
Qed.

Lemma refused_true r run d g : refused r (joined run d) g = true ->
  cr_execution_mode r = Mode.LIVE /\ ~ still_allowed run g d.
Proof.
  unfold refused, is_live. intros ?. split_bool. split; [done|].
  intros (rt & grp & Ht & Hg & Hc & Hrev). unfold joined in *. rewrite Ht, Hg in *. cbn in *.
  unfold capability_changed in *. rewrite Hc, Hrev, Z.eqb_refl in *. done.
Qed.

(** A job [materializePending] made for the target [g] *)
Definition made (now : timestamp) (run : uuid) (r : campaign_run) (d d' : db) (id : uuid) (j : message_job) : Prop :=
  exists g cd, campaign_deliveries d !! (run, g) = Some cd /\ cd_status cd = DeliveryStatus.PENDING /\
    campaign_deliveries d' !! (run, g) = Some (materialized now id cd) /\
    speaks_for r (run, g) j /\ mj_status j = JobStatus.SCHEDULED /\ mj_scheduled_at j = now /\
    dispatching r d /\ (cr_execution_mode r = Mode.LIVE -> still_allowed run g d).

(** C5: a campaign sends only what its preflight saw.  [materializePending] makes a
    job only for a run that is RUNNING, and when it is LIVE only while its session
    may send and only for a target whose group is still ALLOWED at the revision the
    preflight recorded; the job carries the run's session, text and mode, goes to
    that group, and is tied to the one delivery of the target.  It touches no job or
    delivery already under way, makes at most as many jobs as the buffer has room
    for, decides every delivery it takes up, and blocks one only when the run is
    LIVE and the group's permission has changed. *)
Theorem materialize_sound now locked new_id run buffered d r (Hok : link_ok d)
    (Hr : campaign_runs d !! run = Some r) (Hdraws : draws new_id d) :
  let res := materializePending now locked new_id run buffered d in
  link_ok res.2 /\
  (forall id j, message_jobs res.2 !! id = Some j ->
     message_jobs d !! id = Some j \/ message_jobs d !! id = None /\ made now run r d res.2 id j) /\
  (forall k cd, campaign_deliveries d !! k = Some cd -> cd_status cd <> DeliveryStatus.PENDING ->
     campaign_deliveries res.2 !! k = Some cd) /\
  (0 <= res.1 <= Z.max 0 (buffered - active_count run d))%Z /\
  (dispatching r d -> forall k, k ∈ chosen locked run buffered d ->
     exists cd', campaign_deliveries res.2 !! k = Some cd' /\
       (cd_status cd' = DeliveryStatus.MATERIALIZED \/
        cd_status cd' = DeliveryStatus.BLOCKED_CAPABILITY_CHANGED /\
        cr_execution_mode r = Mode.LIVE /\ ~ still_allowed run k.2 d)).
Proof.
  cbv zeta. pose proof (chosen_length locked run buffered d) as Hlen. unfold slots in Hlen.
  destruct (materializePending_cases now locked new_id run buffered d r Hok Hr Hdraws)
    as [[Hd Hp]|(Hl & Hn & Hj & Hdel & Hnone)].
  2:{ split_and!; [done| | |lia|lia|].
      - intros id j. rewrite Hj. by left.
      - intros k cd. by rewrite Hdel.
      - intros Hdisp k. rewrite (Hnone Hdisp). by intros ?%elem_of_nil. }
  split_and!; [apply Hp| | |pose proof (ps_count _ _ _ _ _ _ _ _ _ Hp); lia| |].
  - intros id j Hj.
    destruct (decide (Exists (fun k => refused r (joined run d) k.2 = false /\ new_id k.2 = id)
      (chosen locked run buffered d))) as [Hex|Hnex].
    + apply Exists_exists in Hex as (k & Hin & Href & <-). right. split; [by apply Hdraws|].
      apply chosen_spec in Hin as Hk. destruct Hk as (Hk & (cd & Hcd & Hpe) & Hjoin).
      pose proof (ps_done _ _ _ _ _ _ _ _ _ Hp k cd Hin Hcd) as Hdone. rewrite Href in Hdone.
      destruct Hdone as [Hdel Hjob]. destruct k as [k1 g]. cbn in *. subst k1.
      rewrite Hjob in Hj. simplify_eq. exists g, cd.
      split_and!; [done|done|done|apply speaks_for_job|done|done|done|]. by apply refused_false.
    + left. rewrite <- Hj. symmetry. apply (ps_jobs _ _ _ _ _ _ _ _ _ Hp).
      intros k Hin Href E. apply Hnex, Exists_exists. by exists k.
  - intros k cd Hcd Hne. rewrite (ps_other _ _ _ _ _ _ _ _ _ Hp); [done|].
    intros (_ & (q & Hq & Hpe) & _)%chosen_spec. congruence.
  - pose proof (ps_count _ _ _ _ _ _ _ _ _ Hp). lia.
  - intros _ k Hin. apply chosen_spec in Hin as Hk. destruct Hk as (_ & (cd & Hcd & _) & _).
    pose proof (ps_done _ _ _ _ _ _ _ _ _ Hp k cd Hin Hcd) as Hdone.
    destruct (refused r (joined run d) k.2) eqn:Href.
    + eexists. split; [done|right]. split; [done|]. by apply refused_true.
    + destruct Hdone as [Hdel _]. eexists. split; [done|by left].
Qed.

(** *** The runtime's statements on campaigns, deliveries and jobs *)

Inductive dstep (d : db) : db -> Prop :=
  (** the outbox, its workers and the provider's acknowledgements *)
  | d_outbox d' : Lifecycle.op d d' -> dom (message_jobs d') = dom (message_jobs d) ->
      campaigns d' = campaigns d -> campaign_runs d' = campaign_runs d ->
      campaign_deliveries d' = campaign_deliveries d -> dstep d d'
  (** a job created through the API *)
  | d_api now new_id i : message_jobs d !! new_id = None -> Repo.in_scope i = "runtime-api" ->
      dstep d (Repo.create now new_id i d).2
  (** a statement of a campaign or a run that writes no job and no delivery; the id
      of a new run is in no scope yet *)
  | d_campaign d' : cstep d d' -> message_jobs d' = message_jobs d ->
      campaign_deliveries d' = campaign_deliveries d ->
      (forall k, is_Some (campaign_runs d !! k) -> is_Some (campaign_runs d' !! k)) ->
      (forall k, campaign_runs d !! k = None -> is_Some (campaign_runs d' !! k) ->
         forall id j, message_jobs d !! id = Some j -> mj_idempotency_scope j <> scope_of k) -> dstep d d'
  | d_apply now ids id token report observed :
      dstep d (applyPreflight now ids id token report observed d).2
  | d_resume now ids id report observed : dstep d (resume now ids id report observed d).2
  | d_cancel now ids id : dstep d (cancel now ids id d).2
  | d_reconcile now : dstep d (reconcile now d).2
  | d_materialize now locked new_id run buffered : draws new_id d ->
      dstep d (materializePending now locked new_id run buffered d).2
  | d_retention cutoff limit lr lj : dstep d (Retention.batch cutoff limit lr lj d).

Lemma create_api now new_id i d : campaigns (Repo.create now new_id i d).2 = campaigns d /\
  campaign_runs (Repo.create now new_id i d).2 = campaign_runs d /\
  campaign_deliveries (Repo.create now new_id i d).2 = campaign_deliveries d.
Proof. unfold Repo.create. by destruct (find_where _ _) as [[? ?]|]. Qed.

Lemma dstep_cstep d d' : dstep d d' -> cstep d d'.
Proof.
  intros Hs. destruct Hs.
  - by apply Life.r_other.
  - destruct (create_api now new_id i d) as (? & ? & _). by apply Life.r_other.
  - done.
  - apply Life.r_apply.
  - apply Life.r_resume.
  - apply Life.r_cancel.
  - by apply Life.r_other.
  - apply Life.r_materialize.
  - apply Life.r_retire.
Qed.

Lemma ties_id d : ties d d.
Proof. apply ties_deliveries; [done|done| |]; intros k cd Hk; [left|]; by exists cd. Qed.

Lemma apply_link now ids id token report observed d :
  link_ok d -> link_ok (applyPreflight now ids id token report observed d).2.
Proof.
  intros Hok. unfold applyPreflight. destruct (campaign_runs d !! id) as [r|] eqn:Hr; [|done].
  destruct (owned now token r); cbn [negb]; [|done].
  destruct (capabilitySnapshotChanged _ _ _); [|destruct (bool_decide _)]; cbn [snd].
  - eapply ties_link; [by apply ties_update_run|done].
  - eapply ties_link; [by apply ties_update_run|done].
  - eapply ties_link; [by apply ties_update_run|].
    eapply ties_link; [apply ties_insert; by exists r|].
    eapply ties_link; [apply ties_targets|done].
Qed.

Lemma resume_link now ids id report observed d :
  link_ok d -> link_ok (resume now ids id report observed d).2.
Proof.
  intros Hok. unfold resume. destruct (campaign_runs d !! id) as [r|] eqn:Hr; [|done].
  destruct (mem (cr_status r) _); cbn [negb]; [|done].
  destruct (capabilitySnapshotChanged _ _ _); [done|]. cbv zeta. cbn [snd].
  eapply ties_link; [apply ties_with_campaign|].
  eapply ties_link; [by apply ties_update_run|].
  eapply ties_link; [apply ties_insert; by exists r|].
  eapply ties_link; [apply ties_targets|done].
Qed.

Lemma cancel_link now ids id d : link_ok d -> link_ok (cancel now ids id d).2.
Proof.
  intros Hok. unfold cancel. destruct (campaign_runs d !! id) as [r|] eqn:Hr; [|done].
  destruct (mem (cr_status r) _); cbn [negb]; [|done]. cbv zeta. cbn [snd].
  eapply ties_link; [apply ties_with_campaign|].
  eapply ties_link; [by apply ties_update_run|].
  eapply ties_link; [apply ties_cancel_deliveries|].
  eapply ties_link; [apply ties_cancelJobs|].
  eapply ties_link; [apply ties_insert; by exists r|done].
Qed.

(** Retention deletes a run with its deliveries, and only jobs without a delivery. *)
Lemma retention_link cutoff limit lr lj d : link_ok d -> link_ok (Retention.batch cutoff limit lr lj d).
Proof.
  intros Hok. set (d1 := (Retention.deleteCampaignRuns cutoff limit lr d).2).
  assert (Hd1 : link_ok d1).
  { unfold d1, Retention.deleteCampaignRuns. cbn. set (ids := Retention.run_candidates _ _ _ _). split; cbn.
    - intros k cd [Hcd Hk]%delete_where_Some. destruct (lk_run _ Hok _ _ Hcd) as [r Hr].
      exists r. by apply delete_where_Some.
    - intros k cd [Hcd _]%delete_where_Some. by eapply (lk_pending _ Hok).
    - intros k cd id [Hcd Hk]%delete_where_Some Hid. destruct (lk_job _ Hok _ _ _ Hcd Hid) as (r & j & Hr & Hj & Hs).
      exists r, j. split_and!; [by apply delete_where_Some|done|done].
    - intros id j run Hj Hs [r [Hr Hrun]%delete_where_Some].
      destruct (lk_scope _ Hok _ _ run Hj Hs) as (cd & Hcd & E); [by exists r|].
      exists cd. split; [|done]. by apply delete_where_Some. }
  change (Retention.batch cutoff limit lr lj d) with (Retention.deleteMessageJobs cutoff limit lj d1).2.
  clearbody d1. clear Hok. unfold Retention.deleteMessageJobs. cbn. split; cbn.
  - apply (lk_run _ Hd1).
  - apply (lk_pending _ Hd1).
  - intros k cd id Hcd Hid. destruct (lk_job _ Hd1 _ _ _ Hcd Hid) as (r & j & Hr & Hj & Hs).
    exists r, j. split_and!; [done| |done]. apply delete_where_Some. split; [done|]. apply mem_false.
    intros (j' & _ & HP & _)%Retention.candidates_old. split_bool.
    match goal with H : Retention.referenced _ _ = false |- _ => unfold Retention.referenced in H;
      rewrite exists_where_false in H; specialize (H _ _ Hcd) end. by split_bool.
  - intros id j run [Hj _]%delete_where_Some. by apply (lk_scope _ Hd1).
Qed.

Lemma dstep_link d d' : Life.life_ok d -> dstep d d' -> link_ok d -> link_ok d'.
Proof.
  intros Hlife Hs Hok. destruct Hs as [d' Hop Hdom _ Er Ed|now nid i Hn Hsc|d' Hs Ej Ed Hkeep Hnew|now ids id token report observed
    |now ids id report observed|now ids id|now|now locked nid run buffered Hdraws|cutoff limit lr lj].
  - eapply ties_link; [|done]. apply ties_op; [done| |done|done]. intros id j' Hj' Hn.
    apply not_elem_of_dom in Hn. rewrite <- Hdom in Hn. apply not_elem_of_dom in Hn. congruence.
  - eapply ties_link; [|done]. destruct (create_api now nid i d) as (_ & ? & ?).
    apply ties_op; [by apply Lifecycle.op_create| |done|done]. intros id j' Hj' Hnone.
    unfold Repo.create in Hj'. destruct (find_where _ _) as [[? ?]|]; [cbn in Hj'; congruence|].
    cbn in Hj'. apply lookup_insert_Some in Hj' as [[_ <-]|[_ Hj']]; [done|congruence].
  - eapply ties_link; [by apply ties_run|done].
  - by apply apply_link.
  - by apply resume_link.
  - by apply cancel_link.
  - eapply ties_link; [apply ties_reconcile|done].
  - destruct (campaign_runs d !! run) as [r|] eqn:Hr.
    + destruct (materializePending_cases now locked nid run buffered d r Hok Hr Hdraws)
        as [[_ Hp]|[Hl _]]; [apply Hp|done].
    + unfold DeliveryRepo.materializePending. by rewrite Hr.
  - by apply retention_link.
Qed.

(** States reached from a database without campaigns, deliveries or jobs *)
Definition runs_from_scratch (d : db) : Prop :=
  exists d0, campaigns d0 = ∅ /\ campaign_runs d0 = ∅ /\ campaign_deliveries d0 = ∅ /\
    message_jobs d0 = ∅ /\ rtc dstep d0 d.

Lemma scratch_ok d : runs_from_scratch d -> Life.life_ok d /\ link_ok d.
Proof.
  intros (d0 & Hc & Hr & Hd & Hj & Hs).
  assert (H0 : Life.life_ok d0 /\ link_ok d0).
  { split; [by apply Life.started_ok|]. split; rewrite ?Hd, ?Hj; intros *; by rewrite lookup_empty. }
  clear Hc Hr Hd Hj. induction Hs as [|x y z Hst _ IH]; [done|]. apply IH. destruct H0 as [Hl Hk].
  split; [|by eapply dstep_link]. eapply Life.cstep_ok; [done|by apply dstep_cstep].
Qed.

(** C6: every delivery speaks through one job of its own.  In every state the
    statements reach, the job of a delivery exists and says what the delivery's run
    and target say; no two deliveries share a job; a PENDING delivery has none; and
    every job in the scope of an existing run belongs to the delivery of the group it
    is keyed by, so that a target is never given a second job. *)
Theorem deliveries_stay_linked d (Hd : runs_from_scratch d) :
  (forall k cd id, campaign_deliveries d !! k = Some cd -> cd_message_job_id cd = Some id ->
     exists r j, campaign_runs d !! k.1 = Some r /\ message_jobs d !! id = Some j /\ speaks_for r k j) /\
  (forall k1 cd1 k2 cd2 id, campaign_deliveries d !! k1 = Some cd1 -> campaign_deliveries d !! k2 = Some cd2 ->
     cd_message_job_id cd1 = Some id -> cd_message_job_id cd2 = Some id -> k1 = k2) /\
  (forall k cd, campaign_deliveries d !! k = Some cd -> cd_status cd = DeliveryStatus.PENDING ->
     cd_message_job_id cd = None) /\
  (forall id1 j1 id2 j2 run, is_Some (campaign_runs d !! run) ->
     message_jobs d !! id1 = Some j1 -> message_jobs d !! id2 = Some j2 ->
     mj_idempotency_scope j1 = scope_of run -> mj_idempotency_scope j2 = scope_of run ->
     mj_recipient_id j1 = mj_recipient_id j2 -> id1 = id2).
Proof.
  apply scratch_ok in Hd as [_ Hok]. split_and!.
  - intros k cd id. apply (lk_job _ Hok).
  - intros k1 cd1 k2 cd2 id H1 H2 E1 E2.
    destruct (lk_job _ Hok _ _ _ H1 E1) as (r1 & j1 & _ & Hj1 & S1 & K1 & _).
    destruct (lk_job _ Hok _ _ _ H2 E2) as (r2 & j2 & _ & Hj2 & S2 & K2 & _).
    rewrite Hj1 in Hj2. simplify_eq. rewrite S1 in S2. apply scope_of_inj in S2.
    destruct k1, k2. cbn in *. congruence.
  - intros k cd. apply (lk_pending _ Hok).
  - intros id1 j1 id2 j2 run Hrun H1 H2 S1 S2 Hrec.
    destruct (lk_scope _ Hok _ _ _ H1 S1 Hrun) as (cd1 & Hcd1 & E1).
    destruct (lk_scope _ Hok _ _ _ H2 S2 Hrun) as (cd2 & Hcd2 & E2).
    destruct (lk_job _ Hok _ _ _ Hcd1 E1) as (r1 & q1 & _ & Hq1 & _ & _ & _ & R1 & _).
    destruct (lk_job _ Hok _ _ _ Hcd2 E2) as (r2 & q2 & _ & Hq2 & _ & _ & _ & R2 & _).
    rewrite H1 in Hq1. rewrite H2 in Hq2. simplify_eq. cbn in *. rewrite <- Hrec, R1 in R2.
    rewrite R2 in Hcd1. congruence.
Qed.

End Deliveries.

(** *** A concrete campaign *)

Module Examples.
Import Life.Story.
Abbreviation dstep := (dstep digest iso text_of).
Abbreviation scratch := (runs_from_scratch digest iso text_of).

Lemma text_of_inj a b : text_of a = text_of b -> a = b.
Proof. apply pretty_positive_inj. Qed.

Lemma scratch_step d d' : scratch d -> dstep d d' -> scratch d'.
Proof. intros (d1 & ? & ? & ? & ? & Hr) Hs. exists d1. split_and!; [done..|]. by eapply rtc_r. Qed.

(** A statement while there is no job yet *)
Lemma early d d' : Life.cstep digest iso text_of d d' -> message_jobs d = ∅ -> message_jobs d' = ∅ ->
  campaign_deliveries d' = campaign_deliveries d ->
  (forall k, is_Some (campaign_runs d !! k) -> is_Some (campaign_runs d' !! k)) -> dstep d d'.
Proof.
  intros Hs Hj Hj' Hd Hr. apply d_campaign; [done|congruence|done|done|].
  intros k _ _ id j. by rewrite Hj, lookup_empty.
Qed.

Lemma claim_keeps now token id d k : is_Some (campaign_runs d !! k) ->
  is_Some (campaign_runs (claimPreparation now token id d).2 !! k).
Proof.
  unfold claimPreparation. destruct (update_row _ _ _ _) as [row t] eqn:E. apply (f_equal snd) in E.
  cbn [snd] in *. subst t. cbn. by rewrite lookup_update_row, fmap_is_Some.
Qed.

Lemma running_scratch : scratch running.
Proof.
  apply (scratch_step claimed); [|apply d_apply].
  apply (scratch_step launched).
  2:{ apply early; [apply Life.r_claim|done|done|done|]. intros k. apply claim_keeps. }
  apply (scratch_step targeted).
  2:{ apply early; [by apply Life.r_create|done|done|done|]. intros k [r Hr]. by vm_compute in Hr. }
  apply (scratch_step draft).
  2:{ apply early; [apply Life.c_targets|done|done|done|]. intros k [r Hr]. by vm_compute in Hr. }
  apply (scratch_step d0).
  2:{ apply early; [by apply Life.c_create|done|done|done|]. intros k [r Hr]. by vm_compute in Hr. }
  exists d0. by split_and!.
Qed.

Definition draw (g : string) : uuid := encode g.
Definition nobody (_ : uuid) : bool := false.
Definition dispatched : db := (materializePending digest iso text_of 80 nobody draw 9 100 running).2.

Definition running_row : campaign_run := default paused_row (campaign_runs running !! 9%positive).

Lemma running_draws : draws draw running.
Proof. split; [done|]. intros g g'. apply encode_inj. Qed.

Lemma materialize_sound_witness :
  (materializePending digest iso text_of 80 nobody draw 9 100 running).1 = 1%Z /\
  cr_execution_mode running_row = Mode.LIVE /\ link_ok text_of dispatched.
Proof.
  split; [by vm_compute|]. split; [by vm_compute|].
  apply (materialize_sound digest iso text_of text_of_inj 80 nobody draw 9 100 running running_row).
  - apply (scratch_ok digest iso text_of text_of_inj running running_scratch).
  - vm_compute. reflexivity.
  - apply running_draws.
Defined.

Lemma dispatched_scratch : scratch dispatched.
Proof. eapply scratch_step; [apply running_scratch|]. apply d_materialize, running_draws. Qed.

Lemma deliveries_stay_linked_witness :
  cd_message_job_id <$> campaign_deliveries dispatched !! (9%positive, "g@g.us") = Some (Some (draw "g@g.us")) /\
  forall k cd id, campaign_deliveries dispatched !! k = Some cd -> cd_message_job_id cd = Some id ->
    exists r j, campaign_runs dispatched !! k.1 = Some r /\ message_jobs dispatched !! id = Some j /\
      speaks_for text_of r k j.
Proof.
  split; [by vm_compute|].
  apply (deliveries_stay_linked digest iso text_of text_of_inj dispatched dispatched_scratch).
Defined.
End Examples.
End Deliveries.
