(* ===== verification/CampaignLaunch.v ===== *)
(** * Launching a run and reporting on it

    What [CampaignRunRepository.create] guarantees about the run it inserts, and what
    the progress of a run counts. *)

From S2P Require Import Prelude Schema CampaignPreflight Campaigns CampaignRuns Retention CampaignLifecycle.
Import Persistence RunRepo LifecycleRepo.

Module Launch.

(** *** The snapshot of the targets *)

(** The run target a campaign target becomes *)
Definition snapshot_of (campaignId : uuid) (d : db) (group : string) : option run_target :=
  match campaign_targets d !! (campaignId, group) with
  | Some ct =>
      if ct_enabled ct then
        match gateway_groups d !! (ct_session_id ct, group) with
        | Some g => Some (RunTarget (ct_session_id ct) (gg_name g) (gg_send_capability g)
                      (gg_send_capability_reason g) (gg_capability_revision g) (gg_capability_checked_at g))
        | None => None
        end
      else None
  | None => None
  end.

Lemma snapshot_row_spec runId campaignId d k ct k' rt : campaign_targets d !! k = Some ct ->
  snapshot_row runId campaignId d (k, ct) = Some (k', rt) <->
  k.1 = campaignId /\ k' = (runId, k.2) /\ snapshot_of campaignId d k.2 = Some rt.
Proof.
  intros Hk. unfold snapshot_row, snapshot_of. cbn. case_bool_decide as Hc; cbn.
  2:{ split; [done|]. by intros [? _]. }
  destruct k as [c g]. cbn in *. subst c. rewrite Hk. destruct (ct_enabled ct); [|split; [done|by intros (_ & _ & ?)]].
  destruct (gateway_groups d !! _) as [grp|]; [|split; [done|by intros (_ & _ & ?)]].
  split; [intros [= <- <-]; done|]. by intros (_ & -> & [= <-]).
Qed.

Lemma snapshot_keys_NoDup runId campaignId d l : NoDup l.*1 ->
  (forall kv, kv ∈ l -> campaign_targets d !! kv.1 = Some kv.2) ->
  NoDup (omap (snapshot_row runId campaignId d) l).*1.
Proof.
  induction l as [|[k ct] l IH]; intros Hnd Hl; cbn; [constructor|].
  apply NoDup_cons in Hnd as [Hk Hnd].
  assert (IH' : NoDup (omap (snapshot_row runId campaignId d) l).*1).
  { apply IH; [done|]. intros kv Hin. apply Hl. by right. }
  destruct (snapshot_row runId campaignId d (k, ct)) as [[k' rt]|] eqn:E; [|done].
  cbn. constructor; [|done]. intros Hin. apply Hk.
  apply (snapshot_row_spec _ _ _ k ct) in E as (Hc & -> & _); [|by apply (Hl (k, ct)); left].
  apply list_elem_of_fmap in Hin as ([k2 rt2] & Heq & Hin). cbn in Heq. subst k2.
  apply list_elem_of_omap in Hin as ([k3 ct3] & Hin3 & E3).
  apply snapshot_row_spec in E3 as (Hc3 & Heq & _); [|by apply (Hl (k3, ct3)); right].
  apply list_elem_of_fmap. exists (k3, ct3). split; [|done]. cbn.
  destruct k, k3. cbn in *. congruence.
Qed.

Lemma lookup_snapshot_targets runId campaignId d k : snapshot_targets runId campaignId d !! k =
  if bool_decide (k.1 = runId) then snapshot_of campaignId d k.2 else None.
Proof.
  assert (Hspec : forall rt, snapshot_targets runId campaignId d !! k = Some rt <->
    k.1 = runId /\ snapshot_of campaignId d k.2 = Some rt).
  { intros rt. unfold snapshot_targets. rewrite <- elem_of_list_to_map.
    2:{ apply snapshot_keys_NoDup; [apply NoDup_fst_map_to_list|].
        intros [k0 ct0] Hin. by apply elem_of_map_to_list in Hin. }
    rewrite list_elem_of_omap. split.
    - intros ([k0 ct0] & Hin & E). apply elem_of_map_to_list in Hin.
      apply snapshot_row_spec in E as (_ & -> & ?); [|done]. done.
    - intros [Hk Hs]. pose proof Hs as Hs'. unfold snapshot_of in Hs'.
      destruct (campaign_targets d !! (campaignId, k.2)) as [ct|] eqn:Hct; [|done].
      exists ((campaignId, k.2), ct). split; [by apply elem_of_map_to_list|].
      apply snapshot_row_spec; [done|]. split_and!; [done| |done]. destruct k. cbn in *. by subst. }
  case_bool_decide as Hk.
  - destruct (snapshot_of campaignId d k.2) as [rt|]; [by apply Hspec|].
    destruct (_ !! k) as [rt|] eqn:E; [|done]. by destruct (proj1 (Hspec rt) eq_refl).
  - destruct (_ !! k) as [rt|] eqn:E; [|done]. by destruct (proj1 (Hspec rt) eq_refl).
Qed.

(** *** The launch *)

Lemma create_Created now new_id i d run d' :
  RunRepo.create now new_id i d = (Created run, d') ->
  exists c at_, campaigns d !! ci_campaignId i = Some c /\ c_deleted_at c = None /\
    c_status c = CampaignStatus.DRAFT /\
    differs (ci_expectedCampaignRevision i) (c_revision c) = false /\
    differs (ci_expectedTargetsRevision i) (c_targets_revision c) = false /\
    has_live (ci_campaignId i) d = false /\ exists_where (conflicts i) (campaign_runs d) = false /\
    campaign_runs d' = <[new_id := new_run now at_ i c]> (campaign_runs d) /\
    campaign_run_targets d' = snapshot_targets new_id (ci_campaignId i) d ∪ campaign_run_targets d /\
    campaigns d' = campaigns (with_campaign now (new_run now at_ i c) [CampaignStatus.DRAFT] CampaignStatus.ACTIVE d) /\
    run = select_run new_id d'.
Proof.
  unfold RunRepo.create. destruct (campaigns d !! ci_campaignId i) as [c|] eqn:Hc; [|done].
  destruct (c_deleted_at c) eqn:Hdel; cbn [is_null negb]; [done|].
  destruct (find_by_key _ _ _); [done|].
  destruct (has_live _ _) eqn:Hl; [done|]. destruct (_ || _) eqn:Hrev; [done|].
  apply orb_false_iff in Hrev as [Hr1 Hr2].
  case_bool_decide as Hst; cbn [negb]; [|done]. destruct (_ && _); [done|].
  unfold launch. destruct (exists_where _ _) eqn:Hcf.
  { destruct (find_by_key _ _ _); done. }
  cbv zeta. set (at_ := match c_schedule_type c with ScheduleType.IMMEDIATE => now | _ => _ end).
  intros [= <- <-]. exists c, at_. split_and!; try done.
  - by destruct (bool_decide (ci_executionMode i = Mode.LIVE)).
  - by destruct (bool_decide (ci_executionMode i = Mode.LIVE)).
  - unfold with_campaign, is_live. cbn. by destruct (bool_decide (ci_executionMode i = Mode.LIVE)).
Qed.

Definition same_request (i i' : create_input) : Prop :=
  ci_campaignId i' = ci_campaignId i /\ ci_idempotencyKey i' = ci_idempotencyKey i.

(** C10: a launch happens once.  A launch that succeeds found an undeleted draft at the
    expected revisions without a LIVE run.  Repeating it, with the same key, answers
    with the run it created and changes nothing, and says so when the mode differs;
    and after a LIVE launch every launch of the campaign with another key is refused
    and changes nothing, even one that expects other revisions. *)
Theorem launch_happens_once now new_id i d run d'
    (Hfresh : campaign_runs d !! new_id = None)
    (Hnew : RunRepo.create now new_id i d = (Created run, d')) :
  exists c at_, campaigns d !! ci_campaignId i = Some c /\ c_deleted_at c = None /\
    c_status c = CampaignStatus.DRAFT /\
    campaign_runs d' = <[new_id := new_run now at_ i c]> (campaign_runs d) /\
    (forall e, ci_expectedCampaignRevision i = Some e -> c_revision c = e) /\
    (forall e, ci_expectedTargetsRevision i = Some e -> c_targets_revision c = e) /\
    forall now' new_id' i',
      (same_request i i' ->
         RunRepo.create now' new_id' i' d' =
           (Replayed (mapCampaignRun d' new_id (new_run now at_ i c))
              (negb (bool_decide (ci_executionMode i = ci_executionMode i'))), d')) /\
      (ci_executionMode i = Mode.LIVE -> ci_campaignId i' = ci_campaignId i ->
         find_by_key (ci_campaignId i') (ci_idempotencyKey i') d' = None ->
         RunRepo.create now' new_id' i' d' = (NotLaunchable, d')).
Proof.
  apply create_Created in Hnew
    as (c & at_ & Hc & Hdel & Hst & Hr1 & Hr2 & Hl & Hcf & Hruns & _ & Hcs & _).
  assert (Hexp : forall o cur, differs o cur = false -> forall e, o = Some e -> cur = e).
  { intros o cur Hd e ->. unfold differs in Hd. apply negb_false_iff, Z.eqb_eq in Hd. done. }
  exists c, at_. split_and!; try done; [by apply Hexp|by apply Hexp|].
  intros now' new_id' i'.
  assert (Hc' : ci_campaignId i' = ci_campaignId i ->
    exists c', campaigns d' !! ci_campaignId i' = Some c' /\ c_deleted_at c' = None).
  { intros Hid. rewrite Hcs, Hid. unfold with_campaign. destruct (is_live _); [|by exists c].
    rewrite (Life.lookup_set_status now), Hc. cbn. eexists. split; [done|]. by destruct (_ && _). }
  unfold RunRepo.create. split.
  - intros [Hid Hkey]. destruct (Hc' Hid) as (c' & Hc1 & Hdel'). rewrite Hc1, Hdel'. cbn [is_null negb].
    unfold find_by_key. rewrite Hruns.
    rewrite (find_where_unique _ _ new_id (new_run now at_ i c)); [done| |apply lookup_insert_eq|].
    + rewrite exists_where_false in Hcf.
      assert (Hone : forall k r, <[new_id := new_run now at_ i c]> (campaign_runs d) !! k = Some r ->
        bool_decide (cr_campaign_id r = ci_campaignId i') && bool_decide (cr_idempotency_key r = ci_idempotencyKey i') = true ->
        k = new_id).
      { intros k r [[<- _]|[_ Hr]]%lookup_insert_Some HP; [done|exfalso]. specialize (Hcf _ _ Hr).
        split_bool. unfold conflicts in Hcf. rewrite !bool_decide_true in Hcf by congruence. done. }
      intros k1 v1 k2 v2 H1 H2 P1 P2. rewrite (Hone _ _ H1 P1), (Hone _ _ H2 P2). done.
    + cbn. by rewrite !bool_decide_true by done.
  - intros Hlive Hid Hkey. destruct (Hc' Hid) as (c' & Hc1 & Hdel'). rewrite Hc1, Hdel'. cbn [is_null negb].
    rewrite Hkey.
    assert (has_live (ci_campaignId i') d' = true) as ->; [|done].
    apply exists_where_true. exists new_id, (new_run now at_ i c).
    rewrite Hruns, lookup_insert_eq. split; [done|]. unfold is_live. cbn. by rewrite !bool_decide_true by done.
Qed.

(** A run's targets are those of its launch.  A successful launch copies exactly the
    enabled targets of the campaign whose group exists, each with the capability and
    revision the group has at that moment, and leaves the targets of every other run
    alone. *)
Theorem launch_snapshots_targets now new_id i d run d'
    (Hfresh : forall g, campaign_run_targets d !! (new_id, g) = None)
    (Hnew : RunRepo.create now new_id i d = (Created run, d')) :
  (forall g, campaign_run_targets d' !! (new_id, g) = snapshot_of (ci_campaignId i) d g) /\
  (forall k, k.1 <> new_id -> campaign_run_targets d' !! k = campaign_run_targets d !! k).
Proof.
  apply create_Created in Hnew as (c & at_ & _ & _ & _ & _ & _ & _ & _ & _ & Ht & _).
  rewrite Ht. split.
  - intros g. rewrite lookup_union, Hfresh, lookup_snapshot_targets. cbn. rewrite bool_decide_true by done.
    by destruct (snapshot_of _ _ _).
  - intros k Hk. rewrite lookup_union, lookup_snapshot_targets, bool_decide_false by done.
    by destruct (campaign_run_targets d !! k).
Qed.

(** *** Progress *)

Lemma status_listed s : s ∈ all_statuses.
Proof. apply (bool_decide_unpack _). by destruct s. Qed.

Lemma sum_by_status {A : Type} (f : A -> DeliveryStatus.t) (l : list A) :
  foldr (fun s total => Z.of_nat (length (List.filter (fun x => bool_decide (f x = s)) l)) + total)%Z 0%Z all_statuses
  = Z.of_nat (length l).
Proof.
  induction l as [|x l IH]; [done|].
  cbn [List.filter length]. rewrite Nat2Z.inj_succ, <- IH. clear IH. unfold all_statuses. cbn [foldr].
  destruct (f x); repeat (case_bool_decide; try done); cbn [length]; lia.
Qed.

Lemma count_where_and {K V : Type} `{Countable K} (P Q : K -> V -> bool) (t : gmap K V) :
  count_where (fun k v => P k v && Q k v) t =
  Z.of_nat (length (List.filter (fun kv => Q kv.1 kv.2) (select_where P t))).
Proof.
  unfold count_where, select_where. do 2 f_equal. induction (map_to_list t) as [|[k v] l IH]; [done|].
  cbn. destruct (P k v) eqn:EP; cbn; [|done]. destruct (Q k v); cbn; by rewrite IH.
Qed.

(** The sum of the twelve counts a client sees *)
Definition reported (p : progress) : Z :=
  (pg_pending p + pg_materialized p + pg_processing p + pg_dryRunCompleted p + pg_accepted p + pg_sent p
   + pg_delivered p + pg_read p + pg_failed p + pg_unknown p + pg_blocked p + pg_cancelled p)%Z.

(** Progress counts every delivery once.  The total a run reports is the number of
    its deliveries, and it is the sum of the twelve reported counts. *)
Theorem progress_counts_all id d :
  let p := mapProgress (delivery_counts id d) in
  pg_total p = Z.of_nat (length (deliveries_of id d)) /\
  pg_total p = reported p.
Proof.
  cbv zeta. split; [|unfold reported; cbn; lia]. unfold mapProgress. cbn [pg_total].
  unfold deliveries_of. rewrite <- (sum_by_status (fun kv : (uuid * string) * delivery => cd_status kv.2)).
  unfold all_statuses. cbn [foldr]. unfold delivery_counts. by rewrite !count_where_and.
Qed.

(** *** A concrete launch *)

Module Examples.
Import Life.Story.
Definition request : create_input := CreateInput 1 "k" Mode.LIVE (Some 1%Z) (Some 1%Z).

Definition launched_run : option run_dto :=
  match (RunRepo.create 30 9 request targeted).1 with Created r => r | _ => None end.

Lemma request_launches : RunRepo.create 30 9 request targeted = (Created launched_run, launched).
Proof. reflexivity. Qed.

Lemma launch_happens_once_witness :
  campaign_runs targeted !! 9%positive = None /\
  RunRepo.create 99 10 (CreateInput 1 "other" Mode.DRY_RUN None None) launched = (NotLaunchable, launched).
Proof.
  split; [by vm_compute|].
  destruct (launch_happens_once 30 9 request targeted launched_run launched)
    as (c & at_ & _ & _ & _ & _ & _ & _ & H); [by vm_compute|apply request_launches|].
  apply H; [done|done|]. vm_compute. reflexivity.
Defined.

Lemma launch_snapshots_targets_witness :
  rt_capability_revision <$> campaign_run_targets launched !! (9%positive, "g@g.us") = Some 4%Z /\
  forall g, campaign_run_targets launched !! (9%positive, g) = snapshot_of 1 targeted g.
Proof.
  split; [by vm_compute|].
  apply (launch_snapshots_targets 30 9 request targeted launched_run launched); [done|apply request_launches].
Defined.
End Examples.
End Launch.
