(* ===== verification/CampaignService.v ===== *)
(** * Campaign requests

    [src/modules/campaigns/campaign.service.ts]: what the HTTP controllers call.  A
    request validates its input, reads, checks the allowlist and the revisions the
    client expects, and makes at most one write; between any two of its statements
    other clients may write. *)

From S2P Require Import Prelude Schema SendPolicy CampaignPreflight Campaigns CampaignLifecycle CampaignVersions Json Service.

(** A field of a PATCH body: absent, [null] (which [IsOptional] lets pass) or a value *)
Inductive field (A : Type) : Type := Absent | Null | Value (a : A).
Arguments Absent {A}.
Arguments Null {A}.
Arguments Value {A} a.

(** [new Date(string)] *)
Inductive date : Set := InvalidDate | Instant (t : timestamp).

(** ** The schedule *)

Module Schedule.
#[local] Arguments String.append !_ _ /.
Section Schedule.
(** [isISO8601(_, { strict: true, strictSeparator: true })] of class-validator *)
Variable isISO8601 : string -> bool.
Variable parse_date : string -> date.

Definition code (c : Ascii.ascii) : nat := Ascii.nat_of_ascii c.
Definition is_digit (c : Ascii.ascii) : bool := (48 <=? code c)%nat && (code c <=? 57)%nat.
Definition is_char (n : nat) (c : Ascii.ascii) : bool := (code c =? n)%nat.
Definition is_sign (c : Ascii.ascii) : bool := is_char 43 c || is_char 45 c.
(** [.] of a regular expression *)
Definition is_dot (c : Ascii.ascii) : bool := negb (is_char 10 c || is_char 13 c).

(** A string that matches one class per code unit *)
Fixpoint matches (classes : list (Ascii.ascii -> bool)) (s : string) : bool :=
  match classes, s with
  | [], EmptyString => true
  | k :: classes', String c s' => k c && matches classes' s'
  | _, _ => false
  end.

(** [(?:Z|[+-]\d{2}:\d{2})$] *)
Definition is_zone (s : string) : bool :=
  matches [is_char 90] s
  || matches [is_sign; is_digit; is_digit; is_char 58; is_digit; is_digit] s.

(** [.+(?:Z|[+-]\d{2}:\d{2})$]; [seen]: a code unit was matched by [.+] *)
Fixpoint time_and_zone (seen : bool) (s : string) : bool :=
  (seen && is_zone s) ||
  match s with
  | String c s' => is_dot c && time_and_zone true s'
  | EmptyString => false
  end.

Definition date_classes : list (Ascii.ascii -> bool) :=
  [is_digit; is_digit; is_digit; is_digit; is_char 45; is_digit; is_digit; is_char 45;
   is_digit; is_digit; is_char 84].

Fixpoint date_then (classes : list (Ascii.ascii -> bool)) (s : string) : bool :=
  match classes, s with
  | [], _ => time_and_zone false s
  | k :: classes', String c s' => k c && date_then classes' s'
  | _ :: _, EmptyString => false
  end.

(** [/^\d{4}-\d{2}-\d{2}T.+(?:Z|[+-]\d{2}:\d{2})$/u.test(value)] *)
Definition hasExplicitTimeAndZone (value : string) : bool := date_then date_classes value.

Definition conflict_422 (code message : string) : failure :=
  Refused HttpStatus.UNPROCESSABLE_ENTITY code message.

(** The [Date] is compared with [new Date()]; the comparison with an invalid one is false. *)
Definition in_past (d : date) (now : timestamp) : bool :=
  match d with Instant t => (t <=? now)%Z | InvalidDate => false end.

Definition resolveSchedule (scheduleType : ScheduleType.t) (value : option string)
    : serv (ScheduleType.t * option date) :=
  match scheduleType with
  | ScheduleType.IMMEDIATE => ret (ScheduleType.IMMEDIATE, None)
  | ScheduleType.ONCE =>
      let required := conflict_422 "CAMPAIGN_SCHEDULE_REQUIRED" "scheduledAt is required for ONCE campaigns" in
      match value with
      | None => throw required
      | Some v =>
          assert! truthy v else required in
          assert! hasExplicitTimeAndZone v && isISO8601 v
            else conflict_422 "CAMPAIGN_SCHEDULE_INVALID" "scheduledAt must be a valid ISO-8601 date-time" in
          let! now := now_ in
          assert! negb (in_past (parse_date v) now)
            else conflict_422 "CAMPAIGN_SCHEDULE_IN_PAST" "scheduledAt must be in the future" in
          ret (ScheduleType.ONCE, Some (parse_date v))
      end
  end.

Lemma reads_resolveSchedule t v : reads (resolveSchedule t v).
Proof. unfold resolveSchedule. destruct t; walk. Qed.

Lemma silent_resolveSchedule t v : silent (resolveSchedule t v).
Proof.
  unfold resolveSchedule. destruct t; [apply silent_ret|]. destruct v as [v|]; [|apply silent_throw].
  destruct (truthy v); [|apply silent_throw]. destruct (_ && _); [|apply silent_throw].
  apply silent_bind; [apply silent_now|intros now]. destruct (negb _); [apply silent_ret|apply silent_throw].
Qed.

(** An accepted ONCE schedule has an explicit time and zone and is not in the past. *)
Lemma resolveSchedule_ok t v e n d s n' d' : resolveSchedule t v e n d = (inr s, n', d') ->
  s.1 = t /\
  match t with
  | ScheduleType.IMMEDIATE => s.2 = None
  | ScheduleType.ONCE => exists w, v = Some w /\ hasExplicitTimeAndZone w = true /\ isISO8601 w = true /\
      s.2 = Some (parse_date w) /\ in_past (parse_date w) (clock e n) = false
  end.
Proof.
  unfold resolveSchedule. destruct t; [by intros [= <- _ _]|]. destruct v as [w|]; [|done].
  destruct (truthy w); [|done]. destruct (_ && _) eqn:E; [|done]. apply andb_true_iff in E as [E1 E2].
  intros (now & n1 & d1 & [= -> <- <-] & E)%bind_ok. destruct (in_past _ _) eqn:Ep; [done|].
  injection E as <- _ _. split; [done|]. by exists w.
Qed.
End Schedule.

(** *** The regular expression *)

Fixpoint all_chars (P : Ascii.ascii -> bool) (s : string) : bool :=
  match s with EmptyString => true | String c s' => P c && all_chars P s' end.

(** What the expression denotes: a date, [T], at least one code unit that is no line
    terminator, and a zone *)
Definition denotes_time_and_zone (value : string) : Prop := exists day mid zone,
  value = (day ++ mid ++ zone)%string /\ matches date_classes day = true /\
  mid <> EmptyString /\ all_chars is_dot mid = true /\ is_zone zone = true.

Lemma time_and_zone_spec seen s : time_and_zone seen s = true <-> exists mid zone,
  s = (mid ++ zone)%string /\ (seen = true \/ mid <> EmptyString) /\ all_chars is_dot mid = true /\
  is_zone zone = true.
Proof.
  revert seen. induction s as [|c s IH]; intros seen; cbn [time_and_zone].
  - rewrite orb_false_r, andb_true_iff. split.
    + intros [-> Hz]. exists EmptyString, EmptyString. auto.
    + intros ([|c mid] & zone & E & Hs & _ & Hz); [|done]. cbn in E. subst. by destruct Hs.
  - rewrite orb_true_iff, !andb_true_iff, (IH true). split.
    + intros [[-> Hz]|[Hc (mid & zone & -> & _ & Hm & Hz)]].
      * exists EmptyString, (String c s). auto.
      * exists (String c mid), zone. cbn. rewrite Hc, Hm. auto.
    + intros ([|c' mid] & zone & E & Hs & Hm & Hz); cbn in E.
      * left. subst. by destruct Hs.
      * injection E as <- ->. cbn in Hm. apply andb_true_iff in Hm as [Hc Hm]. right. split; [done|].
        exists mid, zone. auto.
Qed.

Lemma date_then_spec classes s : date_then classes s = true <-> exists day rest,
  s = (day ++ rest)%string /\ matches classes day = true /\ time_and_zone false rest = true.
Proof.
  revert s. induction classes as [|k classes IH]; intros s; cbn.
  - split; [intros H; by exists EmptyString, s|]. by intros ([|c day] & rest & -> & Hd & H).
  - destruct s as [|c s]; [split; [done|by intros ([|c day] & rest & E & Hd & H)]|].
    rewrite andb_true_iff, IH. split.
    + intros [Hc (day & rest & -> & Hd & H)]. exists (String c day), rest. cbn. by rewrite Hc.
    + intros ([|c' day] & rest & E & Hd & H); [done|]. cbn in E, Hd. injection E as <- ->.
      apply andb_true_iff in Hd as [Hc Hd]. split; [done|]. by exists day, rest.
Qed.

(** The schedule check accepts exactly the texts its regular expression denotes: a
    date [yyyy-mm-dd], the letter [T], a non-empty time without line terminators, and
    [Z] or a signed offset of hours and minutes at the very end. *)
Theorem schedule_pattern_exact value :
  hasExplicitTimeAndZone value = true <-> denotes_time_and_zone value.
Proof.
  unfold hasExplicitTimeAndZone, denotes_time_and_zone. rewrite date_then_spec. split.
  - intros (day & rest & -> & Hd & (mid & zone & -> & [?|Hne] & Hm & Hz)%time_and_zone_spec); [done|].
    by exists day, mid, zone.
  - intros (day & mid & zone & -> & Hd & Hne & Hm & Hz). exists day, (mid ++ zone)%string.
    split; [done|split; [done|]]. apply time_and_zone_spec. exists mid, zone. auto.
Qed.
End Schedule.

(** ** [CampaignService] *)

Module CampaignService.
Section Service.
Variable cfg : config.
(** The [uuid] a string that [isUUID] accepts stands for *)
Variable isUUID : string -> option uuid.
Variable isISO8601 : string -> bool.
Variable parse_date : string -> date.
(** [Date.prototype.toISOString] of a valid date *)
Variable toISOString : timestamp -> string.
(** [createHash('sha256').update(_).digest('hex')] *)
Variable sha256 : string -> string.

Import Json.

Definition bad_request (code message : string) : failure := Refused HttpStatus.BAD_REQUEST code message.
Definition not_found (code message : string) : failure := Refused HttpStatus.NOT_FOUND code message.
Definition conflict (code message : string) : failure := Refused HttpStatus.CONFLICT code message.
Definition unprocessable (code message : string) : failure :=
  Refused HttpStatus.UNPROCESSABLE_ENTITY code message.

Definition campaign_not_found : failure := not_found "CAMPAIGN_NOT_FOUND" "Campaign not found".

Definition allowed (sessionId : string) : bool := SessionScope.isAllowed cfg sessionId.

Definition nonBlank (value name : string) : serv string :=
  assert! truthy (trim value) else Exception_ (BadRequest (name ++ " must not be blank")) in
  ret (trim value).

(** [dto.name === undefined ? current.name : this.nonBlank(dto.name, 'name')] *)
Definition patched (v : field string) (current name : string) : serv string :=
  match v with
  | Absent => ret current
  | Null => throw (JsError "Cannot read properties of null (reading 'trim')")
  | Value s => nonBlank s name
  end.

Definition sessionExists (sessionId : string) (d : db) : bool :=
  negb (is_null (gateway_sessions d !! sessionId)).

(** [CreateCampaignDto] *)
Record create_dto := CreateDto {
  d_sessionId : string; d_name : string; d_text : string;
  d_scheduleType : ScheduleType.t; d_scheduledAt : option string }.

Definition type_text (t : ScheduleType.t) : string :=
  match t with ScheduleType.IMMEDIATE => "IMMEDIATE" | ScheduleType.ONCE => "ONCE" end.

(** [JSON.stringify({ ...input, scheduledAt: input.scheduledAt?.toISOString() ?? null })] *)
Definition hash_body (sessionId name text : string) (t : ScheduleType.t) (iso : option string) : string :=
  ("{" ++ member "sessionId" (json_string sessionId)
    ("," ++ member "name" (json_string name)
    ("," ++ member "text" (json_string text)
    ("," ++ member "scheduleType" (json_string (type_text t))
    ("," ++ member "scheduledAt" (json_nullable iso) "}")))))%string.

(** [scheduledAt?.toISOString()]; an invalid date throws. *)
Definition iso_of (d : option date) : serv (option timestamp) :=
  match d with
  | None => ret None
  | Some (Instant t) => ret (Some t)
  | Some InvalidDate => throw (JsError "Invalid time value")
  end.

Definition create (dto : create_dto) (rawIdempotencyKey : option string) : serv (uuid * campaign * bool) :=
  assert! allowed (d_sessionId dto)
    else Exception_ (Forbidden "Session is not in OPENWA_ALLOWED_SESSION_IDS") in
  match rawIdempotencyKey with
  | None => throw (bad_request "CAMPAIGN_IDEMPOTENCY_KEY_REQUIRED" "Idempotency-Key header is required")
  | Some raw =>
      assert! truthy (trim raw)
        else bad_request "CAMPAIGN_IDEMPOTENCY_KEY_REQUIRED" "Idempotency-Key header is required" in
      match isUUID (trim raw) with
      | None => throw (bad_request "CAMPAIGN_IDEMPOTENCY_KEY_INVALID" "Idempotency-Key must be a UUID")
      | Some idempotencyKey =>
          let! known := query (fun _ d => sessionExists (d_sessionId dto) d) in
          assert! known else unprocessable "CAMPAIGN_SESSION_NOT_FOUND" "Session is not synchronized" in
          let! schedule := Schedule.resolveSchedule isISO8601 parse_date (d_scheduleType dto) (d_scheduledAt dto) in
          let! name := nonBlank (d_name dto) "name" in
          let! text := nonBlank (d_text dto) "text" in
          let! scheduledAt := iso_of schedule.2 in
          let requestHash :=
            sha256 (hash_body (d_sessionId dto) name text schedule.1 (toISOString <$> scheduledAt)) in
          let! result := await (fun now ids => CampaignRepo.create now (ids EmptyString)
            (CampaignRepo.CreateInput (d_sessionId dto) name text schedule.1 scheduledAt
               idempotencyKey requestHash)) in
          assert! bool_decide (CampaignRepo.ca_requestHash result = Some requestHash)
            else conflict "CAMPAIGN_IDEMPOTENCY_CONFLICT"
              "Idempotency-Key was already used with a different campaign payload" in
          assert! negb (CampaignRepo.ca_deleted result)
            else conflict "CAMPAIGN_IDEMPOTENCY_KEY_RETIRED"
              "Idempotency-Key belongs to a deleted campaign and cannot be reused" in
          ret (CampaignRepo.ca_id result, CampaignRepo.ca_campaign result, CampaignRepo.ca_created result)
      end
  end.

(** [!row || !allowedSessionIds.includes(row.sessionId)] *)
Definition visible {A : Type} (session : A -> string) (row : option A) : serv A :=
  match row with
  | Some a => assert! allowed (session a) else campaign_not_found in ret a
  | None => throw campaign_not_found
  end.

Definition get (id : uuid) : serv campaign :=
  let! row := query (fun _ d => CampaignRepo.find id false d) in
  visible c_session_id row.

(** [UpdateCampaignDto] *)
Record update_dto := UpdateDto {
  u_expectedRevision : option Z; u_name : field string; u_text : field string;
  u_scheduleType : field ScheduleType.t; u_scheduledAt : field string }.

Definition touched {A : Type} (v : field A) : bool := match v with Absent => false | _ => true end.

Definition expects (expected : option Z) (current : Z) : bool :=
  match expected with Some e => (e =? current)%Z | None => true end.

Definition patched_schedule (dto : update_dto) (current : campaign) : serv (ScheduleType.t * option date) :=
  if touched (u_scheduleType dto) || touched (u_scheduledAt dto) then
    Schedule.resolveSchedule isISO8601 parse_date
      (match u_scheduleType dto with Value t => t | _ => c_schedule_type current end)
      (match u_scheduledAt dto with
       | Absent => toISOString <$> c_scheduled_at current
       | Null => None
       | Value s => Some s
       end)
  else ret (c_schedule_type current, Instant <$> c_scheduled_at current).

(** The driver writes an invalid date as a text that the column refuses. *)
Definition stored_date (d : option date) : serv (option timestamp) :=
  match d with
  | None => ret None
  | Some (Instant t) => ret (Some t)
  | Some InvalidDate =>
      let! _ := query (fun _ _ => tt) in
      throw (Broken "invalid input syntax for type timestamp with time zone")
  end.

Definition not_editable (message : string) : failure := conflict "CAMPAIGN_NOT_EDITABLE" message.

Definition update (id : uuid) (dto : update_dto) : serv campaign :=
  let! current := get id in
  assert! CampaignRepo.editable current else not_editable "Only DRAFT campaigns can be edited" in
  assert! expects (u_expectedRevision dto) (c_revision current)
    else conflict "CAMPAIGN_REVISION_CONFLICT" "Campaign changed after it was loaded" in
  let! schedule := patched_schedule dto current in
  let! name := patched (u_name dto) (c_name current) "name" in
  let! text := patched (u_text dto) (c_text current) "text" in
  let! scheduledAt := stored_date schedule.2 in
  let! updated := await (fun now _ => CampaignRepo.update now id
    (CampaignRepo.Content name text schedule.1 scheduledAt) (c_revision current)) in
  match updated with
  | Some c => ret c
  | None =>
      let! latest := query (fun _ d => CampaignRepo.find id false d) in
      throw (if match latest with Some l => CampaignRepo.editable l | None => false end
             then conflict "CAMPAIGN_REVISION_CONFLICT" "Campaign changed while the update was being applied"
             else not_editable "Campaign is no longer editable")
  end.

(** [getTargetsSnapshot], [getPreflightSnapshot]: one REPEATABLE READ transaction *)
Definition snapshot (id : uuid) (d : db) : option (campaign * list CampaignPreflight.target) :=
  (fun c => (c, CampaignRepo.listTargets id d)) <$> CampaignRepo.find id false d.

Definition listTargets (id : uuid) : serv (list CampaignPreflight.target * Z * option target_source) :=
  let! row := query (fun _ d => snapshot id d) in
  let! s := visible (fun s => c_session_id s.1) row in
  ret (s.2, c_targets_revision s.1, c_target_source s.1).

Definition targets_conflict (message : string) : failure := conflict "CAMPAIGN_TARGETS_REVISION_CONFLICT" message.

(** What the two replacements answer *)
Definition targets_data : Type := list CampaignPreflight.target * Z * option target_source.

(** The checks before either replacement *)
Definition draft_targets (id : uuid) (expectedTargetsRevision : option Z) : serv campaign :=
  let! c := get id in
  assert! CampaignRepo.editable c else not_editable "Only DRAFT campaign targets can be edited" in
  assert! expects expectedTargetsRevision (c_targets_revision c)
    else targets_conflict "Campaign targets changed after they were loaded" in
  ret c.

Definition replaceTargets (id : uuid) (groupIds : list string) (expectedTargetsRevision : option Z)
    : serv targets_data :=
  let! c := draft_targets id expectedTargetsRevision in
  assert! (length groupIds <=? 1000)%nat
    else unprocessable "CAMPAIGN_TARGET_LIMIT_EXCEEDED" "A campaign can contain at most 1000 unique group targets" in
  assert! bool_decide (NoDup groupIds)
    else unprocessable "CAMPAIGN_TARGET_DUPLICATE" "Duplicate group target IDs are not allowed" in
  let! result := await (fun now _ => CampaignRepo.replaceTargets now id groupIds (c_targets_revision c)) in
  match result with
  | CampaignRepo.CampaignNotFound => throw campaign_not_found
  | CampaignRepo.NotEditable => throw (not_editable "Campaign is no longer editable")
  | CampaignRepo.TargetsRevisionConflict _ =>
      throw (targets_conflict "Campaign targets changed while the replacement was being applied")
  | CampaignRepo.InvalidTargets missing mismatched =>
      throw (if is_null (head mismatched)
             then unprocessable "CAMPAIGN_TARGET_NOT_FOUND"
                    "One or more groups are not present in the durable group read model"
             else unprocessable "CAMPAIGN_TARGET_SESSION_MISMATCH"
                    "One or more groups do not belong to the campaign session")
  | CampaignRepo.TargetsApplied targets revision source => ret (targets, revision, source)
  (** not an answer of this statement *)
  | CampaignRepo.SourceNotFound | CampaignRepo.SourceSessionMismatch _
  | CampaignRepo.SourceRevisionConflict _ => throw (Broken EmptyString)
  end.

Definition source_not_found : failure :=
  not_found "CAMPAIGN_TARGET_SOURCE_NOT_FOUND" "Saved group list not found".

Definition applyGroupListTargets (id groupListId : uuid)
    (expectedMembershipRevision expectedTargetsRevision : option Z) : serv targets_data :=
  let! c := draft_targets id expectedTargetsRevision in
  let! result := await (fun now _ => CampaignRepo.applyGroupListTargets now id groupListId
    (c_targets_revision c) expectedMembershipRevision) in
  match result with
  | CampaignRepo.CampaignNotFound => throw campaign_not_found
  | CampaignRepo.NotEditable => throw (not_editable "Campaign is no longer editable")
  | CampaignRepo.TargetsRevisionConflict _ =>
      throw (targets_conflict "Campaign targets changed while the saved list was being applied")
  | CampaignRepo.SourceNotFound => throw source_not_found
  | CampaignRepo.SourceSessionMismatch session =>
      throw (if truthy session && allowed session
             then unprocessable "CAMPAIGN_TARGET_SOURCE_SESSION_MISMATCH"
                    "Saved group list does not belong to the campaign session"
             else source_not_found)
  | CampaignRepo.SourceRevisionConflict _ =>
      throw (conflict "CAMPAIGN_TARGET_SOURCE_REVISION_CONFLICT"
               "Saved group-list membership changed after it was loaded")
  | CampaignRepo.TargetsApplied targets revision source => ret (targets, revision, source)
  (** not an answer of this statement *)
  | CampaignRepo.InvalidTargets _ _ => throw (Broken EmptyString)
  end.

(** [CampaignPreflightService.evaluate]: its read of the session is one await *)
Definition evaluate (executionMode : Mode.t) (sessionId text : string)
    (targets : list CampaignPreflight.target) (campaignRevision targetsRevision : Z)
    : serv Preflight.report :=
  query (fun now d =>
    CampaignPreflight.evaluate cfg now executionMode sessionId text targets campaignRevision targetsRevision d).

Definition preflight (id : uuid) (executionMode : Mode.t) : serv Preflight.report :=
  let! row := query (fun _ d => snapshot id d) in
  let! s := visible (fun s => c_session_id s.1) row in
  evaluate executionMode (c_session_id s.1) (c_text s.1) s.2 (c_revision s.1) (c_targets_revision s.1).

Definition delete (id : uuid) (expectedRevision expectedTargetsRevision : Z) : serv unit :=
  let! result := await (fun now _ => CampaignRepo.delete now id (OPENWA_ALLOWED_SESSION_IDS cfg)
    expectedRevision expectedTargetsRevision) in
  match result with
  | CampaignRepo.NotFound => throw campaign_not_found
  | CampaignRepo.AlreadyDeleted | CampaignRepo.Deleted => ret tt
  | CampaignRepo.DeleteRevisionConflict =>
      throw (conflict "CAMPAIGN_REVISION_CONFLICT"
               "Campaign content or targets changed after deletion was requested")
  | CampaignRepo.DeleteStateConflict =>
      throw (conflict "CAMPAIGN_DELETE_STATE_CONFLICT"
               "ACTIVE or PAUSED campaigns must have their LIVE run cancelled before deletion")
  | CampaignRepo.DeleteRunConflict =>
      throw (conflict "CAMPAIGN_DELETE_RUN_CONFLICT"
               "Campaign has a non-terminal run that must be cancelled before deletion")
  end.

(** *** Reads and refusals *)

Lemma reads_nonBlank v f : reads (nonBlank v f).
Proof. unfold nonBlank. walk. Qed.

Lemma reads_patched v s f : reads (patched v s f).
Proof. destruct v; cbn; [walk|walk|apply reads_nonBlank]. Qed.

Lemma reads_iso_of o : reads (iso_of o).
Proof. unfold iso_of. walk. Qed.

Lemma reads_stored_date o : reads (stored_date o).
Proof. unfold stored_date. walk. Qed.

Lemma reads_visible {A} (s : A -> string) row : reads (visible s row).
Proof. unfold visible. walk. Qed.

Lemma reads_get id : reads (get id).
Proof. unfold get. apply reads_bind; [walk|intros ?; apply reads_visible]. Qed.

Lemma reads_patched_schedule dto c : reads (patched_schedule dto c).
Proof. unfold patched_schedule. apply reads_if; [apply Schedule.reads_resolveSchedule|walk]. Qed.

Lemma reads_draft_targets id r : reads (draft_targets id r).
Proof. unfold draft_targets. apply reads_bind; [apply reads_get|intros c; walk]. Qed.

Lemma reads_listTargets id : reads (listTargets id).
Proof.
  unfold listTargets. apply reads_bind; [walk|intros ?]. apply reads_bind; [apply reads_visible|intros ?; walk].
Qed.

Lemma reads_preflight id mode : reads (preflight id mode).
Proof.
  unfold preflight. apply reads_bind; [walk|intros ?]. apply reads_bind; [apply reads_visible|intros ?].
  unfold evaluate. walk.
Qed.

(** The writes that answer with a refusal wrote nothing. *)
Lemma create_answer now new_id i d :
  CampaignRepo.ca_created (CampaignRepo.create now new_id i d).1 = false ->
  (CampaignRepo.create now new_id i d).2 = d.
Proof. unfold CampaignRepo.create. by destruct (find_where _ _) as [[k c]|]. Qed.

Lemma update_answer now id i rev d :
  (CampaignRepo.update now id i rev d).1 = None -> (CampaignRepo.update now id i rev d).2 = d.
Proof.
  unfold CampaignRepo.update. destruct (update_row _ _ _ _) as [row cs] eqn:E. cbn. intros ->.
  apply update_row_None in E as [-> _]. by destruct d.
Qed.

Definition applied (a : CampaignRepo.targets_answer) : bool :=
  match a with CampaignRepo.TargetsApplied _ _ _ => true | _ => false end.

Lemma replace_answer now id ids rev d :
  applied (CampaignRepo.replaceTargets now id ids rev d).1 = false ->
  (CampaignRepo.replaceTargets now id ids rev d).2 = d.
Proof. unfold CampaignRepo.replaceTargets. repeat case_match; done. Qed.

Lemma apply_answer now id l rev mrev d :
  applied (CampaignRepo.applyGroupListTargets now id l rev mrev d).1 = false ->
  (CampaignRepo.applyGroupListTargets now id l rev mrev d).2 = d.
Proof. unfold CampaignRepo.applyGroupListTargets. repeat case_match; done. Qed.

Definition deleted_now (a : CampaignRepo.delete_answer) : bool :=
  match a with CampaignRepo.Deleted => true | _ => false end.

Lemma delete_answer now id allowedSessionIds rev trev d :
  deleted_now (CampaignRepo.delete now id allowedSessionIds rev trev d).1 = false ->
  (CampaignRepo.delete now id allowedSessionIds rev trev d).2 = d.
Proof. unfold CampaignRepo.delete. repeat case_match; done. Qed.

(** The answer of a creation that wrote is accepted: its hash is the request's. *)
Definition fresh (hash : string) (a : CampaignRepo.create_answer) : bool :=
  CampaignRepo.ca_created a && bool_decide (CampaignRepo.ca_requestHash a = Some hash)
  && negb (CampaignRepo.ca_deleted a).

Lemma fresh_answer now new_id i d :
  fresh (CampaignRepo.cc_requestHash i) (CampaignRepo.create now new_id i d).1 = false ->
  (CampaignRepo.create now new_id i d).2 = d.
Proof.
  unfold fresh, CampaignRepo.create. destruct (find_where _ _) as [[k c]|]; [done|]. cbn.
  by rewrite bool_decide_true.
Qed.

Lemma clean_create dto key : clean (create dto key).
Proof.
  unfold create. apply clean_if; [|walk]. destruct key as [raw|]; [|walk]. apply clean_if; [|walk].
  destruct (isUUID (trim raw)) as [k|]; [|walk].
  apply clean_bind; [walk|intros known]. apply clean_if; [|walk].
  apply clean_bind; [apply Schedule.reads_resolveSchedule|intros sched].
  apply clean_bind; [apply reads_nonBlank|intros name]. apply clean_bind; [apply reads_nonBlank|intros text].
  apply clean_bind; [apply reads_iso_of|intros at_].
  set (hash := sha256 _). apply (clean_write _ (fresh hash)).
  - intros now ids d. apply (fresh_answer now (ids EmptyString)
      (CampaignRepo.CreateInput (d_sessionId dto) name text sched.1 at_ k hash)).
  - intros a Ha. unfold fresh in Ha. apply andb_true_iff in Ha as [Ha Hd]. apply andb_true_iff in Ha as [_ Hh].
    rewrite Hh, Hd. apply accepts_ret.
  - intros a _. walk.
Qed.

Lemma clean_update id dto : clean (update id dto).
Proof.
  unfold update. apply clean_bind; [apply reads_get|intros c]. apply clean_if; [|walk]. apply clean_if; [|walk].
  apply clean_bind; [apply reads_patched_schedule|intros sched].
  apply clean_bind; [apply reads_patched|intros name]. apply clean_bind; [apply reads_patched|intros text].
  apply clean_bind; [apply reads_stored_date|intros at_].
  apply (clean_write _ (fun o => negb (is_null o))).
  - intros now ids d H. apply update_answer. by destruct (CampaignRepo.update _ _ _ _ _).1.
  - intros [a|]; [|done]. intros _. apply accepts_ret.
  - intros [a|]; [done|]. intros _. walk.
Qed.

Lemma clean_replaceTargets id ids rev : clean (replaceTargets id ids rev).
Proof.
  unfold replaceTargets. apply clean_bind; [apply reads_draft_targets|intros c].
  apply clean_if; [|walk]. apply clean_if; [|walk]. apply (clean_write _ applied).
  - intros now ids' d. apply replace_answer.
  - intros [] H; first [done|apply accepts_ret].
  - intros [] _; walk.
Qed.

Lemma clean_applyGroupListTargets id l mrev rev : clean (applyGroupListTargets id l mrev rev).
Proof.
  unfold applyGroupListTargets. apply clean_bind; [apply reads_draft_targets|intros c].
  apply (clean_write _ applied).
  - intros now ids' d. apply apply_answer.
  - intros [] H; first [done|apply accepts_ret].
  - intros [] _; walk.
Qed.

Lemma clean_delete id rev trev : clean (delete id rev trev).
Proof.
  unfold delete. apply (clean_write _ deleted_now).
  - intros now ids d. apply delete_answer.
  - intros [] H; first [done|apply accepts_ret].
  - intros [] _; walk.
Qed.

(** Whatever the other clients do between the statements of a campaign request, a
    request that is refused, by a status code or an exception, has itself written
    nothing: the database is the one the other clients left. *)
Theorem refused_changes_nothing id dto key upd ids rev l mrev r1 r2 :
  clean (create dto key) /\ clean (update id upd) /\ clean (replaceTargets id ids rev) /\
  clean (applyGroupListTargets id l mrev rev) /\ clean (delete id r1 r2).
Proof.
  auto using clean_create, clean_update, clean_replaceTargets, clean_applyGroupListTargets, clean_delete.
Qed.

(** *** The allowlist *)

(** Missing, deleted or of a session outside the allowlist *)
Definition hidden (d : db) (id : uuid) : Prop := forall c, campaigns d !! id = Some c ->
  c_deleted_at c = None -> allowed (c_session_id c) = false.

Lemma hidden_find d id : hidden d id ->
  match CampaignRepo.find id false d with Some c => allowed (c_session_id c) = false | None => True end.
Proof.
  unfold hidden, CampaignRepo.find. intros H. destruct (campaigns d !! id) as [c|]; [|done].
  cbn. destruct (c_deleted_at c) eqn:E; [done|]. by apply H.
Qed.

Definition answers_not_found {A : Type} (m : serv A) (e : env) (n : nat) (d : db) : Prop :=
  m e n d = (inl campaign_not_found, S n, between e n d).

Lemma hidden_get id e n d : faults e n = None -> hidden (between e n d) id -> answers_not_found (get id) e n d.
Proof.
  intros Hf H%hidden_find. unfold answers_not_found, get, bind, query, await. rewrite Hf. cbn [fst snd].
  destruct (CampaignRepo.find id false (between e n d)) as [c|]; [|done]. unfold visible. by rewrite H.
Qed.

Lemma hidden_snapshot {A} id (k : campaign * list CampaignPreflight.target -> serv A) e n d :
  faults e n = None -> hidden (between e n d) id ->
  answers_not_found (let! row := query (fun _ d => snapshot id d) in
                     bind (visible (fun s => c_session_id s.1) row) k) e n d.
Proof.
  intros Hf H%hidden_find. unfold answers_not_found, bind, query, await. rewrite Hf. cbn [fst snd].
  unfold snapshot. destruct (CampaignRepo.find id false (between e n d)) as [c|]; [|done].
  cbn. unfold visible. cbn. by rewrite H.
Qed.

Lemma not_found_bind {A B} (m : serv A) (k : A -> serv B) e n d :
  answers_not_found m e n d -> answers_not_found (bind m k) e n d.
Proof. unfold answers_not_found, bind. by intros ->. Qed.

(** A campaign of a session outside the allowlist cannot be told from one that does
    not exist.  Read, PATCH, both target replacements, the target list and the preflight
    give the same 404, decided by the first read and without a write; so does a deletion,
    for which a campaign deleted before still counts as found. *)
Theorem hidden_campaign_is_not_found id e n d (Hf : faults e n = None) (H : hidden (between e n d) id) :
  answers_not_found (get id) e n d /\
  (forall dto, answers_not_found (update id dto) e n d) /\
  answers_not_found (listTargets id) e n d /\
  (forall ids rev, answers_not_found (replaceTargets id ids rev) e n d) /\
  (forall l mrev rev, answers_not_found (applyGroupListTargets id l mrev rev) e n d) /\
  (forall mode, answers_not_found (preflight id mode) e n d) /\
  ((forall c, campaigns (between e n d) !! id = Some c -> c_deleted_at c = None) ->
   forall rev trev, answers_not_found (delete id rev trev) e n d).
Proof.
  pose proof (hidden_get id e n d Hf H) as Hg. split_and!.
  - done.
  - intros dto. by apply not_found_bind.
  - by apply hidden_snapshot.
  - intros ids rev. apply not_found_bind. by apply not_found_bind.
  - intros l mrev rev. apply not_found_bind. by apply not_found_bind.
  - intros mode. by apply hidden_snapshot.
  - intros Hdel rev trev. unfold answers_not_found, delete, bind, await. rewrite Hf. cbn [fst snd].
    unfold CampaignRepo.delete. destruct (campaigns (between e n d) !! id) as [c|] eqn:Hc; [|done].
    specialize (H c Hc (Hdel c eq_refl)). unfold allowed, SessionScope.isAllowed in H. by rewrite H.
Qed.

(** *** A PATCH *)

Lemma get_ok id e n d c n' d' : get id e n d = (inr c, n', d') ->
  n' = S n /\ d' = between e n d /\ CampaignRepo.find id false d' = Some c /\ allowed (c_session_id c) = true.
Proof.
  intros (row & n1 & d1 & (-> & -> & ->)%query_ok & E)%bind_ok. unfold visible in E.
  destruct (CampaignRepo.find id false (between e n d)) as [c0|] eqn:Ec; [|done].
  destruct (allowed (c_session_id c0)) eqn:Ea; [|done]. by injection E as <- <- <-.
Qed.

Lemma silent_nonBlank v f : silent (nonBlank v f).
Proof. unfold nonBlank. destruct (truthy _); [apply silent_ret|apply silent_throw]. Qed.

Lemma silent_patched v s f : silent (patched v s f).
Proof. destruct v; [apply silent_ret|apply silent_throw|apply silent_nonBlank]. Qed.

Lemma silent_patched_schedule dto c : silent (patched_schedule dto c).
Proof. unfold patched_schedule. destruct (_ || _); [apply Schedule.silent_resolveSchedule|apply silent_ret]. Qed.

Lemma stored_date_ok o e n d t n' d' : stored_date o e n d = (inr t, n', d') ->
  n' = n /\ d' = d /\ o = Instant <$> t.
Proof.
  destruct o as [[|t0]|]; cbn [stored_date].
  - intros (a & n1 & d1 & _ & E)%bind_ok. done.
  - by intros [= <- <- <-].
  - by intros [= <- <- <-].
Qed.

(** What a PATCH makes of a text field *)
Definition patch_text (v : field string) (old new : string) : Prop :=
  match v with
  | Absent => new = old
  | Null => False
  | Value s => new = trim s /\ new <> EmptyString
  end.

Lemma patched_ok v s f e n d t n' d' : patched v s f e n d = (inr t, n', d') -> patch_text v s t.
Proof.
  destruct v as [| |w]; cbn; [by intros [= <- _ _]|done|]. unfold nonBlank.
  destruct (trim w) eqn:E; [done|]. by intros [= <- _ _].
Qed.

(** What it makes of the schedule; [at_] is when it was checked *)
Definition patch_schedule (dto : update_dto) (at_ : timestamp) (old new : CampaignRepo.content) : Prop :=
  if touched (u_scheduleType dto) || touched (u_scheduledAt dto) then
    CampaignRepo.co_scheduleType new =
      (match u_scheduleType dto with Value t => t | _ => CampaignRepo.co_scheduleType old end) /\
    match CampaignRepo.co_scheduleType new with
    | ScheduleType.IMMEDIATE => CampaignRepo.co_scheduledAt new = None
    | ScheduleType.ONCE => exists w t,
        match u_scheduledAt dto with
        | Absent => toISOString <$> CampaignRepo.co_scheduledAt old = Some w
        | Null => False
        | Value s => s = w
        end /\
        parse_date w = Instant t /\ CampaignRepo.co_scheduledAt new = Some t /\ (at_ < t)%Z
    end
  else CampaignRepo.co_scheduleType new = CampaignRepo.co_scheduleType old /\
       CampaignRepo.co_scheduledAt new = CampaignRepo.co_scheduledAt old.

Lemma patched_schedule_ok dto c e n d s n' d' t : patched_schedule dto c e n d = (inr s, n', d') ->
  s.2 = Instant <$> t -> forall name text,
  patch_schedule dto (clock e n) (CampaignRepo.content_of c) (CampaignRepo.Content name text s.1 t).
Proof.
  unfold patched_schedule, patch_schedule. intros E Ht name text. cbn. destruct (touched _ || touched _).
  - apply Schedule.resolveSchedule_ok in E as [Es E]. split; [done|]. rewrite Es.
    destruct (match u_scheduleType dto with Value _ => _ | _ => _ end).
    + rewrite E in Ht. by destruct t.
    + destruct E as (w & Hw & _ & _ & Hd & Hp). rewrite Hd in Ht. destruct t as [t|]; [|done].
      injection Ht as Hi. exists w, t. split_and!; [|done|done|].
      * destruct (u_scheduledAt dto); [done|done|]. by injection Hw.
      * rewrite Hi in Hp. cbn in Hp. by apply Z.leb_gt in Hp.
  - injection E as <- _ _. split; [done|]. cbn in *. destruct (c_scheduled_at c), t; by simplify_eq/=.
Qed.

Lemma update_some now id i rev d c' d' : CampaignRepo.update now id i rev d = (Some c', d') ->
  exists c, campaigns d !! id = Some c /\ Edits.patchable rev c /\
    c' = CampaignRepo.set_content now i c /\ d' = d <| campaigns := <[id := c']> (campaigns d) |>.
Proof.
  unfold CampaignRepo.update. destruct (update_row _ _ _ _) as [row cs] eqn:E. intros [= -> <-].
  apply update_row_Some in E as (c & Hc & HW & -> & ->). apply Edits.patchable_true in HW. by exists c.
Qed.

(** C13: no PATCH overwrites what it did not see.  Suppose a PATCH succeeds and whatever
    happened between its read and its write was done by statements of the system.  Then
    the row it wrote was an undeleted draft of an allowed session, at the revision the
    client expected if it named one; every field the body leaves out keeps the value it
    had at the moment of the write; the others are the trimmed text and the future
    instant of the body; and nothing else in the database changes. *)
Theorem patch_loses_no_update (uuid_text : uuid -> string) (hash to_iso : string -> string)
    id dto e n d c' n' d'
    (E : update id dto e n d = (inr c', n', d'))
    (Ho : let d1 := between e n d in rtc (Life.cstep hash to_iso uuid_text) d1 (between e (S n) d1)) :
  let d2 := between e (S n) (between e n d) in
  exists c, campaigns d2 !! id = Some c /\ c_deleted_at c = None /\ c_status c = CampaignStatus.DRAFT /\
    allowed (c_session_id c) = true /\ expects (u_expectedRevision dto) (c_revision c) = true /\
    patch_text (u_name dto) (c_name c) (c_name c') /\ patch_text (u_text dto) (c_text c) (c_text c') /\
    patch_schedule dto (clock e (S n)) (CampaignRepo.content_of c) (CampaignRepo.content_of c') /\
    c' = CampaignRepo.set_content (clock e (S n)) (CampaignRepo.content_of c') c /\
    n' = S (S n) /\ d' = d2 <| campaigns := <[id := c']> (campaigns d2) |>.
Proof.
  cbv zeta in *. unfold update in E.
  apply bind_ok in E as (c0 & n1 & d1 & (-> & -> & Hfind & Ha)%get_ok & E).
  destruct (CampaignRepo.editable c0) eqn:Hed; [|done].
  destruct (expects (u_expectedRevision dto) (c_revision c0)) eqn:Hexp; [|done].
  apply bind_ok in E as (s & n1 & d1 & Es & E).
  destruct (silent_patched_schedule _ _ _ _ _ _ _ _ Es) as [-> ->].
  apply bind_ok in E as (name & n1 & d1 & En & E). destruct (silent_patched _ _ _ _ _ _ _ _ _ En) as [-> ->].
  apply bind_ok in E as (text & n1 & d1 & Et & E). destruct (silent_patched _ _ _ _ _ _ _ _ _ Et) as [-> ->].
  apply bind_ok in E as (at_ & n1 & d1 & Ed & E). apply stored_date_ok in Ed as (-> & -> & Hat).
  apply bind_ok in E as (up & n1 & d1 & Eu & E). apply await_ok in Eu as [-> Eu].
  destruct up as [c1|]; [|apply bind_ok in E as (? & ? & ? & _ & E); done]. injection E as <- <- <-.
  apply update_some in Eu as (c & Hc & (Hdel & Hst & Hrev) & Hset & Hd').
  apply Life.find_active in Hfind as [Hc0 _].
  destruct (Versions.csteps_versioned _ _ _ _ _ Ho id c0 Hc0) as (c2 & Hc2 & HL).
  assert (c2 = c) as -> by congruence.
  pose proof (Versions.la_content _ _ HL Hrev) as Hcon. pose proof (Versions.la_session _ _ HL) as Hsess.
  assert (Hcc : CampaignRepo.content_of c1 = CampaignRepo.Content name text s.1 at_).
  { rewrite Hset. done. }
  exists c. rewrite Hcc, <- Hset, Hrev, Hsess, Hcon.
  assert (Hnm : c_name c = c_name c0) by (by injection Hcon).
  assert (Htx : c_text c = c_text c0) by (by injection Hcon).
  split_and!; try done.
  - rewrite Hnm, Hset. cbn. by eapply patched_ok.
  - rewrite Htx, Hset. cbn. by eapply patched_ok.
  - by eapply patched_schedule_ok.
Qed.

(** The text under the request hash determines the request: two creations with the
    same body of the hash have the same session, trimmed name and text, schedule type and
    instant, whatever quotes, backslashes or line breaks the texts contain. *)
Theorem hash_body_injective s n t y i s' n' t' y' i' :
  hash_body s n t y i = hash_body s' n' t' y' i' -> s = s' /\ n = n' /\ t = t' /\ y = y' /\ i = i'.
Proof.
  unfold hash_body. intros E. apply append_cancel in E.
  apply member_inj in E as [Hs E]; [|apply json_string_inj]. apply append_cancel in E.
  apply member_inj in E as [Hn E]; [|apply json_string_inj]. apply append_cancel in E.
  apply member_inj in E as [Ht E]; [|apply json_string_inj]. apply append_cancel in E.
  apply (member_inj (fun t => json_string (type_text t))) in E as [Hy E].
  2: { intros [H ->]%json_string_inj. split; [|done]. by destruct y, y'. }
  apply append_cancel in E. apply member_inj in E as [Hi _]; [|apply json_nullable_inj].
  done.
Qed.

End Service.

(** *** Concrete requests *)

Module Requests.
Definition settings : config := Config true ["s"] 1000 2000.
Definition keys (s : string) : option uuid := if bool_decide (s = "key") then Some 7%positive else None.
Definition any_iso (_ : string) : bool := true.
Definition parse (s : string) : date :=
  if bool_decide (s = "2030-01-01T00:00:00Z") then Instant 1000 else InvalidDate.
Definition print (_ : timestamp) : string := "2030-01-01T00:00:00.000Z".
Definition digest (s : string) : string := s.

(** No faults, no other client; every await happens at [t]. *)
Definition quiet (t : timestamp) : env :=
  Env (fun _ => t) (fun _ _ => 5%positive) (fun _ d => d) (fun _ => None).

Definition sessions : db := empty_db
  <| gateway_sessions := {[ "s" := GatewaySession "ready" true None 0 0 0 ]} |>.

Definition body : create_dto :=
  CreateDto "s" " Launch " "Hi" ScheduleType.ONCE (Some "2030-01-01T00:00:00Z").

Definition post (t : timestamp) (d : db) : (failure + uuid * campaign * bool) * nat * db :=
  create settings keys any_iso parse print digest body (Some " key ") (quiet t) 0 d.

Definition drafts : db := (post 500 sessions).2.

Example created_trimmed : (fun r => c_name r.1.2) <$> (match (post 500 sessions).1.1 with inr r => Some r | _ => None end)
  = Some "Launch".
Proof. reflexivity. Qed.

(** The same request with the same key is replayed before the instant and refused after it. *)
Example replay_in_time : match (post 600 drafts).1.1 with inr r => r.2 | _ => true end = false.
Proof. reflexivity. Qed.

Example replay_too_late : (post 1000 drafts).1.1 =
  inl (Refused HttpStatus.UNPROCESSABLE_ENTITY "CAMPAIGN_SCHEDULE_IN_PAST" "scheduledAt must be in the future").
Proof. reflexivity. Qed.

(** A [null] name passes the validation of the body and throws in the service. *)
Example null_name_throws :
  (update settings any_iso parse print 5 (UpdateDto None Null Absent Absent Absent) (quiet 600) 0 drafts).1.1 =
  inl (JsError "Cannot read properties of null (reading 'trim')").
Proof. reflexivity. Qed.

Lemma hidden_campaign_is_not_found_witness :
  answers_not_found (get (Config true [] 1000 2000) 5) (quiet 600) 0 drafts.
Proof.
  apply (hidden_campaign_is_not_found (Config true [] 1000 2000) any_iso parse print 5 (quiet 600) 0 drafts).
  - reflexivity.
  - intros c Hc _. vm_compute in Hc. injection Hc as <-. reflexivity.
Defined.

Lemma hash_body_injective_witness : hash_body "s" "n" "t" ScheduleType.ONCE None = hash_body "s" "n" "t" ScheduleType.ONCE None /\
  "t" = "t".
Proof.
  split; [reflexivity|].
  apply (hash_body_injective "s" "n" "t" ScheduleType.ONCE None "s" "n" "t" ScheduleType.ONCE None).
  reflexivity.
Defined.

Definition rename : update_dto := UpdateDto (Some 1%Z) (Value " New ") Absent Absent Absent.

Lemma patch_loses_no_update_witness : exists c' d',
  update settings any_iso parse print 5 rename (quiet 600) 0 drafts = (inr c', 2, d') /\
  exists c, campaigns drafts !! (5%positive : uuid) = Some c /\ patch_text (u_text rename) (c_text c) (c_text c').
Proof.
  eexists _, _. split; [reflexivity|].
  destruct (patch_loses_no_update settings any_iso parse print Life.Story.text_of digest digest 5 rename
    (quiet 600) 0 drafts _ 2 _ eq_refl (rtc_refl _ _)) as (c & Hc & _ & _ & _ & _ & _ & Ht & _).
  exists c. split; [exact Hc|exact Ht].
Defined.
End Requests.
End CampaignService.
