(* ===== verification/CampaignRunService.v ===== *)
(** * Run requests and preparation

    [src/modules/campaigns/campaign-run.service.ts] and
    [campaign-run-processor.service.ts]: launching, pausing, resuming and cancelling a
    run from HTTP, and the preparation of a claimed run by the worker.  Preflights are
    computed outside the transaction that starts the run; what they observed is compared
    again inside it. *)

From S2P Require Import Prelude Schema SendPolicy CampaignPreflight Campaigns CampaignRuns CampaignLifecycle Service CampaignService.

Module RunService.
Section RunService.
Variable cfg : config.
Import CampaignPreflight Persistence.

Definition run_conflict (message : string) : failure :=
  CampaignService.conflict "CAMPAIGN_RUN_STATE_CONFLICT" message.

Definition run_not_found : failure :=
  CampaignService.not_found "CAMPAIGN_RUN_NOT_FOUND" "Campaign run not found".

Definition status_text (s : RunStatus.t) : string :=
  match s with
  | RunStatus.PREPARING => "PREPARING" | RunStatus.BLOCKED => "BLOCKED"
  | RunStatus.SCHEDULED => "SCHEDULED" | RunStatus.RUNNING => "RUNNING"
  | RunStatus.PAUSED => "PAUSED" | RunStatus.COMPLETED => "COMPLETED"
  | RunStatus.PARTIAL_FAILED => "PARTIAL_FAILED" | RunStatus.CANCELLED => "CANCELLED"
  | RunStatus.FAILED => "FAILED"
  end.

(** [CreateCampaignRunDto] *)
Record create_dto := CreateDto {
  rd_executionMode : Mode.t;
  rd_expectedCampaignRevision : option Z;
  rd_expectedTargetsRevision : option Z }.

(** Answers the run and whether it was created; [result.created] decides 201 or 200. *)
Definition create (campaignId : uuid) (rawIdempotencyKey : option string) (dto : create_dto)
    : serv (run_dto * bool) :=
  let required := CampaignService.bad_request "CAMPAIGN_RUN_IDEMPOTENCY_KEY_REQUIRED"
    "Idempotency-Key header is required" in
  match rawIdempotencyKey with
  | None => throw required
  | Some raw =>
      assert! truthy (trim raw) else required in
      assert! (String.length (trim raw) <=? 200)%nat
        else CampaignService.bad_request "CAMPAIGN_RUN_IDEMPOTENCY_KEY_INVALID"
          "Idempotency-Key must not exceed 200 characters" in
      let! _ := CampaignService.get cfg campaignId in
      let! result := await (fun now ids => RunRepo.create now (ids EmptyString)
        (RunRepo.CreateInput campaignId (trim raw) (rd_executionMode dto)
           (rd_expectedCampaignRevision dto) (rd_expectedTargetsRevision dto))) in
      match result with
      | RunRepo.CampaignNotFound => throw CampaignService.campaign_not_found
      | RunRepo.Replayed _ true =>
          throw (CampaignService.conflict "CAMPAIGN_RUN_IDEMPOTENCY_CONFLICT"
            "Idempotency-Key was already used with a different executionMode")
      | RunRepo.NotLaunchable =>
          throw (CampaignService.conflict "CAMPAIGN_RUN_LAUNCH_CONFLICT"
            "Campaign is not launchable from its current lifecycle state")
      | RunRepo.RevisionConflict _ _ =>
          throw (CampaignService.conflict "CAMPAIGN_RUN_REVISION_CONFLICT"
            "Campaign content or targets changed after launch review")
      | RunRepo.ScheduleExpired =>
          throw (CampaignService.conflict "CAMPAIGN_RUN_SCHEDULE_EXPIRED"
            "The ONCE campaign schedule is already in the past")
      | RunRepo.Created None =>
          throw (CampaignService.conflict "CAMPAIGN_RUN_LAUNCH_CONFLICT" "Campaign run could not be created")
      | RunRepo.Replayed run false => ret (run, false)
      | RunRepo.Created (Some run) => ret (run, true)
      end
  end.

(** The two arguments a preflight takes from the run *)
Definition evaluate_context (ctx : run_dto * list target * Z * Z) : serv Preflight.report :=
  let '(run, targets, campaignRevision, targetsRevision) := ctx in
  CampaignService.evaluate cfg (cr_execution_mode (dto_row run)) (cr_session_id (dto_row run))
    (cr_text (dto_row run)) targets campaignRevision targetsRevision.

Definition context_status (ctx : run_dto * list target * Z * Z) : RunStatus.t :=
  cr_status (dto_row ctx.1.1.1).

(** The body of the [try] *)
Definition prepare_claimed (runId leaseToken : uuid) : serv unit :=
  let! context := query (fun _ d => RunRepo.getPreflightContext runId d) in
  match context with
  | None => ret tt
  | Some ctx =>
      if bool_decide (context_status ctx = RunStatus.PREPARING) then
        let! report := evaluate_context ctx in
        let! _ := await (fun now ids d =>
          RunRepo.applyPreflight now ids runId leaseToken report ctx.1.1.2 d) in
        ret tt
      else ret tt
  end.

Definition record_failure (runId leaseToken : uuid) (error : failure) : serv unit :=
  let! _ := await (fun now _ => RunRepo.failPreparationAttempt now runId leaseToken (error_message error)) in
  ret tt.

Definition prepare (runId : uuid) : serv unit :=
  let! claim := await (fun now ids => RunRepo.claimPreparation now (ids EmptyString) runId) in
  match claim with
  | None => ret tt
  | Some (leaseToken, _) =>
      catch_rethrow (prepare_claimed runId leaseToken) (record_failure runId leaseToken)
  end.

(** [CampaignRunProcessorService.process] *)
Definition process (runId : uuid) : serv unit := prepare runId.

Definition get (id : uuid) : serv run_dto :=
  let! row := query (fun _ d => RunRepo.find id d) in
  match row with
  | Some run =>
      assert! CampaignService.allowed cfg (cr_session_id (dto_row run)) else run_not_found in ret run
  | None => throw run_not_found
  end.

(** The state a run must be in for [verb] *)
Definition current_in (id : uuid) (from : list RunStatus.t) (verb : string) : serv run_dto :=
  let! current := get id in
  assert! mem (cr_status (dto_row current)) from
    else run_conflict ("Campaign run cannot be " ++ verb ++ " from " ++ status_text (cr_status (dto_row current))) in
  ret current.

Definition changed : failure := run_conflict "Campaign run state changed; reload and retry".

Definition pause (id : uuid) : serv run_dto :=
  let! _ := current_in id [RunStatus.SCHEDULED; RunStatus.RUNNING] "paused" in
  let! run := await (fun now _ => LifecycleRepo.pause now id) in
  match run with Some run => ret run | None => throw changed end.

Definition resume (id : uuid) : serv run_dto :=
  let! _ := current_in id [RunStatus.PAUSED; RunStatus.BLOCKED] "resumed" in
  let! context := query (fun _ d => RunRepo.getPreflightContext id d) in
  match context with
  | None => throw run_not_found
  | Some ctx =>
      let! report := evaluate_context ctx in
      if bool_decide (Preflight.rep_status report = Preflight.BLOCK) then
        let! _ := await (fun now _ d => (tt, LifecycleRepo.recordBlockedResume now id report d)) in
        throw (run_conflict "Campaign run is still blocked by preflight")
      else
        let! run := await (fun now ids d => LifecycleRepo.resume now ids id report ctx.1.1.2 d) in
        match run with
        | LifecycleRepo.StaleInput =>
            throw (run_conflict "Group capability changed during resume preflight; retry with current state")
        | LifecycleRepo.Resumed (Some run) => ret run
        | LifecycleRepo.Resumed None | LifecycleRepo.NotResumable => throw changed
        end
  end.

Definition cancel (id : uuid) : serv run_dto :=
  let! _ := current_in id [RunStatus.PREPARING; RunStatus.BLOCKED; RunStatus.SCHEDULED; RunStatus.RUNNING;
    RunStatus.PAUSED] "cancelled" in
  let! run := await (fun now ids => LifecycleRepo.cancel now ids id) in
  match run with Some run => ret run | None => throw changed end.

(** *** Refusals *)

Lemma run_reads_get id : reads (get id).
Proof. unfold get. walk. Qed.

Lemma reads_current id from verb : reads (current_in id from verb).
Proof. unfold current_in. apply reads_bind; [apply run_reads_get|intros ?; walk]. Qed.

Lemma reads_evaluate ctx : reads (evaluate_context ctx).
Proof. destruct ctx as [[[run targets] a] b]. unfold evaluate_context, CampaignService.evaluate. walk. Qed.

Lemma launch_run now new_id i c d run d' : RunRepo.launch now new_id i c d = (RunRepo.Created run, d') ->
  is_Some run.
Proof.
  unfold RunRepo.launch. destruct (exists_where _ _).
  - destruct (RunRepo.find_by_key _ _ d); by intros [=].
  - cbv zeta. intros [= <- <-]. unfold select_run. rewrite fmap_is_Some.
    case_bool_decide; cbn; by rewrite lookup_insert_eq.
Qed.

Definition launched (a : RunRepo.create_answer) : bool :=
  match a with RunRepo.Created (Some _) => true | _ => false end.

Lemma launch_answer now new_id i c d :
  launched (RunRepo.launch now new_id i c d).1 = false -> (RunRepo.launch now new_id i c d).2 = d.
Proof.
  destruct (RunRepo.launch now new_id i c d) as [a d'] eqn:E. cbn. destruct a as [| | | | |run].
  6: { by apply launch_run in E as [? ->]. }
  all: revert E; unfold RunRepo.launch; destruct (exists_where _ _); cbv zeta; by intros [=].
Qed.

Lemma run_create_answer now new_id i d :
  launched (RunRepo.create now new_id i d).1 = false -> (RunRepo.create now new_id i d).2 = d.
Proof.
  unfold RunRepo.create. repeat (case_match; try done); apply launch_answer.
Qed.

Lemma pause_answer now id d :
  (LifecycleRepo.pause now id d).1 = None -> (LifecycleRepo.pause now id d).2 = d.
Proof.
  unfold LifecycleRepo.pause. destruct (update_row _ _ _ _) as [[r|] runs] eqn:E; cbv zeta; cbn [fst snd].
  - apply update_row_Some in E as (q & Hq & _ & _ & ->). unfold select_run, LifecycleRepo.with_campaign.
    destruct (RunRepo.is_live r); cbn; by rewrite lookup_insert_eq.
  - apply update_row_None in E as [-> _]. by destruct d.
Qed.

Lemma update_run_lookup id f d :
  campaign_runs (RunRepo.update_run id f d) !! id = f <$> campaign_runs d !! id.
Proof.
  unfold RunRepo.update_run. cbn. rewrite lookup_update_row. destruct (campaign_runs d !! id); [|done].
  cbn. by rewrite bool_decide_true.
Qed.

Lemma cancel_answer now ids id d :
  (LifecycleRepo.cancel now ids id d).1 = None -> (LifecycleRepo.cancel now ids id d).2 = d.
Proof.
  unfold LifecycleRepo.cancel. destruct (campaign_runs d !! id) as [r|] eqn:Hr; [|done].
  destruct (negb _); [done|]. cbv zeta. cbn [fst]. unfold select_run. rewrite Life.with_campaign_runs.
  rewrite update_run_lookup. cbn. by rewrite Hr.
Qed.

Definition resumed (a : LifecycleRepo.resume_result) : bool :=
  match a with LifecycleRepo.Resumed (Some _) => true | _ => false end.

Lemma resume_answer now ids id report observed d :
  resumed (LifecycleRepo.resume now ids id report observed d).1 = false ->
  (LifecycleRepo.resume now ids id report observed d).2 = d.
Proof.
  unfold LifecycleRepo.resume. destruct (campaign_runs d !! id) as [r|] eqn:Hr; [|done].
  destruct (negb _); [done|]. destruct (capabilitySnapshotChanged _ _ _); [done|]. cbv zeta. cbn [fst].
  unfold select_run. rewrite Life.with_campaign_runs.
  rewrite update_run_lookup. cbn. by rewrite Hr.
Qed.

Lemma run_clean_create id key dto : clean (create id key dto).
Proof.
  unfold create. destruct key as [raw|]; [|walk]. apply clean_if; [|walk]. apply clean_if; [|walk].
  apply clean_bind; [apply CampaignService.reads_get|intros _]. apply (clean_write _ launched).
  - intros now ids d. apply run_create_answer.
  - intros [| | | | |[run|]] H; first [done|apply accepts_ret].
  - intros a _. destruct a as [|run []| | | |[run|]]; walk.
Qed.

Lemma clean_some {A} (f : timestamp -> (string -> uuid) -> db -> option A * db) (g : failure) :
  (forall now ids d, (f now ids d).1 = None -> (f now ids d).2 = d) ->
  clean (let! run := await f in match run with Some run => ret run | None => throw g end).
Proof.
  intros H. apply (clean_write _ (fun o => negb (is_null o))).
  - intros now ids d Hn. apply H. by destruct (f now ids d).1.
  - intros [a|] Ha; first [done|apply accepts_ret].
  - intros [a|] _; walk.
Qed.

Lemma clean_pause id : clean (pause id).
Proof.
  unfold pause. apply clean_bind; [apply reads_current|intros _]. apply clean_some.
  intros now _. apply pause_answer.
Qed.

Lemma clean_cancel id : clean (cancel id).
Proof.
  unfold cancel. apply clean_bind; [apply reads_current|intros _]. apply clean_some.
  intros now ids. apply cancel_answer.
Qed.

(** The end of a resume that was not blocked *)
Definition resume_write (id : uuid) (report : Preflight.report) (observed : list target) : serv run_dto :=
  let! run := await (fun now ids d => LifecycleRepo.resume now ids id report observed d) in
  match run with
  | LifecycleRepo.StaleInput =>
      throw (run_conflict "Group capability changed during resume preflight; retry with current state")
  | LifecycleRepo.Resumed (Some run) => ret run
  | LifecycleRepo.Resumed None | LifecycleRepo.NotResumable => throw changed
  end.

Lemma clean_resume_write id report observed : clean (resume_write id report observed).
Proof.
  apply (clean_write _ resumed).
  - intros now ids d. apply resume_answer.
  - intros [[run|]| |] H; first [done|apply accepts_ret].
  - intros [[run|]| |] _; walk.
Qed.

(** After a refused resume the database is the one the others left, with the blocking
    report recorded if there was one. *)
Definition resume_trace (id : uuid) (e : env) (n : nat) (d d' : db) : Prop := exists k,
  d' = others e n k d \/
  exists now report, Preflight.rep_status report = Preflight.BLOCK /\
    d' = LifecycleRepo.recordBlockedResume now id report (others e n k d).

Lemma resume_trace_after id e n j d d' :
  resume_trace id e (n + j) (others e n j d) d' -> resume_trace id e n d d'.
Proof.
  intros (k & H). exists (j + k). by rewrite others_add.
Qed.

Lemma resume_refused id e n d f n' d' :
  resume id e n d = (inl f, n', d') -> refusal f -> resume_trace id e n d d'.
Proof.
  unfold resume. intros E Hf.
  apply bind_failed in E as (j1 & [->|(cur & _ & E)]); [by exists j1; left| |apply reads_current].
  apply (resume_trace_after _ _ _ j1).
  apply bind_failed in E as (j2 & [->|(c & _ & E)]); [by exists j2; left| |apply reads_query].
  apply (resume_trace_after _ _ _ j2).
  destruct c as [ctx|]; [|injection E as _ _ <-; by exists 0; left].
  apply bind_failed in E as (j3 & [->|(report & _ & E)]); [by exists j3; left| |apply reads_evaluate].
  apply (resume_trace_after _ _ _ j3). set (m := n + j1 + j2 + j3) in *.
  set (d3 := others _ _ j3 _) in *.
  case_bool_decide as Hb.
  - unfold bind, await in E. destruct (faults e m) as [[x|x]|]; injection E as <- _ <-; [done|done|].
    exists 1. right. by exists (clock e m), report.
  - destruct (clean_resume_write _ _ _ _ _ _ _ _ _ E Hf) as (k & _ & ->). exists k. by left.
Qed.

(** Whatever the other clients do meanwhile, a run request that is refused leaves no
    trace of its own: a refused launch, pause or cancellation has written nothing, and a
    refused resume at most the preflight report that blocked it. *)
Theorem run_refusals_leave_no_trace id key dto :
  clean (create id key dto) /\ clean (pause id) /\ clean (cancel id) /\
  (forall e n d f n' d', resume id e n d = (inl f, n', d') -> refusal f -> resume_trace id e n d d').
Proof. split_and!; [apply run_clean_create|apply clean_pause|apply clean_cancel|apply resume_refused]. Qed.

(** *** Starting *)

Definition starting : list RunStatus.t := [RunStatus.SCHEDULED; RunStatus.RUNNING].

(** The preflight found the run admissible: its text, the targets [observed] and the
    session as they were read; a LIVE run has live sends enabled and only targets that
    were currently ALLOWED; and when the run was started, in [d], no group of an observed
    target had changed its capability. *)
Definition start_justified (id : uuid) (r : campaign_run) (observed : list target) (ds d : db) : Prop :=
  text_valid (cr_text r) = true /\ observed <> [] /\
  sessionReady (session_of (cr_session_id r) ds) = true /\
  (cr_execution_mode r = Mode.LIVE ->
     ALLOW_LIVE_SENDS cfg = true /\ Forall current_target observed) /\
  Forall (fun t => exists rt g, campaign_run_targets d !! (id, tg_groupId t) = Some rt /\
    gateway_groups d !! (rt_session_id rt, tg_groupId t) = Some g /\
    gg_capability_revision g = tg_revision t) observed.

Lemma not_block_admissible i : Preflight.rep_status (evaluateCampaignPreflight i) <> Preflight.BLOCK -> admissible i.
Proof.
  cbn. unfold admissible, overall. rewrite <- targetIssues_nil. cbn. unfold has_status. cbn.
  destruct (text_valid _), (pi_targets i) as [|t l], (sessionReady _),
    (targetIssues _), (pi_executionMode i), (pi_liveSendsEnabled i);
    vm_compute; intuition congruence.
Qed.

Lemma unchanged_snapshot id observed d : capabilitySnapshotChanged id observed d = false ->
  Forall (fun t => exists rt g, campaign_run_targets d !! (id, tg_groupId t) = Some rt /\
    gateway_groups d !! (rt_session_id rt, tg_groupId t) = Some g /\
    gg_capability_revision g = tg_revision t) observed.
Proof.
  unfold capabilitySnapshotChanged. destruct observed as [|t0 l]; [done|]. generalize (t0 :: l). intros ts H.
  apply Forall_forall. intros t Ht. destruct (snapshot_stale id d t) eqn:E.
  - assert (existsb (snapshot_stale id d) ts = true); [|congruence].
    apply existsb_exists. exists t. split; [by apply list_elem_of_In|done].
  - unfold snapshot_stale in E. destruct (campaign_run_targets d !! _) as [rt|] eqn:Ert; [|done].
    destruct (gateway_groups d !! _) as [g|] eqn:Eg; [|done]. exists rt, g. split; [done|split; [done|]].
    apply negb_false_iff, Z.eqb_eq in E. done.
Qed.

Lemma justified id r observed now rev trev ds d :
  Preflight.rep_status (CampaignPreflight.evaluate cfg now (cr_execution_mode r) (cr_session_id r) (cr_text r)
    observed rev trev ds) <> Preflight.BLOCK ->
  capabilitySnapshotChanged id observed d = false -> start_justified id r observed ds d.
Proof.
  intros Hb%not_block_admissible Hs. destruct Hb as (H1 & H2 & H3 & H4).
  split_and!; try done. by apply unchanged_snapshot.
Qed.

(** Applying a preflight starts a run only on a report that does not block, over an
    unchanged snapshot. *)
Lemma apply_starts now ids id token report observed d r r' :
  campaign_runs d !! id = Some r -> mem (cr_status r) starting = false ->
  campaign_runs (RunRepo.applyPreflight now ids id token report observed d).2 !! id = Some r' ->
  mem (cr_status r') starting = true ->
  Preflight.rep_status report <> Preflight.BLOCK /\ capabilitySnapshotChanged id observed d = false.
Proof.
  intros Hr Hs Hr' Hs'. unfold RunRepo.applyPreflight in Hr'. rewrite Hr in Hr'.
  destruct (RunRepo.owned now token r); cbn [negb] in Hr'; [|cbn in Hr'; congruence].
  destruct (capabilitySnapshotChanged id observed d) eqn:Ec.
  - exfalso. cbn [snd] in Hr'. rewrite update_run_lookup, Hr in Hr'. injection Hr' as <-.
    change (mem (cr_status r) starting = true) in Hs'. congruence.
  - split; [|done]. intros Hb. rewrite bool_decide_true in Hr' by done. cbn [snd] in Hr'.
    rewrite update_run_lookup, Hr in Hr'. injection Hr' as <-. done.
Qed.

Lemma evaluate_ok ctx e n d report n' d' : evaluate_context ctx e n d = (inr report, n', d') ->
  n' = S n /\ d' = between e n d /\
  report = CampaignPreflight.evaluate cfg (clock e n) (cr_execution_mode (dto_row ctx.1.1.1))
    (cr_session_id (dto_row ctx.1.1.1)) (cr_text (dto_row ctx.1.1.1)) ctx.1.1.2 ctx.1.2 ctx.2 d'.
Proof. destruct ctx as [[[run targets] a] b]. cbn. intros (-> & -> & ->)%query_ok. done. Qed.

Lemma context_ok id d ctx : RunRepo.getPreflightContext id d = Some ctx ->
  campaign_runs d !! id = Some (dto_row ctx.1.1.1) /\ ctx.1.1.2 = RunRepo.run_targets_of id d.
Proof.
  unfold RunRepo.getPreflightContext. destruct (campaign_runs d !! id) as [r|]; [|done]. by intros [= <-].
Qed.

(** A completed preparation read the context, then the session, and then applied *)
Lemma prepare_claimed_ok id token e n d d' : prepare_claimed id token e n d = (inr tt, S (S (S n)), d') ->
  exists r report,
    campaign_runs (others e n 1 d) !! id = Some r /\
    report = CampaignPreflight.evaluate cfg (clock e (S n)) (cr_execution_mode r) (cr_session_id r) (cr_text r)
      (RunRepo.run_targets_of id (others e n 1 d)) (cr_campaign_revision r) (cr_targets_revision r)
      (others e n 2 d) /\
    d' = (RunRepo.applyPreflight (clock e (S (S n))) (drawn e (S (S n))) id token report
           (RunRepo.run_targets_of id (others e n 1 d)) (others e n 3 d)).2.
Proof.
  unfold prepare_claimed. intros (c & n1 & d1 & (-> & -> & ->)%query_ok & E)%bind_ok.
  unfold RunRepo.getPreflightContext in E. cbn [others].
  destruct (campaign_runs (between e n d) !! id) as [r|]; [|injection E; lia].
  case_bool_decide; [|injection E; lia].
  apply bind_ok in E as (report & n1 & d1 & (-> & -> & Hrep)%evaluate_ok & E).
  apply bind_ok in E as (a & n1 & d1 & Ea & E). injection E as -> ->.
  exists r, report. split; [done|]. split; [exact Hrep|].
  apply await_ok in Ea as [_ Ea]. cbn in Ea. by rewrite Ea.
Qed.

Lemma catch_rethrow_ok {A} (m : serv A) h e n d a n' d' : catch_rethrow m h e n d = (inr a, n', d') ->
  m e n d = (inr a, n', d').
Proof.
  unfold catch_rethrow. destruct (m e n d) as [[[f|a1] n1] d1]; [|done].
  unfold bind. destruct (h f e n1 d1) as [[[g|[]] n2] d2]; done.
Qed.

(** Its answer and its row after a successful resume *)
Lemma resume_starts now ids id report observed d run d' :
  LifecycleRepo.resume now ids id report observed d = (LifecycleRepo.Resumed (Some run), d') ->
  capabilitySnapshotChanged id observed d = false /\ mem (cr_status (dto_row run)) starting = true.
Proof.
  unfold LifecycleRepo.resume. destruct (campaign_runs d !! id) as [r|] eqn:Hr; [|done].
  destruct (negb _); [done|]. destruct (capabilitySnapshotChanged id observed d) eqn:Ec; [done|].
  cbv zeta. intros E. injection E as E _. split; [done|]. revert E. unfold select_run.
  rewrite Life.with_campaign_runs, update_run_lookup. cbn. rewrite Hr. intros [= <-]. cbn.
  by destruct (now <? cr_scheduled_at r)%Z.
Qed.

(** C8: a run starts only on a justified preflight.  If preparing a run that was not
    started moves it to SCHEDULED or RUNNING, the worker had read its text and its
    targets, then its session, and found them admissible; and at the moment of the start
    every target's group still had the capability revision the worker had read.  The same
    holds of an operator's resume that succeeds.  Other clients may write between any two
    of these statements. *)
Theorem runs_start_justified id e n d :
  let d1 := (RunRepo.claimPreparation (clock e n) (drawn e n EmptyString) id (between e n d)).2 in
  (forall d' r r', prepare id e n d = (inr tt, n + 4, d') ->
     campaign_runs (others e (S n) 3 d1) !! id = Some r -> mem (cr_status r) starting = false ->
     campaign_runs d' !! id = Some r' -> mem (cr_status r') starting = true ->
     exists r0, campaign_runs (others e (S n) 1 d1) !! id = Some r0 /\
       start_justified id r0 (RunRepo.run_targets_of id (others e (S n) 1 d1))
         (others e (S n) 2 d1) (others e (S n) 3 d1)) /\
  (forall run n' d', resume id e n d = (inr run, n', d') ->
     mem (cr_status (dto_row run)) starting = true /\
     exists r0, campaign_runs (others e n 2 d) !! id = Some r0 /\
       start_justified id r0 (RunRepo.run_targets_of id (others e n 2 d)) (others e n 3 d) (others e n 4 d)).
Proof.
  cbv zeta. split.
  - intros d' r r' E Hr Hs Hr' Hs'. unfold prepare in E.
    apply bind_ok in E as (claim & n1 & d1 & Ea & E). apply await_ok in Ea as [-> Ea]. rewrite Ea in *.
    cbn [fst snd] in *. destruct claim as [[token a]|]; [|injection E; lia].
    apply catch_rethrow_ok in E. replace (n + 4) with (S (S (S (S n)))) in E by lia.
    apply prepare_claimed_ok in E as (r0 & report & Hr0 & -> & ->).
    destruct (apply_starts _ _ _ _ _ _ _ _ _ Hr Hs Hr' Hs') as [Hb Hc].
    exists r0. split; [done|]. by eapply justified.
  - intros run n' d' E. unfold resume in E.
    apply bind_ok in E as (cur & n1 & d1 & Ec & E).
    assert (Hc : n1 = S n /\ d1 = others e n 1 d).
    { unfold current_in in Ec. apply bind_ok in Ec as (x & n2 & d2 & Eg & Ec).
      unfold get in Eg. apply bind_ok in Eg as (y & n3 & d3 & (-> & -> & ->)%query_ok & Eg).
      destruct (RunRepo.find id _); [|done]. destruct (CampaignService.allowed _ _); [|done].
      injection Eg as <- <- <-. destruct (mem _ _); [|done]. by injection Ec as <- <- <-. }
    destruct Hc as [-> ->].
    apply bind_ok in E as (c & n1 & d1 & (-> & -> & ->)%query_ok & E).
    change (between e (S n) (others e n 1 d)) with (others e n 2 d) in E.
    destruct (RunRepo.getPreflightContext id (others e n 2 d)) as [ctx|] eqn:Ectx; [|done].
    apply context_ok in Ectx as [Hr0 Hobs].
    apply bind_ok in E as (report & n1 & d1 & (-> & -> & Hrep)%evaluate_ok & E).
    change (between e (S (S n)) (others e n 2 d)) with (others e n 3 d) in *.
    case_bool_decide as Hb; [by apply bind_ok in E as (? & ? & ? & _ & E)|].
    apply bind_ok in E as (res & n1 & d1 & Ea & E). apply await_ok in Ea as [_ Ea].
    change (between e (S (S (S n))) (others e n 3 d)) with (others e n 4 d) in Ea.
    destruct res as [[run'|]| |]; [|done..]. injection E as -> _ _.
    apply resume_starts in Ea as [Hcap Hst]. split; [done|]. exists (dto_row ctx.1.1.1). split; [done|].
    rewrite <- Hobs. eapply justified; [|done]. rewrite <- Hrep. exact Hb.
Qed.

(** *** Failed preparations *)

Lemma fail_lookup now id token m d r : campaign_runs d !! id = Some r ->
  campaign_runs (RunRepo.failPreparationAttempt now id token m d).2 !! id =
    Some (if RunRepo.owned now token r then RunRepo.fail_row now m r else r).
Proof.
  intros Hr. unfold RunRepo.failPreparationAttempt, update_row. rewrite Hr.
  destruct (RunRepo.owned now token r); [|done]. cbv beta iota zeta. cbn [snd].
  repeat case_match; unfold set_campaign_status; cbn; by rewrite lookup_insert_eq.
Qed.

(** A preparation that fails is recorded once and never overwrites another worker's.
    If the worker claimed the run and a statement of the preparation broke with message
    [m], the call ends with that error, after one more statement: when the run is still
    PREPARING under this worker's live lease, it has the error, no lease, and is FAILED on
    its last attempt and due again after the backoff otherwise; when another worker has
    taken it over, or an operator moved it on, its row is left alone. *)
Theorem failed_preparation_is_recorded id e n d m n' d' token a
    (Hf : faults e n = None)
    (Hc : (RunRepo.claimPreparation (clock e n) (drawn e n EmptyString) id (between e n d)).1 = Some (token, a))
    (E : prepare id e n d = (inl (Broken m), n', d')) (Hh : faults e (pred n') = None) :
  let d1 := (RunRepo.claimPreparation (clock e n) (drawn e n EmptyString) id (between e n d)).2 in
  exists d2, prepare_claimed id token e (S n) d1 = (inl (Broken m), pred n', d2) /\
    forall r, campaign_runs (between e (pred n') d2) !! id = Some r ->
    exists r', campaign_runs d' !! id = Some r' /\
      if RunRepo.owned (clock e (pred n')) token r then
        cr_prep_error r' = Some m /\ cr_prep_lease_token r' = None /\
        if RunRepo.exhausted r then cr_status r' = RunStatus.FAILED
        else cr_status r' = RunStatus.PREPARING /\
             cr_prep_next_attempt_at r' =
               (clock e (pred n') + RunRepo.backoff_ms (cr_prep_attempt_count r))%Z
      else r' = r.
Proof.
  cbv zeta. unfold prepare, bind at 1, await at 1 in E. rewrite Hf, Hc in E. cbn [fst snd] in E.
  set (d1 := (RunRepo.claimPreparation _ _ _ _).2) in *. unfold catch_rethrow in E.
  destruct (prepare_claimed id token e (S n) d1) as [[[f|x] n1] d2] eqn:Eb; [|done].
  unfold bind, record_failure, bind, await in E.
  destruct (faults e n1) as [fault|] eqn:Ef.
  - destruct fault; injection E as _ <- _; cbn in Hh; congruence.
  - injection E as -> <- <-. cbn [pred]. exists d2. split; [done|]. intros r Hr.
    eexists. split; [by apply fail_lookup|]. cbn [error_message].
    destruct (RunRepo.owned (clock e n1) token r); [|done].
    unfold RunRepo.fail_row. cbn. by destruct (RunRepo.exhausted r).
Qed.

(** A run of a session outside the allowlist, or no run *)
Definition hidden_run (d : db) (id : uuid) : Prop := forall r, campaign_runs d !! id = Some r ->
  CampaignService.allowed cfg (cr_session_id r) = false.

Lemma hidden_run_get id e n d : faults e n = None -> hidden_run (between e n d) id ->
  get id e n d = (inl run_not_found, S n, between e n d).
Proof.
  intros Hf H. unfold get, bind, query, await. rewrite Hf. cbn [fst snd]. unfold RunRepo.find, select_run.
  destruct (campaign_runs (between e n d) !! id) as [r|] eqn:Er; [|done]. cbn. by rewrite (H r).
Qed.

(** A run of a session outside the allowlist cannot be told from one that does not
    exist, nor be changed: reading, pausing, resuming and cancelling it give the same 404
    after one read; and launching a hidden campaign gives the 404 of a missing one. *)
Theorem hidden_run_is_not_found id e n d (Hf : faults e n = None) :
  (hidden_run (between e n d) id ->
     let answer := (inl run_not_found, S n, between e n d) in
     get id e n d = answer /\ pause id e n d = answer /\ resume id e n d = answer /\ cancel id e n d = answer) /\
  (CampaignService.hidden cfg (between e n d) id -> forall key dto,
     truthy (trim key) = true -> (String.length (trim key) <= 200)%nat ->
     create id (Some key) dto e n d = (inl CampaignService.campaign_not_found, S n, between e n d)).
Proof.
  split.
  - intros H. cbv zeta. pose proof (hidden_run_get id e n d Hf H) as Hg.
    unfold pause, resume, cancel, current_in, bind. by rewrite Hg.
  - intros H key dto Hk Hl. unfold create. rewrite Hk, (proj2 (Nat.leb_le _ _) Hl).
    pose proof (CampaignService.hidden_get cfg id e n d Hf H) as Hg.
    unfold CampaignService.answers_not_found in Hg. unfold bind. by rewrite Hg.
Qed.
End RunService.

(** *** Concrete runs *)

Module Requests.
Import Life.Story.
Definition settings : config := Config true ["s"] 1000 2000.

(** No other client; every await happens at [t] and draws 77; the statements that [broken]
    names are not run. *)
Definition at_time (t : timestamp) (broken : nat -> bool) : env :=
  Env (fun _ => t) (fun _ _ => 77%positive) (fun _ d => d)
    (fun n => if broken n then Some (NotRun "connection terminated") else None).

Definition quiet (t : timestamp) : env := at_time t (fun _ => false).
Definition status_of (d : db) : option RunStatus.t := cr_status <$> campaign_runs d !! (9%positive : uuid).

Example prepared : status_of (prepare settings 9 (quiet 40) 0 launched).2 = Some RunStatus.RUNNING.
Proof. vm_compute. reflexivity. Qed.

Lemma runs_start_justified_witness : exists r0, campaign_runs launched !! (9%positive : uuid) = Some r0 /\
  exists r1 observed ds d4, start_justified settings 9 r1 observed ds d4.
Proof.
  destruct (campaign_runs launched !! (9%positive : uuid)) as [r0|] eqn:Hr; [|vm_compute in Hr; discriminate Hr].
  exists r0. split; [reflexivity|].
  destruct (runs_start_justified settings 9 (quiet 40) 0 launched) as [Hp _].
  edestruct Hp as (r1 & _ & Hj).
  - vm_compute. reflexivity.
  - vm_compute. reflexivity.
  - reflexivity.
  - vm_compute. reflexivity.
  - reflexivity.
  - do 4 eexists. exact Hj.
Defined.

(** The session could not be read: the third statement breaks. *)
Definition failing : env := at_time 40 (fun n => n =? 2)%nat.

Lemma failed_preparation_is_recorded_witness : exists n' d',
  prepare settings 9 failing 0 launched = (inl (Broken "connection terminated"), n', d') /\
  exists d2, prepare_claimed settings 9 77 failing 1 (RunRepo.claimPreparation 40 77 9 launched).2 =
    (inl (Broken "connection terminated"), 3, d2).
Proof.
  eexists _, _. split; [vm_compute; reflexivity|].
  edestruct (failed_preparation_is_recorded settings 9 failing 0 launched "connection terminated" 4) as (d2 & H2 & _).
  - reflexivity.
  - vm_compute. reflexivity.
  - vm_compute. reflexivity.
  - reflexivity.
  - exists d2. exact H2.
Defined.

Lemma hidden_run_is_not_found_witness :
  get (Config true [] 1000 2000) 9 (quiet 40) 0 launched = (inl run_not_found, 1, launched).
Proof.
  apply (hidden_run_is_not_found (Config true [] 1000 2000) 9 (quiet 40) 0 launched).
  - reflexivity.
  - intros r _. reflexivity.
Defined.
End Requests.
End RunService.
