(* ===== verification/GroupListService.v ===== *)
(** * Saved group list requests

    [src/modules/group-lists/group-list.service.ts]: creating, editing and archiving a
    saved list and replacing its members.  As in the campaign service, a request reads,
    checks the revisions the client expects and writes once; when the write finds another
    revision, it reads again to say why. *)

From S2P Require Import Prelude Schema SendPolicy Campaigns Json Service CampaignService.

Module ListService.
Section ListService.
Variable cfg : config.
Variable isUUID : string -> option uuid.
Variable sha256 : string -> string.
(** PostgreSQL's [lower] *)
Variable lower : string -> string.
Import Json.

Definition bad_request := CampaignService.bad_request.
Definition conflict := CampaignService.conflict.
Definition unprocessable := CampaignService.unprocessable.

Definition list_not_found : failure :=
  CampaignService.not_found "GROUP_LIST_NOT_FOUND" "Saved group list not found".
Definition list_archived : failure :=
  conflict "GROUP_LIST_ARCHIVED" "Archived saved group lists cannot be changed".
Definition revisionConflict : failure :=
  conflict "GROUP_LIST_REVISION_CONFLICT" "Saved group list changed after it was loaded".
Definition name_conflict : failure :=
  conflict "GROUP_LIST_NAME_CONFLICT"
    "An active saved group list with this name already exists in the session".

Definition allowed (sessionId : string) : bool := SessionScope.isAllowed cfg sessionId.

(** [GroupListRepository.find] *)
Definition find (id : uuid) (includeArchived : bool) (d : db) : option group_list :=
  match group_lists d !! id with
  | Some l => if includeArchived || is_null (gl_archived_at l) then Some l else None
  | None => None
  end.

Definition validateGroupIds (groupIds : list string) : serv unit :=
  assert! (length groupIds <=? 1000)%nat
    else unprocessable "GROUP_LIST_GROUP_LIMIT_EXCEEDED" "A saved group list can contain at most 1000 unique groups" in
  assert! bool_decide (NoDup groupIds)
    else unprocessable "GROUP_LIST_GROUP_DUPLICATE" "Duplicate group IDs are not allowed" in
  ret tt.

(** [throwGroupValidation] of a result that names invalid groups *)
Definition group_validation (mismatched : list string) : failure :=
  if is_null (head mismatched)
  then unprocessable "GROUP_LIST_GROUP_NOT_FOUND"
         "One or more groups are not present in the durable group read model"
  else unprocessable "GROUP_LIST_GROUP_SESSION_MISMATCH"
         "One or more groups do not belong to the saved list session".

Definition normalizeName (value : string) : serv string :=
  assert! truthy (trim value) else bad_request "GROUP_LIST_NAME_INVALID" "name must not be blank" in
  ret (trim value).

Definition normalizeDescription (value : option string) : option string :=
  match value with
  | None => None
  | Some s => if truthy (trim s) then Some (trim s) else None
  end.

(** [CreateGroupListDto] *)
Record create_dto := CreateDto {
  ld_sessionId : string; ld_name : string; ld_description : option string;
  ld_groupIds : option (list string) }.

(** [JSON.stringify({ sessionId, name, description, groupIds: [...groupIds].sort() })] *)
Definition hash_body (sessionId name : string) (description : option string) (sorted : list string) : string :=
  ("{" ++ member "sessionId" (json_string sessionId)
    ("," ++ member "name" (json_string name)
    ("," ++ member "description" (json_nullable description)
    ("," ++ member "groupIds" (json_array sorted) "}"))))%string.

Definition create (dto : create_dto) (rawIdempotencyKey : option string) : serv (uuid * group_list * bool) :=
  assert! allowed (ld_sessionId dto)
    else Exception_ (Forbidden "Session is not in OPENWA_ALLOWED_SESSION_IDS") in
  let required := bad_request "GROUP_LIST_IDEMPOTENCY_KEY_REQUIRED" "Idempotency-Key header is required" in
  match rawIdempotencyKey with
  | None => throw required
  | Some raw =>
      assert! truthy (trim raw) else required in
      match isUUID (trim raw) with
      | None => throw (bad_request "GROUP_LIST_IDEMPOTENCY_KEY_INVALID" "Idempotency-Key must be a UUID")
      | Some idempotencyKey =>
          let groupIds := default [] (ld_groupIds dto) in
          let! _ := validateGroupIds groupIds in
          let! name := normalizeName (ld_name dto) in
          let description := normalizeDescription (ld_description dto) in
          let sorted := Membership.sort_ids groupIds in
          let requestHash := sha256 (hash_body (ld_sessionId dto) name description sorted) in
          let! result := await (fun now ids => GroupListRepo.create lower now (ids EmptyString)
            (GroupListRepo.CreateInput (ld_sessionId dto) name description sorted idempotencyKey requestHash)) in
          match result with
          | GroupListRepo.NameConflict => throw name_conflict
          | GroupListRepo.SessionNotFound =>
              throw (unprocessable "GROUP_LIST_SESSION_NOT_FOUND" "Session is not synchronized")
          | GroupListRepo.InvalidGroups _ mismatched => throw (group_validation mismatched)
          | GroupListRepo.Replayed id l hash =>
              assert! bool_decide (hash = Some requestHash)
                else conflict "GROUP_LIST_IDEMPOTENCY_CONFLICT"
                  "Idempotency-Key was already used with a different group-list payload" in
              assert! is_null (gl_archived_at l)
                else conflict "GROUP_LIST_IDEMPOTENCY_KEY_RETIRED"
                  "Idempotency-Key belongs to an archived saved group list and cannot be reused" in
              ret (id, l, false)
          | GroupListRepo.Created id l _ => ret (id, l, true)
          end
      end
  end.

(** [!list || !isAllowed(list.sessionId)] *)
Definition visible (row : option group_list) : serv group_list :=
  match row with
  | Some l => assert! allowed (gl_session_id l) else list_not_found in ret l
  | None => throw list_not_found
  end.

Definition read (id : uuid) (includeArchived : bool) : serv group_list :=
  let! row := query (fun _ d => find id includeArchived d) in visible row.

Definition get (id : uuid) : serv group_list := read id false.

Definition getForMutation (id : uuid) : serv group_list :=
  let! l := read id true in
  assert! is_null (gl_archived_at l) else list_archived in ret l.

Definition assertExpectedRevision (expected : option Z) (current : Z) : serv unit :=
  assert! CampaignService.expects expected current else revisionConflict in ret tt.

Definition throwMutationRace {A : Type} (id : uuid) : serv A :=
  let! latest := read id true in
  throw (if is_null (gl_archived_at latest) then revisionConflict else list_archived).

(** [UpdateGroupListDto] *)
Record update_dto := UpdateDto {
  lu_expectedRevision : option Z; lu_name : field string; lu_description : field string }.

Definition patched_name (v : field string) (current : string) : serv string :=
  match v with
  | Absent => ret current
  | Null => throw (JsError "Cannot read properties of null (reading 'trim')")
  | Value s => normalizeName s
  end.

Definition patched_description (v : field string) (current : option string) : option string :=
  match v with
  | Absent => current
  | Null => None
  | Value s => normalizeDescription (Some s)
  end.

Definition update (id : uuid) (dto : update_dto) : serv group_list :=
  let! current := getForMutation id in
  let! _ := assertExpectedRevision (lu_expectedRevision dto) (gl_revision current) in
  let! name := patched_name (lu_name dto) (gl_name current) in
  let description := patched_description (lu_description dto) (gl_description current) in
  let! updated := await (fun now _ => GroupListRepo.update lower now id name description (gl_revision current)) in
  match updated with
  | GroupListRepo.Updated l => ret l
  | GroupListRepo.UpdateNameConflict => throw name_conflict
  | GroupListRepo.NotUpdated => throwMutationRace id
  end.

Definition archive (id : uuid) (expectedRevision : option Z) : serv unit :=
  let! current := read id true in
  if negb (is_null (gl_archived_at current)) then ret tt
  else
    let! _ := assertExpectedRevision expectedRevision (gl_revision current) in
    let! archived := await (fun now _ => GroupListRepo.archive now id (gl_revision current)) in
    match archived with
    | Some _ => ret tt
    | None =>
        let! latest := read id true in
        assert! negb (is_null (gl_archived_at latest)) else revisionConflict in ret tt
    end.

Definition membership (id : uuid) : serv (group_list * list (string * gateway_group)) :=
  let! row := query (fun _ d => (fun l => (l, GroupListRepo.listGroups lower id d)) <$> find id false d) in
  match row with
  | Some (l, groups) => assert! allowed (gl_session_id l) else list_not_found in ret (l, groups)
  | None => throw list_not_found
  end.

Definition replaceGroups (id : uuid) (groupIds : list string)
    (expectedRevision expectedMembershipRevision : option Z)
    : serv (group_list * list (string * gateway_group)) :=
  let! current := getForMutation id in
  let! _ := assertExpectedRevision expectedRevision (gl_revision current) in
  let! _ := assertExpectedRevision expectedMembershipRevision (gl_membership_revision current) in
  let! _ := validateGroupIds groupIds in
  let! result := await (fun now _ => GroupListRepo.replaceGroups lower now id (Membership.sort_ids groupIds)
    (gl_revision current) expectedMembershipRevision) in
  match result with
  | GroupListRepo.ListRevisionConflict => throw revisionConflict
  | GroupListRepo.ListInvalidGroups _ mismatched => throw (group_validation mismatched)
  | GroupListRepo.ListNotFound => throw list_not_found
  | GroupListRepo.Replaced l groups => ret (l, groups)
  end.

(** *** Refusals *)

Lemma reads_validate ids : reads (validateGroupIds ids).
Proof. unfold validateGroupIds. walk. Qed.

Lemma reads_name v : reads (normalizeName v).
Proof. unfold normalizeName. walk. Qed.

Lemma reads_patched_name v s : reads (patched_name v s).
Proof. destruct v; cbn; [walk|walk|apply reads_name]. Qed.

Lemma reads_read id b : reads (read id b).
Proof. unfold read, visible. walk. Qed.

Lemma reads_getForMutation id : reads (getForMutation id).
Proof. unfold getForMutation. apply reads_bind; [apply reads_read|intros ?; walk]. Qed.

Lemma reads_expected o r : reads (assertExpectedRevision o r).
Proof. unfold assertExpectedRevision. walk. Qed.

Lemma reads_race {A} id : reads (throwMutationRace (A := A) id).
Proof. unfold throwMutationRace. apply reads_bind; [apply reads_read|intros ?; walk]. Qed.

Definition list_created (a : GroupListRepo.create_answer) : bool :=
  match a with GroupListRepo.Created _ _ _ => true | _ => false end.

Lemma list_create_answer now new_id i d : list_created (GroupListRepo.create lower now new_id i d).1 = false ->
  (GroupListRepo.create lower now new_id i d).2 = d.
Proof. unfold GroupListRepo.create. repeat case_match; done. Qed.

Definition list_updated (a : GroupListRepo.update_answer) : bool :=
  match a with GroupListRepo.Updated _ => true | _ => false end.

Lemma list_update_answer now id name description rev d :
  list_updated (GroupListRepo.update lower now id name description rev d).1 = false ->
  (GroupListRepo.update lower now id name description rev d).2 = d.
Proof. unfold GroupListRepo.update. repeat case_match; done. Qed.

Lemma archive_answer now id rev d : (GroupListRepo.archive now id rev d).1 = None ->
  (GroupListRepo.archive now id rev d).2 = d.
Proof.
  unfold GroupListRepo.archive. destruct (update_row _ _ _ _) as [row ls] eqn:E. cbn. intros ->.
  apply update_row_None in E as [-> _]. by destruct d.
Qed.

Definition list_replaced (a : GroupListRepo.replace_answer) : bool :=
  match a with GroupListRepo.Replaced _ _ => true | _ => false end.

Lemma list_replace_answer now id ids rev mrev d :
  list_replaced (GroupListRepo.replaceGroups lower now id ids rev mrev d).1 = false ->
  (GroupListRepo.replaceGroups lower now id ids rev mrev d).2 = d.
Proof. unfold GroupListRepo.replaceGroups. repeat case_match; done. Qed.

Lemma list_clean_create dto key : clean (create dto key).
Proof.
  unfold create. apply clean_if; [|walk]. destruct key as [raw|]; [|walk]. apply clean_if; [|walk].
  destruct (isUUID (trim raw)) as [k|]; [|walk].
  apply clean_bind; [apply reads_validate|intros _]. apply clean_bind; [apply reads_name|intros name].
  apply (clean_write _ list_created).
  - intros now ids d. apply list_create_answer.
  - intros [] H; first [done|apply accepts_ret].
  - intros [] _; walk.
Qed.

Lemma list_clean_update id dto : clean (update id dto).
Proof.
  unfold update. apply clean_bind; [apply reads_getForMutation|intros l].
  apply clean_bind; [apply reads_expected|intros _]. apply clean_bind; [apply reads_patched_name|intros name].
  apply (clean_write _ list_updated).
  - intros now ids d. apply list_update_answer.
  - intros [] H; first [done|apply accepts_ret].
  - intros [] _; [walk|apply reads_clean, reads_race|walk].
Qed.

Lemma clean_archive id rev : clean (archive id rev).
Proof.
  unfold archive. apply clean_bind; [apply reads_read|intros l]. apply clean_if; [walk|].
  apply clean_bind; [apply reads_expected|intros _]. apply (clean_write _ (fun o => negb (is_null o))).
  - intros now ids d H. apply archive_answer. by destruct (GroupListRepo.archive _ _ _ _).1.
  - intros [a|] H; first [done|apply accepts_ret].
  - intros [a|] _; [walk|]. apply clean_bind; [apply reads_read|intros latest; walk].
Qed.

Lemma clean_replaceGroups id ids rev mrev : clean (replaceGroups id ids rev mrev).
Proof.
  unfold replaceGroups. apply clean_bind; [apply reads_getForMutation|intros l].
  apply clean_bind; [apply reads_expected|intros _]. apply clean_bind; [apply reads_expected|intros _].
  apply clean_bind; [apply reads_validate|intros _]. apply (clean_write _ list_replaced).
  - intros now ids' d. apply list_replace_answer.
  - intros [] H; first [done|apply accepts_ret].
  - intros [] _; walk.
Qed.

(** *** Archiving *)

Lemma read_ok id b e n d l n' d' : read id b e n d = (inr l, n', d') ->
  n' = S n /\ d' = between e n d /\ find id b d' = Some l /\ allowed (gl_session_id l) = true.
Proof.
  unfold read. intros (row & n1 & d1 & (-> & -> & ->)%query_ok & E)%bind_ok. unfold visible in E.
  destruct (find id b (between e n d)) as [l0|] eqn:El; [|done].
  destruct (allowed (gl_session_id l0)) eqn:Ea; [|done]. by injection E as <- <- <-.
Qed.

Lemma find_all id d l : find id true d = Some l -> group_lists d !! id = Some l.
Proof. unfold find. by destruct (group_lists d !! id). Qed.

Definition archived_in (d : db) (id : uuid) : Prop :=
  exists l, group_lists d !! id = Some l /\ is_Some (gl_archived_at l).

Lemma read_archived id e n d l n' d' : read id true e n d = (inr l, n', d') ->
  negb (is_null (gl_archived_at l)) = true -> archived_in d' id.
Proof.
  intros (_ & _ & Hl%find_all & _)%read_ok Ha. exists l. split; [done|]. destruct (gl_archived_at l); [eauto|done].
Qed.

(** Archiving is idempotent and never pretends.  Whatever other clients do between its
    statements, a request to archive a list that is answered with success leaves the list
    archived, whether it archived it itself, found it archived, or lost the race to
    another request that did; refused, it changed nothing; and repeated on an archived
    list of an allowed session it succeeds without a write, whatever revision it expects. *)
Theorem archive_leaves_archived id rev e n d :
  (forall n' d', archive id rev e n d = (inr tt, n', d') -> archived_in d' id) /\
  (forall f n' d', archive id rev e n d = (inl f, n', d') -> refusal f ->
     exists k, d' = others e n k d) /\
  (faults e n = None -> forall l, group_lists (between e n d) !! id = Some l -> is_Some (gl_archived_at l) ->
     allowed (gl_session_id l) = true -> archive id rev e n d = (inr tt, S n, between e n d)).
Proof.
  split_and!.
  - intros n' d' E. unfold archive in E. apply bind_ok in E as (l & n1 & d1 & Er & E).
    destruct (negb _) eqn:Ha; [injection E as _ <-; by eapply read_archived|].
    apply bind_ok in E as (u & n2 & d2 & Ee & E). unfold assertExpectedRevision in Ee.
    destruct (CampaignService.expects _ _); [|done]. injection Ee as _ <- <-.
    apply bind_ok in E as (a & n2 & d2 & Ea & E). apply await_ok in Ea as [_ Ea]. destruct a as [l'|].
    + injection E as _ <-. unfold GroupListRepo.archive in Ea.
      destruct (update_row _ _ _ _) as [row ls] eqn:Eu. injection Ea as -> <-.
      apply update_row_Some in Eu as (q & Hq & _ & -> & ->). eexists. cbn. rewrite lookup_insert_eq.
      split; [reflexivity|]. cbn. eauto.
    + apply bind_ok in E as (latest & n3 & d3 & Er3 & E). destruct (negb (is_null (gl_archived_at latest))) eqn:Hl; [|done].
      injection E as _ <-. by eapply read_archived.
  - intros f n' d' E Hf. destruct (clean_archive id rev _ _ _ _ _ _ E Hf) as (k & _ & ->). by exists k.
  - intros Hf l Hl [t Ht] Ha. unfold archive, read, bind, query, await. rewrite Hf. cbn [fst snd].
    unfold find. rewrite Hl. cbn. rewrite Ha. cbn. by rewrite Ht.
Qed.

(** Whatever the other clients do meanwhile, a refused request on saved lists has
    itself written nothing. *)
Theorem list_refusals_change_nothing id dto key upd ids rev mrev :
  clean (create dto key) /\ clean (update id upd) /\ clean (archive id rev) /\
  clean (replaceGroups id ids rev mrev).
Proof. split_and!; [apply list_clean_create|apply list_clean_update|apply clean_archive|apply clean_replaceGroups]. Qed.

(** The text under the hash of a creation names the request up to the order of its
    groups: two creations have the same text exactly when they have the same session,
    normalised name and description, and the same groups in some order. *)
Theorem list_hash_names_request s n o ids s' n' o' ids' :
  hash_body s n o (Membership.sort_ids ids) = hash_body s' n' o' (Membership.sort_ids ids') <->
  s = s' /\ n = n' /\ o = o' /\ ids ≡ₚ ids'.
Proof.
  unfold hash_body. split.
  - intros E. apply append_cancel in E.
    apply member_inj in E as [Hs E]; [|apply json_string_inj]. apply append_cancel in E.
    apply member_inj in E as [Hn E]; [|apply json_string_inj]. apply append_cancel in E.
    apply member_inj in E as [Ho E]; [|apply json_nullable_inj]. apply append_cancel in E.
    apply member_inj in E as [Hi _]; [|apply json_array_inj]. split_and!; try done.
    rewrite <- (order_by_Permutation text_leb ids), <- (order_by_Permutation text_leb ids').
    unfold Membership.sort_ids in Hi. by rewrite Hi.
  - intros (-> & -> & -> & Hp). unfold Membership.sort_ids. by rewrite (text_sort_unique _ _ Hp).
Qed.
End ListService.

(** *** Concrete requests *)

Module Requests.
Definition settings : config := Config true ["s"] 1000 2000.
Definition quiet (t : timestamp) : env :=
  Env (fun _ => t) (fun _ _ => 5%positive) (fun _ d => d) (fun _ => None).
Definition shelf : db := empty_db
  <| group_lists := {[ 3%positive := GroupList "s" "Team" None 1 1 (Some 2%positive) (Some "h") None 0 0 ]} |>.

Lemma archive_leaves_archived_witness : exists n' d',
  archive settings 3 (Some 1%Z) (quiet 10) 0 shelf = (inr tt, n', d') /\ archived_in d' 3.
Proof.
  eexists _, _. split; [vm_compute; reflexivity|].
  destruct (archive_leaves_archived settings 3 (Some 1%Z) (quiet 10) 0 shelf) as (H & _ & _).
  apply (H 2). vm_compute. reflexivity.
Defined.

Example archived_again : (archive settings 3 (Some 1%Z) (quiet 20) 0
  (archive settings 3 (Some 1%Z) (quiet 10) 0 shelf).2).1.1 = inr tt.
Proof. vm_compute. reflexivity. Qed.
End Requests.
End ListService.
