(* ===== verification/GatewaySchema.v ===== *)
(** * The durable state of gateway synchronisation

    The rows and tables of [src/migrations/012]..[017]: synchronisation runs and their
    items, epochs, request pacing and reconciliation intents, beside the tables of
    [Schema].  The columns of [gateway_sessions] and [gateway_groups] that only
    synchronisation uses are tables of their own, with the same keys; an absent row
    has the column defaults. *)

From S2P Require Import Prelude Schema.

(** [gateway_sync_status] *)
Module SyncStatus.
Inductive t : Set := PENDING | RUNNING | COMPLETED | FAILED.
#[export] Instance t_eq_dec : EqDecision t.
Proof. solve_decision. Defined.
End SyncStatus.
Export (hints) SyncStatus.

(** [SyncRunPhase] *)
Module SyncPhase.
Inductive t : Set := DISCOVERING | RECONCILING | COMPLETED.
#[export] Instance t_eq_dec : EqDecision t.
Proof. solve_decision. Defined.
End SyncPhase.
Export (hints) SyncPhase.

(** [GatewaySyncMode] *)
Module SyncMode.
Inductive t : Set := FULL | INCREMENTAL.
#[export] Instance t_eq_dec : EqDecision t.
Proof. solve_decision. Defined.
End SyncMode.
Export (hints) SyncMode.

(** [GatewaySyncItemStatus] *)
Module ItemStatus.
Inductive t : Set := PENDING | RUNNING | RETRY | COMPLETED | FAILED | SKIPPED.
#[export] Instance t_eq_dec : EqDecision t.
Proof. solve_decision. Defined.
End ItemStatus.
Export (hints) ItemStatus.

(** [gateway_group_intent_status] *)
Module IntentStatus.
Inductive t : Set := PENDING | RUNNING | RETRY | COMPLETED | FAILED.
#[export] Instance t_eq_dec : EqDecision t.
Proof. solve_decision. Defined.
End IntentStatus.
Export (hints) IntentStatus.

(** [sync_runs] *)
Record sync_run := SyncRun {
  sr_session_id : string;
  sr_sync_type : SyncMode.t;
  sr_status : SyncStatus.t;
  sr_phase : SyncPhase.t;
  sr_groups_synced : Z;
  sr_groups_discovered : Z;
  sr_groups_scheduled : Z;
  sr_groups_failed : Z;
  sr_groups_skipped : Z;
  sr_members_synced : Z;
  sr_attempt_count : Z;
  sr_next_attempt_at : timestamp;
  sr_sync_epoch : option Z;
  sr_lease_token : option uuid;
  sr_lease_expires_at : option timestamp;
  sr_error : option string;
  sr_requested_at : timestamp;
  sr_started_at : option timestamp;
  sr_completed_at : option timestamp }.
#[export] Instance sync_run_eta : Eta sync_run := fun r => SyncRun
  (sr_session_id r) (sr_sync_type r) (sr_status r) (sr_phase r) (sr_groups_synced r)
  (sr_groups_discovered r) (sr_groups_scheduled r) (sr_groups_failed r)
  (sr_groups_skipped r) (sr_members_synced r) (sr_attempt_count r) (sr_next_attempt_at r)
  (sr_sync_epoch r) (sr_lease_token r) (sr_lease_expires_at r) (sr_error r)
  (sr_requested_at r) (sr_started_at r) (sr_completed_at r).

(** [gateway_sync_items] *)
Record sync_item := SyncItem {
  si_sync_run_id : uuid;
  si_session_id : string;
  si_group_id : string;
  si_ordinal : Z;
  si_reason : string;
  si_status : ItemStatus.t;
  si_attempt_count : Z;
  si_next_attempt_at : timestamp;
  si_lease_token : option uuid;
  si_lease_expires_at : option timestamp;
  si_members_synced : Z;
  si_error : option string;
  si_observed_summary_fingerprint : option string;
  si_started_at : option timestamp;
  si_completed_at : option timestamp }.
#[export] Instance sync_item_eta : Eta sync_item := fun i => SyncItem
  (si_sync_run_id i) (si_session_id i) (si_group_id i) (si_ordinal i) (si_reason i)
  (si_status i) (si_attempt_count i) (si_next_attempt_at i) (si_lease_token i)
  (si_lease_expires_at i) (si_members_synced i) (si_error i)
  (si_observed_summary_fingerprint i) (si_started_at i) (si_completed_at i).

(** [gateway_sync_rate_limits], keyed by session *)
Record rate_limit := RateLimit {
  rl_next_request_at : timestamp;
  rl_consecutive_failures : Z;
  rl_cooldown_until : option timestamp;
  rl_active_lease_token : option uuid;
  rl_active_lease_expires_at : option timestamp;
  rl_effective_requests_per_minute : option Z;
  rl_success_streak : Z;
  rl_last_rate_pressure_at : option timestamp }.
#[export] Instance rate_limit_eta : Eta rate_limit := fun l => RateLimit
  (rl_next_request_at l) (rl_consecutive_failures l) (rl_cooldown_until l)
  (rl_active_lease_token l) (rl_active_lease_expires_at l)
  (rl_effective_requests_per_minute l) (rl_success_streak l) (rl_last_rate_pressure_at l).

(** [gateway_group_reconciliation_intents], keyed by (session_id, group_id) *)
Record group_intent := GroupIntent {
  gi_requested_revision : Z;
  gi_completed_revision : Z;
  gi_claimed_revision : option Z;
  gi_reasons : list string;
  gi_status : IntentStatus.t;
  gi_not_before : timestamp;
  gi_next_attempt_at : timestamp;
  gi_attempt_count : Z;
  gi_coalesced_count : Z;
  gi_lease_token : option uuid;
  gi_lease_expires_at : option timestamp;
  gi_last_error_code : option string;
  gi_first_requested_at : timestamp;
  gi_last_requested_at : timestamp;
  gi_started_at : option timestamp;
  gi_completed_at : option timestamp }.
#[export] Instance group_intent_eta : Eta group_intent := fun i => GroupIntent
  (gi_requested_revision i) (gi_completed_revision i) (gi_claimed_revision i)
  (gi_reasons i) (gi_status i) (gi_not_before i) (gi_next_attempt_at i)
  (gi_attempt_count i) (gi_coalesced_count i) (gi_lease_token i) (gi_lease_expires_at i)
  (gi_last_error_code i) (gi_first_requested_at i) (gi_last_requested_at i)
  (gi_started_at i) (gi_completed_at i).

(** The snapshot columns of [gateway_sessions] *)
Record session_snapshot := SessionSnapshot {
  sn_count : option Z;
  sn_suspicious_fingerprint : option string;
  sn_suspicious_count : option Z;
  sn_suspicious_confirmations : Z }.
#[export] Instance session_snapshot_eta : Eta session_snapshot := fun s => SessionSnapshot
  (sn_count s) (sn_suspicious_fingerprint s) (sn_suspicious_count s)
  (sn_suspicious_confirmations s).

(** The summary fingerprints of [gateway_groups] *)
Record group_fingerprints := GroupFingerprints {
  gf_summary : option string; gf_reconciled_summary : option string }.
#[export] Instance group_fingerprints_eta : Eta group_fingerprints := fun g =>
  GroupFingerprints (gf_summary g) (gf_reconciled_summary g).

Record gdb := Gdb {
  core : db;
  sync_runs : gmap uuid sync_run;
  (** the value is [current_epoch] *)
  gateway_sync_fences : gmap string Z;
  gateway_sync_items : gmap uuid sync_item;
  rate_limits : gmap string rate_limit;
  group_intents : gmap (string * string) group_intent;
  session_snapshots : gmap string session_snapshot;
  fingerprints : gmap (string * string) group_fingerprints }.
#[export] Instance gdb_eta : Eta gdb := fun d => Gdb
  (core d) (sync_runs d) (gateway_sync_fences d) (gateway_sync_items d) (rate_limits d)
  (group_intents d) (session_snapshots d) (fingerprints d).

Definition empty_gdb : gdb := Gdb empty_db ∅ ∅ ∅ ∅ ∅ ∅ ∅.

(** The part of [RuntimeConfig] that synchronisation reads.  The drop ratio is a
    fraction of numerator and denominator. *)
Record gateway_config := GatewayConfig {
  gw_core : config;
  GATEWAY_SYNC_GROUPS_PER_MINUTE : Z;
  GATEWAY_SYNC_MIN_GROUPS_PER_MINUTE : Z;
  GATEWAY_SYNC_RATE_RECOVERY_SUCCESSES : Z;
  GATEWAY_SYNC_ADAPTIVE_PACING : bool;
  GATEWAY_SYNC_ITEM_MAX_ATTEMPTS : Z;
  GATEWAY_GROUP_DETAILS_STALE_AFTER_HOURS : Z;
  GATEWAY_SYNC_SNAPSHOT_MIN_BASELINE : Z;
  GATEWAY_SYNC_SNAPSHOT_DROP_RATIO : Z * Z;
  GATEWAY_SYNC_SNAPSHOT_CONFIRMATIONS : Z;
  GATEWAY_TARGETED_RECONCILIATION_ENABLED : bool;
  GATEWAY_GROUP_EVENT_DEBOUNCE_MS : Z;
  GATEWAY_GROUP_EVENT_MAX_WAIT_MS : Z;
  CONTACT_SNAPSHOT_SYNC_ENABLED : bool }.

#[export] Instance gateway_config_eta : Eta gateway_config := fun c => GatewayConfig
  (gw_core c) (GATEWAY_SYNC_GROUPS_PER_MINUTE c) (GATEWAY_SYNC_MIN_GROUPS_PER_MINUTE c)
  (GATEWAY_SYNC_RATE_RECOVERY_SUCCESSES c) (GATEWAY_SYNC_ADAPTIVE_PACING c)
  (GATEWAY_SYNC_ITEM_MAX_ATTEMPTS c) (GATEWAY_GROUP_DETAILS_STALE_AFTER_HOURS c)
  (GATEWAY_SYNC_SNAPSHOT_MIN_BASELINE c) (GATEWAY_SYNC_SNAPSHOT_DROP_RATIO c)
  (GATEWAY_SYNC_SNAPSHOT_CONFIRMATIONS c) (GATEWAY_TARGETED_RECONCILIATION_ENABLED c)
  (GATEWAY_GROUP_EVENT_DEBOUNCE_MS c) (GATEWAY_GROUP_EVENT_MAX_WAIT_MS c)
  (CONTACT_SNAPSHOT_SYNC_ENABLED c).

Definition between_incl (lo hi x : Z) : bool := (lo <=? x)%Z && (x <=? hi)%Z.

(** What the configuration schema accepts of these settings *)
Definition valid_gateway_config (c : gateway_config) : bool :=
  between_incl 1 120 (GATEWAY_SYNC_GROUPS_PER_MINUTE c)
  && between_incl 1 120 (GATEWAY_SYNC_MIN_GROUPS_PER_MINUTE c)
  && (GATEWAY_SYNC_MIN_GROUPS_PER_MINUTE c <=? GATEWAY_SYNC_GROUPS_PER_MINUTE c)%Z
  && between_incl 1 1000 (GATEWAY_SYNC_RATE_RECOVERY_SUCCESSES c)
  && between_incl 1 10 (GATEWAY_SYNC_ITEM_MAX_ATTEMPTS c)
  && between_incl 1 8760 (GATEWAY_GROUP_DETAILS_STALE_AFTER_HOURS c)
  && between_incl 1 100000 (GATEWAY_SYNC_SNAPSHOT_MIN_BASELINE c)
  && (0 <? (GATEWAY_SYNC_SNAPSHOT_DROP_RATIO c).2)%Z
  && between_incl 0 (GATEWAY_SYNC_SNAPSHOT_DROP_RATIO c).2 (GATEWAY_SYNC_SNAPSHOT_DROP_RATIO c).1
  && between_incl 2 5 (GATEWAY_SYNC_SNAPSHOT_CONFIRMATIONS c)
  && between_incl 0 60000 (GATEWAY_GROUP_EVENT_DEBOUNCE_MS c)
  && between_incl 1000 300000 (GATEWAY_GROUP_EVENT_MAX_WAIT_MS c)
  && (GATEWAY_GROUP_EVENT_DEBOUNCE_MS c <=? GATEWAY_GROUP_EVENT_MAX_WAIT_MS c)%Z.

(** The defaults *)
Definition default_gateway_config (c : config) : gateway_config :=
  GatewayConfig c 40 5 25 false 5 24 20 (1, 4)%Z 2 false 3000 10000 false.

Definition two_minutes : Z := 120000.

(** Fresh rows, with the column defaults *)
Definition new_rate_limit (now : timestamp) (rate : Z) : rate_limit :=
  RateLimit now 0 None None None (Some rate) 0 None.

Definition no_snapshot : session_snapshot := SessionSnapshot None None None 0.
Definition no_fingerprints : group_fingerprints := GroupFingerprints None None.

(** [GatewaySyncFailurePolicy] *)
Record failure_policy := FailurePolicy {
  fp_retryable : bool;
  fp_ratePressure : bool;
  fp_reduceRate : bool;
  fp_retryAfterMs : option Z;
  fp_code : string }.

Lemma valid_config_rates c : valid_gateway_config c = true ->
  (1 <= GATEWAY_SYNC_MIN_GROUPS_PER_MINUTE c <= GATEWAY_SYNC_GROUPS_PER_MINUTE c)%Z /\
  (GATEWAY_SYNC_GROUPS_PER_MINUTE c <= 120)%Z /\
  (1 <= GATEWAY_SYNC_RATE_RECOVERY_SUCCESSES c)%Z.
Proof. unfold valid_gateway_config, between_incl. intros H. split_bool. lia. Qed.

Lemma valid_config_events c : valid_gateway_config c = true ->
  (0 <= GATEWAY_GROUP_EVENT_DEBOUNCE_MS c <= GATEWAY_GROUP_EVENT_MAX_WAIT_MS c)%Z /\
  (1 <= GATEWAY_SYNC_ITEM_MAX_ATTEMPTS c)%Z.
Proof. unfold valid_gateway_config, between_incl. intros H. split_bool. lia. Qed.

Lemma valid_config_snapshot c : valid_gateway_config c = true ->
  (2 <= GATEWAY_SYNC_SNAPSHOT_CONFIRMATIONS c)%Z /\ (1 <= GATEWAY_SYNC_SNAPSHOT_MIN_BASELINE c)%Z.
Proof. unfold valid_gateway_config, between_incl. intros H. split_bool. lia. Qed.
