(* ===== verification/GatewayPacing.v ===== *)
(** * Request pacing

    [src/modules/gateway/gateway-sync-rate-limit.repository.ts]: the row per session that
    spaces group reads, admits one at a time and slows down under pressure.  The
    operations are functions of the table [gateway_sync_rate_limits]; [op] lists them
    and [run_all] is any sequence of them. *)

From S2P Require Import Prelude Schema GatewaySchema.

Module Pacing.

Abbreviation limits := (gmap string rate_limit) (only parsing).
Local Open Scope Z_scope.

Section Config.
Context (cfg : gateway_config).

Definition ensure (now : timestamp) (session : string) (t : limits) : limits :=
  let rate := GATEWAY_SYNC_GROUPS_PER_MINUTE cfg in
  match t !! session with
  | None => <[session := new_rate_limit now rate]> t
  | Some l => <[session := l <| rl_effective_requests_per_minute :=
      Some (Z.min (default rate (rl_effective_requests_per_minute l)) rate) |>]> t
  end.

(** GREATEST(next_request_at, cooldown_until) <= now() AND no live lease *)
Definition ready (now : timestamp) (l : rate_limit) : bool :=
  (rl_next_request_at l <=? now) && negb (after (rl_cooldown_until l) now)
  && (is_null (rl_active_lease_token l) || before (rl_active_lease_expires_at l) now).

Definition readyAndRate (now : timestamp) (session : string) (t : limits) : option Z :=
  match t !! session with
  | Some l =>
      if ready now l
      then Some (if GATEWAY_SYNC_ADAPTIVE_PACING cfg
                 then default (GATEWAY_SYNC_GROUPS_PER_MINUTE cfg) (rl_effective_requests_per_minute l)
                 else GATEWAY_SYNC_GROUPS_PER_MINUTE cfg)
      else None
  | None => None
  end.

(** [60_000 / rate] milliseconds; the clock shows whole ones. *)
Definition spacing (rate : Z) : Z := (60000 + rate - 1) / rate.

Definition acquire (now : timestamp) (session : string) (leaseToken : uuid) (rate : Z) (t : limits)
    : limits :=
  (update_row session (fun _ => true)
    (fun l => l <| rl_next_request_at := now + spacing rate |>
                <| rl_active_lease_token := Some leaseToken |>
                <| rl_active_lease_expires_at := Some (now + two_minutes) |>) t).2.

Definition holder (leaseToken : uuid) (l : rate_limit) : bool :=
  bool_decide (rl_active_lease_token l = Some leaseToken).

Definition renew (now : timestamp) (session : string) (leaseToken : uuid) (t : limits)
    : bool * limits :=
  let '(row, t') := update_row session
    (fun l => holder leaseToken l && after (rl_active_lease_expires_at l) now)
    (fun l => l <| rl_active_lease_expires_at := Some (now + two_minutes) |>) t in
  (negb (is_null row), t').

Definition unlease (l : rate_limit) : rate_limit :=
  l <| rl_active_lease_token := None |> <| rl_active_lease_expires_at := None |>.

(** The first UPDATE of [success] *)
Definition succeeded (l : rate_limit) : rate_limit :=
  let adaptive := GATEWAY_SYNC_ADAPTIVE_PACING cfg in
  let max := GATEWAY_SYNC_GROUPS_PER_MINUTE cfg in
  let rate := default max (rl_effective_requests_per_minute l) in
  unlease (l <| rl_consecutive_failures := 0 |> <| rl_cooldown_until := None |>
    <| rl_success_streak := if adaptive then rl_success_streak l + 1 else 0 |>
    <| rl_effective_requests_per_minute :=
         Some (if adaptive && (GATEWAY_SYNC_RATE_RECOVERY_SUCCESSES cfg <=? rl_success_streak l + 1)
               then Z.min max (rate + 1) else rate) |>).

Definition success (session : string) (leaseToken : uuid) (t : limits) : limits :=
  let t1 := (update_row session (holder leaseToken) succeeded t).2 in
  if GATEWAY_SYNC_ADAPTIVE_PACING cfg
  then (update_row session
          (fun l => is_null (rl_active_lease_token l)
                    && (GATEWAY_SYNC_RATE_RECOVERY_SUCCESSES cfg <=? rl_success_streak l))
          (fun l => l <| rl_success_streak := 0 |>) t1).2
  else t1.

(** The back-off in seconds *)
Definition cooldown_s (failures : Z) : Z :=
  match Z.min failures 4 with 1 => 5 | 2 => 15 | 3 => 30 | _ => 60 end.

(** [jitter] is [0.8 + random() * 0.4] in thousandths. *)
Definition failed (now : timestamp) (jitter : Z) (policy : failure_policy) (l : rate_limit) : rate_limit :=
  let max := GATEWAY_SYNC_GROUPS_PER_MINUTE cfg in
  let rate := default max (rl_effective_requests_per_minute l) in
  let pressure := fp_ratePressure policy in
  unlease (l
    <| rl_consecutive_failures :=
         if pressure then rl_consecutive_failures l + 1 else rl_consecutive_failures l |>
    <| rl_cooldown_until :=
         if pressure
         then Some (now + default (cooldown_s (rl_consecutive_failures l + 1) * jitter)
                            (fp_retryAfterMs policy))
         else rl_cooldown_until l |>
    <| rl_effective_requests_per_minute :=
         Some (if fp_reduceRate policy && GATEWAY_SYNC_ADAPTIVE_PACING cfg
               then Z.max (GATEWAY_SYNC_MIN_GROUPS_PER_MINUTE cfg) (rate / 2) else rate) |>
    <| rl_success_streak := if pressure then 0 else rl_success_streak l |>
    <| rl_last_rate_pressure_at := if pressure then Some now else rl_last_rate_pressure_at l |>).

Definition failure (now : timestamp) (jitter : Z) (session : string) (leaseToken : uuid)
    (policy : failure_policy) (t : limits) : limits :=
  (update_row session (holder leaseToken) (failed now jitter policy) t).2.

Definition release (session : string) (leaseToken : uuid) (t : limits) : limits :=
  (update_row session (holder leaseToken) unlease t).2.

(** How a request is admitted: [ensure] and [readyAndRate], then, when the caller's own
    row lets it, [acquire].  [granted] is that condition. *)
Definition admission (now : timestamp) (session : string) (leaseToken : uuid) (granted : bool) (t : limits)
    : bool * limits :=
  let t1 := ensure now session t in
  match readyAndRate now session t1 with
  | Some rate => if granted then (true, acquire now session leaseToken rate t1) else (false, t1)
  | None => (false, t1)
  end.

Definition reserve (now : timestamp) (new_token : uuid) (session : string) (t : limits)
    : option uuid * limits :=
  let '(ok, t') := admission now session new_token true t in (if ok then Some new_token else None, t').

Definition record (now : timestamp) (jitter : Z) (session : string) (leaseToken : uuid)
    (policy : option failure_policy) (t : limits) : limits :=
  match policy with
  | Some p => failure now jitter session leaseToken p t
  | None => success session leaseToken t
  end.

(** The recovery statements of the item and intent repositories: leases that expired,
    of all sessions or of those recovered *)
Definition release_expired (now : timestamp) (sessions : string -> bool) (t : limits) : limits :=
  update_where (fun s l => sessions s && before (rl_active_lease_expires_at l) now) unlease t.

(** [renewGroupReadPacingLease], within a transaction that writes a group *)
Definition renew_write (now : timestamp) (session : string) (leaseToken : uuid) (t : limits)
    : bool * limits :=
  let '(row, t') := update_row session (holder leaseToken)
    (fun l => l <| rl_active_lease_expires_at := Some (now + two_minutes) |>) t in
  (negb (is_null row), t').

(** *** Every statement on the table *)

Inductive op : Type :=
  | Admit (now : timestamp) (session : string) (token : uuid) (granted : bool)
  | Renew (now : timestamp) (session : string) (token : uuid)
  | RenewWrite (now : timestamp) (session : string) (token : uuid)
  | Success (session : string) (token : uuid)
  | Failure (now : timestamp) (jitter : Z) (session : string) (token : uuid) (policy : failure_policy)
  | Release (session : string) (token : uuid)
  | ReleaseExpired (now : timestamp) (sessions : string -> bool).

Definition run (o : op) (t : limits) : limits :=
  match o with
  | Admit now s token granted => (admission now s token granted t).2
  | Renew now s token => (renew now s token t).2
  | RenewWrite now s token => (renew_write now s token t).2
  | Success s token => success s token t
  | Failure now jitter s token p => failure now jitter s token p t
  | Release s token => release s token t
  | ReleaseExpired now sessions => release_expired now sessions t
  end.

Definition run_all (os : list op) (t : limits) : limits := foldl (fun t o => run o t) t os.

(** The request [o] admits in [t], if any *)
Definition admitted (session : string) (o : op) (t : limits) : option timestamp :=
  match o with
  | Admit now s token granted =>
      if bool_decide (s = session) && (admission now s token granted t).1 then Some now else None
  | _ => None
  end.

(** The times of the requests of [session] that [os] admits *)
Fixpoint requests (session : string) (os : list op) (t : limits) : list timestamp :=
  match os with
  | [] => []
  | o :: os' =>
      match admitted session o t with
      | Some now => now :: requests session os' (run o t)
      | None => requests session os' (run o t)
      end
  end.

End Config.

(** *** What every row keeps *)

(** The rate stays between the configured bounds, a streak below the threshold that
    raises it, and a row without a lease has no lease time. *)
Definition paced (cfg : gateway_config) (l : rate_limit) : Prop :=
  (exists rate, rl_effective_requests_per_minute l = Some rate /\
     GATEWAY_SYNC_MIN_GROUPS_PER_MINUTE cfg <= rate <= GATEWAY_SYNC_GROUPS_PER_MINUTE cfg) /\
  0 <= rl_success_streak l < GATEWAY_SYNC_RATE_RECOVERY_SUCCESSES cfg /\
  0 <= rl_consecutive_failures l /\
  (rl_active_lease_token l = None <-> rl_active_lease_expires_at l = None).

Definition all_paced (cfg : gateway_config) (t : limits) : Prop :=
  forall s l, t !! s = Some l -> paced cfg l.

Section Invariant.
Context (cfg : gateway_config) (Hcfg : valid_gateway_config cfg = true).

(** Split [paced] into its clauses. *)
Ltac split_paced := refine (conj _ (conj _ (conj _ _))).
Ltac done_paced := split_paced; solve [assumption | by cbn | by cbn; lia].

Lemma paced_insert s l t : all_paced cfg t -> paced cfg l -> all_paced cfg (<[s := l]> t).
Proof.
  intros Ht Hl s' l' [[<- <-]|[_ H]]%lookup_insert_Some; [done|by eapply Ht].
Qed.

Lemma paced_update_row s W f t : all_paced cfg t ->
  (forall l, W l = true -> paced cfg l -> paced cfg (f l)) -> all_paced cfg (update_row s W f t).2.
Proof.
  intros Ht Hf. refine (update_row_all (fun _ => paced cfg) s W f t Ht _).
  intros l _ Hp Hw. by apply Hf.
Qed.

Lemma paced_unlease l : paced cfg l -> paced cfg (unlease l).
Proof. intros (H1 & H2 & H3 & _). done_paced. Qed.

Lemma all_paced_ensure now s t : all_paced cfg t -> all_paced cfg (ensure cfg now s t).
Proof.
  intros Ht. destruct (valid_config_rates _ Hcfg) as (Hr & _ & Hs). unfold ensure.
  destruct (t !! s) as [l|] eqn:E; apply paced_insert; try done.
  - destruct (Ht _ _ E) as ((rate & Hrate & Hb) & H2 & H3). split; [|done].
    exists (Z.min rate (GATEWAY_SYNC_GROUPS_PER_MINUTE cfg)). cbn. rewrite Hrate. cbn. split; [done|lia].
  - split_paced; cbn; try lia; [|done]. eexists. split; [done|lia].
Qed.

Lemma all_paced_acquire now s token rate t :
  all_paced cfg t -> all_paced cfg (acquire now s token rate t).
Proof. intros Ht. apply paced_update_row; [done|]. intros l _ (H1 & H2 & H3 & _). done_paced. Qed.

Lemma all_paced_admission now s token granted t :
  all_paced cfg t -> all_paced cfg (admission cfg now s token granted t).2.
Proof.
  intros Ht. unfold admission. destruct (readyAndRate _ _ _ _) as [rate|]; [destruct granted|];
    cbn; auto using all_paced_ensure, all_paced_acquire.
Qed.

(** After the first statement of [success] a streak may have reached the threshold. *)
Lemma paced_succeeded l : paced cfg l -> exists rate,
  rl_effective_requests_per_minute (succeeded cfg l) = Some rate /\
  GATEWAY_SYNC_MIN_GROUPS_PER_MINUTE cfg <= rate <= GATEWAY_SYNC_GROUPS_PER_MINUTE cfg /\
  0 <= rl_success_streak (succeeded cfg l).
Proof.
  intros ((rate & Hrate & Hb) & H2 & _). unfold succeeded. cbn. rewrite Hrate. cbn.
  eexists. split; [done|]. destruct (GATEWAY_SYNC_ADAPTIVE_PACING cfg); cbn; case_tests; lia.
Qed.

Lemma all_paced_success s token t : all_paced cfg t -> all_paced cfg (success cfg s token t).
Proof.
  intros Ht. destruct (valid_config_rates _ Hcfg) as (_ & _ & Hs). unfold success.
  destruct (GATEWAY_SYNC_ADAPTIVE_PACING cfg) eqn:Ea.
  - intros s' l'. rewrite !lookup_update_row. destruct (t !! s') as [l|] eqn:E; [|done]. cbn.
    specialize (Ht _ _ E). destruct (bool_decide (s' = s)) eqn:Es; cbn; [|by intros [= <-]].
    destruct (holder token l); cbn.
    + destruct (paced_succeeded _ Ht) as (rate & Hr & Hb & H0).
      destruct (GATEWAY_SYNC_RATE_RECOVERY_SUCCESSES cfg <=? _) eqn:El; intros [= <-];
        split_bool; split_paced; try done; try (exists rate; done); cbn in *; lia.
    + destruct (_ && _) eqn:Eb; intros [= <-]; [|done]. destruct Ht as (H1 & H2 & H3).
      split_paced; try done; cbn; lia.
  - apply paced_update_row; [done|]. intros l _ Hl.
    destruct (paced_succeeded _ Hl) as (rate & Hr & Hb & H0).
    split_paced; [by exists rate| | |done..]; cbn; rewrite ?Ea; lia.
Qed.

Lemma paced_failed now jitter p l : paced cfg l -> paced cfg (failed cfg now jitter p l).
Proof.
  destruct (valid_config_rates _ Hcfg) as (Hm & _ & Hs).
  intros ((rate & Hrate & Hb) & H2 & H3 & H4). unfold failed.
  apply paced_unlease. split_paced; cbn; try done.
  - rewrite Hrate. cbn. eexists. split; [done|].
    assert (0 <= rate / 2 <= rate) by (split; [apply Z.div_pos; lia|apply Z.div_le_upper_bound; lia]).
    case_tests; lia.
  - case_tests; lia.
  - case_tests; lia.
Qed.

Lemma all_paced_run o t : all_paced cfg t -> all_paced cfg (run cfg o t).
Proof.
  intros Ht. destruct o as [now s token granted|now s token|now s token|s token
    |now jitter s token p|s token|now sessions]; cbn.
  - by apply all_paced_admission.
  - unfold renew. destruct (update_row _ _ _ _) as [row t'] eqn:E. cbn.
    replace t' with (row, t').2 by done. rewrite <- E. apply paced_update_row; [done|].
    intros l Hw (H1 & H2 & H3 & H4). split_paced; try done. cbn. split_bool. split; [|done].
    unfold holder in *. split_bool. congruence.
  - unfold renew_write. destruct (update_row _ _ _ _) as [row t'] eqn:E. cbn.
    replace t' with (row, t').2 by done. rewrite <- E. apply paced_update_row; [done|].
    intros l Hw (H1 & H2 & H3 & H4). split_paced; try done. cbn. split; [|done].
    unfold holder in *. split_bool. congruence.
  - by apply all_paced_success.
  - apply paced_update_row; [done|]. intros l _. apply paced_failed.
  - apply paced_update_row; [done|]. intros l _. apply paced_unlease.
  - intros s l. unfold release_expired. rewrite lookup_update_where.
    destruct (t !! s) as [l0|] eqn:E; [|done]. cbn. intros [= <-]. specialize (Ht _ _ E).
    destruct (_ && _); [by apply paced_unlease|done].
Qed.

Lemma all_paced_run_all os t : all_paced cfg t -> all_paced cfg (run_all cfg os t).
Proof.
  revert t. induction os as [|o os IH]; intros t Ht; cbn; [done|]. by apply IH, all_paced_run.
Qed.

End Invariant.

(** *** When requests go out *)

Section Spacing.
Context (cfg : gateway_config) (Hcfg : valid_gateway_config cfg = true).

Lemma spacing_long rate : 1 <= rate <= GATEWAY_SYNC_GROUPS_PER_MINUTE cfg ->
  60000 <= spacing rate * GATEWAY_SYNC_GROUPS_PER_MINUTE cfg.
Proof.
  intros Hr. unfold spacing.
  pose proof (Z.div_mod (60000 + rate - 1) rate) as Hd.
  pose proof (Z.mod_pos_bound (60000 + rate - 1) rate) as Hm.
  assert (60000 <= (60000 + rate - 1) / rate * rate) by nia.
  assert (0 <= (60000 + rate - 1) / rate) by (apply Z.div_pos; lia). nia.
Qed.

(** The rows of a session in the table never go away, and only an admission moves the
    time of the next request. *)
Lemma next_request_kept o s t l : t !! s = Some l -> admitted cfg s o t = None ->
  exists l', run cfg o t !! s = Some l' /\ rl_next_request_at l' = rl_next_request_at l.
Proof.
  intros Hl Hno.
  assert (Hrow : forall k W f, (forall l, rl_next_request_at (f l) = rl_next_request_at l) ->
    exists l', (update_row k W f t).2 !! s = Some l' /\ rl_next_request_at l' = rl_next_request_at l).
  { intros k W f Hf. rewrite lookup_update_row, Hl. cbn. eexists. split; [done|].
    by destruct (_ && _). }
  destruct o as [now s0 token granted|now s0 token|now s0 token|s0 token
    |now jitter s0 token p|s0 token|now sessions]; cbn in *.
  - assert (He : exists l', ensure cfg now s0 t !! s = Some l' /\
                   rl_next_request_at l' = rl_next_request_at l).
    { unfold ensure. destruct (decide (s0 = s)) as [->|Hne].
      - rewrite Hl, lookup_insert_eq. by eexists.
      - destruct (t !! s0); rewrite lookup_insert_ne by done; by exists l. }
    unfold admission in *. destruct (readyAndRate _ _ _ _) as [rate|]; [|done].
    destruct granted; [|done]. cbn in *.
    destruct (bool_decide (s0 = s)) eqn:Es; cbn in Hno; [done|].
    destruct He as (l' & He & Hn). exists l'. split; [|done]. unfold acquire.
    rewrite lookup_update_row, He. cbn. apply bool_decide_eq_false in Es.
    by rewrite bool_decide_false.
  - unfold renew. destruct (update_row _ _ _ _) as [row t'] eqn:E. cbn.
    replace t' with (row, t').2 by done. rewrite <- E. by apply Hrow.
  - unfold renew_write. destruct (update_row _ _ _ _) as [row t'] eqn:E. cbn.
    replace t' with (row, t').2 by done. rewrite <- E. by apply Hrow.
  - unfold success. destruct (GATEWAY_SYNC_ADAPTIVE_PACING cfg); [|by apply Hrow].
    rewrite !lookup_update_row, Hl. cbn. eexists. split; [done|].
    destruct (bool_decide (s = s0)), (holder token l); cbn; by case_tests.
  - by apply Hrow.
  - by apply Hrow.
  - unfold release_expired. rewrite lookup_update_where, Hl. cbn. eexists. split; [done|].
    by destruct (_ && _).
Qed.

(** What an admission found, and what it leaves *)
Lemma admitted_spec o s t now : all_paced cfg t -> admitted cfg s o t = Some now ->
  (forall l, t !! s = Some l -> ready now l = true) /\
  exists l', run cfg o t !! s = Some l' /\
    60000 <= (rl_next_request_at l' - now) * GATEWAY_SYNC_GROUPS_PER_MINUTE cfg.
Proof.
  intros Ht Ha. destruct o as [n s0 token granted| | | | | |]; cbn in Ha; try done.
  destruct (bool_decide (s0 = s)) eqn:Es; [|done]. apply bool_decide_eq_true in Es as ->.
  cbn in Ha. unfold admission in Ha. cbn. unfold admission.
  pose proof (all_paced_ensure cfg Hcfg n s t Ht) as He.
  assert (Hready : forall l, t !! s = Some l -> exists l', ensure cfg n s t !! s = Some l' /\
    ready n l' = ready n l).
  { intros l Hl. unfold ensure. rewrite Hl, lookup_insert_eq. eexists. split; [done|].
    by destruct l. }
  unfold readyAndRate in *. destruct (ensure cfg n s t !! s) as [l1|] eqn:El; [|done].
  destruct (ready n l1) eqn:Er; [|done]. destruct granted; [|done]. cbn in *.
  injection Ha as <-. split.
  - intros l Hl. destruct (Hready l Hl) as (l' & [= <-] & <-). done.
  - unfold acquire. rewrite lookup_update_row, El. cbn. rewrite bool_decide_true by done. cbn.
    eexists. split; [done|]. cbn.
    replace (n + spacing _ - n) with (spacing (if GATEWAY_SYNC_ADAPTIVE_PACING cfg
      then default (GATEWAY_SYNC_GROUPS_PER_MINUTE cfg) (rl_effective_requests_per_minute l1)
      else GATEWAY_SYNC_GROUPS_PER_MINUTE cfg)) by lia.
    apply spacing_long. destruct (valid_config_rates _ Hcfg) as (Hm & _).
    destruct (He _ _ El) as ((rate & Hrate & Hb) & _). rewrite Hrate. cbn.
    destruct (GATEWAY_SYNC_ADAPTIVE_PACING cfg); lia.
Qed.

Definition apart (a b : timestamp) : Prop :=
  60000 <= (b - a) * GATEWAY_SYNC_GROUPS_PER_MINUTE cfg.

Lemma requests_apart os s t : all_paced cfg t ->
  StronglySorted apart (requests cfg s os t) /\
  forall l now, t !! s = Some l -> now ∈ requests cfg s os t -> rl_next_request_at l <= now.
Proof.
  destruct (valid_config_rates _ Hcfg) as (Hm & _).
  revert t. induction os as [|o os IH]; intros t Ht; cbn.
  { split; [constructor|]. intros l now _ H. by apply not_elem_of_nil in H. }
  destruct (IH (run cfg o t)) as [IHs IHn]; [by apply all_paced_run|].
  destruct (admitted cfg s o t) as [now|] eqn:Ea.
  - destruct (admitted_spec _ _ _ _ Ht Ea) as (Hready & l' & Hl' & Hgap). split.
    + constructor; [done|]. apply Forall_forall. intros x Hx. specialize (IHn _ _ Hl' Hx).
      unfold apart. nia.
    + intros l x Hl [->|Hx]%elem_of_cons.
      * specialize (Hready _ Hl). unfold ready in Hready. split_bool; done.
      * specialize (IHn _ _ Hl' Hx). specialize (Hready _ Hl). unfold ready in Hready.
        split_bool; nia.
  - split; [done|]. intros l x Hl Hx.
    destruct (next_request_kept _ _ _ _ Hl Ea) as (l' & Hl' & Hn). rewrite <- Hn. eauto.
Qed.

Lemma apart_count a u l : StronglySorted apart l -> Forall (apart a) l -> Forall (fun x => x < u) l ->
  a < u -> Z.of_nat (length l) * 60000 < (u - a) * GATEWAY_SYNC_GROUPS_PER_MINUTE cfg.
Proof.
  destruct (valid_config_rates _ Hcfg) as (Hm & _). intros Hs. revert a.
  induction Hs as [|b l Hs IH Hb]; intros a Ha Hu Hau; cbn [length]; [nia|].
  apply Forall_cons in Ha as [Hab _]. apply Forall_cons in Hu as [Hbu Hu].
  specialize (IH b Hb Hu Hbu). unfold apart in Hab. nia.
Qed.

Lemma StronglySorted_filter {A} (R : A -> A -> Prop) (P : A -> bool) l :
  StronglySorted R l -> StronglySorted R (List.filter P l).
Proof.
  induction 1 as [|a l Hs IH Ha]; cbn; [constructor|]. destruct (P a); [|done].
  constructor; [done|]. rewrite Forall_forall in *. intros x Hx. apply Ha.
  apply list_elem_of_In, filter_In in Hx as [Hx _]. by apply list_elem_of_In.
Qed.

Lemma StronglySorted_weaken {A} (R R' : A -> A -> Prop) l : (forall x y, R x y -> R' x y) ->
  StronglySorted R l -> StronglySorted R' l.
Proof.
  intros HR. induction 1 as [|a l Hs IH Ha]; constructor; [done|].
  eapply Forall_impl; [exact Ha|]. intros x. apply HR.
Qed.

End Spacing.

(** C25: whatever admissions, renewals, results, releases and recoveries touch the
    pacing table, in any order and at any times, at most GATEWAY_SYNC_GROUPS_PER_MINUTE
    reads of one session are admitted in any window of one minute, and the reads are
    admitted in the order of time. *)
Theorem requests_per_minute (cfg : gateway_config) (os : list (op)) (t : gmap string rate_limit)
    (session : string) (start : timestamp)
    (Hcfg : valid_gateway_config cfg = true) (Ht : all_paced cfg t) :
  StronglySorted Z.lt (requests cfg session os t) /\
  Z.of_nat (length (List.filter (fun now => (start <=? now) && (now <? start + 60000))
    (requests cfg session os t))) <= GATEWAY_SYNC_GROUPS_PER_MINUTE cfg.
Proof.
  destruct (valid_config_rates _ Hcfg) as (Hm & _).
  destruct (requests_apart cfg Hcfg os session t Ht) as [Hs _]. split.
  - eapply StronglySorted_weaken; [|exact Hs]. intros a b. unfold apart. nia.
  - apply (StronglySorted_filter _ (fun now => (start <=? now) && (now <? start + 60000))) in Hs.
    set (l := List.filter _ _) in *.
    assert (Hin : Forall (fun x => start <= x < start + 60000) l).
    { apply Forall_forall. intros x Hx. apply list_elem_of_In, filter_In in Hx as [_ Hx].
      split_bool. lia. }
    clearbody l. destruct Hs as [|a l Hs Ha]; cbn [length]; [lia|].
    apply Forall_cons in Hin as [Hain Hin].
    assert (Hu : Forall (fun x => x < start + 60000) l).
    { eapply Forall_impl; [exact Hin|]. cbn. lia. }
    pose proof (apart_count cfg Hcfg a (start + 60000) l Hs Ha Hu ltac:(lia)). nia.
Qed.

(** The effective rate of every session stays between the configured minimum and
    maximum, a success streak below the threshold that raises the rate, and the failure
    count at or above zero, whatever results are recorded. *)
Theorem rate_stays_in_bounds (cfg : gateway_config) (os : list op) (session : string) (l : rate_limit)
    (Hcfg : valid_gateway_config cfg = true) (Hl : run_all cfg os ∅ !! session = Some l) :
  exists rate, rl_effective_requests_per_minute l = Some rate /\
    GATEWAY_SYNC_MIN_GROUPS_PER_MINUTE cfg <= rate <= GATEWAY_SYNC_GROUPS_PER_MINUTE cfg /\
    0 <= rl_success_streak l < GATEWAY_SYNC_RATE_RECOVERY_SUCCESSES cfg /\
    0 <= rl_consecutive_failures l.
Proof.
  assert (Ht : all_paced cfg (run_all cfg os ∅)).
  { apply all_paced_run_all; [done|]. intros s l0 H. by rewrite lookup_empty in H. }
  destruct (Ht _ _ Hl) as ((rate & Hr & Hb) & Hs & Hf & _). by exists rate.
Qed.

(** *** Witnesses *)

Definition example_config : gateway_config :=
  (default_gateway_config (Config false ["s"] 0 0)) <| GATEWAY_SYNC_ADAPTIVE_PACING := true |>.

Definition example_ops : list op :=
  [ Admit 0 "s" 1 true; Admit 1000 "s" 2 true; Success "s" 1; Admit 1500 "s" 3 true;
    Failure 2000 1000 "s" 3 (FailurePolicy true true true None "RATE_LIMITED");
    Admit 4000 "s" 4 true; Admit 7000 "s" 4 true ].

Example example_requests : requests example_config "s" example_ops ∅ = [0; 1500; 7000].
Proof. by vm_compute. Qed.

Lemma requests_per_minute_witness :
  Z.of_nat (length (List.filter (fun now => (0 <=? now) && (now <? 0 + 60000))
    (requests example_config "s" example_ops ∅))) <= 40.
Proof.
  apply (requests_per_minute example_config example_ops ∅ "s" 0); [by vm_compute|].
  intros s l H. by rewrite lookup_empty in H.
Defined.

Lemma rate_stays_in_bounds_witness :
  exists l rate, run_all example_config example_ops ∅ !! "s" = Some l /\
    rl_effective_requests_per_minute l = Some rate /\ 5 <= rate <= 40 /\ rate = 20.
Proof.
  destruct (run_all example_config example_ops ∅ !! "s") as [l|] eqn:E; [|by vm_compute in E].
  destruct (rate_stays_in_bounds example_config example_ops "s" l ltac:(by vm_compute) E)
    as (rate & Hr & Hb & _).
  exists l, rate. split; [done|]. split; [done|]. split; [exact Hb|].
  vm_compute in E. injection E as <-. cbn in Hr. congruence.
Defined.

End Pacing.
