(* ===== verification/GatewayIntents.v ===== *)
(** * Reconciliation intents

    [src/modules/gateway/gateway-group-intent.repository.ts]: one row per group that
    collects the change events of the group until a read of the group has covered them.
    A revision counts the events; a claim notes the revision it is about to cover. *)

From S2P Require Import Prelude Schema GatewaySchema GatewayPacing.

Module Intents.

Local Open Scope Z_scope.

(** [ClaimedGatewayGroupIntent] *)
Record claimed := Claimed {
  cl_requestedRevision : Z;
  cl_leaseToken : uuid;
  cl_attemptNumber : Z;
  cl_coalescedCount : Z;
  cl_requestedAt : timestamp }.

Inductive completion : Set := Completed_ | Pending_ | LostOwnership.
Inductive failure_outcome : Set := Retry_ | Failed_ | FPending | FLostOwnership.

Definition is_open (s : IntentStatus.t) : bool :=
  match s with IntentStatus.PENDING | IntentStatus.RETRY => true | _ => false end.
Definition closed (s : IntentStatus.t) : bool :=
  match s with IntentStatus.COMPLETED | IntentStatus.FAILED => true | _ => false end.
Definition is_running (s : IntentStatus.t) : bool :=
  match s with IntentStatus.RUNNING => true | _ => false end.

(** [5 * 2 ** max(0, attempt - 1)] seconds, at most 300, times a jitter in thousandths:
    milliseconds *)
Definition retry_delay (attempt jitter : Z) : Z := Z.min 300 (5 * 2 ^ Z.max 0 (attempt - 1)) * jitter.

(** SELECT DISTINCT .. ORDER BY value *)
Definition merge_reasons (reasons : list string) (reason : string) : list string :=
  order_by text_leb (remove_dups (reasons ++ [reason])).

Section Config.
Context (cfg : gateway_config).

(** The row of a first event *)
Definition new_intent (now : timestamp) (reason : string) : group_intent :=
  let due := now + GATEWAY_GROUP_EVENT_DEBOUNCE_MS cfg in
  GroupIntent 1 0 None [reason] IntentStatus.PENDING due due 0 0 None None None now now None None.

(** ON CONFLICT (session_id, group_id) DO UPDATE *)
Definition merge_intent (now : timestamp) (reason : string) (i : group_intent) : group_intent :=
  let fresh := closed (gi_status i) in
  let running := is_running (gi_status i) in
  let since := if fresh then now else gi_first_requested_at i in
  let due := Z.min (since + GATEWAY_GROUP_EVENT_MAX_WAIT_MS cfg)
                   (now + GATEWAY_GROUP_EVENT_DEBOUNCE_MS cfg) in
  i <| gi_requested_revision := gi_requested_revision i + 1 |>
    <| gi_reasons := if fresh then [reason] else merge_reasons (gi_reasons i) reason |>
    <| gi_status := if running then IntentStatus.RUNNING else IntentStatus.PENDING |>
    <| gi_not_before := due |>
    <| gi_next_attempt_at := if running then gi_next_attempt_at i else due |>
    <| gi_attempt_count := if running then gi_attempt_count i else 0 |>
    <| gi_coalesced_count := if fresh then 0 else gi_coalesced_count i + 1 |>
    <| gi_first_requested_at := since |>
    <| gi_last_requested_at := now |>
    <| gi_started_at := if fresh then None else gi_started_at i |>
    <| gi_completed_at := None |> <| gi_last_error_code := None |>.

(** The answer is [(created, coalescedCount)]. *)
Definition scheduleInTransaction (now : timestamp) (session group reason : string) (d : gdb)
    : (bool * Z) * gdb :=
  let key := (session, group) in
  let '(created, row) :=
    match group_intents d !! key with
    | Some i => (false, merge_intent now reason i)
    | None => (true, new_intent now reason)
    end in
  ((created, gi_coalesced_count row), d <| group_intents := <[key := row]> (group_intents d) |>).

(** A discovery of the session is pending or running. *)
Definition discovering (session : string) (d : gdb) : bool :=
  exists_where (fun _ r => bool_decide (sr_session_id r = session)
    && mem (sr_status r) [SyncStatus.PENDING; SyncStatus.RUNNING]
    && bool_decide (sr_phase r = SyncPhase.DISCOVERING)) (sync_runs d).

(** A running synchronisation has an open item for the group. *)
Definition item_open (session group : string) (d : gdb) : bool :=
  exists_where (fun _ i => bool_decide (si_session_id i = session)
    && bool_decide (si_group_id i = group)
    && mem (si_status i) [ItemStatus.PENDING; ItemStatus.RUNNING; ItemStatus.RETRY]
    && match sync_runs d !! si_sync_run_id i with
       | Some r => bool_decide (sr_status r = SyncStatus.RUNNING)
       | None => false
       end) (gateway_sync_items d).

(** No lease on the session, or an expired one; a missing row is all NULLs. *)
Definition unleased (now : timestamp) (l : option rate_limit) : bool :=
  is_null (l ≫= rl_active_lease_token) || before (l ≫= rl_active_lease_expires_at) now.

Definition available_at (now : timestamp) (l : option rate_limit) (i : group_intent) : timestamp :=
  let floor := Z.max (gi_next_attempt_at i) (gi_not_before i) in
  let bounds := [ rl_next_request_at <$> l; l ≫= rl_cooldown_until;
    if is_null (l ≫= rl_active_lease_token) then None
    else Some (default now (l ≫= rl_active_lease_expires_at)) ] in
  foldl (fun acc b => match b with Some x => Z.max acc x | None => acc end) floor bounds.

Definition dispatchable (now : timestamp) (d : gdb) (key : string * string) (i : group_intent) : bool :=
  is_open (gi_status i) && (gi_attempt_count i <? GATEWAY_SYNC_ITEM_MAX_ATTEMPTS cfg)
  && mem key.1 (OPENWA_ALLOWED_SESSION_IDS (gw_core cfg))
  && negb (discovering key.1 d)
  && unleased now (rate_limits d !! key.1)
  && negb (item_open key.1 key.2 d).

Definition by_available (now : timestamp) (d : gdb) (a b : (string * string) * group_intent) : bool :=
  let ta := available_at now (rate_limits d !! a.1.1) a.2 in
  let tb := available_at now (rate_limits d !! b.1.1) b.2 in
  (ta <? tb) || (ta =? tb) && (gi_last_requested_at a.2 <=? gi_last_requested_at b.2).

(** The answer: key, requestedRevision and availableAt of each *)
Definition listDispatchable (now : timestamp) (limit : nat) (d : gdb)
    : list ((string * string) * Z * timestamp) :=
  if GATEWAY_TARGETED_RECONCILIATION_ENABLED cfg
  then map (fun kv => (kv.1, gi_requested_revision kv.2,
                       available_at now (rate_limits d !! kv.1.1) kv.2))
         (take limit (order_by (by_available now d)
           (select_where (dispatchable now d) (group_intents d))))
  else [].

Definition claimable (now : timestamp) (i : group_intent) : bool :=
  is_open (gi_status i) && (gi_next_attempt_at i <=? now) && (gi_not_before i <=? now)
  && (gi_attempt_count i <? GATEWAY_SYNC_ITEM_MAX_ATTEMPTS cfg).

Definition claim_row (now : timestamp) (token : uuid) (i : group_intent) : group_intent :=
  i <| gi_status := IntentStatus.RUNNING |>
    <| gi_claimed_revision := Some (gi_requested_revision i) |>
    <| gi_attempt_count := gi_attempt_count i + 1 |>
    <| gi_lease_token := Some token |>
    <| gi_lease_expires_at := Some (now + two_minutes) |>
    <| gi_started_at := coalesce (gi_started_at i) (Some now) |>
    <| gi_last_error_code := None |>.

Definition claim (now : timestamp) (new_token : uuid) (session group : string) (d : gdb)
    : option claimed * gdb :=
  match group_intents d !! (session, group) with
  | None => (None, d)
  | Some row =>
      let d1 := d <| rate_limits := Pacing.ensure cfg now session (rate_limits d) |> in
      match Pacing.readyAndRate cfg now session (rate_limits d1) with
      | None => (None, d1)
      | Some rate =>
          let '(won, intents) := update_row (session, group) (claimable now) (claim_row now new_token)
                                   (group_intents d1) in
          match won with
          | None => (None, d1)
          | Some i =>
              (Some (Claimed (gi_requested_revision row) new_token (gi_attempt_count i)
                       (gi_coalesced_count row) (gi_first_requested_at row)),
               d1 <| group_intents := intents |>
                  <| rate_limits := Pacing.acquire now session new_token rate (rate_limits d1) |>)
          end
      end
  end.

Definition leased (now : timestamp) (token : uuid) (i : group_intent) : bool :=
  is_running (gi_status i) && bool_decide (gi_lease_token i = Some token)
  && after (gi_lease_expires_at i) now.

(** The ownership condition of [complete], [skipMissing], [fail] and of the write fence *)
Definition owned (now : timestamp) (token : uuid) (claimedRevision : Z) (i : group_intent) : bool :=
  leased now token i && bool_decide (gi_claimed_revision i = Some claimedRevision).

(** The transaction is rolled back when either row is no longer held. *)
Definition renewLease (now : timestamp) (session group : string) (token : uuid) (d : gdb)
    : bool * gdb :=
  let '(row, intents) := update_row (session, group) (leased now token)
    (fun i => i <| gi_lease_expires_at := Some (now + two_minutes) |>) (group_intents d) in
  let '(renewed, limits) := Pacing.renew now session token (rate_limits d) in
  if negb (is_null row) && renewed
  then (true, d <| group_intents := intents |> <| rate_limits := limits |>)
  else (false, d).

(** The UPDATE of [complete] and [skipMissing] *)
Definition finish_row (now : timestamp) (claimedRevision : Z) (error : option string) (i : group_intent)
    : group_intent :=
  let newer := claimedRevision <? gi_requested_revision i in
  i <| gi_completed_revision := Z.max (gi_completed_revision i) claimedRevision |>
    <| gi_status := if newer then IntentStatus.PENDING else IntentStatus.COMPLETED |>
    <| gi_attempt_count := if newer then 0 else gi_attempt_count i |>
    <| gi_next_attempt_at := if newer then Z.max (gi_not_before i) now else gi_next_attempt_at i |>
    <| gi_claimed_revision := None |> <| gi_lease_token := None |> <| gi_lease_expires_at := None |>
    <| gi_completed_at := if gi_requested_revision i =? claimedRevision then Some now else None |>
    <| gi_last_error_code := error |>.

Definition complete (now : timestamp) (session group : string) (token : uuid) (claimedRevision : Z)
    (d : gdb) : completion * gdb :=
  let '(row, intents) := update_row (session, group) (owned now token claimedRevision)
    (finish_row now claimedRevision None) (group_intents d) in
  match row with
  | None => (LostOwnership, d)
  | Some i =>
      (if is_open (gi_status i) then Pending_ else Completed_,
       d <| group_intents := intents |>
         <| rate_limits := Pacing.success cfg session token (rate_limits d) |>)
  end.

Definition skipMissing (now : timestamp) (session group : string) (token : uuid) (claimedRevision : Z)
    (d : gdb) : bool * gdb :=
  let '(row, intents) := update_row (session, group) (owned now token claimedRevision)
    (finish_row now claimedRevision (Some "GROUP_NOT_FOUND")) (group_intents d) in
  match row with
  | None => (false, d)
  | Some i =>
      (true, d <| group_intents := intents |>
               <| rate_limits := Pacing.release session token (rate_limits d) |>)
  end.

(** The status [fail] chooses *)
Definition fail_outcome (claimedRevision : Z) (policy : failure_policy) (i : group_intent)
    : failure_outcome :=
  if claimedRevision <? gi_requested_revision i then FPending
  else if fp_retryable policy && (gi_attempt_count i <? GATEWAY_SYNC_ITEM_MAX_ATTEMPTS cfg)
  then Retry_ else Failed_.

Definition fail_row (now : timestamp) (jitter : Z) (outcome : failure_outcome) (policy : failure_policy)
    (i : group_intent) : group_intent :=
  i <| gi_status := match outcome with
                    | FPending => IntentStatus.PENDING
                    | Retry_ => IntentStatus.RETRY
                    | _ => IntentStatus.FAILED
                    end |>
    <| gi_attempt_count := match outcome with FPending => 0 | _ => gi_attempt_count i end |>
    <| gi_next_attempt_at := match outcome with
                             | FPending => Z.max (gi_not_before i) now
                             | Retry_ => now + retry_delay (gi_attempt_count i) jitter
                             | _ => gi_next_attempt_at i
                             end |>
    <| gi_claimed_revision := None |> <| gi_lease_token := None |> <| gi_lease_expires_at := None |>
    <| gi_last_error_code := Some (fp_code policy) |>
    <| gi_completed_at := match outcome with Failed_ => Some now | _ => None end |>.

(** [jitter] is [0.8 + Math.random() * 0.4], [jitter'] that of the pacing statement. *)
Definition fail (now : timestamp) (jitter jitter' : Z) (session group : string) (token : uuid)
    (claimedRevision : Z) (policy : failure_policy) (d : gdb) : failure_outcome * gdb :=
  match group_intents d !! (session, group) with
  | Some i =>
      if owned now token claimedRevision i
      then let outcome := fail_outcome claimedRevision policy i in
           (outcome,
            d <| group_intents :=
                   <[(session, group) := fail_row now jitter outcome policy i]> (group_intents d) |>
              <| rate_limits := Pacing.failure cfg now jitter' session token policy (rate_limits d) |>)
      else (FLostOwnership, d)
  | None => (FLostOwnership, d)
  end.

Definition expired (now : timestamp) (_ : string * string) (i : group_intent) : bool :=
  is_running (gi_status i) && before (gi_lease_expires_at i) now.

Definition recover_row (now : timestamp) (i : group_intent) : group_intent :=
  let newer := default (gi_completed_revision i) (gi_claimed_revision i) <? gi_requested_revision i in
  let spent := GATEWAY_SYNC_ITEM_MAX_ATTEMPTS cfg <=? gi_attempt_count i in
  i <| gi_status := if newer then IntentStatus.PENDING
                    else if spent then IntentStatus.FAILED else IntentStatus.RETRY |>
    <| gi_attempt_count := if newer then 0 else gi_attempt_count i |>
    <| gi_claimed_revision := None |> <| gi_lease_token := None |> <| gi_lease_expires_at := None |>
    <| gi_next_attempt_at := if newer then Z.max (gi_not_before i) now
                             else if spent then gi_next_attempt_at i else now |>
    <| gi_last_error_code := Some "LEASE_EXPIRED" |>.

Definition recoverExpired (now : timestamp) (d : gdb) : Z * gdb :=
  let recovered s := exists_where (fun k i => bool_decide (k.1 = s) && expired now k i) (group_intents d) in
  (count_where (expired now) (group_intents d),
   d <| group_intents := update_where (expired now) (recover_row now) (group_intents d) |>
     <| rate_limits := Pacing.release_expired now recovered (rate_limits d) |>).

(** [assertGroupIntentWriteOwnership] *)
Definition assertGroupIntentWriteOwnership (now : timestamp) (session group : string) (token : uuid)
    (claimedRevision : Z) (d : gdb) : bool :=
  match group_intents d !! (session, group) with
  | Some i => owned now token claimedRevision i
  | None => false
  end.

(** The last statements of [upsertGroupDetails] under an intent's fence: both leases are
    renewed, or the transaction is rolled back. *)
Definition renewFence (now : timestamp) (session group : string) (token : uuid) (claimedRevision : Z)
    (d : gdb) : bool * gdb :=
  let '(row, intents) := update_row (session, group)
    (fun i => is_running (gi_status i) && bool_decide (gi_lease_token i = Some token)
              && bool_decide (gi_claimed_revision i = Some claimedRevision))
    (fun i => i <| gi_lease_expires_at := Some (now + two_minutes) |>) (group_intents d) in
  let '(renewed, limits) := Pacing.renew_write now session token (rate_limits d) in
  if negb (is_null row) && renewed
  then (true, d <| group_intents := intents |> <| rate_limits := limits |>)
  else (false, d).

(** *** Every statement on the table *)

Inductive op : Type :=
  | Schedule (now : timestamp) (session group reason : string)
  | Claim (now : timestamp) (token : uuid) (session group : string)
  | RenewLease (now : timestamp) (session group : string) (token : uuid)
  | RenewFence (now : timestamp) (session group : string) (token : uuid) (claimedRevision : Z)
  | Complete (now : timestamp) (session group : string) (token : uuid) (claimedRevision : Z)
  | SkipMissing (now : timestamp) (session group : string) (token : uuid) (claimedRevision : Z)
  | Fail_ (now : timestamp) (jitter jitter' : Z) (session group : string) (token : uuid)
      (claimedRevision : Z) (policy : failure_policy)
  | RecoverExpired (now : timestamp)
  (** any statement that leaves the intents alone *)
  | Elsewhere (f : gdb -> gdb).

Definition run (o : op) (d : gdb) : gdb :=
  match o with
  | Schedule now s g reason => (scheduleInTransaction now s g reason d).2
  | Claim now token s g => (claim now token s g d).2
  | RenewLease now s g token => (renewLease now s g token d).2
  | RenewFence now s g token rev => (renewFence now s g token rev d).2
  | Complete now s g token rev => (complete now s g token rev d).2
  | SkipMissing now s g token rev => (skipMissing now s g token rev d).2
  | Fail_ now j j' s g token rev p => (fail now j j' s g token rev p d).2
  | RecoverExpired now => (recoverExpired now d).2
  | Elsewhere f => (f d) <| group_intents := group_intents d |>
  end.

Definition run_all (os : list op) (d : gdb) : gdb := foldl (fun d o => run o d) d os.

(** The number of events recorded for a group *)
Definition is_event (key : string * string) (o : op) : bool :=
  match o with Schedule _ s g _ => bool_decide ((s, g) = key) | _ => false end.
Definition events (key : string * string) (os : list op) : Z :=
  Z.of_nat (length (List.filter (is_event key) os)).

(** *** What one statement does to one row *)

(** The ways a row of the table changes; [claims now token rev] says that a claim took it
    for revision [rev]. *)
Inductive change (claims : timestamp -> uuid -> Z -> Prop)
    : option group_intent -> option group_intent -> Prop :=
  | unchanged i : change claims i i
  | renewed i until : is_running (gi_status i) = true ->
      change claims (Some i) (Some (i <| gi_lease_expires_at := Some until |>))
  | claimed_ now token i : claimable now i = true ->
      claims now token (gi_requested_revision i) ->
      change claims (Some i) (Some (claim_row now token i))
  | finished now rev error i : is_running (gi_status i) = true -> gi_claimed_revision i = Some rev ->
      change claims (Some i) (Some (finish_row now rev error i))
  | failed now jitter rev policy i : is_running (gi_status i) = true ->
      gi_claimed_revision i = Some rev ->
      change claims (Some i) (Some (fail_row now jitter (fail_outcome rev policy i) policy i))
  | recovered now i : is_running (gi_status i) = true ->
      change claims (Some i) (Some (recover_row now i)).

Lemma owned_spec now token rev i : owned now token rev i = true ->
  is_running (gi_status i) = true /\ gi_claimed_revision i = Some rev.
Proof. unfold owned, leased. intros H. split_bool. done. Qed.

(** A row update whose condition and effect are a change *)
Lemma update_row_change (k key : string * string) (claims : timestamp -> uuid -> Z -> Prop) (W : group_intent -> bool) (f : group_intent -> group_intent) (t : gmap (string * string) group_intent) :
  (forall i, t !! k = Some i -> key = k -> W i = true -> change claims (Some i) (Some (f i))) ->
  change claims (t !! key) ((update_row k W f t).2 !! key).
Proof.
  intros Hf. rewrite lookup_update_row. destruct (t !! key) as [i|] eqn:El; cbn; [|constructor].
  destruct (_ && W i) eqn:E; [|constructor]. split_bool. subst k. by apply Hf.
Qed.

(** The claim an operation grants on a row *)
Definition grants (o : op) (d : gdb) (key : string * string) (now : timestamp) (token : uuid) (rev : Z)
    : Prop :=
  o = Claim now token key.1 key.2 /\
  exists cl, (claim now token key.1 key.2 d).1 = Some cl /\
    cl_requestedRevision cl = rev /\ cl_leaseToken cl = token.

Lemma claim_change now token s g d key :
  change (grants (Claim now token s g) d key) (group_intents d !! key) (group_intents (claim now token s g d).2 !! key).
Proof.
  destruct (claim now token s g d) as [answer d'] eqn:Ec. pose proof Ec as Ec'. unfold claim in Ec.
  destruct (group_intents d !! (s, g)) as [row|] eqn:El; [|injection Ec as _ <-; apply unchanged].
  destruct (Pacing.readyAndRate _ _ _ _) as [rate|] eqn:Er; [|injection Ec as _ <-; apply unchanged].
  cbn [group_intents upd] in Ec.
  destruct (update_row _ _ _ _) as [won t'] eqn:E.
  destruct won as [i|]; [|injection Ec as _ <-; apply unchanged].
  injection Ec as <- <-. cbn. replace t' with (Some i, t').2 by done. rewrite <- E.
  apply update_row_change. intros j Hl -> Hj. apply claimed_; [done|]. split; [done|]. cbn.
  rewrite Ec'. eexists. split; [done|]. cbn. rewrite El in Hl. by injection Hl as ->.
Qed.

Lemma run_change o d key : is_event key o = false ->
  change (grants o d key) (group_intents d !! key) (group_intents (run o d) !! key).
Proof.
  destruct o as [now s g reason|now token s g|now s g token|now s g token rev|now s g token rev
    |now s g token rev|now j j' s g token rev p|now|f]; cbn [is_event run]; intros He.
  - apply bool_decide_eq_false in He. unfold scheduleInTransaction.
    destruct (group_intents d !! (s, g)); cbn; rewrite lookup_insert_ne by done; apply unchanged.
  - apply claim_change.
  - unfold renewLease. destruct (update_row _ _ _ _) as [row t'] eqn:E.
    destruct (Pacing.renew _ _ _ _) as [ok l']. destruct (_ && _); [|apply unchanged]. cbn.
    replace t' with (row, t').2 by done. rewrite <- E. apply update_row_change.
    intros i _ _ Hi. unfold leased in Hi. split_bool. by apply renewed.
  - unfold renewFence. destruct (update_row _ _ _ _) as [row t'] eqn:E.
    destruct (Pacing.renew_write _ _ _ _) as [ok l']. destruct (_ && _); [|apply unchanged]. cbn.
    replace t' with (row, t').2 by done. rewrite <- E. apply update_row_change.
    intros i _ _ Hi. split_bool. by apply renewed.
  - unfold complete. destruct (update_row _ _ _ _) as [row t'] eqn:E.
    destruct row as [i|]; [|apply unchanged]. cbn.
    replace t' with (Some i, t').2 by done. rewrite <- E. apply update_row_change.
    intros j _ _ Hj. apply owned_spec in Hj as [? ?]. by apply finished.
  - unfold skipMissing. destruct (update_row _ _ _ _) as [row t'] eqn:E.
    destruct row as [i|]; [|apply unchanged]. cbn.
    replace t' with (Some i, t').2 by done. rewrite <- E. apply update_row_change.
    intros j _ _ Hj. apply owned_spec in Hj as [? ?]. by apply finished.
  - unfold fail. destruct (group_intents d !! (s, g)) as [i|] eqn:El; [|apply unchanged].
    destruct (owned now token rev i) eqn:Eo; [|apply unchanged]. cbn.
    destruct (decide ((s, g) = key)) as [<-|Hne].
    + rewrite El, lookup_insert_eq. apply owned_spec in Eo as [? ?]. by apply failed.
    + rewrite lookup_insert_ne by done. apply unchanged.
  - unfold recoverExpired. cbn. rewrite lookup_update_where.
    destruct (group_intents d !! key) as [i|]; cbn; [|apply unchanged].
    destruct (expired now key i) eqn:Ee; [|apply unchanged]. unfold expired in Ee. split_bool.
    by apply recovered.
  - apply unchanged.
Qed.

Lemma run_event now s g reason d :
  group_intents (run (Schedule now s g reason) d) !! (s, g) =
    Some (match group_intents d !! (s, g) with
          | Some i => merge_intent now reason i | None => new_intent now reason end).
Proof.
  cbn. unfold scheduleInTransaction.
  destruct (group_intents d !! (s, g)); cbn; by rewrite lookup_insert_eq.
Qed.

(** *** What every row keeps *)

Record sound (i : group_intent) : Prop := Sound {
  snd_completed : 0 <= gi_completed_revision i <= gi_requested_revision i;
  snd_attempts : 0 <= gi_attempt_count i <= GATEWAY_SYNC_ITEM_MAX_ATTEMPTS cfg;
  (** a row is leased exactly while it runs, for a revision not yet covered *)
  snd_claim :
    if is_running (gi_status i)
    then exists c, gi_claimed_revision i = Some c /\
           gi_completed_revision i < c <= gi_requested_revision i /\
           gi_lease_token i <> None /\ gi_lease_expires_at i <> None
    else gi_claimed_revision i = None /\ gi_lease_token i = None /\ gi_lease_expires_at i = None;
  (** COMPLETED says that every event is covered, and every other status that one is not. *)
  snd_covered : gi_status i = IntentStatus.COMPLETED <->
    gi_completed_revision i = gi_requested_revision i;
  (** a waiting row has attempts left *)
  snd_open : is_open (gi_status i) = true ->
    gi_attempt_count i < GATEWAY_SYNC_ITEM_MAX_ATTEMPTS cfg;
  (** events do not push a read further than the maximal wait *)
  snd_due : gi_not_before i <= gi_first_requested_at i + GATEWAY_GROUP_EVENT_MAX_WAIT_MS cfg }.

Context (Hcfg : valid_gateway_config cfg = true).

Lemma sound_new now reason : sound (new_intent now reason).
Proof. destruct (valid_config_events _ Hcfg). split; cbn; try done; try lia. Qed.

Lemma sound_merge now reason i : sound i -> sound (merge_intent now reason i).
Proof.
  destruct (valid_config_events _ Hcfg). intros [H1 H2 H3 H4 H5 H6]. unfold merge_intent.
  destruct (gi_status i) eqn:Es; split; cbn in *; try done; try lia;
    try (split; [done|lia]).
  destruct H3 as (c & Hc & Hr & Hl). exists c. split; [done|]. split; [lia|done].
Qed.

Lemma sound_change claims i j : change claims (Some i) (Some j) -> sound i -> sound j.
Proof.
  destruct (valid_config_events _ Hcfg) as [_ Hmax].
  intros Hc [H1 H2 H3 H4 H5 H6]. inversion Hc; subst; clear Hc.
  - by split.
  - match goal with H : is_running _ = true |- _ => rename H into Hrun end.
    rewrite Hrun in H3. destruct H3 as (c & H3 & H7 & H8 & H9).
    split; cbn; try done. rewrite Hrun. by exists c.
  - match goal with H : claimable _ _ = true |- _ => unfold claimable in H end. split_bool.
    assert (gi_completed_revision i <> gi_requested_revision i).
    { intros He. apply H4 in He. by rewrite He in *. }
    split; cbn; try done; try lia.
    eexists. split; [done|]. split; [lia|done].
  - match goal with H : is_running _ = true |- _ => rewrite H in H3 end.
    destruct H3 as (c & Hcl & Hr & _). assert (c = rev) as -> by congruence.
    destruct (rev <? gi_requested_revision i) eqn:En; split; unfold finish_row; cbn; rewrite ?En;
      split_bool; try done; try lia; split; try done; lia.
  - match goal with H : is_running _ = true |- _ => rewrite H in H3 end.
    destruct H3 as (c & Hcl & Hr & _). assert (c = rev) as -> by congruence.
    unfold fail_outcome.
    destruct (rev <? gi_requested_revision i) eqn:En;
      [|destruct (fp_retryable policy && _) eqn:Er]; split; cbn; split_bool;
      try done; try lia; split; try done; lia.
  - match goal with H : is_running _ = true |- _ => rewrite H in H3 end.
    destruct H3 as (c & Hcl & Hr & _).
    unfold recover_row. rewrite Hcl. cbn.
    destruct (c <? gi_requested_revision i) eqn:En;
      [|destruct (_ <=? gi_attempt_count i) eqn:Er]; split; cbn; split_bool;
      try done; try lia; split; try done; lia.
Qed.

Lemma change_domain claims o o' : change claims o o' -> is_Some o <-> is_Some o'.
Proof. by intros []. Qed.

(** [o] keeps every row sound. *)
Lemma sound_run o d key : (forall i, group_intents d !! key = Some i -> sound i) ->
  forall i, group_intents (run o d) !! key = Some i -> sound i.
Proof.
  intros Hd i Hi. destruct (is_event key o) eqn:Ee.
  - destruct o; try done. cbn in Ee. apply bool_decide_eq_true in Ee as <-.
    rewrite run_event in Hi. injection Hi as <-.
    destruct (group_intents d !! _) as [j|]; [by apply sound_merge, Hd|apply sound_new].
  - pose proof (run_change o d key Ee) as Hc. rewrite Hi in Hc.
    destruct (group_intents d !! key) as [j|]; [|by inversion Hc].
    by eapply sound_change, Hd.
Qed.

Lemma run_all_app os os' d : run_all (os ++ os') d = run_all os' (run_all os d).
Proof. apply foldl_app. Qed.

Lemma events_app key os os' : events key (os ++ os') = events key os + events key os'.
Proof. unfold events. rewrite List.filter_app, length_app. lia. Qed.

(** A claim of the group in [os] that was answered with revision [rev] *)
Definition covered (d : gdb) (os : list op) (key : string * string) (rev : Z) : Prop :=
  exists pre now token post cl, os = pre ++ Claim now token key.1 key.2 :: post /\
    (claim now token key.1 key.2 (run_all pre d)).1 = Some cl /\
    cl_requestedRevision cl = rev /\ cl_leaseToken cl = token /\ events key pre = rev.

Lemma covered_app d os os' key rev : covered d os key rev -> covered d (os ++ os') key rev.
Proof.
  intros (pre & now & token & post & cl & -> & H). exists pre, now, token, (post ++ os'), cl.
  by rewrite <- app_assoc.
Qed.

(** What a row records of the operations so far *)
Definition recorded (d : gdb) (os : list op) (key : string * string) (i : group_intent) : Prop :=
  gi_requested_revision i = events key os /\
  (forall c, gi_claimed_revision i = Some c -> covered d os key c) /\
  (0 < gi_completed_revision i -> covered d os key (gi_completed_revision i)).

Lemma recorded_app d os os' key i : events key os' = 0 -> recorded d os key i -> recorded d (os ++ os') key i.
Proof.
  intros He (H1 & H2 & H3). split; [rewrite events_app; lia|].
  split; intros; apply covered_app; auto.
Qed.

Lemma recorded_change d os o key i j :
  change (grants o (run_all os d) key) (Some i) (Some j) -> sound i ->
  is_event key o = false -> recorded d os key i -> recorded d (os ++ [o]) key j.
Proof.
  intros Hc Hs He Hr.
  assert (He' : events key [o] = 0) by (unfold events; cbn; by rewrite He).
  pose proof (recorded_app _ _ _ _ _ He' Hr) as (R1 & R2 & R3).
  destruct Hs as [H1 _ H3 _ _ _]. inversion Hc; subst; clear Hc.
  - by split.
  - by split.
  - split; [done|]. split; [|done]. cbn. intros c [= <-].
    match goal with H : grants _ _ _ _ _ _ |- _ => destruct H as (-> & cl & Hcl & Hrev & Htok) end.
    exists os, now, token, [], cl. split; [done|]. split; [done|]. split; [done|]. split; [done|].
    destruct Hr as (Hr & _). by rewrite Hr.
  - match goal with H : is_running _ = true |- _ => rewrite H in H3 end.
    destruct H3 as (c & Hcl & Hcr & _). assert (c = rev) as -> by congruence.
    split; [done|]. split; [done|]. cbn. intros _. rewrite Z.max_r by lia. by apply R2.
  - split; [done|]. split; [done|]. exact R3.
  - split; [done|]. split; [done|]. exact R3.
Qed.

Lemma recorded_event d os now s g reason i : recorded d os (s, g) i -> sound i ->
  recorded d (os ++ [Schedule now s g reason]) (s, g) (merge_intent now reason i).
Proof.
  intros (R1 & R2 & R3) [_ _ H3 _ _ _]. split.
  { rewrite events_app. unfold events at 2. cbn. rewrite bool_decide_true by done. cbn. lia. }
  split; cbn; intros; apply covered_app; auto.
Qed.

Lemma run_all_recorded d os key : group_intents d !! key = None ->
  match group_intents (run_all os d) !! key with
  | Some i => sound i /\ recorded d os key i
  | None => events key os = 0
  end.
Proof.
  intros Hd. induction os as [|o os IH] using rev_ind; [by cbn; rewrite Hd|].
  rewrite run_all_app. cbn [run_all foldl].
  destruct (is_event key o) eqn:Ee.
  - destruct o as [now s g reason| | | | | | | |]; try done. cbn in Ee.
    apply bool_decide_eq_true in Ee as <-. rewrite run_event.
    destruct (group_intents (run_all os d) !! (s, g)) as [i|].
    + destruct IH as [Hs Hr]. split; [by apply sound_merge|by apply recorded_event].
    + split; [apply sound_new|]. split; [|split; cbn; [done|lia]].
      rewrite events_app, IH. unfold events. cbn. by rewrite bool_decide_true.
  - pose proof (run_change o (run_all os d) key Ee) as Hc.
    destruct (group_intents (run_all os d) !! key) as [i|] eqn:Ei,
             (group_intents (run o (run_all os d)) !! key) as [j|] eqn:Ej.
    + destruct IH as [Hs Hr]. split; [by eapply sound_change|by eapply recorded_change].
    + by inversion Hc.
    + by inversion Hc.
    + rewrite events_app, IH. unfold events. cbn. by rewrite Ee.
Qed.

Lemma positive_change claims i j : change claims (Some i) (Some j) ->
  0 < gi_requested_revision i -> 0 < gi_requested_revision j.
Proof. by inversion 1. Qed.

(** A row has at least the event that made it. *)
Lemma run_all_positive os d key i : group_intents d !! key = None ->
  group_intents (run_all os d) !! key = Some i -> 0 < gi_requested_revision i.
Proof.
  intros Hd. revert i. induction os as [|o os IH] using rev_ind; intros i; [cbn; by rewrite Hd|].
  rewrite run_all_app. cbn [run_all foldl]. destruct (is_event key o) eqn:Ee.
  - destruct o as [now s g reason| | | | | | | |]; try done. cbn in Ee.
    apply bool_decide_eq_true in Ee as <-. rewrite run_event. intros [= <-].
    destruct (group_intents (run_all os d) !! (s, g)) as [i|]; [|done].
    specialize (IH i eq_refl). cbn. lia.
  - pose proof (run_change o (run_all os d) key Ee) as Hc. intros Hi. rewrite Hi in Hc.
    destruct (group_intents (run_all os d) !! key) as [j|]; [|by inversion Hc].
    eapply positive_change; [exact Hc|by apply IH].
Qed.

(** The revision of an intent is the number of its events. *)
Lemma requested_counts_events d os key : group_intents d !! key = None ->
  default 0 (gi_requested_revision <$> group_intents (run_all os d) !! key) = events key os.
Proof.
  intros Hn. pose proof (run_all_recorded d os key Hn) as H.
  destruct (group_intents (run_all os d) !! key) as [i|]; cbn; [|by rewrite H].
  by destruct H as [_ [-> _]].
Qed.

End Config.

(** Whatever statements ran, a reconciliation intent has a lease exactly while it is
    RUNNING, is COMPLETED exactly when a completed read covers every event, has attempts
    left while it waits (so it can be dispatched), and is due at the latest
    GATEWAY_GROUP_EVENT_MAX_WAIT_MS after the first event of its burst. *)
Theorem intents_stay_sound (cfg : gateway_config) (os : list op) (d : gdb) (key : string * string)
    (i : group_intent) (Hcfg : valid_gateway_config cfg = true) (Hd : group_intents d = ∅)
    (Hi : group_intents (run_all cfg os d) !! key = Some i) : sound cfg i.
Proof.
  assert (Hn : group_intents d !! key = None) by by rewrite Hd.
  pose proof (run_all_recorded cfg Hcfg d os key Hn) as H. rewrite Hi in H. by destruct H.
Qed.

(** C27: no change event of a group is lost.  When the intent of a group is COMPLETED, a
    claim of the group was granted after the last recorded event, for exactly the number of
    events recorded so far; the read that completed it started after all of them. *)
Theorem completed_covers_every_event (cfg : gateway_config) (os : list op) (d : gdb)
    (session group : string) (i : group_intent)
    (Hcfg : valid_gateway_config cfg = true) (Hd : group_intents d = ∅)
    (Hi : group_intents (run_all cfg os d) !! (session, group) = Some i)
    (Hs : gi_status i = IntentStatus.COMPLETED) :
  exists pre now token post cl, os = pre ++ Claim now token session group :: post /\
    (claim cfg now token session group (run_all cfg pre d)).1 = Some cl /\
    cl_requestedRevision cl = events (session, group) os /\
    forall o, o ∈ post -> is_event (session, group) o = false.
Proof.
  assert (Hn : group_intents d !! (session, group) = None) by by rewrite Hd.
  pose proof (run_all_recorded cfg Hcfg d os _ Hn) as H. rewrite Hi in H.
  destruct H as [Hsound (R1 & _ & R3)].
  pose proof (snd_completed _ _ Hsound) as H1.
  pose proof (proj1 (snd_covered _ _ Hsound) Hs) as H2.
  assert (H0 : 0 < gi_completed_revision i).
  { rewrite H2. destruct (Z.eq_dec (gi_requested_revision i) 0) as [He|]; [|lia].
    pose proof (run_all_positive cfg os d _ i Hn Hi). lia. }
  destruct (R3 H0) as (pre & now & token & post & cl & -> & Hcl & Hrev & _ & Hev).
  exists pre, now, token, post, cl. split; [done|]. split; [done|]. split; [lia|].
  intros o Ho. destruct (is_event (session, group) o) eqn:Ee; [|done]. exfalso.
  rewrite events_app in R1. change (Claim now token (session, group).1 (session, group).2 :: post)
    with ([Claim now token session group] ++ post) in R1. rewrite events_app in R1.
  apply list_elem_of_In in Ho. assert (Hin : In o (List.filter (is_event (session, group)) post)).
  { by apply filter_In. }
  unfold events in *. destruct (List.filter _ post); [done|]. cbn [length] in *. lia.
Qed.

(** *** Witnesses *)

Definition example_config : gateway_config := default_gateway_config (Config false ["s"] 0 0).

(** Two events within the debounce, a read that a third event overtakes, a second read *)
Definition example_ops : list op :=
  [ Schedule 0 "s" "g" "b"; Schedule 1000 "s" "g" "a"; Claim 3000 1 "s" "g"; Claim 4000 1 "s" "g";
    Schedule 5000 "s" "g" "c"; Complete 6000 "s" "g" 1 2; Claim 7000 2 "s" "g"; Claim 8000 2 "s" "g";
    Complete 9000 "s" "g" 2 3 ].

Definition example_row (os : list op) : option (IntentStatus.t * Z * Z * list string) :=
  (fun i => (gi_status i, gi_requested_revision i, gi_completed_revision i, gi_reasons i)) <$>
    group_intents (run_all example_config os empty_gdb) !! ("s", "g").

Example example_overtaken : example_row (take 6 example_ops) =
  Some (IntentStatus.PENDING, 3, 2, ["a"; "b"; "c"]).
Proof. by vm_compute. Qed.

Lemma intents_stay_sound_witness : exists i,
  group_intents (run_all example_config example_ops empty_gdb) !! ("s", "g") = Some i /\
  gi_status i = IntentStatus.COMPLETED /\ sound example_config i.
Proof.
  destruct (group_intents (run_all example_config example_ops empty_gdb) !! ("s", "g")) as [i|] eqn:E;
    [|by vm_compute in E].
  exists i. split; [done|]. split; [vm_compute in E; by injection E as <-|].
  apply (intents_stay_sound example_config example_ops empty_gdb ("s", "g") i); by vm_compute.
Defined.

Lemma completed_covers_every_event_witness :
  exists pre now token post cl, example_ops = pre ++ Claim now token "s" "g" :: post /\
    (claim example_config now token "s" "g" (run_all example_config pre empty_gdb)).1 = Some cl /\
    cl_requestedRevision cl = 3 /\ forall o, o ∈ post -> is_event ("s", "g") o = false.
Proof.
  destruct (group_intents (run_all example_config example_ops empty_gdb) !! ("s", "g")) as [i|] eqn:E;
    [|by vm_compute in E].
  apply (completed_covers_every_event example_config example_ops empty_gdb "s" "g" i);
    [by vm_compute|done|exact E|vm_compute in E; by injection E as <-].
Defined.

End Intents.
