(* ===== verification/GatewayRuns.v ===== *)
(** * Synchronisation runs

    [src/modules/gateway/gateway-sync-run.repository.ts] (Module [Runs]) and
    [gateway-write-fence.repository.ts] ([Fence]): a run discovers the groups of a session
    under a lease; its epoch, drawn from the fence row of the session, is checked by every
    write of an attempt. *)

From S2P Require Import Prelude Schema GatewaySchema GatewayPacing.

Module Runs.

Local Open Scope Z_scope.

Definition MAX_ATTEMPTS : Z := 3.

Definition is_active (s : SyncStatus.t) : bool :=
  match s with SyncStatus.PENDING | SyncStatus.RUNNING => true | _ => false end.
Definition is_running (s : SyncStatus.t) : bool :=
  match s with SyncStatus.RUNNING => true | _ => false end.
Definition is_pending (s : SyncStatus.t) : bool :=
  match s with SyncStatus.PENDING => true | _ => false end.

(** The row an INSERT makes *)
Definition new_run (now : timestamp) (session : string) (mode : SyncMode.t) : sync_run :=
  SyncRun session mode SyncStatus.PENDING SyncPhase.DISCOVERING 0 0 0 0 0 0 0 now
    None None None None now None None.

Definition active_of (session : string) (_ : uuid) (r : sync_run) : bool :=
  bool_decide (sr_session_id r = session) && is_active (sr_status r).

Definition by_requested (a b : uuid * sync_run) : bool := sr_requested_at a.2 <=? sr_requested_at b.2.

(** [GatewaySyncModeConflictError] carries the active run and its mode. *)
Definition create (now : timestamp) (new_id : uuid) (session : string) (mode : SyncMode.t) (d : gdb)
    : (uuid * SyncMode.t + uuid) * gdb :=
  match head (order_by by_requested (select_where (active_of session) (sync_runs d))) with
  | Some (id, r) =>
      if bool_decide (sr_sync_type r = mode) then (inr id, d) else (inl (id, sr_sync_type r), d)
  | None => (inr new_id, d <| sync_runs := <[new_id := new_run now session mode]> (sync_runs d) |>)
  end.

Definition pending_due (now : timestamp) (_ : uuid) (r : sync_run) : bool :=
  is_pending (sr_status r) && (sr_attempt_count r <? MAX_ATTEMPTS) && (sr_next_attempt_at r <=? now).

(** ORDER BY next_attempt_at, requested_at *)
Definition by_due (a b : uuid * sync_run) : bool :=
  (sr_next_attempt_at a.2 <? sr_next_attempt_at b.2)
  || (sr_next_attempt_at a.2 =? sr_next_attempt_at b.2) && by_requested a b.

Definition listPending (now : timestamp) (limit : nat) (d : gdb) : list (uuid * sync_run) :=
  take limit (order_by by_due (select_where (pending_due now) (sync_runs d))).

Definition expired (now : timestamp) (_ : uuid) (r : sync_run) : bool :=
  is_running (sr_status r) && before (sr_lease_expires_at r) now.

Definition unlease (r : sync_run) : sync_run :=
  r <| sr_lease_token := None |> <| sr_lease_expires_at := None |>.

(** What [recoverExpired] and [failAttempt] have in common *)
Definition end_attempt (now : timestamp) (error : string) (retry_at : timestamp) (r : sync_run)
    : sync_run :=
  let spent := MAX_ATTEMPTS <=? sr_attempt_count r in
  unlease (r <| sr_status := if spent then SyncStatus.FAILED else SyncStatus.PENDING |>
    <| sr_sync_epoch := if spent then sr_sync_epoch r else None |>
    <| sr_next_attempt_at := if spent then sr_next_attempt_at r else retry_at |>
    <| sr_error := Some error |>
    <| sr_completed_at := if spent then Some now else None |>).

Definition recoverExpired (now : timestamp) (d : gdb) : Z * gdb :=
  (count_where (expired now) (sync_runs d),
   d <| sync_runs := update_where (expired now)
          (end_attempt now "Recovered expired sync lease" now) (sync_runs d) |>).

(** [ClaimedSyncRun] *)
Record claimed := Claimed {
  cs_sessionId : string; cs_leaseToken : uuid; cs_attemptNumber : Z; cs_syncEpoch : Z }.

Definition claimable (now : timestamp) (d : gdb) (r : sync_run) : bool :=
  is_pending (sr_status r) && (sr_attempt_count r <? MAX_ATTEMPTS) && (sr_next_attempt_at r <=? now)
  && negb (exists_where (fun _ a => bool_decide (sr_session_id a = sr_session_id r)
                                    && is_running (sr_status a)) (sync_runs d)).

Definition claim_row (now : timestamp) (token : uuid) (epoch : Z) (r : sync_run) : sync_run :=
  r <| sr_status := SyncStatus.RUNNING |> <| sr_attempt_count := sr_attempt_count r + 1 |>
    <| sr_sync_epoch := Some epoch |> <| sr_lease_token := Some token |>
    <| sr_lease_expires_at := Some (now + two_minutes) |>
    <| sr_phase := SyncPhase.DISCOVERING |> <| sr_groups_synced := 0 |>
    <| sr_groups_discovered := 0 |> <| sr_groups_scheduled := 0 |> <| sr_groups_failed := 0 |>
    <| sr_groups_skipped := 0 |> <| sr_members_synced := 0 |> <| sr_error := None |>
    <| sr_started_at := coalesce (sr_started_at r) (Some now) |> <| sr_completed_at := None |>.

(** The transaction commits the new fence row also when it claims nothing. *)
Definition claim (now : timestamp) (new_token : uuid) (id : uuid) (d : gdb) : option claimed * gdb :=
  match sync_runs d !! id with
  | None => (None, d)
  | Some candidate =>
      let session := sr_session_id candidate in
      let d1 := d <| gateway_sync_fences := insert_absent session 0 (gateway_sync_fences d) |> in
      let epoch := default 0 (gateway_sync_fences d1 !! session) + 1 in
      let '(row, runs) := update_row id (claimable now d1) (claim_row now new_token epoch)
                            (sync_runs d1) in
      match row with
      | None => (None, d1)
      | Some r =>
          (Some (Claimed session new_token (sr_attempt_count r) epoch),
           d1 <| sync_runs := runs |>
              <| gateway_sync_fences := <[session := epoch]> (gateway_sync_fences d1) |>)
      end
  end.

Definition leased (now : timestamp) (token : uuid) (r : sync_run) : bool :=
  is_running (sr_status r) && bool_decide (sr_lease_token r = Some token)
  && after (sr_lease_expires_at r) now.

Definition renewLease (now : timestamp) (id token : uuid) (d : gdb) : bool * gdb :=
  let '(row, runs) := update_row id (leased now token)
    (fun r => r <| sr_lease_expires_at := Some (now + two_minutes) |>) (sync_runs d) in
  (negb (is_null row), d <| sync_runs := runs |>).

Definition complete (now : timestamp) (id token : uuid) (groups members : Z) (d : gdb) : bool * gdb :=
  let '(row, runs) := update_row id (leased now token)
    (fun r => unlease (r <| sr_status := SyncStatus.COMPLETED |> <| sr_groups_synced := groups |>
                <| sr_members_synced := members |> <| sr_error := None |>
                <| sr_completed_at := Some now |>)) (sync_runs d) in
  (negb (is_null row), d <| sync_runs := runs |>).

(** LEAST(300, 5 * power(2, attempt - 1)) seconds *)
Definition backoff_ms (attempt : Z) : Z := Z.min 300 (5 * 2 ^ (attempt - 1)) * 1000.

Definition fail_row (now : timestamp) (groups members : Z) (error : string) (r : sync_run) : sync_run :=
  (end_attempt now error (now + backoff_ms (sr_attempt_count r)) r)
    <| sr_groups_synced := groups |> <| sr_members_synced := members |>.

(** The new status, [None] for LOST_OWNERSHIP *)
Definition failAttempt (now : timestamp) (id token : uuid) (groups members : Z) (error : string)
    (d : gdb) : option SyncStatus.t * gdb :=
  let '(row, runs) := update_row id (leased now token) (fail_row now groups members error)
    (sync_runs d) in
  (sr_status <$> row, d <| sync_runs := runs |>).

(** [SyncRunDto] as [find] answers it: the row, the counts of open items, the time of the
    next item, and the cool-down of an active run *)
Record sync_run_dto := SyncRunDto {
  dto_run : sync_run;
  dto_groupsPending : Z; dto_groupsRunning : Z; dto_groupsRetrying : Z;
  dto_nextAttemptAt : option timestamp; dto_cooldownUntil : option timestamp }.

Definition items_in (run : uuid) (s : ItemStatus.t) (d : gdb) : Z :=
  count_where (fun _ i => bool_decide (si_sync_run_id i = run) && bool_decide (si_status i = s))
    (gateway_sync_items d).

(** [min(..)], NULL over no row *)
Definition minimum (l : list Z) : option Z :=
  foldr (fun x acc => Some (match acc with Some y => Z.min x y | None => x end)) None l.

Definition find (id : uuid) (d : gdb) : option sync_run_dto :=
  match sync_runs d !! id with
  | None => None
  | Some r =>
      let due := map (fun kv => si_next_attempt_at kv.2)
        (select_where (fun _ i => bool_decide (si_sync_run_id i = id)
           && (bool_decide (si_status i = ItemStatus.PENDING) || bool_decide (si_status i = ItemStatus.RETRY)))
           (gateway_sync_items d)) in
      Some (SyncRunDto r (items_in id ItemStatus.PENDING d) (items_in id ItemStatus.RUNNING d)
        (items_in id ItemStatus.RETRY d)
        (coalesce (minimum due) (if is_pending (sr_status r) then Some (sr_next_attempt_at r) else None))
        (if is_active (sr_status r)
         then rate_limits d !! sr_session_id r ≫= rl_cooldown_until else None))
  end.

End Runs.

(** ** Write fences *)

Module Fence.

(** [SyncWriteFence] *)
Record sync_fence := SyncFence { wf_syncRunId : uuid; wf_leaseToken : uuid; wf_syncEpoch : Z }.

(** [SyncItemWriteFence] *)
Record item_fence := ItemFence {
  xf_itemId : uuid; xf_syncRunId : uuid; xf_sessionId : string; xf_leaseToken : uuid;
  xf_syncEpoch : Z }.

(** [true] when the assertion passes *)
Definition assertSyncWriteOwnership (now : timestamp) (session : string) (fence : sync_fence) (d : gdb)
    : bool :=
  bool_decide (gateway_sync_fences d !! session = Some (wf_syncEpoch fence))
  && match sync_runs d !! wf_syncRunId fence with
     | Some r => bool_decide (sr_session_id r = session) && Runs.is_running (sr_status r)
                 && bool_decide (sr_sync_epoch r = Some (wf_syncEpoch fence))
                 && bool_decide (sr_lease_token r = Some (wf_leaseToken fence))
                 && after (sr_lease_expires_at r) now
     | None => false
     end.

Definition item_leased (now : timestamp) (token : uuid) (i : sync_item) : bool :=
  bool_decide (si_status i = ItemStatus.RUNNING) && bool_decide (si_lease_token i = Some token)
  && after (si_lease_expires_at i) now.

Definition assertSyncItemWriteOwnership (now : timestamp) (fence : item_fence) (d : gdb) : bool :=
  match gateway_sync_items d !! xf_itemId fence with
  | Some i =>
      bool_decide (si_sync_run_id i = xf_syncRunId fence)
      && bool_decide (si_session_id i = xf_sessionId fence)
      && item_leased now (xf_leaseToken fence) i
      && match sync_runs d !! si_sync_run_id i with
         | Some r => Runs.is_running (sr_status r)
                     && bool_decide (sr_sync_epoch r = Some (xf_syncEpoch fence))
         | None => false
         end
      && bool_decide (gateway_sync_fences d !! si_session_id i = Some (xf_syncEpoch fence))
  | None => false
  end.

End Fence.
