(* ===== verification/GatewayItems.v ===== *)
(** * Synchronisation items

    [src/modules/gateway/gateway-sync-item.repository.ts]: the discovery of a run
    publishes an item per group that needs a detailed read; items are claimed one at a
    time per session, and the run ends with its last item.  A listing that lost most of
    the groups is only believed when it comes again. *)

From S2P Require Import Prelude Schema Json Groups GatewaySchema GatewayPacing GatewayRuns.
From stdpp Require Import pretty.

Module Items.

Import Json.
Local Open Scope Z_scope.

(** [OpenWAGroupSummary] *)
Record listed := Listed { ls_summary : Snapshot.summary; ls_linkedParentJID : option string }.
Definition ls_id (g : listed) : string := Snapshot.sm_id (ls_summary g).

Definition is_open (s : ItemStatus.t) : bool :=
  match s with ItemStatus.PENDING | ItemStatus.RETRY => true | _ => false end.
Definition is_running (s : ItemStatus.t) : bool :=
  match s with ItemStatus.RUNNING => true | _ => false end.
Definition remaining (s : ItemStatus.t) : bool := is_open s || is_running s.

Definition json_bool (b : bool) : string := if b then "true" else "false".
Definition json_number (z : Z) : string := pretty z.
Definition json_null_or {A} (f : A -> string) (o : option A) : string :=
  match o with Some x => f x | None => "null" end.

Section Config.
Context (cfg : gateway_config) (sha256 : string -> string).

Definition summary_json (g : listed) : string :=
  ("{" ++ member "id" (json_string (ls_id g))
    ("," ++ member "name" (json_string (Snapshot.sm_name (ls_summary g)))
    ("," ++ member "participantsCount" (json_null_or json_number (Snapshot.sm_participantsCount (ls_summary g)))
    ("," ++ member "isAdmin" (json_null_or json_bool (Snapshot.sm_isAdmin (ls_summary g)))
    ("," ++ member "linkedParentJID" (json_nullable (ls_linkedParentJID g)) "}")))))%string.

Definition summaryFingerprint (g : listed) : string := sha256 (summary_json g).

Definition snapshotFingerprint (groups : list listed) : string :=
  sha256 (json_array (order_by text_leb (map ls_id groups))).

(** *** Discovery *)

Definition assertDiscoveryOwnership (now : timestamp) (fence : Fence.sync_fence) (session : string)
    (d : gdb) : bool :=
  match sync_runs d !! Fence.wf_syncRunId fence with
  | Some r => bool_decide (sr_session_id r = session)
              && Runs.leased now (Fence.wf_leaseToken fence) r
              && bool_decide (sr_sync_epoch r = Some (Fence.wf_syncEpoch fence))
              && bool_decide (gateway_sync_fences d !! sr_session_id r = Some (Fence.wf_syncEpoch fence))
  | None => false
  end.

(** The snapshot columns of the session's row, if it has a row *)
Definition session_state (session : string) (d : gdb) : option session_snapshot :=
  match gateway_sessions (core d) !! session with
  | Some _ => Some (default no_snapshot (session_snapshots d !! session))
  | None => None
  end.

(** [UPDATE gateway_sessions .. WHERE id = $1] of those columns *)
Definition set_snapshot (session : string) (f : session_snapshot -> session_snapshot) (d : gdb) : gdb :=
  match session_state session d with
  | Some s => d <| session_snapshots := <[session := f s]> (session_snapshots d) |>
  | None => d
  end.

Definition groups_known (session : string) (d : gdb) : Z :=
  count_where (fun k _ => bool_decide (k.1 = session)) (gateway_groups (core d)).

Definition baseline (session : string) (d : gdb) : Z :=
  default (groups_known session d) (session_state session d ≫= sn_count).

(** [groups.length < baseline * ratio], with the ratio a fraction *)
Definition suspicious (session : string) (count : Z) (d : gdb) : bool :=
  let ratio := GATEWAY_SYNC_SNAPSHOT_DROP_RATIO cfg in
  (GATEWAY_SYNC_SNAPSHOT_MIN_BASELINE cfg <=? baseline session d)
  && (count * ratio.2 <? baseline session d * ratio.1).

Definition confirmations (session : string) (snapshot : string) (count : Z) (d : gdb) : Z :=
  match session_state session d with
  | Some s =>
      if suspicious session count d && bool_decide (sn_suspicious_fingerprint s = Some snapshot)
         && bool_decide (sn_suspicious_count s = Some count)
      then sn_suspicious_confirmations s + 1 else 1
  | None => 1
  end.

(** Date.now() - hours * 3_600_000 *)
Definition staleBefore (now : timestamp) : timestamp :=
  now - GATEWAY_GROUP_DETAILS_STALE_AFTER_HOURS cfg * 3600000.

Definition select_reason (now : timestamp) (session : string) (mode : SyncMode.t) (d : gdb) (g : listed)
    : option string :=
  let row := gateway_groups (core d) !! (session, ls_id g) in
  let reconciled := fingerprints d !! (session, ls_id g) ≫= gf_reconciled_summary in
  match mode with
  | SyncMode.FULL => Some "FULL"
  | SyncMode.INCREMENTAL =>
      match row ≫= gg_details_synced_at with
      | None => Some "MISSING_DETAILS"
      | Some synced =>
          if negb (is_null (row ≫= gg_capability_invalidated_at)) then Some "CAPABILITY_INVALIDATED"
          else if negb (bool_decide (reconciled = Some (summaryFingerprint g)))
          then Some "SUMMARY_NOT_RECONCILED"
          else if synced <? staleBefore now then Some "DETAILS_STALE" else None
      end
  end.

(** The selected groups, with their position in the listing and the reason *)
Definition selection (now : timestamp) (session : string) (mode : SyncMode.t) (d : gdb)
    (groups : list listed) : list (Z * listed * string) :=
  omap (fun ng => (fun reason => (Z.of_nat ng.1, ng.2, reason)) <$> select_reason now session mode d ng.2)
    (zip (seq 0 (length groups)) groups).

Definition new_item (now : timestamp) (run : uuid) (session : string) (sel : Z * listed * string) : sync_item :=
  SyncItem run session (ls_id sel.1.2) sel.1.1 sel.2 ItemStatus.PENDING 0 now None None 0 None
    (Some (summaryFingerprint sel.1.2)) None None.

(** INSERT .. ON CONFLICT (sync_run_id, group_id) DO NOTHING; [ids] draws the item's id *)
Definition insert_item (now : timestamp) (ids : string -> uuid) (run : uuid) (session : string)
    (items : gmap uuid sync_item) (sel : Z * listed * string) : gmap uuid sync_item :=
  if exists_where (fun _ i => bool_decide (si_sync_run_id i = run)
                              && bool_decide (si_group_id i = ls_id sel.1.2)) items
  then items
  else <[ids (ls_id sel.1.2) := new_item now run session sel]> items.

Definition insert_items (now : timestamp) (ids : string -> uuid) (run : uuid) (session : string)
    (selected : list (Z * listed * string)) (items : gmap uuid sync_item) : gmap uuid sync_item :=
  foldl (insert_item now ids run session) items selected.

Definition replaceSummaries (now : timestamp) (session : string) (groups : list listed) (d : gdb) : gdb :=
  d <| core := Snapshot.replaceGroupSummaries now session (map ls_summary groups) (core d) |>.

Definition store_fingerprint (session : string) (t : gmap (string * string) group_fingerprints)
    (g : listed) : gmap (string * string) group_fingerprints :=
  <[(session, ls_id g) := (default no_fingerprints (t !! (session, ls_id g)))
      <| gf_summary := Some (summaryFingerprint g) |>]> t.

(** [{ discovered, scheduled, completed, deferred }] *)
Record discovery := Discovery {
  dc_discovered : Z; dc_scheduled : Z; dc_completed : bool; dc_deferred : bool }.

Definition defer_row (now : timestamp) (r : sync_run) : sync_run :=
  Runs.unlease (r <| sr_status := SyncStatus.PENDING |> <| sr_sync_epoch := None |>
    <| sr_attempt_count := Z.max (sr_attempt_count r - 1) 0 |>
    <| sr_next_attempt_at := now + 5000 |>
    <| sr_error := Some "SUSPICIOUS_GROUP_SNAPSHOT" |>).

Definition publish_row (now : timestamp) (discovered scheduled : Z) (r : sync_run) : sync_run :=
  let completed := scheduled =? 0 in
  Runs.unlease (r <| sr_phase := if completed then SyncPhase.COMPLETED else SyncPhase.RECONCILING |>
    <| sr_groups_discovered := discovered |> <| sr_groups_scheduled := scheduled |>
    <| sr_status := if completed then SyncStatus.COMPLETED else sr_status r |>
    <| sr_completed_at := if completed then Some now else None |> <| sr_error := None |>).

Definition holds (token : uuid) (r : sync_run) : bool := bool_decide (sr_lease_token r = Some token).

(** The transaction of [publishDiscovery]; [None] when it throws for lost ownership.  The
    ids of one listing are distinct. *)
Definition publishDiscovery (now : timestamp) (ids : string -> uuid) (fence : Fence.sync_fence)
    (session : string) (mode : SyncMode.t) (groups : list listed) (d : gdb) : option discovery * gdb :=
  let run := Fence.wf_syncRunId fence in
  let token := Fence.wf_leaseToken fence in
  let count := Z.of_nat (length groups) in
  if negb (assertDiscoveryOwnership now fence session d) then (None, d)
  else
    let snapshot := snapshotFingerprint groups in
    let n := confirmations session snapshot count d in
    if suspicious session count d && (n <? GATEWAY_SYNC_SNAPSHOT_CONFIRMATIONS cfg)
    then
      let d1 := set_snapshot session (fun s => s <| sn_suspicious_fingerprint := Some snapshot |>
                  <| sn_suspicious_count := Some count |> <| sn_suspicious_confirmations := n |>) d in
      (Some (Discovery count 0 false true),
       d1 <| sync_runs := (update_row run (holds token) (defer_row now) (sync_runs d1)).2 |>)
    else
      let selected := selection now session mode d groups in
      let scheduled := Z.of_nat (length selected) in
      let d1 := replaceSummaries now session groups d in
      let d2 := d1 <| gateway_sync_items := insert_items now ids run session selected
                        (gateway_sync_items d1) |> in
      let d3 := d2 <| fingerprints := foldl (store_fingerprint session) (fingerprints d2) groups |> in
      let d4 := set_snapshot session (fun _ => SessionSnapshot (Some count) None None 0) d3 in
      (Some (Discovery count scheduled (scheduled =? 0) false),
       d4 <| sync_runs := (update_row run (holds token) (publish_row now count scheduled)
                             (sync_runs d4)).2 |>).

(** *** The items of a run *)

(** The row of the run is rewritten from an aggregate over the items [seen].  The
    statements below see the table they have just written. *)
Definition counted (run : uuid) (P : sync_item -> bool) (seen : gmap uuid sync_item) : Z :=
  count_where (fun _ i => bool_decide (si_sync_run_id i = run) && P i) seen.
Definition has_status (s : ItemStatus.t) (i : sync_item) : bool := bool_decide (si_status i = s).
Definition members_total (run : uuid) (seen : gmap uuid sync_item) : Z :=
  foldr (fun kv acc => si_members_synced kv.2 + acc) 0
    (select_where (fun _ i => bool_decide (si_sync_run_id i = run)
                              && has_status ItemStatus.COMPLETED i) seen).

Definition parent_row (now : timestamp) (run : uuid) (seen : gmap uuid sync_item) (r : sync_run) : sync_run :=
  let completed := counted run (has_status ItemStatus.COMPLETED) seen in
  let failed := counted run (has_status ItemStatus.FAILED) seen in
  let skipped := counted run (has_status ItemStatus.SKIPPED) seen in
  let left := counted run (fun i => remaining (si_status i)) seen in
  r <| sr_groups_synced := completed |> <| sr_groups_failed := failed |>
    <| sr_groups_skipped := skipped |> <| sr_members_synced := members_total run seen |>
    <| sr_phase := if left =? 0 then SyncPhase.COMPLETED else SyncPhase.RECONCILING |>
    <| sr_status := if 0 <? left then sr_status r
                    else if 0 <? failed then SyncStatus.FAILED else SyncStatus.COMPLETED |>
    <| sr_error := if (left =? 0) && (0 <? failed)
                   then Some (pretty failed ++ " group reconciliations failed")%string else sr_error r |>
    <| sr_completed_at := if left =? 0 then Some now else None |>.

Definition refreshParent (now : timestamp) (run : uuid) (seen : gmap uuid sync_item) (d : gdb) : gdb :=
  d <| sync_runs := (update_row run (fun _ => true) (parent_row now run seen) (sync_runs d)).2 |>.

(** [ClaimedGatewaySyncItem] *)
Record claimed := Claimed {
  ci_id : uuid; ci_syncRunId : uuid; ci_sessionId : string; ci_groupId : string; ci_leaseToken : uuid;
  ci_attemptNumber : Z; ci_syncEpoch : option Z; ci_observedSummaryFingerprint : option string }.

Definition claimable (now : timestamp) (i : sync_item) : bool :=
  is_open (si_status i) && (si_next_attempt_at i <=? now)
  && (si_attempt_count i <? GATEWAY_SYNC_ITEM_MAX_ATTEMPTS cfg).

Definition claim_row (now : timestamp) (token : uuid) (i : sync_item) : sync_item :=
  i <| si_status := ItemStatus.RUNNING |> <| si_attempt_count := si_attempt_count i + 1 |>
    <| si_lease_token := Some token |> <| si_lease_expires_at := Some (now + two_minutes) |>
    <| si_started_at := coalesce (si_started_at i) (Some now) |> <| si_error := None |>.

(** The item joined with its run, when the run is RUNNING *)
Definition candidate (id : uuid) (d : gdb) : option (sync_item * sync_run) :=
  match gateway_sync_items d !! id with
  | Some i =>
      match sync_runs d !! si_sync_run_id i with
      | Some r => if Runs.is_running (sr_status r) then Some (i, r) else None
      | None => None
      end
  | None => None
  end.

Definition claim (now : timestamp) (new_token : uuid) (id : uuid) (d : gdb) : option claimed * gdb :=
  match candidate id d with
  | None => (None, d)
  | Some (row, r) =>
      let session := si_session_id row in
      let d1 := d <| rate_limits := Pacing.ensure cfg now session (rate_limits d) |> in
      match Pacing.readyAndRate cfg now session (rate_limits d1) with
      | None => (None, d1)
      | Some rate =>
          let '(won, items) := update_row id (claimable now) (claim_row now new_token)
                                 (gateway_sync_items d1) in
          match won with
          | None => (None, d1)
          | Some i =>
              (Some (Claimed id (si_sync_run_id row) session (si_group_id row) new_token
                       (si_attempt_count i) (sr_sync_epoch r) (si_observed_summary_fingerprint row)),
               d1 <| gateway_sync_items := items |>
                  <| rate_limits := Pacing.acquire now session new_token rate (rate_limits d1) |>)
          end
      end
  end.

Definition extend (now : timestamp) (i : sync_item) : sync_item :=
  i <| si_lease_expires_at := Some (now + two_minutes) |>.

(** Rolled back when either lease is lost *)
Definition renewLease (now : timestamp) (id token : uuid) (d : gdb) : bool * gdb :=
  let '(row, items) := update_row id (Fence.item_leased now token) (extend now) (gateway_sync_items d) in
  match row with
  | None => (false, d)
  | Some i =>
      let '(renewed, limits) := Pacing.renew now (si_session_id i) token (rate_limits d) in
      if renewed then (true, d <| gateway_sync_items := items |> <| rate_limits := limits |>)
      else (false, d)
  end.

Definition end_item (now : timestamp) (s : ItemStatus.t) (i : sync_item) : sync_item :=
  i <| si_status := s |> <| si_lease_token := None |> <| si_lease_expires_at := None |>
    <| si_completed_at := Some now |>.

(** The group's reconciled fingerprint becomes the item's observed one. *)
Definition reconciled (i : sync_item) (d : gdb) : gdb :=
  let key := (si_session_id i, si_group_id i) in
  match gateway_groups (core d) !! key with
  | None => d
  | Some _ =>
      let row := default no_fingerprints (fingerprints d !! key) in
      d <| fingerprints := <[key := row <| gf_reconciled_summary :=
             coalesce (si_observed_summary_fingerprint i) (gf_reconciled_summary row) |>]> (fingerprints d) |>
  end.

Definition complete (now : timestamp) (id token : uuid) (members : Z) (d : gdb) : bool * gdb :=
  let '(row, items) := update_row id (Fence.item_leased now token)
    (fun i => (end_item now ItemStatus.COMPLETED i) <| si_members_synced := members |>)
    (gateway_sync_items d) in
  match row with
  | None => (false, d)
  | Some i =>
      let d1 := reconciled i (d <| gateway_sync_items := items |>) in
      let d2 := d1 <| rate_limits := Pacing.success cfg (si_session_id i) token (rate_limits d1) |> in
      (true, refreshParent now (si_sync_run_id i) (gateway_sync_items d2) d2)
  end.

Definition skip (now : timestamp) (id token : uuid) (error : string) (d : gdb) : bool * gdb :=
  let '(row, items) := update_row id (Fence.item_leased now token)
    (fun i => (end_item now ItemStatus.SKIPPED i) <| si_error := Some error |>) (gateway_sync_items d) in
  match row with
  | None => (false, d)
  | Some i =>
      let d1 := d <| gateway_sync_items := items |>
                  <| rate_limits := Pacing.release (si_session_id i) token (rate_limits d) |> in
      (true, refreshParent now (si_sync_run_id i) (gateway_sync_items d1) d1)
  end.

Inductive failure_outcome : Set := Retry_ | Failed_ | LostOwnership.

(** As for intents: seconds times thousandths *)
Definition retry_delay (attempt jitter : Z) : Z := Z.min 300 (5 * 2 ^ Z.max 0 (attempt - 1)) * jitter.

Definition fail_row (now : timestamp) (jitter : Z) (error : string) (willRetry : bool) (i : sync_item)
    : sync_item :=
  i <| si_status := if willRetry then ItemStatus.RETRY else ItemStatus.FAILED |>
    <| si_error := Some error |>
    <| si_next_attempt_at := if willRetry then now + retry_delay (si_attempt_count i) jitter
                             else si_next_attempt_at i |>
    <| si_lease_token := None |> <| si_lease_expires_at := None |>
    <| si_completed_at := if willRetry then None else Some now |>.

Definition fail (now : timestamp) (jitter jitter' : Z) (id token : uuid) (error : string)
    (policy : failure_policy) (d : gdb) : failure_outcome * gdb :=
  match gateway_sync_items d !! id with
  | Some i =>
      if Fence.item_leased now token i
      then
        let willRetry := fp_retryable policy
                         && (si_attempt_count i <? GATEWAY_SYNC_ITEM_MAX_ATTEMPTS cfg) in
        let d1 := d <| gateway_sync_items :=
                         <[id := fail_row now jitter error willRetry i]> (gateway_sync_items d) |>
                    <| rate_limits :=
                         Pacing.failure cfg now jitter' (si_session_id i) token policy (rate_limits d) |> in
        (if willRetry then Retry_ else Failed_,
         refreshParent now (si_sync_run_id i) (gateway_sync_items d1) d1)
      else (LostOwnership, d)
  | None => (LostOwnership, d)
  end.

Definition expired (now : timestamp) (_ : uuid) (i : sync_item) : bool :=
  is_running (si_status i) && before (si_lease_expires_at i) now.

Definition recover_row (now : timestamp) (i : sync_item) : sync_item :=
  let spent := GATEWAY_SYNC_ITEM_MAX_ATTEMPTS cfg <=? si_attempt_count i in
  i <| si_status := if spent then ItemStatus.FAILED else ItemStatus.RETRY |>
    <| si_next_attempt_at := now |> <| si_lease_token := None |> <| si_lease_expires_at := None |>
    <| si_error := Some "Recovered expired group reconciliation lease" |>
    <| si_completed_at := if spent then Some now else None |>.

Definition recoverExpired (now : timestamp) (d : gdb) : Z * gdb :=
  let recovered := select_where (expired now) (gateway_sync_items d) in
  let d1 := d <| gateway_sync_items := update_where (expired now) (recover_row now)
                                         (gateway_sync_items d) |> in
  let d2 := foldl (fun d run => refreshParent now run (gateway_sync_items d) d) d1
              (remove_dups (map (fun kv => si_sync_run_id kv.2) recovered)) in
  (Z.of_nat (length recovered),
   d2 <| rate_limits := Pacing.release_expired now (fun _ => true) (rate_limits d2) |>).

(** The statement of [upsertGroupDetails] under an item's fence *)
Definition renewFence (now : timestamp) (fence : Fence.item_fence) (d : gdb) : bool * gdb :=
  let token := Fence.xf_leaseToken fence in
  let '(row, items) := update_row (Fence.xf_itemId fence)
    (fun i => is_running (si_status i) && bool_decide (si_lease_token i = Some token))
    (extend now) (gateway_sync_items d) in
  let '(renewed, limits) := Pacing.renew_write now (Fence.xf_sessionId fence) token (rate_limits d) in
  if negb (is_null row) && renewed
  then (true, d <| gateway_sync_items := items |> <| rate_limits := limits |>)
  else (false, d).

(** *** Dispatch *)

Definition dispatchable (now : timestamp) (d : gdb) (_ : uuid) (i : sync_item) : bool :=
  is_open (si_status i) && (si_attempt_count i <? GATEWAY_SYNC_ITEM_MAX_ATTEMPTS cfg)
  && match sync_runs d !! si_sync_run_id i with
     | Some r => Runs.is_running (sr_status r)
     | None => false
     end
  && (let l := rate_limits d !! si_session_id i in
      is_null (l ≫= rl_active_lease_token) || before (l ≫= rl_active_lease_expires_at) now).

Definition available_at (d : gdb) (i : sync_item) : timestamp :=
  let l := rate_limits d !! si_session_id i in
  foldl (fun acc b => match b with Some x => Z.max acc x | None => acc end) (si_next_attempt_at i)
    [rl_next_request_at <$> l; l ≫= rl_cooldown_until].

(** ORDER BY available_at, ordinal *)
Definition by_available (d : gdb) (a b : uuid * sync_item) : bool :=
  (available_at d a.2 <? available_at d b.2)
  || (available_at d a.2 =? available_at d b.2) && (si_ordinal a.2 <=? si_ordinal b.2).

(** [row_number() OVER (PARTITION BY session_id ..) = 1], of an ordered list *)
Fixpoint first_per_session (seen : list string) (l : list (uuid * sync_item)) : list (uuid * sync_item) :=
  match l with
  | [] => []
  | x :: l' =>
      if mem (si_session_id x.2) seen then first_per_session seen l'
      else x :: first_per_session (si_session_id x.2 :: seen) l'
  end.

(** The dispatched items, with their availableAt *)
Definition listDispatchable (now : timestamp) (limit : nat) (d : gdb)
    : list (uuid * sync_item * timestamp) :=
  map (fun kv => (kv, available_at d kv.2))
    (take limit (first_per_session []
      (order_by (by_available d) (select_where (dispatchable now d) (gateway_sync_items d))))).

End Config.
End Items.
