(* ===== verification/GatewaySync.v ===== *)
(** * Synchronisation as a whole

    Every statement on synchronisation runs, their items and the epochs of their sessions
    ([GatewayRuns], [GatewayItems]) as one step relation, what every reachable state keeps,
    and what follows for attempts that were superseded and for listings that lost groups. *)

From S2P Require Import Prelude Schema Json Groups GatewaySchema GatewayPacing GatewayRuns GatewayItems.

Module Sync.

Local Open Scope Z_scope.
Abbreviation runs_t := (gmap uuid sync_run) (only parsing).
Abbreviation items_t := (gmap uuid sync_item) (only parsing).

Inductive op : Type :=
  | Create (now : timestamp) (id : uuid) (session : string) (mode : SyncMode.t)
  | RecoverRuns (now : timestamp)
  | ClaimRun (now : timestamp) (token id : uuid)
  | RenewRun (now : timestamp) (id token : uuid)
  | CompleteRun (now : timestamp) (id token : uuid) (groups members : Z)
  | FailRun (now : timestamp) (id token : uuid) (groups members : Z) (error : string)
  | Publish (now : timestamp) (ids : string -> uuid) (fence : Fence.sync_fence) (session : string)
      (mode : SyncMode.t) (groups : list Items.listed)
  | ClaimItem (now : timestamp) (token id : uuid)
  | RenewItem (now : timestamp) (id token : uuid)
  | RenewFence (now : timestamp) (fence : Fence.item_fence)
  | CompleteItem (now : timestamp) (id token : uuid) (members : Z)
  | SkipItem (now : timestamp) (id token : uuid) (error : string)
  | FailItem (now : timestamp) (jitter jitter' : Z) (id token : uuid) (error : string)
      (policy : failure_policy)
  | RecoverItems (now : timestamp)
  (** any statement that leaves runs, items, epochs and snapshot columns alone *)
  | Elsewhere (f : gdb -> gdb).

(** Drawn ids are new, and a listing names each group once. *)
Definition admissible (o : op) (d : gdb) : Prop :=
  match o with
  | Create _ id _ _ => sync_runs d !! id = None
  | Publish _ ids _ _ _ groups =>
      NoDup (map Items.ls_id groups) /\ NoDup (map ids (map Items.ls_id groups)) /\
      forall g, g ∈ groups -> gateway_sync_items d !! ids (Items.ls_id g) = None
  | _ => True
  end.

Section Config.
Context (cfg : gateway_config) (sha256 : string -> string).

Definition run (o : op) (d : gdb) : gdb :=
  match o with
  | Create now id s mode => (Runs.create now id s mode d).2
  | RecoverRuns now => (Runs.recoverExpired now d).2
  | ClaimRun now token id => (Runs.claim now token id d).2
  | RenewRun now id token => (Runs.renewLease now id token d).2
  | CompleteRun now id token g m => (Runs.complete now id token g m d).2
  | FailRun now id token g m error => (Runs.failAttempt now id token g m error d).2
  | Publish now ids fence s mode groups =>
      (Items.publishDiscovery cfg sha256 now ids fence s mode groups d).2
  | ClaimItem now token id => (Items.claim cfg now token id d).2
  | RenewItem now id token => (Items.renewLease now id token d).2
  | RenewFence now fence => (Items.renewFence now fence d).2
  | CompleteItem now id token m => (Items.complete cfg now id token m d).2
  | SkipItem now id token error => (Items.skip now id token error d).2
  | FailItem now j j' id token error p => (Items.fail cfg now j j' id token error p d).2
  | RecoverItems now => (Items.recoverExpired cfg now d).2
  | Elsewhere f => (f d) <| sync_runs := sync_runs d |> <| gateway_sync_items := gateway_sync_items d |>
                     <| gateway_sync_fences := gateway_sync_fences d |>
                     <| session_snapshots := session_snapshots d |>
  end.

Inductive reachable : gdb -> Prop :=
  | reachable_init d : sync_runs d = ∅ -> gateway_sync_items d = ∅ -> gateway_sync_fences d = ∅ ->
      session_snapshots d = ∅ -> reachable d
  | reachable_step d o : reachable d -> admissible o d -> reachable (run o d).

(** *** Counting items *)

(** How a row of the items may change while only the runs [Rs] are recounted *)
Inductive alike (Rs : list uuid) : option sync_item -> option sync_item -> Prop :=
  | alike_same o : alike Rs o o
  | alike_open i i' : si_sync_run_id i' = si_sync_run_id i ->
      Items.remaining (si_status i) = true -> Items.remaining (si_status i') = true ->
      alike Rs (Some i) (Some i')
  | alike_in i i' : si_sync_run_id i' = si_sync_run_id i -> si_sync_run_id i ∈ Rs ->
      alike Rs (Some i) (Some i')
  | alike_new i' : si_sync_run_id i' ∈ Rs -> alike Rs None (Some i').

Lemma select_keys_ext {V W : Type} (t : gmap uuid V) (t' : gmap uuid W) P P' :
  (forall k, (exists v, t !! k = Some v /\ P k v = true) <-> (exists v, t' !! k = Some v /\ P' k v = true)) ->
  count_where P t = count_where P' t'.
Proof.
  intros H. unfold count_where. rewrite <- (length_fmap fst (select_where P t)).
  rewrite <- (length_fmap fst (select_where P' t')). f_equal.
  apply Permutation_length, NoDup_Permutation; [apply select_where_NoDup..|].
  intros k. specialize (H k). rewrite !list_elem_of_fmap. split.
  - intros ([k' v] & -> & Hin%select_where_elem). destruct (proj1 H) as (w & Hw); [by eexists|].
    exists (k', w). split; [done|]. by apply select_where_elem.
  - intros ([k' v] & -> & Hin%select_where_elem). destruct (proj2 H) as (w & Hw); [by eexists|].
    exists (k', w). split; [done|]. by apply select_where_elem.
Qed.

Lemma counted_alike Rs id P (t t' : items_t) : id ∉ Rs -> (forall k, alike Rs (t !! k) (t' !! k)) ->
  (forall i i', Items.remaining (si_status i) = true -> Items.remaining (si_status i') = true -> P i = P i') ->
  Items.counted id P t' = Items.counted id P t.
Proof.
  intros Hid Ha HP. apply select_keys_ext. intros k. specialize (Ha k).
  destruct Ha as [o|i i' Hr H1 H2|i i' Hr Hin|i' Hin]; [done| | |].
  - specialize (HP i i' H1 H2). split; intros (v & [= <-] & Hv); eexists; (split; [done|]).
    + by rewrite <- Hr, HP.
    + by rewrite Hr, <- HP.
  - split; intros (v & [= <-] & Hv); split_bool; exfalso; apply Hid; congruence.
  - split; intros (v & E & Hv); [injection E as <-; split_bool; exfalso; apply Hid; congruence|done].
Qed.

Lemma members_alike Rs id (t t' : items_t) : id ∉ Rs -> (forall k, alike Rs (t !! k) (t' !! k)) ->
  Items.members_total id t' = Items.members_total id t.
Proof.
  intros Hid Ha. unfold Items.members_total. apply (foldr_permutation_proper eq); [by intros ? ? ? -> |intros [k1 i1] [k2 i2] a; lia|].
  apply NoDup_Permutation.
  1-2: apply (NoDup_fmap_1 fst), select_where_NoDup.
  intros [k i]. rewrite !select_where_elem. specialize (Ha k).
  unfold Items.has_status. inversion Ha as [o Ho Ho'|j j' Hr H1 H2 E1 E2|j j' Hr Hin E1 E2|j' Hin E1 E2].
  - done.
  - split; intros [[= <-] Hb]; split_bool; exfalso.
    + match goal with H : si_status _ = _ |- _ => by rewrite H in H2 end.
    + match goal with H : si_status _ = _ |- _ => by rewrite H in H1 end.
  - split; intros [[= <-] Hb]; split_bool; exfalso; apply Hid; congruence.
  - split; [intros [[= <-] Hb]; split_bool; exfalso; apply Hid; congruence|by intros [? _]].
Qed.

(** *** What every state keeps *)

Definition unheld (r : sync_run) : Prop := sr_lease_token r = None /\ sr_lease_expires_at r = None.

(** The counters of a run are the counts of its items. *)
Definition totals (items : items_t) (id : uuid) (r : sync_run) : Prop :=
  sr_groups_synced r = Items.counted id (Items.has_status ItemStatus.COMPLETED) items /\
  sr_groups_failed r = Items.counted id (Items.has_status ItemStatus.FAILED) items /\
  sr_groups_skipped r = Items.counted id (Items.has_status ItemStatus.SKIPPED) items /\
  sr_members_synced r = Items.members_total id items /\
  sr_groups_scheduled r = Items.counted id (fun _ => true) items.

Definition left_of (id : uuid) (items : items_t) : Z :=
  Items.counted id (fun i => Items.remaining (si_status i)) items.

Definition zeroed (r : sync_run) : Prop :=
  sr_groups_synced r = 0 /\ sr_groups_failed r = 0 /\ sr_groups_skipped r = 0 /\
  sr_members_synced r = 0 /\ sr_groups_scheduled r = 0.

(** What the phase of a run says *)
Definition in_phase (items : items_t) (id : uuid) (r : sync_run) : Prop :=
  match sr_phase r with
  | SyncPhase.DISCOVERING =>
      (forall k i, items !! k = Some i -> si_sync_run_id i <> id) /\
      if Runs.is_running (sr_status r)
      then sr_lease_token r <> None /\ sr_lease_expires_at r <> None /\ zeroed r
      else unheld r
  | SyncPhase.RECONCILING =>
      sr_status r = SyncStatus.RUNNING /\ unheld r /\ totals items id r /\ 0 < left_of id items
  | SyncPhase.COMPLETED =>
      unheld r /\ totals items id r /\ left_of id items = 0 /\
      sr_status r = if 0 <? sr_groups_failed r then SyncStatus.FAILED else SyncStatus.COMPLETED
  end.

Record run_sound (items : items_t) (fences : gmap string Z) (id : uuid) (r : sync_run) : Prop := {
  rs_attempts : 0 <= sr_attempt_count r <= Runs.MAX_ATTEMPTS /\
    (Runs.is_pending (sr_status r) = true -> sr_attempt_count r < Runs.MAX_ATTEMPTS);
  rs_epoch : Runs.is_running (sr_status r) = true ->
    exists e, sr_sync_epoch r = Some e /\ fences !! sr_session_id r = Some e;
  rs_phase : in_phase items id r }.

Record item_sound (i : sync_item) : Prop := {
  is_attempts : 0 <= si_attempt_count i <= GATEWAY_SYNC_ITEM_MAX_ATTEMPTS cfg;
  is_waiting : Items.is_open (si_status i) = true ->
    si_attempt_count i < GATEWAY_SYNC_ITEM_MAX_ATTEMPTS cfg;
  is_leased : if Items.is_running (si_status i)
    then si_lease_token i <> None /\ si_lease_expires_at i <> None
    else si_lease_token i = None /\ si_lease_expires_at i = None }.

Record sound (runs : runs_t) (items : items_t) (fences : gmap string Z) : Prop := {
  so_one : forall id1 r1 id2 r2, runs !! id1 = Some r1 -> runs !! id2 = Some r2 ->
    Runs.is_active (sr_status r1) = true -> Runs.is_active (sr_status r2) = true ->
    sr_session_id r1 = sr_session_id r2 -> id1 = id2;
  so_run : forall id r, runs !! id = Some r -> run_sound items fences id r;
  so_item : forall k i, items !! k = Some i -> item_sound i /\
    exists r, runs !! si_sync_run_id i = Some r /\ sr_session_id r = si_session_id i }.

Definition sound_db (d : gdb) : Prop :=
  sound (sync_runs d) (gateway_sync_items d) (gateway_sync_fences d).

Context (Hcfg : valid_gateway_config cfg = true).

Lemma active_running s : Runs.is_running s = true -> Runs.is_active s = true.
Proof. by destruct s. Qed.
Lemma active_pending s : Runs.is_pending s = true -> Runs.is_active s = true.
Proof. by destruct s. Qed.

(** *** Statements on runs *)

(** Statements that rewrite runs whose discovery is not published *)
Lemma sound_runs runs items fences runs' fences' : sound runs items fences ->
  (forall id, is_Some (runs !! id) -> is_Some (runs' !! id)) ->
  (forall id r', runs' !! id = Some r' -> exists r, runs !! id = Some r /\
     sr_session_id r' = sr_session_id r /\
     (Runs.is_active (sr_status r') = true -> Runs.is_active (sr_status r) = true) /\
     run_sound items fences' id r') ->
  sound runs' items fences'.
Proof.
  intros [Hone Hrun Hitem] Hdom Hr. split.
  - intros id1 r1 id2 r2 H1 H2 A1 A2 Hs.
    destruct (Hr _ _ H1) as (q1 & Q1 & S1 & B1 & _), (Hr _ _ H2) as (q2 & Q2 & S2 & B2 & _).
    eapply Hone; eauto. congruence.
  - intros id r H. by destruct (Hr _ _ H) as (_ & _ & _ & _ & ?).
  - intros k i Hi. destruct (Hitem _ _ Hi) as [Hs (r & Hl & He)]. split; [done|].
    destruct (Hdom (si_sync_run_id i)) as [r' Hr']; [by eexists|].
    exists r'. split; [done|]. destruct (Hr _ _ Hr') as (q & Q & S & _). congruence.
Qed.

(** One row, or the rows that satisfy a condition *)
Lemma sound_update_row runs items fences id W f : sound runs items fences ->
  (forall r, runs !! id = Some r -> W r = true -> run_sound items fences id r ->
     sr_session_id (f r) = sr_session_id r /\
     (Runs.is_active (sr_status (f r)) = true -> Runs.is_active (sr_status r) = true) /\
     run_sound items fences id (f r)) ->
  sound (update_row id W f runs).2 items fences.
Proof.
  intros Hs Hf. apply (sound_runs runs items fences); [done| |].
  - intros id' H. by rewrite lookup_update_row, fmap_is_Some.
  - intros id' r'. rewrite lookup_update_row. destruct (runs !! id') as [r|] eqn:E; [|done]. cbn.
    pose proof (so_run _ _ _ Hs _ _ E) as Hsound.
    destruct (bool_decide (id' = id) && W r) eqn:Eb; intros [= <-]; exists r; [|done].
    split_bool. subst. split; [done|]. by apply Hf.
Qed.

Lemma sound_update_where runs items fences P f : sound runs items fences ->
  (forall id r, runs !! id = Some r -> P id r = true -> run_sound items fences id r ->
     sr_session_id (f r) = sr_session_id r /\
     (Runs.is_active (sr_status (f r)) = true -> Runs.is_active (sr_status r) = true) /\
     run_sound items fences id (f r)) ->
  sound (update_where P f runs) items fences.
Proof.
  intros Hs Hf. apply (sound_runs runs items fences); [done| |].
  - intros id' H. by rewrite lookup_update_where, fmap_is_Some.
  - intros id' r' (r & E & ->)%update_where_Some. exists r. split; [done|].
    pose proof (so_run _ _ _ Hs _ _ E). destruct (P id' r) eqn:Eb; [by apply Hf|done].
Qed.

(** A run that holds a lease is discovering. *)
Lemma leased_discovering items id r now token : in_phase items id r -> Runs.leased now token r = true ->
  sr_phase r = SyncPhase.DISCOVERING /\ (forall k i, items !! k = Some i -> si_sync_run_id i <> id) /\ zeroed r.
Proof.
  unfold Runs.leased, in_phase. intros Hp H. split_bool. destruct (sr_phase r).
  - rewrite H in Hp. by destruct Hp as (? & ? & ? & ?).
  - destruct Hp as (_ & [Ht _] & _). congruence.
  - destruct Hp as ([Ht _] & _). congruence.
Qed.

Lemma expired_discovering items id r now : in_phase items id r -> Runs.expired now id r = true ->
  sr_phase r = SyncPhase.DISCOVERING /\ (forall k i, items !! k = Some i -> si_sync_run_id i <> id).
Proof.
  unfold Runs.expired, in_phase. intros Hp H. split_bool. destruct (sr_phase r).
  - by destruct Hp.
  - destruct Hp as (_ & [_ He] & _). by rewrite He in *.
  - destruct Hp as ([_ He] & _). by rewrite He in *.
Qed.

(** The end of an attempt, for [recoverExpired] and [failAttempt] *)
Lemma sound_end_attempt items fences id r r' now error at_ :
  r' = Runs.end_attempt now error at_ r \/
  (exists g m, r' = (Runs.end_attempt now error at_ r) <| sr_groups_synced := g |> <| sr_members_synced := m |>) ->
  run_sound items fences id r -> Runs.is_running (sr_status r) = true ->
  sr_phase r = SyncPhase.DISCOVERING -> (forall k i, items !! k = Some i -> si_sync_run_id i <> id) ->
  sr_session_id r' = sr_session_id r /\
  (Runs.is_active (sr_status r') = true -> Runs.is_active (sr_status r) = true) /\
  run_sound items fences id r'.
Proof.
  intros Hr' [Hat _ _] Hrun Hph Hno.
  assert (Ha : Runs.is_active (sr_status r) = true) by by apply active_running.
  unfold Runs.end_attempt in Hr'. destruct (Runs.MAX_ATTEMPTS <=? sr_attempt_count r) eqn:E;
    destruct Hr' as [->|(g & m & ->)]; split_bool;
    (split; [done|split; [done|]]); split;
    solve [ cbn; split; [lia|intros; done || lia] | done | unfold in_phase; cbn; rewrite Hph; by split ].
Qed.

Lemma run_sound_fences items fences fences' id r :
  (Runs.is_running (sr_status r) = true -> fences' !! sr_session_id r = fences !! sr_session_id r) ->
  run_sound items fences id r -> run_sound items fences' id r.
Proof.
  intros Hf [H1 H2 H3]. split; [done| |done]. intros Hr. rewrite Hf by done. by apply H2.
Qed.

Lemma sound_create now id s mode d : sync_runs d !! id = None -> sound_db d ->
  sound_db (Runs.create now id s mode d).2.
Proof.
  intros Hid Hs. unfold Runs.create.
  destruct (head (order_by Runs.by_requested (select_where (Runs.active_of s) (sync_runs d))))
    as [[id0 r0]|] eqn:Eh; [by case_bool_decide|].
  assert (Hno : forall id' r, sync_runs d !! id' = Some r -> Runs.active_of s id' r = false).
  { intros id' r Hl. destruct (Runs.active_of s id' r) eqn:Ea; [|done]. exfalso.
    assert (Hin : (id', r) ∈ order_by Runs.by_requested (select_where (Runs.active_of s) (sync_runs d))).
    { by apply order_by_elem, select_where_elem. }
    destruct (order_by _ _); [by apply not_elem_of_nil in Hin|done]. }
  destruct Hs as [Hone Hrun Hitem]. unfold sound_db. cbn. split.
  - intros id1 r1 id2 r2 [[<- <-]|[N1 H1]]%lookup_insert_Some [[<- <-]|[N2 H2]]%lookup_insert_Some A1 A2 E;
      [done| | |by eauto]; exfalso.
    + specialize (Hno _ _ H2). unfold Runs.active_of in Hno. cbn in E.
      rewrite A2, bool_decide_true in Hno by done. done.
    + specialize (Hno _ _ H1). unfold Runs.active_of in Hno. cbn in E.
      rewrite A1, bool_decide_true in Hno by done. done.
  - intros id' r [[<- <-]|[N1 H1]]%lookup_insert_Some; [|by apply Hrun].
    split; [done|done|]. unfold in_phase. cbn. split; [|done].
    intros k i Hi He. destruct (Hitem _ _ Hi) as [_ (r & Hl & _)]. rewrite He in Hl. congruence.
  - intros k i Hi. destruct (Hitem _ _ Hi) as [H1 (r & Hl & He)]. split; [done|].
    exists r. split; [|done]. rewrite lookup_insert_ne; [done|]. intros ->. congruence.
Qed.

Lemma sound_recover_runs now d : sound_db d -> sound_db (Runs.recoverExpired now d).2.
Proof.
  intros Hs. apply sound_update_where; [done|]. intros id r Hl He Hr.
  destruct (expired_discovering _ _ _ _ (rs_phase _ _ _ _ Hr) He).
  unfold Runs.expired in He. split_bool.
  apply (sound_end_attempt _ _ _ r _ now "Recovered expired sync lease" now); [by left|done..].
Qed.

(** A claim either leaves the runs and the epochs that exist alone or starts one run. *)
Lemma claim_run_cases now token id d answer d' : Runs.claim now token id d = (answer, d') ->
  gateway_sync_items d' = gateway_sync_items d /\
  match answer with
  | None => sync_runs d' = sync_runs d /\
      forall s e, gateway_sync_fences d !! s = Some e -> gateway_sync_fences d' !! s = Some e
  | Some cl => exists r, sync_runs d !! id = Some r /\ Runs.is_pending (sr_status r) = true /\
      sr_attempt_count r < Runs.MAX_ATTEMPTS /\
      (forall id' q, sync_runs d !! id' = Some q -> sr_session_id q = sr_session_id r ->
         Runs.is_running (sr_status q) = false) /\
      Runs.cs_sessionId cl = sr_session_id r /\
      Runs.cs_syncEpoch cl = default 0 (gateway_sync_fences d !! sr_session_id r) + 1 /\
      sync_runs d' = <[id := Runs.claim_row now token (Runs.cs_syncEpoch cl) r]> (sync_runs d) /\
      gateway_sync_fences d' = <[sr_session_id r := Runs.cs_syncEpoch cl]>
        (insert_absent (sr_session_id r) 0 (gateway_sync_fences d))
  end.
Proof.
  unfold Runs.claim. destruct (sync_runs d !! id) as [r|] eqn:El; [|by intros [= <- <-]].
  cbn [gateway_sync_fences sync_runs upd].
  destruct (update_row_cases id (Runs.claimable now
      (d <| gateway_sync_fences := insert_absent (sr_session_id r) 0 (gateway_sync_fences d) |>))
    (Runs.claim_row now token (default 0 (insert_absent (sr_session_id r) 0 (gateway_sync_fences d)
      !! sr_session_id r) + 1)) (sync_runs d)) as [(v & Hv & Hw & ->)|[_ ->]].
  - intros [= <- <-]. split; [done|]. exists r. rewrite El in Hv. injection Hv as <-.
    unfold Runs.claimable in Hw. split_bool.
    assert (He : default 0 (insert_absent (sr_session_id r) 0 (gateway_sync_fences d) !! sr_session_id r)
                 = default 0 (gateway_sync_fences d !! sr_session_id r)).
    { rewrite insert_absent_lookup, bool_decide_true by done. by destruct (gateway_sync_fences d !! sr_session_id r). }
    match goal with H : exists_where _ _ = false |- _ => rewrite exists_where_false in H; rename H into Hx end.
    split_and!; try done.
    + intros id' q Hq Hse. specialize (Hx _ _ Hq). rewrite bool_decide_true in Hx by done. done.
    + cbn. by rewrite He.
  - intros [= <- <-]. split; [done|]. split; [done|]. cbn. intros s e H.
    rewrite insert_absent_lookup. by rewrite H.
Qed.

Lemma sound_claim_run now token id d : sound_db d -> sound_db (Runs.claim now token id d).2.
Proof.
  intros Hs. destruct (Runs.claim now token id d) as [answer d'] eqn:E. cbn.
  destruct (claim_run_cases _ _ _ _ _ _ E) as [Hitems H]. unfold sound_db. rewrite Hitems.
  destruct answer as [cl|].
  - destruct H as (r & Hl & Hp & Hat & Hno & _ & _ & -> & ->).
    pose proof (so_run _ _ _ Hs _ _ Hl) as [Hra _ Hph].
    apply (sound_runs (sync_runs d) _ (gateway_sync_fences d)); [done| |].
    { intros id' [q Hq]. destruct (decide (id' = id)) as [->|Hne];
        [rewrite lookup_insert_eq|rewrite lookup_insert_ne by done; rewrite Hq]; by eexists. }
    intros id' r' [[<- <-]|[Hne Hq]]%lookup_insert_Some.
    + exists r. split; [done|]. split; [done|]. split; [intros _; by apply active_pending|].
      split; [cbn; split; [lia|done]|intros _; eexists; split; [done|]; cbn; by rewrite lookup_insert_eq|].
      unfold in_phase in *. cbn. destruct (sr_phase r); [|by destruct Hph as (Hst & _); rewrite Hst in Hp|].
      * destruct Hph as [Hn _]. split; [done|]. unfold zeroed. cbn. by split_and!.
      * destruct Hph as (_ & _ & _ & Hst). rewrite Hst in Hp. by destruct (0 <? _).
    + exists r'. split; [done|]. split; [done|]. split; [done|].
      apply (run_sound_fences _ (gateway_sync_fences d)); [|by apply (so_run _ _ _ Hs)].
      intros Hrun. destruct (decide (sr_session_id r' = sr_session_id r)) as [He|He].
      * rewrite (Hno _ _ Hq He) in Hrun. done.
      * rewrite lookup_insert_ne by done. rewrite insert_absent_lookup, bool_decide_false by done.
        by destruct (gateway_sync_fences d !! sr_session_id r').
  - destruct H as [-> Hf]. destruct Hs as [H1 H2 H3]. split; [done| |done].
    intros id' r Hl. destruct (H2 _ _ Hl) as [A B C]. split; [done| |done].
    intros Hr. destruct (B Hr) as (e & He & Hfe). exists e. auto.
Qed.

(** Renewing, completing and failing act on the run that holds the lease. *)
Lemma sound_renew_run now id token d : sound_db d -> sound_db (Runs.renewLease now id token d).2.
Proof.
  intros Hs. unfold Runs.renewLease. destruct (update_row _ _ _ _) as [row t'] eqn:E.
  unfold sound_db. cbn. replace t' with (row, t').2 by done. rewrite <- E.
  apply sound_update_row; [done|]. intros r Hl Hw Hr.
  destruct (leased_discovering _ _ _ _ _ (rs_phase _ _ _ _ Hr) Hw) as (Hph & Hno & Hz).
  split; [done|]. split; [done|]. destruct Hr as [A B C]. split; [done|done|].
  unfold in_phase in *. cbn. rewrite Hph in *. split; [done|]. unfold Runs.leased in Hw. split_bool.
  match goal with H : Runs.is_running _ = true |- _ => rewrite H in C |- * end.
  destruct C as (_ & C1 & _). by split.
Qed.

Lemma sound_complete_run now id token g m d : sound_db d -> sound_db (Runs.complete now id token g m d).2.
Proof.
  intros Hs. unfold Runs.complete. destruct (update_row _ _ _ _) as [row t'] eqn:E.
  unfold sound_db. cbn. replace t' with (row, t').2 by done. rewrite <- E.
  apply sound_update_row; [done|]. intros r Hl Hw Hr.
  destruct (leased_discovering _ _ _ _ _ (rs_phase _ _ _ _ Hr) Hw) as (Hph & Hno & Hz).
  split; [done|]. split; [done|]. destruct Hr as [A B C]. split; [by split; [apply A|]|done|].
  unfold in_phase in *. cbn. rewrite Hph in *. by split.
Qed.

Lemma sound_fail_run now id token g m error d : sound_db d ->
  sound_db (Runs.failAttempt now id token g m error d).2.
Proof.
  intros Hs. unfold Runs.failAttempt. destruct (update_row _ _ _ _) as [row t'] eqn:E.
  unfold sound_db. cbn. replace t' with (row, t').2 by done. rewrite <- E.
  apply sound_update_row; [done|]. intros r Hl Hw Hr.
  destruct (leased_discovering _ _ _ _ _ (rs_phase _ _ _ _ Hr) Hw) as (Hph & Hno & Hz).
  unfold Runs.leased in Hw. split_bool.
  apply (sound_end_attempt _ _ _ r _ now error (now + Runs.backoff_ms (sr_attempt_count r)));
    [right; by exists g, m|done..].
Qed.

(** *** Statements on items *)

(** Recounting the runs [Rs] *)
Definition recount (now : timestamp) (Rs : list uuid) (items : items_t) (runs : runs_t) : runs_t :=
  foldl (fun t id => (update_row id (fun _ => true) (Items.parent_row now id items) t).2) runs Rs.

Lemma lookup_recount now Rs items runs id : NoDup Rs ->
  recount now Rs items runs !! id =
    (fun r => if mem id Rs then Items.parent_row now id items r else r) <$> runs !! id.
Proof.
  unfold recount. intros Hnd. revert runs. induction Hnd as [|x Rs Hx Hnd IH]; intros runs; cbn.
  { by destruct (runs !! id). }
  rewrite IH, lookup_update_row. destruct (runs !! id) as [r|]; [|done]. cbn. f_equal.
  unfold mem. cbn. destruct (decide (id = x)) as [->|Hne].
  - rewrite bool_decide_true by done. cbn. fold (mem x Rs).
    by rewrite (proj2 (mem_false x Rs) Hx).
  - by rewrite bool_decide_false.
Qed.

Lemma foldl_refreshParent now Rs d :
  foldl (fun d id => Items.refreshParent now id (gateway_sync_items d) d) d Rs =
  d <| sync_runs := recount now Rs (gateway_sync_items d) (sync_runs d) |>.
Proof.
  revert d. induction Rs as [|x Rs IH]; intros d; cbn; [by destruct d|]. rewrite IH. by destruct d.
Qed.

Lemma counted_nonneg id P (t : items_t) : 0 <= Items.counted id P t.
Proof. apply count_where_nonneg. Qed.

Lemma totals_alike Rs id r (t t' : items_t) : id ∉ Rs -> (forall k, alike Rs (t !! k) (t' !! k)) ->
  totals t id r -> totals t' id r.
Proof.
  intros Hid Ha. unfold totals. rewrite (members_alike Rs id t t') by done.
  rewrite !(counted_alike Rs id _ t t'); [done|done|done|done|..]; try done;
    intros i i'; unfold Items.has_status; by destruct (si_status i), (si_status i').
Qed.

Lemma left_alike Rs id (t t' : items_t) : id ∉ Rs -> (forall k, alike Rs (t !! k) (t' !! k)) ->
  left_of id t' = left_of id t.
Proof. intros Hid Ha. apply (counted_alike Rs); [done|done|]. by intros i i' -> ->. Qed.

(** An item that waits or runs belongs to a run that is reconciling. *)
Lemma remaining_reconciling runs items fences k i : sound runs items fences -> items !! k = Some i ->
  Items.remaining (si_status i) = true -> exists r, runs !! si_sync_run_id i = Some r /\
    sr_phase r = SyncPhase.RECONCILING /\ sr_session_id r = si_session_id i.
Proof.
  intros Hs Hi Hrem. destruct (so_item _ _ _ Hs _ _ Hi) as [_ (r & Hl & He)]. exists r.
  split; [done|]. split; [|done]. pose proof (rs_phase _ _ _ _ (so_run _ _ _ Hs _ _ Hl)) as Hp.
  unfold in_phase in Hp. destruct (sr_phase r); [|done|].
  - destruct Hp as [Hno _]. by destruct (Hno _ _ Hi).
  - destruct Hp as (_ & _ & H0 & _). unfold left_of, Items.counted in H0. rewrite count_where_zero in H0.
    specialize (H0 _ _ Hi). by rewrite bool_decide_true, Hrem in H0.
Qed.

Lemma parent_in_phase now id items r : sr_status r = SyncStatus.RUNNING -> unheld r ->
  sr_groups_scheduled r = Items.counted id (fun _ => true) items ->
  in_phase items id (Items.parent_row now id items r).
Proof.
  intros Hst Hun Hsch. unfold in_phase, Items.parent_row, totals. cbn. fold (left_of id items).
  pose proof (counted_nonneg id (fun i => Items.remaining (si_status i)) items) as Hnn.
  fold (left_of id items) in Hnn.
  destruct (left_of id items =? 0) eqn:E; split_bool.
  - rewrite E. by split_and!.
  - assert (0 < left_of id items) by lia.
    replace (0 <? left_of id items) with true by (symmetry; by apply Z.ltb_lt). by split_and!.
Qed.

Lemma sound_items runs items items' fences now Rs : sound runs items fences -> NoDup Rs ->
  (forall k, alike Rs (items !! k) (items' !! k)) ->
  (forall k i', items' !! k = Some i' -> item_sound i' /\
     exists i, items !! k = Some i /\ si_sync_run_id i' = si_sync_run_id i /\
       si_session_id i' = si_session_id i) ->
  (forall id, id ∈ Rs -> exists r, runs !! id = Some r /\ sr_phase r = SyncPhase.RECONCILING) ->
  sound (recount now Rs items' runs) items' fences.
Proof.
  intros Hs Hnd Ha Hi HRs.
  assert (Hall : forall id, Items.counted id (fun _ => true) items' = Items.counted id (fun _ => true) items).
  { intros id. apply select_keys_ext. intros k. split.
    - intros (i' & Hl & Hb). destruct (Hi _ _ Hl) as (_ & i & Hl' & Hr & _). exists i. by rewrite <- Hr.
    - intros (i & Hl & Hb). specialize (Ha k). rewrite Hl in Ha.
      destruct (items' !! k) as [i'|] eqn:El; [|by inversion Ha].
      destruct (Hi _ _ El) as (_ & j & Hj & Hr & _). exists i'. split; [done|]. rewrite Hr.
      rewrite Hl in Hj. by injection Hj as <-. }
  assert (Hkeep : forall id r, runs !! id = Some r -> exists r', recount now Rs items' runs !! id = Some r' /\
    sr_session_id r' = sr_session_id r).
  { intros id r Hl. rewrite lookup_recount, Hl by done. cbn. eexists. split; [done|].
    by destruct (mem id Rs). }
  assert (Hrow : forall id r', recount now Rs items' runs !! id = Some r' -> exists r,
    runs !! id = Some r /\ sr_session_id r' = sr_session_id r /\
    (Runs.is_active (sr_status r') = true -> Runs.is_active (sr_status r) = true) /\
    run_sound items' fences id r').
  { intros id r'. rewrite lookup_recount by done. destruct (runs !! id) as [r|] eqn:El; [|done]. cbn.
    pose proof (so_run _ _ _ Hs _ _ El) as [A B C].
    destruct (mem id Rs) eqn:Em; intros [= <-]; exists r; (split; [done|]).
    - apply mem_true in Em. destruct (HRs _ Em) as (q & Hq & Hph). rewrite El in Hq. injection Hq as <-.
      unfold in_phase in C. rewrite Hph in C. destruct C as (Hst & Hun & Htot & Hleft).
      split; [done|]. split; [intros _; by rewrite Hst|].
      split; [|intros _; cbn; apply B; by rewrite Hst|].
      + split; [apply A|]. cbn. rewrite Hst.
        destruct (0 <? _); [done|]. by destruct (0 <? _).
      + apply parent_in_phase; [done|done|]. rewrite Hall. apply Htot.
    - apply mem_false in Em. split; [done|]. split; [done|]. split; [done|done|].
      unfold in_phase in *. rewrite (left_alike Rs id items items') by done. destruct (sr_phase r).
      + destruct C as [Hno C]. split; [|done]. intros k i' Hl.
        destruct (Hi _ _ Hl) as (_ & i & Hl' & Hr & _). rewrite Hr. by eapply Hno.
      + destruct C as (C1 & C2 & C3 & C4). split_and!; try done. by eapply totals_alike.
      + destruct C as (C1 & C2 & C3). split_and!; try done; try apply C3. by eapply totals_alike. }
  split.
  - intros id1 r1 id2 r2 H1 H2 A1 A2 E.
    destruct (Hrow _ _ H1) as (q1 & Q1 & S1 & B1 & _), (Hrow _ _ H2) as (q2 & Q2 & S2 & B2 & _).
    apply (so_one _ _ _ Hs _ _ _ _ Q1 Q2); auto. congruence.
  - intros id r H. by destruct (Hrow _ _ H) as (_ & _ & _ & _ & ?).
  - intros k i' Hl. destruct (Hi _ _ Hl) as (Hsnd & i & Hl' & Hr & Hse). split; [done|].
    destruct (so_item _ _ _ Hs _ _ Hl') as [_ (r & Hrl & He)].
    destruct (Hkeep _ _ Hrl) as (r' & Hr' & Hs'). rewrite Hr. exists r'. split; [done|]. congruence.
Qed.

(** What a statement does to the row of an item *)
Definition same_item (i i' : sync_item) : Prop :=
  si_sync_run_id i' = si_sync_run_id i /\ si_session_id i' = si_session_id i.

(** A waiting or running item keeps being one. *)
Lemma sound_touch runs items fences k W f : sound runs items fences ->
  (forall i, items !! k = Some i -> W i = true -> item_sound i ->
     Items.remaining (si_status i) = true /\ Items.remaining (si_status (f i)) = true /\
     same_item i (f i) /\ item_sound (f i)) ->
  sound runs (update_row k W f items).2 fences.
Proof.
  intros Hs Hf. apply (sound_items runs items _ fences 0 [] Hs); [constructor| | |].
  - intros k'. rewrite lookup_update_row. destruct (items !! k') as [i|] eqn:E; [|constructor]. cbn.
    destruct (_ && _) eqn:Eb; [|constructor]. split_bool. subst k'.
    destruct (Hf i) as (H1 & H2 & [H3 _] & _); [done|done|by apply (so_item _ _ _ Hs _ _ E)|].
    by apply alike_open.
  - intros k' i'. rewrite lookup_update_row. destruct (items !! k') as [i|] eqn:E; [|done]. cbn.
    pose proof (proj1 (so_item _ _ _ Hs _ _ E)) as Hi.
    destruct (bool_decide (k' = k) && W i) eqn:Eb; intros [= <-]; [|split; [done|by exists i]].
    split_bool. subst k'. destruct (Hf i) as (_ & _ & [H3 H4] & H5); [done..|].
    split; [done|by exists i].
  - intros id H. by apply not_elem_of_nil in H.
Qed.

(** A running item ends or is returned, and its run is recounted. *)
Lemma sound_settle now runs items fences k i i' : sound runs items fences -> items !! k = Some i ->
  Items.remaining (si_status i) = true -> same_item i i' -> item_sound i' ->
  sound (recount now [si_sync_run_id i] (<[k := i']> items) runs) (<[k := i']> items) fences.
Proof.
  intros Hs Hi Hrem [Hr Hse] Hi'. apply (sound_items runs items); [done|apply NoDup_singleton| | |].
  - intros k'. destruct (decide (k' = k)) as [->|Hne].
    + rewrite lookup_insert_eq, Hi. apply alike_in; [done|by left].
    + rewrite lookup_insert_ne by done. constructor.
  - intros k' j [[<- <-]|[Hne Hl]]%lookup_insert_Some.
    + split; [done|]. by exists i.
    + split; [by apply (so_item _ _ _ Hs _ _ Hl)|by exists j].
  - intros id ->%list_elem_of_singleton. destruct (remaining_reconciling _ _ _ _ _ Hs Hi Hrem)
      as (r & Hl & Hph & _). by exists r.
Qed.

Lemma item_leased_running now token i : Fence.item_leased now token i = true ->
  si_status i = ItemStatus.RUNNING.
Proof. unfold Fence.item_leased. intros H. by split_bool. Qed.

Lemma sound_claim_item now token id d : sound_db d -> sound_db (Items.claim cfg now token id d).2.
Proof.
  intros Hs. unfold Items.claim. destruct (Items.candidate id d) as [[row r]|]; [|done].
  destruct (Pacing.readyAndRate _ _ _ _) as [rate|]; [|done]. cbn [gateway_sync_items upd].
  destruct (update_row _ _ _ _) as [won t'] eqn:E. destruct won as [i|]; [|done].
  unfold sound_db. cbn. replace t' with (Some i, t').2 by done. rewrite <- E.
  apply sound_touch; [done|]. intros j Hj Hw [A B C]. unfold Items.claimable in Hw. split_bool.
  unfold Items.remaining.
  match goal with H : Items.is_open _ = true |- _ => rewrite H end. split; [done|]. split; [done|]. split; [done|].
  split; cbn; [lia|done|done].
Qed.

Lemma sound_renewed i now : item_sound i -> si_status i = ItemStatus.RUNNING -> item_sound (Items.extend now i).
Proof. intros [A B C] Hr. rewrite Hr in C. split; cbn; [done|done|]. rewrite Hr. by split; [apply C|]. Qed.

Lemma sound_renew_item now id token d : sound_db d -> sound_db (Items.renewLease now id token d).2.
Proof.
  intros Hs. unfold Items.renewLease. destruct (update_row _ _ _ _) as [row t'] eqn:E.
  destruct row as [i|]; [|done]. destruct (Pacing.renew _ _ _ _) as [ok l']. destruct ok; [|done].
  unfold sound_db. cbn. replace t' with (Some i, t').2 by done. rewrite <- E.
  apply sound_touch; [done|]. intros j Hj Hw%item_leased_running Hi.
  cbn. rewrite Hw. split; [done|]. split; [done|]. split; [done|by apply sound_renewed].
Qed.

Lemma sound_renew_fence now fence d : sound_db d -> sound_db (Items.renewFence now fence d).2.
Proof.
  intros Hs. unfold Items.renewFence. destruct (update_row _ _ _ _) as [row t'] eqn:E.
  destruct (Pacing.renew_write _ _ _ _) as [ok l']. destruct (_ && _); [|done].
  unfold sound_db. cbn. replace t' with (row, t').2 by done. rewrite <- E.
  apply sound_touch; [done|]. intros j Hj Hw Hi. split_bool.
  assert (Hr : si_status j = ItemStatus.RUNNING) by by destruct (si_status j).
  cbn. rewrite Hr. split; [done|]. split; [done|]. split; [done|by apply sound_renewed].
Qed.

Lemma sound_ended i i' : item_sound i -> si_attempt_count i' = si_attempt_count i ->
  Items.remaining (si_status i') = false -> si_lease_token i' = None -> si_lease_expires_at i' = None ->
  item_sound i'.
Proof.
  intros [A B C] H1 H2 H3 H4. unfold Items.remaining in H2. split_bool.
  split; [by rewrite H1|congruence|]. match goal with H : Items.is_running _ = false |- _ => by rewrite H end.
Qed.

Lemma reconciled_tables i d : sync_runs (Items.reconciled i d) = sync_runs d /\
  gateway_sync_items (Items.reconciled i d) = gateway_sync_items d /\
  gateway_sync_fences (Items.reconciled i d) = gateway_sync_fences d.
Proof. unfold Items.reconciled. by destruct (gateway_groups (core d) !! _). Qed.

Lemma sound_complete_item now id token m d : sound_db d -> sound_db (Items.complete cfg now id token m d).2.
Proof.
  intros Hs. unfold Items.complete. destruct (update_row _ _ _ _) as [row t'] eqn:E.
  destruct row as [i'|]; [|done]. apply update_row_Some in E as (i & Hl & Hw & -> & ->).
  apply item_leased_running in Hw. cbn [snd].
  match goal with |- context [Items.reconciled ?i ?d] => destruct (reconciled_tables i d) as (Er & Ei & Ef) end.
  unfold sound_db. cbn. rewrite Er, Ei, Ef. cbn.
  refine (sound_settle now _ _ _ _ i _ Hs Hl _ _ _); [by rewrite Hw|done|].
  by apply (sound_ended i); [apply (so_item _ _ _ Hs _ _ Hl)|..].
Qed.

Lemma sound_skip_item now id token error d : sound_db d -> sound_db (Items.skip now id token error d).2.
Proof.
  intros Hs. unfold Items.skip. destruct (update_row _ _ _ _) as [row t'] eqn:E.
  destruct row as [i'|]; [|done]. apply update_row_Some in E as (i & Hl & Hw & -> & ->).
  apply item_leased_running in Hw. unfold sound_db. cbn.
  refine (sound_settle now _ _ _ _ i _ Hs Hl _ _ _); [by rewrite Hw|done|].
  by apply (sound_ended i); [apply (so_item _ _ _ Hs _ _ Hl)|..].
Qed.

Lemma sound_fail_item now j j' id token error p d : sound_db d ->
  sound_db (Items.fail cfg now j j' id token error p d).2.
Proof.
  intros Hs. unfold Items.fail. destruct (gateway_sync_items d !! id) as [i|] eqn:Hl; [|done].
  destruct (Fence.item_leased now token i) eqn:Hw; [|done]. apply item_leased_running in Hw.
  unfold sound_db. cbn. refine (sound_settle now _ _ _ _ i _ Hs Hl _ _ _); [by rewrite Hw|done|].
  destruct (proj1 (so_item _ _ _ Hs _ _ Hl)) as [A B C].
  destruct (fp_retryable p && _) eqn:Er; split; cbn; try done; split_bool; lia.
Qed.

Lemma sound_recover_items now d : sound_db d -> sound_db (Items.recoverExpired cfg now d).2.
Proof.
  intros Hs. destruct (valid_config_events _ Hcfg) as [_ Hmax].
  unfold Items.recoverExpired. cbn [snd]. rewrite foldl_refreshParent. unfold sound_db. cbn.
  apply (sound_items (sync_runs d) (gateway_sync_items d)); [done|apply NoDup_remove_dups| | |].
  - intros k. rewrite lookup_update_where. destruct (gateway_sync_items d !! k) as [i|] eqn:E; [|constructor].
    cbn. destruct (Items.expired now k i) eqn:Ee; [|constructor]. apply alike_in; [done|].
    apply elem_of_remove_dups, list_elem_of_In, in_map_iff. exists (k, i). split; [done|].
    by apply list_elem_of_In, select_where_elem.
  - intros k i' (i & E & ->)%update_where_Some. pose proof (proj1 (so_item _ _ _ Hs _ _ E)) as Hi.
    destruct (Items.expired now k i) eqn:Ee; [|split; [done|by exists i]].
    split; [|by exists i]. destruct Hi as [A B C]. unfold Items.recover_row.
    destruct (GATEWAY_SYNC_ITEM_MAX_ATTEMPTS cfg <=? si_attempt_count i) eqn:Es;
      split; cbn; try done; split_bool; lia.
  - intros id Hid%elem_of_remove_dups%list_elem_of_In%in_map_iff.
    destruct Hid as ([k i] & <- & Hin%list_elem_of_In%select_where_elem). destruct Hin as [Hl He].
    unfold Items.expired in He. split_bool.
    destruct (remaining_reconciling _ _ _ _ _ Hs Hl) as (r & Hr & Hph & _); [|by exists r].
    unfold Items.remaining. match goal with H : Items.is_running _ = true |- _ => rewrite H end.
    apply orb_true_r.
Qed.

(** *** Discovery *)

Definition sel_id (sel : Z * Items.listed * string) : string := Items.ls_id sel.1.2.

Lemma selection_elem_from now s mode d groups n sel :
  sel ∈ omap (fun ng : nat * Items.listed => (fun reason => (Z.of_nat ng.1, ng.2, reason)) <$>
    Items.select_reason cfg sha256 now s mode d ng.2) (zip (seq n (length groups)) groups) <->
  exists j g reason, groups !! j = Some g /\ sel = (Z.of_nat (n + j), g, reason) /\
    Items.select_reason cfg sha256 now s mode d g = Some reason.
Proof.
  rewrite list_elem_of_omap. split.
  - intros ([m g] & Hin & Hf). apply list_elem_of_lookup in Hin as [j Hj].
    apply lookup_zip_with_Some in Hj as (a & b & [= <- <-] & Ha & Hb).
    apply lookup_seq in Ha as [-> _]. cbn in Hf.
    destruct (Items.select_reason _ _ _ _ _ _ g) as [reason|] eqn:Er; [|done].
    injection Hf as <-. by exists j, g, reason.
  - intros (j & g & reason & Hg & -> & Hr). exists ((n + j)%nat, g). split; [|cbn; by rewrite Hr].
    apply list_elem_of_lookup. exists j. apply lookup_zip_with_Some. exists (n + j)%nat, g.
    split; [done|]. split; [|done]. apply lookup_seq. split; [done|]. by eapply lookup_lt_Some.
Qed.

Lemma selection_ids now s mode d groups :
  sublist (map sel_id (Items.selection cfg sha256 now s mode d groups)) (map Items.ls_id groups).
Proof.
  unfold Items.selection. generalize 0%nat. induction groups as [|g groups IH]; intros n; cbn; [constructor|].
  specialize (IH (S n)). destruct (Items.select_reason _ _ _ _ _ _ g) as [reason|]; cbn;
    by constructor.
Qed.

Section Insert.
Context (now : timestamp) (ids : string -> uuid) (R : uuid) (session : string).

Lemma insert_items_lookup sels items : NoDup (map sel_id sels) -> NoDup (map ids (map sel_id sels)) ->
  (forall sel, sel ∈ sels -> items !! ids (sel_id sel) = None) ->
  (forall sel k i, sel ∈ sels -> items !! k = Some i -> si_sync_run_id i = R -> si_group_id i <> sel_id sel) ->
  forall k i, Items.insert_items sha256 now ids R session sels items !! k = Some i <->
    items !! k = Some i \/
    exists sel, sel ∈ sels /\ k = ids (sel_id sel) /\ i = Items.new_item sha256 now R session sel.
Proof.
  revert items. induction sels as [|sel sels IH]; intros items Hn Hi Hf Hr k i; cbn.
  { split; [by left|intros [?|(sel & H & _)]; [done|by apply not_elem_of_nil in H]]. }
  cbn in Hn, Hi. apply NoDup_cons in Hn as [Hn1 Hn2], Hi as [Hi1 Hi2].
  assert (Hins : Items.insert_item sha256 now ids R session items sel =
    <[ids (sel_id sel) := Items.new_item sha256 now R session sel]> items).
  { unfold Items.insert_item.
    replace (exists_where _ items) with false; [done|]. symmetry. apply exists_where_false.
    intros k' j Hl. destruct (decide (si_sync_run_id j = R)) as [He|He].
    - rewrite (bool_decide_false (si_group_id j = _)); [by rewrite andb_false_r|].
      eapply Hr; [by left|done|done].
    - by rewrite bool_decide_false. }
  fold (Items.insert_items sha256 now ids R session). rewrite Hins.
  unfold Items.insert_items in IH. rewrite IH; [|done|done| |].
  - rewrite lookup_insert_Some. split.
    + intros [[[<- <-]|[_ H]]|(x & Hx & Hk & ->)]; [right; exists sel; split_and!; [by left|done|done]|by left|].
      right. exists x. split_and!; [by right|done|done].
    + intros [H|(x & [->|Hx]%elem_of_cons & Hk & ->)].
      * left. right. split; [|done]. intros <-. rewrite Hf in H by by left. done.
      * left. by left.
      * right. by exists x.
  - intros x Hx. rewrite lookup_insert_ne; [apply Hf; by right|]. intros He. apply Hi1. rewrite He.
    by apply list_elem_of_In, in_map, in_map, list_elem_of_In.
  - intros x k' j Hx [[<- <-]|[_ Hl]]%lookup_insert_Some Hrun.
    + cbn. intros He. apply Hn1. unfold sel_id at 1. rewrite He.
      by apply list_elem_of_In, in_map, list_elem_of_In.
    + eapply Hr; [by right|done|done].
Qed.

End Insert.

(** What a published discovery does to the tables *)
Record published (now : timestamp) (ids : string -> uuid) (fence : Fence.sync_fence) (session : string)
    (mode : SyncMode.t) (groups : list Items.listed) (d d' : gdb) : Prop := {
  pb_owned : Items.assertDiscoveryOwnership now fence session d = true;
  pb_items : gateway_sync_items d' = Items.insert_items sha256 now ids (Fence.wf_syncRunId fence) session
    (Items.selection cfg sha256 now session mode d groups) (gateway_sync_items d);
  pb_runs : sync_runs d' = (update_row (Fence.wf_syncRunId fence) (Items.holds (Fence.wf_leaseToken fence))
    (Items.publish_row now (Z.of_nat (length groups))
      (Z.of_nat (length (Items.selection cfg sha256 now session mode d groups)))) (sync_runs d)).2;
  pb_fences : gateway_sync_fences d' = gateway_sync_fences d;
  pb_core : core d' = core (Items.replaceSummaries now session groups d) }.

Lemma set_snapshot_tables session f d :
  sync_runs (Items.set_snapshot session f d) = sync_runs d /\
  gateway_sync_items (Items.set_snapshot session f d) = gateway_sync_items d /\
  gateway_sync_fences (Items.set_snapshot session f d) = gateway_sync_fences d /\
  core (Items.set_snapshot session f d) = core d.
Proof. unfold Items.set_snapshot. by destruct (Items.session_state session d). Qed.

Lemma publish_cases now ids fence session mode groups d answer d' :
  Items.publishDiscovery cfg sha256 now ids fence session mode groups d = (answer, d') ->
  match answer with
  | None => d' = d /\ Items.assertDiscoveryOwnership now fence session d = false
  | Some dc =>
      if Items.dc_deferred dc
      then Items.assertDiscoveryOwnership now fence session d = true /\
        gateway_sync_items d' = gateway_sync_items d /\ gateway_sync_fences d' = gateway_sync_fences d /\
        sync_runs d' = (update_row (Fence.wf_syncRunId fence) (Items.holds (Fence.wf_leaseToken fence))
                          (Items.defer_row now) (sync_runs d)).2
      else published now ids fence session mode groups d d'
  end.
Proof.
  unfold Items.publishDiscovery. destruct (negb _) eqn:Ho; [intros [= <- <-]; by split_bool|].
  apply negb_false_iff in Ho. destruct (_ && _).
  - intros [= <- <-]. cbn [Items.dc_deferred]. cbn.
    match goal with |- context [Items.set_snapshot ?s ?f ?d] =>
      destruct (set_snapshot_tables s f d) as (E1 & E2 & E3 & _) end.
    by rewrite E1, E2, E3.
  - intros [= <- <-]. cbn [Items.dc_deferred].
    match goal with |- context [Items.set_snapshot ?s ?f ?d] =>
      destruct (set_snapshot_tables s f d) as (E1 & E2 & E3 & E4) end.
    split; [done|..]; cbn; rewrite ?E1, ?E2, ?E3, ?E4; done.
Qed.

Lemma owned_discovering now fence session d : sound_db d ->
  Items.assertDiscoveryOwnership now fence session d = true -> exists r,
  sync_runs d !! Fence.wf_syncRunId fence = Some r /\ sr_session_id r = session /\
  sr_status r = SyncStatus.RUNNING /\ Items.holds (Fence.wf_leaseToken fence) r = true /\
  sr_phase r = SyncPhase.DISCOVERING /\ zeroed r /\
  (forall k i, gateway_sync_items d !! k = Some i -> si_sync_run_id i <> Fence.wf_syncRunId fence).
Proof.
  intros Hs. unfold Items.assertDiscoveryOwnership.
  destruct (sync_runs d !! _) as [r|] eqn:El; [|done]. intros Ha. split_bool. exists r.
  match goal with H : Runs.leased _ _ r = true |- _ => rename H into Hlease end.
  destruct (leased_discovering _ _ _ _ _ (rs_phase _ _ _ _ (so_run _ _ _ Hs _ _ El)) Hlease)
    as (Hph & Hno & Hz).
  unfold Runs.leased in Hlease. split_bool. split_and!; try done.
  - by destruct (sr_status r).
  - unfold Items.holds. by apply bool_decide_eq_true.
Qed.

Lemma sound_defer now fence session d r : sound_db d ->
  sync_runs d !! Fence.wf_syncRunId fence = Some r -> sr_session_id r = session ->
  sr_status r = SyncStatus.RUNNING -> sr_phase r = SyncPhase.DISCOVERING ->
  (forall k i, gateway_sync_items d !! k = Some i -> si_sync_run_id i <> Fence.wf_syncRunId fence) ->
  sound (update_row (Fence.wf_syncRunId fence) (Items.holds (Fence.wf_leaseToken fence))
    (Items.defer_row now) (sync_runs d)).2 (gateway_sync_items d) (gateway_sync_fences d).
Proof.
  intros Hs Hl Hse Hst Hph Hno. apply sound_update_row; [done|]. intros q Hq _ [A B C].
  rewrite Hl in Hq. injection Hq as <-. split; [done|]. split; [intros _; by rewrite Hst|].
  unfold Runs.MAX_ATTEMPTS in *. split; [cbn; unfold Runs.MAX_ATTEMPTS; split; [lia|intros; lia]|done|].
  unfold in_phase. cbn. rewrite Hph. by split.
Qed.

(** New items of the run [R], which was discovering *)
Lemma sound_publish_row now d R token items' n r count : sound_db d ->
  (forall k i, items' !! k = Some i -> gateway_sync_items d !! k = Some i \/
     (si_sync_run_id i = R /\ si_session_id i = sr_session_id r /\ item_sound i)) ->
  (forall k, alike [R] (gateway_sync_items d !! k) (items' !! k)) ->
  totals items' R (r <| sr_groups_scheduled := n |>) -> left_of R items' = n ->
  sync_runs d !! R = Some r -> sr_status r = SyncStatus.RUNNING -> sr_groups_failed r = 0 ->
  Items.holds token r = true ->
  sound (update_row R (Items.holds token) (Items.publish_row now count n) (sync_runs d)).2
    items' (gateway_sync_fences d).
Proof.
  intros Hs Hitems Halike Htot Hleft Hl Hst Hz Hh.
  assert (Hnn : 0 <= n) by (rewrite <- Hleft; apply counted_nonneg).
  assert (Hother : forall id q, id <> R -> in_phase (gateway_sync_items d) id q -> in_phase items' id q).
  { intros id q Hne C. assert (HR : id ∉ [R]) by by intros ->%list_elem_of_singleton.
    unfold in_phase in *. rewrite (left_alike [R] id _ items' HR Halike). destruct (sr_phase q).
    - destruct C as [Hn C]. split; [|done].
      intros k i [H|(H & _)]%Hitems; [by eapply Hn|congruence].
    - destruct C as (C1 & C2 & C3 & C4). split; [done|]. split; [done|]. split; [|done].
      by apply (totals_alike [R] id q _ items' HR Halike).
    - destruct C as (C1 & C2 & C3). split; [done|]. split; [|done].
      by apply (totals_alike [R] id q _ items' HR Halike). }
  assert (Hphase : in_phase items' R (Items.publish_row now count n r)).
  { unfold in_phase, Items.publish_row. cbn. fold (left_of R items'). rewrite Hleft.
    destruct (n =? 0) eqn:E0; split_bool.
    - split; [done|]. split; [exact Htot|]. split; [done|]. by rewrite Hz.
    - split; [done|]. split; [done|]. split; [exact Htot|lia]. }
  split.
  - intros id1 r1 id2 r2. rewrite !lookup_update_row.
    destruct (sync_runs d !! id1) as [q1|] eqn:Q1, (sync_runs d !! id2) as [q2|] eqn:Q2; try done.
    cbn. intros [= <-] [= <-] A1 A2 E. apply (so_one _ _ _ Hs _ _ _ _ Q1 Q2).
    + destruct (bool_decide (id1 = R) && _) eqn:Eb; [|done]. split_bool. subst.
      rewrite Hl in Q1. injection Q1 as <-. by rewrite Hst.
    + destruct (bool_decide (id2 = R) && _) eqn:Eb; [|done]. split_bool. subst.
      rewrite Hl in Q2. injection Q2 as <-. by rewrite Hst.
    + by destruct (_ && Items.holds token q1), (_ && Items.holds token q2).
  - intros id r'. rewrite lookup_update_row. destruct (sync_runs d !! id) as [q|] eqn:Eq; [|done]. cbn.
    pose proof (so_run _ _ _ Hs _ _ Eq) as [A B C].
    destruct (decide (id = R)) as [->|Hne].
    + rewrite Hl in Eq. injection Eq as <-. rewrite bool_decide_true, Hh by done. intros [= <-].
      split; [|intros _; apply B; by rewrite Hst|done].
      unfold Items.publish_row. cbn. rewrite Hst in *. split; [apply A|]. by destruct (n =? 0).
    + rewrite bool_decide_false by done. intros [= <-]. split; [done|done|by apply Hother].
  - intros k i Hi. assert (Hkeep : forall id q, sync_runs d !! id = Some q -> exists q',
      (update_row R (Items.holds token) (Items.publish_row now count n) (sync_runs d)).2 !! id = Some q' /\
      sr_session_id q' = sr_session_id q).
    { intros id q Hq. rewrite lookup_update_row, Hq. cbn. eexists. split; [done|]. by destruct (_ && _). }
    destruct (Hitems _ _ Hi) as [H|(HR & Hse & Hsnd)].
    + destruct (so_item _ _ _ Hs _ _ H) as [Hsnd (q & Hq & He)]. split; [done|].
      destruct (Hkeep _ _ Hq) as (q' & Hq' & He'). exists q'. by rewrite He'.
    + split; [done|]. destruct (Hkeep _ _ Hl) as (q' & Hq' & He'). rewrite HR.
      exists q'. by rewrite He'.
Qed.

Section Publish.
Context (now : timestamp) (ids : string -> uuid) (fence : Fence.sync_fence) (session : string)
  (mode : SyncMode.t) (groups : list Items.listed) (d : gdb).
Context (Hs : sound_db d)
  (Hnd : NoDup (map Items.ls_id groups)) (Hids : NoDup (map ids (map Items.ls_id groups)))
  (Hfresh : forall g, g ∈ groups -> gateway_sync_items d !! ids (Items.ls_id g) = None)
  (Hno : forall k i, gateway_sync_items d !! k = Some i -> si_sync_run_id i <> Fence.wf_syncRunId fence).
Let R := Fence.wf_syncRunId fence.
Let sels := Items.selection cfg sha256 now session mode d groups.
Let items' := Items.insert_items sha256 now ids R session sels (gateway_sync_items d).

Lemma sublist_map {A B} (f : A -> B) (l k : list A) : sublist l k -> sublist (map f l) (map f k).
Proof. induction 1; cbn; by constructor. Qed.

Lemma NoDup_sublist {A} (l k : list A) : sublist l k -> NoDup k -> NoDup l.
Proof. intros H1 H2. by eapply sublist_NoDup. Qed.

Lemma publish_lookup k i : items' !! k = Some i <-> gateway_sync_items d !! k = Some i \/
  exists sel, sel ∈ sels /\ k = ids (sel_id sel) /\ i = Items.new_item sha256 now R session sel.
Proof.
  pose proof (selection_ids now session mode d groups) as Hsub. apply insert_items_lookup.
  - by eapply NoDup_sublist.
  - eapply NoDup_sublist; [|exact Hids]. by apply sublist_map.
  - intros sel Hin. unfold sels, Items.selection in Hin. apply selection_elem_from in Hin
      as (j & g & reason & Hg & -> & _). apply Hfresh. by eapply list_elem_of_lookup_2.
  - intros sel k' j _ Hl He. by destruct (Hno _ _ Hl).
Qed.

Lemma publish_counted P : (forall sel, sel ∈ sels -> P (Items.new_item sha256 now R session sel) = true) ->
  Items.counted R P items' = Z.of_nat (length sels).
Proof.
  intros HP. unfold Items.counted, count_where. f_equal.
  rewrite <- (length_fmap fst (select_where _ items')).
  replace (length sels) with (length (map (fun sel => ids (sel_id sel)) sels)) by apply length_map.
  apply Permutation_length, NoDup_Permutation; [apply select_where_NoDup| |].
  { rewrite <- map_map. eapply NoDup_sublist; [|exact Hids]. apply sublist_map, selection_ids. }
  intros k. rewrite list_elem_of_fmap, (list_elem_of_In (map _ _) k), in_map_iff. split.
  - intros ([k' i] & -> & [Hl Hb]%select_where_elem). apply publish_lookup in Hl as [Hl|(sel & Hin & -> & ->)].
    + split_bool. by destruct (Hno _ _ Hl).
    + exists sel. split; [done|by apply list_elem_of_In].
  - intros (sel & <- & Hin%list_elem_of_In).
    exists (ids (sel_id sel), Items.new_item sha256 now R session sel). split; [done|].
    apply select_where_elem. split; [apply publish_lookup; right; by exists sel|].
    rewrite HP by done. by rewrite bool_decide_true.
Qed.

Lemma publish_none P : (forall sel, P (Items.new_item sha256 now R session sel) = false) ->
  forall k i, items' !! k = Some i -> bool_decide (si_sync_run_id i = R) && P i = false.
Proof.
  intros HP k i [Hl|(sel & _ & _ & ->)]%publish_lookup; [|by rewrite HP, andb_false_r].
  rewrite bool_decide_false; [done|]. by eapply Hno.
Qed.

Lemma publish_totals r : zeroed r -> sr_groups_scheduled r = 0 ->
  totals items' R (r <| sr_groups_scheduled := Z.of_nat (length sels) |>).
Proof.
  intros (Z1 & Z2 & Z3 & Z4 & _) _. unfold totals. cbn.
  rewrite Z1, Z2, Z3, Z4, (publish_counted (fun _ => true)) by done.
  split_and!; try done; symmetry.
  1-3: apply count_where_zero; by apply publish_none.
  unfold Items.members_total.
  replace (select_where _ items') with (@nil (uuid * sync_item)); [done|]. symmetry.
  destruct (select_where _ items') as [|[k i] l] eqn:E; [done|].
  assert (Hin : (k, i) ∈ (k, i) :: l) by by left. rewrite <- E in Hin.
  apply select_where_elem in Hin as [Hl Hb].
  rewrite (publish_none (Items.has_status ItemStatus.COMPLETED)) with (k := k) in Hb; done.
Qed.

Lemma publish_alike k : alike [R] (gateway_sync_items d !! k) (items' !! k).
Proof.
  destruct (gateway_sync_items d !! k) as [i|] eqn:E.
  - rewrite (proj2 (publish_lookup k i)) by by left. constructor.
  - destruct (items' !! k) as [i|] eqn:E'; [|constructor].
    apply publish_lookup in E' as [E'|(sel & _ & _ & ->)]; [congruence|]. apply alike_new. by left.
Qed.

Lemma sound_publish r count : sync_runs d !! R = Some r -> sr_session_id r = session ->
  sr_status r = SyncStatus.RUNNING -> zeroed r -> Items.holds (Fence.wf_leaseToken fence) r = true ->
  sound (update_row R (Items.holds (Fence.wf_leaseToken fence))
    (Items.publish_row now count (Z.of_nat (length sels))) (sync_runs d)).2 items' (gateway_sync_fences d).
Proof.
  intros Hl Hse Hst Hz Hh. destruct (valid_config_events _ Hcfg) as [_ Hmax].
  apply (sound_publish_row now d R _ items' (Z.of_nat (length sels)) r count); try done.
  - intros k i [H|(sel & _ & _ & ->)]%publish_lookup; [by left|right].
    split; [done|]. split; [done|]. split; cbn; [lia|lia|done].
  - apply publish_alike.
  - apply publish_totals; [done|apply Hz].
  - by apply publish_counted.
  - apply Hz.
Qed.

End Publish.

(** *** Every step *)

Lemma sound_step o d : admissible o d -> sound_db d -> sound_db (run o d).
Proof.
  intros Ha Hs. destruct o; cbn [run].
  - by apply sound_create.
  - by apply sound_recover_runs.
  - by apply sound_claim_run.
  - by apply sound_renew_run.
  - by apply sound_complete_run.
  - by apply sound_fail_run.
  - destruct (Items.publishDiscovery _ _ _ _ _ _ _ _ _) as [answer d'] eqn:E. cbn.
    pose proof (publish_cases _ _ _ _ _ _ _ _ _ E) as Hc. destruct answer as [dc|]; [|by destruct Hc as [-> _]].
    destruct Ha as (Hnd & Hids & Hfresh). destruct (Items.dc_deferred dc).
    + destruct Hc as (Ho & Ei & Ef & Er). unfold sound_db. rewrite Ei, Ef, Er.
      destruct (owned_discovering _ _ _ _ Hs Ho) as (r & Hl & Hse & Hst & Hh & Hph & Hz & Hno).
      by apply (sound_defer now fence session d r).
    + destruct Hc as [Ho Ei Er Ef _]. unfold sound_db. rewrite Ei, Ef, Er.
      destruct (owned_discovering _ _ _ _ Hs Ho) as (r & Hl & Hse & Hst & Hh & Hph & Hz & Hno).
      by apply (sound_publish now ids fence session mode groups d Hs Hnd Hids Hfresh Hno r).
  - by apply sound_claim_item.
  - by apply sound_renew_item.
  - by apply sound_renew_fence.
  - by apply sound_complete_item.
  - by apply sound_skip_item.
  - by apply sound_fail_item.
  - by apply sound_recover_items.
  - done.
Qed.

Lemma sound_reachable d : reachable d -> sound_db d.
Proof.
  induction 1 as [d E1 E2 E3 E4|d o H IH Ha]; [|by apply sound_step].
  unfold sound_db. rewrite E1, E2, E3. split; intros *; by rewrite lookup_empty.
Qed.

(** *** Epochs *)

(** Only a claim moves an epoch. *)
Lemma fences_kept o d : (forall now token id, o <> ClaimRun now token id) ->
  gateway_sync_fences (run o d) = gateway_sync_fences d.
Proof.
  destruct o; cbn [run]; intros Hne; try (by destruct (Hne now token id)).
  - unfold Runs.create. destruct (head _) as [[? ?]|]; [by case_bool_decide|done].
  - done.
  - unfold Runs.renewLease. by destruct (update_row _ _ _ _).
  - unfold Runs.complete. by destruct (update_row _ _ _ _).
  - unfold Runs.failAttempt. by destruct (update_row _ _ _ _).
  - destruct (Items.publishDiscovery _ _ _ _ _ _ _ _ _) as [answer d'] eqn:E. cbn.
    pose proof (publish_cases _ _ _ _ _ _ _ _ _ E) as Hc. destruct answer as [dc|]; [|by destruct Hc as [-> _]].
    destruct (Items.dc_deferred dc); [by destruct Hc as (_ & _ & ? & _)|by destruct Hc].
  - unfold Items.claim. destruct (Items.candidate _ _) as [[? ?]|]; [|done].
    destruct (Pacing.readyAndRate _ _ _ _); [|done]. by destruct (update_row _ _ _ _) as [[?|] ?].
  - unfold Items.renewLease. destruct (update_row _ _ _ _) as [[?|] ?]; [|done].
    by destruct (Pacing.renew _ _ _ _) as [[] ?].
  - unfold Items.renewFence. destruct (update_row _ _ _ _) as [? ?].
    destruct (Pacing.renew_write _ _ _ _) as [? ?]. by destruct (_ && _).
  - unfold Items.complete. destruct (update_row _ _ _ _) as [[i|] ?]; [|done]. cbn.
    match goal with |- context [Items.reconciled ?i ?d] => apply (reconciled_tables i d) end.
  - unfold Items.skip. by destruct (update_row _ _ _ _) as [[i|] ?].
  - unfold Items.fail. destruct (gateway_sync_items d !! _); [|done]. by destruct (Fence.item_leased _ _ _).
  - unfold Items.recoverExpired. cbn [snd]. by rewrite foldl_refreshParent.
  - done.
Qed.

Lemma epoch_grows o d s e : gateway_sync_fences d !! s = Some e ->
  exists e', gateway_sync_fences (run o d) !! s = Some e' /\ e <= e'.
Proof.
  intros He. destruct o as [| |now token id| | | | | | | | | | | |];
    try (rewrite fences_kept by done; exists e; split; [done|lia]).
  cbn [run]. destruct (Runs.claim now token id d) as [answer d'] eqn:E. cbn.
  destruct (claim_run_cases _ _ _ _ _ _ E) as [_ H]. destruct answer as [cl|].
  - destruct H as (r & _ & _ & _ & _ & _ & Hep & _ & ->).
    destruct (decide (s = sr_session_id r)) as [->|Hne].
    + rewrite lookup_insert_eq. eexists. split; [done|]. rewrite Hep, He. cbn. lia.
    + rewrite lookup_insert_ne, insert_absent_lookup, He by done. exists e. split; [done|lia].
  - destruct H as [_ H]. exists e. split; [by apply H|lia].
Qed.

Definition run_all (os : list op) (d : gdb) : gdb := foldl (fun d o => run o d) d os.

Lemma epoch_grows_all os d s e : gateway_sync_fences d !! s = Some e ->
  exists e', gateway_sync_fences (run_all os d) !! s = Some e' /\ e <= e'.
Proof.
  revert d e. induction os as [|o os IH]; intros d e He; cbn; [exists e; split; [done|lia]|].
  destruct (epoch_grows o d s e He) as (e1 & H1 & L1).
  destruct (IH _ _ H1) as (e2 & H2 & L2). exists e2. split; [done|lia].
Qed.

Lemma claim_epoch now token id d cl : (Runs.claim now token id d).1 = Some cl ->
  gateway_sync_fences (run (ClaimRun now token id) d) !! Runs.cs_sessionId cl = Some (Runs.cs_syncEpoch cl) /\
  forall e, gateway_sync_fences d !! Runs.cs_sessionId cl = Some e -> e < Runs.cs_syncEpoch cl.
Proof.
  cbn [run]. destruct (Runs.claim now token id d) as [answer d'] eqn:E. cbn. intros ->.
  destruct (claim_run_cases _ _ _ _ _ _ E) as (_ & r & _ & _ & _ & _ & Hs & He & _ & Hf).
  rewrite Hf, Hs, lookup_insert_eq. split; [done|]. intros e Hl. rewrite He, Hl. cbn. lia.
Qed.

(** *** Partitions *)

Lemma count_where_split {V : Type} (P Q S : uuid -> V -> bool) (t : gmap uuid V) :
  (forall k v, P k v = Q k v || S k v) -> (forall k v, Q k v && S k v = false) ->
  count_where P t = count_where Q t + count_where S t.
Proof.
  intros H1 H2. unfold count_where, select_where. induction (map_to_list t) as [|[k v] l IH]; [done|].
  specialize (H1 k v). specialize (H2 k v). cbn. rewrite H1.
  destruct (Q k v), (S k v); cbn in *; [done| | |]; lia.
Qed.

Lemma counted_all id items : Items.counted id (fun _ => true) items =
  Items.counted id (Items.has_status ItemStatus.COMPLETED) items +
  Items.counted id (Items.has_status ItemStatus.FAILED) items +
  Items.counted id (Items.has_status ItemStatus.SKIPPED) items + left_of id items.
Proof.
  unfold left_of, Items.counted, Items.has_status.
  rewrite (count_where_split _
    (fun _ i => bool_decide (si_sync_run_id i = id) &&
       (bool_decide (si_status i = ItemStatus.COMPLETED) || bool_decide (si_status i = ItemStatus.FAILED)
        || bool_decide (si_status i = ItemStatus.SKIPPED)))
    (fun _ i => bool_decide (si_sync_run_id i = id) && Items.remaining (si_status i))).
  1: f_equal; rewrite (count_where_split _
    (fun _ i => bool_decide (si_sync_run_id i = id) &&
       (bool_decide (si_status i = ItemStatus.COMPLETED) || bool_decide (si_status i = ItemStatus.FAILED)))
    (fun _ i => bool_decide (si_sync_run_id i = id) && bool_decide (si_status i = ItemStatus.SKIPPED)));
    [f_equal; apply count_where_split|..].
  all: intros k i; destruct (bool_decide (si_sync_run_id i = id)); [|done]; by destruct (si_status i).
Qed.

End Config.



(** C28: a superseded attempt never writes again.  Once another claim in the same session
    was granted, whatever runs afterwards, the fence of the older attempt fails every
    ownership check (of discovery writes, of item writes and of publishing), and epochs
    strictly increase from claim to claim. *)
Theorem superseded_attempt_never_writes (cfg : gateway_config) (sha256 : string -> string) (d : gdb)
    (now1 now2 : timestamp) (token1 token2 id1 id2 : uuid) (cl1 cl2 : Runs.claimed)
    (os os' : list op)
    (H1 : (Runs.claim now1 token1 id1 d).1 = Some cl1)
    (H2 : (Runs.claim now2 token2 id2
             (run_all cfg sha256 os (run cfg sha256 (ClaimRun now1 token1 id1) d))).1 = Some cl2)
    (Hsame : Runs.cs_sessionId cl2 = Runs.cs_sessionId cl1) :
  let d' := run_all cfg sha256 os' (run cfg sha256 (ClaimRun now2 token2 id2)
              (run_all cfg sha256 os (run cfg sha256 (ClaimRun now1 token1 id1) d))) in
  Runs.cs_syncEpoch cl1 < Runs.cs_syncEpoch cl2 /\
  (forall now fence, Fence.wf_syncEpoch fence = Runs.cs_syncEpoch cl1 ->
     Fence.assertSyncWriteOwnership now (Runs.cs_sessionId cl1) fence d' = false /\
     forall ids mode groups,
       Items.publishDiscovery cfg sha256 now ids fence (Runs.cs_sessionId cl1) mode groups d' = (None, d')) /\
  (forall now fence, Fence.xf_syncEpoch fence = Runs.cs_syncEpoch cl1 ->
     Fence.xf_sessionId fence = Runs.cs_sessionId cl1 ->
     Fence.assertSyncItemWriteOwnership now fence d' = false).
Proof.
  cbn zeta. destruct (claim_epoch cfg sha256 _ _ _ _ _ H1) as [E1 _].
  destruct (epoch_grows_all cfg sha256 os _ _ _ E1) as (e & He & Le).
  destruct (claim_epoch cfg sha256 _ _ _ _ _ H2) as [E2 L2]. rewrite Hsame in E2, L2.
  specialize (L2 _ He). destruct (epoch_grows_all cfg sha256 os' _ _ _ E2) as (e' & He' & Le').
  set (d' := run_all cfg sha256 os' _) in *. clearbody d'.
  assert (Hold : bool_decide (gateway_sync_fences d' !! Runs.cs_sessionId cl1 = Some (Runs.cs_syncEpoch cl1)) = false).
  { apply bool_decide_eq_false. rewrite He'. intros [=]. lia. }
  split; [lia|]. split.
  - intros now fence Hf. split; [unfold Fence.assertSyncWriteOwnership; by rewrite Hf, Hold|].
    intros ids mode groups. unfold Items.publishDiscovery, Items.assertDiscoveryOwnership.
    destruct (sync_runs d' !! _) as [r|]; [|done].
    destruct (decide (sr_session_id r = Runs.cs_sessionId cl1)) as [Es|Es].
    + by rewrite Es, Hf, Hold, andb_false_r.
    + by rewrite bool_decide_false.
  - intros now fence Hf Hse. unfold Fence.assertSyncItemWriteOwnership.
    destruct (gateway_sync_items d' !! _) as [i|]; [|done].
    destruct (decide (si_session_id i = Runs.cs_sessionId cl1)) as [Es|Es].
    + by rewrite Es, Hf, Hold, andb_false_r.
    + rewrite Hse, (bool_decide_false (si_session_id i = _)) by done. by rewrite andb_false_r.
Qed.

(** *** Witnesses *)

Fixpoint admissible_all (cfg : gateway_config) (sha256 : string -> string) (os : list op) (d : gdb) : Prop :=
  match os with
  | [] => True
  | o :: os' => admissible o d /\ admissible_all cfg sha256 os' (run cfg sha256 o d)
  end.

Lemma run_all_reachable cfg sha256 os d : reachable cfg sha256 d -> admissible_all cfg sha256 os d ->
  reachable cfg sha256 (run_all cfg sha256 os d).
Proof.
  revert d. induction os as [|o os IH]; intros d Hd Ha; [done|]. destruct Ha as [Ho Ha].
  cbn. apply IH; [|done]. by apply reachable_step.
Qed.

Definition example_config : gateway_config := default_gateway_config (Config false ["s"] 0 0).
Definition example_hash (s : string) : string := s.
Definition example_group (id : string) : Items.listed := Items.Listed (Snapshot.Summary id id None None) None.
Definition example_ids (g : string) : uuid := if String.eqb g "a" then 101 else 102.
Definition example_fence : Fence.sync_fence := Fence.SyncFence 1 11 1.
Definition example_start : gdb :=
  empty_gdb <| core := empty_db <| gateway_sessions := {[ "s" := GatewaySession "ready" true None 0 0 0 ]} |> |>.

(** A run of two groups: one read completes, the other fails for good. *)
Definition example_ops : list op :=
  [ Create 0 1 "s" SyncMode.FULL; ClaimRun 10 11 1;
    Publish 20 example_ids example_fence "s" SyncMode.FULL [example_group "a"; example_group "b"];
    ClaimItem 30 21 101; CompleteItem 40 101 21 7; ClaimItem 2000 22 102;
    FailItem 2010 1000 1000 102 22 "INVALID_RESPONSE" (FailurePolicy false false false None "INVALID_RESPONSE") ].

Definition example_db (n : nat) : gdb := run_all example_config example_hash (take n example_ops) example_start.

Lemma example_reachable n : reachable example_config example_hash (example_db n).
Proof.
  apply run_all_reachable; [by apply reachable_init|].
  assert (Hall : admissible_all example_config example_hash example_ops example_start).
  { unfold example_ops. cbn [admissible_all admissible]. split_and!; try done.
    all: by apply (bool_decide_eq_true_1 _); vm_compute. }
  clear -Hall. revert Hall. generalize example_ops, example_start. revert n.
  induction n as [|n IH]; intros os d; [done|]. destruct os as [|o os]; [done|].
  intros [H1 H2]. split; [done|]. by apply IH.
Qed.

Definition example_outcome (n : nat) : option (SyncStatus.t * SyncPhase.t * Z * Z * Z) :=
  (fun r => (sr_status r, sr_phase r, sr_groups_synced r, sr_groups_failed r, sr_members_synced r)) <$>
    sync_runs (example_db n) !! 1%positive.

Example example_halfway : example_outcome 5 = Some (SyncStatus.RUNNING, SyncPhase.RECONCILING, 1, 0, 7).
Proof. by vm_compute. Qed.
Example example_finished : example_outcome 7 = Some (SyncStatus.FAILED, SyncPhase.COMPLETED, 1, 1, 7).
Proof. by vm_compute. Qed.



(** The first attempt's lease expires and the run is claimed again. *)
Lemma superseded_attempt_never_writes_witness : exists cl1 cl2,
  (Runs.claim 10 11 1 (example_db 1)).1 = Some cl1 /\
  (Runs.claim 200000 12 1 (run_all example_config example_hash [RecoverRuns 150000] (example_db 2))).1 = Some cl2 /\
  Runs.cs_syncEpoch cl1 < Runs.cs_syncEpoch cl2.
Proof.
  eexists _, _. split; [by vm_compute|]. split; [by vm_compute|].
  apply (superseded_attempt_never_writes example_config example_hash (example_db 1) 10 200000 11 12 1 1
    _ _ [RecoverRuns 150000] []); by vm_compute.
Defined.

End Sync.
