(* ===== verification/GatewayDiscovery.v ===== *)
(** * Discovery

    What [publishDiscovery] does with a listing: which groups it schedules, what it makes
    of the groups it does not see, and when it believes a listing that lost most of them.
    The last section shows what a stale aggregate of [refreshParent] does. *)

From S2P Require Import Prelude Schema Json Groups GatewaySchema GatewayPacing GatewayRuns GatewayItems GatewaySync.

Module Discovery.

Import Sync.
Local Open Scope Z_scope.

(** *** The groups after a listing *)

Section Listing.
Context (now : timestamp) (s : string).

Lemma upserted groups t k :
  let t' := foldl (fun t x => Snapshot.upsert_summary now s x t) t groups in
  (k ∈ map (fun x => (s, Snapshot.sm_id x)) groups -> exists g, t' !! k = Some g /\ gg_is_active g = true) /\
  (k ∉ map (fun x => (s, Snapshot.sm_id x)) groups -> t' !! k = t !! k).
Proof.
  revert t. induction groups as [|x groups IH]; intros t; cbn.
  { split; [intros H; by apply not_elem_of_nil in H|done]. }
  destruct (IH (Snapshot.upsert_summary now s x t)) as [IH1 IH2]. split.
  - intros [->|Hk]%elem_of_cons; [|by apply IH1].
    destruct (decide ((s, Snapshot.sm_id x) ∈ map (fun x => (s, Snapshot.sm_id x)) groups)) as [Hin|Hin];
      [by apply IH1|].
    rewrite IH2 by done. unfold Snapshot.upsert_summary. rewrite lookup_insert_eq.
    eexists. split; [done|]. by destruct (t !! _).
  - intros Hk. apply not_elem_of_cons in Hk as [Hne Hk]. rewrite IH2 by done.
    unfold Snapshot.upsert_summary. by rewrite lookup_insert_ne.
Qed.

(** A listed group is active afterwards; a group of the session that was not listed is
    inactive and DENIED. *)
Lemma replaced groups d id :
  let t := gateway_groups (Snapshot.replaceGroupSummaries now s groups d) in
  (id ∈ map Snapshot.sm_id groups -> exists g, t !! (s, id) = Some g /\ gg_is_active g = true) /\
  (forall g, id ∉ map Snapshot.sm_id groups -> t !! (s, id) = Some g ->
     gg_is_active g = false /\ gg_send_capability g = Capability.DENIED /\
     gg_send_capability_reason g = CapabilityReason.GROUP_INACTIVE).
Proof.
  cbn zeta. unfold Snapshot.replaceGroupSummaries. cbn.
  destruct (upserted groups (gateway_groups d) (s, id)) as [Hin Hout].
  assert (Helem : (s, id) ∈ map (fun x => (s, Snapshot.sm_id x)) groups <-> id ∈ map Snapshot.sm_id groups).
  { rewrite !list_elem_of_In, !in_map_iff. split.
    - intros (x & [= He] & Hx). by exists x.
    - intros (x & He & Hx). exists x. by rewrite He. }
  rewrite !lookup_update_where. split.
  - intros H. destruct (Hin (proj2 Helem H)) as (g & -> & Ha). cbn.
    rewrite (proj2 (mem_true _ _) H), bool_decide_true by done. cbn.
    eexists. split; [done|]. unfold Snapshot.inactive_not_denied. by rewrite Ha, andb_false_r.
  - intros g H. destruct (foldl _ _ groups !! _) as [g0|]; [|done]. cbn.
    rewrite (proj2 (mem_false _ _) H), bool_decide_true by done. cbn. intros [= <-].
    unfold Snapshot.inactive_not_denied. cbn. rewrite bool_decide_true by done. cbn.
    destruct (bool_decide (gg_send_capability g0 = Capability.DENIED)) eqn:E1,
      (bool_decide (gg_send_capability_reason g0 = CapabilityReason.GROUP_INACTIVE)) eqn:E2;
      cbn; split_bool; done.
Qed.

End Listing.

Section Config.
Context (cfg : gateway_config) (sha256 : string -> string).

(** *** The log of discoveries *)

(** A discovery that was answered: the fingerprint and length of its listing, and whether
    it was deferred *)
Definition entry : Type := string * Z * bool.

Definition logged (session : string) (o : op) (d : gdb) : option entry :=
  match o with
  | Publish now ids fence s mode groups =>
      if bool_decide (s = session)
      then (fun dc => (Items.snapshotFingerprint sha256 groups, Z.of_nat (length groups), Items.dc_deferred dc)) <$>
             (Items.publishDiscovery cfg sha256 now ids fence s mode groups d).1
      else None
  | _ => None
  end.

(** The answered discoveries of a session, the latest first *)
Fixpoint discoveries (session : string) (os : list op) (d : gdb) (log : list entry) : list entry :=
  match os with
  | [] => log
  | o :: os' =>
      discoveries session os' (run cfg sha256 o d)
        (match logged session o d with Some e => e :: log | None => log end)
  end.

(** The row of the session stays. *)
Definition has_session (session : string) (d : gdb) : Prop :=
  is_Some (gateway_sessions (core d) !! session).
Definition keeps_session (session : string) (o : op) : Prop :=
  match o with Elsewhere f => forall d, has_session session d -> has_session session (f d) | _ => True end.

Definition snapshot_of (session : string) (d : gdb) : session_snapshot :=
  default no_snapshot (session_snapshots d !! session).

Lemma snapshot_of_Some session d st : session_snapshots d !! session = Some st -> snapshot_of session d = st.
Proof. unfold snapshot_of. by intros ->. Qed.

(** The stored confirmations count the last discoveries of the same listing. *)
Definition backed (session : string) (log : list entry) (d : gdb) : Prop :=
  has_session session d /\
  let n := sn_suspicious_confirmations (snapshot_of session d) in
  0 <= n /\ (0 < n -> exists fp c,
    sn_suspicious_fingerprint (snapshot_of session d) = Some fp /\
    sn_suspicious_count (snapshot_of session d) = Some c /\
    (Z.to_nat n <= length log)%nat /\ forall e, e ∈ take (Z.to_nat n) log -> e = (fp, c, true)).

Lemma confirmed_before session fp c d log : backed session log d ->
  let n := Items.confirmations cfg session fp c d in
  1 <= n /\ (Z.to_nat (n - 1) <= length log)%nat /\
  forall e, e ∈ take (Z.to_nat (n - 1)) log -> e = (fp, c, true).
Proof.
  intros [[row Hrow] [H0 Hn]]. unfold Items.confirmations, Items.session_state. rewrite Hrow. cbn zeta.
  fold (snapshot_of session d). destruct (_ && _) eqn:E; cycle 1.
  { split; [lia|]. split; [lia|]. intros e Hin. by apply not_elem_of_nil in Hin. }
  split_bool. split; [lia|].
  replace (sn_suspicious_confirmations (snapshot_of session d) + 1 - 1)
    with (sn_suspicious_confirmations (snapshot_of session d)) by lia.
  destruct (decide (0 < sn_suspicious_confirmations (snapshot_of session d))) as [Hp|Hp].
  - destruct (Hn Hp) as (fp' & c' & E1 & E2 & E3 & E4).
    assert (fp' = fp) as -> by congruence. assert (c' = c) as -> by congruence. done.
  - replace (Z.to_nat _) with 0%nat by lia. split; [lia|]. intros e Hin. by apply not_elem_of_nil in Hin.
Qed.

Lemma set_snapshot_lookup s f d session : has_session session d ->
  has_session session (Items.set_snapshot s f d) /\
  session_snapshots (Items.set_snapshot s f d) !! session =
    if bool_decide (s = session) then Some (f (snapshot_of s d)) else session_snapshots d !! session.
Proof.
  intros [row Hrow]. unfold Items.set_snapshot, Items.session_state, has_session, snapshot_of.
  case_bool_decide as E.
  - subst. rewrite Hrow. cbn. rewrite Hrow, lookup_insert_eq. by split.
  - destruct (gateway_sessions (core d) !! s); cbn; rewrite Hrow, ?lookup_insert_ne by done; by split.
Qed.

Lemma publish_snapshot now ids fence s mode groups d answer d' session : has_session session d ->
  Items.publishDiscovery cfg sha256 now ids fence s mode groups d = (answer, d') ->
  has_session session d' /\
  session_snapshots d' !! session =
    match answer with
    | Some dc =>
        if bool_decide (s = session)
        then Some (if Items.dc_deferred dc
                   then (snapshot_of s d)
                     <| sn_suspicious_fingerprint := Some (Items.snapshotFingerprint sha256 groups) |>
                     <| sn_suspicious_count := Some (Z.of_nat (length groups)) |>
                     <| sn_suspicious_confirmations :=
                          Items.confirmations cfg s (Items.snapshotFingerprint sha256 groups)
                            (Z.of_nat (length groups)) d |>
                   else SessionSnapshot (Some (Z.of_nat (length groups))) None None 0)
        else session_snapshots d !! session
    | None => session_snapshots d !! session
    end.
Proof.
  intros Hs. unfold Items.publishDiscovery. destruct (negb _); [by intros [= <- <-]|].
  destruct (_ && (_ <? _)); intros [= <- <-]; cbn [Items.dc_deferred].
  - match goal with |- context [Items.set_snapshot s ?f ?d] =>
      destruct (set_snapshot_lookup s f d session Hs) as [H1 H2] end. by split.
  - match goal with |- context [Items.set_snapshot s ?f ?d] =>
      destruct (set_snapshot_lookup s f d session Hs) as [H1 H2] end. by split.
Qed.

(** No other operation touches the snapshot columns. *)
Lemma snapshots_kept o d session : keeps_session session o -> has_session session d ->
  (forall now ids fence s mode groups, o <> Publish now ids fence s mode groups) ->
  has_session session (run cfg sha256 o d) /\ session_snapshots (run cfg sha256 o d) = session_snapshots d.
Proof.
  intros Hk Hs Hne. destruct o; cbn [run]; try (by destruct (Hne now ids fence session0 mode groups)).
  - unfold Runs.create. destruct (head _) as [[? ?]|]; [by case_bool_decide|done].
  - done.
  - unfold Runs.claim. destruct (sync_runs d !! id); [|done]. by destruct (update_row _ _ _ _) as [[?|] ?].
  - unfold Runs.renewLease. by destruct (update_row _ _ _ _).
  - unfold Runs.complete. by destruct (update_row _ _ _ _).
  - unfold Runs.failAttempt. by destruct (update_row _ _ _ _).
  - unfold Items.claim. destruct (Items.candidate _ _) as [[? ?]|]; [|done].
    destruct (Pacing.readyAndRate _ _ _ _); [|done]. by destruct (update_row _ _ _ _) as [[?|] ?].
  - unfold Items.renewLease. destruct (update_row _ _ _ _) as [[?|] ?]; [|done].
    by destruct (Pacing.renew _ _ _ _) as [[] ?].
  - unfold Items.renewFence. destruct (update_row _ _ _ _) as [? ?].
    destruct (Pacing.renew_write _ _ _ _) as [? ?]. by destruct (_ && _).
  - unfold Items.complete. destruct (update_row _ _ _ _) as [[i|] ?]; [|done]. cbn.
    unfold Items.reconciled. by destruct (gateway_groups _ !! _).
  - unfold Items.skip. by destruct (update_row _ _ _ _) as [[i|] ?].
  - unfold Items.fail. destruct (gateway_sync_items d !! _); [|done]. by destruct (Fence.item_leased _ _ _).
  - unfold Items.recoverExpired. cbn [snd]. by rewrite foldl_refreshParent.
  - split; [|done]. by apply Hk.
Qed.

Lemma backed_step session log o d : keeps_session session o -> backed session log d ->
  backed session (match logged session o d with Some e => e :: log | None => log end) (run cfg sha256 o d).
Proof.
  intros Hk Hb. pose proof Hb as [Hs [H0 Hn]].
  assert (Hsame : forall d', has_session session d' -> session_snapshots d' !! session = session_snapshots d !! session ->
    backed session log d').
  { intros d' Hs' He. unfold backed, snapshot_of in *. by rewrite He. }
  destruct o as [| | | | | |now ids fence s mode groups| | | | | | | |];
    try (cbn [logged]; destruct (snapshots_kept _ d session Hk Hs ltac:(done)) as [Hs' He];
         apply Hsame; [exact Hs'|by rewrite He]).
  cbn [run logged].
  destruct (Items.publishDiscovery cfg sha256 now ids fence s mode groups d) as [answer d'] eqn:E. cbn.
  destruct (publish_snapshot _ _ _ _ _ _ _ _ _ session Hs E) as [Hs' He].
  destruct answer as [dc|]; [|case_bool_decide; by apply Hsame].
  case_bool_decide as Es; [|by apply Hsame]. subst s. cbn. unfold backed. split; [done|].
  rewrite (snapshot_of_Some _ _ _ He).
  destruct (Items.dc_deferred dc); cbn; [|split; [lia|intros; lia]].
  pose proof (confirmed_before session (Items.snapshotFingerprint sha256 groups)
    (Z.of_nat (length groups)) d log Hb) as (C1 & C2 & C3).
  split; [lia|]. intros _. eexists _, _. split; [done|]. split; [done|].
  set (n := Items.confirmations _ _ _ _ _) in C1, C2, C3 |- *.
  replace (Z.to_nat n) with (S (Z.to_nat (n - 1))) by lia.
  cbn. split; [lia|]. intros e [->|Hin]%elem_of_cons; [done|by apply C3].
Qed.

Lemma backed_all session os d log : Forall (keeps_session session) os -> backed session log d ->
  backed session (discoveries session os d log) (run_all cfg sha256 os d).
Proof.
  intros Hk. revert d log. induction Hk as [|o os Ho Hk IH]; intros d log Hb; [done|].
  cbn. by apply IH, backed_step.
Qed.

End Config.

(** A listing that lost most of a session's groups is not believed at once.  When a
    discovery with such a listing is carried out, the last
    GATEWAY_SYNC_SNAPSHOT_CONFIRMATIONS - 1 answered discoveries of the session all returned
    the very same set of groups and were all deferred; and a deferred discovery changes no
    group and no item, and costs its run no attempt. *)
Theorem large_loss_is_confirmed (cfg : gateway_config) (sha256 : string -> string) (os : list op) (d0 : gdb)
    (now : timestamp) (ids : string -> uuid) (fence : Fence.sync_fence) (session : string)
    (mode : SyncMode.t) (groups : list Items.listed) (dc : Items.discovery) (d' : gdb)
    (Hcfg : valid_gateway_config cfg = true)
    (Hd0 : session_snapshots d0 = ∅) (Hsession : has_session session d0)
    (Hos : Forall (keeps_session session) os) :
  let d := run_all cfg sha256 os d0 in
  let log := discoveries cfg sha256 session os d0 [] in
  Items.publishDiscovery cfg sha256 now ids fence session mode groups d = (Some dc, d') ->
  if Items.dc_deferred dc
  then core d' = core d /\ gateway_sync_items d' = gateway_sync_items d /\
       forall r, sync_runs d !! Fence.wf_syncRunId fence = Some r -> 1 <= sr_attempt_count r ->
         sync_runs d' !! Fence.wf_syncRunId fence = Some (Items.defer_row now r) /\
         sr_attempt_count (Items.defer_row now r) = sr_attempt_count r - 1
  else Items.suspicious cfg session (Z.of_nat (length groups)) d = true ->
       let needed := Z.to_nat (GATEWAY_SYNC_SNAPSHOT_CONFIRMATIONS cfg - 1) in
       (1 <= needed <= length log)%nat /\
       forall e, e ∈ take needed log ->
         e = (Items.snapshotFingerprint sha256 groups, Z.of_nat (length groups), true).
Proof.
  cbn zeta. intros E. destruct (valid_config_snapshot _ Hcfg) as [Hconf _].
  assert (Hb : backed session (discoveries cfg sha256 session os d0 []) (run_all cfg sha256 os d0)).
  { apply backed_all; [done|]. split; [done|]. unfold snapshot_of. rewrite Hd0, lookup_empty. cbn.
    split; [lia|intros; lia]. }
  revert E. set (d := run_all cfg sha256 os d0) in *. clearbody d.
  set (log := discoveries cfg sha256 session os d0 []) in *. clearbody log.
  unfold Items.publishDiscovery.
  destruct (negb (Items.assertDiscoveryOwnership now fence session d)) eqn:Ho; [done|].
  pose proof (confirmed_before cfg session (Items.snapshotFingerprint sha256 groups)
    (Z.of_nat (length groups)) d log Hb) as (C1 & C2 & C3).
  destruct (Items.suspicious cfg session (Z.of_nat (length groups)) d) eqn:Es; cbn [andb].
  2: { intros [= <- <-]. by cbn [Items.dc_deferred]. }
  destruct (_ <? _) eqn:Ec; intros [= <- <-]; cbn [Items.dc_deferred].
  - unfold Items.set_snapshot, Items.session_state. destruct Hb as [[row ->] _]. cbn.
    split; [done|]. split; [done|]. intros r Hl Hat. rewrite lookup_update_row, Hl. cbn.
    rewrite bool_decide_true by done. cbn. unfold Items.assertDiscoveryOwnership in Ho. rewrite Hl in Ho.
    unfold Runs.leased in Ho. split_bool. unfold Items.holds. rewrite bool_decide_true by done.
    split; [done|]. cbn. lia.
  - intros _. split_bool. split; [lia|]. intros e He. apply C3.
    match goal with H : e ∈ take ?m log |- e ∈ take ?n log =>
      replace m with (m `min` n)%nat in H by lia; rewrite <- take_take in H; by apply take_elem in H end.
Qed.

(** The details of the listed group are known, recent, not invalidated, and reconciled
    with the summary that was listed. *)
Definition up_to_date (cfg : gateway_config) (sha256 : string -> string) (now : timestamp) (session : string)
    (g : Items.listed) (d : gdb) : Prop :=
  exists row synced, gateway_groups (core d) !! (session, Items.ls_id g) = Some row /\
    gg_details_synced_at row = Some synced /\ Items.staleBefore cfg now <= synced /\
    gg_capability_invalidated_at row = None /\
    (fingerprints d !! (session, Items.ls_id g) ≫= gf_reconciled_summary)
      = Some (Items.summaryFingerprint sha256 g).

Lemma select_reason_None cfg sha256 now session mode d g :
  Items.select_reason cfg sha256 now session mode d g = None <->
  mode = SyncMode.INCREMENTAL /\ up_to_date cfg sha256 now session g d.
Proof.
  unfold up_to_date, Items.select_reason. destruct mode; [split; [done|by intros [? _]]|].
  destruct (gateway_groups (core d) !! _) as [row|] eqn:Erow; cbn;
    [|split; [done|by intros (_ & q & t & ? & _)]].
  destruct (gg_details_synced_at row) as [synced|] eqn:Esy.
  2: { split; [done|]. intros (_ & q & t & [= <-] & Ht & _). congruence. }
  destruct (gg_capability_invalidated_at row) as [inv|] eqn:Einv; cbn.
  { split; [done|]. intros (_ & q & t & [= <-] & _ & _ & Ht & _). congruence. }
  destruct (negb _) eqn:Ef; [|destruct (synced <? _) eqn:Est]; split_bool.
  + split; [done|]. by intros (_ & q & t & _ & _ & _ & _ & ?).
  + split; [done|]. intros (_ & q & t & [= <-] & Ht & Hle & _).
    assert (t = synced) as -> by congruence. lia.
  + split; [|done]. intros _. split; [done|]. by exists row, synced.
Qed.

(** An accepted discovery schedules exactly the groups that need a read.  The run gets
    one item for every listed group with a reason, and no other; in INCREMENTAL mode a group
    has none exactly when its details are known, recent, not invalidated and reconciled with
    the listed summary.  Items of other runs stay.  Every listed group is active afterwards,
    and every other group of the session inactive and DENIED. *)
Theorem discovery_publishes_exactly (cfg : gateway_config) (sha256 : string -> string) (d d' : gdb)
    (now : timestamp) (ids : string -> uuid) (fence : Fence.sync_fence) (session : string)
    (mode : SyncMode.t) (groups : list Items.listed) (dc : Items.discovery)
    (Hcfg : valid_gateway_config cfg = true) (Hd : reachable cfg sha256 d)
    (Ho : admissible (Publish now ids fence session mode groups) d)
    (E : Items.publishDiscovery cfg sha256 now ids fence session mode groups d = (Some dc, d'))
    (Hacc : Items.dc_deferred dc = false) :
  let R := Fence.wf_syncRunId fence in
  (forall k i, gateway_sync_items d' !! k = Some i /\ si_sync_run_id i = R <->
     exists j g reason, groups !! j = Some g /\
       Items.select_reason cfg sha256 now session mode d g = Some reason /\ k = ids (Items.ls_id g) /\
       i = Items.new_item sha256 now R session (Z.of_nat j, g, reason)) /\
  (forall k i, si_sync_run_id i <> R ->
     gateway_sync_items d' !! k = Some i <-> gateway_sync_items d !! k = Some i) /\
  (forall g, Items.select_reason cfg sha256 now session mode d g = None <->
     mode = SyncMode.INCREMENTAL /\ up_to_date cfg sha256 now session g d) /\
  forall id g, gateway_groups (core d') !! (session, id) = Some g ->
    if decide (id ∈ map Items.ls_id groups) then gg_is_active g = true
    else gg_is_active g = false /\ gg_send_capability g = Capability.DENIED /\
         gg_send_capability_reason g = CapabilityReason.GROUP_INACTIVE.
Proof.
  cbn zeta. pose proof (sound_reachable cfg sha256 Hcfg d Hd) as Hs. destruct Ho as (Hnd & Hids & Hfresh).
  pose proof (publish_cases cfg sha256 _ _ _ _ _ _ _ _ _ E) as Hc. cbn in Hc. rewrite Hacc in Hc.
  destruct Hc as [Hown Ei _ _ Ec].
  destruct (owned_discovering cfg _ _ _ _ Hs Hown) as (r & _ & _ & _ & _ & _ & _ & Hno).
  pose proof (publish_lookup cfg sha256 now ids fence session mode groups d Hnd Hids Hfresh Hno) as Hlk.
  rewrite <- Ei in Hlk. split; [|split; [|split]].
  - intros k i. rewrite Hlk. split.
    + intros [[Hl|(sel & Hin & -> & ->)] HR]; [by destruct (Hno _ _ Hl)|].
      apply selection_elem_from in Hin as (j & g & reason & Hg & -> & Hr).
      by exists j, g, reason.
    + intros (j & g & reason & Hg & Hr & -> & ->). split; [|done]. right.
      exists (Z.of_nat j, g, reason). split; [|done].
      apply selection_elem_from. by exists j, g, reason.
  - intros k i Hne. rewrite Hlk. split; [|by left]. by intros [Hl|(sel & _ & _ & ->)].
  - apply select_reason_None.
  - intros id g Hg. rewrite Ec in Hg.
    assert (Hg2 : gateway_groups (Snapshot.replaceGroupSummaries now session (map Items.ls_summary groups)
      (core d)) !! (session, id) = Some g) by exact Hg. clear Hg.
    destruct (replaced now session (map Items.ls_summary groups) (core d) id) as [Hin Hout].
    rewrite map_map in Hin, Hout. fold Items.ls_id in *.
    destruct (decide (id ∈ map Items.ls_id groups)) as [Hm|Hm].
    + destruct (Hin Hm) as (g' & Hg' & Ha). rewrite Hg2 in Hg'. by injection Hg' as <-.
    + by apply (Hout g).
Qed.

(** *** Witnesses *)

Lemma discovery_publishes_exactly_witness : exists dc d' k i,
  Items.publishDiscovery example_config example_hash 20 example_ids example_fence "s" SyncMode.FULL
    [example_group "a"; example_group "b"] (example_db 2) = (Some dc, d') /\
  gateway_sync_items d' !! k = Some i /\ si_group_id i = "b" /\ si_reason i = "FULL".
Proof.
  destruct (Items.publishDiscovery example_config example_hash 20 example_ids example_fence "s" SyncMode.FULL
    [example_group "a"; example_group "b"] (example_db 2)) as [[dc|] d'] eqn:E; [|by vm_compute in E].
  assert (Hacc : Items.dc_deferred dc = false) by (vm_compute in E; by injection E as <- _).
  assert (Ho : admissible (Publish 20 example_ids example_fence "s" SyncMode.FULL
    [example_group "a"; example_group "b"]) (example_db 2)).
  { split; [by apply (bool_decide_eq_true_1 _); vm_compute|].
    split; [by apply (bool_decide_eq_true_1 _); vm_compute|].
    intros g [->|[->|H]%elem_of_cons]%elem_of_cons; [by vm_compute|by vm_compute|].
    by apply not_elem_of_nil in H. }
  destruct (discovery_publishes_exactly example_config example_hash (example_db 2) d' 20 example_ids
    example_fence "s" SyncMode.FULL _ dc ltac:(by vm_compute) (example_reachable 2) Ho E Hacc) as [H _].
  exists dc, d', 102%positive, (Items.new_item example_hash 20 1 "s" (1, example_group "b", "FULL")).
  split; [done|]. split; [|done]. refine (proj1 (proj2 (H _ _) _)). by exists 1%nat, (example_group "b"), "FULL".
Defined.

(** Four groups are known, and the listing is empty. *)
Definition loss_config : gateway_config := example_config <| GATEWAY_SYNC_SNAPSHOT_MIN_BASELINE := 1 |>.
Definition loss_group : gateway_group := Snapshot.new_group 0 (Snapshot.Summary "" "" None None).
Definition loss_start : gdb :=
  empty_gdb <| core := (core example_start) <| gateway_groups :=
    {[ ("s", "a") := loss_group; ("s", "b") := loss_group; ("s", "c") := loss_group; ("s", "d") := loss_group ]} |> |>.
Definition loss_ops : list op :=
  [ Create 0 1 "s" SyncMode.FULL; ClaimRun 10 11 1; Publish 20 example_ids example_fence "s" SyncMode.FULL [];
    ClaimRun 6000 12 1 ].

Lemma large_loss_is_confirmed_witness : exists dc d',
  Items.publishDiscovery loss_config example_hash 6010 example_ids (Fence.SyncFence 1 12 2) "s" SyncMode.FULL []
    (run_all loss_config example_hash loss_ops loss_start) = (Some dc, d') /\
  Items.dc_deferred dc = false /\
  (1 <= length (discoveries loss_config example_hash "s" loss_ops loss_start []))%nat.
Proof.
  destruct (Items.publishDiscovery loss_config example_hash 6010 example_ids (Fence.SyncFence 1 12 2) "s"
    SyncMode.FULL [] (run_all loss_config example_hash loss_ops loss_start)) as [[dc|] d'] eqn:E;
    [|by vm_compute in E].
  exists dc, d'. split; [done|].
  assert (Hacc : Items.dc_deferred dc = false) by (vm_compute in E; by injection E as <- _).
  split; [done|].
  pose proof (large_loss_is_confirmed loss_config example_hash loss_ops loss_start 6010 example_ids
    (Fence.SyncFence 1 12 2) "s" SyncMode.FULL [] dc d' ltac:(by vm_compute) ltac:(done)
    ltac:(by eexists; vm_compute) ltac:(by repeat constructor) E) as H.
  rewrite Hacc in H. specialize (H ltac:(by vm_compute)). by destruct H as [[_ H] _].
Defined.

(** *** A stale aggregate

    [refreshParent] counts in a common table expression.  Under READ COMMITTED an UPDATE that
    waits for the lock of the run's row re-reads that row, but not the aggregate: it writes
    what its snapshot [seen] held.  When the recovery of an expired item and the end of
    another item of the same run overlap, each can count the other's item as open. *)

Definition one_attempt : gateway_config := example_config <| GATEWAY_SYNC_ITEM_MAX_ATTEMPTS := 1 |>.

(** The read of item 101 takes longer than its lease, and item 102 is claimed. *)
Definition both_running : gdb :=
  run_all one_attempt example_hash (take 4 example_ops ++ [ClaimItem 130000 22 102]) example_start.

(** Recovery fails 101 while 102 completes: its aggregate has its own item COMPLETED and
    101 still RUNNING, so the run stays RUNNING with nothing left to do. *)
Definition stranded : gdb :=
  let d := (Items.recoverExpired one_attempt 130010 both_running).2 in
  let d1 := (Items.complete one_attempt 130011 102 22 3 d).2 in
  let seen := match gateway_sync_items both_running !! 101%positive with
              | Some i => <[101%positive := i]> (gateway_sync_items d1)
              | None => gateway_sync_items d1
              end in
  Items.refreshParent 130011 1 seen (d1 <| sync_runs := sync_runs d |>).

Lemma stale_aggregate_strands_a_run : exists r, sync_runs stranded !! 1%positive = Some r /\
  sr_status r = SyncStatus.RUNNING /\ sr_lease_expires_at r = None /\
  left_of 1 (gateway_sync_items stranded) = 0.
Proof.
  destruct (sync_runs stranded !! 1%positive) as [r|] eqn:E; [|by vm_compute in E].
  exists r. split; [done|].
  assert (H : sr_status r = SyncStatus.RUNNING /\ sr_lease_expires_at r = None)
    by (vm_compute in E; by injection E as <-).
  split; [apply H|]. split; [apply H|]. by vm_compute.
Qed.

End Discovery.
