(* ===== verification/GatewayService.v ===== *)
(** * The synchronisation service

    [src/modules/gateway/gateway-sync.service.ts] and [gateway-sync-processor.service.ts],
    with the transaction of [upsertGroupDetails] under its fences
    ([gateway-group-snapshot.repository.ts]) and [upsertSession]
    ([gateway.repository.ts]).  Each call is a [serv_over gdb]: between two awaits the other
    workers do what they like, and a statement may fail.  The gateway's answers are
    arguments; a heartbeat that found its lease lost is the oracle [lost]. *)

From S2P Require Import Prelude Schema SendPolicy Service Groups GatewaySchema GatewayPacing GatewayIntents GatewayRuns GatewayItems GatewaySync.
From stdpp Require Import pretty.

Module Write.

Local Open Scope Z_scope.

(** [GroupIntentWriteFence] *)
Record intent_fence := IntentFence {
  nf_sessionId : string; nf_groupId : string; nf_leaseToken : uuid; nf_claimedRevision : Z }.

Record options := Options {
  op_expectedRevision : option Z;
  op_capabilityLeaseToken : option uuid;
  op_syncFence : option Fence.sync_fence;
  op_syncItemFence : option Fence.item_fence;
  op_groupIntentFence : option intent_fence }.

Definition no_options : options := Options None None None None None.

(** An assertion of the transaction: an absent fence passes. *)
Definition passes {A : Type} (check : A -> bool) (fence : option A) : bool :=
  match fence with Some f => check f | None => true end.

Definition lost_item : failure := JsError "Gateway sync item lost write ownership".
Definition lost_intent : failure := JsError "Gateway group intent lost write ownership".
Definition lost_sync : failure := JsError "Gateway sync attempt lost write ownership".

(** The transaction: its answer [{ members, applied }], or what it throws, rolled back.
    The member rows and the contact seeds it writes are not part of the model. *)
Definition upsertGroupDetails (now : timestamp) (session : string) (group : Snapshot.details)
    (o : options) (d : gdb) : (failure + Z * bool) * gdb :=
  if negb (passes (fun f => Fence.assertSyncWriteOwnership now session f d) (op_syncFence o))
  then (inl lost_sync, d)
  else if negb (passes (fun f => Fence.assertSyncItemWriteOwnership now f d) (op_syncItemFence o))
  then (inl lost_item, d)
  else if negb (passes (fun f => Intents.assertGroupIntentWriteOwnership now (nf_sessionId f) (nf_groupId f)
                                   (nf_leaseToken f) (nf_claimedRevision f) d) (op_groupIntentFence o))
  then (inl lost_intent, d)
  else
    let '(applied, c) := Snapshot.upsertGroupDetails now session group (op_expectedRevision o)
                           (op_capabilityLeaseToken o) (core d) in
    if negb applied then (inr (0, false), d)
    else
      let d1 := d <| core := c |> in
      let '(item_ok, d2) := match op_syncItemFence o with
                            | Some f => Items.renewFence now f d1
                            | None => (true, d1)
                            end in
      if negb item_ok then (inl lost_item, d)
      else
        let '(intent_ok, d3) := match op_groupIntentFence o with
                                | Some f => Intents.renewFence now (nf_sessionId f) (nf_groupId f)
                                              (nf_leaseToken f) (nf_claimedRevision f) d2
                                | None => (true, d2)
                                end in
        if negb intent_ok then (inl lost_intent, d)
        else (inr (Snapshot.gd_participants group, true), d3).

(** The columns of [OpenWASession] the model has *)
Record upstream_session := UpstreamSession {
  us_id : string; us_status : string; us_engineLoaded : bool; us_restriction : option string;
  us_updatedAt : timestamp }.

(** INSERT .. ON CONFLICT (id) DO UPDATE: a status and a restriction observed later win. *)
Definition merge_session (s : upstream_session) (g : gateway_session) : gateway_session :=
  let t := us_updatedAt s in
  g <| gs_status := if gs_status_observed_at g <? t then us_status s else gs_status g |>
    <| gs_engine_loaded := us_engineLoaded s |>
    <| gs_restriction := if gs_restriction_observed_at g <? t then us_restriction s else gs_restriction g |>
    <| gs_status_observed_at := Z.max (gs_status_observed_at g) t |>
    <| gs_restriction_observed_at := Z.max (gs_restriction_observed_at g) t |>
    <| gs_gateway_updated_at := Z.max (gs_gateway_updated_at g) t |>.

Definition new_session (s : upstream_session) : gateway_session :=
  GatewaySession (us_status s) (us_engineLoaded s) (us_restriction s) (us_updatedAt s) (us_updatedAt s)
    (us_updatedAt s).

Definition upsertSession (now : timestamp) (s : upstream_session) (fence : option Fence.sync_fence) (d : gdb)
    : (failure + unit) * gdb :=
  if negb (passes (fun f => Fence.assertSyncWriteOwnership now (us_id s) f d) fence)
  then (inl lost_sync, d)
  else
    let row := match gateway_sessions (core d) !! us_id s with
               | Some g => merge_session s g
               | None => new_session s
               end in
    (inr tt, d <| core := (core d) <| gateway_sessions := <[us_id s := row]> (gateway_sessions (core d)) |> |>).

End Write.

Module SyncService.

Local Open Scope Z_scope.
Abbreviation gserv := (serv_over gdb).

Inductive stage : Set := UPSTREAM | PERSISTENCE.

Definition classifyGroupReadFailure (error : failure) : failure_policy :=
  match error with
  | Upstream (InvalidResponse _) => FailurePolicy false false false None "INVALID_RESPONSE"
  | Upstream (HttpError status retryAfterMs) =>
      if status =? 429 then FailurePolicy true true true retryAfterMs "RATE_LIMITED"
      else if 500 <=? status then FailurePolicy true true false None "UPSTREAM_SERVER_ERROR"
      else if status =? 409 then FailurePolicy true false false None "UPSTREAM_CONFLICT"
      else FailurePolicy false false false None ("UPSTREAM_HTTP_" ++ pretty status)
  | _ => FailurePolicy true true false None "UPSTREAM_NETWORK_ERROR"
  end.

Definition persistence_error : failure_policy := FailurePolicy true false false None "PERSISTENCE_ERROR".

Definition policy_of (s : stage) (error : failure) : failure_policy :=
  match s with UPSTREAM => classifyGroupReadFailure error | PERSISTENCE => persistence_error end.

Definition not_found (s : stage) (error : failure) : bool :=
  match s, error with UPSTREAM, Upstream (HttpError 404 _) => true | _, _ => false end.

Section Config.
Context (cfg : gateway_config) (sha256 : string -> string).
(** The gateway's answer to the request made at an await *)
Context (openwa_getGroup : string -> string -> nat -> upstream_error + Snapshot.details)
  (openwa_getSession : string -> nat -> upstream_error + Write.upstream_session)
  (openwa_listGroups : string -> nat -> upstream_error + list Items.listed)
  (openwa_assertCompatibleRelease : nat -> upstream_error + unit).
(** A heartbeat has found the lease lost by that await. *)
Context (lost : nat -> bool).
(** [ContactSyncService.reconcileObservedContacts] *)
Context (reconcileObservedContacts : string -> gserv unit).

Definition ownershipLost : gserv bool := fun e n d => (inr (lost n), n, d).

Definition allowed (sessionId : string) : bool := mem sessionId (OPENWA_ALLOWED_SESSION_IDS (gw_core cfg)).
Definition forbidden : failure := Exception_ (Forbidden "Session is not in OPENWA_ALLOWED_SESSION_IDS").

Definition request (sessionId : string) (mode : SyncMode.t) : gserv Runs.sync_run_dto :=
  assert! allowed sessionId else forbidden in
  let! created := await (fun now ids d => Runs.create now (ids "sync_run") sessionId mode d) in
  match created with
  | inl _ => throw (Refused HttpStatus.CONFLICT "SYNC_MODE_CONFLICT"
                      "A different synchronization mode is already active")
  | inr id =>
      let! run := query (fun _ d => Runs.find id d) in
      match run with Some r => ret r | None => throw (JsError "Created sync run was not found") end
  end.

(** [ownershipLost || !await renew()] *)
Definition lost_lease (renew : timestamp -> gdb -> bool * gdb) : gserv bool :=
  let! gone := ownershipLost in
  if gone then ret true
  else let! renewed := await (fun now _ d => renew now d) in ret (negb renewed).

(** *** [reconcileGroup] *)

(** After the read: the answer is [members], [None] for [{ skipped: true }]. *)
Definition store_item (claim : Items.claimed) (group : Snapshot.details) : gserv (option Z) :=
  let token := Items.ci_leaseToken claim in
  let! gone := lost_lease (fun now d => Items.renewLease now (Items.ci_id claim) token d) in
  if gone then ret None
  else
    let! result := attempt (fun now _ d => Write.upsertGroupDetails now (Items.ci_sessionId claim) group
      (Write.Options None None None
        (Some (Fence.ItemFence (Items.ci_id claim) (Items.ci_syncRunId claim) (Items.ci_sessionId claim)
                 token (default 0 (Items.ci_syncEpoch claim)))) None) d) in
    if negb result.2 then ret None
    else
      let! completed := await (fun now _ d => Items.complete cfg now (Items.ci_id claim) token result.1 d) in
      ret (if completed then Some result.1 else None).

(** The two jitters are [0.8 + random * 0.4] in thousandths. *)
Definition jitter (ids : string -> uuid) (what : string) : Z := 800 + Z.pos (ids what) mod 401.

Definition item_failed (claim : Items.claimed) (s : stage) (error : failure) : gserv (option Z) :=
  if not_found s error
  then let! _ := await (fun now _ d => Items.skip now (Items.ci_id claim) (Items.ci_leaseToken claim)
                                        (error_message error) d) in ret None
  else
    let policy := policy_of s error in
    let! _ := await (fun now ids d => Items.fail cfg now (jitter ids "delay") (jitter ids "cooldown")
                (Items.ci_id claim) (Items.ci_leaseToken claim) (fp_code policy) policy d) in
    throw error.

(** [try] with the stage the failure happened in *)
Definition staged {A B : Type} (read : gserv A) (store : A -> gserv B) (failed : stage -> failure -> gserv B)
    : gserv B := fun e n d =>
  match read e n d with
  | (inl f, n1, d1) => failed UPSTREAM f e n1 d1
  | (inr a, n1, d1) => catch (store a) (failed PERSISTENCE) e n1 d1
  end.

Definition reconcileGroup (itemId : uuid) : gserv (option Z) :=
  let! claim := await (fun now ids d => Items.claim cfg now (ids "lease") itemId d) in
  match claim with
  | None => ret None
  | Some c =>
      staged (ask (openwa_getGroup (Items.ci_sessionId c) (Items.ci_groupId c)))
        (store_item c) (item_failed c)
  end.

(** *** [reconcileTargetedGroup] *)

(** The answer is [members] and [pending]. *)
Definition store_intent (sessionId groupId : string) (claim : Intents.claimed) (group : Snapshot.details)
    : gserv (option (Z * bool)) :=
  let token := Intents.cl_leaseToken claim in
  let revision := Intents.cl_requestedRevision claim in
  let! gone := lost_lease (fun now d => Intents.renewLease now sessionId groupId token d) in
  if gone then ret None
  else
    let! result := attempt (fun now _ d => Write.upsertGroupDetails now sessionId group
      (Write.Options None None None None (Some (Write.IntentFence sessionId groupId token revision))) d) in
    let! outcome := await (fun now _ d => Intents.complete cfg now sessionId groupId token revision d) in
    ret (match outcome with
         | Intents.LostOwnership => None
         | Intents.Pending_ => Some (result.1, true)
         | Intents.Completed_ => Some (result.1, false)
         end).

Definition intent_failed (sessionId groupId : string) (claim : Intents.claimed) (s : stage) (error : failure)
    : gserv (option (Z * bool)) :=
  let token := Intents.cl_leaseToken claim in
  let revision := Intents.cl_requestedRevision claim in
  if not_found s error
  then let! _ := await (fun now _ d => Intents.skipMissing now sessionId groupId token revision d) in ret None
  else
    let! _ := await (fun now ids d => Intents.fail cfg now (jitter ids "delay") (jitter ids "cooldown")
                sessionId groupId token revision (policy_of s error) d) in
    throw error.

Definition reconcileTargetedGroup (sessionId groupId : string) : gserv (option (Z * bool)) :=
  assert! allowed sessionId else forbidden in
  let! claim := await (fun now ids d => Intents.claim cfg now (ids "lease") sessionId groupId d) in
  match claim with
  | None => ret None
  | Some c =>
      staged (ask (openwa_getGroup sessionId groupId))
        (store_intent sessionId groupId c) (intent_failed sessionId groupId c)
  end.

(** *** [refreshGroupCapability] *)

(** A statement of [GatewayCapabilityRepository] *)
Definition on_core {A : Type} (f : db -> A * db) (d : gdb) : A * gdb :=
  let '(a, c) := f (core d) in (a, d <| core := c |>).

(** A run of the session is PENDING, or RUNNING and discovering. *)
Definition sync_ahead (d : gdb) (session : string) : bool :=
  exists_where (fun _ r => bool_decide (sr_session_id r = session)
    && (Runs.is_pending (sr_status r)
        || Runs.is_running (sr_status r) && bool_decide (sr_phase r = SyncPhase.DISCOVERING))) (sync_runs d).

Definition pace {A : Type} (f : gmap string rate_limit -> A * gmap string rate_limit) (d : gdb) : A * gdb :=
  let '(a, t) := f (rate_limits d) in (a, d <| rate_limits := t |>).

(** [recordSessionRequestOutcome] *)
Definition record_outcome (sessionId : string) (pacing : uuid) (success ratePressure reduceRate : bool)
    : gserv unit :=
  await (fun now ids => pace (fun t => (tt, Pacing.record cfg now (jitter ids "cooldown") sessionId pacing
    (if success then None else Some (FailurePolicy true ratePressure reduceRate None "REQUEST_FAILED")) t))).

Definition refreshGroupCapability (sessionId groupId : string) (expectedRevision : Z) : gserv bool :=
  assert! allowed sessionId else forbidden in
  let! pacingLease := await (fun now ids => pace (Pacing.reserve cfg now (ids "pacing") sessionId)) in
  match pacingLease with
  | None => ret false
  | Some pacing =>
      let! claim := await (fun now ids d => on_core (CapabilityRepo.claim (sync_ahead d) now (ids "lease")
                            sessionId groupId expectedRevision) d) in
      match claim with
      | None =>
          let! _ := await (fun _ _ => pace (fun t => (tt, Pacing.release sessionId pacing t))) in ret false
      | Some (leaseToken, _) =>
          staged (ask (openwa_getGroup sessionId groupId))
            (fun group =>
               let! result := attempt (fun now _ d => Write.upsertGroupDetails now sessionId group
                 (Write.Options (Some expectedRevision) (Some leaseToken) None None None) d) in
               let! _ := record_outcome sessionId pacing true false false in
               ret result.2)
            (fun s error =>
               let policy := policy_of s error in
               let! _ := record_outcome sessionId pacing false (fp_ratePressure policy) (fp_reduceRate policy) in
               let! _ := await (fun now _ => on_core (CapabilityRepo.failAttempt now sessionId groupId
                           expectedRevision leaseToken (fp_code policy) (fp_retryable policy))) in
               throw error)
      end
  end.

(** *** [perform] *)

Definition assertSyncOwnership (syncRunId leaseToken : uuid) : gserv unit :=
  let! gone := lost_lease (fun now d => Runs.renewLease now syncRunId leaseToken d) in
  if gone then throw (JsError "Gateway sync attempt lost ownership") else ret tt.

(** The body of the [try]: [groups] discovered, [None] for [{ skipped: true }] *)
Definition discover (syncRunId : uuid) (claim : Runs.claimed) : gserv (option Z) :=
  let sessionId := Runs.cs_sessionId claim in
  let leaseToken := Runs.cs_leaseToken claim in
  let fence := Fence.SyncFence syncRunId leaseToken (Runs.cs_syncEpoch claim) in
  let! _ := ask openwa_assertCompatibleRelease in
  let! _ := assertSyncOwnership syncRunId leaseToken in
  let! session := ask (openwa_getSession sessionId) in
  let! _ := attempt (fun now _ d => Write.upsertSession now session (Some fence) d) in
  let! _ := assertSyncOwnership syncRunId leaseToken in
  let! groups := ask (openwa_listGroups sessionId) in
  let! _ := assertSyncOwnership syncRunId leaseToken in
  let! run := query (fun _ d => Runs.find syncRunId d) in
  match run with
  | None => ret None
  | Some r =>
      let mode := sr_sync_type (Runs.dto_run r) in
      let! discovery := attempt (fun now ids d =>
        match Items.publishDiscovery cfg sha256 now ids fence sessionId mode groups d with
        | (Some dc, d') => (inr dc, d')
        | (None, d') => (inl (JsError "Gateway sync discovery lost write ownership"), d')
        end) in
      if Items.dc_deferred discovery then ret None
      else
        let! _ := (if bool_decide (mode = SyncMode.FULL) && CONTACT_SNAPSHOT_SYNC_ENABLED cfg
                   then catch (reconcileObservedContacts sessionId) (fun _ => ret tt)
                   else ret tt) in
        ret (Some (Items.dc_discovered discovery))
  end.

Definition perform (syncRunId : uuid) : gserv (option Z) :=
  let! claim := await (fun now ids d => Runs.claim now (ids "lease") syncRunId d) in
  match claim with
  | None => ret None
  | Some c =>
      catch (discover syncRunId c) (fun error =>
        let! _ := await (fun now _ d => Runs.failAttempt now syncRunId (Runs.cs_leaseToken c) 0 0
                    (error_message error) d) in
        throw error)
  end.

(** [GatewaySyncProcessorService.process]: the work items by their names *)
Inductive work : Set :=
  | RefreshGroupCapability (sessionId groupId : string) (expectedRevision : Z)
  | ReconcileSessionGroup (itemId : uuid)
  | ReconcileTargetedGroup (sessionId groupId : string)
  | FullSync (syncRunId : uuid).

Inductive outcome : Set := Applied (applied : bool) | Members (m : option Z) | Targeted (r : option (Z * bool)).

Definition process (w : work) : gserv outcome :=
  match w with
  | RefreshGroupCapability s g rev => let! r := refreshGroupCapability s g rev in ret (Applied r)
  | ReconcileSessionGroup id => let! r := reconcileGroup id in ret (Members r)
  | ReconcileTargetedGroup s g => let! r := reconcileTargetedGroup s g in ret (Targeted r)
  | FullSync id => let! r := perform id in ret (Members r)
  end.

(** *** Taking a call apart *)

(** A write that was applied passed its fences. *)
Lemma upsert_fenced now s g o d m d' : Write.upsertGroupDetails now s g o d = (inr (m, true), d') ->
  m = Snapshot.gd_participants g /\
  (forall f, Write.op_syncItemFence o = Some f -> Fence.assertSyncItemWriteOwnership now f d = true) /\
  (forall f, Write.op_groupIntentFence o = Some f ->
     Intents.assertGroupIntentWriteOwnership now (Write.nf_sessionId f) (Write.nf_groupId f)
       (Write.nf_leaseToken f) (Write.nf_claimedRevision f) d = true).
Proof.
  unfold Write.upsertGroupDetails. destruct (negb (Write.passes _ (Write.op_syncFence o))); [done|].
  destruct (negb (Write.passes _ (Write.op_syncItemFence o))) eqn:E1; [done|].
  destruct (negb (Write.passes _ (Write.op_groupIntentFence o))) eqn:E2; [done|].
  apply negb_false_iff in E1, E2.
  destruct (Snapshot.upsertGroupDetails _ _ _ _ _ _) as [applied c]. destruct applied; [|by intros [=]].
  cbn [negb]. destruct (match Write.op_syncItemFence o with Some _ => _ | None => _ end) as [ok1 d2].
  destruct ok1; [|done]. cbn [negb].
  destruct (match Write.op_groupIntentFence o with Some _ => _ | None => _ end) as [ok2 d3].
  destruct ok2; [|done]. cbn [negb]. intros [= <- <-]. split; [done|].
  split; intros f Hf; [by rewrite Hf in E1|by rewrite Hf in E2].
Qed.

(** What [store_item] did when it answered with members *)
Lemma store_item_ok c g e n d m n' d' : store_item c g e n d = (inr (Some m), n', d') ->
  m = Snapshot.gd_participants g /\
  exists k dw, Fence.assertSyncItemWriteOwnership (clock e k)
      (Fence.ItemFence (Items.ci_id c) (Items.ci_syncRunId c) (Items.ci_sessionId c) (Items.ci_leaseToken c)
         (default 0 (Items.ci_syncEpoch c))) dw = true /\
    Items.complete cfg (clock e (pred n')) (Items.ci_id c) (Items.ci_leaseToken c) m
      (Service.between e (pred n') (Write.upsertGroupDetails (clock e k) (Items.ci_sessionId c) g
        (Write.Options None None None (Some (Fence.ItemFence (Items.ci_id c) (Items.ci_syncRunId c)
           (Items.ci_sessionId c) (Items.ci_leaseToken c) (default 0 (Items.ci_syncEpoch c)))) None) dw).2)
    = (true, d').
Proof.
  unfold store_item. intros (gone & n1 & d1 & _ & E)%bind_ok. destruct gone; [by injection E|].
  apply bind_ok in E as ([m1 applied] & n2 & d2 & E1 & E). apply attempt_ok in E1 as [-> E1].
  destruct applied; [|by injection E]. cbn in E.
  apply bind_ok in E as (done_ & n3 & d3 & E2 & E). apply await_ok in E2 as [-> E2].
  destruct done_; [|by injection E]. injection E as <- <- <-.
  destruct (upsert_fenced _ _ _ _ _ _ _ E1) as (Hm & Hf & _). split; [done|].
  exists n1, (Service.between e n1 d1). split; [by apply Hf|]. rewrite E1. cbn. exact E2.
Qed.

(** An upstream error can only come from the read. *)
Lemma store_item_failed c g e n d f n' d' : store_item c g e n d = (inl f, n', d') ->
  forall err, f <> Upstream err.
Proof.
  unfold store_item. intros [E|(gone & n1 & d1 & _ & E)]%bind_inl err ->.
  - apply bind_inl in E as [E|(b & n1 & d1 & _ & E)]; [done|]. destruct b; [done|].
    apply bind_inl in E as [E|(r & n2 & d2 & _ & E)]; [|done]. by apply await_inv in E as [m ?].
  - destruct gone; [done|]. apply bind_inl in E as [E|(r & n2 & d2 & _ & E)].
    + unfold attempt in E. apply bind_inl in E as [E|(r & n2 & d2 & E1 & E)].
      * by apply await_inv in E as [m ?].
      * destruct r as [h|b]; [|done]. injection E as -> <- <-. apply await_inv in E1 as [_ E1].
        unfold Write.upsertGroupDetails in E1. repeat (destruct (negb _) in E1; [done|]).
        destruct (Snapshot.upsertGroupDetails _ _ _ _ _ _) as [applied c'].
        destruct (negb applied); [done|].
        destruct (match Write.op_syncItemFence _ with Some _ => _ | None => _ end) as [ok1 d4].
        destruct (negb ok1); [done|].
        destruct (match Write.op_groupIntentFence _ with Some _ => _ | None => _ end) as [ok2 d5].
        by destruct (negb ok2).
    + destruct (negb r.2); [done|]. apply bind_inl in E as [E|(b & n3 & d3 & _ & E)]; [|done].
      by apply await_inv in E as [m ?].
Qed.

End Config.

(** A read of a group that reports members is the answer to a request made after the
    item was claimed; it was stored while the item was RUNNING under that claim's live
    lease and epoch, and the item was then completed with exactly that number of members.
    A failed read is recorded with the policy its error calls for, and rethrown. *)
Theorem group_read_is_fenced (cfg : gateway_config)
    (openwa_getGroup : string -> string -> nat -> upstream_error + Snapshot.details) (lost : nat -> bool)
    (itemId : uuid) (e : env_over gdb) (n : nat) (d : gdb) (r : failure + option Z) (n' : nat) (d' : gdb)
    (E : reconcileGroup cfg openwa_getGroup lost itemId e n d = (r, n', d')) :
  match r with
  | inr (Some m) => exists c d1 g k dw,
      Items.claim cfg (clock e n) (drawn e n "lease") itemId (Service.between e n d) = (Some c, d1) /\
      openwa_getGroup (Items.ci_sessionId c) (Items.ci_groupId c) (S n) = inr g /\
      m = Snapshot.gd_participants g /\
      Fence.assertSyncItemWriteOwnership (clock e k)
        (Fence.ItemFence (Items.ci_id c) (Items.ci_syncRunId c) (Items.ci_sessionId c) (Items.ci_leaseToken c)
           (default 0 (Items.ci_syncEpoch c))) dw = true /\
      Items.complete cfg (clock e (pred n')) (Items.ci_id c) (Items.ci_leaseToken c) m
        (Service.between e (pred n') (Write.upsertGroupDetails (clock e k) (Items.ci_sessionId c) g
          (Write.Options None None None (Some (Fence.ItemFence (Items.ci_id c) (Items.ci_syncRunId c)
             (Items.ci_sessionId c) (Items.ci_leaseToken c) (default 0 (Items.ci_syncEpoch c)))) None) dw).2)
      = (true, d')
  | inl (Upstream err) => exists c d1 j j',
      Items.claim cfg (clock e n) (drawn e n "lease") itemId (Service.between e n d) = (Some c, d1) /\
      openwa_getGroup (Items.ci_sessionId c) (Items.ci_groupId c) (S n) = inl err /\
      not_found UPSTREAM (Upstream err) = false /\
      d' = (Items.fail cfg (clock e (S (S n))) j j' (Items.ci_id c) (Items.ci_leaseToken c)
              (fp_code (classifyGroupReadFailure (Upstream err))) (classifyGroupReadFailure (Upstream err))
              (Service.between e (S (S n)) (Service.between e (S n) d1))).2
  | _ => True
  end.
Proof.
  unfold reconcileGroup in E. destruct r as [f|[m|]]; [destruct f as [| | | |err]; try done| |done].
  - apply bind_inl in E as [E|(claim & n1 & d1 & Ec & E)]; [by apply await_inv in E as [m ?]|].
    apply await_inv in Ec as [-> Ec]. destruct claim as [c|]; [|done]. unfold staged in E.
    destruct (ask _ e (S n) d1) as [[[f|g] n2] d2] eqn:Ea; apply ask_inv in Ea as (-> & -> & Ha).
    + destruct Ha as (err' & Ha & ->). unfold item_failed in E.
      destruct (not_found UPSTREAM (Upstream err')) eqn:Enf.
      { apply bind_inl in E as [E|(x & n3 & d3 & _ & E)]; [by apply await_inv in E as [m ?]|done]. }
      apply bind_inl in E as [E|(x & n3 & d3 & Ex & E)]; [by apply await_inv in E as [m ?]|].
      injection E as -> <- <-. apply await_inv in Ex as [-> Ex]. exists c, d1. eexists _, _.
      split; [done|]. split; [done|]. split; [done|]. cbn [policy_of] in Ex. by rewrite Ex.
    + apply catch_failed in E as (f & n3 & d3 & Es & E). pose proof (store_item_failed _ _ _ _ _ _ _ _ _ _ Es) as Hf.
      unfold item_failed in E. cbn [not_found] in E.
      apply bind_inl in E as [E|(x & n4 & d4 & _ & E)]; [by apply await_inv in E as [m ?]|].
      injection E as -> _ _. by destruct (Hf err).
  - apply bind_ok in E as (claim & n1 & d1 & Ec & E). apply await_ok in Ec as [-> Ec].
    destruct claim as [c|]; [|done]. unfold staged in E.
    destruct (ask _ e (S n) d1) as [[[f|g] n2] d2] eqn:Ea; apply ask_inv in Ea as (-> & -> & Ha).
    + unfold item_failed in E. destruct (not_found UPSTREAM f);
        apply bind_ok in E as (x & n3 & d3 & _ & E); by injection E.
    + apply catch_ok in E as [E|(f & n3 & d3 & _ & E)].
      * apply store_item_ok in E as (Hm & k & dw & Hf & Hc). exists c, d1, g, k, dw. by split_and!.
      * unfold item_failed in E. cbn [not_found] in E. apply bind_ok in E as (x & n4 & d4 & _ & E). done.
Qed.

(** *** Slowing down *)

(** The gateway is overloaded or did not answer: 429, a server error, or no response. *)
Definition overloaded (s : stage) (error : failure) : bool :=
  match s, error with
  | UPSTREAM, Upstream (HttpError status _) => (status =? 429) || (500 <=? status)
  | UPSTREAM, Upstream (InvalidResponse _) => false
  | UPSTREAM, _ => true
  | PERSISTENCE, _ => false
  end.

Definition rate_limited (s : stage) (error : failure) : bool :=
  match s, error with UPSTREAM, Upstream (HttpError status _) => status =? 429 | _, _ => false end.

Definition retry_after (error : failure) : option Z :=
  match error with
  | Upstream (HttpError status after) => if status =? 429 then after else None
  | _ => None
  end.

Definition final_error (s : stage) (error : failure) : bool :=
  match s, error with
  | UPSTREAM, Upstream (InvalidResponse _) => true
  | UPSTREAM, Upstream (HttpError status _) => negb ((status =? 429) || (500 <=? status) || (status =? 409))
  | _, _ => false
  end.

(** A failed group read slows its session down exactly as the design says.  The session
    cools down, for as long as Retry-After asks or by the back-off, only when the gateway was
    overloaded or did not answer; its rate is halved, down to the minimum, only by a 429 with
    adaptive pacing; an invalid response, another client error or a database error leave both
    alone, and only the first two of them end the item's attempts. *)
Theorem errors_slow_down_exactly (cfg : gateway_config) (s : stage) (error : failure) (now : timestamp)
    (jitter : Z) (l : rate_limit) :
  let l' := Pacing.failed cfg now jitter (policy_of s error) l in
  let rate := default (GATEWAY_SYNC_GROUPS_PER_MINUTE cfg) (rl_effective_requests_per_minute l) in
  rl_cooldown_until l' =
    (if overloaded s error
     then Some (now + default (Pacing.cooldown_s (rl_consecutive_failures l + 1) * jitter) (retry_after error))
     else rl_cooldown_until l) /\
  rl_consecutive_failures l' =
    (if overloaded s error then rl_consecutive_failures l + 1 else rl_consecutive_failures l) /\
  rl_effective_requests_per_minute l' =
    Some (if rate_limited s error && GATEWAY_SYNC_ADAPTIVE_PACING cfg
          then Z.max (GATEWAY_SYNC_MIN_GROUPS_PER_MINUTE cfg) (rate / 2) else rate) /\
  fp_retryable (policy_of s error) = negb (final_error s error) /\
  rl_active_lease_token l' = None.
Proof.
  cbn zeta. unfold policy_of, overloaded, rate_limited, retry_after, final_error, classifyGroupReadFailure.
  destruct s; [|by split_and!]. destruct error as [| | | |[status after|m|m]]; try by split_and!.
  destruct (status =? 429) eqn:E1; [by split_and!|].
  destruct (500 <=? status) eqn:E2; [by split_and!|].
  destruct (status =? 409) eqn:E3; by split_and!.
Qed.

(** *** Witnesses *)

Definition quiet (between : nat -> gdb -> gdb) : env_over gdb :=
  Env (fun n => 100 + Z.of_nat n) (fun _ _ => 50%positive) between (fun _ => None).

Definition example_details (g : string) : Snapshot.details :=
  Snapshot.Details g "Team" 12 (Some false) (Some false) (Some false) None.

Definition example_read (_ g : string) (_ : nat) : upstream_error + Snapshot.details := inr (example_details g).

Definition example_call (between : nat -> gdb -> gdb) :=
  reconcileGroup Sync.example_config example_read (fun _ => false) 101 (quiet between) 0%nat (Sync.example_db 3).

Lemma group_read_is_fenced_witness : exists n' d' k dw,
  example_call (fun _ d => d) = (inr (Some 12), n', d') /\
  Fence.assertSyncItemWriteOwnership k (Fence.ItemFence 101 1 "s" 50 1) dw = true.
Proof.
  destruct (example_call (fun _ d => d)) as [[r n'] d'] eqn:E.
  assert (Hr : r = inr (Some 12)) by (vm_compute in E; by injection E as <- _ _). subst r.
  destruct (group_read_is_fenced _ _ _ _ _ _ _ _ _ _ E) as (c & d1 & g & k & dw & Hc & _ & _ & Hf & _).
  exists n', d', (clock (quiet (fun _ d => d)) k), dw. split; [done|].
  assert (Hcl : c = Items.Claimed 101 1 "s" "a" 50 1 (Some 1) (Some (Items.summaryFingerprint Sync.example_hash (Sync.example_group "a"))))
    by (vm_compute in Hc; by injection Hc as <- _).
  rewrite Hcl in Hf. exact Hf.
Defined.

(** *** An event during a read

    A change event that arrives after the gateway answered and before the details are
    stored is wiped out: the write checks its item's fence, but not the revision of the
    group's capability, so it stores ALLOWED, computed from the older answer, and removes
    the invalidation. *)

Definition event_during_read (n : nat) (d : gdb) : gdb :=
  if (n =? 2)%nat then d <| core := Snapshot.groupChanged 101 "s" "a" (core d) |> else d.

Lemma item_write_erases_newer_event : exists n' d' g,
  example_call event_during_read = (inr (Some 12), n', d') /\
  gateway_groups (core d') !! ("s", "a") = Some g /\
  gg_send_capability g = Capability.ALLOWED /\ gg_capability_invalidated_at g = None.
Proof.
  destruct (example_call event_during_read) as [[r n'] d'] eqn:E.
  destruct (gateway_groups (core d') !! ("s", "a")) as [g|] eqn:Eg.
  - exists n', d', g.
    assert (H : r = inr (Some 12) /\ gg_send_capability g = Capability.ALLOWED /\
      gg_capability_invalidated_at g = None).
    { vm_compute in E. injection E as <- _ <-. vm_compute in Eg. by injection Eg as <-. }
    destruct H as (-> & H1 & H2). by split_and!.
  - exfalso. vm_compute in E. injection E as _ _ <-. by vm_compute in Eg.
Qed.

End SyncService.
