(* ===== verification/WebhookSchema.v ===== *)
(** * JSON values and the tables of webhooks

    The bodies of provider events are JSON of which nothing is known beforehand; [json] is
    what [JSON.parse] returns and a [jsonb] column keeps, with the readings of JavaScript the
    code makes ([get], [truthy_json], [or_], [nullish], [to_string], [stringify]).  Numbers are
    integers (Unix times, acknowledgement codes).  [wdb] adds the tables of
    [src/src/modules/webhooks] and the queue of observed contact names to the tables of the
    synchronisation. *)

From S2P Require Import Prelude Schema Json GatewaySchema.
From stdpp Require Import pretty.

#[warnings="-register-all"]
Inductive json : Set :=
  | JNull
  | JBool (b : bool)
  | JNum (n : Z)
  | JStr (s : string)
  | JArr (l : list json)
  | JObj (members : list (string * json)).

Module JsonValue.
Local Open Scope string_scope.

(** [value[key]]: [None] is [undefined].  Only names that no prototype has are read. *)
Definition get (key : string) (v : json) : option json :=
  match v with
  | JObj members => snd <$> List.find (fun m => String.eqb m.1 key) members
  | _ => None
  end.

Definition truthy_json (v : option json) : bool :=
  match v with
  | None | Some JNull => false
  | Some (JBool b) => b
  | Some (JNum n) => negb (n =? 0)%Z
  | Some (JStr s) => truthy s
  | Some (JArr _) | Some (JObj _) => true
  end.

(** [a || b] *)
Definition or_ (a b : option json) : option json := if truthy_json a then a else b.

(** [a ?? b] *)
Definition nullish (a b : option json) : option json :=
  match a with None | Some JNull => b | _ => a end.

(** [value === true] *)
Definition is_true (v : option json) : bool :=
  match v with Some (JBool true) => true | _ => false end.

(** [String(value)]: [None] is a TypeError, for an object whose [toString] cannot be called.
    An array joins its elements; null and undefined ones are empty. *)
Fixpoint to_string (v : json) : option string :=
  match v with
  | JNull => Some "null"
  | JBool true => Some "true"
  | JBool false => Some "false"
  | JNum n => Some (pretty n)
  | JStr s => Some s
  | JArr l =>
      let element x := match x with JNull => Some "" | _ => to_string x end in
      (fix join (l : list json) : option string :=
         match l with
         | [] => Some ""
         | [x] => element x
         | x :: l' => a ← element x; b ← join l'; Some (a ++ "," ++ b)
         end) l
  | JObj members => match get "toString" (JObj members) with
                    | None => Some "[object Object]"
                    | Some _ => None
                    end
  end.

(** [JSON.stringify(value)] *)
Fixpoint stringify (v : json) : string :=
  match v with
  | JNull => "null"
  | JBool true => "true"
  | JBool false => "false"
  | JNum n => pretty n
  | JStr s => Json.json_string s
  | JArr l =>
      "[" ++ (fix elements (l : list json) : string :=
         match l with
         | [] => "]"
         | [x] => stringify x ++ "]"
         | x :: l' => stringify x ++ "," ++ elements l'
         end) l
  | JObj members =>
      "{" ++ (fix fields (l : list (string * json)) : string :=
         match l with
         | [] => "}"
         | [(k, x)] => Json.json_string k ++ ":" ++ stringify x ++ "}"
         | (k, x) :: l' => Json.json_string k ++ ":" ++ stringify x ++ "," ++ fields l'
         end) members
  end.

(** A statement parameter for a text column: undefined and null are NULL, an object is its
    JSON text. *)
Definition parameter (v : option json) : option string :=
  match v with
  | None | Some JNull => None
  | Some (JStr s) => Some s
  | Some x => Some (stringify x)
  end.

End JsonValue.

(** [OpenWAWebhookEnvelope] *)
Record envelope := Envelope {
  ev_event : string;
  ev_timestamp : string;
  ev_sessionId : string;
  ev_idempotencyKey : string;
  ev_deliveryId : string;
  ev_data : json }.

Module ProcessingState.
Inductive t : Set := PENDING | PROCESSING | RETRY | PROCESSED | DEAD.
#[global] Instance eq_dec : EqDecision t.
Proof. solve_decision. Defined.
End ProcessingState.

(** [webhook_events], keyed by [idempotency_key] *)
Record webhook_event := WebhookEvent {
  we_id : uuid;
  we_delivery_id : string;
  we_event_type : string;
  we_session_id : string;
  we_payload : envelope;
  we_processing_state : ProcessingState.t;
  we_attempt_count : Z;
  we_next_attempt_at : timestamp;
  we_lease_token : option uuid;
  we_lease_expires_at : option timestamp;
  we_last_attempt_at : option timestamp;
  we_processed_at : option timestamp;
  we_dead_at : option timestamp;
  we_processing_error : option string;
  we_received_at : timestamp }.
#[export] Instance webhook_event_eta : Eta webhook_event := fun w => WebhookEvent
  (we_id w) (we_delivery_id w) (we_event_type w) (we_session_id w) (we_payload w)
  (we_processing_state w) (we_attempt_count w) (we_next_attempt_at w) (we_lease_token w)
  (we_lease_expires_at w) (we_last_attempt_at w) (we_processed_at w) (we_dead_at w)
  (we_processing_error w) (we_received_at w).

(** [runtime_events], keyed by [event_id] *)
Record ledger_event := LedgerEvent {
  le_source_event_type : string;
  le_event_type : string;
  le_event_version : Z;
  le_session_id : string;
  le_occurred_at : timestamp;
  le_payload : json;
  le_created_at : timestamp }.

(** [inbound_messages], keyed by (session_id, message_id) *)
Record inbound_message := InboundMessage {
  im_group_id : string;
  im_sender_id : string;
  im_body : string;
  im_message_type : string;
  im_from_me : bool;
  im_received_at : timestamp;
  im_event_id : string;
  im_created_at : timestamp }.

(** [message_events], keyed by [event_id] *)
Record message_event := MessageEvent {
  me_session_id : string;
  me_message_id : string;
  me_group_id : option string;
  me_event_type : string;
  me_delivery_status : option string;
  me_occurred_at : timestamp }.

(** [contact_message_observation_intents], keyed by [event_id] *)
Record observation_intent := ObservationIntent {
  oi_session_id : string;
  oi_sender_id : string;
  oi_push_name : string;
  oi_observed_at : timestamp;
  oi_processing_state : ProcessingState.t;
  oi_attempt_count : Z;
  oi_next_attempt_at : timestamp;
  oi_lease_token : option uuid;
  oi_lease_expires_at : option timestamp;
  oi_processing_error : option string;
  oi_created_at : timestamp }.
#[export] Instance observation_intent_eta : Eta observation_intent := fun o => ObservationIntent
  (oi_session_id o) (oi_sender_id o) (oi_push_name o) (oi_observed_at o) (oi_processing_state o)
  (oi_attempt_count o) (oi_next_attempt_at o) (oi_lease_token o) (oi_lease_expires_at o)
  (oi_processing_error o) (oi_created_at o).

Record wdb := Wdb {
  gateway : gdb;
  webhook_events : gmap string webhook_event;
  runtime_events : gmap string ledger_event;
  inbound_messages : gmap (string * string) inbound_message;
  message_events : gmap string message_event;
  observation_intents : gmap string observation_intent }.
#[export] Instance wdb_eta : Eta wdb := fun d => Wdb
  (gateway d) (webhook_events d) (runtime_events d) (inbound_messages d) (message_events d)
  (observation_intents d).

Definition empty_wdb : wdb := Wdb empty_gdb ∅ ∅ ∅ ∅ ∅.

(** The part of [RuntimeConfig] that webhooks read *)
Record webhook_config := WebhookConfig {
  wc_gateway : gateway_config;
  OPENWA_WEBHOOK_SECRET : string;
  RUNTIME_COMPACT_EVENT_PAYLOAD_ENABLED : bool;
  RUNTIME_COMPACT_PROCESSED_WEBHOOK_PAYLOAD_ENABLED : bool;
  CONTACT_MESSAGE_ENRICHMENT_ENABLED : bool }.
