(* ===== verification/WebhookEvents.v ===== *)
(** * Provider events

    [src/src/modules/webhooks/webhook-normalizer.ts] (Module [Normalizer]) turns a stored
    webhook into a runtime event, and
    [src/src/modules/webhooks/runtime-event.repository.ts] (Module [RuntimeEvents]) writes
    what follows from it, once per event id.  [Observations] is the queue of contact names
    seen in messages, [src/src/modules/contacts/contact-message-observation-intent.repository.ts].

    [sha256], [Date_parse] ([new Date(text)]) and [Number_] ([Number(text)] when it is finite)
    are arguments. *)

From S2P Require Import Prelude Schema Json SendPolicy Service Groups GatewaySchema GatewayPacing GatewayIntents WebhookSchema.

Module Normalizer.
Import JsonValue.

Local Open Scope Z_scope.

(** [RuntimeEvent]; [occurredAt] is [None] for an Invalid Date. *)
Record runtime_event := RuntimeEvent {
  rv_eventId : string;
  rv_sourceEventType : string;
  rv_eventType : string;
  rv_eventVersion : Z;
  rv_sessionId : string;
  rv_occurredAt : option timestamp;
  rv_payload : json }.

Section Dates.
Context (Date_parse : string -> option timestamp) (Number_ : string -> option Z).

(** [new Date(number)] *)
Definition date_of (n : Z) : option timestamp := if Z.abs n <=? 8640000000000000 then Some n else None.

(** A number below 10^10 counts seconds. *)
Definition unix (n : Z) : option timestamp := date_of (if n <? 10000000000 then n * 1000 else n).

Definition dateFrom (value : option json) (fallback : string) : option timestamp :=
  match value with
  | Some (JNum n) => unix n
  | Some (JStr s) =>
      if truthy (trim s) then
        match Number_ s with
        | Some n => unix n
        | None => match Date_parse s with
                  | Some t => Some t
                  | None => Date_parse fallback
                  end
        end
      else Date_parse fallback
  | _ => Date_parse fallback
  end.

Definition text (value : option json) : string :=
  match value with Some (JStr s) => s | _ => "" end.

(** [text(value) || null] *)
Definition text_or_null (value : option json) : json :=
  if truthy (text value) then JStr (text value) else JNull.

(** [text(value) || 'unknown'] *)
Definition text_or_unknown (value : option json) : json :=
  JStr (if truthy (text value) then text value else "unknown").

Definition message_events_types : list string := ["message.ack"; "message.sent"; "message.failed"].
Definition group_event_types : list string := ["group.join"; "group.leave"; "group.update"].

Definition message_payload (data : json) : json :=
  let groupId := text (or_ (get "chatId" data) (get "from" data)) in
  JObj [("messageId", JStr (text (get "id" data)));
        ("groupId", JStr groupId);
        ("senderId", JStr (text (or_ (get "author" data) (get "from" data))));
        ("body", JStr (text (get "body" data)));
        ("messageType", text_or_unknown (get "type" data));
        ("fromMe", JBool (is_true (get "fromMe" data)));
        ("isGroup", JBool (is_true (get "isGroup" data) || ends_with "@g.us" groupId))].

Definition status_payload (data : json) : json :=
  JObj [("messageId", JStr (text (or_ (get "messageId" data) (get "id" data))));
        ("groupId", text_or_null (get "chatId" data));
        ("deliveryStatus", text_or_null (or_ (get "status" data) (get "ack" data)))].

Definition restriction_payload (data : json) : json :=
  JObj [("active", JBool (is_true (get "active" data)));
        ("kind", text_or_null (get "kind" data));
        ("code", text_or_null (get "code" data));
        ("expiresAt", text_or_null (get "expiresAt" data))].

Definition group_payload (data : json) : json :=
  JObj [("groupId", JStr (text (get "groupId" data)));
        ("participantIds", match get "participantIds" data with Some (JArr l) => JArr l | _ => JArr [] end);
        ("changes", match get "changes" data with
                    | Some (JArr l) => JArr l
                    | Some (JObj m) => JObj m
                    | _ => JNull
                    end)].

Definition normalizeOpenWAWebhook (e : envelope) : runtime_event :=
  let data := ev_data e in
  let event eventType payload :=
    RuntimeEvent (ev_idempotencyKey e) (ev_event e) eventType 1 (ev_sessionId e)
      (dateFrom (get "timestamp" data) (ev_timestamp e)) payload in
  if bool_decide (ev_event e = "message.received") then event "message.received" (message_payload data)
  else if mem (ev_event e) message_events_types then event (ev_event e) (status_payload data)
  else if bool_decide (ev_event e = "session.status")
  then event "session.status.changed" (JObj [("status", text_or_unknown (get "status" data))])
  else if bool_decide (ev_event e = "session.restriction")
  then event "session.restriction.changed" (restriction_payload data)
  else if mem (ev_event e) group_event_types then event (ev_event e) (group_payload data)
  else event ("gateway." ++ ev_event e)%string data.

End Dates.
End Normalizer.

Module Observations.

Local Open Scope Z_scope.

Definition MAX_ATTEMPTS : Z := 10.
Definition lease_ms : Z := 120000.

Definition is_open (s : ProcessingState.t) : bool := mem s [ProcessingState.PENDING; ProcessingState.RETRY].
Definition is_processing (s : ProcessingState.t) : bool := bool_decide (s = ProcessingState.PROCESSING).

Definition on_intents {A : Type} (f : gmap string observation_intent -> A * gmap string observation_intent)
    (d : wdb) : A * wdb :=
  let '(a, t) := f (observation_intents d) in (a, d <| observation_intents := t |>).

Definition new_intent (now : timestamp) (session sender pushName : string) (observedAt : timestamp)
    : observation_intent :=
  ObservationIntent session sender pushName observedAt ProcessingState.PENDING 0 now None None None now.

(** ON CONFLICT (event_id) DO NOTHING *)
Definition enqueue (now : timestamp) (eventId session sender pushName : string) (observedAt : timestamp)
    (d : wdb) : bool * wdb :=
  on_intents (fun t => (is_null (t !! eventId),
    insert_absent eventId (new_intent now session sender pushName observedAt) t)) d.

Definition expired (now : timestamp) (_ : string) (o : observation_intent) : bool :=
  is_processing (oi_processing_state o) && before (oi_lease_expires_at o) now.

(** A failed attempt; [next] is when the following one is due. *)
Definition end_attempt (next : timestamp) (error : string) (o : observation_intent) : observation_intent :=
  let spent := MAX_ATTEMPTS <=? oi_attempt_count o in
  o <| oi_processing_state := if spent then ProcessingState.DEAD else ProcessingState.RETRY |>
    <| oi_next_attempt_at := if spent then oi_next_attempt_at o else next |>
    <| oi_lease_token := None |> <| oi_lease_expires_at := None |>
    <| oi_processing_error := Some error |>.

Definition recoverExpired (now : timestamp) (d : wdb) : Z * wdb :=
  on_intents (fun t => (count_where (expired now) t,
    update_where (expired now) (end_attempt now "Recovered expired processing lease") t)) d.

Definition due (now : timestamp) (locked : string -> bool) (k : string) (o : observation_intent) : bool :=
  is_open (oi_processing_state o) && (oi_next_attempt_at o <=? now) && negb (locked k).

Definition by_due (a b : string * observation_intent) : bool :=
  (oi_next_attempt_at a.2 <? oi_next_attempt_at b.2)
  || (oi_next_attempt_at a.2 =? oi_next_attempt_at b.2) && (oi_created_at a.2 <=? oi_created_at b.2).

Definition claim_row (now : timestamp) (token : uuid) (o : observation_intent) : observation_intent :=
  o <| oi_processing_state := ProcessingState.PROCESSING |>
    <| oi_attempt_count := oi_attempt_count o + 1 |>
    <| oi_lease_token := Some token |> <| oi_lease_expires_at := Some (now + lease_ms) |>
    <| oi_processing_error := None |>.

(** The claimed rows, FOR UPDATE SKIP LOCKED; [token] draws one token per row. *)
Definition claim (now : timestamp) (token : string -> uuid) (locked : string -> bool) (limit : nat) (d : wdb)
    : list (string * observation_intent) * wdb :=
  on_intents (fun t =>
    let keys := (take limit (order_by by_due (select_where (due now locked) t))).*1 in
    let t' := map_imap (fun k o => Some (if mem k keys then claim_row now (token k) o else o)) t in
    (omap (fun k => (fun o => (k, o)) <$> t' !! k) keys, t')) d.

Definition held (token : uuid) (o : observation_intent) : bool :=
  is_processing (oi_processing_state o) && bool_decide (oi_lease_token o = Some token).

Definition complete (eventId : string) (token : uuid) (d : wdb) : bool * wdb :=
  on_intents (fun t => match t !! eventId with
                       | Some o => if held token o then (true, base.delete eventId t) else (false, t)
                       | None => (false, t)
                       end) d.

Definition backoff_ms (attempts : Z) : Z := Z.min 900 (5 * 2 ^ (attempts - 1)) * 1000.

(** The answer is the new state; [None] is LOST_OWNERSHIP. *)
Definition fail (now : timestamp) (eventId : string) (token : uuid) (error : string) (d : wdb)
    : option ProcessingState.t * wdb :=
  on_intents (fun t =>
    let '(row, t') := update_row eventId (held token)
      (fun o => end_attempt (now + backoff_ms (oi_attempt_count o)) error o) t in
    (oi_processing_state <$> row, t')) d.

End Observations.

Module RuntimeEvents.
Import JsonValue Normalizer.

Local Open Scope Z_scope.

(** [Buffer.byteLength(body, 'utf8')] of code units up to 255 *)
Fixpoint utf8_length (s : string) : Z :=
  match s with
  | EmptyString => 0
  | String c s' => (if (Ascii.nat_of_ascii c <? 128)%nat then 1 else 2) + utf8_length s'
  end.

Section Config.
Context (cfg : webhook_config) (sha256 : string -> string).

(** [const { body, ...metadata } = payload] *)
Definition without_body (payload : json) : list (string * json) :=
  match payload with
  | JObj members => List.filter (fun m => negb (String.eqb m.1 "body")) members
  | _ => []
  end.

Definition runtimeEventLedgerRecord (e : runtime_event) : Z * json :=
  if negb (RUNTIME_COMPACT_EVENT_PAYLOAD_ENABLED cfg)
     || negb (bool_decide (rv_eventType e = "message.received"))
  then (rv_eventVersion e, rv_payload e)
  else
    let body := text (get "body" (rv_payload e)) in
    (2, JObj (without_body (rv_payload e) ++
              [("bodyBytes", JNum (utf8_length body)); ("bodySha256", JStr (sha256 body))])).

Definition null_violation : failure := Broken "null value violates not-null constraint".
Definition collision (e : runtime_event) : failure :=
  JsError ("Runtime event idempotency collision: " ++ rv_eventId e).

(** A parameter of a NOT NULL text column *)
Definition required (v : option json) : failure + string :=
  match parameter v with Some s => inr s | None => inl null_violation end.

(** A parameter of a NOT NULL boolean column *)
Definition required_bool (v : option json) : failure + bool :=
  match v with Some (JBool b) => inr b | _ => inl null_violation end.

Definition field_of (e : runtime_event) (name : string) : option json := get name (rv_payload e).

(** INSERT INTO inbound_messages .. ON CONFLICT (session_id, message_id) DO NOTHING *)
Definition store_message (now occurred : timestamp) (e : runtime_event) (d : wdb) : failure + wdb :=
  if bool_decide (rv_eventType e = "message.received") && is_true (field_of e "isGroup")
     && truthy_json (field_of e "messageId")
  then
    match required (field_of e "messageId"), required (field_of e "groupId"),
          required (field_of e "senderId"), required (field_of e "body"),
          required (field_of e "messageType"), required_bool (field_of e "fromMe") with
    | inr id, inr group, inr sender, inr body, inr type, inr fromMe =>
        inr (d <| inbound_messages := insert_absent (rv_sessionId e, id)
          (InboundMessage group sender body type fromMe occurred (rv_eventId e) now) (inbound_messages d) |>)
    | _, _, _, _, _, _ => inl null_violation
    end
  else inr d.

(** INSERT INTO message_events .. ON CONFLICT (event_id) DO NOTHING *)
Definition store_status (occurred : timestamp) (e : runtime_event) (d : wdb) : failure + wdb :=
  if mem (rv_eventType e) message_events_types && truthy_json (field_of e "messageId")
  then
    match required (field_of e "messageId") with
    | inr id =>
        inr (d <| message_events := insert_absent (rv_eventId e)
          (MessageEvent (rv_sessionId e) id (parameter (field_of e "groupId")) (rv_eventType e)
             (parameter (field_of e "deliveryStatus")) occurred) (message_events d) |>)
    | inl f => inl f
    end
  else inr d.

Definition update_session (session : string) (P : gateway_session -> bool)
    (f : gateway_session -> gateway_session) (d : wdb) : wdb :=
  let g := gateway d in
  let sessions := (update_row session P f (gateway_sessions (core g))).2 in
  d <| gateway := g <| core := (core g) <| gateway_sessions := sessions |> |> |>.

(** UPDATE gateway_sessions .. WHERE status_observed_at < $3 *)
Definition set_status (occurred : timestamp) (status : string) (s : gateway_session) : gateway_session :=
  s <| gs_status := status |> <| gs_status_observed_at := occurred |>
    <| gs_gateway_updated_at := Z.max (gs_gateway_updated_at s) occurred |>.

Definition session_status (occurred : timestamp) (e : runtime_event) (d : wdb) : failure + wdb :=
  if bool_decide (rv_eventType e = "session.status.changed")
  then match required (field_of e "status") with
       | inr status => inr (update_session (rv_sessionId e) (fun s => gs_status_observed_at s <? occurred)
                              (set_status occurred status) d)
       | inl f => inl f
       end
  else inr d.

(** UPDATE gateway_sessions .. WHERE restriction_observed_at < $3 *)
Definition set_restriction (occurred : timestamp) (restriction : option string) (s : gateway_session)
    : gateway_session :=
  s <| gs_restriction := restriction |> <| gs_restriction_observed_at := occurred |>
    <| gs_gateway_updated_at := Z.max (gs_gateway_updated_at s) occurred |>.

Definition session_restriction (occurred : timestamp) (e : runtime_event) (d : wdb) : wdb :=
  if bool_decide (rv_eventType e = "session.restriction.changed")
  then update_session (rv_sessionId e) (fun s => gs_restriction_observed_at s <? occurred)
         (set_restriction occurred
            (if is_true (field_of e "active") then Some (stringify (rv_payload e)) else None)) d
  else d.

(** The group whose reconciliation the event asks for *)
Definition changed_group (e : runtime_event) : option string :=
  if mem (rv_eventType e) group_event_types && truthy_json (field_of e "groupId")
     && mem (rv_sessionId e) (OPENWA_ALLOWED_SESSION_IDS (gw_core (wc_gateway cfg)))
  then field_of e "groupId" ≫= to_string
  else None.

(** What the intent and the group get, when the session is known *)
Definition group_changed (now : timestamp) (e : runtime_event) (d : wdb) : wdb :=
  match changed_group e with
  | Some groupId =>
      if is_null (gateway_sessions (core (gateway d)) !! rv_sessionId e) then d
      else
        let g := (Intents.scheduleInTransaction (wc_gateway cfg) now (rv_sessionId e) groupId
                    (rv_eventType e) (gateway d)).2 in
        d <| gateway := g <| core := Snapshot.groupChanged now (rv_sessionId e) groupId (core g) |> |>
  | None => d
  end.

(** The first record of the event against the ledger's: the same event *)
Definition same_event (e : runtime_event) (occurred : timestamp) (l : ledger_event) : bool :=
  bool_decide (le_source_event_type l = rv_sourceEventType e)
  && bool_decide (le_event_type l = rv_eventType e)
  && bool_decide (le_session_id l = rv_sessionId e)
  && bool_decide (le_occurred_at l = occurred).

Definition ledger_row (now occurred : timestamp) (e : runtime_event) : ledger_event :=
  let record := runtimeEventLedgerRecord e in
  LedgerEvent (rv_sourceEventType e) (rv_eventType e) record.1 (rv_sessionId e) occurred record.2 now.

(** What a new event changes besides the ledger *)
Definition effects (now occurred : timestamp) (e : runtime_event) (d : wdb) : failure + wdb :=
  match store_message now occurred e d with
  | inl f => inl f
  | inr d1 => match store_status occurred e d1 with
      | inl f => inl f
      | inr d2 => match session_status occurred e d2 with
          | inl f => inl f
          | inr d3 => inr (group_changed now e (session_restriction occurred e d3))
          end
      end
  end.

(** The answer: whether the event is new.  A failure rolls the transaction back. *)
Definition storeInTransaction (now : timestamp) (e : runtime_event) (d : wdb) : failure + bool * wdb :=
  match rv_occurredAt e with
  | None => inl (Broken "invalid input syntax for type timestamp with time zone")
  | Some occurred =>
      match runtime_events d !! rv_eventId e with
      | Some l => if same_event e occurred l then inr (false, d) else inl (collision e)
      | None =>
          let d1 := d <| runtime_events := <[rv_eventId e := ledger_row now occurred e]> (runtime_events d) |> in
          match effects now occurred e d1 with
          | inl f => inl f
          | inr d2 => inr (true, d2)
          end
      end
  end.

End Config.

(** *** Normalised events fit their tables *)

(** A normalised payload has a string where a NOT NULL text column takes it. *)
Lemma required_text v : required (Some (JStr v)) = inr v.
Proof. done. Qed.

Definition is_inr {A B : Type} (r : A + B) : Prop := match r with inr _ => True | inl _ => False end.

Section Typed.
Context (Date_parse : string -> option timestamp) (Number_ : string -> option Z).
Abbreviation normalize := (normalizeOpenWAWebhook Date_parse Number_).

Lemma gateway_type_other (e : string) l : forallb (fun s => negb (String.prefix "gateway." s)) l = true ->
  mem ("gateway." ++ e)%string l = false.
Proof.
  intros H. apply mem_false. intros Hin. apply list_elem_of_In in Hin.
  apply forallb_forall with (x := ("gateway." ++ e)%string) in H; [|done].
  apply negb_true_iff in H. cbn in H. by destruct e.
Qed.

(** The event types the tables depend on come from the branch that shapes the payload. *)
Lemma payload_by_type e :
  (rv_eventType (normalize e) = "message.received" -> rv_payload (normalize e) = message_payload (ev_data e)) /\
  (mem (rv_eventType (normalize e)) message_events_types = true ->
     rv_payload (normalize e) = status_payload (ev_data e)) /\
  (rv_eventType (normalize e) = "session.status.changed" ->
     rv_payload (normalize e) = JObj [("status", text_or_unknown (get "status" (ev_data e)))]) /\
  (mem (rv_eventType (normalize e)) group_event_types = true ->
     rv_payload (normalize e) = group_payload (ev_data e)).
Proof.
  unfold normalizeOpenWAWebhook.
  destruct (bool_decide (ev_event e = "message.received")) eqn:E1; [cbn; by split_and!|].
  destruct (mem (ev_event e) message_events_types) eqn:E2.
  { cbn. apply mem_true in E2. unfold message_events_types in *.
    repeat (apply elem_of_cons in E2 as [->|E2]; [by split_and!|]). by apply elem_of_nil in E2. }
  destruct (bool_decide (ev_event e = "session.status")); [cbn; by split_and!|].
  destruct (bool_decide (ev_event e = "session.restriction")); [cbn; by split_and!|].
  destruct (mem (ev_event e) group_event_types) eqn:E3.
  { cbn. apply mem_true in E3. unfold group_event_types in *.
    repeat (apply elem_of_cons in E3 as [->|E3]; [by split_and!|]). by apply elem_of_nil in E3. }
  cbn [rv_eventType rv_payload]. rewrite !gateway_type_other by done. by split_and!.
Qed.

Lemma store_message_fits now occurred e d : is_inr (store_message now occurred (normalize e) d).
Proof.
  unfold store_message. destruct (bool_decide _) eqn:E; [|done]. split_bool.
  unfold field_of. rewrite (proj1 (payload_by_type e)) by done. cbn.
  by destruct (_ && _).
Qed.

Lemma store_status_fits occurred e d : is_inr (store_status occurred (normalize e) d).
Proof.
  unfold store_status. destruct (mem _ _) eqn:E; [|done].
  unfold field_of. rewrite (proj1 (proj2 (payload_by_type e)) E). cbn. by destruct (truthy _).
Qed.

Lemma session_status_fits occurred e d : is_inr (session_status occurred (normalize e) d).
Proof.
  unfold session_status. destruct (bool_decide _) eqn:E; [|done]. split_bool.
  unfold field_of. by rewrite (proj1 (proj2 (proj2 (payload_by_type e)))).
Qed.

End Typed.


End RuntimeEvents.
