(* ===== verification/Webhooks.v ===== *)
(** * Webhooks

    [src/src/modules/webhooks/webhook.repository.ts], one definition per statement (Module
    [WebhookRepo]), and the transaction of
    [src/src/modules/webhooks/webhook-processor.service.ts] ([Handling]).  [Ledger] is every
    order in which deliveries, claims, transactions, failures, recoveries and the purge of
    old webhooks can happen, and what then holds of the event ledger and of the
    reconciliation intents. *)

From S2P Require Import Prelude Schema MessageJobs SendPolicy Service Groups GatewaySchema GatewayPacing GatewayIntents WebhookSchema WebhookEvents.

Module WebhookRepo.

Local Open Scope Z_scope.

Definition MAX_ATTEMPTS : Z := 5.
Definition lease_ms : Z := 120000.

Definition waiting (s : ProcessingState.t) : bool := mem s [ProcessingState.PENDING; ProcessingState.RETRY].
Definition is_processing (s : ProcessingState.t) : bool := bool_decide (s = ProcessingState.PROCESSING).

Definition on_events {A : Type} (f : gmap string webhook_event -> A * gmap string webhook_event) (d : wdb)
    : A * wdb :=
  let '(a, t) := f (webhook_events d) in (a, d <| webhook_events := t |>).

Definition new_event (now : timestamp) (id : uuid) (e : envelope) : webhook_event :=
  WebhookEvent id (ev_deliveryId e) (ev_event e) (ev_sessionId e) e ProcessingState.PENDING 0 now None None
    None None None None now.

(** ON CONFLICT (idempotency_key) DO NOTHING *)
Definition insert (now : timestamp) (id : uuid) (e : envelope) : wdb -> bool * wdb :=
  on_events (fun t => (is_null (t !! ev_idempotencyKey e),
    insert_absent (ev_idempotencyKey e) (new_event now id e) t)).

Definition find (key : string) (d : wdb) : option envelope := we_payload <$> webhook_events d !! key.

Definition dispatchable (now : timestamp) (_ : string) (w : webhook_event) : bool :=
  waiting (we_processing_state w) && (we_attempt_count w <? MAX_ATTEMPTS) && (we_next_attempt_at w <=? now).

(** ORDER BY next_attempt_at, received_at *)
Definition by_next_attempt (a b : string * webhook_event) : bool :=
  (we_next_attempt_at a.2 <? we_next_attempt_at b.2)
  || (we_next_attempt_at a.2 =? we_next_attempt_at b.2) && (we_received_at a.2 <=? we_received_at b.2).

Definition listDispatchable (now : timestamp) (limit : nat) (d : wdb) : list string :=
  (take limit (order_by by_next_attempt (select_where (dispatchable now) (webhook_events d)))).*1.

(** [ClaimedWebhook] *)
Record claimed := Claimed { wh_envelope : envelope; wh_leaseToken : uuid; wh_attemptNumber : Z }.

Definition claim_row (now : timestamp) (token : uuid) (w : webhook_event) : webhook_event :=
  w <| we_processing_state := ProcessingState.PROCESSING |>
    <| we_attempt_count := we_attempt_count w + 1 |> <| we_last_attempt_at := Some now |>
    <| we_lease_token := Some token |> <| we_lease_expires_at := Some (now + lease_ms) |>
    <| we_processing_error := None |>.

Definition claimForProcessing (now : timestamp) (token : uuid) (key : string) : wdb -> option claimed * wdb :=
  on_events (fun t =>
    let '(row, t') := update_row key (dispatchable now key) (claim_row now token) t in
    ((fun w => Claimed (we_payload w) token (we_attempt_count w)) <$> row, t')).

Definition expired (now : timestamp) (_ : string) (w : webhook_event) : bool :=
  is_processing (we_processing_state w) && before (we_lease_expires_at w) now.

(** A failed attempt; [next] is when the following one is due. *)
Definition end_attempt (now next : timestamp) (error : string) (w : webhook_event) : webhook_event :=
  let spent := MAX_ATTEMPTS <=? we_attempt_count w in
  w <| we_processing_state := if spent then ProcessingState.DEAD else ProcessingState.RETRY |>
    <| we_lease_token := None |> <| we_lease_expires_at := None |>
    <| we_next_attempt_at := if spent then we_next_attempt_at w else next |>
    <| we_dead_at := if spent then Some now else we_dead_at w |>
    <| we_processing_error := Some error |>.

Definition recoverExpiredProcessing (now : timestamp) : wdb -> Z * wdb :=
  on_events (fun t => (count_where (expired now) t,
    update_where (expired now) (end_attempt now now "Recovered expired processing lease") t)).

(** The row is PROCESSING under this lease, and the lease runs. *)
Definition leased (now : timestamp) (token : uuid) (w : webhook_event) : bool :=
  is_processing (we_processing_state w) && bool_decide (we_lease_token w = Some token)
  && after (we_lease_expires_at w) now.

Definition lockProcessingLease (now : timestamp) (key : string) (token : uuid) (d : wdb) : bool :=
  match webhook_events d !! key with Some w => leased now token w | None => false end.

Section Config.
Context (cfg : webhook_config).

(** The payload of a processed webhook, reduced to its envelope *)
Definition compact (key : string) (w : webhook_event) : envelope :=
  Envelope (we_event_type w) (ev_timestamp (we_payload w)) (we_session_id w) key (we_delivery_id w) (JObj []).

Definition process_row (now : timestamp) (key : string) (error : option string) (w : webhook_event)
    : webhook_event :=
  w <| we_processing_state := ProcessingState.PROCESSED |> <| we_processed_at := Some now |>
    <| we_processing_error := error |> <| we_lease_token := None |> <| we_lease_expires_at := None |>
    <| we_payload := if RUNTIME_COMPACT_PROCESSED_WEBHOOK_PAYLOAD_ENABLED cfg then compact key w
                     else we_payload w |>.

Definition markProcessedInTransaction (now : timestamp) (key : string) (token : uuid) (error : option string)
    : wdb -> bool * wdb :=
  on_events (fun t =>
    let '(row, t') := update_row key (leased now token) (process_row now key error) t in
    (negb (is_null row), t')).

Definition markProcessed (now : timestamp) (key : string) (token : uuid) (error : option string) (d : wdb)
    : bool * wdb :=
  if lockProcessingLease now key token d then markProcessedInTransaction now key token error d else (false, d).

End Config.

Definition backoff_ms (attempts : Z) : Z := Z.min 300 (5 * 2 ^ (attempts - 1)) * 1000.

(** The answer is the new state; [None] is LOST_OWNERSHIP. *)
Definition markFailed (now : timestamp) (key : string) (token : uuid) (error : string)
    : wdb -> option ProcessingState.t * wdb :=
  on_events (fun t =>
    let '(row, t') := update_row key (leased now token)
      (fun w => end_attempt now (now + backoff_ms (we_attempt_count w)) error w) t in
    (we_processing_state <$> row, t')).

(** [deleteWebhookEvents] of data-retention.tick.ts, for the rows [chosen]: some of those
    that are decided and old. *)
Definition decided (w : webhook_event) : bool :=
  mem (we_processing_state w) [ProcessingState.PROCESSED; ProcessingState.DEAD].

End WebhookRepo.

Module Handling.
Import JsonValue Normalizer.

Local Open Scope Z_scope.

(** [String.prototype.toLowerCase] of code units up to 255 *)
Definition lower_char (c : Ascii.ascii) : Ascii.ascii :=
  let n := Ascii.nat_of_ascii c in
  if ((65 <=? n) && (n <=? 90) || (192 <=? n) && (n <=? 222) && negb (n =? 215))%nat
  then Ascii.ascii_of_nat (n + 32) else c.

Fixpoint toLowerCase (s : string) : string :=
  match s with
  | EmptyString => EmptyString
  | String c s' => String (lower_char c) (toLowerCase s')
  end.

(** What a member of the object of statuses can be: a status, or what every object inherits *)
Inductive status_value : Set := Status (s : JobStatus.t) | Inherited (name : string).

Definition status_member (status : string) : option status_value :=
  if String.eqb status "sent" then Some (Status JobStatus.SENT)
  else if String.eqb status "delivered" then Some (Status JobStatus.DELIVERED)
  else if String.eqb status "read" then Some (Status JobStatus.READ)
  else if String.eqb status "failed" then Some (Status JobStatus.FAILED)
  else if mem status ["constructor"; "__proto__"] then Some (Inherited status)
  else None.

Definition type_error : failure := JsError "Cannot convert object to primitive value".

(** [String(value)], which may throw *)
Definition string_of (v : option json) : failure + string :=
  match v with
  | Some j => match to_string j with Some s => inr s | None => inl type_error end
  | None => inr "undefined"
  end.

Definition webhookStatus (event : string) (data : json) : failure + option status_value :=
  if String.eqb event "message.sent" then inr (Some (Status JobStatus.SENT))
  else if String.eqb event "message.failed" then inr (Some (Status JobStatus.FAILED))
  else if negb (String.eqb event "message.ack") then inr None
  else match string_of (nullish (get "status" data) (Some (JStr ""))) with
       | inl f => inl f
       | inr s => inr (status_member (toLowerCase s))
       end.

(** [String(data[a] ?? data[b] ?? '')] *)
Definition first_of (a b : string) (data : json) : failure + string :=
  string_of (nullish (get a data) (nullish (get b data) (Some (JStr "")))).

Section Config.
Context (cfg : webhook_config) (sha256 : string -> string).
Context (Date_parse : string -> option timestamp) (Number_ : string -> option Z).

Definition event_of (e : envelope) : runtime_event := normalizeOpenWAWebhook Date_parse Number_ e.

(** [typeof data.contact === 'object'] and its [pushName] *)
Definition pushName (data : json) : string :=
  match get "contact" data with
  | Some contact => text (get "pushName" contact)
  | None => ""
  end.

(** The observation of the sender's name, for a received message *)
Definition observe_sender (now : timestamp) (e : envelope) (d : wdb) : failure + wdb :=
  if negb (String.eqb (ev_event e) "message.received") then inr d
  else match first_of "author" "from" (ev_data e) with
       | inl f => inl f
       | inr senderId =>
           if truthy senderId && truthy (pushName (ev_data e)) && CONTACT_MESSAGE_ENRICHMENT_ENABLED cfg
           then match rv_occurredAt (event_of e) with
                | Some observedAt =>
                    inr (Observations.enqueue now (ev_idempotencyKey e) (ev_sessionId e) senderId
                           (pushName (ev_data e)) observedAt d).2
                | None => inl (Broken "invalid input syntax for type timestamp with time zone")
                end
           else inr d
       end.

(** The acknowledgement of the message job *)
Definition acknowledge (now : timestamp) (status : option status_value) (messageId : string) (d : wdb)
    : failure + wdb :=
  if negb (truthy messageId) then inr d
  else match status with
       | None => inr d
       | Some (Inherited _) => inl (Broken "invalid input value for enum message_job_status")
       | Some (Status s) =>
           let g := gateway d in
           inr (d <| gateway := g <| core := Repo.updateStatusByOpenWAMessageId now messageId s (core g) |> |>)
       end.

(** The transaction: the answer is [owned]; a failure rolls everything back. *)
Definition transaction (now : timestamp) (e : envelope) (token : uuid) (status : option status_value)
    (messageId : string) (d : wdb) : (failure + bool) * wdb :=
  if negb (WebhookRepo.lockProcessingLease now (ev_idempotencyKey e) token d) then (inr false, d)
  else
    match RuntimeEvents.storeInTransaction cfg sha256 now (event_of e) d with
    | inl f => (inl f, d)
    | inr (_, d1) => match observe_sender now e d1 with
        | inl f => (inl f, d)
        | inr d2 => match acknowledge now status messageId d2 with
            | inl f => (inl f, d)
            | inr d3 =>
                let '(marked, d4) := WebhookRepo.markProcessedInTransaction cfg now (ev_idempotencyKey e) token None d3 in
                if marked then (inr true, d4)
                else (inl (JsError ("Webhook processing lease changed while locked: " ++ ev_idempotencyKey e)), d)
            end
        end
    end.

(** [process], from the claim on: what it reads from the envelope, then the transaction *)
Definition handle (now : timestamp) (e : envelope) (token : uuid) (d : wdb) : (failure + bool) * wdb :=
  match webhookStatus (ev_event e) (ev_data e) with
  | inl f => (inl f, d)
  | inr status => match first_of "messageId" "id" (ev_data e) with
      | inl f => (inl f, d)
      | inr messageId => transaction now e token status messageId d
      end
  end.

End Config.
End Handling.

(** ** Every order of deliveries and attempts *)

Module Ledger.
Import Normalizer RuntimeEvents.

Local Open Scope Z_scope.

(** The event ledger, the webhooks and the intents are as before. *)
Definition apart (d d' : wdb) : Prop :=
  webhook_events d' = webhook_events d /\ runtime_events d' = runtime_events d /\
  group_intents (gateway d') = group_intents (gateway d) /\
  dom (gateway_sessions (core (gateway d'))) = dom (gateway_sessions (core (gateway d))).

Lemma apart_refl d : apart d d.
Proof. done. Qed.

Lemma apart_trans d d1 d2 : apart d d1 -> apart d1 d2 -> apart d d2.
Proof. intros (A1 & A2 & A3 & A4) (B1 & B2 & B3 & B4). split_and!; congruence. Qed.

Section Config.
Context (cfg : webhook_config) (sha256 : string -> string).
Context (Date_parse : string -> option timestamp) (Number_ : string -> option Z).
Abbreviation event_of := (Handling.event_of Date_parse Number_).
Abbreviation handle := (Handling.handle cfg sha256 Date_parse Number_).

(** *** What the transaction changes *)

Lemma store_message_apart now occurred e d d' : store_message now occurred e d = inr d' -> apart d d'.
Proof. unfold store_message. intros E. repeat case_match; simplify_eq; done. Qed.

Lemma store_status_apart occurred e d d' : store_status occurred e d = inr d' -> apart d d'.
Proof. unfold store_status. intros E. repeat case_match; simplify_eq; done. Qed.

Lemma update_session_apart s P f d : apart d (update_session s P f d).
Proof.
  unfold update_session. split; [done|]. split; [done|]. split; [done|]. cbn.
  destruct (update_row s P f _) eqn:E. cbn. by eapply update_row_dom.
Qed.

Lemma session_status_apart occurred e d d' : session_status occurred e d = inr d' -> apart d d'.
Proof.
  unfold session_status. intros E. repeat case_match; simplify_eq; [apply update_session_apart|done].
Qed.

Lemma session_restriction_apart occurred e d : apart d (session_restriction occurred e d).
Proof. unfold session_restriction. case_match; [apply update_session_apart|done]. Qed.

(** The group for which the event schedules a reconciliation *)
Definition schedules (e : runtime_event) (d : wdb) : option (string * string) :=
  match changed_group cfg e with
  | Some g => if is_null (gateway_sessions (core (gateway d)) !! rv_sessionId e) then None
              else Some (rv_sessionId e, g)
  | None => None
  end.

Definition scheduled (now : timestamp) (e : runtime_event) (d : wdb) : gdb :=
  match schedules e d with
  | Some (s, g) => (Intents.scheduleInTransaction (wc_gateway cfg) now s g (rv_eventType e) (gateway d)).2
  | None => gateway d
  end.

Lemma apart_schedules e d d' : apart d d' -> schedules e d' = schedules e d.
Proof.
  intros (_ & _ & _ & H). unfold schedules. destruct (changed_group cfg e) as [g|]; [|done].
  assert (Hd : is_Some (gateway_sessions (core (gateway d')) !! rv_sessionId e) <->
               is_Some (gateway_sessions (core (gateway d)) !! rv_sessionId e)).
  { by rewrite <- !elem_of_dom, H. }
  destruct (gateway_sessions (core (gateway d')) !! _), (gateway_sessions (core (gateway d)) !! _); cbn;
    try done; [by destruct (proj1 Hd (ex_intro _ _ eq_refl))|by destruct (proj2 Hd (ex_intro _ _ eq_refl))].
Qed.

Lemma scheduled_intents now e d d' : apart d d' ->
  group_intents (scheduled now e d') = group_intents (scheduled now e d).
Proof.
  intros H. unfold scheduled. rewrite (apart_schedules _ _ _ H). destruct H as (_ & _ & H & _).
  destruct (schedules e d) as [[s g]|]; [|done]. unfold Intents.scheduleInTransaction. rewrite H.
  by destruct (group_intents (gateway d) !! _).
Qed.

Lemma group_changed_spec now e d : webhook_events (group_changed cfg now e d) = webhook_events d /\
  runtime_events (group_changed cfg now e d) = runtime_events d /\
  group_intents (gateway (group_changed cfg now e d)) = group_intents (scheduled now e d).
Proof.
  unfold group_changed, scheduled, schedules. destruct (changed_group cfg e) as [g|]; [|done].
  by destruct (is_null _).
Qed.

Lemma effects_spec now occurred e d d' : effects cfg now occurred e d = inr d' ->
  webhook_events d' = webhook_events d /\ runtime_events d' = runtime_events d /\
  group_intents (gateway d') = group_intents (scheduled now e d).
Proof.
  unfold effects. destruct (store_message now occurred e d) as [|d1] eqn:E1; [done|].
  destruct (store_status occurred e d1) as [|d2] eqn:E2; [done|].
  destruct (session_status occurred e d2) as [|d3] eqn:E3; [done|]. intros [= <-].
  assert (Ha : apart d (session_restriction occurred e d3)).
  { eapply apart_trans; [by eapply store_message_apart|].
    eapply apart_trans; [by eapply store_status_apart|].
    eapply apart_trans; [by eapply session_status_apart|apply session_restriction_apart]. }
  destruct (group_changed_spec now e (session_restriction occurred e d3)) as (-> & -> & ->).
  rewrite (scheduled_intents _ _ _ _ Ha). by destruct Ha as (-> & -> & _).
Qed.

(** Storing an event: a known one changes nothing, a new one enters the ledger. *)
Lemma store_spec now e d b d' : storeInTransaction cfg sha256 now e d = inr (b, d') ->
  webhook_events d' = webhook_events d /\
  if b then runtime_events d !! rv_eventId e = None /\
    (exists l, runtime_events d' = <[rv_eventId e := l]> (runtime_events d)) /\
    group_intents (gateway d') = group_intents (scheduled now e d)
  else d' = d /\ is_Some (runtime_events d !! rv_eventId e).
Proof.
  unfold storeInTransaction. destruct (rv_occurredAt e) as [t|]; [|done].
  destruct (runtime_events d !! rv_eventId e) as [l|] eqn:El.
  - destruct (same_event _ _ _); [|done]. intros [= <- <-]. split; [done|]. split; [done|by exists l].
  - destruct (effects _ _ _ _ _) as [|d2] eqn:E; [done|]. intros [= <- <-].
    apply effects_spec in E as (-> & -> & ->). split; [done|]. split; [done|].
    split; [by eexists|done].
Qed.

Lemma observe_sender_apart now e d d' :
  Handling.observe_sender cfg Date_parse Number_ now e d = inr d' -> apart d d'.
Proof.
  unfold Handling.observe_sender, Observations.enqueue, Observations.on_intents. intros E.
  repeat case_match; simplify_eq; done.
Qed.

Lemma acknowledge_apart now status m d d' : Handling.acknowledge now status m d = inr d' -> apart d d'.
Proof. unfold Handling.acknowledge. intros E. repeat case_match; simplify_eq; done. Qed.

(** The transaction either changes nothing, or it stored the event, or found it in the
    ledger, and marked the webhook PROCESSED. *)
Lemma transaction_spec now e token status m d r d' :
  Handling.transaction cfg sha256 Date_parse Number_ now e token status m d = (r, d') ->
  match r with
  | inr true => exists w b d1, webhook_events d !! ev_idempotencyKey e = Some w /\
      WebhookRepo.leased now token w = true /\
      storeInTransaction cfg sha256 now (event_of e) d = inr (b, d1) /\
      webhook_events d' = <[ev_idempotencyKey e :=
        WebhookRepo.process_row cfg now (ev_idempotencyKey e) None w]> (webhook_events d) /\
      runtime_events d' = runtime_events d1 /\
      group_intents (gateway d') = group_intents (gateway d1)
  | _ => d' = d
  end.
Proof.
  unfold Handling.transaction.
  destruct (WebhookRepo.lockProcessingLease now _ token d) eqn:El; cbn [negb]; [|by intros [= <- <-]].
  destruct (storeInTransaction _ _ _ _ _) as [|[b d1]] eqn:E1; [by intros [= <- <-]|].
  destruct (Handling.observe_sender _ _ _ _ _ _) as [|d2] eqn:E2; [by intros [= <- <-]|].
  destruct (Handling.acknowledge _ _ _ _) as [|d3] eqn:E3; [by intros [= <- <-]|].
  assert (Ha : apart d1 d3).
  { eapply apart_trans; [by eapply observe_sender_apart|by eapply acknowledge_apart]. }
  destruct Ha as (A1 & A2 & A3 & _). destruct (store_spec _ _ _ _ _ E1) as [Hw _].
  unfold WebhookRepo.markProcessedInTransaction, WebhookRepo.on_events. rewrite A1, Hw.
  unfold WebhookRepo.lockProcessingLease in El.
  destruct (webhook_events d !! ev_idempotencyKey e) as [w|] eqn:Ew; [|done].
  unfold update_row. rewrite Ew, El. cbn. intros [= <- <-].
  exists w, b, d1. by split_and!.
Qed.

Lemma handle_spec now e token d r d' : handle now e token d = (r, d') ->
  match r with
  | inr true => exists w b d1, webhook_events d !! ev_idempotencyKey e = Some w /\
      WebhookRepo.leased now token w = true /\
      storeInTransaction cfg sha256 now (event_of e) d = inr (b, d1) /\
      webhook_events d' = <[ev_idempotencyKey e :=
        WebhookRepo.process_row cfg now (ev_idempotencyKey e) None w]> (webhook_events d) /\
      runtime_events d' = runtime_events d1 /\
      group_intents (gateway d') = group_intents (gateway d1)
  | _ => d' = d
  end.
Proof.
  unfold Handling.handle. destruct (Handling.webhookStatus _ _) as [|status]; [by intros [= <- <-]|].
  destruct (Handling.first_of _ _ _) as [|m]; [by intros [= <- <-]|]. apply transaction_spec.
Qed.

(** *** Runs *)

Inductive op : Type :=
  (** a delivery of the provider *)
  | Receive (now : timestamp) (id : uuid) (e : envelope)
  | Claim (now : timestamp) (token : uuid) (key : string)
  (** the transaction of the worker that holds [token], on the envelope its claim returned *)
  | Handle (now : timestamp) (token : uuid) (key : string)
  | Failed (now : timestamp) (token : uuid) (key error : string)
  | Recover (now : timestamp)
  (** retention: decided webhooks go *)
  | Purge (chosen : string -> bool)
  (** a statement of the synchronisation *)
  | Synchronise (o : Intents.op).

(** Only webhooks schedule intents. *)
Definition foreign (o : Intents.op) : Intents.op :=
  match o with Intents.Schedule _ _ _ _ => Intents.Elsewhere id | _ => o end.

Definition run (o : op) (d : wdb) : wdb :=
  match o with
  | Receive now id e => (WebhookRepo.insert now id e d).2
  | Claim now token key => (WebhookRepo.claimForProcessing now token key d).2
  | Handle now token key =>
      match WebhookRepo.find key d with Some e => (handle now e token d).2 | None => d end
  | Failed now token key error => (WebhookRepo.markFailed now key token error d).2
  | Recover now => (WebhookRepo.recoverExpiredProcessing now d).2
  | Purge chosen =>
      d <| webhook_events := delete_where (fun k w => chosen k && WebhookRepo.decided w) (webhook_events d) |>
  | Synchronise o => d <| gateway := Intents.run (wc_gateway cfg) (foreign o) (gateway d) |>
  end.

Definition run_all (os : list op) (d : wdb) : wdb := foldl (fun d o => run o d) d os.

(** The transaction was carried out. *)
Definition owned (r : failure + bool) : bool := match r with inr b => b | inl _ => false end.

(** The events [o] stores, each with the group it schedules *)
Definition reports (o : op) (d : wdb) : list (string * option (string * string)) :=
  match o with
  | Handle now token key =>
      match WebhookRepo.find key d with
      | Some e => if owned (handle now e token d).1 && is_null (runtime_events d !! key)
                  then [(key, schedules (event_of e) d)] else []
      | None => []
      end
  | _ => []
  end.

Fixpoint log (os : list op) (d : wdb) : list (string * option (string * string)) :=
  match os with
  | [] => []
  | o :: os' => reports o d ++ log os' (run o d)
  end.

(** *** The invariant *)

Definition row_ok (d : wdb) (key : string) (w : webhook_event) : Prop :=
  ev_idempotencyKey (we_payload w) = key /\ 0 <= we_attempt_count w <= WebhookRepo.MAX_ATTEMPTS /\
  match we_processing_state w with
  | ProcessingState.PENDING | ProcessingState.RETRY =>
      we_attempt_count w < WebhookRepo.MAX_ATTEMPTS /\ we_lease_token w = None
  | ProcessingState.PROCESSING =>
      1 <= we_attempt_count w /\ is_Some (we_lease_token w) /\ is_Some (we_lease_expires_at w)
  | ProcessingState.PROCESSED =>
      is_Some (runtime_events d !! key) /\ we_lease_token w = None /\ is_Some (we_processed_at w)
  | ProcessingState.DEAD =>
      we_attempt_count w = WebhookRepo.MAX_ATTEMPTS /\ we_lease_token w = None /\ is_Some (we_dead_at w)
  end.

Definition rows_ok (d : wdb) : Prop := forall key w, webhook_events d !! key = Some w -> row_ok d key w.

Lemma row_ok_ledger d d' key w :
  (is_Some (runtime_events d !! key) -> is_Some (runtime_events d' !! key)) -> row_ok d key w -> row_ok d' key w.
Proof.
  intros H (H1 & H2 & H3). split; [done|]. split; [done|].
  destruct (we_processing_state w); try done. destruct H3 as (A & B & C). split; [by apply H|done].
Qed.

Lemma end_attempt_ok d key now next error w : row_ok d key w ->
  WebhookRepo.is_processing (we_processing_state w) = true ->
  row_ok d key (WebhookRepo.end_attempt now next error w).
Proof.
  unfold WebhookRepo.is_processing. intros (H1 & H2 & H3) Hp. split_bool. rewrite Hp in H3.
  unfold WebhookRepo.end_attempt, row_ok, WebhookRepo.MAX_ATTEMPTS in *.
  destruct (5 <=? we_attempt_count w) eqn:E; cbn; split_bool.
  - split; [done|]. split; [done|]. split; [lia|]. split; [done|by eexists].
  - split; [done|]. split; [done|]. split; [lia|done].
Qed.

Lemma claim_row_ok d key now token w : row_ok d key w -> WebhookRepo.dispatchable now key w = true ->
  row_ok d key (WebhookRepo.claim_row now token w).
Proof.
  unfold WebhookRepo.dispatchable. intros (H1 & H2 & _) Hd. split_bool.
  unfold WebhookRepo.claim_row, row_ok, WebhookRepo.MAX_ATTEMPTS in *. cbn.
  split; [done|]. split; [lia|]. split; [lia|]. split; by eexists.
Qed.

Lemma process_row_ok d key now error w : row_ok d key w -> is_Some (runtime_events d !! key) ->
  row_ok d key (WebhookRepo.process_row cfg now key error w).
Proof.
  intros (H1 & H2 & _) Hl. unfold WebhookRepo.process_row, row_ok. cbn.
  split; [by destruct (RUNTIME_COMPACT_PROCESSED_WEBHOOK_PAYLOAD_ENABLED cfg)|].
  split; [done|]. split; [done|]. split; [done|by eexists].
Qed.

(** The rows of the other webhooks are as before, and the one of [key] stays sound. *)
Lemma rows_ok_update_row d key W f :
  (forall w, row_ok d key w -> W w = true -> row_ok d key (f w)) -> rows_ok d ->
  rows_ok (d <| webhook_events := (update_row key W f (webhook_events d)).2 |>).
Proof.
  intros Hf Hd k w Hl. cbn in Hl. rewrite lookup_update_row in Hl.
  destruct (webhook_events d !! k) as [v|] eqn:Ev; [|done]. injection Hl as <-.
  pose proof (Hd _ _ Ev) as Hv. destruct (bool_decide (k = key) && W v) eqn:E; [|done].
  split_bool. subst k. by apply Hf.
Qed.

Lemma run_Receive now id e d : run (Receive now id e) d =
  d <| webhook_events := insert_absent (ev_idempotencyKey e) (WebhookRepo.new_event now id e) (webhook_events d) |>.
Proof. done. Qed.

Lemma on_events_update {A} (g : option webhook_event -> A) key W f d :
  (WebhookRepo.on_events (fun t => let '(row, t') := update_row key W f t in (g row, t')) d).2 =
  d <| webhook_events := (update_row key W f (webhook_events d)).2 |>.
Proof. unfold WebhookRepo.on_events. by destruct (update_row _ _ _ _). Qed.

Lemma run_Claim now token key d : run (Claim now token key) d =
  d <| webhook_events := (update_row key (WebhookRepo.dispatchable now key) (WebhookRepo.claim_row now token)
                            (webhook_events d)).2 |>.
Proof.
  apply (on_events_update (fmap (fun w => WebhookRepo.Claimed (we_payload w) token (we_attempt_count w)))).
Qed.

Lemma run_Failed now token key error d : run (Failed now token key error) d =
  d <| webhook_events := (update_row key (WebhookRepo.leased now token)
         (fun w => WebhookRepo.end_attempt now (now + WebhookRepo.backoff_ms (we_attempt_count w)) error w)
         (webhook_events d)).2 |>.
Proof. apply (on_events_update (fmap we_processing_state)). Qed.

Lemma event_id e : rv_eventId (event_of e) = ev_idempotencyKey e.
Proof. unfold Handling.event_of, normalizeOpenWAWebhook. by repeat case_match. Qed.

(** The ledger and the webhook after a transaction *)
Lemma handled now token key e d : rows_ok d -> WebhookRepo.find key d = Some e ->
  owned (handle now e token d).1 = true ->
  exists w b d1, webhook_events d !! key = Some w /\ WebhookRepo.leased now token w = true /\
    ev_idempotencyKey e = key /\ storeInTransaction cfg sha256 now (event_of e) d = inr (b, d1) /\
    webhook_events (run (Handle now token key) d) =
      <[key := WebhookRepo.process_row cfg now key None w]> (webhook_events d) /\
    runtime_events (run (Handle now token key) d) = runtime_events d1 /\
    group_intents (gateway (run (Handle now token key) d)) = group_intents (gateway d1).
Proof.
  intros Hd He Hr. cbn [run]. rewrite He. destruct (handle now e token d) as [r d'] eqn:E. cbn in *.
  destruct r as [|[]]; [done| |done].
  apply handle_spec in E as (w & b & d1 & Hw & Hl & Hs & H1 & H2 & H3).
  unfold WebhookRepo.find in He. destruct (webhook_events d !! key) as [w'|] eqn:Ew; [|done].
  injection He as <-. destruct (Hd _ _ Ew) as [Hk _]. rewrite Hk in *.
  assert (w = w') as -> by congruence. exists w', b, d1. by split_and!.
Qed.

Lemma not_handled now token key e d : WebhookRepo.find key d = Some e ->
  owned (handle now e token d).1 = false -> run (Handle now token key) d = d.
Proof.
  intros He Hr. cbn [run]. rewrite He. destruct (handle now e token d) as [r d'] eqn:E. cbn in *.
  apply handle_spec in E. by destruct r as [|[]].
Qed.

(** What [o] adds to the ledger is what it reports. *)
Lemma run_ledger o d : rows_ok d ->
  dom (runtime_events (run o d)) = dom (runtime_events d) ∪ list_to_set ((reports o d).*1) /\
  forall key, key ∈ (reports o d).*1 -> runtime_events d !! key = None.
Proof.
  intros Hd. destruct o as [now id e|now token key|now token key|now token key error|now|chosen|o].
  3: { cbn [reports]. destruct (WebhookRepo.find key d) as [e|] eqn:Ee.
       2: { cbn [run]. rewrite Ee. cbn. split; [set_solver|]. intros k Hk. by apply elem_of_nil in Hk. }
       destruct (owned (handle now e token d).1) eqn:Hr; cbn [andb].
       - destruct (handled _ _ _ _ _ Hd Ee Hr) as (w & b & d1 & Hw & Hl & Hk & Hs & _ & -> & _).
         apply store_spec in Hs as [_ Hs]. rewrite event_id in Hs.
         rewrite Hk in Hs. destruct b.
         + destruct Hs as (Hn & [l Hs] & _). rewrite Hs, Hn, dom_insert_L. cbn. split; [set_solver|].
           intros k Hin. apply list_elem_of_singleton in Hin as ->. done.
         + destruct Hs as [-> [l Hs]]. rewrite Hs. cbn. split; [set_solver|].
           intros k Hk'. by apply elem_of_nil in Hk'.
       - rewrite (not_handled _ _ _ _ _ Ee Hr). cbn. split; [set_solver|].
         intros k Hk. by apply elem_of_nil in Hk. }
  all: cbn [reports]; split; [|intros k Hk; by apply elem_of_nil in Hk].
  - rewrite run_Receive. cbn. set_solver.
  - rewrite run_Claim. cbn. set_solver.
  - rewrite run_Failed. cbn. set_solver.
  - cbn. set_solver.
  - cbn. set_solver.
  - cbn. set_solver.
Qed.

Lemma run_rows_ok o d : rows_ok d -> rows_ok (run o d).
Proof.
  intros Hd. pose proof (proj1 (run_ledger o d Hd)) as Hdom.
  destruct o as [now id e|now token key|now token key|now token key error|now|chosen|o].
  - rewrite run_Receive. intros k w Hl. cbn in Hl. rewrite insert_absent_lookup in Hl.
    destruct (webhook_events d !! k) as [v|] eqn:Ev; [injection Hl as <-; by apply (Hd _ _ Ev)|].
    destruct (bool_decide (k = _)) eqn:E; [|done]. split_bool. injection Hl as <-. subst k.
    split; [done|]. unfold WebhookRepo.MAX_ATTEMPTS. cbn. split; [lia|]. split; [lia|done].
  - rewrite run_Claim. apply rows_ok_update_row; [|done]. intros w Hw Hc. by apply claim_row_ok.
  - destruct (WebhookRepo.find key d) as [e|] eqn:Ee; [|cbn [run]; by rewrite Ee].
    destruct (owned (handle now e token d).1) eqn:Hr; [|by rewrite (not_handled _ _ _ _ _ Ee Hr)].
    destruct (handled _ _ _ _ _ Hd Ee Hr) as (w & b & d1 & Hw & Hl & Hk & Hs & Hwe & Hre & _).
    assert (Hin : is_Some (runtime_events (run (Handle now token key) d) !! key)).
    { apply store_spec in Hs as [_ Hs]. rewrite event_id in Hs.
      rewrite Hk in Hs. rewrite Hre. destruct b.
      - destruct Hs as (_ & [l ->] & _). rewrite lookup_insert_eq. by eexists.
      - by destruct Hs as [-> Hs]. }
    assert (Hmono : forall k, is_Some (runtime_events d !! k) ->
      is_Some (runtime_events (run (Handle now token key) d) !! k)).
    { intros k. rewrite <- !elem_of_dom, Hdom. set_solver. }
    intros k v Hv. rewrite Hwe in Hv. apply lookup_insert_Some in Hv as [[<- <-]|[_ Hv]].
    + apply process_row_ok; [|done]. eapply row_ok_ledger; [apply Hmono|by apply Hd].
    + eapply row_ok_ledger; [apply Hmono|by apply Hd].
  - rewrite run_Failed. apply rows_ok_update_row; [|done]. intros w Hw Hl. unfold WebhookRepo.leased in Hl.
    split_bool. by apply end_attempt_ok.
  - intros k w Hl. cbn in Hl. apply update_where_Some in Hl as (v & Hv & ->). pose proof (Hd _ _ Hv) as Hok.
    destruct (WebhookRepo.expired now k v) eqn:E; [|done]. unfold WebhookRepo.expired in E. split_bool.
    by apply end_attempt_ok.
  - intros k w Hl. cbn in Hl. apply delete_where_Some in Hl as [Hl _]. by apply (Hd _ _ Hl).
  - intros k w Hl. by apply (Hd _ _ Hl).
Qed.

Lemma run_all_rows_ok os d : rows_ok d -> rows_ok (run_all os d).
Proof. revert d. induction os as [|o os IH]; intros d Hd; cbn; [done|]. by apply IH, run_rows_ok. Qed.

Lemma log_ledger os d : rows_ok d ->
  dom (runtime_events (run_all os d)) = dom (runtime_events d) ∪ list_to_set ((log os d).*1) /\
  NoDup ((log os d).*1) /\ forall key, key ∈ (log os d).*1 -> runtime_events d !! key = None.
Proof.
  revert d. induction os as [|o os IH]; intros d Hd; cbn [log run_all foldl].
  { split; [set_solver|]. split; [constructor|]. intros key Hk. by apply elem_of_nil in Hk. }
  destruct (run_ledger o d Hd) as [E1 N1]. destruct (IH (run o d) (run_rows_ok o d Hd)) as (E2 & D2 & N2).
  fold (run_all os (run o d)) in *. rewrite fmap_app, E2, E1, list_to_set_app_L. split; [set_solver|].
  assert (D1 : NoDup ((reports o d).*1)).
  { unfold reports. destruct o; try apply NoDup_nil_2. repeat case_match; try apply NoDup_nil_2. apply NoDup_singleton. }
  split.
  - apply NoDup_app. split; [done|]. split; [|done]. intros k H1 H2.
    apply N2 in H2. apply not_elem_of_dom in H2. rewrite E1 in H2. set_solver.
  - intros k Hk. apply elem_of_app in Hk as [Hk|Hk]; [by apply N1|].
    apply N2, not_elem_of_dom in Hk. rewrite E1 in Hk. apply not_elem_of_dom. set_solver.
Qed.

(** *** The statements on the intents *)

(** What [o] does to the gateway, as statements of the synchronisation *)
Definition trace (o : op) (d : wdb) : list Intents.op :=
  match o with
  | Handle now token key =>
      match reports o d with
      | (_, Some (s, g)) :: _ =>
          [Intents.Schedule now s g (default "" (rv_eventType ∘ event_of <$> WebhookRepo.find key d));
           Intents.Elsewhere (fun _ => gateway (run o d))]
      | _ => [Intents.Elsewhere (fun _ => gateway (run o d))]
      end
  | Synchronise o => [foreign o]
  | _ => []
  end.

Fixpoint traces (os : list op) (d : wdb) : list Intents.op :=
  match os with
  | [] => []
  | o :: os' => trace o d ++ traces os' (run o d)
  end.

Lemma elsewhere_same g g' : group_intents g' = group_intents g ->
  Intents.run (wc_gateway cfg) (Intents.Elsewhere (fun _ => g')) g = g'.
Proof. intros H. cbn. rewrite <- H. by destruct g'. Qed.

Lemma trace_gateway o d : rows_ok d ->
  gateway (run o d) = Intents.run_all (wc_gateway cfg) (trace o d) (gateway d).
Proof.
  intros Hd. destruct o as [now id e|now token key|now token key|now token key error|now|chosen|o]; try done.
  - rewrite run_Claim. done.
  - cbn [trace reports]. destruct (WebhookRepo.find key d) as [e|] eqn:Ee.
    2: { cbn [run]. rewrite Ee. symmetry. by apply elsewhere_same. }
    destruct (owned (handle now e token d).1) eqn:Hr; cbn [andb].
    2: { rewrite (not_handled _ _ _ _ _ Ee Hr). symmetry. by apply elsewhere_same. }
    destruct (handled _ _ _ _ _ Hd Ee Hr) as (w & b & d1 & Hw & Hl & Hk & Hs & _ & _ & Hg).
    apply store_spec in Hs as [_ Hs]. rewrite event_id, Hk in Hs.
    set (g' := gateway (run (Handle now token key) d)) in *. destruct b.
    + destruct Hs as (-> & _ & Hs). cbn [is_null]. unfold scheduled in Hs.
      destruct (schedules (event_of e) d) as [[s g]|]; cbn [Intents.run_all foldl];
        symmetry; apply elsewhere_same; by rewrite Hg, Hs.
    + destruct Hs as [-> [l ->]]. cbn [is_null]. symmetry. by apply elsewhere_same.
  - rewrite run_Failed. done.
Qed.

Lemma intents_run_all_app os os' g : Intents.run_all (wc_gateway cfg) (os ++ os') g =
  Intents.run_all (wc_gateway cfg) os' (Intents.run_all (wc_gateway cfg) os g).
Proof. apply foldl_app. Qed.

Lemma traces_gateway os d : rows_ok d ->
  gateway (run_all os d) = Intents.run_all (wc_gateway cfg) (traces os d) (gateway d).
Proof.
  revert d. induction os as [|o os IH]; intros d Hd; cbn [traces run_all foldl]; [done|].
  fold (run_all os (run o d)). rewrite intents_run_all_app, <- trace_gateway by done.
  by apply IH, run_rows_ok.
Qed.

(** How many of the stored events schedule the group *)
Definition scheduling (key : string * string) (l : list (string * option (string * string))) : Z :=
  Z.of_nat (length (List.filter (fun r => bool_decide (r.2 = Some key)) l)).

Lemma scheduling_app key l l' : scheduling key (l ++ l') = scheduling key l + scheduling key l'.
Proof. unfold scheduling. rewrite List.filter_app, length_app. lia. Qed.

Lemma trace_events key o d : Intents.events key (trace o d) = scheduling key (reports o d).
Proof.
  destruct o as [now id e|now token k|now token k|now token k error|now|chosen|o]; try done.
  - cbn [trace]. assert (Hr : reports (Handle now token k) d = [] \/
      exists x, reports (Handle now token k) d = [(k, x)]).
    { cbn [reports]. destruct (WebhookRepo.find k d); [|by left]. destruct (_ && _); [right; by eexists|by left]. }
    destruct Hr as [->|[[[s g]|] ->]]; [done| |done].
    unfold Intents.events, scheduling. cbn [List.filter Intents.is_event fst snd].
    destruct (decide ((s, g) = key)) as [<-|Hne].
    + by rewrite !bool_decide_true.
    + rewrite !bool_decide_false by congruence. done.
  - by destruct o.
Qed.

Lemma traces_events key os d : Intents.events key (traces os d) = scheduling key (log os d).
Proof.
  revert d. induction os as [|o os IH]; intros d; cbn [traces log]; [done|].
  rewrite Intents.events_app, scheduling_app, IH. by rewrite trace_events.
Qed.

End Config.



(** *** Witnesses *)

Definition example_config : webhook_config :=
  WebhookConfig (default_gateway_config (Config false ["s"] 0 0)) "secret" false true false.

Definition example_event : envelope :=
  Envelope "group.join" "2024-01-01T00:00:00Z" "s" "k" "x" (JObj [("groupId", JStr "g@g.us")]).

Definition example_start : wdb :=
  empty_wdb <| gateway := empty_gdb <| core := empty_db <| gateway_sessions :=
    <["s" := GatewaySession "ready" true None 0 0 0]> ∅ |> |> |>.

Definition received : wdb := (WebhookRepo.insert 10 1%positive example_event example_start).2.

Definition quiet : env_over wdb :=
  Env (fun n => 20 + Z.of_nat n) (fun _ _ => 5%positive) (fun _ d => d) (fun _ => None).

(** Delivered twice, processed, purged, delivered and processed again: one event *)
Definition example_ops : list op :=
  [ Receive 10 1%positive example_event; Claim 20 5%positive "k"; Receive 25 2%positive example_event;
    Handle 30 5%positive "k"; Purge (fun _ => true); Receive 40 3%positive example_event;
    Claim 50 6%positive "k"; Handle 60 6%positive "k" ].



(** An acknowledgement whose status is the name of an inherited member is never stored:
    the webhook fails until it is DEAD. *)
Example constructor_status_fails :
  let e := Envelope "message.ack" "t" "s" "k" "x" (JObj [("id", JStr "m"); ("status", JStr "constructor")]) in
  (Handling.handle example_config (fun s => s) (fun _ => Some 1) (fun _ => None) 30 e 5%positive
     (WebhookRepo.claimForProcessing 20 5%positive "k" (WebhookRepo.insert 10 1%positive e example_start).2).2).1
  = inl (Broken "invalid input value for enum message_job_status").
Proof. by vm_compute. Qed.

End Ledger.
