(* ===== verification/WebhookService.v ===== *)
(** * Receiving and processing webhooks

    [src/src/modules/webhooks/webhook.controller.ts] with [webhook-signature.ts] (Module
    [Ingress]) and [process] of [webhook-processor.service.ts] (Module [Processing]), as
    service calls: other clients write between two awaits, and a statement may fail before
    or after it took effect.  [hmac secret text] is the HMAC-SHA256 in hexadecimal. *)

From S2P Require Import Prelude Schema MessageJobs SendPolicy Service Groups GatewaySchema GatewayPacing GatewayIntents WebhookSchema WebhookEvents Webhooks.

Abbreviation wserv := (serv_over wdb).

Module Ingress.
Import JsonValue.

(** [Buffer]s are equal when their strings are. *)
Definition verifyOpenWASignature (hmac : string -> string -> string) (rawBody : string)
    (supplied : option string) (secret : string) : bool :=
  match supplied with
  | Some s => truthy s && String.eqb s ("sha256=" ++ hmac secret rawBody)
  | None => false
  end.

(** [Partial<OpenWAWebhookEnvelope>]: what the parsed body has of an envelope *)
Record partial_envelope := PartialEnvelope {
  pe_event : option string;
  pe_timestamp : option string;
  pe_sessionId : option string;
  pe_idempotencyKey : option string;
  pe_deliveryId : option string;
  pe_data : option json }.

Definition present (s : option string) : option string :=
  match s with Some t => if truthy t then Some t else None | None => None end.

(** The body as an envelope, when no field is missing or falsy *)
Definition complete_envelope (b : partial_envelope) : option envelope :=
  match present (pe_event b), present (pe_timestamp b), present (pe_sessionId b),
        present (pe_idempotencyKey b), present (pe_deliveryId b) with
  | Some event, Some timestamp, Some session, Some key, Some delivery =>
      match pe_data b with
      | Some data => if truthy_json (Some data)
                     then Some (Envelope event timestamp session key delivery data) else None
      | None => None
      end
  | _, _, _, _, _ => None
  end.

Section Config.
Context (cfg : webhook_config) (hmac : string -> string -> string).
(** What publishing to the queue at an await throws, if anything *)
Context (webhookIngress_add : nat -> option failure).

Definition unauthorized : failure := Refused 401 "UNAUTHORIZED" "Invalid OpenWA webhook signature".

Definition signed (rawBody signature : option string) : bool :=
  match rawBody with
  | Some raw => verifyOpenWASignature hmac raw signature (OPENWA_WEBHOOK_SECRET cfg)
  | None => false
  end.

Definition publish : wserv unit := fun e n d =>
  (match webhookIngress_add n with Some f => inl f | None => inr tt end, S n, Service.between e n d).

(** The answer is [duplicate]. *)
Definition receive (rawBody signature : option string) (body : partial_envelope) : wserv bool :=
  assert! signed rawBody signature else unauthorized in
  match complete_envelope body with
  | None => throw (Exception_ (BadRequest "Invalid OpenWA webhook envelope"))
  | Some typed =>
      match SessionScope.assertAllowed (gw_core (wc_gateway cfg)) (ev_sessionId typed) with
      | Some err => throw (Exception_ err)
      | None =>
          let! created := await (fun now ids d => WebhookRepo.insert now (ids "webhook") typed d) in
          let! _ := publish in
          ret (negb created)
      end
  end.

End Config.

(** C31: a webhook is stored only when it is authentic.  Without the right HMAC of the raw
    body, a complete envelope and an allowed session the request is refused before any
    statement; an accepted one has its row in the database, and is reported as a duplicate
    exactly when the row was there before. *)
Theorem only_authentic_webhooks_are_stored (cfg : webhook_config) (hmac : string -> string -> string)
    (add : nat -> option failure) (rawBody signature : option string) (body : partial_envelope)
    (e : env_over wdb) (n : nat) (d : wdb) (r : failure + bool) (n' : nat) (d' : wdb)
    (E : receive cfg hmac add rawBody signature body e n d = (r, n', d')) :
  (d' <> d \/ n' <> n -> exists raw typed, rawBody = Some raw /\
     signature = Some ("sha256=" ++ hmac (OPENWA_WEBHOOK_SECRET cfg) raw)%string /\
     complete_envelope body = Some typed /\
     mem (ev_sessionId typed) (OPENWA_ALLOWED_SESSION_IDS (gw_core (wc_gateway cfg))) = true) /\
  match r with
  | inr duplicate => exists typed d1, complete_envelope body = Some typed /\
      d' = Service.between e (S n) d1 /\
      is_Some (webhook_events d1 !! ev_idempotencyKey typed) /\
      duplicate = negb (is_null (webhook_events (Service.between e n d) !! ev_idempotencyKey typed))
  | inl _ => True
  end.
Proof.
  unfold receive in E. destruct (signed cfg hmac rawBody signature) eqn:Es.
  2: { injection E as <- <- <-. split; [|done]. by intros [?|?]. }
  destruct (complete_envelope body) as [typed|] eqn:Ec.
  2: { injection E as <- <- <-. split; [|done]. by intros [?|?]. }
  unfold SessionScope.assertAllowed in E. destruct (SessionScope.isAllowed _ _) eqn:Ea.
  2: { injection E as <- <- <-. split; [|done]. by intros [?|?]. }
  split.
  - intros _. unfold signed, verifyOpenWASignature in Es. destruct rawBody as [raw|]; [|done].
    destruct signature as [s|]; [|done]. split_bool.
    match goal with H : String.eqb _ _ = true |- _ => apply String.eqb_eq in H as -> end.
    by exists raw, typed.
  - destruct r as [f|duplicate]; [done|].
    apply bind_ok in E as (created & n1 & d1 & E1 & E). apply await_ok in E1 as [-> E1].
    apply bind_ok in E as ([] & n2 & d2 & E2 & E). unfold publish in E2.
    destruct (add (S n)); [done|]. injection E2 as <- <-. injection E as <- <- <-.
    exists typed, d1. split; [done|]. split; [done|]. unfold WebhookRepo.insert, WebhookRepo.on_events in E1.
    injection E1 as <- <-. cbn. split; [|done]. rewrite insert_absent_lookup.
    destruct (webhook_events (Service.between e n d) !! _); [by eexists|]. rewrite bool_decide_true by done.
    by eexists.
Qed.

(** *** Witness *)

Definition example_hmac (secret text : string) : string := (secret ++ text)%string.

Definition example_body : partial_envelope :=
  PartialEnvelope (Some "group.join") (Some "t") (Some "s") (Some "k") (Some "x") (Some (JObj [])).

Lemma only_authentic_webhooks_are_stored_witness : exists d',
  receive Ledger.example_config example_hmac (fun _ => None) (Some "raw") (Some "sha256=secretraw") example_body
    Ledger.quiet 0 empty_wdb = (inr false, 2, d') /\
  exists typed d1, complete_envelope example_body = Some typed /\ d' = Service.between Ledger.quiet 1 d1 /\
    is_Some (webhook_events d1 !! ev_idempotencyKey typed) /\
    false = negb (is_null (webhook_events (Service.between Ledger.quiet 0 empty_wdb) !! ev_idempotencyKey typed)).
Proof.
  destruct (receive Ledger.example_config example_hmac (fun _ => None) (Some "raw") (Some "sha256=secretraw")
    example_body Ledger.quiet 0 empty_wdb) as [[r n'] d'] eqn:E.
  assert (H : (r, n') = (inr false, 2)) by (apply (f_equal fst) in E; vm_compute in E; by rewrite E).
  injection H as -> ->. exists d'. split; [done|].
  exact (proj2 (only_authentic_webhooks_are_stored _ _ _ _ _ _ _ _ _ _ _ _ E)).
Defined.

End Ingress.

Module Processing.

Inductive outcome : Set := Skipped | LostOwnership | StatusUpdated (updated : bool).

Section Config.
Context (cfg : webhook_config) (sha256 : string -> string).
Context (Date_parse : string -> option timestamp) (Number_ : string -> option Z).

(** The body of the [try] *)
Definition work (c : WebhookRepo.claimed) : wserv outcome :=
  let e := WebhookRepo.wh_envelope c in
  match Handling.webhookStatus (ev_event e) (ev_data e) with
  | inl f => throw f
  | inr status => match Handling.first_of "messageId" "id" (ev_data e) with
      | inl f => throw f
      | inr messageId =>
          let! owned := attempt (fun now _ d =>
            Handling.transaction cfg sha256 Date_parse Number_ now e (WebhookRepo.wh_leaseToken c)
              status messageId d) in
          ret (if owned then StatusUpdated (negb (is_null status) && truthy messageId) else LostOwnership)
      end
  end.

Definition mark_failed (c : WebhookRepo.claimed) (error : failure) : wserv unit :=
  let! _ := await (fun now _ d => WebhookRepo.markFailed now
              (ev_idempotencyKey (WebhookRepo.wh_envelope c)) (WebhookRepo.wh_leaseToken c)
              (error_message error) d) in
  ret tt.

Definition process (idempotencyKey : string) : wserv outcome :=
  let! claim := await (fun now ids d =>
    WebhookRepo.claimForProcessing now (ids "lease") idempotencyKey d) in
  match claim with
  | None => ret Skipped
  | Some c => catch_rethrow (work c) (mark_failed c)
  end.

(** The transaction of a worker: a failure rolls it back. *)
Lemma transaction_marks now ev token status m d d' :
  Handling.transaction cfg sha256 Date_parse Number_ now ev token status m d = (inr true, d') ->
  is_Some (runtime_events d' !! ev_idempotencyKey ev) /\
  exists w, webhook_events d' !! ev_idempotencyKey ev = Some w /\ we_processing_state w = ProcessingState.PROCESSED.
Proof.
  intros E. apply Ledger.transaction_spec in E as (w & b & d1 & Hw & _ & Hs & -> & -> & _). split.
  - apply Ledger.store_spec in Hs as [_ Hs]. rewrite Ledger.event_id in Hs. destruct b.
    + destruct Hs as (_ & [l ->] & _). rewrite lookup_insert_eq. by eexists.
    + by destruct Hs as [-> ?].
  - rewrite lookup_insert_eq. by eexists.
Qed.

Lemma work_spec c e n d r n' d' : work c e n d = (r, n', d') ->
  let id := ev_idempotencyKey (WebhookRepo.wh_envelope c) in
  match r with
  | inr Skipped => False
  | inr LostOwnership => d' = Service.between e n d
  | inr (StatusUpdated _) => is_Some (runtime_events d' !! id) /\
      exists w, webhook_events d' !! id = Some w /\ we_processing_state w = ProcessingState.PROCESSED
  | inl (Broken _) => True
  | inl _ => d' = d \/ d' = Service.between e n d
  end.
Proof.
  unfold work. cbn zeta. set (ev := WebhookRepo.wh_envelope c).
  destruct (Handling.webhookStatus _ _) as [f|status]; [by intros [= <- <- <-]; destruct f; auto|].
  destruct (Handling.first_of _ _ _) as [f|m]; [by intros [= <- <- <-]; destruct f; auto|].
  unfold attempt, bind, await. set (t := Handling.transaction _ _ _ _ _ _ _ _ _ _).
  destruct (faults e n) as [[msg|msg]|]; [by intros [= <- <- <-]|by intros [= <- <- <-]|].
  destruct t as [r1 d1] eqn:Et. unfold t in Et. cbn [fst snd].
  destruct r1 as [f|[]]; intros [= <- <- <-].
  - apply Ledger.transaction_spec in Et. subst d1. destruct f; auto.
  - by apply transaction_marks in Et.
  - by apply Ledger.transaction_spec in Et.
Qed.

Lemma claim_refused now token key d d' : WebhookRepo.claimForProcessing now token key d = (None, d') -> d' = d.
Proof.
  unfold WebhookRepo.claimForProcessing, WebhookRepo.on_events.
  destruct (update_row _ _ _ _) as [[w|] t] eqn:E; [done|]. intros [= <-].
  apply update_row_None in E as [-> _]. by destruct d.
Qed.

End Config.


(** *** Witness *)


End Processing.
