(* ===== verification/Scheduler.v ===== *)
(** * The scheduler

    [src/src/modules/orchestration]: the tick that runs one periodic operation at a time
    ([isolated-scheduler-tick.ts], Module [Tick]), the coalescing of wake-up calls
    ([GatewayWakeCoordinator] of [gateway-work-listener.service.ts] and the reruns of
    [gateway-dispatch.tick.ts], Module [Wake]), and the leadership that lets one process run
    the ticks ([scheduler-leadership.service.ts], Module [Leadership]).

    These classes keep their state in memory: a step is what one process does between two
    awaits, and the steps of several calls interleave. *)

From S2P Require Import Prelude Schema.

Module Tick.

Local Open Scope Z_scope.

Record options := Options { intervalMs : Z; timeoutMs : Z; maxBackoffMs : Z }.

(** Where a call of [execute] is: reporting its start, in the operation with its timeout
    armed, or reporting its end *)
Inductive phase : Set := Reporting | Operating (deadline : timestamp) | Closing.

(** [byTimer]: the call was made by the timer, which schedules the next one after it. *)
Record call := Call { ca_byTimer : bool; ca_startedAt : timestamp; ca_phase : phase }.

(** The fields of the class; [timers] are the pending timeouts of [schedule] and [timer] the
    one the class remembers, [calls] the calls of [execute] that have not returned. *)
Record tick := TickState {
  running : bool;
  stopped : bool;
  timedOut : bool;
  consecutiveFailures : Z;
  lastStartedAt : option timestamp;
  lastSuccessAt : option timestamp;
  lastFailureAt : option timestamp;
  lastDurationMs : option Z;
  nextRunAt : option timestamp;
  timer : option nat;
  timers : gmap nat timestamp;
  calls : gmap nat call }.
#[export] Instance tick_eta : Eta tick := fun s => TickState
  (running s) (stopped s) (timedOut s) (consecutiveFailures s) (lastStartedAt s) (lastSuccessAt s)
  (lastFailureAt s) (lastDurationMs s) (nextRunAt s) (timer s) (timers s) (calls s).

Definition initial : tick := TickState false true false 0 None None None None None None ∅ ∅.

Inductive outcome : Set := SUCCEEDED | FAILED | TIMED_OUT.

Section Options.
Context (o : options).

Definition nextDelayMs (s : tick) : Z :=
  if consecutiveFailures s =? 0 then intervalMs o
  else Z.min (maxBackoffMs o) (intervalMs o * 2 ^ Z.min (consecutiveFailures s) 10).

(** [setTimeout], under the fresh handle [id] *)
Definition schedule (id : nat) (now : timestamp) (delayMs : Z) (s : tick) : tick :=
  if stopped s then s
  else s <| nextRunAt := Some (now + delayMs) |> <| timers := <[id := now + delayMs]> (timers s) |>
         <| timer := Some id |>.

Definition start (id : nat) (now : timestamp) (s : tick) : tick :=
  if stopped s then schedule id now 0 (s <| stopped := false |>) else s.

(** What [stop] does at once; it then waits for the active call. *)
Definition stop (s : tick) : tick :=
  s <| stopped := true |>
    <| timers := match timer s with Some id => base.delete id (timers s) | None => timers s end |>
    <| timer := None |> <| nextRunAt := None |>.

(** [execute] up to its first await; [None] is SKIPPED_OVERLAP. *)
Definition execute (k : nat) (byTimer : bool) (now : timestamp) (s : tick) : option tick :=
  if running s then None
  else Some (s <| running := true |> <| timedOut := false |> <| lastStartedAt := Some now |>
               <| nextRunAt := None |> <| calls := <[k := Call byTimer now Reporting]> (calls s) |>).

(** The [finally] of a call that the timer made *)
Definition after_call (id : nat) (now : timestamp) (s : tick) : tick :=
  if stopped s then s
  else schedule id now (Z.max 0 (default (now + intervalMs o) (nextRunAt s) - now)) s.

(** The timer [id] goes off. *)
Definition fire (id k id' : nat) (now : timestamp) (s : tick) : tick :=
  let s1 := s <| timer := None |> <| timers := base.delete id (timers s) |> in
  match execute k true now s1 with
  | Some s2 => s2
  | None => after_call id' now s1
  end.

Definition set_phase (k : nat) (c : call) (p : phase) (s : tick) : tick :=
  s <| calls := <[k := Call (ca_byTimer c) (ca_startedAt c) p]> (calls s) |>.

(** The first report is done; the timeout is armed and the operation begins. *)
Definition operate (k : nat) (c : call) (now : timestamp) (s : tick) : tick :=
  set_phase k c (Operating (now + timeoutMs o)) s.

Definition time_out (s : tick) : tick := s <| timedOut := true |>.

Definition result (failed : bool) (s : tick) : outcome :=
  if timedOut s then TIMED_OUT else if failed then FAILED else SUCCEEDED.

(** The operation has settled. *)
Definition settle (k : nat) (c : call) (failed : bool) (now : timestamp) (s : tick) : tick :=
  let s1 := s <| lastDurationMs := Some (now - ca_startedAt c) |> <| running := false |> in
  let s2 := if failed || timedOut s
            then s1 <| consecutiveFailures := consecutiveFailures s + 1 |> <| lastFailureAt := Some now |>
            else s1 <| consecutiveFailures := 0 |> <| lastSuccessAt := Some now |> in
  set_phase k c Closing (s2 <| nextRunAt := Some (now + nextDelayMs s2) |>).

(** The last report is done: the call returns. *)
Definition finish (k : nat) (c : call) (id : nat) (now : timestamp) (s : tick) : tick :=
  let s1 := s <| calls := base.delete k (calls s) |> in
  if ca_byTimer c then after_call id now s1 else s1.

(** One step; handles and calls get fresh numbers. *)
Inductive step (s : tick) : tick -> Prop :=
  | s_start id now : timers s !! id = None -> step s (start id now s)
  | s_stop : step s (stop s)
  | s_fire id k id' due now : timers s !! id = Some due -> due <= now -> calls s !! k = None ->
      timers s !! id' = None -> step s (fire id k id' now s)
  (** another part of the process calls [execute] *)
  | s_call k now s' : calls s !! k = None -> execute k false now s = Some s' -> step s s'
  | s_operate k c now : calls s !! k = Some c -> ca_phase c = Reporting -> step s (operate k c now s)
  | s_time_out k c deadline : calls s !! k = Some c -> ca_phase c = Operating deadline -> step s (time_out s)
  | s_settle k c deadline failed now : calls s !! k = Some c -> ca_phase c = Operating deadline ->
      step s (settle k c failed now s)
  | s_finish k c id now : calls s !! k = Some c -> ca_phase c = Closing -> timers s !! id = None ->
      step s (finish k c id now s).

Definition reachable : tick -> Prop := rtc step initial.

Lemma reachable_preserves (P : tick -> Prop) : (forall s s', P s -> step s s' -> P s') -> P initial ->
  forall s, reachable s -> P s.
Proof. intros Hst H0 s Hr. revert H0. unfold reachable in Hr. induction Hr; eauto. Qed.

(** *** One call at a time *)

(** The call has the operation before it or in progress. *)
Definition busy (c : call) : bool := match ca_phase c with Closing => false | _ => true end.

Record sound (s : tick) : Prop := Sound {
  so_busy k c : calls s !! k = Some c -> busy c = true -> running s = true;
  so_one k1 c1 k2 c2 : calls s !! k1 = Some c1 -> calls s !! k2 = Some c2 ->
    busy c1 = true -> busy c2 = true -> k1 = k2;
  so_running : running s = true -> exists k c, calls s !! k = Some c /\ busy c = true;
  so_failures : 0 <= consecutiveFailures s }.

(** Something will call [execute] again: a pending timer, or a call that sets one. *)
Definition goes_on (s : tick) : Prop := stopped s = false ->
  (exists id due, timers s !! id = Some due) \/ (exists k c, calls s !! k = Some c /\ ca_byTimer c = true).

Lemma sound_initial : sound initial.
Proof. by split. Qed.

(** The calls and the counters are those of [s]. *)
Definition same_calls (s s' : tick) : Prop :=
  calls s' = calls s /\ running s' = running s /\ consecutiveFailures s' = consecutiveFailures s.

Lemma sound_same_calls s s' : same_calls s s' -> sound s -> sound s'.
Proof. intros (Hc & Hr & Hf) [H1 H2 H3 H4]. split; by rewrite ?Hc, ?Hr, ?Hf. Qed.

Lemma schedule_same id now d s : same_calls s (schedule id now d s).
Proof. unfold schedule. by destruct (stopped s). Qed.

Lemma after_call_same id now s : same_calls s (after_call id now s).
Proof. unfold after_call. destruct (stopped s); [done|apply schedule_same]. Qed.

Lemma schedule_goes_on id now d s : goes_on (schedule id now d s).
Proof.
  unfold schedule. destruct (stopped s) eqn:E; intros Hs; [congruence|]. left. cbn.
  exists id, (now + d). by rewrite lookup_insert_eq.
Qed.

Lemma after_call_goes_on id now s : goes_on (after_call id now s).
Proof.
  unfold after_call. destruct (stopped s) eqn:E; [intros Hs; congruence|apply schedule_goes_on].
Qed.

(** The call [k] is in a new phase. *)
Lemma sound_set_phase k c p s : sound s -> calls s !! k = Some c -> busy c = true ->
  busy (Call (ca_byTimer c) (ca_startedAt c) p) = true -> sound (set_phase k c p s).
Proof.
  intros [H1 H2 H3 H4] Hk Hb Hp.
  assert (Hin : forall k' c', calls (set_phase k c p s) !! k' = Some c' -> busy c' = true ->
    exists c0, calls s !! k' = Some c0 /\ busy c0 = true).
  { intros k' c' Hl Hb'. cbn in Hl. apply lookup_insert_Some in Hl as [[<- _]|[_ Hl]]; eauto. }
  split; cbn.
  - intros k' c' Hl Hb'. destruct (Hin _ _ Hl Hb') as (c0 & ? & ?). by eapply H1.
  - intros k1 c1 k2 c2 L1 L2 B1 B2. destruct (Hin _ _ L1 B1) as (? & ? & ?).
    destruct (Hin _ _ L2 B2) as (? & ? & ?). by eapply H2.
  - intros _. exists k, (Call (ca_byTimer c) (ca_startedAt c) p). by rewrite lookup_insert_eq.
  - done.
Qed.

(** An operation that settles was the only one. *)
Lemma tick_sound_settle k c failed now s : sound s -> calls s !! k = Some c -> busy c = true ->
  sound (settle k c failed now s).
Proof.
  intros [H1 H2 H3 H4] Hk Hb.
  assert (Hcalls : calls (settle k c failed now s) =
    <[k := Call (ca_byTimer c) (ca_startedAt c) Closing]> (calls s)).
  { unfold settle. by destruct (failed || timedOut s). }
  assert (Hrun : running (settle k c failed now s) = false).
  { unfold settle. by destruct (failed || timedOut s). }
  assert (Hidle : forall k' c', calls (settle k c failed now s) !! k' = Some c' -> busy c' = true -> False).
  { rewrite Hcalls. intros k' c' [[<- <-]|[Hne Hl]]%lookup_insert_Some Hb'; [done|].
    by apply Hne, (H2 k c k' c'). }
  split.
  - intros k' c' Hl Hb'. by destruct (Hidle _ _ Hl Hb').
  - intros k1 c1 k2 c2 L1 _ B1 _. by destruct (Hidle _ _ L1 B1).
  - by rewrite Hrun.
  - unfold settle. destruct (failed || timedOut s); cbn; lia.
Qed.

Lemma sound_remove k c s : sound s -> calls s !! k = Some c -> busy c = false ->
  sound (s <| calls := base.delete k (calls s) |>).
Proof.
  intros [H1 H2 H3 H4] Hk Hb. split; cbn.
  - intros k' c' [_ Hl]%lookup_delete_Some. by apply H1 with (k := k').
  - intros k1 c1 k2 c2 [_ L1]%lookup_delete_Some [_ L2]%lookup_delete_Some. by eapply H2.
  - intros Hr. destruct (H3 Hr) as (k' & c' & Hl & Hb'). exists k', c'.
    rewrite lookup_delete_ne; [done|]. intros ->. congruence.
  - done.
Qed.

Lemma sound_execute k byTimer now s s' : sound s -> calls s !! k = None ->
  execute k byTimer now s = Some s' -> sound s'.
Proof.
  intros [H1 H2 H3 H4] Hk E. unfold execute in E. destruct (running s) eqn:Er; [done|].
  injection E as <-. assert (Hidle : forall k' c', calls s !! k' = Some c' -> busy c' = true -> False).
  { intros k' c' Hl Hb. pose proof (H1 _ _ Hl Hb). congruence. }
  split; cbn.
  - done.
  - intros k1 c1 k2 c2 [[<- <-]|[_ L1]]%lookup_insert_Some [[<- <-]|[_ L2]]%lookup_insert_Some B1 B2.
    + done.
    + by destruct (Hidle _ _ L2 B2).
    + by destruct (Hidle _ _ L1 B1).
    + by destruct (Hidle _ _ L1 B1).
  - intros _. exists k, (Call byTimer now Reporting). by rewrite lookup_insert_eq.
  - done.
Qed.

Lemma tick_sound_step s s' : sound s -> step s s' -> sound s'.
Proof.
  intros Hs Hst. destruct Hst as [id now Hid| |id k id' due now Hd Hdue Hk Hid|k now s' Hk E
    |k c now Hk Hp|k c deadline Hk Hp|k c deadline failed now Hk Hp|k c id now Hk Hp Hid].
  - apply (sound_same_calls s); [|done]. unfold start. destruct (stopped s); [|done].
    unfold schedule. cbn. done.
  - by apply (sound_same_calls s).
  - unfold fire. set (s1 := s <| timer := None |> <| timers := _ |>).
    assert (H1 : sound s1) by by eapply sound_same_calls; [|exact Hs].
    destruct (execute k true now s1) as [s2|] eqn:E.
    + by eapply sound_execute; [exact H1| |exact E].
    + eapply sound_same_calls; [apply after_call_same|done].
  - by eapply sound_execute.
  - apply sound_set_phase; try done. unfold busy. by rewrite Hp.
  - by apply (sound_same_calls s).
  - apply tick_sound_settle; try done. unfold busy. by rewrite Hp.
  - assert (H1 : sound (s <| calls := base.delete k (calls s) |>)).
    { apply (sound_remove k c); [done|done|]. unfold busy. by rewrite Hp. }
    unfold finish. destruct (ca_byTimer c); [|done].
    eapply sound_same_calls; [apply after_call_same|done].
Qed.

Lemma tick_sound_reachable s : reachable s -> sound s.
Proof. apply reachable_preserves; [apply tick_sound_step|apply sound_initial]. Qed.

(** *** It keeps ticking *)

Lemma goes_on_calls s s' : stopped s' = stopped s -> timers s' = timers s ->
  (forall k c, calls s !! k = Some c -> ca_byTimer c = true ->
     exists k' c', calls s' !! k' = Some c' /\ ca_byTimer c' = true) -> goes_on s -> goes_on s'.
Proof.
  intros Es Et Hc H Hs. rewrite Es in Hs. rewrite Et.
  destruct (H Hs) as [?|(k & c & Hk & Hb)]; [by left|right; by eapply Hc].
Qed.

Lemma set_phase_by_timer (k : nat) c p (m : gmap nat call) : m !! k = Some c ->
  forall k0 c0, m !! k0 = Some c0 -> ca_byTimer c0 = true ->
  exists k' c', <[k := Call (ca_byTimer c) (ca_startedAt c) p]> m !! k' = Some c' /\ ca_byTimer c' = true.
Proof.
  intros Hk k0 c0 Hl Hb. destruct (decide (k0 = k)) as [->|Hne].
  - exists k, (Call (ca_byTimer c) (ca_startedAt c) p). rewrite lookup_insert_eq. split; [done|].
    cbn. congruence.
  - exists k0, c0. by rewrite lookup_insert_ne.
Qed.

Lemma goes_on_step s s' : goes_on s -> step s s' -> goes_on s'.
Proof.
  intros H Hst. destruct Hst as [id now Hid| |id k id' due now Hd Hdue Hk Hid|k now s' Hk E
    |k c now Hk Hp|k c deadline Hk Hp|k c deadline failed now Hk Hp|k c id now Hk Hp Hid].
  - unfold start. destruct (stopped s) eqn:E; [apply schedule_goes_on|done].
  - intros Hs. by cbn in Hs.
  - unfold fire. destruct (execute _ _ _ _) as [s2|] eqn:E; [|apply after_call_goes_on].
    intros _. right. unfold execute in E. case_match; [done|]. injection E as <-.
    exists k, (Call true now Reporting). cbn. by rewrite lookup_insert_eq.
  - unfold execute in E. destruct (running s); [done|]. injection E as <-.
    revert H. apply goes_on_calls; [done|done|]. intros k0 c0 Hl Hb. cbn. exists k0, c0.
    rewrite lookup_insert_ne; [done|]. intros ->. congruence.
  - revert H. apply goes_on_calls; [done|done|]. by apply set_phase_by_timer.
  - revert H. by apply goes_on_calls; [| |eauto].
  - revert H. unfold settle. destruct (failed || timedOut s);
      (apply goes_on_calls; [done|done|]; by apply set_phase_by_timer).
  - unfold finish. destruct (ca_byTimer c) eqn:Eb; [apply after_call_goes_on|].
    revert H. apply goes_on_calls; [done|done|]. intros k0 c0 Hl Hb. exists k0, c0. cbn.
    rewrite lookup_delete_ne; [done|]. intros ->. congruence.
Qed.

Lemma goes_on_reachable s : reachable s -> goes_on s.
Proof. by apply reachable_preserves; [apply goes_on_step|]. Qed.

(** *** The delay *)

Lemma delay_bounds s : 0 < intervalMs o -> intervalMs o <= maxBackoffMs o -> 0 <= consecutiveFailures s ->
  intervalMs o <= nextDelayMs s <= maxBackoffMs o.
Proof.
  intros Hi Hm Hf. unfold nextDelayMs. destruct (consecutiveFailures s =? 0) eqn:E; [lia|].
  assert (1 <= 2 ^ Z.min (consecutiveFailures s) 10).
  { change 1 with (2 ^ 0). apply Z.pow_le_mono_r; lia. }
  nia.
Qed.

End Options.

(** The options [SchedulerRunnerService.tick] passes *)
Definition runner_options (intervalMs timeoutMs : Z) : options :=
  Options intervalMs timeoutMs (Z.max 60000 (intervalMs * 8)).

(** A tick runs one operation at a time and never stops by itself.  However timers,
    other callers of [execute], time-outs, failures, stops and restarts interleave, at most
    one call has the operation before it or in progress, [running] says whether there is
    one, and while the tick is not stopped a timer is pending or a call that sets the next
    one has not returned. *)
Theorem ticks_never_overlap (o : options) (s : tick) (Hs : reachable o s) :
  (forall k1 c1 k2 c2, calls s !! k1 = Some c1 -> calls s !! k2 = Some c2 ->
     busy c1 = true -> busy c2 = true -> k1 = k2) /\
  (running s = true <-> exists k c, calls s !! k = Some c /\ busy c = true) /\
  (stopped s = false -> (exists id due, timers s !! id = Some due) \/
     (exists k c, calls s !! k = Some c /\ ca_byTimer c = true)).
Proof.
  pose proof (tick_sound_reachable _ _ Hs) as H. split; [apply (so_one _ H)|]. split.
  - split; [apply (so_running _ H)|]. intros (k & c & Hk & Hb). by apply (so_busy _ H k c).
  - by apply (goes_on_reachable o).
Qed.


(** *** Witnesses *)

Lemma started : reachable (runner_options 1000 30000) (start 0 5 initial).
Proof. apply rtc_once. by apply (s_start _ initial 0 5). Qed.

Lemma ticks_never_overlap_witness :
  (exists id due, timers (start 0 5 initial) !! id = Some due) \/
  (exists k c, calls (start 0 5 initial) !! k = Some c /\ ca_byTimer c = true).
Proof. by apply (proj2 (proj2 (ticks_never_overlap _ _ started))). Defined.


End Tick.

Module Wake.

(** [GatewayWakeCoordinator] *)
Record coordinator := Coordinator { wakeInFlight : bool; wakeAgain : bool }.

Definition idle : coordinator := Coordinator false false.

(** The answer: whether [wake] is called now. *)
Definition request (c : coordinator) : bool * coordinator :=
  if wakeInFlight c then (false, Coordinator true true) else (true, Coordinator true (wakeAgain c)).

(** The [finally] of a call of [wake] *)
Definition settled (c : coordinator) : bool * coordinator :=
  if wakeAgain c then request (Coordinator false false) else (false, Coordinator false false).

(** [GatewayDispatchTick]: the flags and whether a dispatch is in progress *)
Record dispatcher := Dispatcher { dispatching : bool; rerun : bool }.

(** [run]; the answer: whether [dispatchOnce] is called now. *)
Definition run (d : dispatcher) : bool * dispatcher :=
  if dispatching d then (false, Dispatcher true true) else (true, Dispatcher true false).

(** [dispatchOnce] has settled; a failure ends the loop. *)
Definition dispatched (failed : bool) (d : dispatcher) : bool * dispatcher :=
  if negb failed && rerun d then (true, Dispatcher true false) else (false, Dispatcher false (rerun d)).

Inductive event : Set := Request | Settled.

Definition on_event (e : event) (c : coordinator) : bool * coordinator :=
  match e with Request => request c | Settled => if wakeInFlight c then settled c else (false, c) end.

(** After [es]: the coordinator, and whether a request came after the last call of [wake] *)
Fixpoint after_events (es : list event) (c : coordinator) (unserved : bool) : coordinator * bool :=
  match es with
  | [] => (c, unserved)
  | e :: es' =>
      let '(called, c') := on_event e c in
      after_events es' c' (if called then false else match e with Request => true | Settled => unserved end)
  end.

(** No request is forgotten: while one has not been followed by a call of [wake], a call is
    in progress and the next one is noted. *)
Lemma requests_are_served es c unserved : (unserved = true -> wakeInFlight c = true /\ wakeAgain c = true) ->
  let '(c', u) := after_events es c unserved in
  u = true -> wakeInFlight c' = true /\ (settled c').1 = true.
Proof.
  revert c unserved. induction es as [|e es IH]; intros [f a] u H; cbn [after_events].
  - intros Hu. destruct (H Hu) as [? Ha]. cbn in *. subst. by split.
  - destruct e, f, a, u; cbn; apply IH; cbn; try done; intros Hu; by destruct (H Hu).
Qed.

(** A wake-up that finds the poll in progress is not such a call: the tick refuses the
    overlap before [GatewayDispatchTick.run] could note a rerun, and the coordinator is idle
    again. *)
Example wake_during_poll_is_dropped :
  (forall o, Tick.execute 1 false 11 (Tick.fire o 0 0 1 10 (Tick.start 0 5 Tick.initial)) = None) /\
  (request idle).1 = true /\ settled (request idle).2 = (false, idle).
Proof. by split_and!. Qed.

End Wake.

Module Leadership.

(** The fields of the service in one process *)
Record instance := Instance { client : option nat; leadershipLost : bool }.
#[export] Instance instance_eta : Eta instance := fun i => Instance (client i) (leadershipLost i).

(** The processes, the connections that are open, and the one that holds the advisory lock *)
Record world := World {
  instances : gmap nat instance;
  open_connections : gset nat;
  lock_holder : option nat }.
#[export] Instance world_eta : Eta world := fun w => World (instances w) (open_connections w) (lock_holder w).

Definition fresh_instance : instance := Instance None false.
Definition state_of (p : nat) (w : world) : instance := default fresh_instance (instances w !! p).

Definition set_instance (p : nat) (i : instance) (w : world) : world :=
  w <| instances := <[p := i]> (instances w) |>.

(** A connection ends: the server frees its lock. *)
Definition close (c : nat) (w : world) : world :=
  w <| open_connections := open_connections w ∖ {[c]} |>
    <| lock_holder := if bool_decide (lock_holder w = Some c) then None else lock_holder w |>.

(** [pg_try_advisory_lock]: a session that has the lock gets it again. *)
Definition lockable (c : nat) (w : world) : bool :=
  bool_decide (lock_holder w = None) || bool_decide (lock_holder w = Some c).

(** [acquire] with the pooled connection [c]; [answered] is false when the statement failed
    or its answer was lost.  The answer: whether it returned. *)
Definition acquire (p c : nat) (answered : bool) (w : world) : bool * world :=
  match client (state_of p w) with
  | Some _ => (true, w)
  | None =>
      let w1 := w <| open_connections := {[c]} ∪ open_connections w |> in
      if answered && lockable c w1
      then (true, set_instance p (Instance (Some c) false) (w1 <| lock_holder := Some c |>))
      else (false, close c w1)
  end.

(** [onClientError] *)
Definition onClientError (p : nat) (w : world) : world :=
  let i := state_of p w in
  match client i with
  | Some _ => if leadershipLost i then w else set_instance p (i <| leadershipLost := true |>) w
  | None => w
  end.

(** [release]: a lost connection is destroyed, another is unlocked and returned to the pool;
    [unlocked] is false when that statement failed. *)
Definition release (p : nat) (unlocked : bool) (w : world) : world :=
  let i := state_of p w in
  match client i with
  | None => w
  | Some c =>
      let w1 := set_instance p (i <| client := None |>) w in
      if leadershipLost i then close c w1
      else if unlocked && bool_decide (lock_holder w = Some c) then w1 <| lock_holder := None |> else w1
  end.

Inductive step (w : world) : world -> Prop :=
  (** the pool hands out a connection that no service has *)
  | l_acquire p c answered : (forall q, client (state_of q w) <> Some c) -> step w (acquire p c answered w).2
  | l_close c : step w (close c w)
  | l_error p : step w (onClientError p w)
  | l_release p unlocked : step w (release p unlocked w).

Definition initial : world := World ∅ ∅ None.
Definition reachable : world -> Prop := rtc step initial.

Record sound (w : world) : Prop := Sound {
  so_lock p c : client (state_of p w) = Some c -> c ∈ open_connections w -> lock_holder w = Some c;
  so_one p q c : client (state_of p w) = Some c -> client (state_of q w) = Some c -> p = q }.

Lemma state_of_set p i q w : state_of q (set_instance p i w) = if decide (q = p) then i else state_of q w.
Proof.
  unfold state_of, set_instance. cbn. destruct (decide (q = p)) as [->|Hne].
  - by rewrite lookup_insert_eq.
  - by rewrite lookup_insert_ne.
Qed.

Lemma sound_close c w : sound w -> sound (close c w).
Proof.
  intros [H1 H2]. split; [|done]. intros p c' Hp Hin.
  change (client (state_of p w) = Some c') in Hp. cbn in Hin |- *.
  assert (Hl : lock_holder w = Some c') by (apply (H1 p); [done|set_solver]).
  rewrite Hl, bool_decide_false; [done|]. intros [= ->]. set_solver.
Qed.

(** A process that gives its client up *)
Lemma sound_forget p i w : sound w -> client i = None -> sound (set_instance p i w).
Proof.
  intros [H1 H2] Hi. split.
  - intros q c. rewrite state_of_set. destruct (decide (q = p)); [congruence|apply H1].
  - intros q r c. rewrite !state_of_set. destruct (decide (q = p)); [congruence|].
    destruct (decide (r = p)); [congruence|apply H2].
Qed.

(** A connection that no service has says nothing about the lock. *)
Lemma sound_open c w : (forall q, client (state_of q w) <> Some c) -> sound w ->
  sound (w <| open_connections := {[c]} ∪ open_connections w |>).
Proof.
  intros Hc [H1 H2]. split; [|done]. intros p c' Hp Hin. cbn in Hin. apply (H1 p); [done|].
  apply elem_of_union in Hin as [Hin%elem_of_singleton|Hin]; [|done]. subst c'. by destruct (Hc p).
Qed.

Lemma leader_sound_step w w' : sound w -> step w w' -> sound w'.
Proof.
  intros Hs Hst. destruct Hst as [p c answered Hc|c|p|p unlocked].
  - unfold acquire. destruct (client (state_of p w)) as [c0|] eqn:Ep; [done|].
    pose proof (sound_open c w Hc Hs) as H1. set (w1 := w <| open_connections := _ |>) in *.
    destruct (answered && lockable c w1) eqn:E; [|by apply sound_close]. cbn [snd].
    apply andb_true_iff in E as [_ Hl]. unfold lockable in Hl.
    assert (Hnone : forall q c', client (state_of q w1) = Some c' -> c' ∈ open_connections w1 -> False).
    { intros q c' Hq Hin. pose proof (so_lock _ H1 q c' Hq Hin) as Hlock.
      assert (c' <> c) by (intros ->; by destruct (Hc q)).
      apply orb_true_iff in Hl as [Hl|Hl]; apply bool_decide_eq_true in Hl; congruence. }
    split.
    + intros q c'. rewrite state_of_set. destruct (decide (q = p)); [intros [= <-]; done|].
      intros Hq Hin. by destruct (Hnone q c' Hq Hin).
    + intros q r c'. rewrite !state_of_set. destruct (decide (q = p)) as [->|], (decide (r = p)) as [->|];
        cbn [client]; try done.
      * intros [= <-] Hr. by destruct (Hc r).
      * intros Hq [= <-]. by destruct (Hc q).
      * apply (so_one _ H1).
  - by apply sound_close.
  - unfold onClientError. destruct (client (state_of p w)) as [c|] eqn:Ep; [|done].
    destruct (leadershipLost (state_of p w)); [done|]. destruct Hs as [H1 H2].
    assert (Heq : forall q, client (state_of q (set_instance p ((state_of p w) <| leadershipLost := true |>) w))
                            = client (state_of q w)).
    { intros q. rewrite state_of_set. by destruct (decide (q = p)) as [->|]. }
    split; intros *; rewrite !Heq; [apply H1|apply H2].
  - unfold release. destruct (client (state_of p w)) as [c|] eqn:Ep; [|done].
    pose proof (sound_forget p ((state_of p w) <| client := None |>) w Hs eq_refl) as H1.
    set (w1 := set_instance _ _ _) in *. destruct (leadershipLost (state_of p w)); [by apply sound_close|].
    destruct (unlocked && bool_decide (lock_holder w = Some c)) eqn:E; [|done].
    apply andb_true_iff in E as [_ E]. apply bool_decide_eq_true in E.
    split; [|apply (so_one _ H1)]. intros q c' Hq Hin. exfalso.
    pose proof (so_lock _ H1 q c' Hq Hin) as Hl. change (lock_holder w = Some c') in Hl.
    assert (c' = c) as -> by congruence. change (client (state_of q w1) = Some c) in Hq.
    unfold w1 in Hq. rewrite state_of_set in Hq. destruct (decide (q = p)); [done|].
    by pose proof (so_one _ Hs q p c Hq Ep).
Qed.


(** *** Witness *)


End Leadership.
