(* ===== verification/OpenWAClient.v ===== *)
(** * The client of the gateway

    [src/src/integrations/openwa/openwa.client.ts]: [request] with its repetitions, the
    delays between them, and [listGroups].  A request to the network is the argument
    [fetch]: what the [n]-th request of the call is answered.  [Number_] is [Number(text)]
    when it is finite, [Date_parse] is [Date.parse]; [jitter n] is [Math.random()] in
    thousandths, drawn before the [n]-th repetition. *)

From S2P Require Import Prelude Schema Service.
From Stdlib Require Import QArith Qround.
From stdpp Require Import pretty.

Module OpenWAClient.

Local Open Scope Z_scope.

Definition maxRateLimitRetries : nat := 12.
Definition maxTransientReadRetries : nat := 4.

(** What [response.json()] and [schema.safeParse] make of the body *)
Inductive parse_result (A : Type) : Type :=
  | NotJson (message : string)
  | Mismatch (issues : Z)
  | Parsed (a : A).
Arguments NotJson {A} _.
Arguments Mismatch {A} _.
Arguments Parsed {A} _.

Record response (A : Type) := Response {
  status : Z;
  header : string -> option string;
  body : parse_result A }.
Arguments Response {A} _ _ _.
Arguments status {A} _.
Arguments header {A} _ _.
Arguments body {A} _.

(** The network answered, or the request failed or timed out. *)
Inductive reply (A : Type) : Type :=
  | Answered (r : response A)
  | Unanswered (message : string).
Arguments Answered {A} _.
Arguments Unanswered {A} _.

Section Delays.
Context (Number_ : string -> option Q) (Date_parse : string -> option timestamp).

(** Math.min(60_000, Math.max(250, milliseconds)) *)
Definition clamp (milliseconds : Z) : Z := Z.min 60000 (Z.max 250 milliseconds).

(** Math.ceil(seconds * 1000) *)
Definition milliseconds (seconds : Q) : Z := Qceiling (seconds * (1000 # 1)).

Definition parseRetryAfterMs (now : timestamp) (headers : string -> option string) : option Z :=
  match headers "retry-after" with
  | None => None
  | Some value =>
      match Number_ value with
      | Some seconds => if Qle_bool 0 seconds then Some (clamp (milliseconds seconds))
                        else (fun at_ => clamp (at_ - now)) <$> Date_parse value
      | None => (fun at_ => clamp (at_ - now)) <$> Date_parse value
      end
  end.

(** Math.ceil(backoff * (0.75 + Math.random() * 0.5)) *)
Definition jitteredBackoffMs (attempt : nat) (maximum random : Z) : Z :=
  (Z.min maximum (250 * 2 ^ Z.of_nat attempt) * (1500 + random) + 1999) / 2000.

(** The seconds after which an exhausted tier is reset; [Number(null)] is 0. *)
Definition exhausted_resets (headers : string -> option string) : list Q :=
  List.filter (Qle_bool 0)
    (omap (fun tier => match headers ("x-ratelimit-reset-" ++ tier)%string with
                       | Some value => Number_ value
                       | None => Some (0 # 1)
                       end)
       (List.filter (fun tier => bool_decide (headers ("x-ratelimit-remaining-" ++ tier)%string = Some "0"))
          ["short"; "medium"; "long"])).

(** [Math.max] of the list *)
Definition largest (l : list Q) : Q := foldr (fun a b => if Qle_bool b a then a else b) (0 # 1) l.

Definition rateLimitDelayMs (now : timestamp) (headers : string -> option string) (attempt : nat) (random : Z)
    : Z :=
  match exhausted_resets headers with
  | [] => match parseRetryAfterMs now headers with
          | Some ms => ms
          | None => jitteredBackoffMs attempt 60000 random
          end
  | resets => clamp (milliseconds (largest resets))
  end.

Section Request.
Context {A : Type} (fetch : nat -> reply A) (clock : nat -> timestamp) (jitter : nat -> Z).

(** Requests that may be repeated: reads, except [get_group], whose pacing is the caller's *)
Definition repeatable (method operation : string) : bool :=
  String.eqb method "GET" && negb (String.eqb operation "get_group").

(** How the answer ends the call *)
Definition conclude (operation : string) (n : nat) (r : response A) : upstream_error + A :=
  if negb ((200 <=? status r) && (status r <? 300))
  then inl (HttpError (status r) (parseRetryAfterMs (clock n) (header r)))
  else match body r with
       | NotJson message => inl (NetworkError message)
       | Mismatch issues => inl (InvalidResponse ("OpenWA returned an invalid " ++ operation ++ " response ("
                                   ++ pretty issues ++ " schema issues)")%string)
       | Parsed a => inr a
       end.

(** The loop, from its [n]-th request on; the answer comes with the delays before the
    repetitions.  [None]: [fuel] requests were not enough. *)
Fixpoint attempts (fuel : nat) (method operation : string) (n rateLimitRetries transientRetries : nat)
    : option ((upstream_error + A) * list Z) :=
  match fuel with
  | O => None
  | S fuel' =>
      match fetch n with
      | Unanswered message => Some (inl (NetworkError message), [])
      | Answered r =>
          if (status r =? 429) && repeatable method operation
             && (rateLimitRetries <? maxRateLimitRetries)%nat
          then
            let ms := rateLimitDelayMs (clock n) (header r) rateLimitRetries (jitter n) in
            '(result, delays) ← attempts fuel' method operation (S n) (S rateLimitRetries) transientRetries;
            Some (result, ms :: delays)
          else if (500 <=? status r) && repeatable method operation
             && (transientRetries <? maxTransientReadRetries)%nat
          then
            let ms := jitteredBackoffMs transientRetries 5000 (jitter n) in
            '(result, delays) ← attempts fuel' method operation (S n) rateLimitRetries (S transientRetries);
            Some (result, ms :: delays)
          else Some (conclude operation n r, [])
      end
  end.

Definition max_requests : nat := S (maxRateLimitRetries + maxTransientReadRetries).

Definition request (method operation : string) : option ((upstream_error + A) * list Z) :=
  attempts max_requests method operation 0 0 0.

(** *** Its bounds *)

Lemma attempts_enough fuel method operation n r t :
  (r <= maxRateLimitRetries)%nat -> (t <= maxTransientReadRetries)%nat ->
  (maxRateLimitRetries - r + (maxTransientReadRetries - t) < fuel)%nat ->
  exists result delays, attempts fuel method operation n r t = Some (result, delays) /\
    (length delays <= maxRateLimitRetries - r + (maxTransientReadRetries - t))%nat.
Proof.
  revert n r t. induction fuel as [|fuel IH]; intros n r t Hr Ht Hf; [lia|]. cbn [attempts].
  destruct (fetch n) as [resp|msg]; [|by eexists _, []; split; [|cbn [length]; lia]].
  destruct (_ && (r <? maxRateLimitRetries)%nat) eqn:E1.
  - apply andb_true_iff in E1 as [_ E1%Nat.ltb_lt].
    destruct (IH (S n) (S r) t) as (result & delays & -> & Hl); [lia|lia|lia|].
    eexists _, _. split; [done|]. cbn [length]. lia.
  - destruct (_ && (t <? maxTransientReadRetries)%nat) eqn:E2.
    + apply andb_true_iff in E2 as [_ E2%Nat.ltb_lt].
      destruct (IH (S n) r (S t)) as (result & delays & -> & Hl); [lia|lia|lia|].
      eexists _, _. split; [done|]. cbn [length]. lia.
    + eexists _, []. split; [done|]. cbn [length]. lia.
Qed.

Lemma attempts_once fuel method operation n r t : repeatable method operation = false ->
  attempts (S fuel) method operation n r t =
    Some (match fetch n with
          | Unanswered message => inl (NetworkError message)
          | Answered resp => conclude operation n resp
          end, []).
Proof. intros H. cbn. destruct (fetch n); [|done]. by rewrite H, !andb_false_r. Qed.

Lemma clamp_bounds ms : 250 <= clamp ms <= 60000.
Proof. unfold clamp. lia. Qed.

Lemma backoff_bounds attempt maximum random : 250 <= maximum -> 0 <= random < 1000 ->
  188 <= jitteredBackoffMs attempt maximum random <= (maximum * 5 + 3) / 4.
Proof.
  intros Hm Hr. unfold jitteredBackoffMs. assert (1 <= 2 ^ Z.of_nat attempt) by (apply Z.lt_pred_le, Z.pow_pos_nonneg; lia).
  set (b := Z.min maximum _). assert (250 <= b <= maximum) by (unfold b; lia).
  split; [apply Z.div_le_lower_bound; nia|]. apply Z.div_le_lower_bound; [lia|].
  assert (Hd : (b * (1500 + random) + 1999) / 2000 * 2000 <= b * (1500 + random) + 1999)
    by (rewrite Z.mul_comm; apply Z.mul_div_le; lia).
  nia.
Qed.

Lemma parse_bounds now headers ms : parseRetryAfterMs now headers = Some ms -> 250 <= ms <= 60000.
Proof.
  unfold parseRetryAfterMs. intros E. repeat case_match; simplify_eq; try apply clamp_bounds;
    destruct (Date_parse _); simplify_eq/=; apply clamp_bounds.
Qed.

Lemma rate_limit_bounds now headers attempt random : 0 <= random < 1000 ->
  188 <= rateLimitDelayMs now headers attempt random <= 75000.
Proof.
  intros Hr. unfold rateLimitDelayMs. destruct (exhausted_resets headers) as [|q l].
  - destruct (parseRetryAfterMs now headers) as [ms|] eqn:E; [apply parse_bounds in E; lia|].
    pose proof (backoff_bounds attempt 60000 random ltac:(lia) Hr) as H.
    change ((60000 * 5 + 3) / 4) with 75000 in H. lia.
  - pose proof (clamp_bounds (milliseconds (largest (q :: l)))). lia.
Qed.

Lemma delays_bounded fuel method operation n r t result delays : (forall k, 0 <= jitter k < 1000) ->
  attempts fuel method operation n r t = Some (result, delays) -> Forall (fun ms => 188 <= ms <= 75000) delays.
Proof.
  intros Hj. revert n r t result delays. induction fuel as [|fuel IH]; intros n r t result delays; [done|].
  cbn [attempts]. destruct (fetch n) as [resp|msg]; [|intros [= _ <-]; constructor].
  destruct (_ && (r <? maxRateLimitRetries)%nat).
  { destruct (attempts fuel _ _ _ _ _) as [[res ds]|] eqn:E; [|done]. intros [= _ <-].
    constructor; [by apply rate_limit_bounds|by eapply IH]. }
  destruct (_ && (t <? maxTransientReadRetries)%nat); [|intros [= _ <-]; constructor].
  destruct (attempts fuel _ _ _ _ _) as [[res ds]|] eqn:E; [|done]. intros [= _ <-].
  constructor; [|by eapply IH]. pose proof (backoff_bounds t 5000 (jitter n) ltac:(lia) (Hj n)) as H.
  change ((5000 * 5 + 3) / 4) with 6250 in H. lia.
Qed.

(** The operations of a session; the parser of the body is part of [fetch]. *)
Definition sendText : option ((upstream_error + A) * list Z) := request "POST" "send_text".
Definition getGroup : option ((upstream_error + A) * list Z) := request "GET" "get_group".
Definition getSession : option ((upstream_error + A) * list Z) := request "GET" "get_session".

End Request.

(** A call of the gateway ends after at most 17 requests, with at most 75 seconds
    before each repetition, and only reads are repeated: sending a text, and the read of a
    group whose pacing is the caller's, issue exactly one request and report its outcome. *)
Theorem requests_are_bounded {A : Type} (fetch : nat -> reply A) (clock : nat -> timestamp) (jitter : nat -> Z)
    (method operation : string) (Hj : forall k, 0 <= jitter k < 1000) :
  exists result delays,
    request fetch clock jitter method operation = Some (result, delays) /\
    (length delays <= 16)%nat /\ Forall (fun ms => 188 <= ms <= 75000) delays /\
    (repeatable method operation = false -> delays = [] /\
       result = match fetch 0%nat with
                | Unanswered message => inl (NetworkError message)
                | Answered r => conclude clock operation 0 r
                end).
Proof.
  destruct (attempts_enough fetch clock jitter max_requests method operation 0 0 0) as (result & delays & E & Hl);
    [lia|lia|by vm_compute; lia|].
  exists result, delays. split; [done|]. split; [exact Hl|]. split; [by eapply delays_bounded|].
  intros Hr. unfold max_requests in E. rewrite attempts_once in E by done. by injection E as <- <-.
Qed.

End Delays.

(** *** Paged listings *)

Section Pages.
Context {G : Type} (id : G -> string).
(** What the request for a page answers: at most [pageSize] entries, by its schema *)
Context (page : nat -> upstream_error + list G).

Definition pageSize : nat := 1000.
Definition maxPages : nat := 100.

Definition invalid_listing (operation : string) : upstream_error :=
  InvalidResponse ("OpenWA returned an invalid " ++ operation ++ " response (1 schema issues)")%string.

(** The ids of the page are added one by one; [None]: one was there before. *)
Fixpoint add_ids (p : list G) (ids : list string) : option (list string) :=
  match p with
  | [] => Some ids
  | g :: p' => if mem (id g) ids then None else add_ids p' (ids ++ [id g])
  end.

(** The loop of [listGroups], with [left] pages to go *)
Fixpoint list_from (left pageNumber : nat) (groups : list G) (ids : list string) : upstream_error + list G :=
  match left with
  | O => inl (invalid_listing "list_groups")
  | S left' =>
      match page pageNumber with
      | inl e => inl e
      | inr p =>
          match add_ids p ids with
          | None => inl (invalid_listing "list_groups")
          | Some ids' =>
              if (length p <? pageSize)%nat then inr (groups ++ p)
              else list_from left' (S pageNumber) (groups ++ p) ids'
          end
      end
  end.

Definition listGroups : upstream_error + list G := list_from maxPages 0 [] [].

(** The loop of [listContactPages]: the pages it yields, and how it ends *)
Fixpoint contact_pages_from (left pageNumber : nat) (ids : list string)
    : list (list G) * option upstream_error :=
  match left with
  | O => ([], Some (invalid_listing "list_contacts"))
  | S left' =>
      match page pageNumber with
      | inl e => ([], Some e)
      | inr p =>
          match add_ids p ids with
          | None => ([], Some (invalid_listing "list_contacts"))
          | Some ids' =>
              let yielded := if (0 <? length p)%nat then [p] else [] in
              if (length p <? pageSize)%nat then (yielded, None)
              else let '(pages, failed) := contact_pages_from left' (S pageNumber) ids' in
                   (yielded ++ pages, failed)
          end
      end
  end.

Definition listContactPages : list (list G) * option upstream_error := contact_pages_from maxPages 0 [].

Lemma add_ids_Some p ids ids' : NoDup ids -> add_ids p ids = Some ids' <->
  ids' = ids ++ map id p /\ NoDup (ids ++ map id p).
Proof.
  revert ids. induction p as [|g p IH]; intros ids Hn; cbn.
  - rewrite app_nil_r. split; [by intros [= <-]|by intros [-> _]].
  - destruct (mem (id g) ids) eqn:E.
    + apply mem_true in E. split; [done|]. intros [_ Hd].
      apply NoDup_app in Hd as (_ & Hd & _). by destruct (Hd _ E); left.
    + apply mem_false in E. rewrite IH.
      * by rewrite <- app_assoc.
      * apply NoDup_app. split; [done|]. split; [|apply NoDup_singleton].
        intros x Hx ->%list_elem_of_singleton. done.
Qed.

(** The pages from [n] on: all full but the last *)
Fixpoint pages_from (n : nat) (ps : list (list G)) : Prop :=
  match ps with
  | [] => False
  | p :: ps' => page n = inr p /\
      match ps' with
      | [] => (length p < pageSize)%nat
      | _ => (pageSize <= length p)%nat /\ pages_from (S n) ps'
      end
  end.

Lemma list_from_spec left n groups ids result : NoDup ids ->
  list_from left n groups ids = inr result <->
  exists ps, (length ps <= left)%nat /\ pages_from n ps /\ result = groups ++ concat ps /\
    NoDup (ids ++ map id (concat ps)).
Proof.
  revert n groups ids. induction left as [|left IH]; intros n groups ids Hn; cbn [list_from].
  { split; [done|]. intros ([|p ps] & Hl & Hp & _); [done|cbn in Hl; lia]. }
  destruct (page n) as [e|p] eqn:Ep.
  { split; [done|]. intros ([|p ps] & _ & Hp & _); [done|]. cbn in Hp. destruct Hp. congruence. }
  assert (Hhead : forall p' ps, pages_from n (p' :: ps) -> p' = p) by (intros p' ps [H _]; congruence).
  destruct (add_ids p ids) as [ids'|] eqn:Ea.
  - apply add_ids_Some in Ea as [-> Hd]; [|done].
    destruct (length p <? pageSize)%nat eqn:El.
    + apply Nat.ltb_lt in El. split.
      * intros [= <-]. exists [p]. cbn. rewrite app_nil_r. split; [lia|]. by split_and!.
      * intros ([|p' ps] & _ & Hp & -> & _); [done|]. pose proof (Hhead _ _ Hp) as ->.
        destruct ps as [|q ps]; cbn; [by rewrite app_nil_r|]. cbn [pages_from] in Hp. destruct Hp as (_ & ? & _). lia.
    + apply Nat.ltb_ge in El. rewrite IH by done. split.
      * intros (ps & Hl & Hp & -> & Hd'). exists (p :: ps). cbn [length concat].
        split; [lia|]. split; [cbn; split; [done|]; destruct ps; [done|by split]|].
        rewrite map_app, !app_assoc. by split.
      * intros ([|p' ps] & Hl & Hp & -> & Hd'); [done|]. pose proof (Hhead _ _ Hp) as ->.
        cbn [pages_from length] in Hp, Hl. destruct Hp as [_ Hp]. destruct ps as [|q ps].
        { lia. }
        destruct Hp as [_ Hp].
        exists (q :: ps). cbn [concat] in *. rewrite map_app, !app_assoc in *. cbn [length] in *.
        split; [lia|]. split; [done|]. rewrite map_app in *. rewrite !app_assoc in *. by split.
  - split; [done|]. intros ([|p' ps] & _ & Hp & _ & Hd); [done|]. pose proof (Hhead _ _ Hp) as ->.
    cbn [concat] in Hd. rewrite map_app, app_assoc in Hd. apply NoDup_app in Hd as (Hd & _).
    exfalso. assert (add_ids p ids = Some (ids ++ map id p)) by by apply add_ids_Some. congruence.
Qed.

End Pages.

(** [listGroups] returns a listing exactly when the gateway's pages make one: at most
    100 pages, all full but the last, and no group twice.  The listing is then their
    concatenation in order; whatever else the gateway answers is an error, never a part. *)
Theorem listing_is_whole {G : Type} (id : G -> string) (page : nat -> upstream_error + list G)
    (groups : list G) :
  listGroups id page = inr groups <->
  exists pages, (length pages <= maxPages)%nat /\ pages_from page 0 pages /\
    groups = concat pages /\ NoDup (map id groups).
Proof.
  unfold listGroups. rewrite list_from_spec by constructor. cbn [app].
  split; intros (ps & H1 & H2 & -> & H3); by exists ps.
Qed.

(** *** Witness *)

Definition busy_then_fine (n : nat) : reply string :=
  match n with
  | O => Answered (Response 429 (fun h => if String.eqb h "retry-after" then Some "2" else None) (NotJson ""))
  | _ => Answered (Response 200 (fun _ => None) (Parsed "ok"))
  end.

Example repeated_read :
  request (fun _ => Some (2 # 1)) (fun _ => None) busy_then_fine (fun _ => 0) (fun _ => 0) "GET" "get_session"
  = Some (inr "ok", [2000]).
Proof. by vm_compute. Qed.

Lemma requests_are_bounded_witness : exists result delays,
  request (fun _ => Some (2 # 1)) (fun _ => None) busy_then_fine (fun _ => 0) (fun _ => 0) "POST" "send_text"
    = Some (result, delays) /\ delays = [] /\ result = inl (HttpError 429 (Some 2000)).
Proof.
  destruct (requests_are_bounded (fun _ => Some (2 # 1)) (fun _ => None) busy_then_fine (fun _ => 0) (fun _ => 0)
    "POST" "send_text" ltac:(intros; lia)) as (result & delays & E & _ & _ & H).
  destruct (H eq_refl) as [-> Hr]. exists result, []. split; [done|]. split; [done|]. by rewrite Hr.
Defined.

End OpenWAClient.
