(* ===== verification/ContactSchema.v ===== *)
(** * The durable state of contacts

    The rows and tables of [src/migrations/018]..[026] that [src/src/modules/contacts] reads
    and writes.  Every statement of that module but the queue of resolution runs works on
    one session, so the tables of a session are one record, and a table's key leaves
    [session_id] out.  [created_at] and [updated_at] are kept where a statement reads
    them. *)

From S2P Require Import Prelude Schema.

(** [CONTACT_IDENTITY_TYPES] *)
Module IdentityType.
Inductive t : Set := LID | PHONE_JID | PHONE | OTHER_JID.
#[export] Instance t_eq_dec : EqDecision t.
Proof. solve_decision. Defined.
#[export] Instance t_countable : Countable t.
Proof.
  refine (inj_countable' (fun x => match x with LID => 0 | PHONE_JID => 1 | PHONE => 2 | OTHER_JID => 3 end)
    (fun n => match n with 0 => LID | 1 => PHONE_JID | 2 => PHONE | _ => OTHER_JID end) _). by intros [].
Defined.
Definition text (x : t) : string :=
  match x with LID => "LID" | PHONE_JID => "PHONE_JID" | PHONE => "PHONE" | OTHER_JID => "OTHER_JID" end.
End IdentityType.
Export (hints) IdentityType.

(** [CONTACT_NAME_SOURCES] *)
Module NameSource.
Inductive t : Set := OPENWA_CONTACT_NAME | GROUP_PARTICIPANT_NAME | OPENWA_PUSH_NAME.
#[export] Instance t_eq_dec : EqDecision t.
Proof. solve_decision. Defined.
#[export] Instance t_countable : Countable t.
Proof.
  refine (inj_countable' (fun x => match x with OPENWA_CONTACT_NAME => 0 | GROUP_PARTICIPANT_NAME => 1 | OPENWA_PUSH_NAME => 2 end)
    (fun n => match n with 0 => OPENWA_CONTACT_NAME | 1 => GROUP_PARTICIPANT_NAME | _ => OPENWA_PUSH_NAME end) _). by intros [].
Defined.
Definition text (x : t) : string :=
  match x with
  | OPENWA_CONTACT_NAME => "OPENWA_CONTACT_NAME"
  | GROUP_PARTICIPANT_NAME => "GROUP_PARTICIPANT_NAME"
  | OPENWA_PUSH_NAME => "OPENWA_PUSH_NAME"
  end.
End NameSource.
Export (hints) NameSource.

(** The source of a [contact_link_evidence] row *)
Module LinkSource.
Inductive t : Set := PHONE_JID_DERIVATION | OPENWA_CONTACT_PHONE.
#[export] Instance t_eq_dec : EqDecision t.
Proof. solve_decision. Defined.
#[export] Instance t_countable : Countable t.
Proof.
  refine (inj_countable' (fun x => match x with PHONE_JID_DERIVATION => true | OPENWA_CONTACT_PHONE => false end)
    (fun b => if b : bool then PHONE_JID_DERIVATION else OPENWA_CONTACT_PHONE) _). by intros [].
Defined.
End LinkSource.
Export (hints) LinkSource.

(** The check of [contact_identifiers.mapping_source] *)
Module MappingSource.
Inductive t : Set := GROUP_PARTICIPANT | OPENWA_CONTACT | OPENWA_CONTACT_PHONE | MESSAGE_IDENTITY.
End MappingSource.

(** The state of a snapshot generation *)
Module GenerationState.
Inductive t : Set := RECEIVING | PUBLISHED | FAILED.
#[export] Instance t_eq_dec : EqDecision t.
Proof. solve_decision. Defined.
End GenerationState.
Export (hints) GenerationState.

(** An exact identity: (identity_type, identity_value) *)
Abbreviation identity_key := (IdentityType.t * string)%type.

(** [contacts], keyed by [id] *)
Record contact := Contact {
  ct_effective_display_name : option string;
  ct_display_name_source : option NameSource.t;
  ct_first_observed_at : timestamp;
  ct_last_observed_at : timestamp;
  ct_created_at : timestamp }.
#[export] Instance contact_eta : Eta contact := fun c => Contact
  (ct_effective_display_name c) (ct_display_name_source c) (ct_first_observed_at c)
  (ct_last_observed_at c) (ct_created_at c).

(** [contact_identifiers] *)
Record identifier := Identifier {
  ci_contact_id : uuid;
  ci_mapping_source : MappingSource.t;
  ci_last_observed_at : timestamp }.
#[export] Instance identifier_eta : Eta identifier := fun i => Identifier
  (ci_contact_id i) (ci_mapping_source i) (ci_last_observed_at i).

(** [contact_names], keyed by (contact_id, name_source) *)
Record contact_name := ContactName {
  cn_name_value : string;
  cn_first_observed_at : timestamp;
  cn_last_observed_at : timestamp;
  cn_source_observed_at : timestamp;
  cn_source_observation_key : string }.
#[export] Instance contact_name_eta : Eta contact_name := fun n => ContactName
  (cn_name_value n) (cn_first_observed_at n) (cn_last_observed_at n) (cn_source_observed_at n)
  (cn_source_observation_key n).

(** The check of [group_members.shadow_display_name_source] *)
Inductive shadow_source : Set := Observed (s : NameSource.t) | RESOLVED_ALIAS_PUSH_NAME.
#[export] Instance shadow_source_eq_dec : EqDecision shadow_source.
Proof. solve_decision. Defined.

(** The [shadow_] columns of [group_members] *)
Record shadow := Shadow {
  sw_resolved_phone_number : option string;
  sw_display_name : option string;
  sw_display_name_source : option shadow_source;
  sw_sort_value : option string;
  sw_projection_revision : Z;
  sw_resolution_run_id : option uuid }.
#[export] Instance shadow_eta : Eta shadow := fun s => Shadow
  (sw_resolved_phone_number s) (sw_display_name s) (sw_display_name_source s) (sw_sort_value s)
  (sw_projection_revision s) (sw_resolution_run_id s).
#[export] Instance shadow_eq_dec : EqDecision shadow.
Proof. solve_decision. Defined.

(** Their defaults *)
Definition no_shadow : shadow := Shadow None None None None 0 None.

(** [group_members], keyed by (group_id, participant_id) *)
Record group_member := GroupMember {
  gm_phone_number : string;
  gm_is_admin : bool;
  gm_is_super_admin : bool;
  gm_contact_id : option uuid;
  gm_evidence_identity_id : option uuid;
  gm_identity_type : option IdentityType.t;
  gm_resolved_phone_number : option string;
  gm_participant_display_name : option string;
  gm_display_name : option string;
  gm_display_name_source : option NameSource.t;
  gm_display_name_updated_at : option timestamp;
  gm_shadow : shadow;
  gm_synced_at : timestamp }.
#[export] Instance group_member_eta : Eta group_member := fun m => GroupMember
  (gm_phone_number m) (gm_is_admin m) (gm_is_super_admin m) (gm_contact_id m)
  (gm_evidence_identity_id m) (gm_identity_type m) (gm_resolved_phone_number m)
  (gm_participant_display_name m) (gm_display_name m) (gm_display_name_source m)
  (gm_display_name_updated_at m) (gm_shadow m) (gm_synced_at m).

#[export] Instance group_member_eq_dec : EqDecision group_member.
Proof. solve_decision. Defined.

(** [contact_sync_state] *)
Record contact_sync_state := ContactSyncState {
  cs_sync_generation : Z;
  cs_last_started_at : option timestamp;
  cs_last_completed_at : option timestamp;
  cs_last_successful_record_count : option Z;
  cs_last_error_code : option string;
  cs_attempt_count : Z;
  cs_next_attempt_at : timestamp;
  cs_lease_token : option uuid;
  cs_lease_expires_at : option timestamp }.
#[export] Instance contact_sync_state_eta : Eta contact_sync_state := fun s => ContactSyncState
  (cs_sync_generation s) (cs_last_started_at s) (cs_last_completed_at s)
  (cs_last_successful_record_count s) (cs_last_error_code s) (cs_attempt_count s)
  (cs_next_attempt_at s) (cs_lease_token s) (cs_lease_expires_at s).

(** [contact_snapshot_generations], keyed by [generation] *)
Record snapshot_generation := SnapshotGeneration {
  sg_state : GenerationState.t;
  sg_lease_token : uuid;
  sg_upstream_record_count : option Z;
  sg_staged_identity_count : Z;
  sg_published_at : option timestamp;
  sg_failed_at : option timestamp;
  sg_error_code : option string;
  sg_created_at : timestamp }.
#[export] Instance snapshot_generation_eta : Eta snapshot_generation := fun g => SnapshotGeneration
  (sg_state g) (sg_lease_token g) (sg_upstream_record_count g) (sg_staged_identity_count g)
  (sg_published_at g) (sg_failed_at g) (sg_error_code g) (sg_created_at g).

(** [contact_snapshot_observations], keyed by (generation, identity) *)
Record staged_observation := StagedObservation {
  so_phone : option string;
  so_contact_name : option string;
  so_push_name : option string;
  so_source_observed_at : timestamp;
  so_source_observation_key : string }.

(** [observed_contact_identities], keyed by the identity *)
Record observed_identity := ObservedIdentity {
  oc_id : uuid;
  oc_first_observed_at : timestamp;
  oc_last_observed_at : timestamp }.
#[export] Instance observed_identity_eta : Eta observed_identity := fun o => ObservedIdentity
  (oc_id o) (oc_first_observed_at o) (oc_last_observed_at o).

(** [contact_observations], keyed by (observation_source, source_observation_key); the
    membership is the (group_id, participant_id) of a MEMBERSHIP observation. *)
Record name_observation := NameObservation {
  no_id : uuid;
  no_identity_id : uuid;
  no_membership : option (string * string);
  no_name_value : string;
  no_source_generation : option Z;
  no_source_observed_at : timestamp;
  no_created_at : timestamp }.

(** [contact_link_evidence], keyed by (evidence_source, source_observation_key) *)
Record link_evidence := LinkEvidence {
  ln_left_identity_id : uuid;
  ln_right_identity_id : uuid;
  ln_source_generation : option Z;
  ln_source_observed_at : timestamp;
  ln_created_at : timestamp }.

(** The status of a resolution run *)
Module ResolutionStatus.
Inductive t : Set := PENDING | RUNNING | RETRY | COMPLETED | FAILED.
#[export] Instance t_eq_dec : EqDecision t.
Proof. solve_decision. Defined.
End ResolutionStatus.
Export (hints) ResolutionStatus.

(** [contact_resolution_runs], keyed by [id]; [algorithm_version] is 1 throughout. *)
Record resolution_run := ResolutionRun {
  rn_source_generation : Z;
  rn_evidence_cutoff_at : timestamp;
  rn_status : ResolutionStatus.t;
  rn_attempt_count : Z;
  rn_next_attempt_at : timestamp;
  rn_lease_token : option uuid;
  rn_lease_expires_at : option timestamp;
  (** identities, clusters, linked and conflicting identities *)
  rn_counts : option (Z * Z * Z * Z);
  (** contacts and linked members of the same session *)
  rn_legacy_counts : option (Z * Z);
  rn_started_at : option timestamp;
  rn_completed_at : option timestamp;
  rn_failed_at : option timestamp;
  rn_error_code : option string;
  rn_created_at : timestamp }.
#[export] Instance resolution_run_eta : Eta resolution_run := fun r => ResolutionRun
  (rn_source_generation r) (rn_evidence_cutoff_at r) (rn_status r) (rn_attempt_count r)
  (rn_next_attempt_at r) (rn_lease_token r) (rn_lease_expires_at r) (rn_counts r) (rn_legacy_counts r)
  (rn_started_at r) (rn_completed_at r) (rn_failed_at r) (rn_error_code r) (rn_created_at r).

(** [resolved_contact_clusters], keyed by (run_id, cluster_id) *)
Record resolved_cluster := ResolvedCluster {
  rc_resolved_phone_number : option string;
  (** [contact_name_observation_id] and [contact_display_name] *)
  rc_name : option (uuid * string);
  rc_identity_count : Z }.
#[export] Instance resolved_cluster_eta : Eta resolved_cluster := fun c => ResolvedCluster
  (rc_resolved_phone_number c) (rc_name c) (rc_identity_count c).

(** [resolved_identity_assignments], keyed by (run_id, identity_id) *)
Record identity_assignment := IdentityAssignment {
  ia_cluster_id : uuid;
  (** [resolution_status]: QUARANTINED or RESOLVED *)
  ia_quarantined : bool;
  ia_resolved_phone_number : option string }.
#[export] Instance identity_assignment_eq_dec : EqDecision identity_assignment.
Proof. solve_decision. Defined.

(** The check of [contact_resolution_conflicts.conflict_code] *)
Module ConflictCode.
Inductive t : Set := MULTIPLE_PHONE_TARGETS | PHONE_SHARED_BY_MULTIPLE_NON_PHONE_IDENTITIES.
#[export] Instance t_eq_dec : EqDecision t.
Proof. solve_decision. Defined.
#[export] Instance t_countable : Countable t.
Proof.
  refine (inj_countable' (fun x => match x with MULTIPLE_PHONE_TARGETS => true | _ => false end)
    (fun b => if b : bool then MULTIPLE_PHONE_TARGETS else PHONE_SHARED_BY_MULTIPLE_NON_PHONE_IDENTITIES) _).
  by intros [].
Defined.
End ConflictCode.
Export (hints) ConflictCode.

(** The status of projection work *)
Module WorkStatus.
Inductive t : Set := IDLE | PENDING | RUNNING | RETRY | FAILED.
#[export] Instance t_eq_dec : EqDecision t.
Proof. solve_decision. Defined.
End WorkStatus.
Export (hints) WorkStatus.

(** [contact_projection_work], keyed by [identity_id]; [pw_active] holds [active_revision]
    and [active_cutoff_at], which are NULL together, [pw_cursor] the group and participant
    of the cursor. *)
Record projection_work := ProjectionWork {
  pw_status : WorkStatus.t;
  pw_requested_revision : Z;
  pw_completed_revision : Z;
  pw_requested_cutoff_at : timestamp;
  pw_first_requested_at : timestamp;
  pw_last_requested_at : timestamp;
  pw_active : option (Z * timestamp);
  pw_active_resolution_run_id : option uuid;
  pw_cursor : option (string * string);
  pw_attempt_count : Z;
  pw_next_attempt_at : timestamp;
  pw_lease_token : option uuid;
  pw_lease_expires_at : option timestamp;
  pw_completed_at : option timestamp;
  pw_failed_at : option timestamp;
  pw_error_code : option string }.
#[export] Instance projection_work_eta : Eta projection_work := fun w => ProjectionWork
  (pw_status w) (pw_requested_revision w) (pw_completed_revision w) (pw_requested_cutoff_at w)
  (pw_first_requested_at w) (pw_last_requested_at w) (pw_active w) (pw_active_resolution_run_id w)
  (pw_cursor w) (pw_attempt_count w) (pw_next_attempt_at w) (pw_lease_token w) (pw_lease_expires_at w)
  (pw_completed_at w) (pw_failed_at w) (pw_error_code w).

(** The tables of one session *)
Record contact_tables := ContactTables {
  contacts : gmap uuid contact;
  contact_identifiers : gmap identity_key identifier;
  contact_names : gmap (uuid * NameSource.t) contact_name;
  (** (sync_generation, identity) to [phone] *)
  contact_identity_evidence : gmap (Z * identity_key) string;
  group_members : gmap (string * string) group_member;
  sync_state : option contact_sync_state;
  snapshot_generations : gmap Z snapshot_generation;
  snapshot_observations : gmap (Z * identity_key) staged_observation;
  observed_identities : gmap identity_key observed_identity;
  contact_observations : gmap (NameSource.t * string) name_observation;
  contact_link_evidence : gmap (LinkSource.t * string) link_evidence;
  resolution_runs : gmap uuid resolution_run;
  resolved_clusters : gmap (uuid * uuid) resolved_cluster;
  resolved_assignments : gmap (uuid * uuid) identity_assignment;
  (** (run_id, identity_id, conflict_code) *)
  resolution_conflicts : gset (uuid * uuid * ConflictCode.t);
  contact_projection_work : gmap uuid projection_work }.
#[export] Instance contact_tables_eta : Eta contact_tables := fun d => ContactTables
  (contacts d) (contact_identifiers d) (contact_names d) (contact_identity_evidence d)
  (group_members d) (sync_state d) (snapshot_generations d) (snapshot_observations d)
  (observed_identities d) (contact_observations d) (contact_link_evidence d)
  (resolution_runs d) (resolved_clusters d) (resolved_assignments d) (resolution_conflicts d)
  (contact_projection_work d).

Definition empty_contacts : contact_tables := ContactTables ∅ ∅ ∅ ∅ ∅ None ∅ ∅ ∅ ∅ ∅ ∅ ∅ ∅ ∅ ∅.

(** The options [contacts.module.ts] builds the repositories with *)
Record contact_config := ContactConfig {
  CONTACT_SNAPSHOT_STAGING_ENABLED : bool;
  CONTACT_SNAPSHOT_RETENTION_DAYS : Z;
  CONTACT_EVIDENCE_DUAL_WRITE_ENABLED : bool;
  CONTACT_LEGACY_MEMBER_FANOUT_ENABLED : bool;
  CONTACT_PROJECTION_SHADOW_ENABLED : bool }.
