(* ===== verification/ContactQueue.v ===== *)
(** * The queue of projections

    [enqueueContactProjectionWork] of [src/src/modules/contacts/contact-projection.enqueue.ts],
    which the writers of evidence, the resolution and the projection call in their own
    transactions: work is kept under the identity that stands for its cluster in the latest
    resolution, and the work of other identities of the cluster is retired. *)

From S2P Require Import Prelude Schema ContactSchema.

Module Queue.

Local Open Scope Z_scope.

(** ORDER BY completed_at DESC, id DESC: DESC puts NULL first. *)
Definition completed_order (a b : uuid * resolution_run) : bool :=
  match rn_completed_at a.2, rn_completed_at b.2 with
  | None, Some _ => true
  | Some _, None => false
  | Some x, Some y => (y <? x) || ((y =? x) && (b.1 <=? a.1)%positive)
  | None, None => (b.1 <=? a.1)%positive
  end.

Definition latest_run (d : contact_tables) : option (uuid * resolution_run) :=
  head (order_by completed_order
    (select_where (fun _ r => bool_decide (rn_status r = ResolutionStatus.COMPLETED)) (resolution_runs d))).

(** JOIN observed_contact_identities ON id *)
Definition identity_by_id (d : contact_tables) (id : uuid) : option identity_key :=
  fst <$> find_where (fun _ o => bool_decide (oc_id o = id)) (observed_identities d).

(** [projection_identity_id] of a requested identity *)
Definition stands_for (d : contact_tables) (id : uuid) : uuid :=
  match latest_run d with
  | Some (run, _) => match resolved_assignments d !! (run, id) with
                     | Some ia => if ia_quarantined ia then id else ia_cluster_id ia
                     | None => id
                     end
  | None => id
  end.

(** [now()] of the transaction a request is made in, [statement_timestamp()] of the request, and
    what the sequence [contact_projection_revision_seq] gives for the row of each identity *)
Record request := Request { rq_now : timestamp; rq_at : timestamp; rq_revision : uuid -> Z }.

(** Work that has been started goes on; the new request comes after it. *)
Definition started (w : projection_work) : bool :=
  match pw_status w with
  | WorkStatus.RUNNING | WorkStatus.RETRY => negb (is_null (pw_active w))
  | _ => false
  end.

(** [next_attempt_at] is the default of the table. *)
Definition new_work (rq : request) (id : uuid) : projection_work :=
  ProjectionWork WorkStatus.PENDING (rq_revision rq id) 0 (rq_at rq) (rq_at rq) (rq_at rq) None None None 0 (rq_now rq)
    None None None None None.

Definition requested_again (rq : request) (id : uuid) (w : projection_work) : projection_work :=
  let w1 := w <| pw_requested_revision := rq_revision rq id |> <| pw_requested_cutoff_at := rq_at rq |>
              <| pw_first_requested_at := match pw_status w with
                                          | WorkStatus.IDLE | WorkStatus.FAILED => rq_at rq
                                          | _ => pw_first_requested_at w
                                          end |>
              <| pw_last_requested_at := rq_at rq |> <| pw_next_attempt_at := rq_at rq |>
              <| pw_failed_at := None |> <| pw_error_code := None |> in
  if started w then w1
  else w1 <| pw_status := WorkStatus.PENDING |> <| pw_active := None |> <| pw_active_resolution_run_id := None |>
          <| pw_cursor := None |> <| pw_attempt_count := 0 |>.

(** INSERT INTO contact_projection_work .. ON CONFLICT DO UPDATE *)
Definition request_work (rq : request) (t : gmap uuid projection_work) (id : uuid) : gmap uuid projection_work :=
  match t !! id with
  | None => <[id := new_work rq id]> t
  | Some w => <[id := requested_again rq id w]> t
  end.

Definition retirable (w : projection_work) : bool :=
  match pw_status w with
  | WorkStatus.PENDING | WorkStatus.RETRY | WorkStatus.FAILED => true
  | _ => false
  end.

Definition retired (w : projection_work) : projection_work :=
  w <| pw_status := WorkStatus.IDLE |> <| pw_active := None |> <| pw_active_resolution_run_id := None |>
    <| pw_cursor := None |> <| pw_lease_token := None |> <| pw_lease_expires_at := None |>
    <| pw_failed_at := None |> <| pw_error_code := None |>.

(** The requested identities that are there *)
Definition known (ids : list uuid) (d : contact_tables) : list uuid :=
  remove_dups (List.filter (fun id => negb (is_null (identity_by_id d id))) ids).

Definition canonical (ids : list uuid) (d : contact_tables) : list uuid := remove_dups (map (stands_for d) (known ids d)).

(** Both parts of the statement see the rows as they were, and a row is written once. *)
Definition enqueueContactProjectionWork (rq : request) (ids : list uuid) (d : contact_tables) : Z * contact_tables :=
  if bool_decide (ids = []) then (0, d)
  else
    let rows := canonical ids d in
    (Z.of_nat (length rows),
     d <| contact_projection_work :=
       update_where (fun id w => mem id (known ids d) && negb (bool_decide (stands_for d id = id)) && negb (mem id rows) && retirable w)
         retired (foldl (request_work rq) (contact_projection_work d) rows) |>).

(** Nothing but the queue is touched. *)
Lemma enqueue_only rq ids d :
  (enqueueContactProjectionWork rq ids d).2 = d <| contact_projection_work := contact_projection_work (enqueueContactProjectionWork rq ids d).2 |>.
Proof. unfold enqueueContactProjectionWork. case_bool_decide; [by destruct d|done]. Qed.

Lemma requests_lookup rq rows t id : NoDup rows ->
  foldl (request_work rq) t rows !! id =
    if mem id rows then Some (match t !! id with None => new_work rq id | Some w => requested_again rq id w end) else t !! id.
Proof.
  revert t. induction rows as [|x rows IH]; intros t; [done|]. cbn [foldl]. intros [Hx Hn]%NoDup_cons. rewrite IH by done.
  assert (Hr : request_work rq t x !! id = if bool_decide (x = id)
    then Some (match t !! id with None => new_work rq id | Some w => requested_again rq id w end) else t !! id).
  { unfold request_work. case_bool_decide as E; [subst x|].
    - destruct (t !! id); by rewrite lookup_insert_eq.
    - destruct (t !! x); by rewrite lookup_insert_ne. }
  rewrite Hr. destruct (mem id rows) eqn:E; cbn.
  - apply mem_true in E. rewrite (proj2 (mem_true id (x :: rows))) by by right. rewrite bool_decide_false; [done|]. by intros ->.
  - case_bool_decide as Ex.
    + rewrite (proj2 (mem_true id (x :: rows))); [done|]. subst. left.
    + rewrite (proj2 (mem_false id (x :: rows))); [done|]. apply mem_false in E. rewrite elem_of_cons. by intros [?|?].
Qed.

(** What a request leaves on the row of an identity that stands for itself *)
Lemma enqueued_row rq ids d id : id ∈ canonical ids d -> exists w,
  contact_projection_work (enqueueContactProjectionWork rq ids d).2 !! id = Some w /\
  w = match contact_projection_work d !! id with None => new_work rq id | Some w0 => requested_again rq id w0 end.
Proof.
  intros Hin. assert (Hne : ids <> []) by (intros ->; by apply not_elem_of_nil in Hin). eexists. split; [|done].
  unfold enqueueContactProjectionWork. rewrite bool_decide_false by done. cbn.
  rewrite lookup_update_where, requests_lookup by apply NoDup_remove_dups.
  rewrite (proj2 (mem_true id (canonical ids d)) Hin). cbn. by rewrite andb_false_r.
Qed.

(** Nor does a request look at the members. *)
Lemma enqueue_members_apart rq ids t d :
  (enqueueContactProjectionWork rq ids (d <| group_members := t |>)).2 =
  (enqueueContactProjectionWork rq ids d).2 <| group_members := t |>.
Proof. unfold enqueueContactProjectionWork. by case_bool_decide. Qed.

End Queue.
