(* ===== verification/ContactIdentity.v ===== *)
(** * Contact identities and names

    [src/src/modules/contacts/contact-normalization.ts] (Module [Normalization]) and
    [contact-name-resolution.sql.ts] (Module [NameResolution]): which identity a WhatsApp id
    names, which names are worth keeping, and which of the kept names is shown.

    [nfc] is [String.prototype.normalize('NFC')]; it is an argument. *)

From S2P Require Import Prelude Schema ContactSchema.
From Stdlib Require Import Ascii.

Module Normalization.

Local Open Scope string_scope.

(** [NormalizedContactIdentity] *)
Record identity := Identity {
  nid_type : IdentityType.t;
  nid_value : string;
  nid_phone : option string }.

Definition key (i : identity) : identity_key := (nid_type i, nid_value i).

(** [\d] *)
Definition is_digit (c : Ascii.ascii) : bool :=
  let n := Ascii.nat_of_ascii c in ((48 <=? n) && (n <=? 57))%nat.

(** [\p{Cc}] *)
Definition is_control (c : Ascii.ascii) : bool :=
  let n := Ascii.nat_of_ascii c in ((n <=? 31) || ((127 <=? n) && (n <=? 159)))%nat.

Fixpoint all_chars (p : Ascii.ascii -> bool) (s : string) : bool :=
  match s with EmptyString => true | String c s' => p c && all_chars p s' end.

(** [/^\d+$/u] *)
Definition digits (s : string) : bool := truthy s && all_chars is_digit s.

Fixpoint drop_digits (s : string) : string :=
  match s with String c s' => if is_digit c then drop_digits s' else s | EmptyString => EmptyString end.

(** What follows the [\d+(?=@)] at the front of the text *)
Definition after_device (s : string) : option string :=
  match s with
  | String c s' => if is_digit c
                   then match drop_digits s' with
                        | String "@"%char r => Some (String "@"%char r)
                        | _ => None
                        end
                   else None
  | EmptyString => None
  end.

(** [identity.replace(/:\d+(?=@)/u, '')]: the first match goes. *)
Fixpoint strip_device (s : string) : string :=
  match s with
  | EmptyString => EmptyString
  | String c s' =>
      match (if Ascii.eqb c ":"%char then after_device s' else None) with
      | Some rest => rest
      | None => String c (strip_device s')
      end
  end.

(** The text before a final [suffix] *)
Fixpoint chop (suffix s : string) : option string :=
  if bool_decide (s = suffix) then Some EmptyString
  else match s with String c s' => String c <$> chop suffix s' | EmptyString => None end.

(** [identity.replace(/@(?:c\.us|s\.whatsapp\.net)$/u, '')], if that matches *)
Definition strip_phone_suffix (s : string) : option string :=
  match chop "@c.us" s with Some p => Some p | None => chop "@s.whatsapp.net" s end.

Definition normalizeContactIdentity (rawIdentity : string) : identity :=
  let identity := strip_device (trim rawIdentity) in
  if ends_with "@lid" identity then Identity IdentityType.LID identity None
  else match strip_phone_suffix identity with
       | Some phone => if digits phone
                       then Identity IdentityType.PHONE_JID (phone ++ "@c.us") (Some phone)
                       else Identity IdentityType.OTHER_JID identity None
       | None => Identity IdentityType.OTHER_JID identity None
       end.

Definition maxContactNameCodePoints : nat := 256.

Section Names.
Context (nfc : string -> string).

Definition normalizeContactName (rawName : option string) (i : identity) : option string :=
  match (fun n => nfc (trim n)) <$> rawName with
  | None => None
  | Some name =>
      if negb (truthy name)
         || (maxContactNameCodePoints <? String.length name)%nat
         || negb (all_chars (fun c => negb (is_control c)) name)
         || bool_decide (name = nid_value i)
         || bool_decide (nid_phone i = Some name)
         || bool_decide (nid_value (normalizeContactIdentity name) = nid_value i)
      then None else Some name
  end.

End Names.

(** *** Texts *)

Lemma cons_app c (s t : string) : String c s ++ t = String c (s ++ t).
Proof. done. Qed.

Lemma all_chars_app p s t : all_chars p (s ++ t) = all_chars p s && all_chars p t.
Proof. induction s as [|c s IH]; [done|]. rewrite cons_app. cbn. by rewrite IH, andb_assoc. Qed.

Lemma chop_app suffix s : chop suffix (s ++ suffix) = Some s.
Proof.
  assert (Hlen : forall t, String.length (t ++ suffix) = String.length t + String.length suffix)
    by (induction t as [|x t IHt]; [reflexivity|rewrite cons_app; cbn [String.length]; rewrite IHt; reflexivity]).
  induction s as [|c s IH].
  - change ("" ++ suffix) with suffix. destruct suffix; cbn [chop]; by rewrite bool_decide_true.
  - rewrite cons_app. cbn [chop]. rewrite bool_decide_false; [by rewrite IH|].
    intros H. apply (f_equal String.length) in H. cbn [String.length] in H. rewrite Hlen in H. lia.
Qed.

Lemma chop_Some suffix s p : chop suffix s = Some p -> s = p ++ suffix.
Proof.
  revert p. induction s as [|c s IH]; intros p; cbn [chop]; case_bool_decide as E.
  - intros [= <-]. rewrite <- E. reflexivity.
  - done.
  - intros [= <-]. rewrite <- E. reflexivity.
  - destruct (chop suffix s) as [q|]; [|done]. intros [= <-]. rewrite cons_app. by rewrite (IH q).
Qed.

Lemma ends_with_app suffix s : ends_with suffix (s ++ suffix) = true.
Proof.
  induction s as [|c s IH].
  - change ("" ++ suffix) with suffix. destruct suffix; cbn [ends_with]; by rewrite bool_decide_true.
  - rewrite cons_app. cbn [ends_with]. rewrite IH. by rewrite orb_true_r.
Qed.

Lemma ends_with_inv suffix s : ends_with suffix s = true -> exists p, s = p ++ suffix.
Proof.
  induction s as [|c s IH]; cbn [ends_with]; case_bool_decide as E; cbn [orb].
  - intros _. by exists "".
  - done.
  - intros _. by exists "".
  - intros (p & ->)%IH. by exists (String c p).
Qed.

Lemma trim_spaced s : trim_start s = s -> trim_end s = s -> trim s = s.
Proof. intros H1 H2. unfold trim. by rewrite H1, H2. Qed.

(** The text has no colon. *)
Definition plain (s : string) : bool := all_chars (fun c => negb (Ascii.eqb c ":"%char)) s.

Lemma strip_device_plain s : plain s = true -> strip_device s = s.
Proof.
  induction s as [|c s IH]; cbn; [done|]. intros [Hc Hs]%andb_true_iff.
  apply negb_true_iff in Hc. rewrite Hc. by rewrite IH.
Qed.

Lemma drop_digits_all s t : all_chars is_digit s = true -> drop_digits (s ++ String "@"%char t) = String "@"%char t.
Proof. induction s as [|c s IH]; [done|]. rewrite cons_app. cbn. by intros [-> Hs]%andb_true_iff; apply IH. Qed.

Lemma strip_device_found s device t : plain s = true -> digits device = true ->
  strip_device (s ++ ":" ++ device ++ String "@"%char t) = s ++ String "@"%char t.
Proof.
  intros Hs Hd. induction s as [|c s IH].
  - destruct device as [|d device]; [done|]. unfold digits in Hd. cbn in Hd.
    apply andb_true_iff in Hd as [Hd1 Hd2]. 
    change (strip_device (String ":"%char (String d (device ++ String "@"%char t))) = String "@"%char t).
    cbn [strip_device Ascii.eqb]. cbn [Bool.eqb]. unfold after_device. rewrite Hd1. by rewrite drop_digits_all.
  - cbn in Hs. apply andb_true_iff in Hs as [Hc Hs]. apply negb_true_iff in Hc.
    rewrite (cons_app c), (cons_app c). cbn [strip_device]. rewrite Hc. by rewrite IH.
Qed.

Lemma all_chars_impl (p q : Ascii.ascii -> bool) s : (forall c, p c = true -> q c = true) ->
  all_chars p s = true -> all_chars q s = true.
Proof.
  intros H. induction s as [|c s IH]; cbn; [done|]. intros [H1 H2]%andb_true_iff.
  by rewrite (H c H1), IH.
Qed.

Lemma digits_plain s : digits s = true -> plain s = true.
Proof.
  intros [_ H]%andb_true_iff. revert H. apply all_chars_impl. intros c Hc.
  apply negb_true_iff, Ascii.eqb_neq. by intros ->.
Qed.

(** *** What a normalised identity is *)

Fixpoint last_char (s : string) : option Ascii.ascii :=
  match s with
  | EmptyString => None
  | String c s' => match last_char s' with Some d => Some d | None => Some c end
  end.

Lemma last_char_app p t : truthy t = true -> last_char (p ++ t) = last_char t.
Proof.
  intros Ht. induction p as [|c p IH]; [done|]. rewrite cons_app. cbn [last_char]. rewrite IH.
  destruct t as [|d t]; [done|]. cbn. by destruct (last_char t).
Qed.

Lemma trim_end_last s c : last_char s = Some c -> is_space c = false -> trim_end s = s.
Proof.
  revert c. induction s as [|d s IH]; intros c; [done|]. cbn [last_char trim_end].
  destruct (last_char s) as [l|] eqn:E.
  - intros [= ->] Hc. rewrite (IH c) by done. by destruct s.
  - intros [= ->] Hc. destruct s; [by rewrite Hc|]. cbn in E. by destruct (last_char s).
Qed.

Lemma digits_cons s : digits s = true -> exists c s', s = String c s' /\ is_digit c = true.
Proof.
  destruct s as [|c s]; [done|]. intros [_ H]%andb_true_iff. cbn in H.
  apply andb_true_iff in H as [H _]. by exists c, s.
Qed.

Lemma digit_not_space c : is_digit c = true -> is_space c = false.
Proof.
  unfold is_digit, is_space. intros [H1%Nat.leb_le H2%Nat.leb_le]%andb_true_iff.
  repeat match goal with |- context [Nat.leb ?a ?b] => destruct (Nat.leb_spec a b) end;
    repeat match goal with |- context [Nat.eqb ?a ?b] => destruct (Nat.eqb_spec a b) end; cbn; lia || done.
Qed.

(** A phone JID in one of its dialects *)
Definition dialects : list string := ["@c.us"; "@s.whatsapp.net"].

Lemma phone_jid_trimmed phone tail : digits phone = true ->
  (exists c, last_char tail = Some c /\ is_space c = false) -> trim (phone ++ tail) = phone ++ tail.
Proof.
  intros Hp (l & Hl & Hs). destruct (digits_cons _ Hp) as (c & s & -> & Hc). apply trim_spaced.
  - rewrite cons_app. cbn [trim_start]. by rewrite digit_not_space.
  - apply (trim_end_last _ l); [|done]. rewrite last_char_app; [done|]. by destruct tail.
Qed.

Lemma strip_phone_suffix_dialect phone suffix : suffix ∈ dialects ->
  strip_phone_suffix (phone ++ suffix) = Some phone.
Proof.
  intros [->|[->|[]%not_elem_of_nil]%elem_of_cons]%elem_of_cons; unfold strip_phone_suffix.
  - by rewrite chop_app.
  - destruct (chop "@c.us" (phone ++ "@s.whatsapp.net")) as [q|] eqn:E; [|by rewrite chop_app].
    apply chop_Some, (f_equal last_char) in E. by rewrite !last_char_app in E.
Qed.

Lemma not_lid phone suffix : suffix ∈ dialects -> ends_with "@lid" (phone ++ suffix) = false.
Proof.
  intros Hs. apply not_true_iff_false. intros (p & E)%ends_with_inv.
  apply (f_equal last_char) in E. rewrite !last_char_app in E; try done;
  revert Hs; by intros [->|[->|[]%not_elem_of_nil]%elem_of_cons]%elem_of_cons.
Qed.

(** The device of a JID *)
Definition device_part (d : string) : Prop := d = "" \/ exists n, digits n = true /\ d = ":" ++ n.

Lemma strip_device_jid phone device suffix : digits phone = true -> device_part device ->
  suffix ∈ dialects -> strip_device (phone ++ device ++ suffix) = phone ++ suffix.
Proof.
  intros Hp Hd Hs. assert (exists t, suffix = String "@"%char t /\ plain suffix = true) as (t & -> & Ht).
  { revert Hs. intros [->|[->|[]%not_elem_of_nil]%elem_of_cons]%elem_of_cons; by eexists. }
  destruct Hd as [->|(n & Hn & ->)].
  - apply strip_device_plain. unfold plain. rewrite all_chars_app. apply andb_true_iff.
    split; [by apply digits_plain|done].
  - apply strip_device_found; [by apply digits_plain|done].
Qed.

Lemma normalize_jid raw phone device suffix : digits phone = true -> device_part device ->
  suffix ∈ dialects -> trim raw = phone ++ device ++ suffix ->
  normalizeContactIdentity raw = Identity IdentityType.PHONE_JID (phone ++ "@c.us") (Some phone).
Proof.
  intros Hp Hd Hs Hr. unfold normalizeContactIdentity. rewrite Hr, strip_device_jid by done.
  by rewrite not_lid, strip_phone_suffix_dialect, Hp by done.
Qed.

Lemma phone_value_normal phone : digits phone = true ->
  normalizeContactIdentity (phone ++ "@c.us") = Identity IdentityType.PHONE_JID (phone ++ "@c.us") (Some phone).
Proof.
  intros Hp. apply (normalize_jid _ phone "" "@c.us"); [done|by left|left|].
  apply phone_jid_trimmed; [done|]. by eexists.
Qed.

(** What the three kinds of identities look like *)
Definition well_formed (i : identity) : Prop :=
  match nid_type i with
  | IdentityType.LID => ends_with "@lid" (nid_value i) = true /\ nid_phone i = None
  | IdentityType.PHONE_JID =>
      exists phone, digits phone = true /\ nid_value i = phone ++ "@c.us" /\ nid_phone i = Some phone
  | IdentityType.OTHER_JID =>
      nid_phone i = None /\ ends_with "@lid" (nid_value i) = false /\
      forall phone suffix, suffix ∈ dialects -> digits phone = true -> nid_value i <> phone ++ suffix
  | IdentityType.PHONE => False
  end.

Lemma normalize_well_formed raw : well_formed (normalizeContactIdentity raw).
Proof.
  unfold normalizeContactIdentity, well_formed. set (s := strip_device (trim raw)).
  destruct (ends_with "@lid" s) eqn:El; [done|].
  destruct (strip_phone_suffix s) as [phone|] eqn:Ep; [destruct (digits phone) eqn:Ed|]; cbn.
  - by exists phone.
  - split_and!; [done..|]. intros p suffix Hs Hp Hv. rewrite Hv, strip_phone_suffix_dialect in Ep by done.
    by injection Ep as ->; congruence.
  - split_and!; [done..|]. intros p suffix Hs Hp Hv. by rewrite Hv, strip_phone_suffix_dialect in Ep.
Qed.

(** The value of an identity says its kind, so one text is never two identities. *)
Lemma value_determines_identity i j : well_formed i -> well_formed j -> nid_value i = nid_value j -> i = j.
Proof.
  destruct i as [ti vi pi], j as [tj vj pj]. unfold well_formed. cbn. intros Hi Hj <-.
  destruct ti, tj; try done; cbn in *;
    repeat match goal with
    | H : _ /\ _ |- _ => destruct H
    | H : exists _, _ |- _ => destruct H
    end; subst; try congruence;
    try (by (rewrite not_lid in *; [done|left]));
    try (exfalso; match goal with H : forall phone suffix, _ |- _ => by eapply (H _ "@c.us"); [left|..] end).
  match goal with H : _ ++ _ = _ ++ _ |- _ => apply (f_equal (chop "@c.us")) in H; rewrite !chop_app in H end.
  by simplify_eq.
Qed.

(** C38: every id of a phone, whatever its device, its dialect and the spaces around it, is
    one identity, and an identity tells its phone: two ids are the same phone identity
    exactly when they have the same phone.  Normalising an identity again changes nothing
    for a phone, and a LID or another id never has a phone. *)
Theorem phones_have_one_identity (raw phone device suffix : string)
    (Hp : digits phone = true) (Hd : device_part device) (Hs : suffix ∈ dialects)
    (Hr : trim raw = phone ++ device ++ suffix) :
  let i := normalizeContactIdentity raw in
  nid_type i = IdentityType.PHONE_JID /\ nid_phone i = Some phone /\
  normalizeContactIdentity (nid_value i) = i /\
  forall raw', let j := normalizeContactIdentity raw' in
    (nid_phone j = Some phone <-> j = i) /\ (nid_type j = IdentityType.PHONE_JID <-> nid_phone j <> None).
Proof.
  cbn zeta. rewrite (normalize_jid raw phone device suffix) by done. cbn [nid_type nid_phone nid_value].
  split_and!; [done|done|by apply phone_value_normal|]. intros raw'.
  pose proof (normalize_well_formed raw') as H. destruct (normalizeContactIdentity raw') as [t v p].
  unfold well_formed in H. cbn in *. destruct t; cbn in *.
  - destruct H as [_ ->]. by split_and!.
  - destruct H as (q & Hq & -> & ->). split; [split; [by intros [= ->]|by intros [= _ ->]]|by split].
  - done.
  - destruct H as (-> & _). by split_and!.
Qed.

(** *** Names *)

Section Names.
Context (nfc : string -> string).

(** A name that is kept fits the columns it is written to, and is not the id itself. *)
Lemma kept_names_are_storable raw i name : normalizeContactName nfc raw i = Some name ->
  truthy name = true /\ (String.length name <= 256)%nat /\
  all_chars (fun c => negb (is_control c)) name = true /\
  name <> nid_value i /\ nid_phone i <> Some name /\
  nid_value (normalizeContactIdentity name) <> nid_value i.
Proof.
  unfold normalizeContactName. destruct raw as [r|]; [|done]. cbn [fmap option_fmap option_map].
  set (n := nfc (trim r)). destruct (_ || _) eqn:E; [done|]. intros [= <-].
  repeat match goal with H : _ || _ = false |- _ => apply orb_false_iff in H as [? ?] end.
  repeat match goal with
  | H : negb _ = false |- _ => apply negb_false_iff in H
  | H : bool_decide _ = false |- _ => apply bool_decide_eq_false in H
  | H : Nat.ltb _ _ = false |- _ => apply Nat.ltb_ge in H
  end. by split_and!.
Qed.

End Names.

(** *** Witness *)

Lemma phones_have_one_identity_witness :
  nid_phone (normalizeContactIdentity " 628111:3@s.whatsapp.net ") = Some "628111" /\
  normalizeContactIdentity "628111@c.us" = normalizeContactIdentity " 628111:3@s.whatsapp.net ".
Proof.
  destruct (phones_have_one_identity " 628111:3@s.whatsapp.net " "628111" ":3" "@s.whatsapp.net") as (_ & H1 & _ & H2).
  - done.
  - right. by exists "3".
  - right. left.
  - done.
  - split; [exact H1|]. apply (H2 "628111@c.us"). by vm_compute.
Defined.

Example lid_has_no_phone : normalizeContactIdentity " 12345:7@lid " = Identity IdentityType.LID "12345@lid" None.
Proof. by vm_compute. Qed.

Example device_name_is_no_name :
  normalizeContactName (fun s => s) (Some "628111:9@s.whatsapp.net") (normalizeContactIdentity "628111@c.us") = None.
Proof. by vm_compute. Qed.

End Normalization.

(** [contactNameProjectionSql] and [memberNameProjectionSql]: the name and its source *)
Module NameResolution.

Definition contactNameProjection (contactName pushName : option string) : option string * option NameSource.t :=
  (coalesce contactName pushName,
   match contactName, pushName with
   | Some _, _ => Some NameSource.OPENWA_CONTACT_NAME
   | None, Some _ => Some NameSource.OPENWA_PUSH_NAME
   | None, None => None
   end).

Definition memberNameProjection (contactName : option string) (contactSource : option NameSource.t)
    (participantName : option string) : option string * option NameSource.t :=
  match contactSource with
  | Some NameSource.OPENWA_CONTACT_NAME => (contactName, Some NameSource.OPENWA_CONTACT_NAME)
  | _ =>
      match participantName with
      | Some _ => (participantName, Some NameSource.GROUP_PARTICIPANT_NAME)
      | None =>
          match contactSource with
          | Some NameSource.OPENWA_PUSH_NAME => (contactName, Some NameSource.OPENWA_PUSH_NAME)
          | _ => (None, None)
          end
      end
  end.

(** A shown name has a source, and the other way around. *)
Lemma contact_projection_named contactName pushName :
  let '(name, source) := contactNameProjection contactName pushName in is_null name = is_null source.
Proof. by destruct contactName, pushName. Qed.

Lemma member_projection_named contactName pushName participant :
  let '(contact, contactSource) := contactNameProjection contactName pushName in
  let '(name, source) := memberNameProjection contact contactSource participant in
  is_null name = is_null source.
Proof. by destruct contactName, pushName, participant. Qed.

End NameResolution.
