(* ===== verification/Relational.v ===== *)
(** * More of SQL

    [DISTINCT ON], [min], and the recursive query that follows edges ([WITH RECURSIVE reach]):
    it is evaluated by rounds until a round adds nothing, and [reach_spec] says that it then
    holds what the reflexive transitive closure of the edges holds.  The statements on
    contacts use them. *)

From S2P Require Import Prelude.
From stdpp Require Import relations.

(** ** [SELECT DISTINCT ON (key)] of an ordered list: the first row of each key *)

Section DistinctOn.
Context {A K : Type} `{EqDecision K} (key : A -> K).

Fixpoint distinct_on (l : list A) : list A :=
  match l with
  | [] => []
  | x :: l' => x :: List.filter (fun y => negb (bool_decide (key y = key x))) (distinct_on l')
  end.

Lemma elem_filter_other x y l :
  y ∈ List.filter (fun y => negb (bool_decide (key y = key x))) l <-> y ∈ l /\ key y <> key x.
Proof.
  rewrite !list_elem_of_In, filter_In, negb_true_iff, bool_decide_eq_false. done.
Qed.

Lemma distinct_on_elem l x : x ∈ distinct_on l -> x ∈ l.
Proof.
  induction l as [|y l IH]; cbn [distinct_on]; [done|].
  intros [->|[Hx _]%elem_filter_other]%elem_of_cons; [left|right; by apply IH].
Qed.

Lemma distinct_on_keys l x : x ∈ l -> exists y, y ∈ distinct_on l /\ key y = key x.
Proof.
  induction l as [|z l IH]; [by intros ?%elem_of_nil|]. cbn [distinct_on].
  intros [->|Hx]%elem_of_cons; [exists z; split; [left|done]|].
  destruct (decide (key x = key z)) as [E|E]; [exists z; split; [left|done]|].
  destruct (IH Hx) as (y & Hy & Hk). exists y. split; [|done]. right.
  apply elem_filter_other. split; [done|congruence].
Qed.

Lemma distinct_on_unique l x y : x ∈ distinct_on l -> y ∈ distinct_on l -> key x = key y -> x = y.
Proof.
  revert x y. induction l as [|z l IH]; [by intros x y ?%elem_of_nil|]. intros x y. cbn [distinct_on].
  intros [->|[Hx Nx]%elem_filter_other]%elem_of_cons [->|[Hy Ny]%elem_filter_other]%elem_of_cons E;
    [done|congruence|congruence|by apply IH].
Qed.

Lemma distinct_on_NoDup l : NoDup (map key (distinct_on l)).
Proof.
  induction l as [|x l IH]; cbn; [constructor|]. constructor.
  - intros (y & E & Hy)%list_elem_of_fmap. apply elem_filter_other in Hy as [_ Hy]. congruence.
  - assert (Hf : forall l', NoDup (map key l') ->
      NoDup (map key (List.filter (fun y => negb (bool_decide (key y = key x))) l'))); [|by apply Hf].
    induction l' as [|z l' IH']; cbn; [done|]. intros [Hz Hn]%NoDup_cons.
    destruct (negb _); cbn; [|by apply IH']. constructor; [|by apply IH'].
    intros (y & E & Hy)%list_elem_of_fmap. apply elem_filter_other in Hy as [Hy _]. apply Hz.
    apply list_elem_of_fmap. by exists y.
Qed.

(** Of the rows with its key, the row that is taken comes first. *)
Lemma distinct_on_first (leb : A -> A -> bool) l x y :
  (forall a b, leb a b = true \/ leb b a = true) ->
  (forall a b c, leb a b = true -> leb b c = true -> leb a c = true) ->
  x ∈ distinct_on (order_by leb l) -> y ∈ l -> key y = key x -> leb x y = true.
Proof.
  intros Htot Htr Hx Hy. rewrite <- (order_by_elem leb) in Hy.
  assert (Hs : StronglySorted (fun a b => Is_true (leb a b)) (order_by leb l)).
  { apply Sorted_StronglySorted; [|by apply order_by_sorted]. intros a b c. rewrite !Is_true_true. apply Htr. }
  revert x y Hx Hy Hs. generalize (order_by leb l) as s. induction s as [|z s IH]; intros x y Hx Hy Hs E.
  { by apply elem_of_nil in Hx. }
  apply StronglySorted_inv in Hs as [Hs Hz]. rewrite Forall_forall in Hz. cbn [distinct_on] in Hx.
  apply elem_of_cons in Hx as [->|[Hx Nx]%elem_filter_other].
  - apply elem_of_cons in Hy as [->|Hy]; [by destruct (Htot z z)|]. by apply Is_true_true, Hz.
  - apply elem_of_cons in Hy as [->|Hy]; [congruence|by apply IH].
Qed.

End DistinctOn.

(** Rows computed from distinct keys have distinct keys. *)
Lemma NoDup_omap_keys {A B : Type} (f : A -> option (A * B)) (l : list A) :
  (forall x y, f x = Some y -> y.1 = x) -> NoDup l -> NoDup (omap f l).*1.
Proof.
  intros Hf. induction l as [|x l IH]; intros Hn; cbn; [constructor|].
  apply NoDup_cons in Hn as [Hx Hn]. destruct (f x) as [y|] eqn:E; [|by apply IH].
  cbn. constructor; [|by apply IH]. rewrite (Hf x y E).
  intros (z & Hz & Hin)%list_elem_of_fmap. apply list_elem_of_omap in Hin as (x' & Hx' & E').
  apply Hf in E'. congruence.
Qed.

(** [first_value(..) OVER (ORDER BY ..)] *)
Lemma order_by_head {A : Type} (leb : A -> A -> bool) (l : list A) x y :
  (forall a b, leb a b = true \/ leb b a = true) ->
  (forall a b c, leb a b = true -> leb b c = true -> leb a c = true) ->
  head (order_by leb l) = Some x -> y ∈ l -> leb x y = true.
Proof.
  intros Htot Htr Hx Hy. rewrite <- (order_by_elem leb) in Hy.
  assert (Hs : StronglySorted (fun a b => Is_true (leb a b)) (order_by leb l)).
  { apply Sorted_StronglySorted; [|by apply order_by_sorted]. intros a b c. rewrite !Is_true_true. apply Htr. }
  destruct (order_by leb l) as [|z s]; [done|]. injection Hx as ->.
  apply StronglySorted_inv in Hs as [_ Hs]. rewrite Forall_forall in Hs.
  apply elem_of_cons in Hy as [->|Hy]; [by destruct (Htot x x)|]. by apply Is_true_true, Hs.
Qed.

(** ** [min] of a column of uuids; [None] is NULL *)

Definition minimum (l : list positive) : option positive :=
  match l with [] => None | x :: l' => Some (foldr Pos.min x l') end.

Lemma minimum_Some l x : minimum l = Some x -> x ∈ l /\ forall y, y ∈ l -> (x <= y)%positive.
Proof.
  destruct l as [|z l]; [done|]. intros [= <-]. induction l as [|w l [IH1 IH2]]; cbn [foldr].
  { split; [left|]. intros y ->%list_elem_of_singleton. apply Pos.le_refl. }
  set (m := foldr Pos.min z l) in *. split.
  - destruct (Pos.min_spec w m) as [[_ ->]|[_ ->]]; [right; left|].
    apply elem_of_cons in IH1 as [->|IH1]; [left|right; by right].
  - intros y Hy. assert (y = w \/ y ∈ z :: l) as [->|Hy'].
    { apply elem_of_cons in Hy as [->|Hy]; [right; left|]. apply elem_of_cons in Hy as [->|Hy]; [by left|].
      right. by right. }
    + apply Pos.le_min_l.
    + etransitivity; [apply Pos.le_min_r|by apply IH2].
Qed.

Lemma minimum_None l : minimum l = None <-> l = [].
Proof. by destruct l. Qed.

(** Lists with the same elements have the same minimum. *)
Lemma minimum_ext l l' : (forall x, x ∈ l <-> x ∈ l') -> minimum l = minimum l'.
Proof.
  intros H. destruct (minimum l) as [x|] eqn:E, (minimum l') as [y|] eqn:E'; [|..|done].
  - apply minimum_Some in E as [E1 E2], E' as [E1' E2']. f_equal. apply Pos.le_antisym; [apply E2, H|apply E2', H]; done.
  - apply minimum_None in E' as ->. apply minimum_Some in E as [E _]. by apply H, elem_of_nil in E.
  - apply minimum_None in E as ->. apply minimum_Some in E' as [E' _]. by apply H, elem_of_nil in E'.
Qed.

(** ** [WITH RECURSIVE reach] *)

Section Reach.
Context {A : Type} `{Countable A} (edges : list (A * A)).

Definition edge (x y : A) : Prop := (x, y) ∈ edges.

(** One round: the targets of the edges that leave [s] *)
Definition targets (s : gset A) : gset A :=
  list_to_set (omap (fun e => if bool_decide (e.1 ∈ s) then Some e.2 else None) edges).

Fixpoint rounds (fuel : nat) (s : gset A) : gset A :=
  match fuel with
  | O => s
  | S fuel' => if bool_decide (targets s ⊆ s) then s else rounds fuel' (s ∪ targets s)
  end.

(** What is reached from [x]: each round but the last reaches the target of one more edge. *)
Definition reach (x : A) : gset A := rounds (S (length edges)) {[x]}.

Lemma elem_of_targets s y : y ∈ targets s <-> exists x, x ∈ s /\ edge x y.
Proof.
  unfold targets, edge. rewrite elem_of_list_to_set, list_elem_of_omap. split.
  - intros ([x z] & Hin & E). cbn in E. case_bool_decide; [|done]. injection E as ->. by exists x.
  - intros (x & Hx & Hin). exists (x, y). split; [done|]. cbn. by rewrite bool_decide_true.
Qed.

Definition missing (s : gset A) : nat := length (List.filter (fun e => negb (bool_decide (e.2 ∈ s))) edges).

Lemma filter_length_lt {B} (p q : B -> bool) l x : (forall y, q y = true -> p y = true) ->
  x ∈ l -> p x = true -> q x = false -> (length (List.filter q l) < length (List.filter p l))%nat.
Proof.
  intros Hpq Hx Hp Hq.
  assert (Hle : forall l', (length (List.filter q l') <= length (List.filter p l'))%nat).
  { induction l' as [|z l' IH]; cbn [List.filter length]; [lia|].
    destruct (q z) eqn:Eq; [rewrite (Hpq z Eq); cbn [length]; lia|]. destruct (p z); cbn [length]; lia. }
  induction l as [|z l IH]; [by apply elem_of_nil in Hx|]. apply elem_of_cons in Hx as [<-|Hx]; cbn [List.filter].
  - rewrite Hp, Hq. cbn [length]. specialize (Hle l). lia.
  - specialize (IH Hx). destruct (q z) eqn:Eq; [rewrite (Hpq z Eq); cbn [length]; lia|].
    destruct (p z); cbn [length]; lia.
Qed.

Lemma missing_decreases s : ~ targets s ⊆ s -> (missing (s ∪ targets s) < missing s)%nat.
Proof.
  intros Hn. assert (exists y, y ∈ targets s /\ y ∉ s) as (y & Hy & Hs).
  { destruct (decide (Exists (fun y => y ∉ s) (elements (targets s)))) as [He|He].
    - apply Exists_exists in He as (y & Hy & Hs). exists y. by split; [apply elem_of_elements|].
    - exfalso. apply Hn. intros y Hy. destruct (decide (y ∈ s)) as [Hs|Hs]; [done|]. exfalso. apply He.
      apply Exists_exists. exists y. by split; [apply elem_of_elements|]. }
  apply elem_of_targets in Hy as (x & Hx & He). unfold missing.
  apply (filter_length_lt _ _ _ (x, y)).
  - intros e. rewrite !negb_true_iff, !bool_decide_eq_false. set_solver.
  - done.
  - cbn. by rewrite bool_decide_false.
  - cbn. apply negb_false_iff, bool_decide_eq_true. apply elem_of_union_r, elem_of_targets. by exists x.
Qed.

Lemma missing_bound s : (missing s <= length edges)%nat.
Proof.
  unfold missing. induction edges as [|e l IH]; cbn [List.filter length]; [lia|].
  destruct (negb _); cbn [length]; lia.
Qed.

(** Enough rounds: the result is closed under the edges. *)
Lemma rounds_closed fuel s : (missing s < fuel)%nat -> targets (rounds fuel s) ⊆ rounds fuel s.
Proof.
  revert s. induction fuel as [|fuel IH]; intros s Hf; [lia|]. cbn [rounds].
  case_bool_decide as E; [done|]. apply IH. pose proof (missing_decreases s E). lia.
Qed.

Lemma rounds_sound fuel s y : y ∈ rounds fuel s -> exists x, x ∈ s /\ rtc edge x y.
Proof.
  revert s. induction fuel as [|fuel IH]; intros s; cbn [rounds]; [by exists y|].
  case_bool_decide; [by exists y|]. intros (x & Hx & Hr)%IH.
  apply elem_of_union in Hx as [Hx|(z & Hz & He)%elem_of_targets]; [by exists x|].
  exists z. split; [done|]. by eapply rtc_l.
Qed.

Lemma rounds_start fuel s : s ⊆ rounds fuel s.
Proof.
  revert s. induction fuel as [|fuel IH]; intros s; cbn [rounds]; [done|].
  case_bool_decide; [done|]. specialize (IH (s ∪ targets s)). set_solver.
Qed.

Lemma reach_spec x y : y ∈ reach x <-> rtc edge x y.
Proof.
  unfold reach. split.
  - intros (z & ->%elem_of_singleton & Hr)%rounds_sound. done.
  - pose proof (rounds_closed (S (length edges)) {[x]} ltac:(pose proof (missing_bound {[x]}); lia)) as Hc.
    assert (Hx : x ∈ rounds (S (length edges)) {[x]}) by (apply rounds_start; set_solver).
    revert Hx. generalize (rounds (S (length edges)) {[x]}), Hc. clear Hc. intros s Hc Hx Hr.
    induction Hr as [x|x z y He Hr IH]; [done|]. apply IH, Hc, elem_of_targets. by exists x.
Qed.

End Reach.

(** ** The components of a graph without directions *)

Section Components.
Context {A : Type} `{Countable A}.

Definition swap (e : A * A) : A * A := (e.2, e.1).

(** SELECT source, target UNION SELECT target, source *)
Definition undirected (edges : list (A * A)) : list (A * A) := edges ++ map swap edges.

Definition connected (edges : list (A * A)) : A -> A -> Prop := rtc (edge (undirected edges)).

Lemma edge_undirected edges x y : edge (undirected edges) x y <-> edge edges x y \/ edge edges y x.
Proof.
  unfold edge, undirected. rewrite elem_of_app. f_equiv. rewrite list_elem_of_fmap. split.
  - intros ([a b] & [= -> ->] & Hin). done.
  - intros Hin. by exists (y, x).
Qed.

#[export] Instance connected_equivalence edges : Equivalence (connected edges).
Proof.
  split.
  - intros x. apply rtc_refl.
  - intros x y Hr. induction Hr as [x|x z y He Hr IH]; [apply rtc_refl|].
    eapply rtc_r; [exact IH|]. apply edge_undirected. apply edge_undirected in He. tauto.
  - intros x y z H1 H2. by etransitivity.
Qed.

Lemma connected_edge edges x y : edge edges x y -> connected edges x y.
Proof. intros He. apply rtc_once, edge_undirected. by left. Qed.

End Components.

(** ** INSERT of several rows, and GROUP BY *)

(** Rows of distinct keys are all there afterwards. *)
Lemma foldl_insert_Some {K V : Type} `{Countable K} (l : list (K * V)) (t : gmap K V) k v : NoDup (l.*1) ->
  (foldl (fun t kv => <[kv.1 := kv.2]> t) t l !! k = Some v) <-> (k, v) ∈ l \/ ((k ∉ l.*1) /\ t !! k = Some v).
Proof.
  revert t. induction l as [|[k0 v0] l IH]; intros t Hn; cbn [foldl fmap list_fmap].
  { split; [right; split; [by apply not_elem_of_nil|done]|]. intros [Hin|[_ Ht]]; [by apply not_elem_of_nil in Hin|done]. }
  apply NoDup_cons in Hn as [Hk Hn]. rewrite IH by done. cbn [fst snd]. rewrite elem_of_cons, not_elem_of_cons. split.
  - intros [Hin|[Hout Ht]]; [by left; right|]. destruct (decide (k = k0)) as [->|Hne].
    + rewrite lookup_insert_eq in Ht. injection Ht as ->. by left; left.
    + rewrite lookup_insert_ne in Ht by done. by right.
  - intros [[[= -> ->]|Hin]|[[Hne Hout] Ht]]; [right|by left|right].
    + split; [done|by rewrite lookup_insert_eq].
    + split; [done|by rewrite lookup_insert_ne].
Qed.

(** The groups of a list hold each element once. *)
Lemma sum_of_groups {A K : Type} `{EqDecision K} (key : A -> K) (ks : list K) (l : list A) : NoDup ks ->
  (forall x, x ∈ l -> key x ∈ ks) ->
  foldr Z.add 0%Z (map (fun k => Z.of_nat (length (List.filter (fun x => bool_decide (key x = k)) l))) ks) = Z.of_nat (length l).
Proof.
  intros Hn. induction l as [|x l IH]; intros Hk.
  { clear. induction ks as [|k ks IH]; [done|]. cbn in *. by rewrite IH. }
  assert (Hx : key x ∈ ks) by (apply Hk; left). specialize (IH (fun y Hy => Hk y (list_elem_of_further _ _ _ Hy))).
  cbn [length]. rewrite Nat2Z.inj_succ, <- IH. clear IH Hk.
  assert (Hc : forall k, Z.of_nat (length (List.filter (fun y => bool_decide (key y = k)) (x :: l)))
    = (Z.of_nat (length (List.filter (fun y => bool_decide (key y = k)) l)) + if bool_decide (key x = k) then 1 else 0)%Z).
  { intros k. cbn [List.filter]. case_bool_decide; cbn [length]; lia. }
  rewrite (map_ext _ _ Hc). clear Hc. induction Hn as [|k ks Hout Hn IHk]; [by apply not_elem_of_nil in Hx|].
  cbn [map foldr]. apply elem_of_cons in Hx as [E|Hx].
  - rewrite bool_decide_true by done. rewrite (map_ext_in _ (fun k' => Z.of_nat (length (List.filter (fun y => bool_decide (key y = k')) l)))); [lia|].
    intros k' Hk'%list_elem_of_In. rewrite bool_decide_false; [lia|]. intros E'. by rewrite <- E', E in Hk'.
  - rewrite (bool_decide_false (key x = k)) by by intros <-. rewrite IHk by done. lia.
Qed.

(** [count(DISTINCT ..) > 1] *)
Lemma distinct_values {A : Type} `{EqDecision A} (l : list A) :
  (1 < length (remove_dups l))%nat <-> exists x y, x ∈ l /\ y ∈ l /\ x <> y.
Proof.
  pose proof (NoDup_remove_dups l) as Hn. assert (He : forall x, x ∈ l <-> x ∈ remove_dups l) by (intros; by rewrite elem_of_remove_dups).
  setoid_rewrite He. clear He. revert Hn. generalize (remove_dups l). intros r Hn. split.
  - destruct r as [|x [|y r]]; cbn; [lia|lia|]. intros _. exists x, y. apply NoDup_cons in Hn as [Hx _].
    split; [left|]. split; [right; left|]. intros ->. apply Hx. left.
  - intros (x & y & Hx & Hy & Hne). destruct r as [|z [|z' r]]; cbn; [|  |lia].
    + by apply not_elem_of_nil in Hx.
    + apply list_elem_of_singleton in Hx, Hy. congruence.
Qed.

(** ** A page of rows: [ORDER BY key LIMIT n], the next one from the last key on *)

Lemma keys_unique {K V : Type} (l : list (K * V)) k v v' : NoDup l.*1 -> (k, v) ∈ l -> (k, v') ∈ l -> v = v'.
Proof.
  induction l as [|x l IH]; [by intros _ ?%not_elem_of_nil|]. cbn. intros [Hx Hn]%NoDup_cons.
  intros [<-|H]%elem_of_cons [E|H']%elem_of_cons.
  - by injection E.
  - destruct Hx. apply list_elem_of_fmap. by exists (k, v').
  - subst x. destruct Hx. apply list_elem_of_fmap. by exists (k, v).
  - by apply IH.
Qed.

Section Pages.
Context {K V : Type} `{EqDecision K} (leb : K -> K -> bool).
Hypothesis leb_total : forall a b, leb a b = true \/ leb b a = true.
Hypothesis leb_trans : forall a b c, leb a b = true -> leb b c = true -> leb a c = true.
Hypothesis leb_antisym : forall a b, leb a b = true -> leb b a = true -> a = b.

Definition page (n : nat) (l : list (K * V)) : list (K * V) := take n (order_by (fun a b => leb a.1 b.1) l).

Lemma page_elem n l x : x ∈ page n l -> x ∈ l.
Proof. intros Hx%take_elem. by rewrite order_by_elem in Hx. Qed.

(** A page that is not full is the last. *)
Lemma page_short n l x : (length (page n l) < n)%nat -> x ∈ l -> x ∈ page n l.
Proof.
  unfold page. intros Hn Hx. rewrite take_ge; [by rewrite order_by_elem|]. rewrite length_take in Hn. lia.
Qed.

Lemma page_sorted n l : StronglySorted (fun a b => Is_true (leb a.1 b.1)) (page n l).
Proof.
  assert (Hs : StronglySorted (fun a b : K * V => Is_true (leb a.1 b.1)) (order_by (fun a b => leb a.1 b.1) l)).
  { apply Sorted_StronglySorted; [|apply order_by_sorted; intros x y; apply leb_total].
    intros a b c. rewrite !Is_true_true. apply leb_trans. }
  rewrite <- (take_drop n (order_by _ l)) in Hs. by apply StronglySorted_app_1_l in Hs.
Qed.

(** The rows of a page are those up to its last one. *)
Lemma page_last n l r x : NoDup l.*1 -> last (page n l) = Some r -> x ∈ l -> x ∈ page n l <-> leb x.1 r.1 = true.
Proof.
  intros Hnd Hr Hx. pose proof Hr as [p Hp]%last_Some. split.
  - intros Hin. rewrite Hp in Hin. pose proof (page_sorted n l) as Hs. rewrite Hp in Hs.
    apply elem_of_app in Hin as [Hin| ->%list_elem_of_singleton]; [|by destruct (leb_total r.1 r.1)].
    apply Is_true_true. by apply (StronglySorted_app_1_elem_of _ _ _ _ _ Hs); [|left].
  - intros Hle. destruct (decide (x.1 ∈ (page n l).*1)) as [Hin|Hout].
    + apply list_elem_of_fmap in Hin as (y & E & Hy). assert (x = y) as ->; [|done].
      destruct x as [k v], y as [k' v']. cbn in E. subst k'. f_equal.
      apply page_elem in Hy. by eapply keys_unique.
    + exfalso. assert (Hrp : r ∈ page n l) by (rewrite Hp; apply elem_of_app; right; left).
      assert (Hxp : x ∉ page n l) by (intros H; apply Hout, list_elem_of_fmap; by exists x).
      assert (Hrx : leb r.1 x.1 = true).
      { apply (take_order_by_first (fun a b => leb a.1 b.1) n l r x); [intros; apply leb_total|intros *; apply leb_trans|done..]. }
      assert (x.1 = r.1) as E by by apply leb_antisym. apply Hout. rewrite E. apply list_elem_of_fmap. by exists r.
Qed.

(** A full page leaves as many fewer. *)
Lemma page_full n l r : NoDup l.*1 -> last (page n l) = Some r ->
  length l = (length (page n l) + length (List.filter (fun x => negb (leb x.1 r.1)) l))%nat.
Proof.
  intros Hnd Hr. rewrite <- length_app. apply Permutation_length.
  assert (Hn : NoDup l) by by eapply NoDup_fmap_1.
  apply NoDup_Permutation; [done|apply NoDup_app; split; [|split]|].
  - unfold page. assert (Hn' : NoDup (order_by (fun a b => leb a.1 b.1) l)) by by rewrite order_by_Permutation.
    rewrite <- (take_drop n (order_by _ l)) in Hn'. by apply NoDup_app in Hn' as [? _].
  - intros x Hx (Hl & Hb)%list_elem_of_In%filter_In. apply list_elem_of_In in Hl.
    apply (page_last n l r x Hnd Hr Hl) in Hx. by rewrite Hx in Hb.
  - by apply NoDup_ListNoDup, List.NoDup_filter, NoDup_ListNoDup.
  - intros x. rewrite elem_of_app, (list_elem_of_In (List.filter _ l)), filter_In, <- list_elem_of_In. split.
    + intros Hx. destruct (leb x.1 r.1) eqn:E; [left; by apply (page_last n l r x)|by right].
    + intros [Hx%page_elem|[Hx _]]; done.
Qed.

End Pages.
