(* ===== verification/ContactEvidence.v ===== *)
(** * Evidence on contacts

    [src/src/modules/contacts/contact-evidence.writer.ts]: the exact identities that were
    seen, the names observed for them, and the links between an identity and a phone.  Rows
    of the last two are immutable: each statement is ON CONFLICT DO NOTHING on the key of
    the observation.

    Several rows of one statement draw their own [gen_random_uuid()]: [drawn] gives the id
    of the row with the given key.  [md5] is an argument. *)

From S2P Require Import Prelude Schema ContactSchema ContactQueue ContactIdentity Relational.
From stdpp Require Import pretty.

(** [ContactEvidenceIdentityInput] *)
Record evidence_input := EvidenceInput {
  ei_identity : identity_key;
  ei_phone : option string;
  ei_participant_id : string;
  ei_participant_name : option string }.

Module Evidence.

Local Open Scope string_scope.

Section Writer.
Context (cfg : contact_config) (md5 : string -> string).

Definition phone_key (phone : string) : identity_key := (IdentityType.PHONE, phone).

(** The PHONE identities of some rows: [SELECT DISTINCT 'PHONE', phone .. WHERE phone IS NOT NULL] *)
Definition phone_keys (phones : list (option string)) : list identity_key :=
  remove_dups (omap (fmap phone_key) phones).

Definition see_identity (drawn : identity_key -> uuid) (now : timestamp)
    (t : gmap identity_key observed_identity) (k : identity_key) : gmap identity_key observed_identity :=
  match t !! k with
  | Some o => <[k := o <| oc_last_observed_at := now |>]> t
  | None => <[k := ObservedIdentity (drawn k) now now]> t
  end.

(** The exact identities, then their phones *)
Definition upsertInputIdentities (drawn : identity_key -> uuid) (now : timestamp)
    (inputs : list evidence_input) (d : contact_tables) : contact_tables :=
  let exact := remove_dups (map ei_identity inputs) in
  let phones := phone_keys (map ei_phone inputs) in
  d <| observed_identities := foldl (see_identity drawn now)
         (foldl (see_identity drawn now) (observed_identities d) exact) phones |>.

(** The id of an identity that has been seen *)
Definition identity_id (d : contact_tables) (k : identity_key) : option uuid :=
  oc_id <$> observed_identities d !! k.

Definition add_link (now : timestamp) (generation : option Z) (t : gmap (LinkSource.t * string) link_evidence)
    (l : (LinkSource.t * string) * (uuid * uuid * timestamp)) : gmap (LinkSource.t * string) link_evidence :=
  let '(k, (lid, rid, at_)) := l in insert_absent k (LinkEvidence lid rid generation at_ now) t.

(** A phone JID contains its phone. *)
Definition derived_links (now : timestamp) (inputs : list evidence_input) (d : contact_tables)
    : list ((LinkSource.t * string) * (uuid * uuid * timestamp)) :=
  omap (fun i =>
    match (ei_identity i).1, ei_phone i with
    | IdentityType.PHONE_JID, Some phone =>
        lid ← identity_id d (ei_identity i);
        rid ← identity_id d (phone_key phone);
        Some ((LinkSource.PHONE_JID_DERIVATION, "derived:" ++ md5 ((ei_identity i).2 ++ ":" ++ phone)),
              (lid, rid, now))
    | _, _ => None
    end) inputs.

Definition insertInputLinks (now : timestamp) (inputs : list evidence_input) (d : contact_tables) : contact_tables :=
  d <| contact_link_evidence := foldl (add_link now None) (contact_link_evidence d) (derived_links now inputs d) |>.

Definition add_observation (now : timestamp) (t : gmap (NameSource.t * string) name_observation)
    (o : (NameSource.t * string) * name_observation) : gmap (NameSource.t * string) name_observation :=
  insert_absent o.1 o.2 t.

Definition participant_observations (ids : NameSource.t * string -> uuid) (now : timestamp) (groupId : string)
    (inputs : list evidence_input) (d : contact_tables)
    : list ((NameSource.t * string) * name_observation) :=
  omap (fun i =>
    name ← ei_participant_name i;
    identity ← identity_id d (ei_identity i);
    let k := (NameSource.GROUP_PARTICIPANT_NAME,
              "group:" ++ md5 (groupId ++ ":" ++ ei_participant_id i ++ ":" ++ name)) in
    Some (k, NameObservation (ids k) identity (Some (groupId, ei_participant_id i)) name None now now)) inputs.

(** SELECT DISTINCT identity.id *)
Definition inputIdentityIds (inputs : list evidence_input) (d : contact_tables) : list uuid :=
  remove_dups (omap (fun i => identity_id d (ei_identity i)) inputs).

(** With projections enabled, those of the identities are requested. *)
Definition request_projections (rq : Queue.request) (ids : list uuid) (d : contact_tables) : contact_tables :=
  if CONTACT_PROJECTION_SHADOW_ENABLED cfg then (Queue.enqueueContactProjectionWork rq ids d).2 else d.

Definition member_evidence (drawn : identity_key -> uuid) (ids : NameSource.t * string -> uuid)
    (now : timestamp) (groupId : string) (inputs : list evidence_input) (d : contact_tables) : contact_tables :=
  let d1 := upsertInputIdentities drawn now inputs d in
  let d2 := d1 <| contact_observations := foldl (add_observation now) (contact_observations d1)
                    (participant_observations ids now groupId inputs d1) |> in
  insertInputLinks now inputs d2.

Definition observeGroupMembers (drawn : identity_key -> uuid) (ids : NameSource.t * string -> uuid) (rq : Queue.request)
    (now : timestamp) (groupId : string) (inputs : list evidence_input) (d : contact_tables) : contact_tables :=
  if negb (CONTACT_EVIDENCE_DUAL_WRITE_ENABLED cfg) || bool_decide (inputs = []) then d
  else
    let d1 := member_evidence drawn ids now groupId inputs d in
    request_projections rq (inputIdentityIds inputs d1) d1.

(** ORDER BY source_observed_at DESC, source_observation_key DESC, id DESC *)
Definition newest_first (a b : (NameSource.t * string) * name_observation) : bool :=
  if (no_source_observed_at a.2 =? no_source_observed_at b.2)%Z
  then if bool_decide (a.1.2 = b.1.2) then (no_id b.2 <=? no_id a.2)%positive else text_leb b.1.2 a.1.2
  else (no_source_observed_at b.2 <? no_source_observed_at a.2)%Z.

(** The latest push name of an identity *)
Definition previous_push (identity : uuid) (d : contact_tables) : option ((NameSource.t * string) * name_observation) :=
  head (order_by newest_first (select_where (fun k o =>
    bool_decide (k.1 = NameSource.OPENWA_PUSH_NAME) && bool_decide (no_identity_id o = identity)) (contact_observations d))).

(** The row that was inserted changes what the identity is called. *)
Definition renames (inserted : (NameSource.t * string) * name_observation)
    (previous : option ((NameSource.t * string) * name_observation)) : bool :=
  match previous with
  | None => true
  | Some p => newest_first inserted p && negb (newest_first p inserted)
              && negb (bool_decide (no_name_value inserted.2 = no_name_value p.2))
  end.

Definition sender_observation (id identity : uuid) (pushName : string) (observedAt now : timestamp) : name_observation :=
  NameObservation id identity None pushName None observedAt now.

Definition sender_evidence (drawn : identity_key -> uuid) (id : uuid) (now : timestamp)
    (input : evidence_input) (pushName : string) (observedAt : timestamp) (observationKey : string)
    (d : contact_tables) : contact_tables :=
  let d1 := upsertInputIdentities drawn now [input] d in
  let d2 := match identity_id d1 (ei_identity input) with
            | Some identity =>
                d1 <| contact_observations := insert_absent (NameSource.OPENWA_PUSH_NAME, observationKey)
                        (sender_observation id identity pushName observedAt now) (contact_observations d1) |>
            | None => d1
            end in
  insertInputLinks now [input] d2.

(** The identity whose projection the observation asks for: the row was inserted, and it
    renames the identity. *)
Definition renamed (id : uuid) (now : timestamp) (input : evidence_input) (pushName : string) (observedAt : timestamp)
    (observationKey : string) (d1 : contact_tables) : list uuid :=
  match identity_id d1 (ei_identity input) with
  | Some identity =>
      let k := (NameSource.OPENWA_PUSH_NAME, observationKey) in
      if is_null (contact_observations d1 !! k)
         && renames (k, sender_observation id identity pushName observedAt now) (previous_push identity d1)
      then [identity] else []
  | None => []
  end.

Definition observeMessageSender (drawn : identity_key -> uuid) (id : uuid) (rq : Queue.request) (now : timestamp)
    (input : evidence_input) (pushName : string) (observedAt : timestamp) (observationKey : string)
    (d : contact_tables) : contact_tables :=
  if negb (CONTACT_EVIDENCE_DUAL_WRITE_ENABLED cfg) then d
  else
    let asked := renamed id now input pushName observedAt observationKey (upsertInputIdentities drawn now [input] d) in
    request_projections rq asked (sender_evidence drawn id now input pushName observedAt observationKey d).

(** *** The publication of a snapshot *)

(** The staged observations of a generation *)
Definition staged (generation : Z) (d : contact_tables) : list (identity_key * staged_observation) :=
  map (fun kv => (kv.1.2, kv.2)) (select_where (fun k _ => k.1 =? generation)%Z (snapshot_observations d)).

Definition widen (drawn : identity_key -> uuid) (t : gmap identity_key observed_identity)
    (seen : identity_key * timestamp) : gmap identity_key observed_identity :=
  let '(k, at_) := seen in
  match t !! k with
  | Some o => <[k := o <| oc_first_observed_at := Z.min (oc_first_observed_at o) at_ |>
                      <| oc_last_observed_at := Z.max (oc_last_observed_at o) at_ |>]> t
  | None => <[k := ObservedIdentity (drawn k) at_ at_]> t
  end.

(** ORDER BY phone, source_observed_at DESC, identity_type, identity_value *)
Definition phone_order (a b : string * (identity_key * staged_observation)) : bool :=
  let '(pa, (ka, sa)) := a in let '(pb, (kb, sb)) := b in
  if bool_decide (pa = pb)
  then if (so_source_observed_at sa =? so_source_observed_at sb)%Z
       then if bool_decide (ka.1 = kb.1) then text_leb ka.2 kb.2
            else text_leb (IdentityType.text ka.1) (IdentityType.text kb.1)
       else (so_source_observed_at sb <? so_source_observed_at sa)%Z
  else text_leb pa pb.

Definition staged_phones (generation : Z) (d : contact_tables) : list (identity_key * timestamp) :=
  map (fun r => (phone_key r.1, so_source_observed_at r.2.2))
    (distinct_on fst (order_by phone_order
       (omap (fun r => (fun phone => (phone, r)) <$> so_phone r.2) (staged generation d)))).

Definition staged_names (ids : NameSource.t * string -> uuid) (now : timestamp) (generation : Z) (d : contact_tables)
    : list ((NameSource.t * string) * name_observation) :=
  flat_map (fun r =>
    omap (fun sv : NameSource.t * option string =>
      name ← sv.2;
      identity ← identity_id d r.1;
      let k := (sv.1, so_source_observation_key r.2 ++ ":" ++ NameSource.text sv.1) in
      Some (k, NameObservation (ids k) identity None name (Some generation) (so_source_observed_at r.2) now))
      [(NameSource.OPENWA_CONTACT_NAME, so_contact_name r.2); (NameSource.OPENWA_PUSH_NAME, so_push_name r.2)])
    (staged generation d).

Definition staged_links (generation : Z) (d : contact_tables)
    : list ((LinkSource.t * string) * (uuid * uuid * timestamp)) :=
  omap (fun r =>
    phone ← so_phone r.2;
    lid ← identity_id d r.1;
    rid ← identity_id d (phone_key phone);
    Some ((match r.1.1 with
           | IdentityType.PHONE_JID => LinkSource.PHONE_JID_DERIVATION
           | _ => LinkSource.OPENWA_CONTACT_PHONE
           end, so_source_observation_key r.2 ++ ":phone"),
          (lid, rid, so_source_observed_at r.2))) (staged generation d).

Definition publishSnapshot (drawn : identity_key -> uuid) (ids : NameSource.t * string -> uuid)
    (now : timestamp) (generation : Z) (d : contact_tables) : contact_tables :=
  if negb (CONTACT_EVIDENCE_DUAL_WRITE_ENABLED cfg) then d
  else
    let exact := map (fun r => (r.1, so_source_observed_at r.2)) (staged generation d) in
    let d1 := d <| observed_identities := foldl (widen drawn) (observed_identities d) exact |> in
    let d2 := d1 <| observed_identities := foldl (widen drawn) (observed_identities d1) (staged_phones generation d1) |> in
    let d3 := d2 <| contact_observations := foldl (add_observation now) (contact_observations d2)
                      (staged_names ids now generation d2) |> in
    d3 <| contact_link_evidence := foldl (add_link now (Some generation)) (contact_link_evidence d3)
            (staged_links generation d3) |>.

(** A request touches the queue alone. *)
Lemma request_only rq ids d : exists q, request_projections rq ids d = d <| contact_projection_work := q |>.
Proof.
  unfold request_projections. destruct (CONTACT_PROJECTION_SHADOW_ENABLED cfg).
  - exists (contact_projection_work (Queue.enqueueContactProjectionWork rq ids d).2). apply Queue.enqueue_only.
  - exists (contact_projection_work d). by destruct d.
Qed.

End Writer.

(** Forget the requests of a goal. *)
Ltac strip_requests :=
  repeat match goal with
  | |- context [request_projections ?cfg ?rq ?ids ?d] =>
      destruct (request_only cfg rq ids d) as [? ->]
  end.
End Evidence.
