(* ===== verification/ContactStore.v ===== *)
(** * The contacts of a session

    [src/src/modules/contacts/contact.repository.ts] (Module [ContactRepo]): a page of
    provider contacts is ingested, and the contacts that share a phone are merged.
    [contact-observation.repository.ts] (Module [ObservationRepo]): names seen in messages
    and the members of a group, with the member rows that
    [gateway-group-snapshot.repository.ts] writes around it.

    Each definition is one transaction on the tables of one session, under the advisory lock
    of that session.  [drawn] and [ids] give the random uuids, [nfc] and [md5] are arguments. *)

From S2P Require Import Prelude Schema SendPolicy Service ContactSchema ContactQueue ContactIdentity Relational ContactEvidence.
From stdpp Require Import pretty.

Import Normalization NameResolution.

(** ** What the statements of both repositories share *)

Module Names.

Local Open Scope Z_scope.

Definition text_ltb (a b : string) : bool := negb (text_leb b a).

(** (source_observed_at, source_observation_key) < (..) *)
Definition older (a b : timestamp * string) : bool :=
  (a.1 <? b.1) || ((a.1 =? b.1) && text_ltb a.2 b.2).

Definition stamp (n : contact_name) : timestamp * string :=
  (cn_source_observed_at n, cn_source_observation_key n).

(** INSERT .. ON CONFLICT (contact_id, name_source) DO UPDATE .. WHERE older; the answer:
    whether a row was written *)
Definition write_name (now : timestamp) (k : uuid * NameSource.t) (name : string) (at_ : timestamp * string)
    (t : gmap (uuid * NameSource.t) contact_name) : bool * gmap (uuid * NameSource.t) contact_name :=
  match t !! k with
  | None => (true, <[k := ContactName name now now at_.1 at_.2]> t)
  | Some n => if older (stamp n) at_
              then (true, <[k := ContactName name (cn_first_observed_at n) now at_.1 at_.2]> t)
              else (false, t)
  end.

(** The name and source a contact should show *)
Definition effective_name (d : contact_tables) (id : uuid) : option string * option NameSource.t :=
  contactNameProjection (cn_name_value <$> contact_names d !! (id, NameSource.OPENWA_CONTACT_NAME))
                        (cn_name_value <$> contact_names d !! (id, NameSource.OPENWA_PUSH_NAME)).

Definition show (p : option string * option NameSource.t) (c : contact) : contact :=
  c <| ct_effective_display_name := p.1 |> <| ct_display_name_source := p.2 |>.

(** UPDATE contacts SET effective_display_name, display_name_source, for the given contacts *)
Definition project_contacts (ids : list uuid) (d : contact_tables) : contact_tables :=
  d <| contacts := map_imap (fun id c => Some (if mem id ids then show (effective_name d id) c else c)) (contacts d) |>.

(** The name and source a member should show *)
Definition member_name (c : contact) (m : group_member) : option string * option NameSource.t :=
  memberNameProjection (ct_effective_display_name c) (ct_display_name_source c) (gm_participant_display_name m).

Definition show_member (now : timestamp) (p : option string * option NameSource.t) (m : group_member) : group_member :=
  m <| gm_display_name := p.1 |> <| gm_display_name_source := p.2 |>
    <| gm_display_name_updated_at := match p.1 with Some _ => Some now | None => None end |>.

(** The name a member of one of the given contacts is to show, if it does not show it *)
Definition stale_name (ids : list uuid) (d : contact_tables) (m : group_member)
    : option (option string * option NameSource.t) :=
  c ← gm_contact_id m;
  row ← contacts d !! c;
  let p := member_name row m in
  if mem c ids && negb (bool_decide ((gm_display_name m, gm_display_name_source m) = p)) then Some p else None.

(** UPDATE group_members .. FROM contacts, for the given contacts; the answer: how many
    members were written *)
Definition project_members (fanout : bool) (now : timestamp) (ids : list uuid) (d : contact_tables)
    : Z * contact_tables :=
  if fanout
  then (count_where (fun _ m => negb (is_null (stale_name ids d m))) (group_members d),
        d <| group_members := map_imap (fun _ m => Some (match stale_name ids d m with
                                                         | Some p => show_member now p m
                                                         | None => m
                                                         end)) (group_members d) |>)
  else (0, d).

Definition new_contact (now : timestamp) : contact := Contact None None now now now.

(** INSERT INTO contact_identifiers .. ON CONFLICT DO UPDATE SET last_observed_at *)
Definition map_identity (now : timestamp) (source : MappingSource.t) (t : gmap identity_key identifier)
    (k : identity_key * uuid) : gmap identity_key identifier :=
  match t !! k.1 with
  | Some i => <[k.1 := i <| ci_last_observed_at := now |>]> t
  | None => <[k.1 := Identifier k.2 source now]> t
  end.

(** The candidates of identities without a contact become contacts. *)
Definition create_missing (now : timestamp) (source : MappingSource.t) (missing : list (identity_key * uuid))
    (d : contact_tables) : contact_tables :=
  d <| contacts := foldl (fun t k => insert_absent k.2 (new_contact now) t) (contacts d) missing |>
    <| contact_identifiers := foldl (map_identity now source) (contact_identifiers d) missing |>.

(** UPDATE contact_identifiers SET last_observed_at *)
Definition touch_identifiers (now : timestamp) (keys : list identity_key) (d : contact_tables) : contact_tables :=
  d <| contact_identifiers := update_where (fun k _ => mem k keys)
         (fun i => i <| ci_last_observed_at := now |>) (contact_identifiers d) |>.

Definition contact_of (d : contact_tables) (k : identity_key) : option uuid :=
  ci_contact_id <$> contact_identifiers d !! k.

(** ORDER BY identity_type, identity_value *)
Definition key_leb (a b : identity_key) : bool :=
  if bool_decide (a.1 = b.1) then text_leb a.2 b.2 else text_leb (IdentityType.text a.1) (IdentityType.text b.1).

(** 'type:value' *)
Definition key_text (k : identity_key) : string := (IdentityType.text k.1 ++ ":" ++ k.2)%string.

End Names.

Import Names.

Module ContactRepo.

Local Open Scope Z_scope.

(** [OpenWAContact] *)
Record openwa_contact := OpenWAContact {
  oa_id : string;
  oa_number : string;
  oa_name : option string;
  oa_pushName : option string }.

(** A row of the page that is sent to the database *)
Record page_row := PageRow {
  pr_key : identity_key;
  pr_phone : option string;
  pr_contact_name : option string;
  pr_push_name : option string;
  pr_candidate : uuid }.

Section Repo.
Context (cfg : contact_config) (nfc md5 : string -> string).

(** A LID has the phone the provider tells, unless that is the LID itself. *)
Definition phone_of (i : identity) (number : string) : option string :=
  match nid_type i with
  | IdentityType.LID =>
      let upstreamPhone := trim number in
      if digits upstreamPhone && negb (bool_decide (upstreamPhone = default (nid_value i) (chop "@lid" (nid_value i))))
      then Some upstreamPhone else None
  | _ => nid_phone i
  end.

Definition page_rows (drawn : nat -> uuid) (page : list openwa_contact) : list page_row :=
  imap (fun n c =>
    let i := normalizeContactIdentity (oa_id c) in
    PageRow (key i) (phone_of i (oa_number c)) (normalizeContactName nfc (oa_name c) i)
            (normalizeContactName nfc (oa_pushName c) i) (drawn n)) page.

Definition lost_ownership : failure := JsError "Contact snapshot lost write ownership".

(** [ContactSnapshotConflictError] *)
Definition snapshot_conflict : failure := JsError "Contact snapshot contains conflicting identity observations".

(** The row of [contact_sync_state] that the caller's lease is on *)
Definition owned (now : timestamp) (generation : Z) (leaseToken : uuid) (s : contact_sync_state) : bool :=
  (cs_sync_generation s =? generation) && bool_decide (cs_lease_token s = Some leaseToken)
  && after (cs_lease_expires_at s) now.

Definition lease_ms : Z := 600000.

(** UPDATE contact_sync_state SET lease_expires_at .. WHERE owned *)
Definition renew (now : timestamp) (generation : Z) (leaseToken : uuid) (d : contact_tables) : failure + contact_tables :=
  match sync_state d with
  | Some s => if owned now generation leaseToken s
              then inr (d <| sync_state := Some (s <| cs_lease_expires_at := Some (now + lease_ms) |>) |>)
              else inl lost_ownership
  | None => inl lost_ownership
  end.

Definition snapshot_key (generation : Z) (infix : string) (k : identity_key) : string :=
  ("snapshot:" ++ pretty generation ++ ":" ++ infix ++ md5 (key_text k))%string.

Definition stage_row (now : timestamp) (generation : Z) (t : gmap (Z * identity_key) staged_observation)
    (r : page_row) : gmap (Z * identity_key) staged_observation :=
  insert_absent (generation, pr_key r)
    (StagedObservation (pr_phone r) (pr_contact_name r) (pr_push_name r) now (snapshot_key generation "" (pr_key r))) t.

Definition agrees (generation : Z) (t : gmap (Z * identity_key) staged_observation) (r : page_row) : bool :=
  match t !! (generation, pr_key r) with
  | Some s => bool_decide ((so_phone s, so_contact_name s, so_push_name s) = (pr_phone r, pr_contact_name r, pr_push_name r))
  | None => false
  end.

(** With staging: the page is kept as it came; the generation must exist, and what was kept
    before must not contradict it. *)
Definition stage (now : timestamp) (generation : Z) (rows : list page_row) (d : contact_tables) : failure + contact_tables :=
  if negb (CONTACT_SNAPSHOT_STAGING_ENABLED cfg) then inr d
  else if is_null (snapshot_generations d !! generation)
  then inl (Broken "contact_snapshot_observations_session_id_generation_fkey")
  else
    let t := foldl (stage_row now generation) (snapshot_observations d) rows in
    if forallb (agrees generation t) rows then inr (d <| snapshot_observations := t |>) else inl snapshot_conflict.

Definition row_order (a b : page_row) : bool :=
  if bool_decide (pr_key a = pr_key b) then (pr_candidate a <=? pr_candidate b)%positive
  else key_leb (pr_key a) (pr_key b).

Definition missing_rows (rows : list page_row) (d : contact_tables) : list (identity_key * uuid) :=
  map (fun r => (pr_key r, pr_candidate r))
    (distinct_on pr_key (order_by row_order
       (List.filter (fun r => is_null (contact_identifiers d !! pr_key r)) rows))).

(** INSERT INTO contact_identity_evidence .. ON CONFLICT DO UPDATE: PostgreSQL refuses a
    statement that would write one row twice. *)
Definition record_evidence (generation : Z) (rows : list page_row) (d : contact_tables) : failure + contact_tables :=
  let inputs := omap (fun r => (fun phone => (pr_key r, phone)) <$> pr_phone r) rows in
  if bool_decide (NoDup inputs.*1)
  then inr (d <| contact_identity_evidence :=
                   foldl (fun t kp => <[(generation, kp.1) := kp.2]> t) (contact_identity_evidence d) inputs |>)
  else inl (Broken "ON CONFLICT DO UPDATE command cannot affect row a second time").

(** The rows with their contacts *)
Definition matched (rows : list page_row) (d : contact_tables) : list (page_row * uuid) :=
  omap (fun r => (fun c => (r, c)) <$> contact_of d (pr_key r)) rows.

(** ORDER BY phone, (phone_contact_id IS NOT NULL) DESC, (identity_type = 'PHONE_JID') DESC,
    identity_value, contact_id; rows of one phone have the same [phone_contact_id]. *)
Definition phone_row_order (a b : string * (page_row * uuid)) : bool :=
  let '(pa, (ra, ca)) := a in let '(pb, (rb, cb)) := b in
  let jid r := bool_decide ((pr_key r).1 = IdentityType.PHONE_JID) in
  if bool_decide (pa = pb)
  then if eqb (jid ra) (jid rb)
       then if bool_decide ((pr_key ra).2 = (pr_key rb).2) then (ca <=? cb)%positive
            else text_leb (pr_key ra).2 (pr_key rb).2
       else jid ra
  else text_leb pa pb.

(** Which contact each phone of the page goes to *)
Definition phone_rows (rows : list page_row) (d : contact_tables) : list (identity_key * uuid) :=
  map (fun x => (Evidence.phone_key x.1, default x.2.2 (contact_of d (Evidence.phone_key x.1))))
    (distinct_on fst (order_by phone_row_order
       (omap (fun m => (fun phone => (phone, m)) <$> pr_phone m.1) (matched rows d)))).

Definition map_phones (now : timestamp) (rows : list page_row) (d : contact_tables) : contact_tables :=
  let m := matched rows d in
  let phones := phone_rows rows d in
  let d1 := touch_identifiers now (map (fun x => pr_key x.1) m) d in
  d1 <| contacts := update_where (fun id _ => mem id m.*2) (fun c => c <| ct_last_observed_at := now |>) (contacts d1) |>
     <| contact_identifiers := foldl (map_identity now MappingSource.OPENWA_CONTACT_PHONE) (contact_identifiers d1) phones |>.

(** ORDER BY contact_id, identity_value *)
Definition name_row_order (a b : page_row * uuid) : bool :=
  if bool_decide (a.2 = b.2) then text_leb (pr_key a.1).2 (pr_key b.1).2 else (a.2 <=? b.2)%positive.

Definition write_names (now : timestamp) (generation : Z) (source : NameSource.t) (infix : string)
    (name_of : page_row -> option string) (m : list (page_row * uuid)) (d : contact_tables) : contact_tables :=
  let named := distinct_on snd (order_by name_row_order (List.filter (fun x => negb (is_null (name_of x.1))) m)) in
  d <| contact_names := foldl (fun t x =>
         match name_of x.1 with
         | Some name => (write_name now (x.2, source) name (now, snapshot_key generation infix (pr_key x.1)) t).2
         | None => t
         end) (contact_names d) named |>.

(** The statements of [ingestObservedPage] after the ownership check *)
Definition ingest_rows (now : timestamp) (generation : Z) (rows : list page_row) (d : contact_tables)
    : failure + (Z * contact_tables) :=
  match stage now generation rows d with
  | inl e => inl e
  | inr d1 =>
      let d2 := create_missing now MappingSource.OPENWA_CONTACT (missing_rows rows d1) d1 in
      match record_evidence generation rows d2 with
      | inl e => inl e
      | inr d3 =>
          let d4 := map_phones now rows d3 in
          let m := matched rows d4 in
          let d5 := write_names now generation NameSource.OPENWA_CONTACT_NAME "contact:" pr_contact_name m d4 in
          let d6 := write_names now generation NameSource.OPENWA_PUSH_NAME "push:" pr_push_name m d5 in
          let d7 := project_contacts m.*2 d6 in
          inr (project_members (CONTACT_LEGACY_MEMBER_FANOUT_ENABLED cfg) now m.*2 d7)
      end
  end.

(** The answer: how many contacts were observed and how many members got another name *)
Definition ingestObservedPage (now : timestamp) (drawn : nat -> uuid) (generation : Z) (leaseToken : uuid)
    (page : list openwa_contact) (d : contact_tables) : (failure + (Z * Z)) * contact_tables :=
  if bool_decide (page = []) then (inr (0, 0), d)
  else match renew now generation leaseToken d with
       | inl e => (inl e, d)
       | inr d1 =>
           match ingest_rows now generation (page_rows drawn page) d1 with
           | inl e => (inl e, d)
           | inr (enriched, d2) => (inr (Z.of_nat (length page), enriched), d2)
           end
       end.

(** *** [reconcileObservedIdentities] *)

(** The identities that a phone was seen with, in one generation *)
Definition seen_with (generation : Z) (d : contact_tables) (phone : string) : list identity_key :=
  map (fun kv => kv.1.2)
    (select_where (fun k p => (k.1 =? generation) && bool_decide (p = phone)) (contact_identity_evidence d)).

(** The contacts to merge: that of an identity, and that of its phone, when the phone was
    seen with no other identity *)
Definition merge_edges (generation : Z) (d : contact_tables) : list (uuid * uuid) :=
  omap (fun kv =>
    let '((_, k), phone) := kv in
    l ← contact_of d k;
    r ← contact_of d (Evidence.phone_key phone);
    if bool_decide (length (seen_with generation d phone) = 1%nat) && negb (bool_decide (l = r))
    then Some (l, r) else None)
    (select_where (fun k _ => k.1 =? generation) (contact_identity_evidence d)).

Definition nodes (edges : list (uuid * uuid)) : list uuid := remove_dups (map fst (undirected edges)).

(** SELECT node, min(root) FROM reach GROUP BY node *)
Definition component (edges : list (uuid * uuid)) (node : uuid) : option uuid :=
  minimum (List.filter (fun root => bool_decide (node ∈ reach (undirected edges) root)) (nodes edges)).

Definition created_at (d : contact_tables) (id : uuid) : timestamp :=
  default 0 (ct_created_at <$> contacts d !! id).

(** ORDER BY created_at, node *)
Definition age_order (d : contact_tables) (a b : uuid) : bool :=
  (created_at d a <? created_at d b) || ((created_at d a =? created_at d b) && (a <=? b)%positive).

Definition members_of (edges : list (uuid * uuid)) (d : contact_tables) (node : uuid) : list uuid :=
  List.filter (fun n => bool_decide (component edges n = component edges node) && negb (is_null (contacts d !! n)))
    (nodes edges).

(** first_value(node) OVER (PARTITION BY component_id ORDER BY created_at, node) *)
Definition winner (edges : list (uuid * uuid)) (d : contact_tables) (node : uuid) : option uuid :=
  head (order_by (age_order d) (members_of edges d node)).

(** [contact_merge_plan]: from each contact that is merged away to the one that stays *)
Definition merge_plan (edges : list (uuid * uuid)) (d : contact_tables) : gmap uuid uuid :=
  list_to_map (omap (fun node =>
    if is_null (contacts d !! node) then None
    else w ← winner edges d node; if bool_decide (w = node) then None else Some (node, w)) (nodes edges)).

(** Where a contact ends up *)
Definition target (plan : gmap uuid uuid) (id : uuid) : uuid := default id (plan !! id).

Definition winners (plan : gmap uuid uuid) : list uuid := remove_dups (map_to_list plan).*2.

(** The names of a winner and of those merged into it, latest first *)
Definition name_order (a b : (uuid * NameSource.t) * contact_name) : bool :=
  if bool_decide (stamp a.2 = stamp b.2)
  then if bool_decide (a.1.1 = b.1.1) then text_leb (cn_name_value a.2) (cn_name_value b.2)
       else (a.1.1 <=? b.1.1)%positive
  else older (stamp b.2) (stamp a.2).

Definition best_names (plan : gmap uuid uuid) (d : contact_tables) : list ((uuid * NameSource.t) * contact_name) :=
  distinct_on (fun x => (target plan x.1.1, x.1.2))
    (order_by name_order
       (List.filter (fun x => mem (target plan x.1.1) (winners plan)) (map_to_list (contact_names d)))).

(** INSERT .. ON CONFLICT (contact_id, name_source) DO UPDATE .. WHERE not newer *)
Definition keep_name (plan : gmap uuid uuid) (t : gmap (uuid * NameSource.t) contact_name)
    (x : (uuid * NameSource.t) * contact_name) : gmap (uuid * NameSource.t) contact_name :=
  let k := (target plan x.1.1, x.1.2) in
  match t !! k with
  | None => <[k := x.2]> t
  | Some n => if negb (older (stamp x.2) (stamp n))
              then <[k := ContactName (cn_name_value x.2)
                            (Z.min (cn_first_observed_at n) (cn_first_observed_at x.2))
                            (Z.max (cn_last_observed_at n) (cn_last_observed_at x.2))
                            (cn_source_observed_at x.2) (cn_source_observation_key x.2)]> t
              else t
  end.

Definition merged_away (plan : gmap uuid uuid) (id : uuid) : bool := negb (is_null (plan !! id)).

(** The contacts that end up in [id], itself included *)
Definition merged_into (plan : gmap uuid uuid) (d : contact_tables) (id : uuid) : list contact :=
  (select_where (fun c _ => bool_decide (target plan c = id)) (contacts d)).*2.

Definition widen_contact (plan : gmap uuid uuid) (d : contact_tables) (id : uuid) (c : contact) : contact :=
  if mem id (winners plan)
  then c <| ct_first_observed_at := foldr (fun x => Z.min (ct_first_observed_at x)) (ct_first_observed_at c) (merged_into plan d id) |>
         <| ct_last_observed_at := foldr (fun x => Z.max (ct_last_observed_at x)) (ct_last_observed_at c) (merged_into plan d id) |>
  else c.

(** The names, the identifiers, the members and the contacts follow the plan. *)
Definition apply_plan (plan : gmap uuid uuid) (d : contact_tables) : contact_tables :=
  let d1 := d <| contact_names := delete_where (fun k _ => merged_away plan k.1)
                   (foldl (keep_name plan) (contact_names d) (best_names plan d)) |> in
  let d2 := d1 <| contact_identifiers := (fun i => i <| ci_contact_id := target plan (ci_contact_id i) |>)
                                           <$> contact_identifiers d1 |> in
  let d3 := d2 <| group_members := (fun m => m <| gm_contact_id := target plan <$> gm_contact_id m |>)
                                     <$> group_members d2 |> in
  let d4 := d3 <| contacts := map_imap (fun id c => Some (widen_contact plan d3 id c)) (contacts d3) |> in
  d4 <| contacts := delete_where (fun id _ => merged_away plan id) (contacts d4) |>.

Record merge_result := MergeResult { mr_merged : Z; mr_conflicts : Z; mr_enriched : Z }.

(** The evidence rows whose phone was seen with several identities *)
Definition conflicts (generation : Z) (d : contact_tables) : Z :=
  count_where (fun k phone => (k.1 =? generation) && (1 <? length (seen_with generation d phone))%nat)
    (contact_identity_evidence d).

Definition reconcileObservedIdentities (now : timestamp) (generation : Z) (leaseToken : uuid) (d : contact_tables)
    : (failure + merge_result) * contact_tables :=
  match renew now generation leaseToken d with
  | inl e => (inl e, d)
  | inr d1 =>
      let plan := merge_plan (merge_edges generation d1) d1 in
      let d2 := project_contacts (winners plan) (apply_plan plan d1) in
      let '(enriched, d3) := project_members (CONTACT_LEGACY_MEMBER_FANOUT_ENABLED cfg) now (winners plan) d2 in
      (inr (MergeResult (Z.of_nat (size plan)) (conflicts generation d3) enriched),
       d3 <| contact_identity_evidence := delete_where (fun k _ => k.1 <=? generation) (contact_identity_evidence d3) |>)
  end.

End Repo.
End ContactRepo.

Module ObservationRepo.
Import ContactRepo.

Local Open Scope Z_scope.

Section Repo.
Context (cfg : contact_config) (nfc md5 : string -> string).

(** The identity of a sender, if a name may be kept for it *)
Definition observable (rawIdentity : string) (rawPushName : option string) : option (identity * string) :=
  let i := normalizeContactIdentity rawIdentity in
  match nid_type i with
  | IdentityType.LID | IdentityType.PHONE_JID =>
      (fun name => (i, name)) <$> normalizeContactName nfc rawPushName i
  | _ => None
  end.

(** The answer: whether the name was written.  [candidate] and [observationId] are drawn. *)
Definition observeMessageSender (now : timestamp) (candidate observationId : uuid) (drawn : identity_key -> uuid) (rq : Queue.request)
    (rawIdentity : string) (rawPushName : option string) (observedAt : timestamp) (observationKey : string)
    (d : contact_tables) : bool * contact_tables :=
  match observable rawIdentity rawPushName with
  | None => (false, d)
  | Some (i, pushName) =>
      let d1 := create_missing now MappingSource.MESSAGE_IDENTITY
                  (if is_null (contact_of d (key i)) then [(key i, candidate)] else []) d in
      let d2 := touch_identifiers now [key i] d1 in
      let d3 := Evidence.observeMessageSender cfg md5 drawn observationId rq now
                  (EvidenceInput (key i) (nid_phone i) "" None) pushName observedAt observationKey d2 in
      match contact_of d3 (key i) with
      | None => (false, d3)
      | Some c =>
          let '(accepted, names) := write_name now (c, NameSource.OPENWA_PUSH_NAME) pushName
                                      (observedAt, observationKey) (contact_names d3) in
          if accepted
          then
            let d4 := d3 <| contact_names := names |>
                         <| contacts := update_where (fun id _ => bool_decide (id = c))
                              (fun ct => ct <| ct_last_observed_at := now |>) (contacts d3) |> in
            (true, (project_members (CONTACT_LEGACY_MEMBER_FANOUT_ENABLED cfg) now [c] (project_contacts [c] d4)).2)
          else (false, d3)
      end
  end.

(** [OpenWAGroupParticipant] *)
Record participant := Participant {
  pa_id : string;
  pa_number : string;
  pa_name : option string;
  pa_isAdmin : bool;
  pa_isSuperAdmin : bool }.

Record member_input := MemberInput {
  mi_participant_id : string;
  mi_identity : identity;
  mi_participant_name : option string }.

Definition member_inputs (participants : list participant) : list member_input :=
  map (fun p => let i := normalizeContactIdentity (pa_id p) in
                MemberInput (pa_id p) i (normalizeContactName nfc (pa_name p) i)) participants.

Definition mi_key (m : member_input) : identity_key := key (mi_identity m).

Definition evidence_of (m : member_input) : evidence_input :=
  EvidenceInput (mi_key m) (nid_phone (mi_identity m)) (mi_participant_id m) (mi_participant_name m).

(** Inputs of one identity share their candidate. *)
Definition missing_members (candidate : identity_key -> uuid) (inputs : list member_input) (d : contact_tables)
    : list (identity_key * uuid) :=
  map (fun k => (k, candidate k))
    (remove_dups (List.filter (fun k => is_null (contact_identifiers d !! k)) (map mi_key inputs))).

(** The phone of a phone JID goes to the contact of the JID, unless it has one. *)
Definition member_phones (inputs : list member_input) (d : contact_tables) : list (identity_key * uuid) :=
  remove_dups (omap (fun m =>
    match nid_type (mi_identity m), nid_phone (mi_identity m) with
    | IdentityType.PHONE_JID, Some phone => (fun c => (Evidence.phone_key phone, c)) <$> contact_of d (mi_key m)
    | _, _ => None
    end) inputs).

(** What the member row of an input becomes *)
Definition resolved_member (now : timestamp) (i : member_input) (d : contact_tables) (m : group_member) : group_member :=
  match contact_of d (mi_key i) with
  | None => m
  | Some c =>
      match contacts d !! c with
      | None => m
      | Some row =>
          let fanout := CONTACT_LEGACY_MEMBER_FANOUT_ENABLED cfg in
          let m1 := m <| gm_contact_id := Some c |>
                      <| gm_evidence_identity_id := oc_id <$> observed_identities d !! mi_key i |>
                      <| gm_identity_type := Some (nid_type (mi_identity i)) |>
                      <| gm_resolved_phone_number := match nid_type (mi_identity i) with
                                                     | IdentityType.PHONE_JID => nid_phone (mi_identity i)
                                                     | _ => None
                                                     end |>
                      <| gm_participant_display_name := mi_participant_name i |> in
          let m2 := if fanout then show_member now (member_name row m1) m1 else m1 in
          let kept := m2 <| gm_display_name_updated_at := gm_display_name_updated_at m |> in
          if decide (kept = m) then m else m2
      end
  end.

Definition link_members (now : timestamp) (groupId : string) (inputs : list member_input) (d : contact_tables)
    : contact_tables :=
  d <| group_members := map_imap (fun k m =>
         Some (if bool_decide (k.1 = groupId)
               then match List.find (fun i => bool_decide (mi_participant_id i = k.2)) inputs with
                    | Some i => resolved_member now i d m
                    | None => m
                    end
               else m)) (group_members d) |>.

(** The contacts, the identifiers and the evidence of the members *)
Definition seed_contacts (now : timestamp) (candidate : identity_key -> uuid) (drawn : identity_key -> uuid)
    (ids : NameSource.t * string -> uuid) (rq : Queue.request) (groupId : string) (inputs : list member_input)
    (d : contact_tables) : contact_tables :=
  let d1 := Evidence.observeGroupMembers cfg md5 drawn ids rq now groupId (map evidence_of inputs) d in
  let d2 := create_missing now MappingSource.GROUP_PARTICIPANT (missing_members candidate inputs d1) d1 in
  let phones := member_phones inputs d2 in
  let d3 := touch_identifiers now (map mi_key inputs) d2 in
  d3 <| contact_identifiers := foldl (map_identity now MappingSource.GROUP_PARTICIPANT)
          (contact_identifiers d3) phones |>.

Definition seedGroupMembers (now : timestamp) (candidate : identity_key -> uuid) (drawn : identity_key -> uuid)
    (ids : NameSource.t * string -> uuid) (rq : Queue.request) (groupId : string) (participants : list participant)
    (d : contact_tables) : contact_tables :=
  if bool_decide (participants = []) then d
  else
    let inputs := member_inputs participants in
    link_members now groupId inputs (seed_contacts now candidate drawn ids rq groupId inputs d).

(** The member rows that [upsertGroupDetails] writes when the members of the group have
    changed: inserted and changed rows are seeded, rows of other participants deleted. *)
Definition member_row (now : timestamp) (p : participant) (old : option group_member) : group_member :=
  match old with
  | None => GroupMember (pa_number p) (pa_isAdmin p) (pa_isSuperAdmin p) None None None None (pa_name p) (pa_name p)
              (match pa_name p with Some _ => Some NameSource.GROUP_PARTICIPANT_NAME | None => None end)
              (match pa_name p with Some _ => Some now | None => None end) no_shadow now
  | Some m => m <| gm_phone_number := pa_number p |> <| gm_participant_display_name := pa_name p |>
                <| gm_is_admin := pa_isAdmin p |> <| gm_is_super_admin := pa_isSuperAdmin p |>
                <| gm_synced_at := now |>
  end.

Definition changed_member (groupId : string) (d : contact_tables) (p : participant) : bool :=
  match group_members d !! (groupId, pa_id p) with
  | None => true
  | Some m => negb (bool_decide ((gm_phone_number m, gm_participant_display_name m, gm_is_admin m, gm_is_super_admin m)
                                 = (pa_number p, pa_name p, pa_isAdmin p, pa_isSuperAdmin p)))
  end.

Definition write_members (now : timestamp) (groupId : string) (participants : list participant) (d : contact_tables)
    : contact_tables :=
  d <| group_members := foldl (fun t p => <[(groupId, pa_id p) := member_row now p (t !! (groupId, pa_id p))]> t)
         (group_members d) (List.filter (changed_member groupId d) participants) |>.

Definition replaceMembers (now : timestamp) (candidate drawn : identity_key -> uuid)
    (ids : NameSource.t * string -> uuid) (rq : Queue.request) (groupId : string) (participants : list participant)
    (d : contact_tables) : contact_tables :=
  let d1 := seedGroupMembers now candidate drawn ids rq groupId (List.filter (changed_member groupId d) participants)
              (write_members now groupId participants d) in
  d1 <| group_members := delete_where (fun k _ => bool_decide (k.1 = groupId) && negb (mem k.2 (map pa_id participants)))
          (group_members d1) |>.

End Repo.
End ObservationRepo.
