(* ===== verification/ContactLife.v ===== *)
(** * What holds of the contacts of a session

    [sound] says that every identifier, name and member belongs to a contact, and that each
    contact and each member shows the name that the precedence of
    [contact-name-resolution.sql.ts] gives; every transaction of [ContactStore] keeps it. *)

From S2P Require Import Prelude Schema SendPolicy Service ContactSchema ContactQueue ContactIdentity Relational ContactEvidence ContactStore.

Import Normalization NameResolution Names ContactRepo ObservationRepo.

Module ContactLife.

Local Open Scope Z_scope.

Definition shown (c : contact) : option string * option NameSource.t :=
  (ct_effective_display_name c, ct_display_name_source c).

Definition shown_by (m : group_member) : option string * option NameSource.t :=
  (gm_display_name m, gm_display_name_source m).

(** Nothing refers to a contact that is not there. *)
Record linked (d : contact_tables) : Prop := Linked {
  li_identifier k i : contact_identifiers d !! k = Some i -> is_Some (contacts d !! ci_contact_id i);
  li_name k n : contact_names d !! k = Some n -> is_Some (contacts d !! k.1);
  li_member k m : group_members d !! k = Some m ->
    exists c, gm_contact_id m = Some c /\ is_Some (contacts d !! c) }.

(** The contacts, the given ones aside, show their names; so do their members. *)
Definition contacts_show (ids : list uuid) (d : contact_tables) : Prop :=
  forall id c, contacts d !! id = Some c -> id ∉ ids -> shown c = effective_name d id.

Definition members_show (ids : list uuid) (d : contact_tables) : Prop :=
  forall k m c row, group_members d !! k = Some m -> gm_contact_id m = Some c -> contacts d !! c = Some row ->
    c ∉ ids -> shown_by m = member_name row m.

Record sound (fanout : bool) (d : contact_tables) : Prop := Sound {
  sd_linked : linked d;
  sd_contacts : contacts_show [] d;
  sd_members : fanout = true -> members_show [] d }.

Lemma sound_empty fanout : sound fanout empty_contacts.
Proof.
  split; [split|..].
  - intros k i. cbn. by rewrite lookup_empty.
  - intros k n. cbn. by rewrite lookup_empty.
  - intros k m. cbn. by rewrite lookup_empty.
  - intros id c. cbn. by rewrite lookup_empty.
  - intros _ k m c row. cbn. by rewrite lookup_empty.
Qed.

(** [sound] is about four tables. *)
Definition same_contacts (d d' : contact_tables) : Prop :=
  contacts d' = contacts d /\ contact_identifiers d' = contact_identifiers d /\
  contact_names d' = contact_names d /\ group_members d' = group_members d.

Lemma same_contacts_sound fanout d d' : same_contacts d d' -> sound fanout d -> sound fanout d'.
Proof.
  intros (H1 & H2 & H3 & H4) [[L1 L2 L3] C M]. unfold contacts_show, members_show, effective_name in *.
  split; [split|..]; rewrite ?H1, ?H2, ?H3, ?H4; unfold contacts_show, members_show, effective_name;
    rewrite ?H1, ?H2, ?H3, ?H4; done.
Qed.

Lemma foldl_keeps {A B} (P : A -> Prop) (f : A -> B -> A) (l : list B) (a : A) :
  P a -> (forall a x, x ∈ l -> P a -> P (f a x)) -> P (foldl f a l).
Proof.
  revert a. induction l as [|x l IH]; intros a Ha Hf; cbn; [done|]. apply IH; [apply Hf; [left|done]|].
  intros b y Hy. apply Hf. by right.
Qed.

(** *** The projection of names *)

Lemma shown_show p c : shown (show p c) = p.
Proof. by destruct p. Qed.

Lemma project_contacts_lookup ids d id :
  contacts (project_contacts ids d) !! id =
    (fun c => if mem id ids then show (effective_name d id) c else c) <$> contacts d !! id.
Proof. unfold project_contacts. cbn. rewrite map_lookup_imap. by destruct (contacts d !! id). Qed.

Lemma shown_by_show now p m : shown_by (show_member now p m) = p.
Proof. by destruct p. Qed.

Lemma member_name_show now p row m : member_name row (show_member now p m) = member_name row m.
Proof. done. Qed.

Lemma project_contacts_linked ids d : linked d -> linked (project_contacts ids d).
Proof.
  intros [L1 L2 L3].
  assert (Hc : forall id, is_Some (contacts d !! id) -> is_Some (contacts (project_contacts ids d) !! id)).
  { intros id. rewrite project_contacts_lookup. by rewrite fmap_is_Some. }
  split; [intros k i Hk; by apply Hc, (L1 k)|intros k n Hk; by apply Hc, (L2 k n)|].
  intros k m Hk. destruct (L3 k m Hk) as (c & Hm & H). exists c. by split; [|apply Hc].
Qed.

Lemma project_contacts_show ids d : contacts_show ids d -> contacts_show [] (project_contacts ids d).
Proof.
  intros H id c Hc _. rewrite project_contacts_lookup in Hc.
  destruct (contacts d !! id) as [c0|] eqn:E; [|done]. injection Hc as <-.
  destruct (mem id ids) eqn:Em; [by rewrite shown_show|]. by apply H, mem_false.
Qed.

Lemma project_contacts_members ids d : members_show ids d -> members_show ids (project_contacts ids d).
Proof.
  intros H k m c row Hk Hm Hc Hn. rewrite project_contacts_lookup in Hc.
  destruct (contacts d !! c) as [row0|] eqn:E; [|done]. injection Hc as <-.
  rewrite (proj2 (mem_false c ids) Hn). by eapply H.
Qed.

(** The members after [project_members]: the same rows, in another name *)
Lemma project_members_same fanout now ids d :
  contacts (project_members fanout now ids d).2 = contacts d /\
  contact_identifiers (project_members fanout now ids d).2 = contact_identifiers d /\
  contact_names (project_members fanout now ids d).2 = contact_names d.
Proof. unfold project_members. by destruct fanout. Qed.

Lemma project_members_lookup fanout now ids d k :
  group_members (project_members fanout now ids d).2 !! k =
    (fun m => match (if fanout : bool then stale_name ids d m else None) with
              | Some p => show_member now p m
              | None => m
              end) <$> group_members d !! k.
Proof.
  unfold project_members. destruct fanout; cbn; [|by destruct (group_members d !! k)].
  rewrite map_lookup_imap. by destruct (group_members d !! k).
Qed.

Lemma project_members_shown now ids d k m c row :
  group_members (project_members true now ids d).2 !! k = Some m -> gm_contact_id m = Some c ->
  contacts d !! c = Some row -> members_show ids d -> shown_by m = member_name row m.
Proof.
  intros Hk Hm Hrow H. rewrite project_members_lookup in Hk.
  destruct (group_members d !! k) as [m0|] eqn:E; [|done]. injection Hk as Hk.
  unfold stale_name in Hk. assert (Hc : gm_contact_id m0 = Some c).
  { rewrite <- Hm, <- Hk. by case_match. }
  rewrite Hc in Hk. cbn in Hk. rewrite Hrow in Hk. cbn in Hk.
  destruct (mem c ids) eqn:Em; cbn in Hk.
  - case_bool_decide as Eq; cbn in Hk; subst m; [done|]. by rewrite shown_by_show, member_name_show.
  - subst m. eapply H; [done..|]. by apply mem_false.
Qed.

(** After some contacts were renamed, projecting them makes everything sound. *)
Lemma project_sound fanout now ids d : linked d -> contacts_show ids d ->
  (fanout = true -> members_show ids d) ->
  sound fanout (project_members fanout now ids (project_contacts ids d)).2.
Proof.
  intros Hl Hc Hm. set (d1 := project_contacts ids d).
  pose proof (project_contacts_linked ids d Hl) as [L1 L2 L3]. fold d1 in L1, L2, L3.
  destruct (project_members_same fanout now ids d1) as (E1 & E2 & E3). split; [split|..].
  - intros k i. rewrite E1, E2. apply L1.
  - intros k n. rewrite E1, E3. apply L2.
  - intros k m Hk. rewrite E1. rewrite project_members_lookup in Hk.
    destruct (group_members d1 !! k) as [m0|] eqn:E; [|done]. injection Hk as <-.
    destruct (L3 k m0 E) as (c & Hc0 & Hs). exists c. split; [|done]. by case_match.
  - intros id c. unfold effective_name. rewrite E1, E3. apply (project_contacts_show ids d Hc).
  - intros ->. specialize (Hm eq_refl). intros k m c row Hk Hmc Hrow _. rewrite E1 in Hrow.
    eapply project_members_shown; [done..|]. by apply project_contacts_members.
Qed.

(** [sound] but for the names of some contacts and of their members *)
Record nearly (fanout : bool) (ids : list uuid) (d : contact_tables) : Prop := Nearly {
  nr_linked : linked d;
  nr_contacts : contacts_show ids d;
  nr_members : fanout = true -> members_show ids d }.

Lemma nearly_sound fanout d : nearly fanout [] d <-> sound fanout d.
Proof. split; intros [? ? ?]; by split. Qed.

Lemma nearly_more fanout ids ids' d : ids ⊆ ids' -> nearly fanout ids d -> nearly fanout ids' d.
Proof.
  intros Hi [L C M]. split; [done|..].
  - intros id c Hc Hn. apply C; [done|]. set_solver.
  - intros Hf k m c row Hk Hm Hr Hn. eapply M; [done..|]. set_solver.
Qed.

Lemma nearly_same fanout ids d d' : same_contacts d d' -> nearly fanout ids d -> nearly fanout ids d'.
Proof.
  intros (H1 & H2 & H3 & H4) [[L1 L2 L3] C M]. unfold contacts_show, members_show, effective_name in *.
  split; [split|..]; unfold contacts_show, members_show, effective_name; rewrite ?H1, ?H2, ?H3, ?H4; done.
Qed.

(** Contacts may come and their names and rows stay: what else a statement does to the
    contacts and the identifiers does not matter. *)
Lemma nearly_contacts fanout ids d d' :
  (forall id c, contacts d !! id = Some c -> exists c', contacts d' !! id = Some c' /\ shown c' = shown c) ->
  (forall id c', contacts d' !! id = Some c' -> contacts d !! id = None -> shown c' = (None, None)) ->
  (forall k i, contact_identifiers d' !! k = Some i -> is_Some (contacts d' !! ci_contact_id i)) ->
  contact_names d' = contact_names d -> group_members d' = group_members d ->
  nearly fanout ids d -> nearly fanout ids d'.
Proof.
  intros Hkeep Hnew Hid En Em [[L1 L2 L3] C M].
  assert (Hc : forall id, is_Some (contacts d !! id) -> is_Some (contacts d' !! id)).
  { intros id [c Hc]. destruct (Hkeep id c Hc) as (c' & -> & _). by eexists. }
  split; [split|..].
  - done.
  - intros k n. rewrite En. intros Hk. by apply Hc, (L2 k n).
  - intros k m. rewrite Em. intros Hk. destruct (L3 k m Hk) as (c & ? & ?). exists c. by split; [|apply Hc].
  - intros id c' Hc' Hn. unfold effective_name. rewrite En.
    destruct (contacts d !! id) as [c|] eqn:E.
    + destruct (Hkeep id c E) as (c2 & E2 & Hs). assert (c' = c2) as -> by congruence. rewrite Hs. by apply C.
    + rewrite (Hnew id c') by done.
      assert (Hnone : forall s, contact_names d !! (id, s) = None).
      { intros s. destruct (contact_names d !! (id, s)) as [n|] eqn:Es; [|done].
        apply L2 in Es as [? Es]. cbn in Es. congruence. }
      by rewrite !Hnone.
  - intros Hf k m c row'. rewrite Em. intros Hk Hm Hr Hn. destruct (L3 k m Hk) as (c2 & Hm2 & [row Hrow]).
    assert (c2 = c) as -> by congruence. destruct (Hkeep c row Hrow) as (row2 & E2 & Hs).
    assert (row' = row2) as -> by congruence. unfold member_name. unfold shown in Hs.
    injection Hs as Hs1 Hs2. rewrite Hs1, Hs2. by eapply M.
Qed.

Lemma map_identities_linked now source l t (P : uuid -> Prop) :
  (forall x, x ∈ l -> P x.2) -> (forall k i, t !! k = Some i -> P (ci_contact_id i)) ->
  forall k i, foldl (map_identity now source) t l !! k = Some i -> P (ci_contact_id i).
Proof.
  intros Hl. intros Ht. apply (foldl_keeps (fun t => forall k i, t !! k = Some i -> P (ci_contact_id i))); [done|].
  intros t' x Hx IH k i. unfold map_identity.
  destruct (t' !! x.1) as [i0|] eqn:E.
  - intros [[<- <-]|[_ Hk]]%lookup_insert_Some; [exact (IH x.1 i0 E)|by apply (IH k)].
  - intros [[<- <-]|[_ Hk]]%lookup_insert_Some; [by apply Hl|by apply (IH k)].
Qed.

(** A mapped identity has an identifier afterwards, and keeps the one it had. *)
Lemma map_identities_dom now source l t k : is_Some (t !! k) \/ k ∈ l.*1 ->
  is_Some (foldl (map_identity now source) t l !! k).
Proof.
  revert t. induction l as [|x l IH]; intros t; cbn [foldl fmap list_fmap].
  { by intros [H|H%elem_of_nil]. }
  intros H. apply IH. unfold map_identity. destruct (decide (k = x.1)) as [->|Hne].
  - left. destruct (t !! x.1); rewrite lookup_insert_eq; by eexists.
  - destruct H as [H|[->|H]%elem_of_cons]; [left|done|by right].
    destruct (t !! x.1); by rewrite lookup_insert_ne.
Qed.

Lemma map_identities_keep now source l t k i : t !! k = Some i ->
  exists i', foldl (map_identity now source) t l !! k = Some i' /\ ci_contact_id i' = ci_contact_id i.
Proof.
  revert t i. induction l as [|x l IH]; intros t i Hk; cbn [foldl]; [by exists i|].
  unfold map_identity at 2. destruct (decide (k = x.1)) as [->|Hne].
  - rewrite Hk. destruct (IH (<[x.1:=i <| ci_last_observed_at := now |>]> t) (i <| ci_last_observed_at := now |>))
      as (i' & H1 & H2); [by rewrite lookup_insert_eq|]. by exists i'.
  - destruct (t !! x.1) as [i0|]; apply IH; by rewrite lookup_insert_ne.
Qed.

Lemma add_contacts_lookup now l t id c :
  foldl (fun t (k : identity_key * uuid) => insert_absent k.2 (new_contact now) t) t l !! id = Some c <->
  t !! id = Some c \/ (t !! id = None /\ id ∈ l.*2 /\ c = new_contact now).
Proof.
  revert t. induction l as [|x l IH]; intros t; cbn [foldl].
  - split; [by left|]. by intros [H|(_ & H%elem_of_nil & _)].
  - rewrite IH, insert_absent_lookup. destruct (t !! id) as [c0|] eqn:E; cbn [fmap list_fmap].
    + split; [intros [H|[? _]]; [by left|done]|intros [H|[? _]]; [by left|done]].
    + case_bool_decide as Ei.
      * subst. split; [intros [[= <-]|[? _]]; [right; split_and!; [done|left|done]|done]|].
        intros [?|(_ & _ & ->)]; [done|by left].
      * rewrite elem_of_cons. split; [intros [?|(_ & ? & ?)]; [done|right; by split_and!; [|right|]]|].
        intros [?|(_ & [?|?] & ?)]; [done|done|by right].
Qed.

Lemma create_missing_nearly fanout ids now source missing d :
  nearly fanout ids d -> nearly fanout ids (create_missing now source missing d).
Proof.
  intros H. apply (nearly_contacts fanout ids d); [..|done|done|done].
  - intros id c Hc. exists c. split; [|done]. cbn. apply add_contacts_lookup. by left.
  - intros id c' Hc' Hn. cbn in Hc'. apply add_contacts_lookup in Hc' as [?|(_ & _ & ->)]; [congruence|done].
  - cbn. apply (map_identities_linked _ _ _ _ (fun id => is_Some (foldl _ (contacts d) missing !! id))).
    + intros x Hx. destruct (contacts d !! x.2) as [c|] eqn:E.
      * exists c. apply add_contacts_lookup. by left.
      * exists (new_contact now). apply add_contacts_lookup. right. split_and!; [done| |done].
        apply list_elem_of_fmap. by exists x.
    + intros k i Hk. destruct (li_identifier _ (nr_linked _ _ _ H) k i Hk) as [c Hc].
      exists c. apply add_contacts_lookup. by left.
Qed.

(** Only names of the given contacts change. *)
Lemma nearly_names fanout ids d d' :
  contacts d' = contacts d -> contact_identifiers d' = contact_identifiers d -> group_members d' = group_members d ->
  (forall k n, contact_names d' !! k = Some n -> is_Some (contacts d !! k.1)) ->
  (forall id s, id ∉ ids -> contact_names d' !! (id, s) = contact_names d !! (id, s)) ->
  nearly fanout ids d -> nearly fanout ids d'.
Proof.
  intros Ec Ei Em Hn Hs [[L1 L2 L3] C M]. split; [split|..]; unfold contacts_show, members_show; rewrite ?Ec, ?Ei, ?Em; try done.
  intros id c Hc Hid. unfold effective_name. rewrite !Hs by done. by apply C.
Qed.

Lemma write_name_other now k name at_ t k' : k' <> k -> (write_name now k name at_ t).2 !! k' = t !! k'.
Proof.
  intros Hne. unfold write_name. destruct (t !! k) as [n|]; [destruct (older _ _)|]; cbn;
    by rewrite ?lookup_insert_ne by done.
Qed.

Lemma write_name_nearly fanout ids now id s name at_ d t : id ∈ ids -> is_Some (contacts d !! id) ->
  nearly fanout ids (d <| contact_names := t |>) ->
  nearly fanout ids (d <| contact_names := (write_name now (id, s) name at_ t).2 |>).
Proof.
  intros Hid Hc H. apply (nearly_names _ _ (d <| contact_names := t |>)); [done..| | |done].
  - intros k n. cbn. destruct (decide (k = (id, s))) as [->|Hne]; [done|].
    rewrite write_name_other by done. apply (li_name _ (nr_linked _ _ _ H)).
  - intros id' s' Hn. cbn. apply write_name_other. intros [= -> ->]. done.
Qed.

Lemma write_names_nearly fanout ids md5 now generation source infix f m d :
  (forall x, x ∈ m -> x.2 ∈ ids /\ is_Some (contacts d !! x.2)) ->
  nearly fanout ids d -> nearly fanout ids (write_names md5 now generation source infix f m d).
Proof.
  intros Hm H. unfold write_names. set (named := distinct_on _ _).
  assert (Hn : forall x, x ∈ named -> x ∈ m).
  { intros x Hx%distinct_on_elem. rewrite order_by_elem, list_elem_of_In, filter_In in Hx.
    apply list_elem_of_In, Hx. }
  apply (foldl_keeps (fun t => nearly fanout ids (d <| contact_names := t |>))).
  - by destruct d.
  - intros t x Hx Ht. destruct (f x.1) as [name|]; [|done]. destruct (Hm x (Hn x Hx)) as [H1 H2].
    by apply write_name_nearly.
Qed.

Lemma touch_identifiers_nearly fanout ids now keys d :
  nearly fanout ids d -> nearly fanout ids (touch_identifiers now keys d).
Proof.
  intros H. apply (nearly_contacts fanout ids d); [by eexists|cbn; congruence| |done|done|done].
  intros k i. cbn. rewrite lookup_update_where. destruct (contact_identifiers d !! k) as [i0|] eqn:E; [|done].
  intros [= <-]. destruct (li_identifier _ (nr_linked _ _ _ H) k i0 E) as [c Hc]. exists c. by destruct (mem k keys).
Qed.

(** A contact that an identity is mapped to *)
Lemma contact_of_exists fanout ids d k c : nearly fanout ids d -> contact_of d k = Some c -> is_Some (contacts d !! c).
Proof.
  intros H. unfold contact_of. destruct (contact_identifiers d !! k) as [i|] eqn:E; [|done].
  intros [= <-]. by apply (li_identifier _ (nr_linked _ _ _ H) k).
Qed.

Lemma map_identities_nearly fanout ids now source l d :
  (forall x, x ∈ l -> is_Some (contacts d !! x.2)) -> nearly fanout ids d ->
  nearly fanout ids (d <| contact_identifiers := foldl (map_identity now source) (contact_identifiers d) l |>).
Proof.
  intros Hl H. apply (nearly_contacts fanout ids d); [by eexists|cbn; congruence| |done|done|done].
  cbn. apply (map_identities_linked _ _ _ _ (fun id => is_Some (contacts d !! id))); [done|].
  apply (li_identifier _ (nr_linked _ _ _ H)).
Qed.

(** A column of the contacts that no name depends on *)
Lemma contact_column_nearly fanout ids (P : uuid -> contact -> bool) f d : (forall c, shown (f c) = shown c) ->
  nearly fanout ids d -> nearly fanout ids (d <| contacts := update_where P f (contacts d) |>).
Proof.
  intros Hf H. apply (nearly_contacts fanout ids d); [| | |done|done|done].
  - intros id c Hc. cbn. rewrite lookup_update_where, Hc. eexists. split; [done|]. by destruct (P id c).
  - intros id c. cbn. rewrite lookup_update_where. by destruct (contacts d !! id).
  - intros k i Hk. cbn in *. rewrite lookup_update_where, fmap_is_Some. by apply (li_identifier _ (nr_linked _ _ _ H) k).
Qed.

Lemma matched_contacts fanout ids rows d x : nearly fanout ids d -> x ∈ matched rows d -> is_Some (contacts d !! x.2).
Proof.
  intros H (r & Hr & E)%list_elem_of_omap. destruct (contact_of d (pr_key r)) as [c|] eqn:Ec; [|done].
  injection E as <-. by eapply contact_of_exists.
Qed.

Lemma map_phones_nearly fanout ids now rows d : nearly fanout ids d -> nearly fanout ids (map_phones now rows d).
Proof.
  intros H. unfold map_phones.
  pose proof (touch_identifiers_nearly fanout ids now (map (fun x => pr_key x.1) (matched rows d)) d H) as H1.
  set (d1 := touch_identifiers _ _ d) in *.
  pose proof (contact_column_nearly fanout ids (fun id _ => mem id (matched rows d).*2)
    (fun c => c <| ct_last_observed_at := now |>) d1 ltac:(done) H1) as H2.
  set (d2 := d1 <| contacts := _ |>) in *.
  apply (map_identities_nearly fanout ids now MappingSource.OPENWA_CONTACT_PHONE (phone_rows rows d) d2); [|done].
  intros x Hx. unfold d2. cbn. rewrite lookup_update_where, fmap_is_Some.
  unfold phone_rows in Hx. apply list_elem_of_fmap in Hx as (y & -> & Hy%distinct_on_elem). cbn.
  rewrite order_by_elem, list_elem_of_omap in Hy. destruct Hy as (m & Hm & E).
  destruct (pr_phone m.1); [|done]. injection E as <-. cbn.
  destruct (contact_of d _) as [c|] eqn:Ec; cbn; [by eapply contact_of_exists|by eapply matched_contacts].
Qed.

(** *** The transactions *)

Lemma renew_same now generation token d d' : renew now generation token d = inr d' -> same_contacts d d'.
Proof.
  unfold renew. destruct (sync_state d) as [st|]; [|done]. destruct (owned _ _ _ _); [|done]. by intros [= <-].
Qed.

Lemma stage_same cfg md5 now generation rows d d' : stage cfg md5 now generation rows d = inr d' -> same_contacts d d'.
Proof.
  unfold stage. destruct (negb _); [by intros [= <-]|]. destruct (is_null _); [done|].
  destruct (forallb _ _); [|done]. by intros [= <-].
Qed.

Lemma record_evidence_same generation rows d d' : record_evidence generation rows d = inr d' -> same_contacts d d'.
Proof. unfold record_evidence. case_bool_decide; [|done]. by intros [= <-]. Qed.

Lemma ingest_sound cfg nfc md5 now drawn generation token page d :
  sound (CONTACT_LEGACY_MEMBER_FANOUT_ENABLED cfg) d ->
  sound (CONTACT_LEGACY_MEMBER_FANOUT_ENABLED cfg)
    (ingestObservedPage cfg nfc md5 now drawn generation token page d).2.
Proof.
  intros H%nearly_sound. set (fanout := CONTACT_LEGACY_MEMBER_FANOUT_ENABLED cfg) in *.
  unfold ingestObservedPage. case_bool_decide; [by apply nearly_sound|].
  destruct (renew _ _ _ _) as [e|d0] eqn:E0; [by apply nearly_sound|]. apply renew_same in E0.
  set (rows := page_rows nfc drawn page). unfold ingest_rows.
  destruct (stage _ _ _ _ _ _) as [e|d1] eqn:E1; [by apply nearly_sound|]. apply stage_same in E1.
  pose proof (nearly_same _ _ _ _ E1 (nearly_same _ _ _ _ E0 H)) as H1.
  destruct (record_evidence _ _ _) as [e|d3] eqn:E3; [by apply nearly_sound|]. apply record_evidence_same in E3.
  pose proof (nearly_same _ _ _ _ E3 (create_missing_nearly _ _ now MappingSource.OPENWA_CONTACT (missing_rows rows d1) _ H1)) as H3.
  pose proof (map_phones_nearly _ _ now rows _ H3) as H4. set (d4 := map_phones now rows d3) in *.
  set (ids := (matched rows d4).*2).
  assert (Hids : forall x, x ∈ matched rows d4 -> x.2 ∈ ids /\ is_Some (contacts d4 !! x.2)).
  { intros x Hx. split; [apply list_elem_of_fmap; by exists x|by eapply matched_contacts]. }
  apply (nearly_more _ _ ids) in H4; [|set_solver].
  pose proof (write_names_nearly fanout ids md5 now generation NameSource.OPENWA_CONTACT_NAME "contact:"
    pr_contact_name _ d4 Hids H4) as H5.
  pose proof (write_names_nearly fanout ids md5 now generation NameSource.OPENWA_PUSH_NAME "push:"
    pr_push_name _ (write_names md5 now generation NameSource.OPENWA_CONTACT_NAME "contact:" pr_contact_name _ d4)
    Hids H5) as H6.
  match type of H6 with nearly _ _ ?d6 => destruct H6 as [L C M];
    pose proof (project_sound fanout now ids d6 L C M) as Hr; fold fanout; fold ids;
    by destruct (project_members fanout now ids (project_contacts ids d6)) end.
Qed.

(** The evidence writer leaves the contacts alone. *)
Lemma evidence_members_same cfg md5 drawn ids rq now groupId inputs d :
  same_contacts d (Evidence.observeGroupMembers cfg md5 drawn ids rq now groupId inputs d).
Proof.
  unfold Evidence.observeGroupMembers, Evidence.member_evidence. destruct (_ || _); [done|]. cbv zeta.
  by Evidence.strip_requests.
Qed.

Lemma evidence_sender_same cfg md5 drawn id rq now input name at_ k d :
  same_contacts d (Evidence.observeMessageSender cfg md5 drawn id rq now input name at_ k d).
Proof.
  unfold Evidence.observeMessageSender, Evidence.sender_evidence. destruct (negb _); [done|]. Evidence.strip_requests.
  by destruct (Evidence.identity_id _ _).
Qed.

Lemma observe_sound cfg nfc md5 now candidate observationId drawn rq rawIdentity rawName observedAt k d :
  sound (CONTACT_LEGACY_MEMBER_FANOUT_ENABLED cfg) d ->
  sound (CONTACT_LEGACY_MEMBER_FANOUT_ENABLED cfg)
    (observeMessageSender cfg nfc md5 now candidate observationId drawn rq rawIdentity rawName observedAt k d).2.
Proof.
  intros H%nearly_sound. set (fanout := CONTACT_LEGACY_MEMBER_FANOUT_ENABLED cfg) in *.
  unfold observeMessageSender. destruct (observable _ _ _) as [[i name]|]; [|by apply nearly_sound].
  set (missing := if is_null (contact_of d (key i)) then _ else _).
  pose proof (create_missing_nearly _ _ now MappingSource.MESSAGE_IDENTITY missing d H) as H1.
  pose proof (touch_identifiers_nearly _ _ now [key i] _ H1) as H2.
  set (d2 := touch_identifiers _ _ _) in *. set (input := EvidenceInput _ _ _ _).
  pose proof (nearly_same _ _ _ _ (evidence_sender_same cfg md5 drawn observationId rq now input name observedAt k d2) H2) as H3.
  set (d3 := Evidence.observeMessageSender _ _ _ _ _ _ _ _ _ _ _) in *.
  destruct (contact_of d3 (key i)) as [c|] eqn:Ec; [|by apply nearly_sound].
  pose proof (contact_of_exists _ _ _ _ _ H3 Ec) as Hc.
  pose proof (write_name_nearly fanout [c] now c NameSource.OPENWA_PUSH_NAME name (observedAt, k) d3 (contact_names d3)
    ltac:(left) Hc) as H4.
  destruct (write_name _ _ _ _ _) as [accepted names]. cbn [snd] in H4.
  destruct accepted; [|by apply nearly_sound]. cbn [snd].
  assert (H5 : nearly fanout [c] (d3 <| contact_names := names |>)).
  { apply H4. apply (nearly_more _ []); [set_solver|]. by destruct d3. }
  set (d5 := d3 <| contact_names := names |>) in *.
  pose proof (contact_column_nearly fanout [c] (fun id _ => bool_decide (id = c))
    (fun ct => ct <| ct_last_observed_at := now |>) d5 ltac:(done) H5) as [L C M].
  exact (project_sound fanout now [c] _ L C M).
Qed.

(** *** Members *)

Section Members.
Context (cfg : contact_config) (nfc md5 : string -> string).
Context (now : timestamp) (candidate drawn : identity_key -> uuid) (ids : NameSource.t * string -> uuid) (rq : Queue.request) (groupId : string).

Abbreviation fanout := (CONTACT_LEGACY_MEMBER_FANOUT_ENABLED cfg).
Abbreviation seed := (seed_contacts cfg md5 now candidate drawn ids rq groupId).

(** Seeding does not look at the member rows. *)
Lemma seed_members_apart inputs t d :
  seed inputs (d <| group_members := t |>) = (seed inputs d) <| group_members := t |>.
Proof.
  unfold seed_contacts, Evidence.observeGroupMembers. destruct (_ || _); [done|]. cbv zeta.
  unfold Evidence.request_projections. destruct (CONTACT_PROJECTION_SHADOW_ENABLED cfg); [|done].
  set (e := Evidence.member_evidence _ _ _ _ _ _ d).
  change (Evidence.member_evidence _ _ _ _ _ _ (d <| group_members := t |>)) with (e <| group_members := t |>).
  change (Evidence.inputIdentityIds _ (e <| group_members := t |>)) with (Evidence.inputIdentityIds (map evidence_of inputs) e).
  by rewrite Queue.enqueue_members_apart.
Qed.

Lemma seed_nearly inputs d : nearly fanout [] d -> nearly fanout [] (seed inputs d).
Proof.
  intros H. unfold seed_contacts.
  pose proof (nearly_same _ _ _ _ (evidence_members_same cfg md5 drawn ids rq now groupId (map evidence_of inputs) d) H) as H1.
  set (d1 := Evidence.observeGroupMembers _ _ _ _ _ _ _ _ _) in *.
  pose proof (create_missing_nearly _ _ now MappingSource.GROUP_PARTICIPANT (missing_members candidate inputs d1) _ H1) as H2.
  set (d2 := create_missing _ _ _ _) in *.
  pose proof (touch_identifiers_nearly _ _ now (map mi_key inputs) _ H2) as H3.
  apply map_identities_nearly; [|done]. intros x Hx. change (is_Some (contacts d2 !! x.2)).
  unfold member_phones in Hx. rewrite elem_of_remove_dups, list_elem_of_omap in Hx.
  destruct Hx as (i & Hi & E). destruct (nid_type (mi_identity i)); try done.
  destruct (nid_phone (mi_identity i)); [|done]. destruct (contact_of d2 (mi_key i)) as [c|] eqn:Ec; [|done].
  injection E as <-. by eapply contact_of_exists.
Qed.

Lemma seed_keeps_contacts inputs d id c : contacts d !! id = Some c -> contacts (seed inputs d) !! id = Some c.
Proof.
  intros H. unfold seed_contacts.
  destruct (evidence_members_same cfg md5 drawn ids rq now groupId (map evidence_of inputs) d) as (Ec & _).
  cbn. apply add_contacts_lookup. left. by rewrite Ec.
Qed.

(** Afterwards every input has a contact. *)
Lemma seed_covers inputs d i : i ∈ inputs -> is_Some (contact_of (seed inputs d) (mi_key i)).
Proof.
  intros Hi. unfold contact_of. apply fmap_is_Some. unfold seed_contacts.
  set (d1 := Evidence.observeGroupMembers _ _ _ _ _ _ _ _ _). cbn.
  apply map_identities_dom. left. rewrite lookup_update_where, fmap_is_Some.
  apply map_identities_dom. destruct (contact_identifiers d1 !! mi_key i) as [x|] eqn:E; [left; by eexists|right].
  unfold missing_members. apply list_elem_of_fmap. exists (mi_key i, candidate (mi_key i)). split; [done|].
  apply list_elem_of_fmap. exists (mi_key i). split; [done|].
  apply elem_of_remove_dups. apply list_elem_of_In, filter_In. split; [|by rewrite E].
  apply list_elem_of_In, list_elem_of_fmap. by exists i.
Qed.

Lemma resolved_member_spec i d m c row : contact_of d (mi_key i) = Some c -> contacts d !! c = Some row ->
  gm_contact_id (resolved_member cfg now i d m) = Some c /\
  (fanout = true -> shown_by (resolved_member cfg now i d m) = member_name row (resolved_member cfg now i d m)).
Proof.
  intros Hc Hrow. unfold resolved_member. rewrite Hc, Hrow. cbv zeta.
  set (m1 := m <| gm_contact_id := _ |> <| gm_evidence_identity_id := _ |> <| gm_identity_type := _ |>
               <| gm_resolved_phone_number := _ |> <| gm_participant_display_name := _ |>).
  set (m2 := if fanout then _ else m1).
  assert (H2 : gm_contact_id m2 = Some c /\ (fanout = true -> shown_by m2 = member_name row m2)).
  { unfold m2. destruct fanout; [|done]. split; [done|]. intros _. by rewrite shown_by_show, member_name_show. }
  destruct (decide _) as [E|]; [|done]. set (kept := m2 <| gm_display_name_updated_at := _ |>) in E.
  change (gm_contact_id kept = Some c /\ (fanout = true -> shown_by kept = member_name row kept)) in H2.
  by rewrite E in H2.
Qed.

Lemma write_members_other participants d g p :
  g <> groupId \/ p ∉ map pa_id (List.filter (changed_member groupId d) participants) ->
  group_members (write_members now groupId participants d) !! (g, p) = group_members d !! (g, p).
Proof.
  intros Hk. cbn. set (l := List.filter _ _) in *.
  apply (foldl_keeps (fun t => t !! (g, p) = group_members d !! (g, p))); [done|].
  intros t x Hx Ht. rewrite lookup_insert_ne; [done|]. intros [= Hg Hp]. destruct Hk as [Hk|Hk]; [congruence|].
  apply Hk. rewrite <- Hp. apply list_elem_of_fmap. by exists x.
Qed.

Lemma delete_members_sound P d : sound fanout d ->
  sound fanout (d <| group_members := delete_where P (group_members d) |>).
Proof.
  intros [[L1 L2 L3] C M]. split; [split|..]; [done|done| |done|].
  - intros k m [Hk _]%delete_where_Some. by apply (L3 k).
  - intros Hf k m c row [Hk _]%delete_where_Some. by apply (M Hf k).
Qed.

Lemma replaceMembers_sound participants d : sound fanout d ->
  sound fanout (replaceMembers cfg nfc md5 now candidate drawn ids rq groupId participants d).
Proof.
  intros H%nearly_sound. unfold replaceMembers, seedGroupMembers.
  set (l := List.filter (changed_member groupId d) participants). set (inputs := member_inputs nfc l).
  set (d1 := write_members now groupId participants d).
  assert (H0 : nearly fanout [] (d <| group_members := ∅ |>)).
  { destruct H as [[L1 L2 L3] C M]. split; [split|..]; [done|done| |done|].
    - intros k m. cbn. by rewrite lookup_empty.
    - intros _ k m c row. cbn. by rewrite lookup_empty. }
  apply (seed_nearly inputs) in H0. rewrite seed_members_apart in H0.
  assert (Hd1 : seed inputs d1 = (seed inputs d) <| group_members := group_members d1 |>).
  { change d1 with (d <| group_members := group_members d1 |>) at 1. apply seed_members_apart. }
  set (D := seed inputs d) in *.
  assert (Hcore : forall t : gmap (string * string) group_member,
    (forall k m, t !! k = Some m -> exists c row, gm_contact_id m = Some c /\ contacts D !! c = Some row /\
       (fanout = true -> shown_by m = member_name row m)) ->
    sound fanout (D <| group_members := t |>)).
  { intros t Ht. destruct H0 as [[L1 L2 _] C _]. split; [split|..]; [done|done| |done|].
    - intros k m Hk. destruct (Ht k m Hk) as (c & row & ? & Hr & _). exists c. by split; [|eexists].
    - intros Hf k m c row Hk Hm Hr _. destruct (Ht k m Hk) as (c' & row' & ? & Hr' & Hs).
      assert (c' = c) as -> by congruence. change (contacts D !! c = Some row) in Hr. assert (row' = row) as -> by congruence. by apply Hs. }
  assert (Hold : forall k m, group_members d !! k = Some m -> exists c row, gm_contact_id m = Some c /\
    contacts D !! c = Some row /\ (fanout = true -> shown_by m = member_name row m)).
  { intros k m Hk. destruct (li_member _ (nr_linked _ _ _ H) k m Hk) as (c & Hm & [row Hr]). exists c, row.
    split_and!; [done|by apply seed_keeps_contacts|]. intros Hf. by apply (nr_members _ _ _ H Hf k m c row); [..|set_solver]. }
  apply delete_members_sound. case_bool_decide as El.
  { assert (Heq : d1 = d) by (unfold d1, write_members; fold l; rewrite El; by destruct d).
    rewrite Heq. by apply nearly_sound. }
  unfold link_members. fold inputs. rewrite Hd1. cbn [group_members].
  apply (Hcore (map_imap _ (group_members d1))). intros [g p] m Hk. rewrite map_lookup_imap in Hk.
  destruct (group_members d1 !! (g, p)) as [m0|] eqn:E0; [|done]. cbn in Hk. injection Hk as <-.
  case_bool_decide as Eg; [subst g|by apply (Hold (g, p)); rewrite <- E0; symmetry; apply write_members_other; left].
  destruct (List.find _ inputs) as [i|] eqn:Ef.
  - apply find_some in Ef as [Hi _]. apply list_elem_of_In in Hi.
    destruct (seed_covers inputs d i Hi) as [c Hc].
    destruct (contact_of_exists fanout [] (D <| group_members := ∅ |>) (mi_key i) c H0 Hc) as [row Hrow].
    change (contacts D !! c = Some row) in Hrow.
    assert (Hc1 : contact_of (D <| group_members := group_members d1 |>) (mi_key i) = Some c)
      by (unfold contact_of in *; exact Hc).
    destruct (resolved_member_spec i (D <| group_members := group_members d1 |>) m0 c row Hc1 Hrow) as [R1 R2].
    by exists c, row.
  - apply (Hold (groupId, p)). rewrite <- E0. symmetry. apply write_members_other. right. fold l.
    intros (x & -> & Hx)%list_elem_of_fmap. pose proof (find_none _ _ Ef) as Hn.
    assert (Hin : In (MemberInput (pa_id x) (normalizeContactIdentity (pa_id x))
                        (normalizeContactName nfc (pa_name x) (normalizeContactIdentity (pa_id x)))) inputs).
    { apply list_elem_of_In, list_elem_of_fmap. by exists x. }
    specialize (Hn _ Hin). cbn in Hn. by rewrite bool_decide_true in Hn.
Qed.

End Members.

End ContactLife.
