(* ===== verification/ContactMerge.v ===== *)
(** * Merging contacts

    What [reconcileObservedIdentities] of [ContactStore] does: the contacts that the evidence
    of a generation connects become one, and nothing else is joined or lost. *)

From S2P Require Import Prelude Schema SendPolicy Service ContactSchema ContactQueue ContactIdentity Relational ContactEvidence ContactStore ContactLife.
From stdpp Require Import relations.

Import Normalization NameResolution Names ContactRepo ObservationRepo ContactLife.

Module ContactMerge.

Local Open Scope Z_scope.

(** *** The plan *)

Section Plan.
Context (edges : list (uuid * uuid)) (d : contact_tables).

Abbreviation joined := (connected edges).

Lemma nodes_elem n : n ∈ nodes edges <-> exists m, edge (undirected edges) n m.
Proof.
  unfold nodes. rewrite elem_of_remove_dups. split.
  - intros ([a b] & -> & Hin)%list_elem_of_fmap. by exists b.
  - intros (m & Hm). apply list_elem_of_fmap. by exists (n, m).
Qed.

Lemma joined_node a b : joined a b -> a <> b -> a ∈ nodes edges.
Proof. intros Hr Hne. apply nodes_elem. destruct Hr as [|a c b He _]; [done|by exists c]. Qed.

Lemma component_roots node root :
  root ∈ List.filter (fun root => bool_decide (node ∈ reach (undirected edges) root)) (nodes edges) <->
  root ∈ nodes edges /\ joined root node.
Proof.
  rewrite list_elem_of_In, filter_In, <- list_elem_of_In, bool_decide_eq_true. f_equiv. apply reach_spec.
Qed.

Lemma component_Some node : node ∈ nodes edges ->
  exists r, component edges node = Some r /\ joined r node.
Proof.
  intros Hn. unfold component. destruct (minimum _) as [r|] eqn:E.
  - exists r. split; [done|]. apply minimum_Some in E as [E _]. by apply component_roots in E as [_ E].
  - apply minimum_None in E. assert (Hin : node ∈ []); [|by apply elem_of_nil in Hin].
    rewrite <- E. apply component_roots. by split.
Qed.

Lemma component_eq a b : a ∈ nodes edges -> b ∈ nodes edges ->
  component edges a = component edges b <-> joined a b.
Proof.
  intros Ha Hb. split.
  - intros E. destruct (component_Some a Ha) as (r & Er & Hr), (component_Some b Hb) as (r' & Er' & Hr').
    assert (r' = r) as -> by congruence. by transitivity r.
  - intros Hab. apply minimum_ext. intros x. rewrite !component_roots. f_equiv. split; intros H.
    + by transitivity a.
    + transitivity b; [done|]. by symmetry.
Qed.

(** The contacts that the edges are about exist. *)
Hypothesis nodes_exist : forall n, n ∈ nodes edges -> is_Some (contacts d !! n).

Lemma members_elem n m : n ∈ nodes edges -> m ∈ members_of edges d n <-> m ∈ nodes edges /\ joined n m.
Proof.
  intros Hn. unfold members_of. rewrite list_elem_of_In, filter_In, <- list_elem_of_In, andb_true_iff, bool_decide_eq_true.
  split.
  - intros (Hm & Hc & _). split; [done|]. apply component_eq; [done..|]. congruence.
  - intros [Hm Hj]. split_and!; [done|symmetry; by apply component_eq|].
    destruct (nodes_exist m Hm) as [c ->]. done.
Qed.

Lemma winner_same a b : a ∈ nodes edges -> joined a b -> winner edges d a = winner edges d b.
Proof.
  intros Ha Hj. destruct (decide (a = b)) as [->|Hne]; [done|].
  assert (Hb : b ∈ nodes edges) by (apply (joined_node b a); [by symmetry|congruence]).
  unfold winner, members_of. by rewrite (proj2 (component_eq a b Ha Hb) Hj).
Qed.

Lemma winner_Some n : n ∈ nodes edges -> exists w, winner edges d n = Some w /\ w ∈ nodes edges /\ joined n w.
Proof.
  intros Hn. unfold winner. destruct (order_by _ _) as [|w l] eqn:E.
  - assert (Hin : n ∈ []); [|by apply elem_of_nil in Hin]. rewrite <- E, order_by_elem. by apply members_elem.
  - exists w. split; [done|]. apply (members_elem n w Hn). rewrite <- (order_by_elem (age_order d)), E. left.
Qed.

Lemma merge_plan_lookup n w : merge_plan edges d !! n = Some w <->
  n ∈ nodes edges /\ winner edges d n = Some w /\ w <> n.
Proof.
  unfold merge_plan. set (f := fun node => if is_null (contacts d !! node) then None else _).
  assert (Hf : forall x y, f x = Some y <-> exists w, y = (x, w) /\ is_Some (contacts d !! x) /\ winner edges d x = Some w /\ w <> x).
  { intros x y. unfold f. destruct (contacts d !! x) as [c|]; cbn.
    - destruct (winner edges d x) as [v|]; cbn.
      + case_bool_decide as Ev; split; [done| |intros [= <-]; exists v; by split_and!|].
        * intros (? & -> & _ & [= ->] & ?). congruence.
        * by intros (? & -> & _ & [= ->] & _).
      + split; [done|]. by intros (? & _ & _ & ? & _).
    - split; [done|]. by intros (? & _ & [? ?] & _). }
  assert (Hnd : NoDup (omap f (nodes edges)).*1).
  { apply NoDup_omap_keys; [|apply NoDup_remove_dups]. by intros x y (w' & -> & _)%Hf. }
  rewrite <- elem_of_list_to_map by done. rewrite list_elem_of_omap. split.
  - intros (x & Hx & E). apply Hf in E as (v & [= -> ->] & _ & ? & ?). by split_and!.
  - intros (Hn & Hw & Hne). exists n. split; [done|]. apply Hf. exists w. split_and!; [done|by apply nodes_exist|done..].
Qed.

Lemma target_winner n : n ∈ nodes edges -> winner edges d n = Some (target (merge_plan edges d) n).
Proof.
  intros Hn. destruct (winner_Some n Hn) as (w & Hw & _). unfold target. rewrite Hw. f_equal.
  destruct (decide (w = n)) as [->|Hne].
  - destruct (merge_plan edges d !! n) as [v|] eqn:E; [|done]. apply merge_plan_lookup in E as (_ & E & ?). congruence.
  - by rewrite (proj2 (merge_plan_lookup n w)).
Qed.

Lemma target_outside n : n ∉ nodes edges -> target (merge_plan edges d) n = n.
Proof.
  intros Hn. unfold target. destruct (merge_plan edges d !! n) as [v|] eqn:E; [|done].
  by apply merge_plan_lookup in E as (? & _).
Qed.

Lemma target_joined n : joined n (target (merge_plan edges d) n).
Proof.
  destruct (decide (n ∈ nodes edges)) as [Hn|Hn]; [|rewrite target_outside by done; reflexivity].
  destruct (winner_Some n Hn) as (w & Hw & _ & Hj). rewrite (target_winner n Hn) in Hw. by injection Hw as ->.
Qed.

(** Two contacts end up as one exactly when the edges connect them. *)
Lemma target_eq a b : target (merge_plan edges d) a = target (merge_plan edges d) b <-> joined a b.
Proof.
  split.
  - intros E. transitivity (target (merge_plan edges d) a); [apply target_joined|]. rewrite E. symmetry. apply target_joined.
  - intros Hj. destruct (decide (a = b)) as [->|Hne]; [done|].
    assert (Ha : a ∈ nodes edges) by by eapply joined_node.
    assert (Hb : b ∈ nodes edges) by (apply (joined_node b a); [by symmetry|congruence]).
    pose proof (winner_same a b Ha Hj) as Hw. rewrite (target_winner a Ha), (target_winner b Hb) in Hw. congruence.
Qed.

Lemma target_idem n : target (merge_plan edges d) (target (merge_plan edges d) n) = target (merge_plan edges d) n.
Proof. apply target_eq. symmetry. apply target_joined. Qed.

Lemma target_not_away n : merged_away (merge_plan edges d) (target (merge_plan edges d) n) = false.
Proof.
  unfold merged_away. destruct (merge_plan edges d !! target (merge_plan edges d) n) as [w|] eqn:E; [|done].
  pose proof (target_idem n) as Hi. unfold target at 1 in Hi. rewrite E in Hi. cbn in Hi.
  apply merge_plan_lookup in E as (_ & _ & Hne). congruence.
Qed.

Lemma winners_elem w : w ∈ winners (merge_plan edges d) <-> exists n, merge_plan edges d !! n = Some w.
Proof.
  unfold winners. rewrite elem_of_remove_dups, list_elem_of_fmap. split.
  - intros ([n v] & -> & Hin%elem_of_map_to_list). by exists n.
  - intros (n & Hn). exists (n, w). split; [done|]. by apply elem_of_map_to_list.
Qed.

Lemma winner_exists w : w ∈ winners (merge_plan edges d) -> is_Some (contacts d !! w) /\ merged_away (merge_plan edges d) w = false.
Proof.
  intros (n & Hn)%winners_elem. pose proof (merge_plan_lookup n w) as [H _]. specialize (H Hn) as (Hnode & Hw & _).
  split.
  - apply nodes_exist. destruct (winner_Some n Hnode) as (v & Hv & Hin & _). congruence.
  - pose proof (target_not_away n) as Ht. unfold target in Ht. by rewrite Hn in Ht.
Qed.

(** A contact that is not touched by the plan *)
Lemma target_other n w : w ∉ winners (merge_plan edges d) -> target (merge_plan edges d) n = w -> n = w.
Proof.
  intros Hw <-. unfold target in *. destruct (merge_plan edges d !! n) as [v|] eqn:E; [|done].
  exfalso. apply Hw, winners_elem. by exists n.
Qed.

End Plan.

(** *** The latest name *)

Lemma text_ltb_irrefl a : text_ltb a a = false.
Proof. unfold text_ltb. by destruct (text_leb_total a a) as [->| ->]. Qed.

Lemma text_ltb_trans a b c : text_ltb a b = true -> text_ltb b c = true -> text_ltb a c = true.
Proof.
  unfold text_ltb. rewrite !negb_true_iff. intros H1 H2. apply not_true_iff_false. intros H3.
  destruct (text_leb_total b c) as [Hbc|Hbc]; [|congruence].
  pose proof (text_leb_trans b c a Hbc H3). congruence.
Qed.

Lemma text_ltb_total a b : a <> b -> text_ltb a b = true \/ text_ltb b a = true.
Proof.
  unfold text_ltb. intros Hne. destruct (text_leb a b) eqn:E1, (text_leb b a) eqn:E2; auto.
  by destruct Hne; apply text_leb_antisym.
Qed.

Lemma older_spec a b : older a b = true <-> a.1 < b.1 \/ (a.1 = b.1 /\ text_ltb a.2 b.2 = true).
Proof. unfold older. rewrite orb_true_iff, andb_true_iff, Z.ltb_lt, Z.eqb_eq. done. Qed.

Lemma older_irrefl a : older a a = false.
Proof. apply not_true_iff_false. rewrite older_spec, text_ltb_irrefl. intros [?|[_ ?]]; [lia|done]. Qed.

Lemma older_trans a b c : older a b = true -> older b c = true -> older a c = true.
Proof.
  rewrite !older_spec. intros [?|[? H1]] [?|[? H2]]; [left; lia..|]. right. split; [congruence|].
  by eapply text_ltb_trans.
Qed.

Lemma older_total a b : a <> b -> older a b = true \/ older b a = true.
Proof.
  destruct a as [x s], b as [y t]. intros Hne. rewrite !older_spec. cbn.
  destruct (Z.lt_trichotomy x y) as [?|[->|?]]; [by left; left| |by right; left].
  destruct (text_ltb_total s t) as [?|?]; [congruence|left; by right|right; by right].
Qed.

Lemma name_order_total a b : name_order a b = true \/ name_order b a = true.
Proof.
  unfold name_order. destruct (decide (stamp a.2 = stamp b.2)) as [E|E].
  - rewrite (bool_decide_true _ E), (bool_decide_true _ (eq_sym E)).
    destruct (decide (a.1.1 = b.1.1)) as [Ei|Ei].
    + rewrite (bool_decide_true _ Ei), (bool_decide_true _ (eq_sym Ei)). apply text_leb_total.
    + rewrite !bool_decide_false by congruence.
      destruct (Pos.leb_spec a.1.1 b.1.1); [by left|right; by apply Pos.leb_le, Pos.lt_le_incl].
  - rewrite !bool_decide_false by congruence. destruct (older_total _ _ E); auto.
Qed.

Lemma name_order_trans a b c : name_order a b = true -> name_order b c = true -> name_order a c = true.
Proof.
  unfold name_order. intros H1 H2.
  destruct (decide (stamp a.2 = stamp b.2)) as [E|E]; [rewrite E in *; rewrite (bool_decide_true (stamp b.2 = _)) in H1 by done|
    rewrite bool_decide_false in H1 by done].
  - case_bool_decide as F; [|done].
    destruct (decide (a.1.1 = b.1.1)) as [Ei|Ei]; [rewrite (bool_decide_true _ Ei) in H1; rewrite Ei|rewrite (bool_decide_false _ Ei) in H1].
    + case_bool_decide; [by eapply text_leb_trans|done].
    + apply Pos.leb_le in H1. case_bool_decide as Ej.
      * rewrite <- Ej. rewrite bool_decide_false by done. by apply Pos.leb_le.
      * apply Pos.leb_le in H2. rewrite bool_decide_false; [apply Pos.leb_le; by etransitivity|].
        intros Ek. apply Ei, Pos.le_antisym; [done|]. by rewrite Ek.
  - destruct (decide (stamp b.2 = stamp c.2)) as [F|F].
    + rewrite <- F, bool_decide_false by done. done.
    + rewrite bool_decide_false in H2 by done. pose proof (older_trans _ _ _ H2 H1) as H3.
      rewrite bool_decide_false; [done|]. intros E'. rewrite E', older_irrefl in H3. done.
Qed.

(** *** Carrying the plan out *)

Section Apply.
Context (edges : list (uuid * uuid)) (d : contact_tables).
Hypothesis nodes_exist : forall n, n ∈ nodes edges -> is_Some (contacts d !! n).

Abbreviation plan := (merge_plan edges d).
Abbreviation home := (target plan).
Abbreviation joined := (connected edges).
Abbreviation best := (best_names plan d).

(** Where a name goes *)
Definition place (x : (uuid * NameSource.t) * contact_name) : uuid * NameSource.t := (home x.1.1, x.1.2).

Lemma best_elem x : x ∈ best -> contact_names d !! x.1 = Some x.2 /\ home x.1.1 ∈ winners plan.
Proof.
  unfold best_names. intros Hx%distinct_on_elem. rewrite order_by_elem, list_elem_of_In, filter_In in Hx.
  destruct Hx as [Hin Hw%mem_true]. split; [|done]. destruct x. by apply elem_of_map_to_list, list_elem_of_In.
Qed.

(** Each name of a merged contact has a best name at its place that is not older. *)
Lemma best_covers id s n : contact_names d !! (id, s) = Some n -> home id ∈ winners plan ->
  exists x, x ∈ best /\ place x = (home id, s) /\ older (stamp x.2) (stamp n) = false.
Proof.
  intros Hn Hw. set (y := ((id, s), n)).
  assert (Hy : y ∈ List.filter (fun x => mem (home x.1.1) (winners plan)) (map_to_list (contact_names d))).
  { apply list_elem_of_In, filter_In. split; [by apply list_elem_of_In, elem_of_map_to_list|by apply mem_true]. }
  destruct (distinct_on_keys place (order_by name_order (List.filter (fun x => mem (home x.1.1) (winners plan))
    (map_to_list (contact_names d)))) y) as (x & Hx & E); [by apply order_by_elem|].
  exists x. split; [exact Hx|]. split; [exact E|].
  pose proof (distinct_on_first place name_order _ x y name_order_total name_order_trans Hx Hy (eq_sym E)) as Ho.
  unfold name_order in Ho. case_bool_decide as Es.
  - rewrite Es. apply older_irrefl.
  - apply not_true_iff_false. intros H. pose proof (older_trans _ _ _ Ho H) as H'. by rewrite older_irrefl in H'.
Qed.

Lemma keep_other t x k : place x <> k -> keep_name plan t x !! k = t !! k.
Proof.
  intros Hne. unfold keep_name. fold (place x). destruct (t !! place x) as [n|]; [destruct (negb _)|];
    by rewrite ?lookup_insert_ne by done.
Qed.

Lemma keep_here t x : (forall n, t !! place x = Some n -> older (stamp x.2) (stamp n) = false) ->
  exists n', keep_name plan t x !! place x = Some n' /\ stamp n' = stamp x.2 /\ cn_name_value n' = cn_name_value x.2.
Proof.
  intros H. unfold keep_name. fold (place x). destruct (t !! place x) as [n|].
  - rewrite (H n) by done. cbn. rewrite lookup_insert_eq. by eexists.
  - rewrite lookup_insert_eq. by exists x.2.
Qed.

Lemma kept_elsewhere l t k : k ∉ map place l -> foldl (keep_name plan) t l !! k = t !! k.
Proof.
  revert t. induction l as [|x l IH]; intros t Hk; cbn [foldl]; [done|]. cbn in Hk.
  rewrite IH by set_solver. apply keep_other. set_solver.
Qed.

Lemma kept_here l t x : NoDup (map place l) -> x ∈ l ->
  (forall n, t !! place x = Some n -> older (stamp x.2) (stamp n) = false) ->
  exists n', foldl (keep_name plan) t l !! place x = Some n' /\ stamp n' = stamp x.2 /\
    cn_name_value n' = cn_name_value x.2.
Proof.
  revert t. induction l as [|y l IH]; intros t Hn Hx H; [by apply elem_of_nil in Hx|]. cbn in Hn |- *.
  apply NoDup_cons in Hn as [Hy Hn]. apply elem_of_cons in Hx as [->|Hx].
  - rewrite kept_elsewhere by done. by apply keep_here.
  - apply IH; [done..|]. intros n. rewrite keep_other; [apply H|]. intros E. apply Hy. rewrite E.
    apply list_elem_of_fmap. by exists x.
Qed.

Lemma best_NoDup : NoDup (map place best).
Proof. apply (distinct_on_NoDup place). Qed.

Definition after_merge : contact_tables := apply_plan plan d.

Lemma after_names k : contact_names after_merge !! k =
  if merged_away plan k.1 then None else foldl (keep_name plan) (contact_names d) best !! k.
Proof.
  unfold after_merge, apply_plan. cbn. rewrite lookup_delete_where.
  destruct (foldl _ _ _ !! k); [done|]. by destruct (merged_away plan k.1).
Qed.

(** At a winner the best name is kept; elsewhere the name that was there. *)
Lemma after_best x : x ∈ best -> exists n', contact_names after_merge !! place x = Some n' /\
  stamp n' = stamp x.2 /\ cn_name_value n' = cn_name_value x.2.
Proof.
  intros Hx. rewrite after_names. cbn [place fst]. rewrite target_not_away by done.
  apply kept_here; [apply best_NoDup|done|]. intros n Hn. destruct (best_elem x Hx) as [_ Hw].
  destruct (best_covers (home x.1.1) x.1.2 n Hn) as (y & Hy & E & Ho); [by rewrite target_idem by done|].
  rewrite target_idem in E by done. assert (y = x) as ->; [|done].
  by apply (distinct_on_unique place _ _ _ Hy Hx).
Qed.

Lemma after_other id s : id ∉ winners plan -> merged_away plan id = false ->
  contact_names after_merge !! (id, s) = contact_names d !! (id, s).
Proof.
  intros Hw Ha. rewrite after_names. cbn [fst]. rewrite Ha. apply kept_elsewhere.
  intros (x & E & Hx)%list_elem_of_fmap. apply best_elem in Hx as [_ Hx]. injection E as E _. congruence.
Qed.

Lemma after_identifier k : contact_identifiers after_merge !! k =
  (fun i => i <| ci_contact_id := home (ci_contact_id i) |>) <$> contact_identifiers d !! k.
Proof. unfold after_merge, apply_plan. cbn. by rewrite lookup_fmap. Qed.

Lemma after_member k : group_members after_merge !! k =
  (fun m => m <| gm_contact_id := home <$> gm_contact_id m |>) <$> group_members d !! k.
Proof. unfold after_merge, apply_plan. cbn. by rewrite lookup_fmap. Qed.

Lemma after_contact id : contacts after_merge !! id =
  if merged_away plan id then None else (fun c =>
    widen_contact plan (after_merge <| contacts := contacts d |>) id c) <$> contacts d !! id.
Proof.
  unfold after_merge, apply_plan. cbn. rewrite lookup_delete_where, map_lookup_imap.
  destruct (contacts d !! id); cbn; [done|]. by destruct (merged_away plan id).
Qed.

Lemma widen_shown D id c : shown (widen_contact plan D id c) = shown c.
Proof. unfold widen_contact. by destruct (mem id _). Qed.

(** A contact that stays *)
Lemma home_exists id : is_Some (contacts d !! id) -> is_Some (contacts after_merge !! home id).
Proof.
  intros H. rewrite after_contact, target_not_away by done. apply fmap_is_Some.
  destruct (decide (id ∈ nodes edges)) as [Hn|Hn]; [|by rewrite target_outside].
  apply nodes_exist. destruct (winner_Some edges d nodes_exist id Hn) as (w & Hw & Hin & _).
  rewrite (target_winner edges d nodes_exist id Hn) in Hw. by injection Hw as ->.
Qed.

Lemma after_merge_nearly fanout : nearly fanout [] d -> nearly fanout (winners plan) after_merge.
Proof.
  intros [[L1 L2 L3] C M]. split; [split|..].
  - intros k i. rewrite after_identifier. destruct (contact_identifiers d !! k) as [i0|] eqn:E; [|done].
    intros [= <-]. by apply home_exists, (L1 k).
  - intros k n Hk. assert (Ha : merged_away plan k.1 = false).
    { rewrite after_names in Hk. by destruct (merged_away plan k.1). }
    rewrite after_contact, Ha, fmap_is_Some. destruct (decide (k.1 ∈ winners plan)) as [Hw|Hw].
    + by apply winner_exists in Hw as [? _].
    + destruct k as [id s]. cbn in *. rewrite after_other in Hk by done. by apply (L2 (id, s) n).
  - intros k m. rewrite after_member. destruct (group_members d !! k) as [m0|] eqn:E; [|done].
    intros [= <-]. destruct (L3 k m0 E) as (c & Hc & Hs). exists (home c). cbn. rewrite Hc.
    split; [done|]. by apply home_exists.
  - intros id c Hc Hn. rewrite after_contact in Hc. destruct (merged_away plan id) eqn:Ea; [done|].
    destruct (contacts d !! id) as [c0|] eqn:E; [|done]. injection Hc as <-.
    rewrite widen_shown, (C id c0 E) by set_solver. unfold effective_name. by rewrite !after_other.
  - intros Hf k m c row Hk Hm Hr Hn. rewrite after_member in Hk.
    destruct (group_members d !! k) as [m0|] eqn:E; [|done]. injection Hk as <-.
    destruct (L3 k m0 E) as (c0 & Hc0 & _). cbn in Hm. rewrite Hc0 in Hm. cbn in Hm. injection Hm as Hm.
    pose proof (target_other edges d c0 c Hn Hm) as ->.
    rewrite after_contact in Hr. destruct (merged_away plan c); [done|].
    destruct (contacts d !! c) as [row0|] eqn:Er; [|done]. injection Hr as <-.
    change (shown_by m0 = member_name (widen_contact plan (after_merge <| contacts := contacts d |>) c row0) m0).
    rewrite (M Hf k m0 c row0 E Hc0 Er) by set_solver. unfold member_name, widen_contact. by destruct (mem c _).
Qed.

End Apply.

(** *** The evidence *)

Lemma seen_with_elem generation d phone k :
  k ∈ seen_with generation d phone <-> contact_identity_evidence d !! (generation, k) = Some phone.
Proof.
  unfold seen_with. rewrite list_elem_of_fmap. split.
  - intros ([[g k'] p] & -> & Hin). apply select_where_elem in Hin as [Hl Hp]. cbn in *.
    apply andb_true_iff in Hp as [->%Z.eqb_eq ->%bool_decide_eq_true]. done.
  - intros H. exists ((generation, k), phone). split; [done|]. apply select_where_elem. split; [done|].
    cbn. by rewrite Z.eqb_refl, bool_decide_true.
Qed.

Lemma seen_with_NoDup generation d phone : NoDup (seen_with generation d phone).
Proof.
  unfold seen_with. set (P := fun k p => _).
  assert (H : forall l : list ((Z * identity_key) * string), NoDup l.*1 -> (forall kv, kv ∈ l -> kv.1.1 = generation) ->
    NoDup (map (fun kv => kv.1.2) l)).
  { induction l as [|[[g k] p] l IH]; intros Hn Hg; cbn; [constructor|]. cbn in Hn. apply NoDup_cons in Hn as [Hk Hn].
    constructor; [|apply IH; [done|]; intros kv Hkv; apply Hg; by right].
    intros ([[g' k'] p'] & E & Hin)%list_elem_of_fmap. cbn in E. subst k'. apply Hk.
    pose proof (Hg _ (list_elem_of_here _ _)) as E1. pose proof (Hg _ (list_elem_of_further _ _ _ Hin)) as E2. cbn in *. subst.
    apply list_elem_of_fmap. by exists ((generation, k), p'). }
  apply H; [apply select_where_NoDup|]. intros [[g k] p] Hin. apply select_where_elem in Hin as [_ Hp].
  unfold P in Hp. cbn in *. by apply andb_true_iff in Hp as [?%Z.eqb_eq _].
Qed.

(** An edge of the graph: an identity and the phone it was seen with, when they are mapped to
    different contacts and the phone was seen with no other identity. *)
Lemma merge_edges_elem generation d l r : (l, r) ∈ merge_edges generation d <->
  exists k phone, contact_identity_evidence d !! (generation, k) = Some phone /\
    contact_of d k = Some l /\ contact_of d (Evidence.phone_key phone) = Some r /\ l <> r /\
    forall k', contact_identity_evidence d !! (generation, k') = Some phone -> k' = k.
Proof.
  assert (Hone : forall k phone, contact_identity_evidence d !! (generation, k) = Some phone ->
    length (seen_with generation d phone) = 1%nat <->
    forall k', contact_identity_evidence d !! (generation, k') = Some phone -> k' = k).
  { intros k phone Hk%seen_with_elem. pose proof (seen_with_NoDup generation d phone) as Hn. split.
    - intros Hl k' Hk'%seen_with_elem. destruct (seen_with generation d phone) as [|k0 [|]]; try done.
      apply list_elem_of_singleton in Hk, Hk'. congruence.
    - intros H. assert (Hall : forall k', k' ∈ seen_with generation d phone -> k' = k) by (intros k' ?%seen_with_elem; by apply H).
      destruct (seen_with generation d phone) as [|k0 [|k1 l']]; [by apply elem_of_nil in Hk|done|].
      apply NoDup_cons in Hn as [Hn _]. destruct Hn. rewrite (Hall k0), (Hall k1); [left|right; left|left]. }
  unfold merge_edges. rewrite list_elem_of_omap. split.
  - intros ([[g k] phone] & Hin & E). apply select_where_elem in Hin as [Hk Hg]. cbn in Hg. apply Z.eqb_eq in Hg as ->.
    destruct (contact_of d k) as [l0|] eqn:El; [|done]. cbn in E.
    destruct (contact_of d (Evidence.phone_key phone)) as [r0|] eqn:Er; [|done]. cbn in E.
    destruct (bool_decide _ && _) eqn:Eb; [|done]. injection E as -> ->. split_bool.
    exists k, phone. split_and!; try done. by apply Hone.
  - intros (k & phone & Hk & Hl & Hr & Hne & Hu). exists ((generation, k), phone). split.
    + apply select_where_elem. split; [done|]. by apply Z.eqb_eq.
    + rewrite Hl, Hr. cbn. rewrite (bool_decide_true (length _ = _)) by by apply (Hone k). by rewrite bool_decide_false.
Qed.

Lemma merge_nodes_exist fanout generation d : nearly fanout [] d ->
  forall n, n ∈ nodes (merge_edges generation d) -> is_Some (contacts d !! n).
Proof.
  intros H n (m & Hm)%nodes_elem. apply edge_undirected in Hm.
  assert (He : exists l r, (l, r) ∈ merge_edges generation d /\ (n = l \/ n = r))
    by (destruct Hm as [Hm|Hm]; eexists _, _; (split; [exact Hm|auto])).
  destruct He as (l & r & (k & phone & _ & Hl & Hr & _)%merge_edges_elem & [->| ->]); by eapply contact_of_exists.
Qed.

Lemma reconcile_sound cfg now generation token d :
  sound (CONTACT_LEGACY_MEMBER_FANOUT_ENABLED cfg) d ->
  sound (CONTACT_LEGACY_MEMBER_FANOUT_ENABLED cfg) (reconcileObservedIdentities cfg now generation token d).2.
Proof.
  intros H%nearly_sound. set (fanout := CONTACT_LEGACY_MEMBER_FANOUT_ENABLED cfg) in *.
  unfold reconcileObservedIdentities. destruct (renew _ _ _ _) as [e|d1] eqn:E; [by apply nearly_sound|].
  pose proof (nearly_same _ _ _ _ (renew_same _ _ _ _ _ E) H) as H1.
  pose proof (after_merge_nearly (merge_edges generation d1) d1 (merge_nodes_exist fanout generation d1 H1) fanout H1) as [L C M].
  set (plan := merge_plan _ _). set (ids := winners plan).
  pose proof (project_sound fanout now ids (apply_plan plan d1) L C M) as Hs. fold fanout.
  destruct (project_members fanout now ids (project_contacts ids (apply_plan plan d1))) as [enriched d3].
  cbn [snd] in *. by apply (same_contacts_sound fanout d3).
Qed.

(** *** What the merge does *)

Lemma age_order_total d a b : age_order d a b = true \/ age_order d b a = true.
Proof.
  unfold age_order. rewrite !orb_true_iff, !andb_true_iff, !Z.ltb_lt, !Z.eqb_eq, !Pos.leb_le.
  destruct (Z.lt_trichotomy (created_at d a) (created_at d b)) as [?|[?|?]]; [by left; left| |by right; left].
  destruct (Pos.leb_spec a b) as [?|?%Pos.lt_le_incl]; [left; right|right; right]; by split.
Qed.

Lemma age_order_trans d a b c : age_order d a b = true -> age_order d b c = true -> age_order d a c = true.
Proof.
  unfold age_order. rewrite !orb_true_iff, !andb_true_iff, !Z.ltb_lt, !Z.eqb_eq, !Pos.leb_le.
  intros [?|[? ?]] [?|[? ?]]; [left; lia..|]. right. split; [lia|by etransitivity].
Qed.

(** The oldest contact stays. *)
Lemma home_oldest edges d a c : (forall n, n ∈ nodes edges -> is_Some (contacts d !! n)) -> contacts d !! a = Some c ->
  exists c', contacts d !! target (merge_plan edges d) a = Some c' /\ ct_created_at c' <= ct_created_at c.
Proof.
  intros Hex Hc. destruct (decide (a ∈ nodes edges)) as [Ha|Ha]; [|rewrite target_outside by done; by exists c].
  pose proof (target_winner edges d Hex a Ha) as Hw. unfold winner in Hw. set (h := target _ a) in *.
  assert (Hh : h ∈ members_of edges d a).
  { rewrite <- (order_by_elem (age_order d)). by destruct (order_by _ _); simplify_eq/=; left. }
  apply (members_elem edges d Hex a h Ha) in Hh as [Hh _]. destruct (Hex h Hh) as [c' Hc']. exists c'. split; [done|].
  pose proof (order_by_head _ _ h a (age_order_total d) (age_order_trans d) Hw) as Ho.
  specialize (Ho ltac:(by apply members_elem)). unfold age_order, created_at in Ho. rewrite Hc, Hc' in Ho. cbn in Ho.
  apply orb_true_iff in Ho as [?%Z.ltb_lt|[?%Z.eqb_eq _]%andb_true_iff]; lia.
Qed.

(** [d'] is [d] after the merge, with other names shown. *)
Record merged (edges : list (uuid * uuid)) (d d' : contact_tables) : Prop := Merged {
  mg_contacts id : is_Some (contacts d' !! id) <-> is_Some (contacts (after_merge edges d) !! id);
  mg_identifiers : contact_identifiers d' = contact_identifiers (after_merge edges d);
  mg_names : contact_names d' = contact_names (after_merge edges d);
  mg_members k : gm_contact_id <$> group_members d' !! k = gm_contact_id <$> group_members (after_merge edges d) !! k }.

Section Merged.
Context (edges : list (uuid * uuid)) (d d' : contact_tables).
Hypothesis nodes_exist : forall n, n ∈ nodes edges -> is_Some (contacts d !! n).
Hypothesis names_exist : forall k n, contact_names d !! k = Some n -> is_Some (contacts d !! k.1).
Hypothesis Hm : merged edges d d'.

Abbreviation home := (target (merge_plan edges d)).

Lemma away_home id : merged_away (merge_plan edges d) id = false <-> home id = id.
Proof.
  split; [|intros <-; by apply target_not_away]. unfold merged_away, target.
  by destruct (merge_plan edges d !! id).
Qed.

Lemma merged_contacts id : is_Some (contacts d' !! id) <-> is_Some (contacts d !! id) /\ home id = id.
Proof.
  rewrite (mg_contacts _ _ _ Hm), after_contact, <- away_home.
  destruct (merged_away _ id); [by split; [intros []|intros []]|]. rewrite fmap_is_Some. tauto.
Qed.

Lemma merged_names id s n : contact_names d !! (id, s) = Some n ->
  exists n', contact_names d' !! (home id, s) = Some n' /\ older (stamp n') (stamp n) = false.
Proof.
  intros Hn. rewrite (mg_names _ _ _ Hm). destruct (decide (home id ∈ winners (merge_plan edges d))) as [Hw|Hw].
  - destruct (best_covers edges d id s n Hn Hw) as (x & Hx & E & Ho).
    destruct (after_best edges d nodes_exist x Hx) as (n' & Hn' & Hst & _). rewrite E in Hn'.
    exists n'. by rewrite Hst.
  - pose proof (target_other edges d id _ Hw eq_refl) as Hid. exists n. split; [|apply older_irrefl]. rewrite <- Hid in Hw |- *.
    rewrite after_other; [done|done|done|]. by apply away_home.
Qed.

Lemma merged_name_origin w s n' : contact_names d' !! (w, s) = Some n' -> exists id n, home id = w /\
  contact_names d !! (id, s) = Some n /\ cn_name_value n' = cn_name_value n /\ stamp n' = stamp n.
Proof.
  rewrite (mg_names _ _ _ Hm). intros Hn'.
  assert (Ha : merged_away (merge_plan edges d) w = false).
  { rewrite after_names in Hn'. cbn in Hn'. by destruct (merged_away _ w). }
  pose proof (proj1 (away_home w) Ha) as Hh.
  destruct (decide (w ∈ winners (merge_plan edges d))) as [Hw|Hw].
  - destruct (decide ((w, s) ∈ map (place edges d) (best_names (merge_plan edges d) d))) as [Hb|Hb].
    + apply list_elem_of_fmap in Hb as (x & Ex & Hx). destruct (after_best edges d nodes_exist x Hx) as (n2 & H2 & Hst & Hv).
      rewrite <- Ex in H2. assert (n' = n2) as -> by congruence. destruct (best_elem edges d x Hx) as [Hx1 _].
      injection Ex as Ew Es. exists x.1.1, x.2. split_and!; [done| |done|done]. by destruct x as [[? ?] ?]; cbn in *; subst.
    + rewrite after_names in Hn'. cbn [fst] in Hn'. rewrite Ha, kept_elsewhere in Hn' by done. exfalso.
      destruct (best_covers edges d w s n' Hn') as (x & Hx & E & _); [by rewrite Hh|].
      apply Hb, list_elem_of_fmap. exists x. split; [|done]. by rewrite E, Hh.
  - rewrite after_other in Hn' by done. exists w, n'. by split_and!.
Qed.

End Merged.

(** What one generation knows of two contacts: an identity of the first was listed with a
    phone of the second, and the phone with no other identity. *)
Definition evidence_link (generation : Z) (d : contact_tables) (a b : uuid) : Prop :=
  exists k phone, contact_identity_evidence d !! (generation, k) = Some phone /\
    contact_of d k = Some a /\ contact_of d (Evidence.phone_key phone) = Some b /\
    forall k', contact_identity_evidence d !! (generation, k') = Some phone -> k' = k.

(** Two contacts that such links connect *)
Definition same_person (generation : Z) (d : contact_tables) : uuid -> uuid -> Prop :=
  rtc (fun a b => evidence_link generation d a b \/ evidence_link generation d b a).

Lemma same_person_connected generation d a b : same_person generation d a b <-> connected (merge_edges generation d) a b.
Proof.
  unfold same_person, connected. split.
  - induction 1 as [a|a b c Hl Hr IH]; [apply rtc_refl|]. destruct (decide (a = b)) as [->|Hne]; [done|].
    eapply rtc_l; [|exact IH]. apply edge_undirected. unfold edge. rewrite !merge_edges_elem.
    destruct Hl as [(k & p & H1 & H2 & H3 & H4)|(k & p & H1 & H2 & H3 & H4)]; [left|right]; exists k, p; by split_and!.
  - induction 1 as [a|a b c Hl Hr IH]; [apply rtc_refl|]. eapply rtc_l; [|exact IH]. apply edge_undirected in Hl.
    unfold edge in Hl. rewrite !merge_edges_elem in Hl.
    destruct Hl as [(k & p & H1 & H2 & H3 & _ & H4)|(k & p & H1 & H2 & H3 & _ & H4)]; [left|right]; by exists k, p.
Qed.

(** C16: merging follows the evidence and loses nothing.  Two contacts become one exactly when
    links of this generation connect them, each a phone that was seen with one identity only;
    the oldest stays and the others go.  Every identifier and every member belongs to where
    its contact went, and of the names that come together from one source the latest is
    kept. *)
Theorem merge_follows_evidence (cfg : contact_config) (now : timestamp) (generation : Z) (token : uuid)
    (d d' : contact_tables) (r : merge_result)
    (Hs : sound (CONTACT_LEGACY_MEMBER_FANOUT_ENABLED cfg) d)
    (H : reconcileObservedIdentities cfg now generation token d = (inr r, d')) :
  let joined := same_person generation d in
  exists home : uuid -> uuid,
    (forall a b, home a = home b <-> joined a b) /\ (forall a, joined a (home a)) /\
    (forall a c, contacts d !! a = Some c ->
       exists c', contacts d !! home a = Some c' /\ ct_created_at c' <= ct_created_at c) /\
    (forall id, is_Some (contacts d' !! id) <-> is_Some (contacts d !! id) /\ home id = id) /\
    (forall k, contact_of d' k = home <$> contact_of d k) /\
    (forall k, gm_contact_id <$> group_members d' !! k = (fun m => home <$> gm_contact_id m) <$> group_members d !! k) /\
    (forall id s n, contact_names d !! (id, s) = Some n ->
       exists n', contact_names d' !! (home id, s) = Some n' /\ older (stamp n') (stamp n) = false) /\
    (forall w s n', contact_names d' !! (w, s) = Some n' -> exists id n, home id = w /\
    contact_names d !! (id, s) = Some n /\ cn_name_value n' = cn_name_value n /\ stamp n' = stamp n).
Proof.
  cbn zeta. apply nearly_sound in Hs.
  unfold reconcileObservedIdentities in H. destruct (renew _ _ _ _) as [e|d1] eqn:E; [done|].
  assert (exists st, d1 = d <| sync_state := st |>) as [st ->].
  { unfold renew in E. destruct (sync_state d); [|done]. destruct (owned _ _ _ _); [|done]. injection E as <-. by eexists. }
  change (merge_edges generation (d <| sync_state := st |>)) with (merge_edges generation d) in H.
  set (edges := merge_edges generation d) in *.
  change (merge_plan edges (d <| sync_state := st |>)) with (merge_plan edges d) in H.
  set (plan := merge_plan edges d) in *.
  assert (Hex : forall n, n ∈ nodes edges -> is_Some (contacts d !! n)) by by eapply merge_nodes_exist.
  assert (Hm : merged edges d d').
  { set (d2 := project_contacts _ _) in H. destruct (project_members _ _ _ d2) as [enriched d3] eqn:E3.
    injection H as _ <-. pose proof (project_members_same (CONTACT_LEGACY_MEMBER_FANOUT_ENABLED cfg) now (winners plan) d2) as (P1 & P2 & P3).
    rewrite E3 in P1, P2, P3. cbn [snd] in P1, P2, P3. split.
    - intros id. change (is_Some (contacts d3 !! id) <-> is_Some (contacts (after_merge edges d) !! id)).
      rewrite P1. unfold d2. rewrite project_contacts_lookup, fmap_is_Some. done.
    - change (contact_identifiers d3 = contact_identifiers (after_merge edges d)). by rewrite P2.
    - change (contact_names d3 = contact_names (after_merge edges d)). by rewrite P3.
    - intros k. change (gm_contact_id <$> group_members d3 !! k = gm_contact_id <$> group_members (after_merge edges d) !! k).
      pose proof (project_members_lookup (CONTACT_LEGACY_MEMBER_FANOUT_ENABLED cfg) now (winners plan) d2 k) as P4.
      rewrite E3 in P4. cbn [snd] in P4. rewrite P4. change (group_members d2) with (group_members (after_merge edges d)).
      destruct (group_members (after_merge edges d) !! k); [|done]. cbn. f_equal. by match goal with |- context [match ?o with Some _ => _ | None => _ end] => destruct o end. }
  exists (target plan). split_and!.
  - intros a b. rewrite same_person_connected. by apply target_eq.
  - intros a. apply same_person_connected. by apply target_joined.
  - intros a c. by apply home_oldest.
  - intros id. by apply merged_contacts.
  - intros k. unfold contact_of. rewrite (mg_identifiers _ _ _ Hm), after_identifier.
    by destruct (contact_identifiers d !! k).
  - intros k. rewrite (mg_members _ _ _ Hm), after_member. by destruct (group_members d !! k).
  - intros id s n. by apply merged_names.
  - intros w s n'. by apply merged_name_origin.
Qed.

(** A member of a group is known by its phone; a page then lists its LID with that phone. *)
Definition example_cfg : contact_config := ContactConfig false 7 false true false.

Definition example_member : contact_tables :=
  replaceMembers example_cfg id id 1 (fun _ => 1%positive) (fun _ => 20%positive) (fun _ => 21%positive) (Queue.Request 1 1 (fun _ => 1)) "120@g.us"
    [Participant "62811@c.us" "62811" (Some "Ann") false false] empty_contacts.

Definition example_leased : contact_tables :=
  example_member <| sync_state := Some (ContactSyncState 1 (Some 2) None None None 0 2 (Some 7%positive) (Some 600002)) |>.

Definition example_contacts : contact_tables :=
  (ingestObservedPage example_cfg id id 3 (fun n => Pos.of_succ_nat (n + 1)) 1 7
     [OpenWAContact "9000@lid" "62811" (Some "Ann Lee") None] example_leased).2.

Lemma lease_same st d : same_contacts d (d <| sync_state := st |>).
Proof. by split_and!. Qed.

Lemma example_sound : sound true example_contacts.
Proof.
  apply (ingest_sound example_cfg). apply (same_contacts_sound true example_member); [apply lease_same|].
  apply (replaceMembers_sound example_cfg), sound_empty.
Qed.

Lemma merge_follows_evidence_witness :
  exists r d', reconcileObservedIdentities example_cfg 4 1 7 example_contacts = (inr r, d') /\
    mr_merged r = 1 /\ contact_of d' (IdentityType.LID, "9000@lid") = Some 1%positive /\
    exists home : uuid -> uuid, (forall a b, home a = home b <-> same_person 1 example_contacts a b) /\
      forall k, contact_of d' k = home <$> contact_of example_contacts k.
Proof.
  destruct (reconcileObservedIdentities example_cfg 4 1 7 example_contacts) as [[e|r] d'] eqn:E; [by vm_compute in E|].
  exists r, d'. split; [done|]. split; [|split].
  - transitivity (match (reconcileObservedIdentities example_cfg 4 1 7 example_contacts).1 with inr r => mr_merged r | inl _ => 0 end);
      [by rewrite E|by vm_compute].
  - transitivity (contact_of (reconcileObservedIdentities example_cfg 4 1 7 example_contacts).2 (IdentityType.LID, "9000@lid"));
      [by rewrite E|by vm_compute].
  - destruct (merge_follows_evidence example_cfg 4 1 7 example_contacts d' r) as (home & H1 & _ & _ & _ & H5 & _);
      [exact example_sound|exact E|by exists home].
Defined.

(** A page that lists a phone under two of its dialects is refused: the evidence of one
    identity would be written twice by one statement. *)
Example two_dialects_are_refused :
  (ingestObservedPage example_cfg id id 3 (fun n => Pos.of_succ_nat (n + 1)) 1 7
     [OpenWAContact "123@c.us" "123" None None; OpenWAContact "123:4@s.whatsapp.net" "123" None None] example_leased).1
  = inl (Broken "ON CONFLICT DO UPDATE command cannot affect row a second time").
Proof. by vm_compute. Qed.

(** A LID whose record names its phone is not merged when the phone is listed as well: both
    count as conflicts. *)
Example listed_phone_is_a_conflict :
  let listed := (ingestObservedPage example_cfg id id 3 (fun n => Pos.of_succ_nat (n + 1)) 1 7
     [OpenWAContact "9000@lid" "62811" (Some "Ann Lee") None; OpenWAContact "62811@c.us" "62811" None None] example_leased).2 in
  (reconcileObservedIdentities example_cfg 4 1 7 listed).1 = inr (MergeResult 0 2 0).
Proof. by vm_compute. Qed.

End ContactMerge.
