(* ===== verification/ContactSnapshots.v ===== *)
(** * Snapshots of the contacts of a session

    [src/src/modules/contacts/contact-snapshot-lifecycle.repository.ts]: a snapshot is one
    generation, received page by page under a lease ([ingestObservedPage] of [ContactStore])
    and published at once.  [op] is every transaction on the contacts of a session. *)

From S2P Require Import Prelude Schema SendPolicy Service ContactSchema ContactQueue ContactIdentity Relational ContactEvidence ContactStore ContactLife ContactMerge.
From stdpp Require Import relations.

Import Queue Normalization NameResolution Names ContactRepo ObservationRepo ContactLife.

Module Snapshots.

Local Open Scope Z_scope.

Section Lifecycle.
Context (cfg : contact_config) (md5 : string -> string).

Definition no_lease (now : timestamp) (s : contact_sync_state) : bool :=
  is_null (cs_lease_token s) || before (cs_lease_expires_at s) now.

(** INSERT INTO contact_sync_state .. ON CONFLICT DO UPDATE .. WHERE *)
Definition claim_state (now : timestamp) (token : uuid) (force : bool) (old : option contact_sync_state)
    : option contact_sync_state :=
  match old with
  | None => Some (ContactSyncState 1 (Some now) None None None 0 now (Some token) (Some (now + lease_ms)))
  | Some s =>
      if no_lease now s && (force || (cs_next_attempt_at s <=? now))
      then Some (s <| cs_sync_generation := cs_sync_generation s + 1 |> <| cs_last_started_at := Some now |>
                   <| cs_last_error_code := None |> <| cs_attempt_count := cs_attempt_count s + 1 |>
                   <| cs_lease_token := Some token |> <| cs_lease_expires_at := Some (now + lease_ms) |>)
      else None
  end.

Definition is_published (g : snapshot_generation) : bool := bool_decide (sg_state g = GenerationState.PUBLISHED).
Definition is_receiving (g : snapshot_generation) : bool := bool_decide (sg_state g = GenerationState.RECEIVING).

(** SELECT max(generation) .. WHERE state = 'PUBLISHED' *)
Definition newest_published (d : contact_tables) : option Z :=
  head (order_by (fun a b => b <=? a) (select_where (fun _ g => is_published g) (snapshot_generations d)).*1).

Definition day_ms : Z := 86400000.

(** The generations that are deleted when the next one begins *)
Definition outdated (now : timestamp) (d : contact_tables) (generation : Z) : bool :=
  match snapshot_generations d !! generation with
  | Some g => negb (is_receiving g)
              && (sg_created_at g <? now - CONTACT_SNAPSHOT_RETENTION_DAYS cfg * day_ms)
              && negb (bool_decide (generation = default (-1) (newest_published d)))
              && negb (bool_decide (generation = default (-1) (rn_source_generation ∘ snd <$> latest_run d)))
  | None => false
  end.

(** DELETE FROM contact_snapshot_generations: what refers to a generation goes with it. *)
Definition drop_generations (P : Z -> bool) (d : contact_tables) : contact_tables :=
  let of_dropped g := match g with Some g => P g | None => false end in
  let dropped run := match resolution_runs d !! run with Some r => P (rn_source_generation r) | None => false end in
  d <| snapshot_generations := delete_where (fun g _ => P g) (snapshot_generations d) |>
    <| snapshot_observations := delete_where (fun k _ => P k.1) (snapshot_observations d) |>
    <| contact_observations := delete_where (fun _ o => of_dropped (no_source_generation o)) (contact_observations d) |>
    <| contact_link_evidence := delete_where (fun _ l => of_dropped (ln_source_generation l)) (contact_link_evidence d) |>
    <| resolution_runs := delete_where (fun _ r => P (rn_source_generation r)) (resolution_runs d) |>
    <| resolved_clusters := delete_where (fun k _ => dropped k.1) (resolved_clusters d) |>
    <| resolved_assignments := delete_where (fun k _ => dropped k.1) (resolved_assignments d) |>
    <| resolution_conflicts := filter (fun x => dropped x.1.1 = false) (resolution_conflicts d) |>.

Definition lease_expired (now : timestamp) (g : snapshot_generation) : snapshot_generation :=
  g <| sg_state := GenerationState.FAILED |> <| sg_failed_at := Some now |> <| sg_error_code := Some "LEASE_EXPIRED" |>.

(** The answer: the generation and its token, or that another snapshot is in progress *)
Definition begin (now : timestamp) (token : uuid) (force : bool) (d : contact_tables)
    : (failure + option (Z * uuid)) * contact_tables :=
  match claim_state now token force (sync_state d) with
  | None => (inr None, d)
  | Some s =>
      let generation := cs_sync_generation s in
      let d1 := d <| sync_state := Some s |> in
      if negb (CONTACT_SNAPSHOT_STAGING_ENABLED cfg) then (inr (Some (generation, token)), d1)
      else
        let d2 := d1 <| snapshot_generations := update_where
                          (fun g row => is_receiving row && (g <? generation)) (lease_expired now) (snapshot_generations d1) |> in
        let d3 := drop_generations (outdated now d2) d2 in
        match snapshot_generations d3 !! generation with
        | Some _ => (inl (Broken "contact_snapshot_generations_pkey"), d)
        | None => (inr (Some (generation, token)),
                   d3 <| snapshot_generations := <[generation :=
                      SnapshotGeneration GenerationState.RECEIVING token None 0 None None None now]> (snapshot_generations d3) |>)
        end
  end.

Definition completed_state (now : timestamp) (records intervalMs : Z) (s : contact_sync_state) : contact_sync_state :=
  s <| cs_last_completed_at := Some now |> <| cs_last_successful_record_count := Some records |>
    <| cs_last_error_code := None |> <| cs_attempt_count := 0 |> <| cs_next_attempt_at := now + intervalMs |>
    <| cs_lease_token := None |> <| cs_lease_expires_at := None |>.

Definition owns (now : timestamp) (generation : Z) (token : uuid) (d : contact_tables) : bool :=
  match sync_state d with Some s => owned now generation token s | None => false end.

Definition lost_publication : failure := JsError "Contact snapshot lost publication ownership".

Definition published (now : timestamp) (records count : Z) (g : snapshot_generation) : snapshot_generation :=
  g <| sg_state := GenerationState.PUBLISHED |> <| sg_upstream_record_count := Some records |>
    <| sg_staged_identity_count := count |> <| sg_published_at := Some now |>.

Definition complete (now : timestamp) (drawn : identity_key -> uuid) (ids : NameSource.t * string -> uuid)
    (generation : Z) (token : uuid) (records intervalMs : Z) (d : contact_tables) : (failure + unit) * contact_tables :=
  if negb (owns now generation token d) then (inl lost_ownership, d)
  else
    let finish d := d <| sync_state := completed_state now records intervalMs <$> sync_state d |> in
    if negb (CONTACT_SNAPSHOT_STAGING_ENABLED cfg) then (inr tt, finish d)
    else
      let d1 := Evidence.publishSnapshot cfg drawn ids now generation d in
      let '(row, generations) := update_row generation (fun g => is_receiving g && bool_decide (sg_lease_token g = token))
            (published now records (Z.of_nat (length (Evidence.staged generation d1)))) (snapshot_generations d1) in
      match row with
      | None => (inl lost_publication, d)
      | Some _ => (inr tt, finish (d1 <| snapshot_generations := generations |>))
      end.

Definition backoff_ms (attempts : Z) : Z := Z.min 3600 (60 * 2 ^ Z.min attempts 6) * 1000.

Definition failed_state (now : timestamp) (code : string) (s : contact_sync_state) : contact_sync_state :=
  s <| cs_last_error_code := Some code |> <| cs_next_attempt_at := now + backoff_ms (cs_attempt_count s) |>
    <| cs_lease_token := None |> <| cs_lease_expires_at := None |>.

Definition failed (now : timestamp) (code : string) (g : snapshot_generation) : snapshot_generation :=
  g <| sg_state := GenerationState.FAILED |> <| sg_failed_at := Some now |> <| sg_error_code := Some code |>.

(** The merge evidence of the generation goes whoever holds the lease; the rest needs the
    token, expired or not. *)
Definition fail (now : timestamp) (generation : Z) (token : uuid) (code : string) (d : contact_tables) : contact_tables :=
  let d1 := if CONTACT_SNAPSHOT_STAGING_ENABLED cfg
            then d <| snapshot_generations := (update_row generation
                   (fun g => bool_decide (sg_lease_token g = token) && is_receiving g) (failed now code) (snapshot_generations d)).2 |>
            else d in
  d1 <| contact_identity_evidence := delete_where (fun k _ => k.1 =? generation) (contact_identity_evidence d1) |>
     <| sync_state := (fun s => if (cs_sync_generation s =? generation) && bool_decide (cs_lease_token s = Some token)
                                then failed_state now code s else s) <$> sync_state d1 |>.

End Lifecycle.
End Snapshots.

(** ** Any sequence of transactions *)

Module SnapshotLife.
Import Snapshots.

Local Open Scope Z_scope.

Section Life.
Context (cfg : contact_config) (nfc md5 : string -> string).

(** A projection of a member leaves its contact alone, and the name it shows unless that is
    the projection's to write. *)
Definition projects (cfg : contact_config) (m m' : group_member) : Prop :=
  gm_contact_id m' = gm_contact_id m /\ gm_participant_display_name m' = gm_participant_display_name m /\
  (CONTACT_LEGACY_MEMBER_FANOUT_ENABLED cfg = true -> shown_by m' = shown_by m).

Inductive op (d : contact_tables) : contact_tables -> Prop :=
  | op_begin now token force : op d (begin cfg now token force d).2
  | op_ingest now drawn generation token page :
      op d (ingestObservedPage cfg nfc md5 now drawn generation token page d).2
  | op_reconcile now generation token : op d (reconcileObservedIdentities cfg now generation token d).2
  | op_complete now drawn ids generation token records intervalMs :
      op d (complete cfg now drawn ids generation token records intervalMs d).2
  | op_fail now generation token code : op d (fail cfg now generation token code d)
  | op_observe now candidate observationId drawn rq rawIdentity rawName observedAt k :
      op d (observeMessageSender cfg nfc md5 now candidate observationId drawn rq rawIdentity rawName observedAt k d).2
  | op_members now candidate drawn ids rq groupId participants :
      op d (replaceMembers cfg nfc md5 now candidate drawn ids rq groupId participants d)
  (** the resolution of published generations, whatever it does to its own tables and the queue *)
  | op_resolution runs clusters assignments conflicting work :
      op d (d <| resolution_runs := runs |> <| resolved_clusters := clusters |>
              <| resolved_assignments := assignments |> <| resolution_conflicts := conflicting |>
              <| contact_projection_work := work |>)
  (** the projection, whatever it does to the queue and to the columns of the members that are
      its own *)
  | op_projection work f : (forall k m, projects cfg m (f k m)) ->
      op d (d <| contact_projection_work := work |>
              <| group_members := map_imap (fun k m => Some (f k m)) (group_members d) |>).

Definition reachable : contact_tables -> Prop := rtc op empty_contacts.

Lemma reachable_keeps (P : contact_tables -> Prop) : P empty_contacts ->
  (forall d d', P d -> op d d' -> P d') -> forall d, reachable d -> P d.
Proof.
  intros H0 Hst d Hr. unfold reachable in Hr. revert H0. induction Hr as [x|x y z Hop Hr IH]; intros Hx; [done|].
  apply IH. by eapply Hst.
Qed.

(** *** Names *)

Abbreviation fanout := (CONTACT_LEGACY_MEMBER_FANOUT_ENABLED cfg).

Lemma publish_same drawn ids now generation d : same_contacts d (Evidence.publishSnapshot cfg drawn ids now generation d).
Proof. unfold Evidence.publishSnapshot. by destruct (negb _). Qed.

Lemma begin_same now token force d : same_contacts d (begin cfg now token force d).2.
Proof.
  unfold begin. destruct (claim_state _ _ _ _); [|done]. destruct (negb _); [done|].
  by destruct (snapshot_generations _ !! _).
Qed.

Lemma complete_same now drawn ids generation token records intervalMs d :
  same_contacts d (complete cfg now drawn ids generation token records intervalMs d).2.
Proof.
  unfold complete. destruct (negb _); [done|]. destruct (negb _); [done|].
  destruct (update_row _ _ _ _) as [[row|] generations]; [|done].
  exact (publish_same drawn ids now generation d).
Qed.

Lemma fail_same now generation token code d : same_contacts d (fail cfg now generation token code d).
Proof. unfold fail. by destruct (CONTACT_SNAPSHOT_STAGING_ENABLED cfg). Qed.

Lemma projects_sound work f d : (forall k m, projects cfg m (f k m)) -> sound fanout d ->
  sound fanout (d <| contact_projection_work := work |>
                  <| group_members := map_imap (fun k m => Some (f k m)) (group_members d) |>).
Proof.
  intros Hf [[L1 L2 L3] C M].
  assert (Hm : forall k m', map_imap (fun k m => Some (f k m)) (group_members d) !! k = Some m' ->
    exists m, group_members d !! k = Some m /\ projects cfg m m').
  { intros k m'. rewrite map_lookup_imap. destruct (group_members d !! k) as [m|] eqn:E; [|done].
    intros [= <-]. by exists m. }
  split; [split|..]; [done|done| |done|].
  - intros k m' (m & Hk & -> & _)%Hm. by apply (L3 k).
  - intros Hfan k m' c row (m & Hk & Hc & Hn & Hs)%Hm. rewrite Hc. intros Hmc Hrow Hin.
    rewrite (Hs Hfan). unfold member_name. rewrite Hn. by eapply (M Hfan k m c row).
Qed.

Lemma sound_op d d' : sound fanout d -> op d d' -> sound fanout d'.
Proof.
  intros H Hop. destruct Hop.
  - eapply same_contacts_sound; [apply begin_same|done].
  - by apply ingest_sound.
  - by apply ContactMerge.reconcile_sound.
  - eapply same_contacts_sound; [apply complete_same|done].
  - eapply same_contacts_sound; [apply fail_same|done].
  - by apply observe_sound.
  - by apply replaceMembers_sound.
  - by apply (same_contacts_sound _ d); [split_and!|].
  - by apply projects_sound.
Qed.

Lemma sound_always d : reachable d -> sound fanout d.
Proof. apply reachable_keeps; [apply sound_empty|apply sound_op]. Qed.

(** *** Generations *)

(** What the transactions that are not about generations leave alone *)
Record quiet (d d' : contact_tables) : Prop := Quiet {
  qu_generations : snapshot_generations d' = snapshot_generations d;
  qu_observations k o g : no_source_generation o = Some g ->
    contact_observations d' !! k = Some o <-> contact_observations d !! k = Some o;
  qu_links k l g : ln_source_generation l = Some g ->
    contact_link_evidence d' !! k = Some l <-> contact_link_evidence d !! k = Some l;
  qu_lease : (fun s => (cs_sync_generation s, cs_lease_token s)) <$> sync_state d'
           = (fun s => (cs_sync_generation s, cs_lease_token s)) <$> sync_state d }.

Lemma quiet_refl d : quiet d d.
Proof. by split. Qed.

Lemma quiet_trans d1 d2 d3 : quiet d1 d2 -> quiet d2 d3 -> quiet d1 d3.
Proof.
  intros [A1 B1 C1 D1] [A2 B2 C2 D2]. split; [congruence| | |congruence].
  - intros k o g Hg. by rewrite (B2 k o g Hg), (B1 k o g Hg).
  - intros k l g Hg. by rewrite (C2 k l g Hg), (C1 k l g Hg).
Qed.

(** Rows of another kind are added. *)
Lemma foldl_absent_other {K V X : Type} `{Countable K} (P : V -> Prop) (f : gmap K V -> X -> gmap K V)
    (key : X -> K) (val : X -> V) (l : list X) (t : gmap K V) k v :
  (forall t x, f t x = insert_absent (key x) (val x) t) -> (forall x, x ∈ l -> ~ P (val x)) -> P v ->
  foldl f t l !! k = Some v <-> t !! k = Some v.
Proof.
  intros Hf Hl Hv. revert t. induction l as [|x l IH]; intros t; cbn [foldl]; [done|].
  rewrite IH by (intros y Hy; apply Hl; by right). rewrite Hf, insert_absent_lookup. destruct (t !! k) as [w|]; [done|].
  case_bool_decide; [|done]. split; [|done]. intros [= <-]. destruct (Hl x); [left|done].
Qed.

Definition link_row (now : timestamp) (g : option Z) (x : (LinkSource.t * string) * (uuid * uuid * timestamp)) : link_evidence :=
  LinkEvidence x.2.1.1 x.2.1.2 g x.2.2 now.

Lemma add_link_eq now g t x : Evidence.add_link now g t x = insert_absent x.1 (link_row now g x) t.
Proof. by destruct x as [k [[l r] at_]]. Qed.

Lemma input_links_quiet now inputs d : quiet d (Evidence.insertInputLinks md5 now inputs d).
Proof.
  split; [done|done| |done]. intros k l g Hg. cbn.
  apply (foldl_absent_other (fun l => ln_source_generation l = Some g) _ fst (link_row now None)); [|done|done].
  apply add_link_eq.
Qed.

Lemma request_quiet rq ids d : quiet d (Evidence.request_projections cfg rq ids d).
Proof. Evidence.strip_requests. by split. Qed.

Lemma evidence_members_quiet drawn ids rq now groupId inputs d :
  quiet d (Evidence.observeGroupMembers cfg md5 drawn ids rq now groupId inputs d).
Proof.
  unfold Evidence.observeGroupMembers. destruct (_ || _); [apply quiet_refl|]. cbv zeta.
  eapply quiet_trans; [|apply request_quiet]. unfold Evidence.member_evidence.
  eapply quiet_trans; [|apply input_links_quiet]. split; [done| |done|done]. intros k o g Hg. cbn.
  apply (foldl_absent_other (fun o => no_source_generation o = Some g) _ fst snd); [done| |done].
  intros x Hx. unfold Evidence.participant_observations in Hx. apply list_elem_of_omap in Hx as (i & _ & E).
  destruct (ei_participant_name i); [|done]. cbn in E. destruct (Evidence.identity_id _ _); [|done]. by injection E as <-.
Qed.

Lemma evidence_sender_quiet drawn id rq now input name at_ k d :
  quiet d (Evidence.observeMessageSender cfg md5 drawn id rq now input name at_ k d).
Proof.
  unfold Evidence.observeMessageSender. destruct (negb _); [apply quiet_refl|]. cbv zeta.
  eapply quiet_trans; [|apply request_quiet]. unfold Evidence.sender_evidence.
  eapply quiet_trans; [|apply input_links_quiet]. destruct (Evidence.identity_id _ _); [|done].
  split; [done| |done|done]. intros k' o g Hg. cbn. rewrite insert_absent_lookup.
  destruct (contact_observations d !! k'); [done|]. case_bool_decide; [|done]. split; [|done]. by intros [= <-].
Qed.

Lemma project_members_quiet now ids d : quiet d (project_members fanout now ids d).2.
Proof. unfold project_members. by destruct fanout. Qed.

Lemma observe_quiet now candidate observationId drawn rq rawIdentity rawName observedAt k d :
  let d' := (observeMessageSender cfg nfc md5 now candidate observationId drawn rq rawIdentity rawName observedAt k d).2 in
  quiet d d' /\ snapshot_observations d' = snapshot_observations d.
Proof.
  cbn zeta. unfold observeMessageSender. destruct (observable _ _ _) as [[i name]|]; [|split; [apply quiet_refl|done]].
  set (d2 := touch_identifiers _ _ _). set (input := EvidenceInput _ _ _ _).
  assert (H2 : quiet d d2 /\ snapshot_observations d2 = snapshot_observations d) by (split; [by split|done]).
  set (d3 := Evidence.observeMessageSender _ _ _ _ _ _ _ _ _ _ _).
  assert (H3 : quiet d d3 /\ snapshot_observations d3 = snapshot_observations d).
  { split; [eapply quiet_trans; [apply H2|apply evidence_sender_quiet]|].
    unfold d3, Evidence.observeMessageSender, Evidence.sender_evidence. destruct (negb _); [done|]. cbv zeta.
    Evidence.strip_requests. by destruct (Evidence.identity_id _ _). }
  destruct (contact_of d3 (key i)) as [c|]; [|done]. destruct (write_name _ _ _ _ _) as [accepted names].
  destruct accepted; [|done]. cbn [snd]. set (d4 := project_contacts _ _).
  destruct H3 as [H3 E3]. split; [eapply quiet_trans; [exact H3|]|].
  - eapply quiet_trans; [|apply project_members_quiet]. by split.
  - rewrite <- E3. unfold project_members. by destruct (CONTACT_LEGACY_MEMBER_FANOUT_ENABLED cfg).
Qed.

Lemma members_quiet now candidate drawn ids rq groupId participants d :
  let d' := replaceMembers cfg nfc md5 now candidate drawn ids rq groupId participants d in
  quiet d d' /\ snapshot_observations d' = snapshot_observations d.
Proof.
  cbn zeta. unfold replaceMembers, seedGroupMembers, seed_contacts.
  set (w := write_members now groupId participants d). case_bool_decide; [split; [by split|done]|].
  set (e := Evidence.observeGroupMembers _ _ _ _ _ _ _ _ w).
  assert (He : quiet w e) by apply evidence_members_quiet. split.
  - eapply quiet_trans; [|eapply quiet_trans; [exact He|]]; by split.
  - change (snapshot_observations e = snapshot_observations w). unfold e, Evidence.observeGroupMembers, Evidence.member_evidence.
    destruct (_ || _); [done|]. cbv zeta. by Evidence.strip_requests.
Qed.

Lemma renew_quiet now generation token d d1 : renew now generation token d = inr d1 ->
  quiet d d1 /\ snapshot_observations d1 = snapshot_observations d /\ owns now generation token d = true.
Proof.
  unfold renew, owns. destruct (sync_state d) as [s|] eqn:E; [|done]. destruct (owned _ _ _ _) eqn:Eo; [|done].
  intros [= <-]. split_and!; [|done|done]. split; [done|done|done|]. cbn. by rewrite E.
Qed.

Lemma reconcile_quiet now generation token d :
  let d' := (reconcileObservedIdentities cfg now generation token d).2 in
  quiet d d' /\ snapshot_observations d' = snapshot_observations d.
Proof.
  cbn zeta. unfold reconcileObservedIdentities. destruct (renew _ _ _ _) as [e|d1] eqn:E; [split; [apply quiet_refl|done]|].
  apply renew_quiet in E as (H1 & E1 & _).
  set (d2 := project_contacts _ _). pose proof (project_members_quiet now (winners (merge_plan (merge_edges generation d1) d1)) d2) as H3.
  assert (E3 : snapshot_observations (project_members fanout now (winners (merge_plan (merge_edges generation d1) d1)) d2).2
    = snapshot_observations d2) by (unfold project_members; by destruct fanout).
  destruct (project_members _ _ _ d2) as [n d3]. cbn [snd] in *. split.
  - eapply quiet_trans; [exact H1|]. eapply quiet_trans; [|eapply quiet_trans; [exact H3|]]; by split.
  - change (snapshot_observations d3 = snapshot_observations d). by rewrite E3, <- E1.
Qed.

(** *** With staging *)

Hypothesis staging : CONTACT_SNAPSHOT_STAGING_ENABLED cfg = true.

(** Everything that is kept of one generation is the same. *)
Record same_generation (g : Z) (d d' : contact_tables) : Prop := SameGeneration {
  sm_row : snapshot_generations d' !! g = snapshot_generations d !! g;
  sm_staged k : snapshot_observations d' !! (g, k) = snapshot_observations d !! (g, k);
  sm_observations k o : no_source_generation o = Some g ->
    contact_observations d' !! k = Some o <-> contact_observations d !! k = Some o;
  sm_links k l : ln_source_generation l = Some g ->
    contact_link_evidence d' !! k = Some l <-> contact_link_evidence d !! k = Some l }.

Lemma quiet_generation g d d' : quiet d d' ->
  (forall k, snapshot_observations d' !! (g, k) = snapshot_observations d !! (g, k)) -> same_generation g d d'.
Proof. intros [A B C _] H. split; [by rewrite A|done|intros k o; apply B|intros k l; apply C]. Qed.

Lemma staged_elem g d k s : (k, s) ∈ Evidence.staged g d <-> snapshot_observations d !! (g, k) = Some s.
Proof.
  unfold Evidence.staged. rewrite list_elem_of_fmap. split.
  - intros ([[g' k'] s'] & [= -> ->] & Hin). apply select_where_elem in Hin as [Hl Hg]. cbn in Hg.
    by apply Z.eqb_eq in Hg as ->.
  - intros H. exists ((g, k), s). split; [done|]. apply select_where_elem. split; [done|]. by apply Z.eqb_eq.
Qed.

Lemma staged_NoDup g d : NoDup (Evidence.staged g d).
Proof.
  unfold Evidence.staged. apply NoDup_fmap_2_strong.
  - intros [[g1 k1] s1] [[g2 k2] s2] H1 H2 [= -> ->].
    apply select_where_elem in H1 as [_ H1%Z.eqb_eq], H2 as [_ H2%Z.eqb_eq]. cbn in *. congruence.
  - eapply NoDup_fmap_1. apply select_where_NoDup.
Qed.

Lemma staged_length g d d' : (forall k, snapshot_observations d' !! (g, k) = snapshot_observations d !! (g, k)) ->
  length (Evidence.staged g d') = length (Evidence.staged g d).
Proof.
  intros H. apply Permutation_length, NoDup_Permutation; [apply staged_NoDup..|].
  intros [k s]. by rewrite !staged_elem, H.
Qed.

Definition publication (d : contact_tables) (g : Z) : Prop :=
  exists row, snapshot_generations d !! g = Some row /\ sg_state row = GenerationState.PUBLISHED.

(** A lease is on the one generation that is being received; what is kept belongs to a
    generation, evidence to a published one, whose count is exact. *)
Record snapshots_sound (d : contact_tables) : Prop := SnapshotsSound {
  ss_range g row : snapshot_generations d !! g = Some row ->
    exists s, sync_state d = Some s /\ g <= cs_sync_generation s;
  ss_lease s t : sync_state d = Some s -> cs_lease_token s = Some t ->
    exists row, snapshot_generations d !! cs_sync_generation s = Some row /\
      sg_state row = GenerationState.RECEIVING /\ sg_lease_token row = t;
  ss_receiving g row : snapshot_generations d !! g = Some row -> sg_state row = GenerationState.RECEIVING ->
    exists s, sync_state d = Some s /\ g = cs_sync_generation s;
  ss_staged g k : is_Some (snapshot_observations d !! (g, k)) -> is_Some (snapshot_generations d !! g);
  ss_observations k o g : contact_observations d !! k = Some o -> no_source_generation o = Some g -> publication d g;
  ss_links k l g : contact_link_evidence d !! k = Some l -> ln_source_generation l = Some g -> publication d g;
  ss_count g row : snapshot_generations d !! g = Some row -> sg_state row = GenerationState.PUBLISHED ->
    sg_staged_identity_count row = Z.of_nat (length (Evidence.staged g d)) }.

Lemma quiet_sync d d' s' : quiet d d' -> sync_state d' = Some s' ->
  exists s, sync_state d = Some s /\ cs_sync_generation s = cs_sync_generation s' /\ cs_lease_token s = cs_lease_token s'.
Proof.
  intros [_ _ _ H] E. rewrite E in H. destruct (sync_state d) as [s|]; [|done]. injection H as H1 H2. by exists s.
Qed.

Lemma quiet_sync_back d d' s : quiet d d' -> sync_state d = Some s ->
  exists s', sync_state d' = Some s' /\ cs_sync_generation s' = cs_sync_generation s.
Proof.
  intros [_ _ _ H] E. rewrite E in H. destruct (sync_state d') as [s'|]; [|done]. injection H as H1 H2. by exists s'.
Qed.

(** Staged rows may be added to the generation that is being received. *)
Lemma quiet_sound d d' : quiet d d' ->
  (forall g k, publication d g -> snapshot_observations d' !! (g, k) = snapshot_observations d !! (g, k)) ->
  (forall g k, is_Some (snapshot_observations d' !! (g, k)) -> is_Some (snapshot_generations d !! g)) ->
  snapshots_sound d -> snapshots_sound d'.
Proof.
  intros Q Hp Hg [R L V S O K C]. pose proof (qu_generations _ _ Q) as Eg.
  assert (Epub : forall g, publication d' g <-> publication d g) by (intros g; unfold publication; by rewrite Eg).
  split.
  - intros g row. rewrite Eg. intros (s & Hs & Hr)%R. destruct (quiet_sync_back _ _ _ Q Hs) as (s' & ? & E').
    exists s'. by rewrite E'.
  - intros s' t Hs' Ht. destruct (quiet_sync _ _ _ Q Hs') as (s & Hs & E1 & E2). rewrite Eg, <- E1. apply (L s); congruence.
  - intros g row. rewrite Eg. intros Hrow Hv. destruct (V g row Hrow Hv) as (s & Hs & Hr).
    destruct (quiet_sync_back _ _ _ Q Hs) as (s' & ? & E'). exists s'. by rewrite E'.
  - intros g k. rewrite Eg. apply Hg.
  - intros k o g Ho Hs. apply Epub. apply (O k o); [|done]. by apply (qu_observations _ _ Q k o g).
  - intros k l g Hl Hs. apply Epub. apply (K k l); [|done]. by apply (qu_links _ _ Q k l g).
  - intros g row Hrow Hv. rewrite Eg in Hrow. rewrite (C g row Hrow Hv). f_equal. symmetry. apply staged_length.
    intros k. apply Hp. by exists row.
Qed.

Lemma stage_quiet now generation rows d d' : stage cfg md5 now generation rows d = inr d' ->
  quiet d d' /\ is_Some (snapshot_generations d !! generation) /\
  (forall g k, g <> generation -> snapshot_observations d' !! (g, k) = snapshot_observations d !! (g, k)).
Proof.
  unfold stage. rewrite staging. cbn [negb].
  destruct (snapshot_generations d !! generation) as [row|] eqn:E; [|done]. cbn [is_null].
  destruct (forallb _ _); [|done]. intros [= <-]. split; [by split|]. split; [by eexists|]. intros g k Hg. cbn.
  apply (foldl_keeps (fun t => t !! (g, k) = snapshot_observations d !! (g, k))); [done|].
  intros t r _ Ht. unfold stage_row. rewrite insert_absent_lookup, Ht.
  destruct (snapshot_observations d !! (g, k)); [done|]. rewrite bool_decide_false; [done|]. congruence.
Qed.

(** A page that is refused changes nothing; an accepted one stages into its generation. *)
Lemma ingest_quiet now drawn generation token page d :
  let d' := (ingestObservedPage cfg nfc md5 now drawn generation token page d).2 in
  d' = d \/
  (owns now generation token d = true /\ quiet d d' /\ is_Some (snapshot_generations d !! generation) /\
   forall g k, g <> generation -> snapshot_observations d' !! (g, k) = snapshot_observations d !! (g, k)).
Proof.
  cbn zeta. unfold ingestObservedPage. case_bool_decide; [by left|].
  destruct (renew _ _ _ _) as [e|d0] eqn:E0; [by left|]. apply renew_quiet in E0 as (Q0 & S0 & Ho).
  unfold ingest_rows. destruct (stage _ _ _ _ _ _) as [e|d1] eqn:E1; [by left|].
  apply stage_quiet in E1 as (Q1 & [row Hrow] & S1).
  set (d2 := create_missing _ _ _ _). destruct (record_evidence _ _ _) as [e|d3] eqn:E3; [by left|].
  assert (H3 : quiet d2 d3 /\ snapshot_observations d3 = snapshot_observations d2).
  { unfold record_evidence in E3. case_bool_decide; [|done]. injection E3 as <-. by split. }
  destruct H3 as [Q3 S3]. right. set (d7 := project_contacts _ _). set (ids := (matched (page_rows nfc drawn page) (map_phones now (page_rows nfc drawn page) d3)).*2).
  pose proof (project_members_quiet now ids d7) as Q8.
  assert (S8 : snapshot_observations (project_members fanout now ids d7).2 = snapshot_observations d7)
    by (unfold project_members; by destruct fanout).
  fold fanout. destruct (project_members fanout now ids d7) as [n d8]. cbn [snd] in *.
  split; [done|]. split.
  - eapply quiet_trans; [exact Q0|]. eapply quiet_trans; [exact Q1|]. eapply quiet_trans; [|eapply quiet_trans; [exact Q3|]];
      [by split|]. eapply quiet_trans; [|exact Q8]. by split.
  - split; [exists row; by rewrite <- (qu_generations _ _ Q0)|]. intros g k Hg. rewrite S8.
    change (snapshot_observations d3 !! (g, k) = snapshot_observations d !! (g, k)). rewrite S3.
    change (snapshot_observations d1 !! (g, k) = snapshot_observations d !! (g, k)). by rewrite S1, S0.
Qed.

(** A lease is not on a published generation. *)
Lemma owned_not_published now generation token d : snapshots_sound d -> owns now generation token d = true ->
  ~ publication d generation.
Proof.
  intros H Ho (row & Hrow & Hp). unfold owns in Ho. destruct (sync_state d) as [s|] eqn:E; [|done].
  unfold owned in Ho. apply andb_true_iff in Ho as [[Hg Ht]%andb_true_iff _].
  apply Z.eqb_eq in Hg. apply bool_decide_eq_true in Ht. destruct (ss_lease _ H s token E Ht) as (row' & Hr' & Hs & _).
  rewrite Hg in Hr'. congruence.
Qed.

Lemma published_not_receiving row : sg_state row = GenerationState.PUBLISHED -> is_receiving row = false.
Proof. intros E. unfold is_receiving. rewrite E. by apply bool_decide_false. Qed.

Lemma fail_generation now generation token code d g : publication d g ->
  same_generation g d (fail cfg now generation token code d).
Proof.
  intros (row & Hrow & Hp). unfold fail. rewrite staging. split; [|done|done|done]. cbn.
  rewrite lookup_update_row, Hrow. cbn. by rewrite (published_not_receiving row Hp), !andb_false_r.
Qed.

Lemma publish_quiet drawn ids now generation d g : g <> generation ->
  same_generation g d (Evidence.publishSnapshot cfg drawn ids now generation d).
Proof.
  intros Hne. unfold Evidence.publishSnapshot. destruct (negb _); [by split|].
  set (d1 := d <| observed_identities := _ |>). set (d2 := d1 <| observed_identities := _ |>). split; [done|done| |].
  - intros k o Hg. cbn. apply (foldl_absent_other (fun o => no_source_generation o = Some g) _ fst snd); [done| |done].
    intros x Hx. unfold Evidence.staged_names in Hx. apply list_elem_of_In, in_flat_map in Hx as (r & _ & Hx).
    apply list_elem_of_In, list_elem_of_omap in Hx as (sv & _ & E). destruct (sv.2); [|done]. cbn in E.
    destruct (Evidence.identity_id _ _); [|done]. injection E as <-. cbn. congruence.
  - intros k l Hg. cbn. apply (foldl_absent_other (fun l => ln_source_generation l = Some g) _ fst (link_row now (Some generation)));
      [apply add_link_eq| |done]. intros x _. cbn. congruence.
Qed.

Lemma complete_generation now drawn ids generation token records intervalMs d g : snapshots_sound d -> publication d g ->
  same_generation g d (complete cfg now drawn ids generation token records intervalMs d).2.
Proof.
  intros H Hg. unfold complete. destruct (owns now generation token d) eqn:Ho; [|by split]. cbn [negb].
  rewrite staging. cbn [negb]. assert (Hne : g <> generation) by (intros ->; by eapply owned_not_published).
  set (d1 := Evidence.publishSnapshot _ _ _ _ _ _).
  destruct (update_row generation _ _ _) as [[row|] generations] eqn:E; [|by split].
  apply update_row_Some in E as (v & _ & _ & _ & ->). cbn [snd].
  destruct (publish_quiet drawn ids now generation d g Hne) as [P1 P2 P3 P4]. fold d1 in P1, P2, P3, P4.
  split; [|exact P2|exact P3|exact P4]. cbn. by rewrite lookup_insert_ne.
Qed.

(** A dropped generation leaves nothing behind. *)
Definition gone (g : Z) (d : contact_tables) : Prop :=
  snapshot_generations d !! g = None /\ (forall k, snapshot_observations d !! (g, k) = None) /\
  (forall k o, contact_observations d !! k = Some o -> no_source_generation o <> Some g) /\
  (forall k l, contact_link_evidence d !! k = Some l -> ln_source_generation l <> Some g).

Lemma drop_generation (P : Z -> bool) d g :
  if P g then gone g (drop_generations P d) else same_generation g d (drop_generations P d).
Proof.
  destruct (P g) eqn:E.
  - split_and!; cbn.
    + rewrite lookup_delete_where. destruct (snapshot_generations d !! g); [|done]. by rewrite E.
    + intros k. rewrite lookup_delete_where. destruct (snapshot_observations d !! (g, k)); [|done]. cbn. by rewrite E.
    + intros k o [_ Ho]%delete_where_Some Hg. rewrite Hg in Ho. congruence.
    + intros k l [_ Hl]%delete_where_Some Hg. rewrite Hg in Hl. congruence.
  - split; cbn.
    + rewrite lookup_delete_where. destruct (snapshot_generations d !! g); [|done]. by rewrite E.
    + intros k. rewrite lookup_delete_where. destruct (snapshot_observations d !! (g, k)); [|done]. cbn. by rewrite E.
    + intros k o Hg. rewrite delete_where_Some, Hg, E. tauto.
    + intros k l Hg. rewrite delete_where_Some, Hg, E. tauto.
Qed.

(** *** Beginning *)

Lemma claim_generation now token force o s : claim_state now token force o = Some s ->
  cs_lease_token s = Some token /\
  cs_sync_generation s = default 0 (cs_sync_generation <$> o) + 1.
Proof.
  unfold claim_state. destruct o as [s0|]; [|by intros [= <-]]. destruct (_ && _); [|done]. by intros [= <-].
Qed.

Lemma published_elem d g : g ∈ (select_where (fun _ g => is_published g) (snapshot_generations d)).*1 <-> publication d g.
Proof.
  rewrite list_elem_of_fmap. split.
  - intros ([g' row] & -> & [Hl Hp]%select_where_elem). exists row. split; [done|]. by apply bool_decide_eq_true in Hp.
  - intros (row & Hrow & Hp). exists (g, row). split; [done|]. apply select_where_elem. split; [done|]. by apply bool_decide_eq_true.
Qed.

Lemma newest_first l g g' : head (order_by (fun a b => b <=? a) l) = Some g -> g' ∈ l -> g' <= g.
Proof.
  intros Hg Hin. apply Z.leb_le. apply (order_by_head (fun a b => b <=? a) l); [| |done|done]; intros; cbv beta in *; lia.
Qed.

Lemma newest_published_spec d g : newest_published d = Some g <-> publication d g /\ forall g', publication d g' -> g' <= g.
Proof.
  assert (Hle : forall g', newest_published d = Some g -> publication d g' -> g' <= g).
  { intros g' Hg Hp. eapply newest_first; [exact Hg|]. by apply published_elem. }
  split.
  - intros Hg. split; [|by intros g' ?; apply Hle]. apply published_elem. rewrite <- (order_by_elem (fun a b => b <=? a)).
    by apply head_Some_elem_of.
  - intros [Hp Hmax]. pose proof (proj2 (published_elem d g) Hp) as Hin. rewrite <- (order_by_elem (fun a b => b <=? a)) in Hin.
    destruct (newest_published d) as [g0|] eqn:E; unfold newest_published in E.
    + f_equal. assert (g0 <= g).
      { apply Hmax, published_elem. rewrite <- (order_by_elem (fun a b => b <=? a)). by apply head_Some_elem_of. }
      assert (g <= g0); [|lia]. eapply newest_first; [exact E|]. by apply published_elem.
    + apply head_None in E. rewrite E in Hin. by apply not_elem_of_nil in Hin.
Qed.

Lemma newest_published_ext d d' : (forall g, publication d' g <-> publication d g) -> newest_published d' = newest_published d.
Proof.
  intros H. apply option_eq. intros g. rewrite !newest_published_spec, H. split; intros [Hp Hm]; (split; [done|]);
    intros g' Hg'; apply Hm; by apply H.
Qed.

(** The expired generations are set aside: the others stay as they are. *)
Definition expire (now : timestamp) (generation : Z) (d : contact_tables) : contact_tables :=
  d <| snapshot_generations := update_where (fun g row => is_receiving row && (g <? generation)) (lease_expired now)
                                 (snapshot_generations d) |>.

Lemma expire_lookup now generation d g row : snapshot_generations (expire now generation d) !! g = Some row <->
  exists row0, snapshot_generations d !! g = Some row0 /\
    row = if is_receiving row0 && (g <? generation) then lease_expired now row0 else row0.
Proof. cbn. by rewrite update_where_Some. Qed.

Lemma expire_publication now generation d g : publication (expire now generation d) g <-> publication d g.
Proof.
  split.
  - intros (row & (row0 & Hrow & ->)%expire_lookup & Hp). exists row0. split; [done|]. by destruct (_ && _).
  - intros (row & Hrow & Hp). exists row. split; [|done]. apply expire_lookup. exists row. split; [done|].
    by rewrite (published_not_receiving row Hp).
Qed.

Lemma expire_generation now generation d g : publication d g -> same_generation g d (expire now generation d).
Proof.
  intros (row & Hrow & Hp). split; [|done..]. cbn. rewrite lookup_update_where, Hrow. cbn. by rewrite (published_not_receiving row Hp).
Qed.

Lemma same_generation_trans g d1 d2 d3 : same_generation g d1 d2 -> same_generation g d2 d3 -> same_generation g d1 d3.
Proof.
  intros [A1 B1 C1 D1] [A2 B2 C2 D2]. split; [congruence|intros; congruence| |].
  - intros k o Hg. by rewrite (C2 k o Hg), (C1 k o Hg).
  - intros k l Hg. by rewrite (D2 k l Hg), (D1 k l Hg).
Qed.

(** INSERT INTO contact_snapshot_generations *)
Definition receive (now : timestamp) (token : uuid) (generation : Z) (d : contact_tables) : contact_tables :=
  d <| snapshot_generations := <[generation := SnapshotGeneration GenerationState.RECEIVING token None 0 None None None now]>
         (snapshot_generations d) |>.

Lemma receive_gone now token generation d g : g <> generation -> gone g d -> gone g (receive now token generation d).
Proof. intros Hne (A & B & C & D). split_and!; [|done..]. cbn. by rewrite lookup_insert_ne. Qed.

Lemma receive_same now token generation d0 d g : g <> generation -> same_generation g d0 d ->
  same_generation g d0 (receive now token generation d).
Proof. intros Hne [A B C D]. split; [|done..]. cbn. by rewrite lookup_insert_ne. Qed.

(** What [begin] does, as one equation: the generation is a new one. *)
Lemma begin_step now token force d : snapshots_sound d ->
  (begin cfg now token force d).2 = d \/
  exists s, claim_state now token force (sync_state d) = Some s /\
    snapshot_generations d !! cs_sync_generation s = None /\
    let d2 := expire now (cs_sync_generation s) (d <| sync_state := Some s |>) in
    (begin cfg now token force d).2 = receive now token (cs_sync_generation s) (drop_generations (outdated cfg now d2) d2).
Proof.
  intros H. unfold begin. destruct (claim_state _ _ _ _) as [s|] eqn:E; [|by left]. rewrite staging. cbn [negb]. right.
  exists s. split; [done|].
  assert (Hnew : snapshot_generations d !! cs_sync_generation s = None).
  { apply eq_None_not_Some. intros [row Hrow]. destruct (ss_range _ H _ _ Hrow) as (s0 & Hs0 & Hle).
    apply claim_generation in E as [_ E]. rewrite Hs0 in E. cbn in E. lia. }
  split; [done|]. cbn zeta. fold (expire now (cs_sync_generation s) (d <| sync_state := Some s |>)).
  set (d2 := expire _ _ _).
  assert (Hnone : snapshot_generations (drop_generations (outdated cfg now d2) d2) !! cs_sync_generation s = None).
  { cbn. rewrite lookup_delete_where, lookup_update_where. cbn. by rewrite Hnew. }
  by rewrite Hnone.
Qed.

(** Dropping keeps the newest publication. *)
Lemma outdated_not_newest now d g : outdated cfg now d g = true -> newest_published d <> Some g /\
  forall run, latest_run d = Some run -> rn_source_generation run.2 <> g.
Proof.
  unfold outdated. destruct (snapshot_generations d !! g); [|done].
  intros [[_ H1%negb_true_iff]%andb_true_iff H2%negb_true_iff]%andb_true_iff.
  apply bool_decide_eq_false in H1, H2. split.
  - intros E. rewrite E in H1. done.
  - intros run E Hg. rewrite E in H2. by apply H2.
Qed.

Lemma begin_generation now token force d g : snapshots_sound d -> publication d g ->
  let d' := (begin cfg now token force d).2 in
  same_generation g d d' \/ (gone g d' /\ newest_published d <> Some g /\
    forall run, latest_run d = Some run -> rn_source_generation run.2 <> g).
Proof.
  intros H Hg. cbn zeta. destruct (begin_step now token force d H) as [->|(s & E & Hnew & ->)]; [by left; split|].
  cbn zeta. set (d1 := d <| sync_state := Some s |>). set (d2 := expire _ _ d1).
  assert (Hne : g <> cs_sync_generation s) by (intros ->; destruct Hg as (row & Hrow & _); congruence).
  assert (H2 : same_generation g d d2) by (destruct (expire_generation now (cs_sync_generation s) d1 g Hg); by split).
  pose proof (drop_generation (outdated cfg now d2) d2 g) as H3.
  destruct (outdated cfg now d2 g) eqn:Ed; [right|left].
  - apply outdated_not_newest in Ed as [Ed1 Ed2]. split_and!; [| |done]; cycle 1.
    { rewrite (newest_published_ext d d2) in Ed1; [done|]. intros g'. exact (expire_publication now (cs_sync_generation s) d1 g'). }
    by apply receive_gone.
  - eapply same_generation_trans; [exact H2|]. by apply receive_same.
Qed.

(** *** The invariant of the generations *)

Lemma begin_row now token generation s d g row :
  let d2 := expire now generation (d <| sync_state := Some s |>) in
  snapshot_generations (receive now token generation (drop_generations (outdated cfg now d2) d2)) !! g = Some row ->
  (g = generation /\ row = SnapshotGeneration GenerationState.RECEIVING token None 0 None None None now) \/
  (g <> generation /\ outdated cfg now d2 g = false /\ exists row0, snapshot_generations d !! g = Some row0 /\
     row = if is_receiving row0 && (g <? generation) then lease_expired now row0 else row0).
Proof.
  cbn zeta. set (d2 := expire _ _ _). intros Hr. change (<[generation := SnapshotGeneration GenerationState.RECEIVING token None 0 None None None now]>
    (delete_where (fun g _ => outdated cfg now d2 g) (snapshot_generations d2)) !! g = Some row) in Hr.
  destruct (decide (g = generation)) as [->|Hne].
  - left. rewrite lookup_insert_eq in Hr. by injection Hr.
  - right. rewrite lookup_insert_ne in Hr by done. apply delete_where_Some in Hr as [(row0 & H0 & ->)%expire_lookup Hd].
    split; [done|]. split; [done|]. by exists row0.
Qed.

(** A published generation that is not outdated is still published, with its staged rows. *)
Lemma begin_kept now token generation s d g :
  let d2 := expire now generation (d <| sync_state := Some s |>) in
  let d' := receive now token generation (drop_generations (outdated cfg now d2) d2) in
  g <> generation -> publication d g -> outdated cfg now d2 g = false -> same_generation g d d'.
Proof.
  cbn zeta. set (d1 := d <| sync_state := Some s |>). set (d2 := expire _ _ _). intros Hne Hg Hd. apply receive_same; [done|].
  pose proof (drop_generation (outdated cfg now d2) d2 g) as H3. rewrite Hd in H3.
  eapply same_generation_trans; [|exact H3]. destruct (expire_generation now generation d1 g Hg); by split.
Qed.

Lemma same_publication g d d' : same_generation g d d' -> publication d g -> publication d' g.
Proof. intros [A _ _ _] (row & Hrow & Hp). exists row. by rewrite A. Qed.

Lemma begin_sound now token force d : snapshots_sound d -> snapshots_sound (begin cfg now token force d).2.
Proof.
  intros H. destruct (begin_step now token force d H) as [->|(s & E & Hnew & ->)]; [done|]. cbn zeta.
  set (G := cs_sync_generation s). set (d1 := d <| sync_state := Some s |>). set (d2 := expire _ _ d1). set (d' := receive _ _ _ _).
  apply claim_generation in E as [Et Eg]. fold G in Hnew, Eg.
  assert (Hs : sync_state d' = Some s) by done.
  assert (Hlt : forall g row, snapshot_generations d !! g = Some row -> g < G).
  { intros g row (s0 & Hs0 & Hle)%(ss_range _ H). rewrite Hs0 in Eg. cbn in Eg. lia. }
  assert (Hrow : forall g row, snapshot_generations d' !! g = Some row ->
    (g = G /\ row = SnapshotGeneration GenerationState.RECEIVING token None 0 None None None now) \/
    (g <> G /\ outdated cfg now d2 g = false /\ exists row0, snapshot_generations d !! g = Some row0 /\
       row = if is_receiving row0 && (g <? G) then lease_expired now row0 else row0))
    by (intros g row; exact (begin_row now token G s d g row)).
  assert (Hkept : forall g, publication d g -> outdated cfg now d2 g = false -> same_generation g d d').
  { intros g Hp. apply begin_kept; [|done]. intros ->. destruct Hp as (row & Hr & _). congruence. }
  assert (Hdropped : forall g, outdated cfg now d2 g = true -> ~ is_Some (snapshot_generations d' !! g)).
  { intros g Hd [row [[-> _]|(_ & Hf & _)]%Hrow]; [|congruence]. unfold outdated in Hd. cbn in Hd. rewrite lookup_update_where in Hd.
    change (snapshot_generations d1) with (snapshot_generations d) in Hd. by rewrite Hnew in Hd. }
  split.
  - intros g row [[-> _]|(_ & _ & row0 & Hr & _)]%Hrow; exists s; (split; [done|]); [done|]. apply Hlt in Hr. unfold G in *. lia.
  - intros s' t Hs' Ht. rewrite Hs in Hs'. injection Hs' as <-. rewrite Et in Ht. injection Ht as <-.
    exists (SnapshotGeneration GenerationState.RECEIVING token None 0 None None None now). split; [|done].
    apply (lookup_insert_eq (M := gmap Z)).
  - intros g row [[-> _]|(_ & _ & row0 & Hr & ->)]%Hrow Hv; [by exists s|]. apply Hlt in Hr. exfalso.
    rewrite (proj2 (Z.ltb_lt _ _) Hr), andb_true_r in Hv. destruct (is_receiving row0) eqn:Er; [done|]. by apply bool_decide_eq_false in Er.
  - intros g k [o Ho]. apply delete_where_Some in Ho as [Ho Hd]. cbn in Hd. destruct (ss_staged _ H g k) as [row0 Hr]; [by eexists|].
    assert (Hne : g <> G) by (intros ->; congruence). eexists. apply lookup_insert_Some. right. split; [done|].
    apply delete_where_Some. split; [|done]. apply expire_lookup. by exists row0.
  - intros k o g Ho Hg. apply delete_where_Some in Ho as [Ho Hd]. cbn in Hd. rewrite Hg in Hd.
    pose proof (ss_observations _ H k o g Ho Hg) as Hp. by apply (same_publication g d); [apply Hkept|].
  - intros k l g Hl Hg. apply delete_where_Some in Hl as [Hl Hd]. cbn in Hd. rewrite Hg in Hd.
    pose proof (ss_links _ H k l g Hl Hg) as Hp. by apply (same_publication g d); [apply Hkept|].
  - intros g row [[-> ->]|(_ & Hd & row0 & Hr & ->)]%Hrow Hp; [done|]. destruct (is_receiving row0 && (g <? G)); [done|].
    rewrite (ss_count _ H g row0 Hr Hp). f_equal. symmetry. apply staged_length. apply Hkept; [by exists row0|done].
Qed.

Lemma owns_lease now generation token d : snapshots_sound d -> owns now generation token d = true ->
  exists s row, sync_state d = Some s /\ cs_sync_generation s = generation /\
    snapshot_generations d !! generation = Some row /\ is_receiving row && bool_decide (sg_lease_token row = token) = true.
Proof.
  intros H Ho. unfold owns in Ho. destruct (sync_state d) as [s|] eqn:E; [|done]. unfold owned in Ho.
  apply andb_true_iff in Ho as [[Hg Ht]%andb_true_iff _]. apply Z.eqb_eq in Hg. apply bool_decide_eq_true in Ht.
  destruct (ss_lease _ H s token E Ht) as (row & Hr & Hs & Hl). rewrite Hg in Hr. exists s, row. split_and!; [done..|].
  unfold is_receiving. by rewrite !bool_decide_true.
Qed.

(** The generation gets its row, and the session its state. *)
Definition settle (generation : Z) (row : snapshot_generation) (s : option contact_sync_state) (d : contact_tables) : contact_tables :=
  d <| snapshot_generations := <[generation := row]> (snapshot_generations d) |> <| sync_state := s |>.

Lemma settle_lookup generation row s d g : snapshot_generations (settle generation row s d) !! g =
  if bool_decide (g = generation) then Some row else snapshot_generations d !! g.
Proof.
  cbn. case_bool_decide as E; [subst; apply (lookup_insert_eq (M := gmap Z))|]. by apply (lookup_insert_ne (M := gmap Z)).
Qed.

(** Whoever holds the lease can publish: the generation is there, receiving, under its token. *)
Lemma complete_step now drawn ids generation token records intervalMs d : snapshots_sound d ->
  (owns now generation token d = false /\ complete cfg now drawn ids generation token records intervalMs d = (inl lost_ownership, d)) \/
  (owns now generation token d = true /\ exists row, snapshot_generations d !! generation = Some row /\
   let d1 := Evidence.publishSnapshot cfg drawn ids now generation d in
   complete cfg now drawn ids generation token records intervalMs d =
     (inr tt, settle generation (published now records (Z.of_nat (length (Evidence.staged generation d1))) row)
                     (completed_state now records intervalMs <$> sync_state d1) d1)).
Proof.
  intros H. unfold complete. destruct (owns now generation token d) eqn:Ho; [right|by left]. split; [done|].
  destruct (owns_lease _ _ _ _ H Ho) as (s & row & _ & _ & Hr & Hp). exists row. split; [done|].
  rewrite staging. cbn [negb]. cbn zeta. set (d1 := Evidence.publishSnapshot _ _ _ _ _ _).
  assert (Hr1 : snapshot_generations d1 !! generation = Some row)
    by (unfold d1, Evidence.publishSnapshot; by destruct (negb _)).
  unfold update_row. by rewrite Hr1, Hp.
Qed.

Lemma publish_frame drawn ids now generation d : let d1 := Evidence.publishSnapshot cfg drawn ids now generation d in
  snapshot_generations d1 = snapshot_generations d /\ snapshot_observations d1 = snapshot_observations d /\ sync_state d1 = sync_state d.
Proof. cbn zeta. unfold Evidence.publishSnapshot. by destruct (negb _). Qed.

(** Publishing the generation under the lease keeps the invariant: nothing else is
    received, and the lease ends. *)
Lemma settle_sound generation row s s' d d1 : snapshots_sound d -> sync_state d = Some s ->
  snapshot_observations d1 = snapshot_observations d -> snapshot_generations d1 = snapshot_generations d ->
  (forall g, g <> generation -> same_generation g d d1) ->
  generation = cs_sync_generation s -> cs_sync_generation s' = cs_sync_generation s -> cs_lease_token s' = None ->
  sg_state row = GenerationState.PUBLISHED ->
  sg_staged_identity_count row = Z.of_nat (length (Evidence.staged generation d1)) ->
  snapshots_sound (settle generation row (Some s') d1).
Proof.
  intros H Hs F1 F2 Q Hgs Eg Et Hv Hcount.
  assert (Hkept : forall g, g = generation \/ publication d g -> publication (settle generation row (Some s') d1) g).
  { intros g Hg. unfold publication. rewrite settle_lookup. case_bool_decide as E; [by exists row|].
    destruct Hg as [Hg|(r & Hg & Hp)]; [done|]. exists r. by rewrite F2. }
  split.
  - intros g r. rewrite settle_lookup. intros Hg. exists s'. split; [done|]. case_bool_decide as E; [lia|]. rewrite F2 in Hg.
    apply (ss_range _ H) in Hg as (s0 & Hs0 & Hle). rewrite Hs in Hs0. injection Hs0 as <-. lia.
  - intros s0 t [= <-] Ht0. congruence.
  - intros g r. rewrite settle_lookup. case_bool_decide as E; [intros [= <-]; congruence|]. rewrite F2. intros Hg Hr.
    destruct (ss_receiving _ H g r Hg Hr) as (s0 & Hs0 & ->). rewrite Hs in Hs0. injection Hs0 as <-. congruence.
  - intros g k Hk. change (is_Some (snapshot_observations d1 !! (g, k))) in Hk. rewrite settle_lookup.
    case_bool_decide; [by eexists|]. rewrite F2. rewrite F1 in Hk. by apply (ss_staged _ H) in Hk.
  - intros k o g Hk Hg. apply Hkept. destruct (decide (g = generation)) as [|Hne]; [by left|right].
    apply (ss_observations _ H k o); [|done]. by apply (sm_observations _ _ _ (Q g Hne)).
  - intros k l g Hk Hg. apply Hkept. destruct (decide (g = generation)) as [|Hne]; [by left|right].
    apply (ss_links _ H k l); [|done]. by apply (sm_links _ _ _ (Q g Hne)).
  - intros g r. rewrite settle_lookup. case_bool_decide as E; [intros [= <-] _; by subst|]. rewrite F2. intros Hg Hpub.
    rewrite (ss_count _ H g r Hg Hpub). f_equal. symmetry. apply staged_length. intros k.
    change (snapshot_observations d1 !! (g, k) = snapshot_observations d !! (g, k)). by rewrite F1.
Qed.

Lemma complete_sound now drawn ids generation token records intervalMs d : snapshots_sound d ->
  snapshots_sound (complete cfg now drawn ids generation token records intervalMs d).2.
Proof.
  intros H. destruct (complete_step now drawn ids generation token records intervalMs d H) as [[_ ->]|(Ho & row & Hr & E)]; [done|].
  destruct (owns_lease _ _ _ _ H Ho) as (s & row' & Hs & Hgs & _). cbn zeta in E.
  destruct (publish_frame drawn ids now generation d) as (F1 & F2 & F3). cbn zeta in F1, F2, F3.
  rewrite E, F3, Hs. eapply (settle_sound _ _ s _ d); try done. intros g Hne. by apply publish_quiet.
Qed.

Lemma fail_sound now generation token code d : snapshots_sound d -> snapshots_sound (fail cfg now generation token code d).
Proof.
  intros [R L V S O K C]. pose proof (fun g => fail_generation now generation token code d g) as Hsame. revert Hsame.
  unfold fail. rewrite staging. set (d' := _ <| sync_state := _ |>). intros Hsame.
  assert (Hrow : forall g r, snapshot_generations d' !! g = Some r -> exists r0, snapshot_generations d !! g = Some r0 /\
    r = if bool_decide (g = generation) && (bool_decide (sg_lease_token r0 = token) && is_receiving r0) then failed now code r0 else r0).
  { intros g r. change ((update_row generation (fun g => bool_decide (sg_lease_token g = token) && is_receiving g) (failed now code)
      (snapshot_generations d)).2 !! g = Some r -> exists r0, snapshot_generations d !! g = Some r0 /\
      r = if bool_decide (g = generation) && (bool_decide (sg_lease_token r0 = token) && is_receiving r0) then failed now code r0 else r0).
    rewrite lookup_update_row. destruct (snapshot_generations d !! g) as [r0|]; [|done]. intros [= <-]. by exists r0. }
  assert (Hsync : sync_state d' = (fun s => if (cs_sync_generation s =? generation) && bool_decide (cs_lease_token s = Some token)
     then failed_state now code s else s) <$> sync_state d) by done.
  assert (Hs : forall s, sync_state d = Some s -> exists s', sync_state d' = Some s' /\ cs_sync_generation s' = cs_sync_generation s).
  { intros s E. rewrite Hsync, E. eexists. split; [done|]. by destruct (_ && _). }
  split.
  - intros g r (r0 & (s & Es & Hle)%R & _)%Hrow. destruct (Hs s Es) as (s' & Es' & Eg). exists s'. split; [done|lia].
  - intros s' t Es' Ht. rewrite Hsync in Es'. destruct (sync_state d) as [s|] eqn:Es; [|done]. injection Es' as <-.
    destruct ((cs_sync_generation s =? generation) && bool_decide (cs_lease_token s = Some token)) eqn:E; [done|].
    destruct (L s t eq_refl Ht) as (row & Hr & Hv & Htok). exists row. split; [|done].
    change ((update_row generation (fun g => bool_decide (sg_lease_token g = token) && is_receiving g) (failed now code)
      (snapshot_generations d)).2 !! cs_sync_generation s = Some row). rewrite lookup_update_row, Hr. cbn. f_equal.
    destruct (bool_decide (cs_sync_generation s = generation)) eqn:E1; [|done]. apply bool_decide_eq_true in E1.
    destruct (bool_decide (sg_lease_token row = token)) eqn:E2; [|done]. apply bool_decide_eq_true in E2.
    rewrite (proj2 (Z.eqb_eq _ _) E1), Ht, bool_decide_true in E by congruence. done.
  - intros g r (r0 & Hr & ->)%Hrow Hv. destruct (bool_decide _ && _); [done|]. destruct (V g r0 Hr Hv) as (s & Es & ->).
    destruct (Hs s Es) as (s' & Es' & Eg). by exists s'.
  - intros g k Hk. apply S in Hk as [r Hr]. change (is_Some ((update_row generation (fun g => bool_decide (sg_lease_token g = token) && is_receiving g)
      (failed now code) (snapshot_generations d)).2 !! g)). rewrite lookup_update_row, Hr. by eexists.
  - intros k o g Hk Hg. pose proof (O k o g Hk Hg) as Hp. exact (same_publication g d d' (Hsame g Hp) Hp).
  - intros k l g Hk Hg. pose proof (K k l g Hk Hg) as Hp. exact (same_publication g d d' (Hsame g Hp) Hp).
  - intros g r (r0 & Hr & ->)%Hrow Hv. destruct (bool_decide _ && _); [done|]. exact (C g r0 Hr Hv).
Qed.

Lemma ingest_generations now drawn generation token page d : snapshots_sound d ->
  snapshots_sound (ingestObservedPage cfg nfc md5 now drawn generation token page d).2.
Proof.
  intros H. destruct (ingest_quiet now drawn generation token page d) as [->|(Ho & Q & Hrow & Hk)]; [done|].
  apply (quiet_sound d); [done| | |done].
  - intros g k Hg. apply Hk. intros ->. by eapply owned_not_published.
  - intros g k. destruct (decide (g = generation)) as [->|Hne]; [done|]. rewrite Hk by done. apply (ss_staged _ H).
Qed.

Lemma snapshots_op d d' : snapshots_sound d -> op d d' -> snapshots_sound d'.
Proof.
  intros H Hop. destruct Hop.
  - by apply begin_sound.
  - by apply ingest_generations.
  - destruct (reconcile_quiet now generation token d) as [Q E]. apply (quiet_sound d); [done| | |done]; intros g k.
    + by rewrite E.
    + rewrite E. apply (ss_staged _ H).
  - by apply complete_sound.
  - by apply fail_sound.
  - destruct (observe_quiet now candidate observationId drawn rq rawIdentity rawName observedAt k d) as [Q E].
    apply (quiet_sound d); [done| | |done]; intros g k'.
    + by rewrite E.
    + rewrite E. apply (ss_staged _ H).
  - destruct (members_quiet now candidate drawn ids rq groupId participants d) as [Q E]. apply (quiet_sound d); [done| | |done]; intros g k.
    + by rewrite E.
    + rewrite E. apply (ss_staged _ H).
  - destruct H as [R L V S O K C]. split; done.
  - destruct H as [R L V S O K C]. split; done.
Qed.

Lemma snapshots_always d : reachable d -> snapshots_sound d.
Proof.
  apply reachable_keeps; [|apply snapshots_op].
  split; cbn; intros *; by rewrite ?lookup_empty.
Qed.

Lemma quiet_same d d' g : quiet d d' -> snapshot_observations d' = snapshot_observations d -> same_generation g d d'.
Proof. intros Q E. apply quiet_generation; [done|]. intros k. by rewrite E. Qed.

Lemma newer_publication d g : publication d g -> newest_published d <> Some g -> exists newer, publication d newer /\ g < newer.
Proof.
  intros Hp Hn. destruct (newest_published d) as [g0|] eqn:E.
  - pose proof E as [H0 Hmax]%newest_published_spec. exists g0. split; [done|]. apply Hmax in Hp. assert (g <> g0) by congruence. lia.
  - apply published_elem in Hp. rewrite <- (order_by_elem (fun a b => b <=? a)) in Hp. apply head_None in E. unfold newest_published in E.
    rewrite E in Hp. by apply not_elem_of_nil in Hp.
Qed.

(** C23: a published snapshot is final.  Whatever transaction follows, begun, received,
    completed or failed under any lease, the row of a published generation, the rows staged
    under it and the evidence published from it stay as they are, or the retention removes
    all of them at once; and that never happens to the newest publication nor to the one the
    contacts were resolved from. *)
Theorem published_is_final (d d' : contact_tables) (g : Z)
    (Hr : reachable d) (Hop : op d d') (Hg : publication d g) :
  same_generation g d d' \/
  (gone g d' /\ (exists newer, publication d newer /\ g < newer) /\
   forall run, latest_run d = Some run -> rn_source_generation run.2 <> g).
Proof.
  apply snapshots_always in Hr as H. destruct Hop.
  - destruct (begin_generation now token force d g H Hg) as [|(H1 & H2 & H3)]; [by left|right].
    split; [done|]. split; [by apply newer_publication|done].
  - left. destruct (ingest_quiet now drawn generation token page d) as [->|(Ho & Q & _ & Hk)]; [by split|].
    apply quiet_generation; [done|]. intros k. apply Hk. intros ->. by eapply owned_not_published.
  - left. destruct (reconcile_quiet now generation token d). by apply quiet_same.
  - left. by apply complete_generation.
  - left. by apply fail_generation.
  - left. destruct (observe_quiet now candidate observationId drawn rq rawIdentity rawName observedAt k d). by apply quiet_same.
  - left. destruct (members_quiet now candidate drawn ids rq groupId participants d). by apply quiet_same.
  - left. by split.
  - left. by split.
Qed.

(** A snapshot publishes what was staged, whole.  In every reachable state the row of a
    published generation counts exactly the identities staged under it, whatever is kept
    belongs to a generation that is there and evidence to a published one; at most one
    generation is being received, the one of the session's state, and whoever holds its
    lease can publish it: [complete] then succeeds. *)
Theorem publication_is_exact (d : contact_tables) (Hr : reachable d) :
  (forall g row, snapshot_generations d !! g = Some row -> sg_state row = GenerationState.PUBLISHED ->
     sg_staged_identity_count row = Z.of_nat (length (Evidence.staged g d))) /\
  (forall g k, is_Some (snapshot_observations d !! (g, k)) -> is_Some (snapshot_generations d !! g)) /\
  (forall k o g, contact_observations d !! k = Some o -> no_source_generation o = Some g -> publication d g) /\
  (forall k l g, contact_link_evidence d !! k = Some l -> ln_source_generation l = Some g -> publication d g) /\
  (forall g row, snapshot_generations d !! g = Some row -> sg_state row = GenerationState.RECEIVING ->
     exists s, sync_state d = Some s /\ g = cs_sync_generation s) /\
  (forall now drawn ids generation token records intervalMs,
     let '(answer, d') := complete cfg now drawn ids generation token records intervalMs d in
     if owns now generation token d
     then answer = inr tt /\ publication d' generation /\
          cs_lease_token <$> sync_state d' = Some None
     else answer = inl lost_ownership /\ d' = d).
Proof.
  apply snapshots_always in Hr as H. split; [apply (ss_count _ H)|]. split; [apply (ss_staged _ H)|].
  split; [apply (ss_observations _ H)|]. split; [apply (ss_links _ H)|]. split; [apply (ss_receiving _ H)|].
  intros now drawn ids generation token records intervalMs.
  destruct (complete_step now drawn ids generation token records intervalMs d H) as [[Ho ->]|(Ho & row & Hrow & E)]; rewrite Ho; [done|].
  destruct (owns_lease _ _ _ _ H Ho) as (s & _ & Hs & _). destruct (publish_frame drawn ids now generation d) as (_ & _ & F3).
  cbn zeta in E, F3. rewrite E. split; [done|]. split.
  - eexists. rewrite settle_lookup, bool_decide_true by done. by split.
  - unfold settle. cbn. by rewrite F3, Hs.
Qed.

(** C24: names never drift.  Through any sequence of transactions every contact shows exactly
    the name that its stored names give it, with the source of that name, and, where
    members are kept up to date, every member shows what its contact and its own name in the
    group give; and no identifier, name or member refers to a contact that is gone. *)
Theorem names_never_drift (d : contact_tables) (Hr : reachable d) :
  (forall id c, contacts d !! id = Some c ->
     (ct_effective_display_name c, ct_display_name_source c) = effective_name d id) /\
  (CONTACT_LEGACY_MEMBER_FANOUT_ENABLED cfg = true ->
   forall k m c row, group_members d !! k = Some m -> gm_contact_id m = Some c -> contacts d !! c = Some row ->
     (gm_display_name m, gm_display_name_source m) = member_name row m) /\
  (forall k i, contact_identifiers d !! k = Some i -> is_Some (contacts d !! ci_contact_id i)) /\
  (forall k n, contact_names d !! k = Some n -> is_Some (contacts d !! k.1)) /\
  (forall k m, group_members d !! k = Some m -> exists c, gm_contact_id m = Some c /\ is_Some (contacts d !! c)).
Proof.
  apply sound_always in Hr as [[L1 L2 L3] C M]. split; [|split; [|done]].
  - intros id c Hc. apply (C id c Hc). by apply not_elem_of_nil.
  - intros Hf k m c row Hm Hc Hrow. apply (M Hf k m c row Hm Hc Hrow). by apply not_elem_of_nil.
Qed.

End Life.

(** A snapshot of one page, published; then the next one begins. *)
Definition example_cfg : contact_config := ContactConfig true 7 true true true.

Definition begun : contact_tables := (begin example_cfg 1000 5 true empty_contacts).2.

Definition received : contact_tables :=
  (ingestObservedPage example_cfg id id 1001 (fun n => Pos.of_succ_nat n) 1 5
     [OpenWAContact "62811@c.us" "62811" (Some "Ann Lee") (Some "annie"); OpenWAContact "9000@lid" "" None (Some "bo")] begun).2.

Definition finished : contact_tables :=
  (complete example_cfg 1002 (fun k => Pos.of_succ_nat (String.length k.2)) (fun k => Pos.of_succ_nat (String.length k.2)) 1 5 2 60000 received).2.

Lemma finished_reachable : reachable example_cfg id id finished.
Proof.
  unfold reachable. apply (rtc_l _ _ begun); [apply op_begin|]. apply (rtc_l _ _ received); [apply op_ingest|].
  apply rtc_once, op_complete.
Qed.

Lemma finished_publication : publication finished 1.
Proof.
  exists (default (SnapshotGeneration GenerationState.FAILED 1 None 0 None None None 0) (snapshot_generations finished !! 1)).
  split; vm_compute; reflexivity.
Qed.

Lemma published_is_final_witness :
  let next := (begin example_cfg 99999999 6 true finished).2 in
  snapshot_generations next !! 2 <> None /\ same_generation 1 finished next.
Proof.
  cbn zeta. split; [by vm_compute|].
  destruct (published_is_final example_cfg id id eq_refl finished (begin example_cfg 99999999 6 true finished).2 1
    finished_reachable (op_begin _ _ _ _ _ _ _) finished_publication) as [H|[(H & _) _]]; [exact H|].
  exfalso. vm_compute in H. discriminate H.
Defined.

Lemma publication_is_exact_witness :
  publication finished 1 /\ sg_staged_identity_count <$> snapshot_generations finished !! 1 = Some 2 /\
  forall k o g, contact_observations finished !! k = Some o -> no_source_generation o = Some g -> publication finished g.
Proof.
  split; [exact finished_publication|]. split; [by vm_compute|].
  destruct (publication_is_exact example_cfg id id eq_refl finished finished_reachable) as (_ & _ & H & _). exact H.
Defined.

Lemma names_never_drift_witness :
  ct_effective_display_name <$> contacts finished !! 1%positive = Some (Some "Ann Lee") /\
  forall id c, contacts finished !! id = Some c ->
    (ct_effective_display_name c, ct_display_name_source c) = effective_name finished id.
Proof.
  split; [by vm_compute|]. destruct (names_never_drift example_cfg id id finished finished_reachable) as (H & _). exact H.
Defined.

End SnapshotLife.
