(* ===== verification/ContactResolution.v ===== *)
(** * Resolution of the observed identities of a session

    [src/src/modules/contacts/contact-resolution.repository.ts] and
    [contact-resolution.tick.ts]: each published generation is resolved once.  The links
    observed in it and before it connect identities to phones; links that contradict each
    other are left out and their identities quarantined; the components of the others are
    the clusters, each with the phone and the name it resolves to.  [allowed] says whether
    the session is one of those the process may work for. *)

From S2P Require Import Prelude Schema SendPolicy Service ContactSchema ContactQueue ContactIdentity Relational ContactEvidence ContactStore ContactSnapshots.
From stdpp Require Import relations.

Import Queue Snapshots.

Module Resolution.

Local Open Scope Z_scope.

Section Repo.
Context (allowed projectionEnabled : bool).

(** *** Runs *)

(** ORDER BY published_at: NULL comes last. *)
Definition published_order (a b : Z * snapshot_generation) : bool :=
  match sg_published_at a.2, sg_published_at b.2 with
  | Some x, Some y => x <=? y
  | None, Some _ => false
  | _, None => true
  end.

Definition has_run (d : contact_tables) (generation : Z) : bool :=
  exists_where (fun _ r => rn_source_generation r =? generation) (resolution_runs d).

(** The published generations without a run; [published_at] is set by the check of the table. *)
Definition unresolved (limit : nat) (d : contact_tables) : list (Z * timestamp) :=
  omap (fun gr => (fun at_ => (gr.1, at_)) <$> sg_published_at gr.2)
    (take limit (order_by published_order
       (select_where (fun g row => is_published row && allowed && negb (has_run d g)) (snapshot_generations d)))).

Definition new_run (now : timestamp) (g : Z * timestamp) : resolution_run :=
  ResolutionRun g.1 g.2 ResolutionStatus.PENDING 0 now None None None None None None None None now.

Definition enqueuePublished (now : timestamp) (ids : Z -> uuid) (limit : nat) (d : contact_tables) : Z * contact_tables :=
  let rows := unresolved limit d in
  (Z.of_nat (length rows),
   d <| resolution_runs := foldl (fun t g => <[ids g.1 := new_run now g]> t) (resolution_runs d) rows |>).

Definition claimable (now : timestamp) (r : resolution_run) : bool :=
  match rn_status r with
  | ResolutionStatus.PENDING | ResolutionStatus.RETRY => rn_next_attempt_at r <=? now
  | ResolutionStatus.RUNNING => before (rn_lease_expires_at r) now
  | _ => false
  end.

(** ORDER BY next_attempt_at, created_at *)
Definition claim_order (a b : uuid * resolution_run) : bool :=
  (rn_next_attempt_at a.2 <? rn_next_attempt_at b.2)
  || ((rn_next_attempt_at a.2 =? rn_next_attempt_at b.2) && (rn_created_at a.2 <=? rn_created_at b.2)).

Definition run_lease_ms : Z := 300000.

Definition claimed (now : timestamp) (token : uuid) (r : resolution_run) : resolution_run :=
  r <| rn_status := ResolutionStatus.RUNNING |> <| rn_attempt_count := rn_attempt_count r + 1 |>
    <| rn_lease_token := Some token |> <| rn_lease_expires_at := Some (now + run_lease_ms) |>
    <| rn_started_at := Some (default now (rn_started_at r)) |> <| rn_error_code := None |>.

(** FOR UPDATE SKIP LOCKED: the rows other transactions have [locked] are not looked at. *)
Definition claim (now : timestamp) (locked : uuid -> bool) (token : uuid) (d : contact_tables)
    : option uuid * contact_tables :=
  match head (order_by claim_order
          (select_where (fun id r => allowed && claimable now r && negb (locked id)) (resolution_runs d))) with
  | None => (None, d)
  | Some (id, r) => (Some id, d <| resolution_runs := <[id := claimed now token r]> (resolution_runs d) |>)
  end.

Definition owned_run (now : timestamp) (token : uuid) (r : resolution_run) : bool :=
  bool_decide (rn_status r = ResolutionStatus.RUNNING) && bool_decide (rn_lease_token r = Some token)
  && after (rn_lease_expires_at r) now.

(** *** Links *)

(** [resolution_edge_candidates]: what the generation observed, and what was there before *)
Definition in_scope (generation : Z) (cutoff : timestamp) (source_generation : option Z) (created_at : timestamp) : bool :=
  match source_generation with
  | Some g => g =? generation
  | None => created_at <=? cutoff
  end.

Record link := Link { lk_left : uuid; lk_right : uuid; lk_source : LinkSource.t }.

Definition candidates (generation : Z) (cutoff : timestamp) (d : contact_tables) : list link :=
  map (fun kv => Link (ln_left_identity_id kv.2) (ln_right_identity_id kv.2) kv.1.1)
    (select_where (fun _ l => in_scope generation cutoff (ln_source_generation l) (ln_created_at l)) (contact_link_evidence d)).

(** GROUP BY .. HAVING count(DISTINCT ..) > 1 *)
Definition several (l : list (uuid * uuid)) : list uuid :=
  List.filter (fun x => (1 <? length (remove_dups (map snd (List.filter (fun e => bool_decide (e.1 = x)) l))))%nat)
    (remove_dups (map fst l)).

Definition multiple_targets (ls : list link) : list uuid := several (map (fun l => (lk_left l, lk_right l)) ls).

Definition by_contact (l : link) : bool := bool_decide (lk_source l = LinkSource.OPENWA_CONTACT_PHONE).

Definition is_alias (d : contact_tables) (id : uuid) : bool :=
  match identity_by_id d id with Some k => negb (bool_decide (k.1 = IdentityType.PHONE_JID)) | None => false end.

Definition shared_phone (d : contact_tables) (ls : list link) : list uuid :=
  several (map (fun l => (lk_right l, lk_left l)) (List.filter (fun l => by_contact l && is_alias d (lk_left l)) ls)).

Definition shared_aliases (d : contact_tables) (ls : list link) : list uuid :=
  map lk_left (List.filter (fun l => by_contact l && mem (lk_right l) (shared_phone d ls)) ls).

(** [resolution_conflicted_identities] *)
Definition conflicted (d : contact_tables) (ls : list link) : list (uuid * ConflictCode.t) :=
  remove_dups (map (fun id => (id, ConflictCode.MULTIPLE_PHONE_TARGETS)) (multiple_targets ls)
    ++ map (fun id => (id, ConflictCode.PHONE_SHARED_BY_MULTIPLE_NON_PHONE_IDENTITIES)) (shared_aliases d ls)).

Definition quarantined (d : contact_tables) (ls : list link) (id : uuid) : bool := mem id (map fst (conflicted d ls)).

(** [resolution_eligible_edges] *)
Definition eligible (d : contact_tables) (ls : list link) : list (uuid * uuid) :=
  remove_dups (map (fun l => (lk_left l, lk_right l))
    (List.filter (fun l => bool_decide (lk_source l = LinkSource.PHONE_JID_DERIVATION)
                           || negb (quarantined d ls (lk_left l))) ls)).

(** *** Clusters *)

(** The nodes of [resolution_components] *)
Definition roots (cutoff : timestamp) (d : contact_tables) : list uuid :=
  map (fun kv => oc_id kv.2) (select_where (fun _ o => oc_first_observed_at o <=? cutoff) (observed_identities d)).

(** SELECT node, min(root) FROM reach GROUP BY node *)
Definition components (rs : list uuid) (edges : list (uuid * uuid)) : list (uuid * uuid) :=
  let reached := map (fun root => (root, reach (undirected edges) root)) rs in
  omap (fun node =>
    (fun cluster => (node, cluster)) <$> minimum (map fst (List.filter (fun r => bool_decide (node ∈ r.2)) reached)))
    (remove_dups (flat_map (fun r => elements r.2) reached)).

Definition in_cluster (comps : list (uuid * uuid)) (cluster : uuid) : list uuid :=
  map fst (List.filter (fun c => bool_decide (c.2 = cluster)) comps).

(** The phone of a cluster, when it has exactly one *)
Definition cluster_phone (keys : list identity_key) : option string :=
  match remove_dups (map snd (List.filter (fun k => bool_decide (k.1 = IdentityType.PHONE)) keys)) with
  | [phone] => Some phone
  | _ => None
  end.

(** INSERT INTO resolved_contact_clusters .. JOIN observed_contact_identities .. GROUP BY *)
Definition cluster_rows (run : uuid) (d : contact_tables) (comps : list (uuid * uuid)) : list ((uuid * uuid) * resolved_cluster) :=
  omap (fun cluster =>
    let keys := omap (identity_by_id d) (in_cluster comps cluster) in
    if bool_decide (keys = []) then None
    else Some ((run, cluster), ResolvedCluster (cluster_phone keys) None (Z.of_nat (length keys))))
    (remove_dups comps.*2).

(** INSERT INTO resolved_identity_assignments .. JOIN resolved_contact_clusters *)
Definition assignment_rows (run : uuid) (d : contact_tables) (ls : list link) (clusters : gmap (uuid * uuid) resolved_cluster)
    (comps : list (uuid * uuid)) : list ((uuid * uuid) * identity_assignment) :=
  omap (fun c =>
    (fun row => ((run, c.1), IdentityAssignment c.2 (quarantined d ls c.1)
                               (if quarantined d ls c.1 then None else rc_resolved_phone_number row)))
    <$> clusters !! (run, c.2)) comps.

(** ORDER BY source_observed_at DESC, source_observation_key DESC, id *)
Definition observation_order (a b : (NameSource.t * string) * name_observation) : bool :=
  if no_source_observed_at a.2 =? no_source_observed_at b.2
  then if bool_decide (a.1.2 = b.1.2) then (no_id a.2 <=? no_id b.2)%positive else text_leb b.1.2 a.1.2
  else no_source_observed_at b.2 <? no_source_observed_at a.2.

(** The latest contact name observed of the identities of a cluster *)
Definition cluster_name (generation : Z) (cutoff : timestamp) (run cluster : uuid) (d : contact_tables) : option (uuid * string) :=
  (fun o => (no_id o.2, no_name_value o.2)) <$>
  head (order_by observation_order (select_where (fun k o =>
    bool_decide (k.1 = NameSource.OPENWA_CONTACT_NAME) && in_scope generation cutoff (no_source_generation o) (no_created_at o)
    && match resolved_assignments d !! (run, no_identity_id o) with
       | Some ia => bool_decide (ia_cluster_id ia = cluster)
       | None => false
       end) (contact_observations d))).

(** UPDATE resolved_contact_clusters SET contact_display_name .. FROM ranked *)
Definition name_clusters (generation : Z) (cutoff : timestamp) (run : uuid) (d : contact_tables) : contact_tables :=
  d <| resolved_clusters := map_imap (fun k c => Some (
         if bool_decide (k.1 = run)
         then match cluster_name generation cutoff run k.2 d with Some n => c <| rc_name := Some n |> | None => c end
         else c)) (resolved_clusters d) |>.

(** DELETE FROM resolved_contact_clusters: assignments and conflicts go with them. *)
Definition clear_run (run : uuid) (d : contact_tables) : contact_tables :=
  d <| resolved_clusters := delete_where (fun k _ => bool_decide (k.1 = run)) (resolved_clusters d) |>
    <| resolved_assignments := delete_where (fun k _ => bool_decide (k.1 = run)) (resolved_assignments d) |>
    <| resolution_conflicts := filter (fun x => x.1.1 <> run) (resolution_conflicts d) |>.

(** What the run stores of clusters and assignments *)
Definition store (run : uuid) (generation : Z) (cutoff : timestamp) (ls : list link) (comps : list (uuid * uuid))
    (d : contact_tables) : contact_tables :=
  let d1 := d <| resolved_clusters := foldl (fun t kv => <[kv.1 := kv.2]> t) (resolved_clusters d) (cluster_rows run d comps) |> in
  let d2 := d1 <| resolved_assignments := foldl (fun t kv => <[kv.1 := kv.2]> t) (resolved_assignments d1)
                    (assignment_rows run d1 ls (resolved_clusters d1) comps) |> in
  let d3 := d2 <| resolution_conflicts := resolution_conflicts d2 ∪ list_to_set (map (fun c => (run, c.1, c.2))
                    (List.filter (fun c => negb (is_null (resolved_assignments d2 !! (run, c.1)))) (conflicted d ls))) |> in
  name_clusters generation cutoff run d3.

(** *** Completion *)

Record result := Result { re_identities : Z; re_clusters : Z; re_linkedIdentities : Z; re_conflictIdentities : Z }.

Definition metrics (conflicts : list (uuid * ConflictCode.t)) (comps : list (uuid * uuid)) : result :=
  let sizes := map (fun c => Z.of_nat (length (in_cluster comps c))) (remove_dups comps.*2) in
  Result (foldr Z.add 0 sizes) (Z.of_nat (length sizes)) (foldr Z.add 0 (List.filter (Z.ltb 1) sizes))
    (Z.of_nat (length (remove_dups (List.filter (fun id => mem id comps.*1) conflicts.*1)))).

Definition completed_run (clock : timestamp) (m : result) (d : contact_tables) (r : resolution_run) : resolution_run :=
  r <| rn_status := ResolutionStatus.COMPLETED |>
    <| rn_counts := Some (re_identities m, re_clusters m, re_linkedIdentities m, re_conflictIdentities m) |>
    <| rn_legacy_counts := Some (Z.of_nat (size (contacts d)), count_where (fun _ g => negb (is_null (gm_contact_id g))) (group_members d)) |>
    <| rn_completed_at := Some clock |> <| rn_failed_at := None |> <| rn_error_code := None |>
    <| rn_lease_token := None |> <| rn_lease_expires_at := None |>.

Definition lost_resolution : failure := JsError "Contact resolution lost ownership".
Definition lost_completion : failure := JsError "Contact resolution lost completion ownership".

(** *** What the run changed *)

Definition previous_run (run : uuid) (d : contact_tables) : option uuid :=
  fst <$> head (order_by completed_order (select_where (fun id r =>
    bool_decide (rn_status r = ResolutionStatus.COMPLETED) && negb (bool_decide (id = run))) (resolution_runs d))).

Definition assignments_of (run : uuid) (d : contact_tables) : list (uuid * identity_assignment) :=
  map (fun kv => (kv.1.2, kv.2)) (select_where (fun k _ => bool_decide (k.1 = run)) (resolved_assignments d)).

Definition assigned_in (run : option uuid) (d : contact_tables) (id : uuid) : option identity_assignment :=
  run ← run; resolved_assignments d !! (run, id).

Definition cluster_in (run : option uuid) (d : contact_tables) (id : uuid) : option resolved_cluster :=
  run ← run; resolved_clusters d !! (run, id).

(** [changed_assignments]: those that are new or say something else, and those that are gone *)
Definition changed_assignments (run : uuid) (d : contact_tables) : list uuid :=
  let previous := previous_run run d in
  remove_dups
    (map fst (List.filter (fun ia => negb (bool_decide (assigned_in previous d ia.1 = Some ia.2))) (assignments_of run d))
     ++ match previous with
        | Some p => List.filter (fun id => is_null (assigned_in (Some run) d id)) (map fst (assignments_of p d))
        | None => []
        end).

Definition cluster_facts (c : resolved_cluster) : option string * Z * option string :=
  (rc_resolved_phone_number c, rc_identity_count c, snd <$> rc_name c).

(** [changed_clusters] *)
Definition changed_clusters (run : uuid) (d : contact_tables) : list uuid :=
  let previous := previous_run run d in
  map (fun kv => kv.1.2)
    (select_where (fun k c => bool_decide (k.1 = run)
       && negb (bool_decide (cluster_facts <$> cluster_in previous d k.2 = Some (cluster_facts c)))) (resolved_clusters d)).

(** The identities whose projections the run asks for, ORDER BY identity_id *)
Definition affected (run : uuid) (d : contact_tables) : list uuid :=
  order_by Pos.leb (remove_dups
    (map (fun id => default id (ia_cluster_id <$> assigned_in (Some run) d id)) (changed_assignments run d)
     ++ changed_clusters run d)).

Definition request_changed (rq : request) (run : uuid) (d : contact_tables) : contact_tables :=
  if projectionEnabled then (enqueueContactProjectionWork rq (affected run d) d).2 else d.

(** [now] is that of the transaction, [clock] what [clock_timestamp()] says at its end. *)
Definition resolve (rq : request) (now clock : timestamp) (run token : uuid) (d : contact_tables) : (failure + result) * contact_tables :=
  match resolution_runs d !! run with
  | None => (inl lost_resolution, d)
  | Some r =>
      if negb (owned_run now token r) then (inl lost_resolution, d)
      else
        let generation := rn_source_generation r in
        let cutoff := rn_evidence_cutoff_at r in
        let d1 := clear_run run d in
        let ls := candidates generation cutoff d1 in
        let comps := components (roots cutoff d1) (eligible d1 ls) in
        let d2 := store run generation cutoff ls comps d1 in
        let m := metrics (conflicted d1 ls) comps in
        match update_row run (fun r => bool_decide (rn_lease_token r = Some token)) (completed_run clock m d2) (resolution_runs d2) with
        | (None, _) => (inl lost_completion, d)
        | (Some _, runs) => (inr m, request_changed rq run (d2 <| resolution_runs := runs |>))
        end
  end.

(** 30 s, doubled with each attempt, an hour at most *)
Definition retry_ms (attempts : Z) : Z := Z.min 3600 (30 * 2 ^ Z.min attempts 7) * 1000.

Definition failed_run (now : timestamp) (r : resolution_run) : resolution_run :=
  r <| rn_status := if 5 <=? rn_attempt_count r then ResolutionStatus.FAILED else ResolutionStatus.RETRY |>
    <| rn_next_attempt_at := now + retry_ms (rn_attempt_count r) |>
    <| rn_failed_at := if 5 <=? rn_attempt_count r then Some now else rn_failed_at r |>
    <| rn_error_code := Some "RESOLUTION_ERROR" |> <| rn_lease_token := None |> <| rn_lease_expires_at := None |>.

Definition fail (now : timestamp) (run token : uuid) (d : contact_tables) : contact_tables :=
  d <| resolution_runs := (update_row run (fun r => bool_decide (rn_status r = ResolutionStatus.RUNNING)
                             && bool_decide (rn_lease_token r = Some token)) (failed_run now) (resolution_runs d)).2 |>.

(** *** [ContactResolutionTick] *)

(** When each transaction of one round happens, and what it draws *)
Record round := Round {
  ro_claim : timestamp; ro_token : uuid; ro_resolve : timestamp; ro_clock : timestamp; ro_request : request; ro_fail : timestamp }.

(** One round for each of the [maxRunsPerTick]; the error of a round ends the tick. *)
Fixpoint rounds (locked : uuid -> bool) (rs : list round) (d : contact_tables) : (failure + unit) * contact_tables :=
  match rs with
  | [] => (inr tt, d)
  | r :: rs' =>
      match claim (ro_claim r) locked (ro_token r) d with
      | (None, d1) => (inr tt, d1)
      | (Some id, d1) =>
          match resolve (ro_request r) (ro_resolve r) (ro_clock r) id (ro_token r) d1 with
          | (inr _, d2) => rounds locked rs' d2
          | (inl e, d2) => (inl e, fail (ro_fail r) id (ro_token r) d2)
          end
      end
  end.

Definition run (enabled : bool) (now : timestamp) (ids : Z -> uuid) (locked : uuid -> bool) (rs : list round)
    (d : contact_tables) : (failure + unit) * contact_tables :=
  if negb enabled then (inr tt, d)
  else rounds locked rs (enqueuePublished now ids (length rs * 2) d).2.

End Repo.

(** *** What the lists hold *)

Lemma elem_filtered {A : Type} (p : A -> bool) (l : list A) x : x ∈ List.filter p l <-> x ∈ l /\ p x = true.
Proof. by rewrite !list_elem_of_In, filter_In. Qed.

Lemma several_elem l x : x ∈ several l <-> exists a b, (x, a) ∈ l /\ (x, b) ∈ l /\ a <> b.
Proof.
  unfold several. rewrite elem_filtered, elem_of_remove_dups, Nat.ltb_lt, distinct_values.
  assert (Hv : forall a, a ∈ map snd (List.filter (fun e => bool_decide (e.1 = x)) l) <-> (x, a) ∈ l).
  { intros a. rewrite list_elem_of_fmap. split.
    - intros ([y b] & -> & Hin). rewrite elem_filtered, bool_decide_eq_true in Hin.
      cbn in Hin. by destruct Hin as [Hin ->].
    - intros Hin. exists (x, a). split; [done|]. rewrite elem_filtered, bool_decide_eq_true. done. }
  setoid_rewrite Hv. split; [by intros [_ H]|]. intros (a & b & Ha & Hb & Hne). split; [|by exists a, b].
  apply list_elem_of_fmap. by exists (x, a).
Qed.

(** The links a run looks at *)
Definition observed_link (generation : Z) (cutoff : timestamp) (d : contact_tables) (s : LinkSource.t) (a b : uuid) : Prop :=
  exists k l, contact_link_evidence d !! (s, k) = Some l /\ ln_left_identity_id l = a /\ ln_right_identity_id l = b /\
    in_scope generation cutoff (ln_source_generation l) (ln_created_at l) = true.

Lemma candidates_elem generation cutoff d s a b :
  Link a b s ∈ candidates generation cutoff d <-> observed_link generation cutoff d s a b.
Proof.
  unfold candidates, observed_link. rewrite list_elem_of_fmap. split.
  - intros ([[s' k] l] & [= -> -> ->] & [Hl Hs]%select_where_elem). by exists k, l.
  - intros (k & l & Hl & <- & <- & Hs). exists ((s, k), l). split; [done|]. by apply select_where_elem.
Qed.

(** The identities of a session have ids of their own (the primary key), and the ends of a
    link are identities (its foreign keys). *)
Record keyed (d : contact_tables) : Prop := Keyed {
  ky_id k k' o o' : observed_identities d !! k = Some o -> observed_identities d !! k' = Some o' -> oc_id o = oc_id o' -> k = k';
  ky_left k l : contact_link_evidence d !! k = Some l -> exists i o, observed_identities d !! i = Some o /\ oc_id o = ln_left_identity_id l;
  ky_right k l : contact_link_evidence d !! k = Some l -> exists i o, observed_identities d !! i = Some o /\ oc_id o = ln_right_identity_id l }.

Definition is_identity (d : contact_tables) (k : identity_key) (id : uuid) : Prop :=
  exists o, observed_identities d !! k = Some o /\ oc_id o = id.

Section Resolved.
Context (generation : Z) (cutoff : timestamp) (d : contact_tables).
Hypothesis Hk : keyed d.

Abbreviation ls := (candidates generation cutoff d).
Abbreviation link_of := (observed_link generation cutoff d).

Lemma identity_by_id_Some id k : identity_by_id d id = Some k <-> is_identity d k id.
Proof.
  unfold identity_by_id, find_where. set (l := select_where _ _).
  assert (Hl : forall k o, (k, o) ∈ l <-> observed_identities d !! k = Some o /\ oc_id o = id).
  { intros k' o'. unfold l. rewrite select_where_elem. by rewrite bool_decide_eq_true. }
  split.
  - destruct l as [|[k0 o0] l'] eqn:E; [done|]. intros [= <-]. exists o0. apply Hl. left.
  - intros (o & Ho & Hid). assert (Hin : (k, o) ∈ l) by by apply Hl.
    destruct l as [|[k0 o0] l'] eqn:E; [by apply not_elem_of_nil in Hin|]. cbn. f_equal.
    destruct (proj1 (Hl k0 o0) (list_elem_of_here _ _)) as [H0 H1]. apply (ky_id d Hk _ _ o0 o); congruence.
Qed.

(** Two phones for one identity, or one phone that upstream gives to several LIDs *)
Definition alias (x : uuid) : Prop := exists k, is_identity d k x /\ k.1 <> IdentityType.PHONE_JID.

Definition contradicted (a : uuid) : Prop :=
  (exists s s' b b', link_of s a b /\ link_of s' a b' /\ b <> b') \/
  (exists b x y, link_of LinkSource.OPENWA_CONTACT_PHONE a b /\ x <> y /\ alias x /\ alias y /\
     link_of LinkSource.OPENWA_CONTACT_PHONE x b /\ link_of LinkSource.OPENWA_CONTACT_PHONE y b).

Lemma is_alias_spec x : is_alias d x = true <-> alias x.
Proof.
  unfold is_alias, alias. split.
  - destruct (identity_by_id d x) as [k|] eqn:E; [|done]. intros Hb%negb_true_iff%bool_decide_eq_false. exists k.
    by apply identity_by_id_Some in E.
  - intros (k & Hi%identity_by_id_Some & Hne). rewrite Hi. by apply negb_true_iff, bool_decide_eq_false.
Qed.

Lemma multiple_targets_elem a : a ∈ multiple_targets ls <-> exists s s' b b', link_of s a b /\ link_of s' a b' /\ b <> b'.
Proof.
  unfold multiple_targets. rewrite several_elem. split.
  - intros (b & b' & Hb & Hb' & Hne). apply list_elem_of_fmap in Hb as ([l r s] & E1 & Hb), Hb' as ([l' r' s'] & E2 & Hb').
    injection E1 as -> ->. injection E2 as E2 ->. subst l'. exists s, s', r, r'. split_and!; [by apply candidates_elem..|done].
  - intros (s & s' & b & b' & Hb%candidates_elem & Hb'%candidates_elem & Hne). exists b, b'.
    split; [|split; [|done]]; apply list_elem_of_fmap; [by exists (Link a b s)|by exists (Link a b' s')].
Qed.

Lemma shared_phone_elem b : b ∈ shared_phone d ls <-> exists x y, x <> y /\ alias x /\ alias y /\
  link_of LinkSource.OPENWA_CONTACT_PHONE x b /\ link_of LinkSource.OPENWA_CONTACT_PHONE y b.
Proof.
  unfold shared_phone. rewrite several_elem.
  assert (He : forall x, (b, x) ∈ map (fun l => (lk_right l, lk_left l)) (List.filter (fun l => by_contact l && is_alias d (lk_left l)) ls)
    <-> link_of LinkSource.OPENWA_CONTACT_PHONE x b /\ alias x).
  { intros x. rewrite list_elem_of_fmap. setoid_rewrite elem_filtered. split.
    - intros ([l r s] & [= -> ->] & Hin & [Hs%bool_decide_eq_true Ha]%andb_true_iff). cbn in Hs, Ha. subst s.
      by rewrite <- candidates_elem, <- is_alias_spec.
    - intros [Hl Ha]. exists (Link x b LinkSource.OPENWA_CONTACT_PHONE). split; [done|]. split; [by apply candidates_elem|].
      apply andb_true_iff. split; [by apply bool_decide_eq_true|by apply is_alias_spec]. }
  setoid_rewrite He. split.
  - intros (x & y & [? ?] & [? ?] & ?). by exists x, y.
  - intros (x & y & ? & ? & ? & ? & ?). by exists x, y.
Qed.

Lemma conflicted_elem a code : (a, code) ∈ conflicted d ls <->
  match code with
  | ConflictCode.MULTIPLE_PHONE_TARGETS => a ∈ multiple_targets ls
  | ConflictCode.PHONE_SHARED_BY_MULTIPLE_NON_PHONE_IDENTITIES => a ∈ shared_aliases d ls
  end.
Proof.
  unfold conflicted. rewrite elem_of_remove_dups, elem_of_app, !list_elem_of_fmap. destruct code.
  - split; [by intros [(x & [= ->] & H)|(x & [=] & _)]|]. intros H. left. by exists a.
  - split; [by intros [(x & [=] & _)|(x & [= ->] & H)]|]. intros H. right. by exists a.
Qed.

Lemma quarantined_spec a : quarantined d ls a = true <-> contradicted a.
Proof.
  unfold quarantined, contradicted. rewrite mem_true, list_elem_of_fmap, <- multiple_targets_elem.
  assert (Hs : a ∈ shared_aliases d ls <-> exists b, link_of LinkSource.OPENWA_CONTACT_PHONE a b /\ b ∈ shared_phone d ls).
  { unfold shared_aliases. generalize (shared_phone d ls). intros sp. rewrite list_elem_of_fmap. setoid_rewrite elem_filtered. split.
    - intros ([l r s] & -> & Hin & [Hb%bool_decide_eq_true Hm%mem_true]%andb_true_iff). cbn in *. subst s. exists r.
      split; [by apply candidates_elem|exact Hm].
    - intros (b & Hl%candidates_elem & Hb). eexists. split; [|split; [exact Hl|]]; [done|].
      apply andb_true_iff. split; [by apply bool_decide_eq_true|by apply mem_true]. }
  split.
  - intros ([x code] & -> & Hc%conflicted_elem). destruct code; [by left|right]. cbn.
    apply Hs in Hc as (b & Hl & (x' & y & Hxy)%shared_phone_elem). by exists b, x', y.
  - intros [Hm|(b & x & y & Hl & Hxy)].
    + exists (a, ConflictCode.MULTIPLE_PHONE_TARGETS). split; [done|]. by apply conflicted_elem.
    + exists (a, ConflictCode.PHONE_SHARED_BY_MULTIPLE_NON_PHONE_IDENTITIES). split; [done|]. apply conflicted_elem, Hs.
      exists b. split; [done|]. apply shared_phone_elem. by exists x, y.
Qed.

(** The links that count: those of phones to their own identity, and those upstream names
    without contradiction *)
Definition trusted (a b : uuid) : Prop :=
  exists s, link_of s a b /\ (s = LinkSource.PHONE_JID_DERIVATION \/ ~ contradicted a).

Definition same_cluster : uuid -> uuid -> Prop := rtc (fun a b => trusted a b \/ trusted b a).

Lemma eligible_elem a b : (a, b) ∈ eligible d ls <-> trusted a b.
Proof.
  unfold eligible, trusted. rewrite elem_of_remove_dups, list_elem_of_fmap. split.
  - intros ([l r s] & [= -> ->] & [Hin Hb]%elem_filtered). cbn in Hb. exists s. split; [by apply candidates_elem|].
    apply orb_true_iff in Hb as [Hb|Hb]; [left; by apply bool_decide_eq_true in Hb|right].
    rewrite <- quarantined_spec. by apply negb_true_iff, not_true_iff_false in Hb.
  - intros (s & Hl%candidates_elem & Hs). exists (Link a b s). split; [done|]. apply elem_filtered. split; [done|].
    apply orb_true_iff. destruct Hs as [->|Hc]; [left; by apply bool_decide_eq_true|right].
    apply negb_true_iff, not_true_iff_false. by rewrite quarantined_spec.
Qed.

Lemma same_cluster_connected a b : same_cluster a b <-> connected (eligible d ls) a b.
Proof.
  unfold same_cluster, connected. split; induction 1 as [a|a b c Hl Hr IH]; try apply rtc_refl; (eapply rtc_l; [|exact IH]).
  - apply edge_undirected. unfold edge. by rewrite !eligible_elem.
  - apply edge_undirected in Hl. unfold edge in Hl. by rewrite !eligible_elem in Hl.
Qed.

Lemma same_cluster_equivalence : Equivalence same_cluster.
Proof.
  split.
  - intros a. apply same_cluster_connected. reflexivity.
  - intros a b. rewrite !same_cluster_connected. by intros ->.
  - intros a b c. rewrite !same_cluster_connected. by intros -> ->.
Qed.

(** The identities that were there when the generation was published *)
Definition observed_by (r : uuid) : Prop :=
  exists k o, observed_identities d !! k = Some o /\ oc_id o = r /\ oc_first_observed_at o <= cutoff.

Lemma roots_elem r : r ∈ roots cutoff d <-> observed_by r.
Proof.
  unfold roots, observed_by. rewrite list_elem_of_fmap. split.
  - intros ([k o] & -> & [Ho Hf%Z.leb_le]%select_where_elem). by exists k, o.
  - intros (k & o & Ho & <- & Hf%Z.leb_le). exists (k, o). split; [done|]. by apply select_where_elem.
Qed.

End Resolved.

(** *** Components *)

Section Components.
Context (rs : list uuid) (edges : list (uuid * uuid)).

Lemma components_elem n c : (n, c) ∈ components rs edges <->
  c ∈ rs /\ connected edges c n /\ forall r, r ∈ rs -> connected edges r n -> (c <= r)%positive.
Proof.
  unfold components. set (reached := map _ rs).
  assert (Hr : forall r, r ∈ map fst (List.filter (fun r => bool_decide (n ∈ r.2)) reached) <-> r ∈ rs /\ connected edges r n).
  { intros r. rewrite list_elem_of_fmap. split.
    - intros ([r' s] & -> & [Hin Hn%bool_decide_eq_true]%elem_filtered). apply list_elem_of_fmap in Hin as (r0 & [= -> ->] & Hin).
      by apply reach_spec in Hn.
    - intros [Hin Hc]. exists (r, reach (undirected edges) r). split; [done|]. apply elem_filtered. split.
      + apply list_elem_of_fmap. by exists r.
      + apply bool_decide_eq_true. by apply reach_spec. }
  rewrite list_elem_of_omap. split.
  - intros (n' & _ & E). destruct (minimum _) as [c'|] eqn:Em; [|done]. injection E as -> ->.
    apply minimum_Some in Em as [H1 H2]. apply Hr in H1 as [H1 H1']. split_and!; [done..|]. intros r Hin Hc. by apply H2, Hr.
  - intros (Hin & Hc & Hmin). exists n. split.
    + rewrite elem_of_remove_dups, list_elem_of_In, in_flat_map. exists (c, reach (undirected edges) c).
      rewrite <- !list_elem_of_In, elem_of_elements. split; [apply list_elem_of_fmap; by exists c|by apply reach_spec].
    + destruct (minimum _) as [c'|] eqn:Em.
      * cbn. apply minimum_Some in Em as [H1 H2]. pose proof (H2 c (proj2 (Hr c) (conj Hin Hc))) as Hle.
        apply Hr in H1 as [H1 H1']. specialize (Hmin c' H1 H1'). do 2 f_equal. lia.
      * apply minimum_None in Em. assert (Hx : c ∈ []) by (rewrite <- Em; by apply Hr). by apply not_elem_of_nil in Hx.
Qed.

Lemma components_NoDup : NoDup ((components rs edges).*1).
Proof.
  unfold components. apply NoDup_omap_keys; [|apply NoDup_remove_dups]. intros n [n' c] E.
  destruct (minimum _); [|done]. by injection E.
Qed.

Lemma components_node n : n ∈ (components rs edges).*1 <-> exists r, r ∈ rs /\ connected edges r n.
Proof.
  rewrite list_elem_of_fmap. split.
  - intros ([n' c] & -> & (H1 & H2 & _)%components_elem). by exists c.
  - intros (r & Hr & Hc). destruct (minimum (List.filter (fun r => bool_decide (n ∈ reach (undirected edges) r)) rs)) as [c|] eqn:E.
    + apply minimum_Some in E as [H1 H2]. apply elem_filtered in H1 as [H1 H1'%bool_decide_eq_true].
      exists (n, c). split; [done|]. apply components_elem. split_and!; [done|by apply reach_spec|].
      intros r' Hr' Hc'. apply H2, elem_filtered. split; [done|]. by apply bool_decide_eq_true, reach_spec.
    + apply minimum_None in E. assert (Hx : r ∈ []); [|by apply not_elem_of_nil in Hx]. rewrite <- E.
      apply elem_filtered. split; [done|]. by apply bool_decide_eq_true, reach_spec.
Qed.

Lemma components_same a b ca cb : (a, ca) ∈ components rs edges -> (b, cb) ∈ components rs edges ->
  ca = cb <-> connected edges a b.
Proof.
  intros (Ha & Hca & Hma)%components_elem (Hb & Hcb & Hmb)%components_elem. split.
  - intros ->. transitivity cb; [by symmetry|done].
  - intros Hab. assert (ca <= cb)%positive by (apply Hma; [done|transitivity b; [done|by symmetry]]).
    assert (cb <= ca)%positive by (apply Hmb; [done|by transitivity a]). lia.
Qed.

End Components.

(** *** What is stored *)

Section Stored.
Context (generation : Z) (cutoff : timestamp) (run : uuid) (d : contact_tables).
Hypothesis Hk : keyed d.
Hypothesis no_clusters : forall c, resolved_clusters d !! (run, c) = None.
Hypothesis no_assignments : forall a, resolved_assignments d !! (run, a) = None.

Abbreviation ls := (candidates generation cutoff d).
Abbreviation comps := (components (roots cutoff d) (eligible d ls)).
Abbreviation stored := (store run generation cutoff ls comps d).
Abbreviation contradicted := (contradicted generation cutoff d).
Abbreviation same := (same_cluster generation cutoff d).

(** Links lead from identities to identities. *)
Lemma trusted_identity a b : trusted generation cutoff d a b \/ trusted generation cutoff d b a -> exists k, is_identity d k b.
Proof.
  intros [(s & (k & l & Hl & _ & <- & _) & _)|(s & (k & l & Hl & <- & _) & _)].
  - destruct (ky_right d Hk _ _ Hl) as (i & o & Ho & Hid). by exists i, o.
  - destruct (ky_left d Hk _ _ Hl) as (i & o & Ho & Hid). by exists i, o.
Qed.

Lemma node_identity n c : (n, c) ∈ comps -> exists k, is_identity d k n.
Proof.
  intros (Hc & Hr & _)%components_elem. apply same_cluster_connected in Hr; [|done]. unfold same_cluster in Hr.
  apply rtc_inv_r in Hr as [->|(m & _ & Hm)].
  - apply roots_elem in Hc as (k & o & Ho & Hid & _). by exists k, o.
  - by eapply trusted_identity.
Qed.

Definition keys (c : uuid) : list identity_key := omap (identity_by_id d) (in_cluster comps c).

Lemma keys_elem c k : k ∈ keys c <-> exists n, (n, c) ∈ comps /\ is_identity d k n.
Proof.
  unfold keys, in_cluster. rewrite list_elem_of_omap. split.
  - intros (n & Hn & Hi). apply list_elem_of_fmap in Hn as ([n' c'] & -> & [Hin E%bool_decide_eq_true]%elem_filtered).
    cbn in E. subst c'. exists n'. split; [done|]. by apply identity_by_id_Some in Hi.
  - intros (n & Hn & Hi%identity_by_id_Some); [|done]. exists n. split; [|done]. apply list_elem_of_fmap. exists (n, c).
    split; [done|]. apply elem_filtered. split; [done|]. by apply bool_decide_eq_true.
Qed.

Definition cluster_row (c : uuid) : resolved_cluster := ResolvedCluster (cluster_phone (keys c)) None (Z.of_nat (length (keys c))).

Lemma cluster_rows_elem k row : (k, row) ∈ cluster_rows run d comps <->
  exists c, k = (run, c) /\ c ∈ comps.*2 /\ row = cluster_row c.
Proof.
  unfold cluster_rows. rewrite list_elem_of_omap. setoid_rewrite elem_of_remove_dups. split.
  - intros (c & Hc & E). case_bool_decide; [done|]. injection E as <- <-. by exists c.
  - intros (c & -> & Hc & ->). exists c. split; [done|]. rewrite bool_decide_false; [done|]. fold (keys c). intros E.
    apply list_elem_of_fmap in Hc as ([n c'] & -> & Hn). destruct (node_identity n c' Hn) as [i Hi].
    assert (Hx : i ∈ keys c') by (apply keys_elem; by exists n). cbn in E. rewrite E in Hx. by apply not_elem_of_nil in Hx.
Qed.

Lemma cluster_rows_NoDup : NoDup ((cluster_rows run d comps).*1).
Proof.
  unfold cluster_rows. set (f := fun cluster => _). assert (Hf : forall x y, f x = Some y -> y.1 = (run, x)).
  { intros x y E. unfold f in E. case_bool_decide; [done|]. by injection E as <-. }
  pose proof (NoDup_remove_dups comps.*2) as Hn. induction Hn as [|x l Hx Hn IH]; cbn; [constructor|].
  destruct (f x) as [y|] eqn:E; [|done]. cbn. constructor; [|done]. rewrite (Hf x y E).
  intros (z & Hz & (x' & Hin & E')%list_elem_of_omap)%list_elem_of_fmap. apply Hf in E'. congruence.
Qed.

Definition with_clusters : contact_tables :=
  d <| resolved_clusters := foldl (fun t kv => <[kv.1 := kv.2]> t) (resolved_clusters d) (cluster_rows run d comps) |>.

Lemma with_clusters_lookup c row : resolved_clusters with_clusters !! (run, c) = Some row <->
  c ∈ comps.*2 /\ row = cluster_row c.
Proof.
  cbn. rewrite (foldl_insert_Some _ _ _ _ cluster_rows_NoDup), no_clusters, cluster_rows_elem. split.
  - intros [(c' & [= ->] & H)|[_ H]]; [done|done].
  - intros [H ->]. left. by exists c.
Qed.

Definition assignment (n c : uuid) : identity_assignment :=
  IdentityAssignment c (quarantined d ls n) (if quarantined d ls n then None else cluster_phone (keys c)).

Lemma assignment_rows_elem k x : (k, x) ∈ assignment_rows run with_clusters ls (resolved_clusters with_clusters) comps <->
  exists n c, k = (run, n) /\ (n, c) ∈ comps /\ x = assignment n c.
Proof.
  unfold assignment_rows. rewrite list_elem_of_omap. split.
  - intros ([n c] & Hin & E). destruct (resolved_clusters with_clusters !! (run, (n, c).2)) as [row|] eqn:El; [|done].
    apply with_clusters_lookup in El as [_ ->]. injection E as <- <-. by exists n, c.
  - intros (n & c & -> & Hin & ->). exists (n, c). split; [done|].
    cbn [fst snd]. rewrite (proj2 (with_clusters_lookup c (cluster_row c))); [done|]. split; [|done]. apply list_elem_of_fmap. by exists (n, c).
Qed.

Lemma assignment_rows_NoDup : NoDup ((assignment_rows run with_clusters ls (resolved_clusters with_clusters) comps).*1).
Proof.
  unfold assignment_rows. set (f := fun c : uuid * uuid => _).
  assert (Hf : forall x y, f x = Some y -> y.1 = (run, x.1)).
  { intros x y E. unfold f in E. destruct (_ !! _); [|done]. by injection E as <-. }
  pose proof (components_NoDup (roots cutoff d) (eligible d ls)) as Hn. induction comps as [|x l IH]; cbn; [constructor|].
  cbn in Hn. apply NoDup_cons in Hn as [Hx Hn]. destruct (f x) as [y|] eqn:E; [|by apply IH]. cbn. constructor; [|by apply IH].
  rewrite (Hf x y E). intros (z & Hz & (x' & Hin & E')%list_elem_of_omap)%list_elem_of_fmap. apply Hf in E'.
  apply Hx, list_elem_of_fmap. exists x'. split; [congruence|done].
Qed.

Lemma stored_assignment a x : resolved_assignments stored !! (run, a) = Some x <-> exists c, (a, c) ∈ comps /\ x = assignment a c.
Proof.
  change (resolved_assignments stored) with (foldl (fun t kv => <[kv.1 := kv.2]> t) (resolved_assignments d)
    (assignment_rows run with_clusters ls (resolved_clusters with_clusters) comps)).
  rewrite (foldl_insert_Some _ _ _ _ assignment_rows_NoDup), no_assignments, assignment_rows_elem. split.
  - intros [(n & c & [= ->] & H)|[_ H]]; [by exists c|done].
  - intros (c & H). left. by exists a, c.
Qed.

Lemma cluster_phone_Some l p : cluster_phone l = Some p <->
  (IdentityType.PHONE, p) ∈ l /\ forall p', (IdentityType.PHONE, p') ∈ l -> p' = p.
Proof.
  unfold cluster_phone. assert (He : forall p, p ∈ remove_dups (map snd (List.filter (fun k : identity_key => bool_decide (k.1 = IdentityType.PHONE)) l))
    <-> (IdentityType.PHONE, p) ∈ l).
  { intros p'. rewrite elem_of_remove_dups, list_elem_of_fmap. split.
    - intros ([t v] & -> & [Hin E%bool_decide_eq_true]%elem_filtered). cbn in E. by subst t.
    - intros Hin. exists (IdentityType.PHONE, p'). split; [done|]. apply elem_filtered. split; [done|]. by apply bool_decide_eq_true. }
  setoid_rewrite <- He. pose proof (NoDup_remove_dups (map snd (List.filter (fun k : identity_key => bool_decide (k.1 = IdentityType.PHONE)) l))) as Hn.
  revert Hn. clear He. generalize (remove_dups (map snd (List.filter (fun k : identity_key => bool_decide (k.1 = IdentityType.PHONE)) l))). intros v Hn.
  destruct v as [|x [|y v]]; split; try done.
  - intros [Hin _]. by apply not_elem_of_nil in Hin.
  - intros [= ->]. split; [left|]. by intros p' ?%list_elem_of_singleton.
  - intros [Hin%list_elem_of_singleton _]. by subst.
  - intros [_ Hu]. apply NoDup_cons in Hn as [Hx _]. destruct Hx. rewrite (Hu x (list_elem_of_here _ _)), (Hu y); [left|right; left].
Qed.

Lemma keys_phone a c p : (a, c) ∈ comps -> (IdentityType.PHONE, p) ∈ keys c <->
  exists b, is_identity d (IdentityType.PHONE, p) b /\ same a b.
Proof.
  intros Ha. rewrite keys_elem. split.
  - intros (n & Hn & Hi). exists n. split; [done|]. apply same_cluster_connected; [done|]. by apply (components_same _ _ _ _ _ _ Ha Hn).
  - intros (b & Hi & Hs). exists b. split; [|done]. apply same_cluster_connected in Hs; [|done].
    assert (Hb : b ∈ comps.*1).
    { apply components_node. apply components_elem in Ha as (Hc & Hr & _). exists c. split; [done|]. by transitivity a. }
    apply list_elem_of_fmap in Hb as ([b' c'] & -> & Hb). cbn in Hs.
    by rewrite (proj2 (components_same _ _ _ _ _ _ Ha Hb) Hs).
Qed.

Lemma stored_other run' a : run' <> run -> resolved_assignments stored !! (run', a) = resolved_assignments d !! (run', a).
Proof.
  intros Hne. change (resolved_assignments stored) with (foldl (fun t kv => <[kv.1 := kv.2]> t) (resolved_assignments d)
    (assignment_rows run with_clusters ls (resolved_clusters with_clusters) comps)).
  apply option_eq. intros x. rewrite (foldl_insert_Some _ _ _ _ assignment_rows_NoDup), assignment_rows_elem. split.
  - intros [(n & c & [= ? ?] & _)|[_ H]]; [done|done].
  - intros H. right. split; [|done]. intros ([k y] & E & (n & c & E' & _)%assignment_rows_elem)%list_elem_of_fmap. cbn in E. congruence.
Qed.

Lemma stored_count : count_where (fun k _ => bool_decide (k.1 = run)) (resolved_assignments stored) = Z.of_nat (length comps).
Proof.
  unfold count_where. f_equal. transitivity (length ((select_where (fun k _ => bool_decide (k.1 = run)) (resolved_assignments stored)).*1));
    [by rewrite length_fmap|]. transitivity (length (map (pair run) comps.*1)); [|by rewrite length_map, length_fmap].
  apply Permutation_length, NoDup_Permutation.
  - apply select_where_NoDup.
  - apply NoDup_fmap; [by intros ? ? [=]|apply components_NoDup].
  - intros k. rewrite !list_elem_of_fmap. split.
    + intros ([[run' a] x] & -> & [Hl E%bool_decide_eq_true]%select_where_elem). cbn in E. subst run'.
      apply stored_assignment in Hl as (c & Hc & _). exists a. split; [done|]. apply list_elem_of_fmap. by exists (a, c).
    + intros (a & -> & ([a' c] & -> & Hc)%list_elem_of_fmap). exists ((run, a'), assignment a' c). split; [done|].
      apply select_where_elem. split; [apply stored_assignment; by exists c|by apply bool_decide_eq_true].
Qed.

Lemma metrics_identities conflicts : re_identities (metrics conflicts comps) = Z.of_nat (length comps).
Proof.
  unfold metrics, in_cluster. cbn [re_identities]. rewrite <- (sum_of_groups snd (remove_dups comps.*2)).
  - f_equal. apply map_ext. intros c. by rewrite length_map.
  - apply NoDup_remove_dups.
  - intros x Hx. apply elem_of_remove_dups, list_elem_of_fmap. by exists x.
Qed.

End Stored.

(** *** The contract of a run *)

(** What an owned run does, in terms of the components *)
Record exact_run (on : bool) (rq : request) (now clock : timestamp) (run token : uuid) (d : contact_tables) (r : resolution_run)
    (m : result) (d' : contact_tables) : Prop := ExactRun {
  xr_resolve : resolve on rq now clock run token d = (inr m, d');
  xr_assigned a x : resolved_assignments d' !! (run, a) = Some x <-> exists c,
    (a, c) ∈ components (roots (rn_evidence_cutoff_at r) d)
               (eligible d (candidates (rn_source_generation r) (rn_evidence_cutoff_at r) d)) /\
    x = assignment (rn_source_generation r) (rn_evidence_cutoff_at r) d a c;
  xr_other run' a : run' <> run -> resolved_assignments d' !! (run', a) = resolved_assignments d !! (run', a);
  xr_count : re_identities m = count_where (fun k _ => bool_decide (k.1 = run)) (resolved_assignments d');
  xr_run : exists r', resolution_runs d' !! run = Some r' /\ rn_status r' = ResolutionStatus.COMPLETED /\
    rn_lease_token r' = None /\ rn_completed_at r' = Some clock }.

(** A request touches the queue alone. *)
Lemma request_changed_only on rq run d : exists q, request_changed on rq run d = d <| contact_projection_work := q |>.
Proof.
  unfold request_changed. destruct on; [|exists (contact_projection_work d); by destruct d].
  eexists. apply enqueue_only.
Qed.

Lemma resolve_exact on rq now clock run token d r : keyed d -> resolution_runs d !! run = Some r -> owned_run now token r = true ->
  exists m d', exact_run on rq now clock run token d r m d'.
Proof.
  intros Hk Hr Ho. set (generation := rn_source_generation r). set (cutoff := rn_evidence_cutoff_at r).
  set (d1 := clear_run run d). assert (Hk1 : keyed d1) by (destruct Hk; by split).
  assert (Hnone : forall a, resolved_assignments d1 !! (run, a) = None).
  { intros a. cbn. rewrite lookup_delete_where. destruct (resolved_assignments d !! (run, a)); [|done]. by rewrite bool_decide_true. }
  assert (Hnone' : forall c, resolved_clusters d1 !! (run, c) = None).
  { intros a. cbn. rewrite lookup_delete_where. destruct (resolved_clusters d !! (run, a)); [|done]. by rewrite bool_decide_true. }
  set (ls := candidates generation cutoff d1).
  set (comps := components (roots cutoff d1) (eligible d1 ls)). set (m := metrics (conflicted d1 ls) comps).
  set (d2 := store run generation cutoff ls comps d1).
  assert (Hu : update_row run (fun r => bool_decide (rn_lease_token r = Some token)) (completed_run clock m d2) (resolution_runs d2)
    = (Some (completed_run clock m d2 r), <[run := completed_run clock m d2 r]> (resolution_runs d2))).
  { unfold update_row. change (resolution_runs d2) with (resolution_runs d). rewrite Hr. unfold owned_run in Ho.
    apply andb_true_iff in Ho as [[_ Ht]%andb_true_iff _]. by rewrite Ht. }
  destruct (request_changed_only on rq run (d2 <| resolution_runs := <[run := completed_run clock m d2 r]> (resolution_runs d2) |>)) as (q & Hq).
  exists m, (d2 <| resolution_runs := <[run := completed_run clock m d2 r]> (resolution_runs d2) |> <| contact_projection_work := q |>). split.
  - unfold resolve. rewrite Hr, Ho. cbn [negb]. fold generation cutoff d1 ls comps m d2. by rewrite Hu, Hq.
  - intros a x. exact (stored_assignment generation cutoff run d1 Hk1 Hnone' Hnone a x).
  - intros run' a Hne. transitivity (resolved_assignments d1 !! (run', a));
      [exact (stored_other generation cutoff run d1 Hk1 Hnone' run' a Hne)|]. cbn. rewrite
    lookup_delete_where. destruct (resolved_assignments d !! (run', a)); [|done]. by rewrite bool_decide_false.
  - unfold m, comps, ls. rewrite metrics_identities. symmetry.
    exact (stored_count generation cutoff run d1 Hk1 Hnone' Hnone).
  - exists (completed_run clock m d2 r). split; [apply lookup_insert_eq|done].
Qed.

Lemma exact_same on rq now clock run token d r m d' a b x y : keyed d -> exact_run on rq now clock run token d r m d' ->
  resolved_assignments d' !! (run, a) = Some x -> resolved_assignments d' !! (run, b) = Some y ->
  ia_cluster_id x = ia_cluster_id y <-> same_cluster (rn_source_generation r) (rn_evidence_cutoff_at r) d a b.
Proof.
  intros Hk H (ca & Ha & ->)%(xr_assigned _ _ _ _ _ _ _ _ _ _ H) (cb & Hb & ->)%(xr_assigned _ _ _ _ _ _ _ _ _ _ H).
  cbn [ia_cluster_id assignment]. rewrite (components_same _ _ _ _ _ _ Ha Hb). symmetry. by apply same_cluster_connected.
Qed.

(** C18: a resolution is exact.  A run that is owned always completes, and then assigns
    exactly the identities that trusted links connect to one observed by the publication;
    two of them are in one cluster if and only if trusted links connect them.  An identity
    is quarantined if and only if its links contradict each other: it then gets no phone,
    and any other gets the phone of its cluster when there is exactly one.  The results of
    other runs stay, and the count of identities is that of the assignments. *)
Theorem resolution_is_exact (on : bool) (rq : request) (now clock : timestamp) (run token : uuid) (d : contact_tables) (r : resolution_run)
    (Hk : keyed d) (Hr : resolution_runs d !! run = Some r) (Ho : owned_run now token r = true) :
  let generation := rn_source_generation r in
  let cutoff := rn_evidence_cutoff_at r in
  let same := same_cluster generation cutoff d in
  exists m d', resolve on rq now clock run token d = (inr m, d') /\
    (forall a, is_Some (resolved_assignments d' !! (run, a)) <-> exists o, observed_by cutoff d o /\ same o a) /\
    (forall a b x y, resolved_assignments d' !! (run, a) = Some x -> resolved_assignments d' !! (run, b) = Some y ->
       ia_cluster_id x = ia_cluster_id y <-> same a b) /\
    (forall a x, resolved_assignments d' !! (run, a) = Some x ->
       (ia_quarantined x = true <-> contradicted generation cutoff d a) /\
       forall p, ia_resolved_phone_number x = Some p <->
         ~ contradicted generation cutoff d a /\ (exists b, is_identity d (IdentityType.PHONE, p) b /\ same a b) /\
         forall p' b, is_identity d (IdentityType.PHONE, p') b -> same a b -> p' = p) /\
    (forall run' a, run' <> run -> resolved_assignments d' !! (run', a) = resolved_assignments d !! (run', a)) /\
    re_identities m = count_where (fun k _ => bool_decide (k.1 = run)) (resolved_assignments d') /\
    exists r', resolution_runs d' !! run = Some r' /\ rn_status r' = ResolutionStatus.COMPLETED /\
      rn_lease_token r' = None /\ rn_completed_at r' = Some clock.
Proof.
  cbn zeta. destruct (resolve_exact on rq now clock run token d r Hk Hr Ho) as (m & d' & H). exists m, d'.
  pose proof (xr_assigned _ _ _ _ _ _ _ _ _ _ H) as Hin. revert Hin.
  set (generation := rn_source_generation r). set (cutoff := rn_evidence_cutoff_at r). intros Hin.
  split; [apply (xr_resolve _ _ _ _ _ _ _ _ _ _ H)|]. split; [|split; [|split; [|split; [|split]]]].
  - intros a. split.
    + intros (x & (c & Hc & _)%Hin). apply components_elem in Hc as (H1 & H2 & _). exists c. split; [by apply roots_elem in H1|].
      by apply same_cluster_connected.
    + intros (o & H1 & H2). apply same_cluster_connected in H2; [|done].
      assert (Ha : a ∈ (components (roots cutoff d) (eligible d (candidates generation cutoff d))).*1).
      { apply components_node. exists o. split; [by apply roots_elem|done]. }
      apply list_elem_of_fmap in Ha as ([a' c] & -> & Ha). eexists. apply Hin. by exists c.
  - intros a b x y. by apply (exact_same on rq now clock run token d r m d').
  - intros a x (c & Hc & ->)%Hin. split; [by apply quarantined_spec|]. intros p. cbn [ia_resolved_phone_number assignment].
    pose proof (quarantined_spec generation cutoff d Hk a) as Hq.
    pose proof (fun p => keys_phone generation cutoff d Hk a c p Hc) as Hp.
    destruct (quarantined d (candidates generation cutoff d) a).
    + split; [done|]. intros [Hn _]. destruct Hn. by apply Hq.
    + rewrite cluster_phone_Some, Hp. split.
      * intros [H1 H2]. split; [|split; [done|]]. { intros Hn%Hq. done. } intros p' b Hi Hs. apply H2, Hp. by exists b.
      * intros (_ & H1 & H2). split; [done|]. intros p' (b & Hi & Hs)%Hp. by eapply H2.
  - apply (xr_other _ _ _ _ _ _ _ _ _ _ H).
  - apply (xr_count _ _ _ _ _ _ _ _ _ _ H).
  - apply (xr_run _ _ _ _ _ _ _ _ _ _ H).
Qed.

(** A check of [keyed] over the rows *)
Lemma keyed_rows d : NoDup (map (fun kv => oc_id kv.2) (map_to_list (observed_identities d))) ->
  forallb (fun kv => negb (is_null (identity_by_id d (ln_left_identity_id kv.2)))
                     && negb (is_null (identity_by_id d (ln_right_identity_id kv.2)))) (map_to_list (contact_link_evidence d)) = true ->
  keyed d.
Proof.
  intros Hn Hf. assert (Hex : forall id, negb (is_null (identity_by_id d id)) = true -> exists i o, observed_identities d !! i = Some o /\ oc_id o = id).
  { intros id. unfold identity_by_id, find_where. destruct (select_where _ _) as [|[k o] l] eqn:E; [done|]. intros _. exists k, o.
    assert (Hin : (k, o) ∈ select_where (fun _ o => bool_decide (oc_id o = id)) (observed_identities d)) by (rewrite E; left).
    apply select_where_elem in Hin as [H1 H2%bool_decide_eq_true]. done. }
  rewrite forallb_forall in Hf. split.
  - intros k k' o o' Ho Ho' E. apply elem_of_map_to_list in Ho, Ho'. revert Hn Ho Ho'. generalize (map_to_list (observed_identities d)).
    induction l as [|x l IH]; [by intros _ ?%not_elem_of_nil|]. cbn. intros [Hx Hn]%NoDup_cons [<-|Ho]%elem_of_cons [E'|Ho']%elem_of_cons.
    + by injection E'.
    + destruct Hx. cbn. rewrite E. apply list_elem_of_fmap. by exists (k', o').
    + subst x. destruct Hx. cbn. rewrite <- E. apply list_elem_of_fmap. by exists (k, o).
    + by apply IH.
  - intros k l Hl. apply elem_of_map_to_list, list_elem_of_In, Hf in Hl. apply andb_true_iff in Hl as [H1 _]. by apply Hex.
  - intros k l Hl. apply elem_of_map_to_list, list_elem_of_In, Hf in Hl. apply andb_true_iff in Hl as [_ H2]. by apply Hex.
Qed.

(** The snapshot of [SnapshotLife], resolved *)
Definition example_run : contact_tables :=
  (claim true 2000 (fun _ => false) 30 (enqueuePublished true 1990 (fun _ => 40%positive) 2 SnapshotLife.finished).2).2.

Lemma resolution_is_exact_witness :
  exists m d', resolve true (Request 2001 2002 Zpos) 2001 2002 40 30 example_run = (inr m, d') /\ re_identities m = 3 /\
    (forall a b x y, resolved_assignments d' !! (40%positive, a) = Some x -> resolved_assignments d' !! (40%positive, b) = Some y ->
       ia_cluster_id x = ia_cluster_id y <-> same_cluster 1 1002 example_run a b).
Proof.
  assert (Hk : keyed example_run) by (apply keyed_rows; [vm_compute; repeat (constructor; [set_solver|]); constructor|by vm_compute]).
  destruct (resolution_runs example_run !! 40%positive) as [r|] eqn:Hr; [|by vm_compute in Hr].
  assert (Hg : rn_source_generation r = 1 /\ rn_evidence_cutoff_at r = 1002 /\ owned_run 2001 30 r = true).
  { assert (E : Some r = resolution_runs example_run !! 40%positive) by done. vm_compute in E. injection E as ->.
    vm_compute. split; [reflexivity|split; reflexivity]. }
  destruct Hg as (Hg & Hc & Ho). destruct (resolution_is_exact true (Request 2001 2002 Zpos) 2001 2002 40 30 example_run r Hk Hr Ho) as (m & d' & E & _ & H & _).
  rewrite Hg, Hc in H. exists m, d'. split; [done|]. split; [|exact H].
  transitivity (match (resolve true (Request 2001 2002 Zpos) 2001 2002 40 30 example_run).1 with inr m => re_identities m | inl _ => 0 end); [by rewrite E|by vm_compute].
Defined.

End Resolution.
