(* ===== verification/ContactPeople.v ===== *)
(** * Who shares a cluster

    The writers of [ContactStore] and [ContactEvidence] link a phone JID to the phone it
    contains, and a LID to the phone upstream names: so whatever was observed, a cluster of
    [ContactResolution] never holds two identities of one kind. *)

From S2P Require Import Prelude Schema SendPolicy Service ContactSchema ContactQueue ContactIdentity Relational ContactEvidence ContactStore ContactLife ContactSnapshots ContactResolution.
From stdpp Require Import relations.

Import Queue Normalization Names ContactRepo ObservationRepo ContactLife Snapshots SnapshotLife Resolution.

Module ContactPeople.

Local Open Scope Z_scope.

(** A phone comes with the JID that contains it, or with a LID. *)
Definition phone_shape (k : identity_key) (phone : option string) : Prop :=
  match phone with
  | Some p => k = (IdentityType.PHONE_JID, (p ++ "@c.us")%string) \/ k.1 = IdentityType.LID
  | None => True
  end.

Lemma normal_phone raw : phone_shape (key (normalizeContactIdentity raw)) (nid_phone (normalizeContactIdentity raw)).
Proof.
  pose proof (normalize_well_formed raw) as H. unfold well_formed in H. unfold key. destruct (normalizeContactIdentity raw) as [t v p].
  destruct t; cbn in *; [by destruct H as [_ ->]| |done|by destruct H as [-> _]]. destruct H as (q & _ & -> & ->). by left.
Qed.

Lemma upstream_phone raw number : phone_shape (key (normalizeContactIdentity raw)) (phone_of (normalizeContactIdentity raw) number).
Proof.
  pose proof (normal_phone raw) as H. unfold phone_of. destruct (nid_type (normalizeContactIdentity raw)) eqn:E; try done.
  destruct (_ && _); [|done]. right. unfold key. by rewrite E.
Qed.

Lemma phone_shape_jid v p : phone_shape (IdentityType.PHONE_JID, v) (Some p) -> v = (p ++ "@c.us")%string.
Proof. by intros [[= ->]|?]. Qed.

(** *** What the evidence looks like *)

Definition link_shape (d : contact_tables) (s : LinkSource.t) (left_id right_id : uuid) : Prop :=
  exists i p, is_identity d i left_id /\ is_identity d (IdentityType.PHONE, p) right_id /\
    match s with
    | LinkSource.PHONE_JID_DERIVATION => i = (IdentityType.PHONE_JID, (p ++ "@c.us")%string)
    | LinkSource.OPENWA_CONTACT_PHONE => i.1 = IdentityType.LID
    end.

Record shaped (d : contact_tables) : Prop := Shaped {
  sh_staged k s : snapshot_observations d !! k = Some s -> phone_shape k.2 (so_phone s);
  sh_link s k l : contact_link_evidence d !! (s, k) = Some l -> link_shape d s (ln_left_identity_id l) (ln_right_identity_id l) }.

(** Identities are never forgotten and keep their ids. *)
Definition grows (t t' : gmap identity_key observed_identity) : Prop :=
  forall k id, oc_id <$> t !! k = Some id -> oc_id <$> t' !! k = Some id.

Lemma is_identity_id d k id : is_identity d k id <-> oc_id <$> observed_identities d !! k = Some id.
Proof.
  unfold is_identity. destruct (observed_identities d !! k) as [o|]; cbn; split.
  - by intros (o' & [= ->] & ->).
  - intros [= <-]. by exists o.
  - by intros (o' & ? & _).
  - done.
Qed.

Lemma link_shape_grows d d' s l r : grows (observed_identities d) (observed_identities d') -> link_shape d s l r -> link_shape d' s l r.
Proof.
  intros Hg (i & p & Hl & Hr & Hs). exists i, p. rewrite !is_identity_id in *. split_and!; [by apply Hg..|done].
Qed.

Lemma foldl_grows {X : Type} (f : gmap identity_key observed_identity -> X -> gmap identity_key observed_identity) l t :
  (forall t x, grows t (f t x)) -> grows t (foldl f t l).
Proof. intros Hf. revert t. induction l as [|x l IH]; intros t k id H; cbn; [done|]. by apply IH, Hf. Qed.

Lemma insert_grows t k o : (forall o', t !! k = Some o' -> oc_id o' = oc_id o) -> grows t (<[k := o]> t).
Proof.
  intros H k' id Hk. destruct (decide (k' = k)) as [->|Hne]; [|by rewrite lookup_insert_ne].
  rewrite lookup_insert_eq. destruct (t !! k) as [o'|] eqn:E; [|done]. cbn in *. by rewrite <- (H o').
Qed.

Lemma see_identity_grows drawn now t k : grows t (Evidence.see_identity drawn now t k).
Proof. unfold Evidence.see_identity. destruct (t !! k) as [o|] eqn:E; apply insert_grows; intros o' Ho'; by simplify_eq. Qed.

Lemma widen_grows drawn t x : grows t (Evidence.widen drawn t x).
Proof. unfold Evidence.widen. destruct x as [k at_]. destruct (t !! k) as [o|] eqn:E; apply insert_grows; intros o' Ho'; by simplify_eq. Qed.

(** Links that are added *)
Lemma add_links_Some now g rows t k l : foldl (Evidence.add_link now g) t rows !! k = Some l ->
  t !! k = Some l \/ exists x, x ∈ rows /\ x.1 = k /\ ln_left_identity_id l = x.2.1.1 /\ ln_right_identity_id l = x.2.1.2.
Proof.
  revert t. induction rows as [|x rows IH]; intros t; cbn [foldl]; [by left|].
  intros [H|(y & Hy & H)]%IH; [|right; exists y; split; [by right|done]].
  rewrite add_link_eq, insert_absent_lookup in H. destruct (t !! k) as [l'|]; [by left|].
  case_bool_decide as E; [|done]. injection H as <-. right. exists x. split; [left|done].
Qed.

Lemma shaped_same d d' : observed_identities d' = observed_identities d -> contact_link_evidence d' = contact_link_evidence d ->
  snapshot_observations d' = snapshot_observations d -> shaped d -> shaped d'.
Proof.
  intros E1 E2 E3 [S L]. split; [by rewrite E3|]. intros s k l. rewrite E2. intros Hl%L.
  apply (link_shape_grows d); [rewrite E1; by intros ? ?|done].
Qed.

Lemma project_members_shaped fanout now ids d : shaped d -> shaped (project_members fanout now ids d).2.
Proof. intros H. unfold project_members. destruct fanout; [|done]. by apply (shaped_same d). Qed.

(** New identities, and links between identities that are there *)
Lemma shaped_step d d' now g rows : shaped d -> grows (observed_identities d) (observed_identities d') ->
  snapshot_observations d' = snapshot_observations d ->
  contact_link_evidence d' = foldl (Evidence.add_link now g) (contact_link_evidence d) rows ->
  (forall x, x ∈ rows -> link_shape d' x.1.1 x.2.1.1 x.2.1.2) -> shaped d'.
Proof.
  intros [S L] Hg E3 E2 Hrows. split; [by rewrite E3|]. intros s k l. rewrite E2.
  intros [H%L|(x & Hx & Ek & -> & ->)]%add_links_Some; [by eapply link_shape_grows|].
  apply Hrows in Hx. by rewrite Ek in Hx.
Qed.

Section Writers.
Context (cfg : contact_config) (nfc md5 : string -> string).

Lemma derived_links_shape now inputs d : (forall i, i ∈ inputs -> phone_shape (ei_identity i) (ei_phone i)) ->
  forall x, x ∈ Evidence.derived_links md5 now inputs d -> link_shape d x.1.1 x.2.1.1 x.2.1.2.
Proof.
  intros Hin x Hx. unfold Evidence.derived_links in Hx. apply list_elem_of_omap in Hx as (i & Hi%Hin & E).
  destruct (ei_identity i) as [t v] eqn:Ei. cbn [fst snd] in E. destruct t; try done. destruct (ei_phone i) as [p|]; [|done].
  apply phone_shape_jid in Hi as ->. unfold Evidence.identity_id in E.
  destruct (oc_id <$> observed_identities d !! (IdentityType.PHONE_JID, _)) as [lid|] eqn:El; cbn in E; [|done].
  destruct (oc_id <$> observed_identities d !! Evidence.phone_key p) as [rid|] eqn:Er; cbn in E; [|done]. injection E as <-.
  exists (IdentityType.PHONE_JID, (p ++ "@c.us")%string), p. split; [by apply is_identity_id|]. split; [by apply is_identity_id|done].
Qed.

Lemma inputs_shaped drawn now inputs d d' : shaped d -> (forall i, i ∈ inputs -> phone_shape (ei_identity i) (ei_phone i)) ->
  observed_identities d' = observed_identities (Evidence.upsertInputIdentities drawn now inputs d) ->
  contact_link_evidence d' = contact_link_evidence d -> snapshot_observations d' = snapshot_observations d ->
  shaped (Evidence.insertInputLinks md5 now inputs d').
Proof.
  intros H Hin E1 E2 E3. apply (shaped_step d _ now None (Evidence.derived_links md5 now inputs d')); [done| |done| |].
  - change (grows (observed_identities d) (observed_identities d')). rewrite E1. cbn. intros k id Hk.
    apply foldl_grows; [intros; apply see_identity_grows|]. apply foldl_grows; [intros; apply see_identity_grows|]. done.
  - cbn. by rewrite E2.
  - intros x Hx. apply (link_shape_grows d'); [by intros ? ?|]. by eapply derived_links_shape.
Qed.

Lemma request_shaped rq ids d : shaped d -> shaped (Evidence.request_projections cfg rq ids d).
Proof. intros H. Evidence.strip_requests. by apply (shaped_same d). Qed.

Lemma evidence_members_shaped drawn ids rq now groupId inputs d : shaped d -> (forall i, i ∈ inputs -> phone_shape (ei_identity i) (ei_phone i)) ->
  shaped (Evidence.observeGroupMembers cfg md5 drawn ids rq now groupId inputs d).
Proof.
  intros H Hin. unfold Evidence.observeGroupMembers. destruct (_ || _); [done|]. cbv zeta. apply request_shaped.
  by eapply (inputs_shaped drawn).
Qed.

Lemma evidence_sender_shaped drawn id rq now input name at_ k d : shaped d -> phone_shape (ei_identity input) (ei_phone input) ->
  shaped (Evidence.observeMessageSender cfg md5 drawn id rq now input name at_ k d).
Proof.
  intros H Hin. unfold Evidence.observeMessageSender. destruct (negb _); [done|]. cbv zeta. apply request_shaped.
  apply (inputs_shaped drawn now [input] d); [done| |by destruct (Evidence.identity_id _ _)..].
  by intros i ->%list_elem_of_singleton.
Qed.

Lemma publish_shaped drawn ids now generation d : shaped d -> shaped (Evidence.publishSnapshot cfg drawn ids now generation d).
Proof.
  intros H. unfold Evidence.publishSnapshot. destruct (negb _); [done|].
  set (d1 := d <| observed_identities := _ |>). set (d2 := d1 <| observed_identities := _ |>).
  set (d3 := d2 <| contact_observations := _ |>). apply (shaped_step d _ now (Some generation) (Evidence.staged_links generation d3)); [done| |done|done|].
  - change (grows (observed_identities d) (observed_identities d2)). intros k id Hk.
    apply foldl_grows; [intros; apply widen_grows|]. apply foldl_grows; [intros; apply widen_grows|]. done.
  - intros x Hx. unfold Evidence.staged_links in Hx. apply list_elem_of_omap in Hx as ([k s] & Hin & E).
    apply staged_elem in Hin. change (snapshot_observations d !! (generation, k) = Some s) in Hin. apply (sh_staged d H) in Hin.
    cbn [fst snd] in *. destruct (so_phone s) as [p|]; [|done]. unfold Evidence.identity_id in E.
    apply bind_Some in E as (p' & [= <-] & E). apply bind_Some in E as (lid & El & E). apply bind_Some in E as (rid & Er & E). injection E as <-.
    exists k, p. rewrite !is_identity_id. split; [exact El|]. split; [exact Er|]. cbn [fst snd].
    destruct Hin as [->|Hl]; [done|]. destruct k as [t v]. cbn in *. by subst t.
Qed.

Lemma page_rows_shape drawn page r : r ∈ page_rows nfc drawn page -> phone_shape (pr_key r) (pr_phone r).
Proof.
  unfold page_rows. intros (n & c & -> & _)%elem_of_lookup_imap_1. apply upstream_phone.
Qed.

Lemma stage_shaped now generation rows d d' : (forall r, r ∈ rows -> phone_shape (pr_key r) (pr_phone r)) ->
  stage cfg md5 now generation rows d = inr d' -> shaped d -> shaped d'.
Proof.
  intros Hr. unfold stage. destruct (negb _); [by intros [= ->]|]. destruct (is_null _); [done|]. destruct (forallb _ _); [|done].
  intros [= <-] [S L]. split; [|by intros s k l Hl%L]. cbn.
  apply (foldl_keeps (fun t => forall k s, t !! k = Some s -> phone_shape k.2 (so_phone s))); [done|].
  intros t r Hin Ht k s. unfold stage_row. rewrite insert_absent_lookup. destruct (t !! k) as [s'|] eqn:E; [intros [= <-]; by apply Ht|].
  case_bool_decide as Ek; [|done]. intros [= <-]. subst k. by apply Hr.
Qed.

Lemma ingest_shaped now drawn generation token page d : shaped d ->
  shaped (ingestObservedPage cfg nfc md5 now drawn generation token page d).2.
Proof.
  intros H. unfold ingestObservedPage. case_bool_decide; [done|].
  destruct (renew _ _ _ _) as [e|d0] eqn:E0; [done|].
  assert (Hs0 : shaped d0).
  { unfold renew in E0. destruct (sync_state d); [|done]. destruct (owned _ _ _ _); [|done]. injection E0 as <-. by apply (shaped_same d). }
  unfold ingest_rows. destruct (stage _ _ _ _ _ _) as [e|d1] eqn:E1; [done|].
  apply stage_shaped in E1; [|intros r; apply page_rows_shape|done].
  set (d2 := create_missing _ _ _ _). destruct (record_evidence _ _ _) as [e|d3] eqn:E3; [done|].
  assert (H3 : shaped d3).
  { unfold record_evidence in E3. case_bool_decide; [|done]. injection E3 as <-. by apply (shaped_same d1). }
  set (d7 := project_contacts _ _). assert (H7 : shaped d7) by by apply (shaped_same d3).
  set (ids := (matched (page_rows nfc drawn page) (map_phones now (page_rows nfc drawn page) d3)).*2).
  assert (H8 : shaped (project_members (CONTACT_LEGACY_MEMBER_FANOUT_ENABLED cfg) now ids d7).2)
    by by apply project_members_shaped.
  by destruct (project_members (CONTACT_LEGACY_MEMBER_FANOUT_ENABLED cfg) now ids d7) as [n d8].
Qed.

Lemma shaped_op d d' : shaped d -> op cfg nfc md5 d d' -> shaped d'.
Proof.
  intros H Hop. destruct Hop.
  - unfold begin. destruct (claim_state _ _ _ _) as [s|]; [|done]. destruct (negb _); [by apply (shaped_same d)|].
    destruct (snapshot_generations _ !! _); [done|]. destruct H as [S L]. split.
    + intros k o [Ho _]%delete_where_Some. by eapply S.
    + intros s' k l [Hl _]%delete_where_Some. by eapply L.
  - by apply ingest_shaped.
  - unfold reconcileObservedIdentities. destruct (renew _ _ _ _) as [e|d0] eqn:E0; [done|].
    assert (Hs0 : shaped d0).
    { unfold renew in E0. destruct (sync_state d); [|done]. destruct (owned _ _ _ _); [|done]. injection E0 as <-. by apply (shaped_same d). }
    set (plan := merge_plan _ _). set (d2 := project_contacts _ _).
    assert (H2 : shaped (project_members (CONTACT_LEGACY_MEMBER_FANOUT_ENABLED cfg) now (winners plan) d2).2)
      by (apply project_members_shaped; by apply (shaped_same d0)).
    destruct (project_members _ _ _ _) as [n d3]. cbn [snd] in *. by apply (shaped_same d3).
  - unfold complete. destruct (negb _); [done|]. destruct (negb _); [by apply (shaped_same d)|].
    destruct (update_row _ _ _ _) as [[row|] generations]; [|done].
    apply (shaped_same (Evidence.publishSnapshot cfg drawn ids now generation d)); [done..|]. by apply publish_shaped.
  - unfold Snapshots.fail. destruct (CONTACT_SNAPSHOT_STAGING_ENABLED cfg); by apply (shaped_same d).
  - unfold observeMessageSender. destruct (observable _ _ _) as [[i name]|] eqn:Ei; [|done].
    assert (Hi : phone_shape (key i) (nid_phone i)).
    { unfold observable in Ei. destruct (nid_type _); try done; apply fmap_Some in Ei as (nm & _ & [= -> _]); apply normal_phone. }
    set (d2 := touch_identifiers _ _ _). set (d3 := Evidence.observeMessageSender _ _ _ _ _ _ _ _ _ _ _).
    assert (H3 : shaped d3) by (apply evidence_sender_shaped; [by apply (shaped_same d)|done]).
    destruct (contact_of d3 (key i)) as [c|]; [|done]. destruct (write_name _ _ _ _ _) as [accepted names]. destruct accepted; [|done].
    cbn [snd]. apply project_members_shaped. by apply (shaped_same d3).
  - unfold replaceMembers, seedGroupMembers. case_bool_decide; [by apply (shaped_same d)|].
    set (w := write_members _ _ _ _). set (inputs := member_inputs _ _).
    apply (shaped_same (Evidence.observeGroupMembers cfg md5 drawn ids rq now groupId (map evidence_of inputs) w)); [done..|].
    apply evidence_members_shaped; [by apply (shaped_same d)|]. intros i Hi. apply list_elem_of_fmap in Hi as (m & -> & Hm).
    unfold inputs, member_inputs in Hm. apply list_elem_of_fmap in Hm as (p & -> & _). apply normal_phone.
  - by apply (shaped_same d).
  - by apply (shaped_same d).
Qed.

Lemma shaped_always d : reachable cfg nfc md5 d -> shaped d.
Proof. apply reachable_keeps; [split; intros *; cbn; by rewrite lookup_empty|apply shaped_op]. Qed.

End Writers.

(** *** Clusters *)

Section Clusters.
Context (generation : Z) (cutoff : timestamp) (d : contact_tables).
Hypothesis Hids : forall k k' o o', observed_identities d !! k = Some o -> observed_identities d !! k' = Some o' -> oc_id o = oc_id o' -> k = k'.
Hypothesis Hsh : shaped d.

Lemma identity_unique k k' id : is_identity d k id -> is_identity d k' id -> k = k'.
Proof. intros (o & Ho & E) (o' & Ho' & E'). apply (Hids _ _ _ _ Ho Ho'). congruence. Qed.

Lemma shaped_keyed : keyed d.
Proof.
  split; [apply Hids| |].
  - intros [s k] l Hl. apply (sh_link d Hsh) in Hl as (i & p & (o & Ho & E) & _). by exists i, o.
  - intros [s k] l Hl. apply (sh_link d Hsh) in Hl as (i & p & _ & (o & Ho & E) & _). by exists (IdentityType.PHONE, p), o.
Qed.

Abbreviation linked_to := (observed_link generation cutoff d).
Abbreviation trusts := (trusted generation cutoff d).

Lemma observed_shape s a b : linked_to s a b -> link_shape d s a b.
Proof. intros (k & l & Hl & <- & <- & _). by apply (sh_link d Hsh) in Hl. Qed.

(** What a phone holds together: its own identity, its JID, and the one LID that names it *)
Definition around (p : string) (a : uuid) : Prop :=
  is_identity d (IdentityType.PHONE, p) a \/
  (is_identity d (IdentityType.PHONE_JID, (p ++ "@c.us")%string) a) \/
  (exists v b, is_identity d (IdentityType.LID, v) a /\ is_identity d (IdentityType.PHONE, p) b /\
     linked_to LinkSource.OPENWA_CONTACT_PHONE a b /\ ~ contradicted generation cutoff d a).

Lemma trusted_around a b : trusts a b -> exists p, is_identity d (IdentityType.PHONE, p) b /\ around p a.
Proof.
  intros (s & Hl & Hs). destruct (observed_shape s a b Hl) as ([t v] & p & Hi & Hp & Hk). exists p. split; [done|].
  destruct s; [injection Hk as -> ->; by right; left|]. cbn in Hk. subst t. right; right. exists v, b.
  destruct Hs as [|Hc]; [done|]. by split_and!.
Qed.

(** A link that is trusted stays around the phone. *)
Lemma around_target p a b : around p a -> trusts a b -> is_identity d (IdentityType.PHONE, p) b.
Proof.
  intros Ha (s & Hl & Hs). destruct (observed_shape s a b Hl) as (i & q & Hi & Hq & Hk).
  destruct Ha as [Ha|[Ha|(v & c & Ha & Hc & Hlc & Hn)]].
  - pose proof (identity_unique _ _ _ Ha Hi) as <-. by destruct s.
  - pose proof (identity_unique _ _ _ Ha Hi) as <-. destruct s; [|done]. injection Hk as E.
    assert (p = q) as ->; [|done]. apply (f_equal (chop "@c.us")) in E. rewrite !chop_app in E. by injection E.
  - destruct (decide (b = c)) as [->|Hne]; [done|]. destruct Hn. left. by exists s, LinkSource.OPENWA_CONTACT_PHONE, b, c.
Qed.

Lemma around_step p a b : around p a -> trusts a b \/ trusts b a -> around p b.
Proof.
  intros Ha [H|H]; [left; by eapply around_target|]. apply trusted_around in H as (q & Hq & Hb).
  destruct Ha as [Ha|[Ha|(v & c & Ha & _)]]; pose proof (identity_unique _ _ _ Ha Hq) as E; [|done|done]. by injection E as ->.
Qed.

Lemma around_all p a b : around p a -> same_cluster generation cutoff d a b -> around p b.
Proof. intros Ha Hr. revert Ha. induction Hr as [|a b c Hs Hr IH]; intros Ha; [done|]. apply IH. by eapply around_step. Qed.

Lemma cluster_around a b : same_cluster generation cutoff d a b -> a <> b -> exists p, around p a /\ around p b.
Proof.
  intros Hr Hne. destruct Hr as [a|a c b Hs Hr]; [done|].
  assert (exists p, around p a) as (p & Ha).
  { destruct Hs as [H|H]; apply trusted_around in H as (p & Hp & Hx); exists p; [done|by left]. }
  exists p. split; [done|]. apply (around_all p c); [by eapply around_step|done].
Qed.

Lemma lid_alias v a : is_identity d (IdentityType.LID, v) a -> alias d a.
Proof. intros Ha. by exists (IdentityType.LID, v). Qed.

(** One identity of a kind is around a phone. *)
Lemma around_one p t v v' a b : around p a -> around p b -> is_identity d (t, v) a -> is_identity d (t, v') b -> a = b.
Proof.
  assert (Hsame : forall k x y, is_identity d k x -> is_identity d k y -> x = y)
    by (intros k x y (o & Ho & <-) (o' & Ho' & <-); congruence).
  intros Ha Hb Hia Hib.
  destruct Ha as [Ha|[Ha|(w & c & Ha & Hc & Hlc & Hn)]]; pose proof (identity_unique _ _ _ Hia Ha) as E;
    destruct Hb as [Hb|[Hb|(w' & c' & Hb & Hc' & Hlc' & Hn')]]; pose proof (identity_unique _ _ _ Hib Hb) as E';
    injection E as -> ->; injection E' as E'; subst; try done; [by eapply Hsame..|].
  destruct (decide (a = b)) as [|Hne]; [done|]. destruct Hn. right. assert (c = c') as <- by by eapply Hsame.
  exists c, a, b. split_and!; try done; by eapply lid_alias.
Qed.

End Clusters.


(** The tables that the resolution does not write *)
Definition beside (d : contact_tables) :=
  (contacts d, contact_identifiers d, contact_names d, contact_identity_evidence d, group_members d, sync_state d,
   snapshot_generations d, snapshot_observations d, observed_identities d, contact_observations d, contact_link_evidence d).

(** The transactions of the resolution are among those of [op]. *)
Lemma resolution_op cfg nfc md5 d d' : beside d' = beside d -> op cfg nfc md5 d d'.
Proof.
  destruct d, d'. unfold beside. cbn. intros [=]. subst. apply (op_resolution cfg nfc md5 (ContactTables _ _ _ _ _ _ _ _ _ _ _ _ _ _ _ _)).
Qed.

Lemma enqueue_op cfg nfc md5 allowed now ids limit d : op cfg nfc md5 d (enqueuePublished allowed now ids limit d).2.
Proof. by apply resolution_op. Qed.

Lemma claim_op cfg nfc md5 allowed now locked token d : op cfg nfc md5 d (claim allowed now locked token d).2.
Proof. apply resolution_op. unfold claim. by destruct (head _) as [[id r]|]. Qed.

Lemma resolve_op cfg nfc md5 on rq now clock run token d : op cfg nfc md5 d (resolve on rq now clock run token d).2.
Proof.
  apply resolution_op. unfold resolve. destruct (resolution_runs d !! run) as [r|]; [|done].
  destruct (negb _); [done|]. cbv zeta. destruct (update_row _ _ _ _) as [[r'|] runs]; [|done]. cbn [snd].
  match goal with |- context [request_changed on rq run ?x] => destruct (request_changed_only on rq run x) as [q ->] end. done.
Qed.

Lemma fail_op cfg nfc md5 now run token d : op cfg nfc md5 d (Resolution.fail now run token d).
Proof. by apply resolution_op. Qed.

(** Upstream gives one phone to two LIDs. *)
Definition claimed_twice : contact_tables :=
  let received := (ingestObservedPage SnapshotLife.example_cfg id id 1001 (fun n => Pos.of_succ_nat n) 1 5
     [OpenWAContact "62811@c.us" "62811" (Some "Ann Lee") None; OpenWAContact "9000@lid" "62811" None (Some "bo");
      OpenWAContact "90001@lid" "62811" None (Some "cy")] SnapshotLife.begun).2 in
  (complete SnapshotLife.example_cfg 1002 (fun k => Pos.of_succ_nat (String.length k.2)) (fun k => Pos.of_succ_nat (String.length k.2)) 1 5 3 60000 received).2.

Definition claimed_queue : contact_tables := (enqueuePublished true 1990 (fun _ => 40%positive) 2 claimed_twice).2.

Definition claimed_run : contact_tables := (claim true 2000 (fun _ => false) 30 claimed_queue).2.

Lemma claimed_run_reachable : reachable SnapshotLife.example_cfg id id claimed_run.
Proof.
  unfold reachable. apply (rtc_l _ _ SnapshotLife.begun); [apply op_begin|]. eapply rtc_l; [apply op_ingest|].
  apply (rtc_l _ _ claimed_twice); [apply op_complete|]. apply (rtc_l _ _ claimed_queue); [apply enqueue_op|].
  apply rtc_once, claim_op.
Qed.

Lemma claimed_keyed : keyed claimed_run.
Proof. apply keyed_rows; [vm_compute; repeat (constructor; [set_solver|]); constructor|by vm_compute]. Qed.

Lemma claimed_first : is_identity claimed_run (IdentityType.LID, "9000@lid") 9.
Proof. apply is_identity_id. by vm_compute. Qed.

Lemma claimed_second : is_identity claimed_run (IdentityType.LID, "90001@lid") 10.
Proof. apply is_identity_id. by vm_compute. Qed.


End ContactPeople.
