(* ===== verification/ContactProjection.v ===== *)
(** * Projection of contacts onto the members of groups

    [src/src/modules/contacts/contact-projection.repository.ts] and
    [contact-projection-batch.repository.ts]: work of the queue is claimed under a lease, and
    the members that stand for its identity are written page by page, from a cursor that is
    kept with the work.  Every write carries the revision of the request it serves.

    [allowed] are the sessions the process may work for, if they are restricted; [lower] is
    the function of the database. *)

From S2P Require Import Prelude Schema SendPolicy Service ContactSchema ContactQueue ContactIdentity Relational ContactEvidence ContactStore ContactSnapshots ContactResolution.

Import Queue Normalization.

Module Projection.

Local Open Scope Z_scope.

(** The tables of every session *)
Abbreviation fleet := (gmap string contact_tables).

Definition tables (f : fleet) (sessionId : string) : contact_tables := default empty_contacts (f !! sessionId).

Section Repo.
Context (cfg : contact_config) (lower : string -> string) (allowed : option (list string)).

(** ($1 IS NULL OR session_id = ANY($1)) *)
Definition may_work (sessionId : string) : bool :=
  match allowed with Some l => mem sessionId l | None => true end.

(** [mirrorLegacyProjection], as [contacts.module.ts] sets it *)
Definition mirrorLegacyProjection : bool := negb (CONTACT_LEGACY_MEMBER_FANOUT_ENABLED cfg).

(** *** Claims *)

(** [ContactProjectionClaim] *)
Record projection_claim := ProjectionClaim { pc_sessionId : string; pc_identityId : uuid; pc_leaseToken : uuid }.

Definition claimable (now : timestamp) (w : projection_work) : bool :=
  match pw_status w with
  | WorkStatus.PENDING | WorkStatus.RETRY => pw_next_attempt_at w <=? now
  | WorkStatus.RUNNING => before (pw_lease_expires_at w) now
  | _ => false
  end.

(** The rows of [contact_projection_work] *)
Definition work_rows (f : fleet) : list ((string * uuid) * projection_work) :=
  flat_map (fun sd => map (fun kw => ((sd.1, kw.1), kw.2)) (map_to_list (contact_projection_work sd.2))) (map_to_list f).

(** (session_id, identity_id) *)
Definition key_order (a b : string * uuid) : bool :=
  if bool_decide (a.1 = b.1) then (a.2 <=? b.2)%positive else text_leb a.1 b.1.

(** ORDER BY next_attempt_at, first_requested_at, session_id, identity_id *)
Definition claim_order (a b : (string * uuid) * projection_work) : bool :=
  if pw_next_attempt_at a.2 =? pw_next_attempt_at b.2
  then if pw_first_requested_at a.2 =? pw_first_requested_at b.2 then key_order a.1 b.1
       else pw_first_requested_at a.2 <? pw_first_requested_at b.2
  else pw_next_attempt_at a.2 <? pw_next_attempt_at b.2.

(** The latest run that was completed by the cutoff *)
Definition run_at (cutoff : timestamp) (d : contact_tables) : option uuid :=
  fst <$> head (order_by completed_order (select_where (fun _ r =>
    bool_decide (rn_status r = ResolutionStatus.COMPLETED)
    && match rn_completed_at r with Some t => t <=? cutoff | None => false end) (resolution_runs d))).

Definition work_lease_ms : Z := 300000.

(** Work that was started is taken up where it is, other work at the latest request. *)
Definition claimed (now : timestamp) (token : uuid) (d : contact_tables) (w : projection_work) : projection_work :=
  let active := default (pw_requested_revision w, pw_requested_cutoff_at w) (pw_active w) in
  w <| pw_status := WorkStatus.RUNNING |> <| pw_active := Some active |>
    <| pw_active_resolution_run_id := coalesce (pw_active_resolution_run_id w) (run_at active.2 d) |>
    <| pw_attempt_count := pw_attempt_count w + 1 |> <| pw_lease_token := Some token |>
    <| pw_lease_expires_at := Some (now + work_lease_ms) |> <| pw_error_code := None |>.

Definition set_work (id : uuid) (w : projection_work) (d : contact_tables) : contact_tables :=
  d <| contact_projection_work := <[id := w]> (contact_projection_work d) |>.

(** FOR UPDATE SKIP LOCKED: rows that are [locked] are not looked at. *)
Definition claim (now : timestamp) (locked : string * uuid -> bool) (token : uuid) (f : fleet) : option projection_claim * fleet :=
  match head (order_by claim_order
          (List.filter (fun r => may_work r.1.1 && claimable now r.2 && negb (locked r.1)) (work_rows f))) with
  | None => (None, f)
  | Some ((sessionId, id), w) =>
      let d := tables f sessionId in
      (Some (ProjectionClaim sessionId id token), <[sessionId := set_work id (claimed now token d w) d]> f)
  end.

(** *** What a member shows *)

Definition resolved_in (run : option uuid) (d : contact_tables) (id : uuid) : option identity_assignment :=
  ia ← Resolution.assigned_in run d id; if ia_quarantined ia then None else Some ia.

(** The identities of a cluster in a run *)
Definition cluster_ids (run : uuid) (cluster : uuid) (d : contact_tables) : list uuid :=
  map (fun kv => kv.1.2) (select_where (fun k ia =>
    bool_decide (k.1 = run) && bool_decide (ia_cluster_id ia = cluster) && negb (ia_quarantined ia)) (resolved_assignments d)).

(** [affected_identities] *)
Definition aliases (run : option uuid) (d : contact_tables) (id : uuid) : list uuid :=
  match run, resolved_in run d id with
  | Some r, Some root => cluster_ids r (ia_cluster_id root) d
  | _, _ => []
  end.

Definition affected_identities (run : option uuid) (d : contact_tables) (id : uuid) : list uuid := id :: aliases run d id.

(** The latest push name of some identities, as far as the cutoff *)
Definition push_name (cutoff : timestamp) (of_ : uuid -> bool) (d : contact_tables) : option string :=
  (fun o => no_name_value o.2) <$>
  head (order_by Evidence.newest_first (select_where (fun k o =>
    bool_decide (k.1 = NameSource.OPENWA_PUSH_NAME) && of_ (no_identity_id o) && (no_created_at o <=? cutoff)) (contact_observations d))).

(** [exact_push] *)
Definition exact_push (cutoff : timestamp) (id : uuid) (d : contact_tables) : option string :=
  push_name cutoff (fun i => bool_decide (i = id)) d.

(** [alias_push]: of the other identities of the cluster *)
Definition alias_push (cutoff : timestamp) (run : option uuid) (ia : identity_assignment) (id : uuid) (d : contact_tables) : option string :=
  push_name cutoff (fun i => negb (bool_decide (i = id))
    && match resolved_in run d i with Some x => bool_decide (ia_cluster_id x = ia_cluster_id ia) | None => false end) d.

(** The name of the cluster of a resolved assignment *)
Definition cluster_display_name (run : option uuid) (ia : identity_assignment) (d : contact_tables) : option string :=
  c ← Resolution.cluster_in run d (ia_cluster_id ia); snd <$> rc_name c.

(** [effective_name] and [effective_source] *)
Definition projected_name (cutoff : timestamp) (run : option uuid) (id : uuid) (m : group_member) (d : contact_tables)
    : option (string * shadow_source) :=
  let resolved := resolved_in run d id in
  match (ia ← resolved; cluster_display_name run ia d) with
  | Some n => Some (n, Observed NameSource.OPENWA_CONTACT_NAME)
  | None =>
  match gm_participant_display_name m with
  | Some n => Some (n, Observed NameSource.GROUP_PARTICIPANT_NAME)
  | None =>
  match exact_push cutoff id d with
  | Some n => Some (n, Observed NameSource.OPENWA_PUSH_NAME)
  | None => (fun n => (n, RESOLVED_ALIAS_PUSH_NAME)) <$> (ia ← resolved; alias_push cutoff run ia id d)
  end end end.

(** [resolved_phone] *)
Definition projected_phone (run : option uuid) (id : uuid) (k : identity_key) (d : contact_tables) : option string :=
  match resolved_in run d id with
  | Some ia => ia_resolved_phone_number ia
  | None => match k.1 with
            | IdentityType.PHONE_JID => Some (default k.2 (chop "@c.us" k.2))
            | _ => None
            end
  end.

Definition mirrored_source (s : shadow_source) : NameSource.t :=
  match s with Observed s => s | RESOLVED_ALIAS_PUSH_NAME => NameSource.OPENWA_PUSH_NAME end.

(** A row of [projected] *)
Record projected_row := ProjectedRow {
  pj_type : IdentityType.t;
  pj_phone : option string;
  pj_name : option (string * shadow_source) }.

Definition projected (cutoff : timestamp) (run : option uuid) (m : group_member) (d : contact_tables) : option projected_row :=
  id ← gm_evidence_identity_id m;
  k ← identity_by_id d id;
  Some (ProjectedRow k.1 (projected_phone run id k d) (projected_name cutoff run id m d)).

(** [writes]; [phone_number] is not NULL. *)
Definition write_projection (now : timestamp) (revision : Z) (run : option uuid) (p : projected_row) (m : group_member) : group_member :=
  let m1 := m <| gm_identity_type := Some (pj_type p) |>
              <| gm_shadow := Shadow (pj_phone p) (fst <$> pj_name p) (snd <$> pj_name p)
                   (Some (lower (default (default (gm_phone_number m) (pj_phone p)) (fst <$> pj_name p)))) revision run |> in
  if mirrorLegacyProjection
  then m1 <| gm_resolved_phone_number := pj_phone p |> <| gm_display_name := fst <$> pj_name p |>
          <| gm_display_name_source := mirrored_source ∘ snd <$> pj_name p |>
          <| gm_display_name_updated_at := match pj_name p with Some _ => Some now | None => None end |>
  else m1.

(** *** A batch *)

(** (group_id, participant_id) *)
Definition member_leb (a b : string * string) : bool :=
  if bool_decide (a.1 = b.1) then text_leb a.2 b.2 else text_leb a.1 b.1.

Definition past (cursor : option (string * string)) (k : string * string) : bool :=
  match cursor with Some c => negb (member_leb k c) | None => true end.

Definition stands_in (ids : list uuid) (m : group_member) : bool :=
  match gm_evidence_identity_id m with Some e => mem e ids | None => false end.

(** [member_page] *)
Definition member_page (batchSize : nat) (cursor : option (string * string)) (ids : list uuid) (d : contact_tables)
    : list ((string * string) * group_member) :=
  page member_leb batchSize (select_where (fun k m => stands_in ids m && past cursor k) (group_members d)).

(** [member.shadow_projection_revision <= $3] *)
Definition writable (revision : Z) (m : group_member) : bool := sw_projection_revision (gm_shadow m) <=? revision.

(** What the members of a page become *)
Definition page_writes (now revision cutoff : Z) (run : option uuid) (page : list ((string * string) * group_member)) (d : contact_tables)
    : list ((string * string) * group_member) :=
  omap (fun r => if writable revision r.2
                 then (fun p => (r.1, write_projection now revision run p r.2)) <$> projected cutoff run r.2 d
                 else None) page.

(** The checks of [group_members] on phone numbers *)
Definition phone_check (m : group_member) : bool :=
  match sw_resolved_phone_number (gm_shadow m) with Some p => digits p | None => true end
  && match gm_resolved_phone_number m with Some p => digits p | None => true end.

Definition owned (now : timestamp) (token : uuid) (w : projection_work) : bool :=
  bool_decide (pw_status w = WorkStatus.RUNNING) && bool_decide (pw_lease_token w = Some token) && after (pw_lease_expires_at w) now.

(** A request that came while the work went on makes it pending again. *)
Definition completed (now : timestamp) (revision : Z) (w : projection_work) : projection_work :=
  let again := revision <? pw_requested_revision w in
  w <| pw_completed_revision := revision |>
    <| pw_status := if again then WorkStatus.PENDING else WorkStatus.IDLE |>
    <| pw_first_requested_at := if again then pw_last_requested_at w else pw_first_requested_at w |>
    <| pw_active := None |> <| pw_active_resolution_run_id := None |> <| pw_cursor := None |>
    <| pw_attempt_count := 0 |> <| pw_next_attempt_at := now |> <| pw_lease_token := None |> <| pw_lease_expires_at := None |>
    <| pw_completed_at := Some now |> <| pw_failed_at := None |> <| pw_error_code := None |>.

Definition advanced (now : timestamp) (cursor : option (string * string)) (w : projection_work) : projection_work :=
  w <| pw_cursor := cursor |> <| pw_lease_expires_at := Some (now + work_lease_ms) |>.

Record batch_result := BatchResult { br_updated : Z; br_completed : bool }.

Definition lost_ownership : failure := JsError "Contact projection lost ownership".
Definition check_violation : failure := Broken "new row violates check constraint".
Definition null_violation : failure := Broken "null value in column violates not-null constraint".

(** With no active revision no member is written, and completion writes a NULL revision. *)
Definition project (now : timestamp) (id token : uuid) (batchSize : nat) (d : contact_tables) : (failure + batch_result) * contact_tables :=
  match contact_projection_work d !! id with
  | None => (inl lost_ownership, d)
  | Some w =>
      if negb (owned now token w) then (inl lost_ownership, d)
      else
        let run := pw_active_resolution_run_id w in
        let page := member_page batchSize (pw_cursor w) (affected_identities run d id) d in
        let writes := match pw_active w with
                      | Some (revision, cutoff) => page_writes now revision cutoff run page d
                      | None => []
                      end in
        if negb (forallb (fun r => phone_check r.2) writes) then (inl check_violation, d)
        else
          let d1 := d <| group_members := foldl (fun t r => <[r.1 := r.2]> t) (group_members d) writes |> in
          let done := (length page <? batchSize)%nat in
          let answer := inr (BatchResult (Z.of_nat (length page)) done) in
          if done
          then match pw_active w with
               | Some (revision, _) => (answer, set_work id (completed now revision w) d1)
               | None => (inl null_violation, d)
               end
          else (answer, set_work id (advanced now (fst <$> last page) w) d1)
  end.

(** *** The end of a claim *)

Definition held (token : uuid) (w : projection_work) : bool :=
  bool_decide (pw_status w = WorkStatus.RUNNING) && bool_decide (pw_lease_token w = Some token).

Definition released (now : timestamp) (w : projection_work) : projection_work :=
  w <| pw_status := WorkStatus.PENDING |> <| pw_next_attempt_at := now |>
    <| pw_lease_token := None |> <| pw_lease_expires_at := None |>.

Definition release (now : timestamp) (id token : uuid) (d : contact_tables) : contact_tables :=
  d <| contact_projection_work := (update_row id (held token) (released now) (contact_projection_work d)).2 |>.

Definition failed_work (now : timestamp) (w : projection_work) : projection_work :=
  let gives_up := 5 <=? pw_attempt_count w in
  w <| pw_status := if gives_up then WorkStatus.FAILED else WorkStatus.RETRY |>
    <| pw_next_attempt_at := now + Resolution.retry_ms (pw_attempt_count w) |>
    <| pw_failed_at := if gives_up then Some now else pw_failed_at w |>
    <| pw_error_code := Some "PROJECTION_ERROR" |> <| pw_lease_token := None |> <| pw_lease_expires_at := None |>.

Definition fail (now : timestamp) (id token : uuid) (d : contact_tables) : contact_tables :=
  d <| contact_projection_work := (update_row id (held token) (failed_work now) (contact_projection_work d)).2 |>.

(** The batches of one claim, as [ContactProjectionTick] makes them, each at its time: whether
    the last one completed the work, and how many members were seen *)
Fixpoint job (id token : uuid) (batchSize : nat) (nows : list timestamp) (d : contact_tables)
    : (failure + bool) * Z * contact_tables :=
  match nows with
  | [] => (inr false, 0, d)
  | now :: nows' =>
      match project now id token batchSize d with
      | (inl e, d1) => (inl e, 0, d1)
      | (inr r, d1) =>
          if br_completed r then (inr true, br_updated r, d1)
          else let '(o, updated, d2) := job id token batchSize nows' d1 in (o, br_updated r + updated, d2)
      end
  end.

(** *** [getQueueMetrics] *)

(** [ContactProjectionQueueMetrics]; the lag in milliseconds *)
Record queue_metrics := QueueMetrics { qm_pending : Z; qm_inactivePending : Z; qm_failed : Z; qm_oldestLag : Z }.

Definition outstanding (w : projection_work) : bool :=
  match pw_status w with WorkStatus.PENDING | WorkStatus.RUNNING | WorkStatus.RETRY => true | _ => false end.

Definition getQueueMetrics (now : timestamp) (f : fleet) : queue_metrics :=
  let count p := Z.of_nat (length (List.filter p (work_rows f))) in
  let pending := count (fun r => outstanding r.2) in
  let inactive := count (fun r => outstanding r.2 && negb (may_work r.1.1)) in
  QueueMetrics (pending - inactive) inactive
    (count (fun r => bool_decide (pw_status r.2 = WorkStatus.FAILED) && may_work r.1.1))
    (match map (fun r => now - pw_first_requested_at r.2) (List.filter (fun r => outstanding r.2 && may_work r.1.1) (work_rows f)) with
     | [] => 0
     | lag :: lags => foldr Z.max lag lags
     end).

End Repo.
End Projection.
