(* ===== verification/ContactBatches.v ===== *)
(** * What the batches of a projection do

    Batches run from the cursor of claimed work until a page is not full: every member the
    work stands for is then written, once, with what its identity resolves to. *)

From S2P Require Import Prelude Schema SendPolicy Service ContactSchema ContactQueue ContactIdentity Relational ContactEvidence ContactStore ContactSnapshots ContactResolution ContactProjection.

Import Queue Projection.

Module Batches.

Local Open Scope Z_scope.

(** *** The order of members *)

Lemma member_leb_total a b : member_leb a b = true \/ member_leb b a = true.
Proof.
  unfold member_leb. destruct (decide (a.1 = b.1)) as [E|E].
  - rewrite !bool_decide_true by congruence. apply text_leb_total.
  - rewrite !bool_decide_false by congruence. apply text_leb_total.
Qed.

Lemma member_leb_antisym a b : member_leb a b = true -> member_leb b a = true -> a = b.
Proof.
  unfold member_leb. destruct a as [a1 a2], b as [b1 b2]. cbn. destruct (decide (a1 = b1)) as [->|E].
  - rewrite !bool_decide_true by done. intros H1 H2. f_equal. by apply text_leb_antisym.
  - rewrite !bool_decide_false by congruence. intros H1 H2. destruct E. by apply text_leb_antisym.
Qed.

Lemma member_leb_trans a b c : member_leb a b = true -> member_leb b c = true -> member_leb a c = true.
Proof.
  unfold member_leb. destruct a as [a1 a2], b as [b1 b2], c as [c1 c2]. cbn.
  destruct (decide (a1 = b1)) as [->|E]; destruct (decide (b1 = c1)) as [->|F].
  - rewrite !bool_decide_true by done. apply text_leb_trans.
  - by rewrite (bool_decide_true (b1 = b1)), !(bool_decide_false (b1 = c1)) by done.
  - by rewrite (bool_decide_true (c1 = c1)), !(bool_decide_false (a1 = c1)) by done.
  - rewrite (bool_decide_false (a1 = b1)), (bool_decide_false (b1 = c1)) by done. intros H1 H2. case_bool_decide as G.
    + subst c1. destruct E. by apply text_leb_antisym.
    + by eapply text_leb_trans.
Qed.

(** *** What a projection reads *)

(** Neither the members nor the queue are read for it. *)
Definition same_sources (d d' : contact_tables) : Prop :=
  resolved_assignments d' = resolved_assignments d /\ resolved_clusters d' = resolved_clusters d /\
  observed_identities d' = observed_identities d /\ contact_observations d' = contact_observations d.

Lemma resolved_in_same d d' run id : same_sources d d' -> resolved_in run d' id = resolved_in run d id.
Proof. intros (E1 & _). unfold resolved_in, Resolution.assigned_in. by rewrite E1. Qed.

Lemma push_name_same d d' cutoff P Q : same_sources d d' -> (forall i, P i = Q i) -> push_name cutoff P d' = push_name cutoff Q d.
Proof.
  intros (_ & _ & _ & E4) HPQ. unfold push_name, select_where. rewrite E4. do 3 f_equal.
  apply filter_ext. intros [k o]. cbn. by rewrite HPQ.
Qed.

Lemma projected_same d d' cutoff run m : same_sources d d' -> projected cutoff run m d' = projected cutoff run m d.
Proof.
  intros Hs. pose proof Hs as (_ & E2 & E3 & _). unfold projected, identity_by_id. rewrite E3.
  destruct (gm_evidence_identity_id m) as [id|]; [|done]. cbn. destruct (fst <$> _) as [k|]; [|done]. cbn. do 2 f_equal.
  - unfold projected_phone. by rewrite (resolved_in_same d d').
  - unfold projected_name, exact_push. rewrite (resolved_in_same d d') by done.
    rewrite (push_name_same d d' cutoff _ (fun i => bool_decide (i = id))) by done.
    destruct (resolved_in run d id) as [ia|]; cbn; [|done]. unfold cluster_display_name, Resolution.cluster_in, alias_push.
    rewrite E2. destruct (_ ≫= _); [done|]. destruct (gm_participant_display_name m); [done|].
    destruct (push_name _ _ d); [done|]. f_equal. apply push_name_same; [done|]. intros i. by rewrite (resolved_in_same d d').
Qed.

Lemma affected_same d d' run id : same_sources d d' -> affected_identities run d' id = affected_identities run d id.
Proof.
  intros Hs. pose proof Hs as (E1 & _). unfold affected_identities, aliases. destruct run as [r|]; [|done].
  rewrite (resolved_in_same d d') by done. destruct (resolved_in (Some r) d id); [|done]. unfold cluster_ids. by rewrite E1.
Qed.

(** *** The members a page leaves for the next *)

Section Job.
Context (cfg : contact_config) (lower : string -> string) (id token : uuid) (batchSize : nat).
Hypothesis positive_size : (0 < batchSize)%nat.

Abbreviation project := (project cfg lower).
Abbreviation job := (job cfg lower).
Abbreviation written := (write_projection cfg lower).

(** The members that a run of batches from the cursor is to look at *)
Definition due (cursor : option (string * string)) (ids : list uuid) (t : gmap (string * string) group_member)
    : list ((string * string) * group_member) :=
  select_where (fun k m => stands_in ids m && past cursor k) t.

Lemma member_page_due n cursor ids d : member_page n cursor ids d = page member_leb n (due cursor ids (group_members d)).
Proof. done. Qed.

Lemma due_NoDup cursor ids t : NoDup (due cursor ids t).*1.
Proof. apply select_where_NoDup. Qed.

Lemma due_elem cursor ids t k m : (k, m) ∈ due cursor ids t <-> t !! k = Some m /\ stands_in ids m = true /\ past cursor k = true.
Proof. unfold due. by rewrite select_where_elem, andb_true_iff. Qed.

Lemma past_last cursor n ids t r k m : last (page member_leb n (due cursor ids t)) = Some r -> (k, m) ∈ due cursor ids t ->
  past (Some r.1) k = negb (mem k (page member_leb n (due cursor ids t)).*1).
Proof.
  intros Hr Hk. set (P := page _ _ _) in *. cbn. f_equal.
  pose proof (page_last member_leb member_leb_total member_leb_trans member_leb_antisym n _ r (k, m) (due_NoDup _ _ _) Hr Hk) as H.
  fold P in H. cbn in H. destruct (member_leb k r.1) eqn:E.
  - symmetry. apply mem_true, list_elem_of_fmap. exists (k, m). split; [done|]. by apply H.
  - symmetry. apply mem_false. intros ([k' m'] & Ek & Hm)%list_elem_of_fmap. cbn in Ek. subst k'.
    assert (m' = m) as ->; [|apply H in Hm; congruence].
    eapply keys_unique; [apply (due_NoDup cursor ids t)| |done]. by eapply page_elem.
Qed.

(** Rows written under their own keys, their identities as they were *)
Definition keeps_identity (t : gmap (string * string) group_member) (writes : list ((string * string) * group_member)) : Prop :=
  NoDup writes.*1 /\ forall k m, (k, m) ∈ writes -> exists m0, t !! k = Some m0 /\ gm_evidence_identity_id m = gm_evidence_identity_id m0.

Lemma page_writes_keep now revision cutoff run ids cursor n d :
  keeps_identity (group_members d) (page_writes cfg lower now revision cutoff run (member_page n cursor ids d) d).
Proof.
  unfold page_writes. split.
  - set (f := fun r : (string * string) * group_member => _).
    assert (Hf : forall x y, f x = Some y -> y.1 = x.1).
    { intros x y E. unfold f in E. destruct (writable revision x.2); [|done]. apply fmap_Some in E as (p & _ & ->). done. }
    assert (Hn : NoDup (member_page n cursor ids d).*1) by (apply take_order_by_NoDup, due_NoDup).
    induction (member_page n cursor ids d) as [|x l IH]; cbn; [constructor|]. cbn in Hn. apply NoDup_cons in Hn as [Hx Hn].
    destruct (f x) as [y|] eqn:E; [|by apply IH]. cbn. constructor; [|by apply IH]. rewrite (Hf x y E).
    intros (z & Hz & (x' & Hin & E')%list_elem_of_omap)%list_elem_of_fmap. apply Hf in E'. apply Hx, list_elem_of_fmap.
    exists x'. split; [congruence|done].
  - intros k m ([k' m0] & Hin & E)%list_elem_of_omap. cbn in E. destruct (writable revision m0); [|done].
    apply fmap_Some in E as (p & _ & [= -> ->]). rewrite member_page_due in Hin. apply page_elem, due_elem in Hin as (Hk & _).
    exists m0. split; [done|]. unfold write_projection. by destruct (mirrorLegacyProjection cfg).
Qed.

Lemma stands_in_same ids m m' : gm_evidence_identity_id m' = gm_evidence_identity_id m -> stands_in ids m' = stands_in ids m.
Proof. unfold stands_in. by intros ->. Qed.

(** What a batch makes of a member it looks at *)
Definition outcome (now revision cutoff : Z) (run : option uuid) (d : contact_tables) (m : group_member) : group_member :=
  if writable revision m
  then match projected cutoff run m d with Some p => written now revision run p m | None => m end
  else m.

Lemma outcome_same d d' now revision cutoff run m : same_sources d d' -> outcome now revision cutoff run d' m = outcome now revision cutoff run d m.
Proof. intros Hs. unfold outcome. by rewrite (projected_same d d'). Qed.

Definition write_page (now revision cutoff : Z) (run : option uuid) (P : list ((string * string) * group_member)) (d : contact_tables)
    : gmap (string * string) group_member :=
  foldl (fun t r => <[r.1 := r.2]> t) (group_members d) (page_writes cfg lower now revision cutoff run P d).

Lemma write_page_lookup now revision cutoff run n cursor ids d k :
  write_page now revision cutoff run (member_page n cursor ids d) d !! k =
    (fun m => if mem k (member_page n cursor ids d).*1 then outcome now revision cutoff run d m else m) <$> group_members d !! k.
Proof.
  destruct (page_writes_keep now revision cutoff run ids cursor n d) as [Hnd _].
  assert (Hw : forall m, (k, m) ∈ page_writes cfg lower now revision cutoff run (member_page n cursor ids d) d <->
    exists m0, (k, m0) ∈ member_page n cursor ids d /\ writable revision m0 = true /\
      exists p, projected cutoff run m0 d = Some p /\ m = written now revision run p m0).
  { intros m. unfold page_writes. rewrite list_elem_of_omap. split.
    - intros ([k' m0] & Hin & E). cbn in E. destruct (writable revision m0) eqn:Ew; [|done].
      apply fmap_Some in E as (p & Hp & [= -> ->]). exists m0. split_and!; [done|done|by exists p].
    - intros (m0 & Hin & Hw & p & Hp & ->). exists (k, m0). split; [done|]. cbn. by rewrite Hw, Hp. }
  assert (Hp : forall m0, (k, m0) ∈ member_page n cursor ids d -> group_members d !! k = Some m0).
  { intros m0 Hin%page_elem. by apply due_elem in Hin as [H _]. }
  assert (Hk : forall m0, group_members d !! k = Some m0 ->
    mem k (member_page n cursor ids d).*1 = true <-> (k, m0) ∈ member_page n cursor ids d).
  { intros m0 Hm0. rewrite mem_true, list_elem_of_fmap. split; [|by intros; exists (k, m0)].
    intros ([k' m1] & Ek & Hin). cbn in Ek. subst k'. assert (m1 = m0) as ->; [|done]. apply Hp in Hin. congruence. }
  assert (Hin : forall m0, group_members d !! k = Some m0 -> k ∈ (page_writes cfg lower now revision cutoff run (member_page n cursor ids d) d).*1 ->
    mem k (member_page n cursor ids d).*1 = true /\ writable revision m0 = true /\ is_Some (projected cutoff run m0 d)).
  { intros m0 Hm0 ([k' m] & Ek & Hin)%list_elem_of_fmap. cbn in Ek. subst k'. apply Hw in Hin as (m1 & Hin & Hwr & p & Hpr & _).
    assert (m1 = m0) as -> by (apply Hp in Hin; congruence). rewrite (Hk m0 Hm0). split_and!; [done|done|by exists p]. }
  unfold write_page. apply option_eq. intros m. rewrite foldl_insert_Some by done. rewrite Hw. split.
  - intros [(m0 & Hm & Hwr & p & Hpr & ->)|[Hn Hm]].
    + rewrite (Hp m0 Hm). cbn. rewrite (proj2 (Hk m0 (Hp m0 Hm)) Hm). unfold outcome. by rewrite Hwr, Hpr.
    + rewrite Hm. cbn. f_equal. pose proof (proj1 (Hk m Hm)) as Hm1. destruct (mem k _); [|done]. unfold outcome.
      destruct (writable revision m) eqn:Ew; [|done]. destruct (projected cutoff run m d) as [p|] eqn:Ep; [|done].
      destruct Hn. apply list_elem_of_fmap. eexists (k, _). split; [done|]. apply Hw. exists m. split_and!; [by apply Hm1|done|by exists p].
  - destruct (group_members d !! k) as [m0|] eqn:Em; [|done]. cbn. intros [= <-].
    destruct (decide (k ∈ (page_writes cfg lower now revision cutoff run (member_page n cursor ids d) d).*1)) as [Hk0|Hk0].
    + left. destruct (Hin m0 eq_refl Hk0) as (H1 & H2 & p & H3). exists m0. rewrite H1. unfold outcome. rewrite H2, H3.
      split_and!; [by apply (Hk m0 eq_refl)|done|by exists p].
    + right. split; [done|]. pose proof (proj1 (Hk m0 eq_refl)) as Hm1. destruct (mem k _); [|done]. unfold outcome.
      destruct (writable revision m0) eqn:Ew; [|done]. destruct (projected cutoff run m0 d) as [p|] eqn:Ep; [|done].
      destruct Hk0. apply list_elem_of_fmap. eexists (k, _). split; [done|]. apply Hw. exists m0. split_and!; [by apply Hm1|done|by exists p].
Qed.

(** What is due after a full page: what was, but for the page *)
Lemma due_next now revision cutoff run n cursor ids d r k m :
  last (member_page n cursor ids d) = Some r ->
  (k, m) ∈ due (Some r.1) ids (write_page now revision cutoff run (member_page n cursor ids d) d) <->
  (k, m) ∈ due cursor ids (group_members d) /\ member_leb k r.1 = false.
Proof.
  intros Hr. rewrite !due_elem, write_page_lookup. set (P := member_page n cursor ids d) in *.
  assert (Hrp : r ∈ due cursor ids (group_members d)).
  { apply (page_elem member_leb n). apply last_Some in Hr as [p Hp]. fold (due cursor ids (group_members d)) in P.
    change (r ∈ P). rewrite Hp. apply elem_of_app. right. left. }
  assert (Hpast : member_leb k r.1 = false -> past cursor k = true).
  { intros Hlt. destruct r as [kr mr]. apply due_elem in Hrp as (_ & _ & Hc). destruct cursor as [c|]; [|done]. cbn in *.
    apply negb_true_iff in Hc. apply negb_true_iff, not_true_iff_false. intros Hkc.
    assert (member_leb c kr = true) by (destruct (member_leb_total c kr); [done|congruence]).
    by rewrite (member_leb_trans _ _ _ Hkc H) in Hlt. }
  assert (Hmem : forall m0, group_members d !! k = Some m0 -> stands_in ids m0 = true -> member_leb k r.1 = false -> mem k P.*1 = false).
  { intros m0 Hm0 Hst Hlt. pose proof (past_last cursor n ids (group_members d) r k m0 Hr) as H.
    rewrite due_elem in H. specialize (H (conj Hm0 (conj Hst (Hpast Hlt)))). cbn in H. rewrite Hlt in H. cbn in H.
    symmetry in H. by apply negb_true_iff in H. }
  cbn [past]. rewrite negb_true_iff. split.
  - intros (Hk & Hst & Hlt). destruct (group_members d !! k) as [m0|] eqn:Em; [|done]. cbn in Hk. injection Hk as Hk.
    assert (Hst0 : stands_in ids m0 = true).
    { rewrite <- Hst, <- Hk. symmetry. destruct (mem k P.*1); [|done]. apply stands_in_same. unfold outcome.
      destruct (writable _ _); [|done]. destruct (projected _ _ _ _); [|done]. unfold write_projection.
      by destruct (mirrorLegacyProjection cfg). }
    rewrite (Hmem m0 eq_refl Hst0 Hlt) in Hk. subst m. split_and!; try done. by apply Hpast.
  - intros ((Hk & Hst & _) & Hlt). rewrite Hk. cbn. rewrite (Hmem m Hk Hst Hlt). by split_and!.
Qed.

Lemma due_next_length now revision cutoff run n cursor ids d r :
  last (member_page n cursor ids d) = Some r ->
  length (due cursor ids (group_members d)) =
    (length (member_page n cursor ids d) +
     length (due (Some r.1) ids (write_page now revision cutoff run (member_page n cursor ids d) d)))%nat.
Proof.
  intros Hr. rewrite (page_full member_leb member_leb_total member_leb_trans member_leb_antisym n _ r (due_NoDup _ _ _) Hr).
  f_equal. apply Permutation_length, NoDup_Permutation.
  - apply NoDup_ListNoDup, List.NoDup_filter, NoDup_ListNoDup. eapply NoDup_fmap_1, due_NoDup.
  - eapply NoDup_fmap_1, due_NoDup.
  - intros [k m]. rewrite (due_next _ _ _ _ _ _ _ _ _ _ _ Hr), (list_elem_of_In (List.filter _ _)), filter_In, <- list_elem_of_In.
    by rewrite negb_true_iff.
Qed.

(** *** Running the batches *)

(** Each batch comes within the lease that the one before it has renewed. *)
Fixpoint timely (expires : option timestamp) (nows : list timestamp) : Prop :=
  match nows with
  | [] => True
  | now :: nows' => after expires now = true /\ timely (Some (now + work_lease_ms)) nows'
  end.

Lemma project_step now d w revision cutoff :
  contact_projection_work d !! id = Some w -> owned now token w = true -> pw_active w = Some (revision, cutoff) ->
  let run := pw_active_resolution_run_id w in
  let P := member_page batchSize (pw_cursor w) (affected_identities run d id) d in
  (forall k m, (k, m) ∈ P -> phone_check (outcome now revision cutoff run d m) = true) ->
  let d1 := d <| group_members := write_page now revision cutoff run P d |> in
  project now id token batchSize d =
    if (length P <? batchSize)%nat
    then (inr (BatchResult (Z.of_nat (length P)) true), set_work id (completed now revision w) d1)
    else (inr (BatchResult (Z.of_nat (length P)) false), set_work id (advanced now (fst <$> last P) w) d1).
Proof.
  cbv zeta. intros Hw Ho Ha Hc. unfold Projection.project. rewrite Hw, Ho. cbn [negb]. rewrite Ha.
  set (P := member_page _ _ _ _) in *.
  assert (forallb (fun r => phone_check r.2) (page_writes cfg lower now revision cutoff (pw_active_resolution_run_id w) P d) = true) as ->.
  { apply forallb_forall. intros [k m] Hin%list_elem_of_In. unfold page_writes in Hin.
    apply list_elem_of_omap in Hin as ([k' m0] & Hin & E). apply Hc in Hin. unfold outcome in Hin. cbn [fst snd] in *.
    destruct (writable revision m0); [|done]. destruct (projected _ _ _ _); [|done]. cbn in E. injection E as _ <-. exact Hin. }
  cbn [negb]. unfold write_page. by destruct (length P <? batchSize)%nat.
Qed.

(** The members after some batches: each that was due as one of them leaves it *)
Definition after_batches (nows : list timestamp) (revision cutoff : Z) (run : option uuid) (ids : list uuid)
    (cursor : option (string * string)) (d : contact_tables) (t : gmap (string * string) group_member) : Prop :=
  forall k, match group_members d !! k with
            | None => t !! k = None
            | Some m => exists now, now ∈ nows /\
                t !! k = Some (if stands_in ids m && past cursor k then outcome now revision cutoff run d m else m)
            end.

Lemma job_completes nows d w revision cutoff :
  contact_projection_work d !! id = Some w -> pw_status w = WorkStatus.RUNNING -> pw_lease_token w = Some token ->
  timely (pw_lease_expires_at w) nows -> pw_active w = Some (revision, cutoff) ->
  let run := pw_active_resolution_run_id w in
  let ids := affected_identities run d id in
  let all := due (pw_cursor w) ids (group_members d) in
  (length all < length nows * batchSize)%nat ->
  (forall k m now, (k, m) ∈ all -> phone_check (outcome now revision cutoff run d m) = true) ->
  exists t now, job id token batchSize nows d =
      (inr true, Z.of_nat (length all), set_work id (completed now revision w) (d <| group_members := t |>)) /\
    now ∈ nows /\ after_batches nows revision cutoff run ids (pw_cursor w) d t.
Proof.
  revert d w. induction nows as [|now nows IH]; intros d w Hw Hs Ht Htime Ha run ids all Hlen Hc; [cbn in Hlen; lia|].
  destruct Htime as [Hnow Htime]. set (P := member_page batchSize (pw_cursor w) ids d).
  assert (Ho : owned now token w = true) by (unfold owned; by rewrite Hs, Ht, !bool_decide_true, Hnow).
  pose proof (project_step now d w revision cutoff Hw Ho Ha) as Hp. cbv zeta in Hp. fold run ids P in Hp.
  assert (HP : forall x, x ∈ P -> x ∈ all) by (intros x; apply page_elem).
  specialize (Hp (fun k m Hin => Hc k m now (HP _ Hin))). cbn [Projection.job]. rewrite Hp.
  destruct (Nat.ltb_spec (length P) batchSize) as [Hshort|Hfull]; cbn [br_completed br_updated].
  - assert (Hall : length P = length all).
    { apply Permutation_length, NoDup_Permutation; [eapply NoDup_fmap_1, take_order_by_NoDup, due_NoDup|eapply NoDup_fmap_1, due_NoDup|].
      intros x. split; [apply HP|]. by apply page_short. }
    exists (write_page now revision cutoff run P d), now. rewrite Hall. split; [done|]. split; [left|]. intros k.
    pose proof (write_page_lookup now revision cutoff run batchSize (pw_cursor w) ids d k) as Hl. fold P in Hl. rewrite Hl.
    destruct (group_members d !! k) as [m|] eqn:Em; [|done]. exists now. split; [left|]. cbn. f_equal.
    assert (mem k P.*1 = stands_in ids m && past (pw_cursor w) k) as ->; [|done]. apply Bool.eq_iff_eq_true.
    rewrite mem_true, andb_true_iff, list_elem_of_fmap. split.
    + intros ([k' m'] & Ek & (Hk & Hx)%HP%due_elem). cbn in Ek. subst k'. assert (m' = m) as -> by congruence. done.
    + intros Hx. exists (k, m). split; [done|]. apply page_short; [done|]. by apply due_elem.
  - assert (HlenP : length P = batchSize) by (pose proof (length_take_le (order_by (fun a b => member_leb a.1 b.1) all) batchSize); 
      unfold P, member_page, page in *; rewrite length_take in *; lia).
    destruct (last P) as [r|] eqn:Er; [|apply last_None in Er; rewrite Er in HlenP; cbn in HlenP; lia].
    set (t1 := write_page now revision cutoff run P d). set (d1 := d <| group_members := t1 |>).
    set (w1 := advanced now (fst <$> Some r) w). set (d2 := set_work id w1 d1).
    assert (Hsrc : same_sources d d2) by by split_and!.
    pose proof (due_next_length now revision cutoff run batchSize (pw_cursor w) ids d r Er) as Hnext. fold P t1 all in Hnext.
    specialize (IH d2 w1 (lookup_insert_eq _ _ _) Hs Ht Htime Ha). cbv zeta in IH.
    change (pw_active_resolution_run_id w1) with run in IH. change (pw_cursor w1) with (Some r.1) in IH.
    rewrite (affected_same d d2 run id Hsrc) in IH. fold ids in IH. change (group_members d2) with t1 in IH.
    destruct IH as (t & last_ & E & Hl & Hafter).
    + cbn in Hlen. lia.
    + intros k m now' [Hin _]%(due_next now revision cutoff run batchSize (pw_cursor w) ids d r k m Er).
      rewrite (outcome_same d d2) by done. by eapply Hc.
    + rewrite E. exists t, last_. split; [|split; [by right|]].
      * rewrite Hnext. f_equal; [f_equal; lia|]. unfold set_work, d2. cbn. by rewrite insert_insert_eq.
      * intros k. specialize (Hafter k). change (group_members d2) with t1 in Hafter. 
        pose proof (write_page_lookup now revision cutoff run batchSize (pw_cursor w) ids d k) as Hlk. fold P t1 in Hlk.
        rewrite Hlk in Hafter. destruct (group_members d !! k) as [m|] eqn:Em; [|exact Hafter]. cbn [fmap option_fmap option_map] in Hafter.
        destruct Hafter as (now2 & Hn2 & Ht2).
        pose proof (past_last (pw_cursor w) batchSize ids (group_members d) r k m Er) as Hpl.
        pose proof (due_next now revision cutoff run batchSize (pw_cursor w) ids d r k m Er) as Hdn. fold P t1 in Hdn.
        rewrite !due_elem in Hdn. rewrite due_elem in Hpl. change (page member_leb batchSize _) with P in Hpl.
        destruct (mem k P.*1) eqn:Emem.
        -- assert (Hin : (k, m) ∈ P).
           { apply mem_true, list_elem_of_fmap in Emem as ([k' m'] & Ek & Hin). cbn in Ek. subst k'.
             pose proof (HP _ Hin) as [Hk _]%due_elem. by assert (m' = m) as <- by congruence. }
           apply HP, due_elem in Hin as (Hk & Hst & Hpa). specialize (Hpl (conj Hk (conj Hst Hpa))).
           exists now. split; [left|]. by rewrite Ht2, Hpl, andb_false_r, Hst, Hpa.
        -- exists now2. split; [by right|]. rewrite Ht2, (outcome_same d d2) by done. do 2 f_equal.
           destruct (stands_in ids m) eqn:Hst; [|done]. cbn [andb]. destruct (past (pw_cursor w) k) eqn:Hpa.
           ++ by rewrite (Hpl (conj Em (conj eq_refl eq_refl))).
           ++ destruct (past (Some r.1) k) eqn:Hpr; [|done]. cbn [fmap option_fmap option_map] in Hlk.
              destruct (proj1 Hdn ltac:(by split_and!)) as ((_ & _ & ?) & _). done.
Qed.

End Job.

(** *** What a member shows, declaratively *)

(** A push name observed of some identities by the cutoff *)
Definition pushed (cutoff : timestamp) (P : uuid -> Prop) (d : contact_tables) (key : string) (o : name_observation) : Prop :=
  contact_observations d !! (NameSource.OPENWA_PUSH_NAME, key) = Some o /\ P (no_identity_id o) /\ no_created_at o <= cutoff.

(** (source_observed_at, source_observation_key, id) of one observation is not before that of another. *)
Definition at_least (a b : string * name_observation) : Prop :=
  no_source_observed_at b.2 < no_source_observed_at a.2 \/
  (no_source_observed_at b.2 = no_source_observed_at a.2 /\
   (b.1 = a.1 /\ (no_id b.2 <= no_id a.2)%positive \/ b.1 <> a.1 /\ text_leb b.1 a.1 = true)).

Definition latest_push (cutoff : timestamp) (P : uuid -> Prop) (d : contact_tables) (name : string) : Prop :=
  exists key o, pushed cutoff P d key o /\ no_name_value o = name /\
    forall key' o', pushed cutoff P d key' o' -> at_least (key, o) (key', o').

Definition in_cluster_of (run : option uuid) (d : contact_tables) (id other : uuid) : Prop :=
  exists a b, resolved_in run d id = Some a /\ resolved_in run d other = Some b /\ ia_cluster_id a = ia_cluster_id b.

Definition contact_named (run : option uuid) (d : contact_tables) (id : uuid) (name : string) : Prop :=
  exists a c o, resolved_in run d id = Some a /\ Resolution.cluster_in run d (ia_cluster_id a) = Some c /\ rc_name c = Some (o, name).

(** The name of the contact, then the member's own in the group, then what the identity
    called itself last, then what another identity of the same person did *)
Inductive shows (cutoff : timestamp) (run : option uuid) (d : contact_tables) (id : uuid) (own : option string)
    : option (string * shadow_source) -> Prop :=
  | shows_contact n : contact_named run d id n ->
      shows cutoff run d id own (Some (n, Observed NameSource.OPENWA_CONTACT_NAME))
  | shows_own n : (forall c, ~ contact_named run d id c) -> own = Some n ->
      shows cutoff run d id own (Some (n, Observed NameSource.GROUP_PARTICIPANT_NAME))
  | shows_push n : (forall c, ~ contact_named run d id c) -> own = None -> latest_push cutoff (fun i => i = id) d n ->
      shows cutoff run d id own (Some (n, Observed NameSource.OPENWA_PUSH_NAME))
  | shows_alias n : (forall c, ~ contact_named run d id c) -> own = None -> (forall c, ~ latest_push cutoff (fun i => i = id) d c) ->
      latest_push cutoff (fun i => i <> id /\ in_cluster_of run d id i) d n ->
      shows cutoff run d id own (Some (n, RESOLVED_ALIAS_PUSH_NAME))
  | shows_nothing : (forall c, ~ contact_named run d id c) -> own = None -> (forall c, ~ latest_push cutoff (fun i => i = id) d c) ->
      (forall c, ~ latest_push cutoff (fun i => i <> id /\ in_cluster_of run d id i) d c) ->
      shows cutoff run d id own None.

Lemma newest_total a b : Evidence.newest_first a b = true \/ Evidence.newest_first b a = true.
Proof.
  unfold Evidence.newest_first. rewrite (Z.eqb_sym (no_source_observed_at b.2)). destruct (Z.eqb_spec (no_source_observed_at a.2) (no_source_observed_at b.2)).
  - case_bool_decide as E.
    + rewrite bool_decide_true by done. rewrite !Pos.leb_le. lia.
    + rewrite bool_decide_false by congruence. apply text_leb_total.
  - rewrite !Z.ltb_lt. lia.
Qed.

Lemma newest_at_least (a b : (NameSource.t * string) * name_observation) :
  Evidence.newest_first a b = true <-> at_least (a.1.2, a.2) (b.1.2, b.2).
Proof.
  unfold Evidence.newest_first, at_least. cbn. destruct (Z.eqb_spec (no_source_observed_at a.2) (no_source_observed_at b.2)) as [E|E].
  - case_bool_decide as K; [rewrite Pos.leb_le|].
    + split; [intros; right; split; [done|by left]|]. intros [?|(_ & [(_ & ?)|(? & _)])]; [lia|done|congruence].
    + split; [intros; right; split; [done|right; split; [congruence|done]]|]. intros [?|(_ & [(? & _)|(_ & ?)])]; [lia|congruence|done].
  - rewrite Z.ltb_lt. split; [by left|]. intros [?|(? & _)]; [done|congruence].
Qed.

Lemma newest_trans a b c : Evidence.newest_first a b = true -> Evidence.newest_first b c = true -> Evidence.newest_first a c = true.
Proof.
  rewrite !newest_at_least. unfold at_least. cbn. intros [H1|(E1 & H1)] [H2|(E2 & H2)]; [left; lia..|right]. split; [congruence|].
  destruct H1 as [(K1 & I1)|(K1 & T1)], H2 as [(K2 & I2)|(K2 & T2)].
  - left. split; [congruence|lia].
  - right. rewrite <- K1. done.
  - right. rewrite K2. done.
  - destruct (decide (c.1.2 = a.1.2)) as [E|E]; [exfalso|right; split; [done|by eapply text_leb_trans]].
    apply K1. rewrite E in T2. by apply text_leb_antisym.
Qed.

Lemma push_name_spec cutoff (p : uuid -> bool) (P : uuid -> Prop) d : (forall i, p i = true <-> P i) ->
  match push_name cutoff p d with
  | Some n => latest_push cutoff P d n
  | None => forall n, ~ latest_push cutoff P d n
  end.
Proof.
  intros HpP. unfold push_name. set (l := select_where _ _).
  assert (Hl : forall s k o, ((s, k), o) ∈ l <-> s = NameSource.OPENWA_PUSH_NAME /\ pushed cutoff P d k o).
  { intros s k o. unfold l, pushed. rewrite select_where_elem, !andb_true_iff, bool_decide_eq_true, HpP, Z.leb_le. cbn.
    split; [intros (? & (-> & ?) & ?); by split_and!|intros (-> & ? & ? & ?); by split_and!]. }
  destruct (head (order_by Evidence.newest_first l)) as [[[s k] o]|] eqn:E; cbn.
  - assert (Hin : ((s, k), o) ∈ l).
    { apply (order_by_elem Evidence.newest_first). destruct (order_by _ l); [done|]. injection E as ->. left. }
    apply Hl in Hin as [-> Hin]. exists k, o. split; [done|]. split; [done|]. intros k' o' Hp'.
    assert (Hin' : ((NameSource.OPENWA_PUSH_NAME, k'), o') ∈ l) by by apply Hl.
    pose proof (order_by_head _ _ _ _ newest_total newest_trans E Hin') as H. by apply newest_at_least in H.
  - intros n (k & o & Hp & _). assert (Hin : ((NameSource.OPENWA_PUSH_NAME, k), o) ∈ l) by by apply Hl.
    apply (order_by_elem Evidence.newest_first) in Hin. apply head_None in E. rewrite E in Hin. by apply not_elem_of_nil in Hin.
Qed.

Lemma projected_name_shows cutoff run id m d :
  shows cutoff run d id (gm_participant_display_name m) (projected_name cutoff run id m d).
Proof.
  unfold projected_name. destruct (resolved_in run d id ≫= _) as [n|] eqn:En.
  { apply bind_Some in En as (a & Ha & Hn). unfold cluster_display_name in Hn. apply bind_Some in Hn as (c & Hc & Hn).
    apply fmap_Some in Hn as ([o n'] & Hr & ->). apply shows_contact. by exists a, c, o. }
  assert (Hno : forall c, ~ contact_named run d id c).
  { intros n (a & c & o & Ha & Hc & Hr). rewrite Ha in En. cbn in En. unfold cluster_display_name in En. rewrite Hc in En.
    cbn in En. by rewrite Hr in En. }
  destruct (gm_participant_display_name m) as [n|] eqn:Ep; [by apply shows_own|].
  pose proof (push_name_spec cutoff (fun i => bool_decide (i = id)) (fun i => i = id) d ltac:(intros; apply bool_decide_eq_true)) as He.
  fold (exact_push cutoff id d) in He. destruct (exact_push cutoff id d) as [n|]; [by apply shows_push|].
  assert (Ha : match (ia ← resolved_in run d id; alias_push cutoff run ia id d) with
               | Some n => latest_push cutoff (fun i => i <> id /\ in_cluster_of run d id i) d n
               | None => forall n, ~ latest_push cutoff (fun i => i <> id /\ in_cluster_of run d id i) d n
               end).
  { destruct (resolved_in run d id) as [a|] eqn:Er; cbn.
    - apply push_name_spec. intros i. rewrite andb_true_iff, negb_true_iff, bool_decide_eq_false. unfold in_cluster_of.
      apply and_iff_compat_l. destruct (resolved_in run d i) as [b|] eqn:Eb.
      + rewrite bool_decide_eq_true. split; [intros; by exists a, b|]. intros (a' & b' & ? & ? & ?). congruence.
      + split; [done|]. by intros (a' & b' & _ & ? & _).
    - intros n (k & o & (_ & (_ & a & b & ? & _) & _) & _). congruence. }
  destruct (resolved_in run d id ≫= (fun ia => alias_push cutoff run ia id d)) as [n|]; cbn; [by apply shows_alias|by apply shows_nothing].
Qed.

(** *** The contract of a run of batches *)

(** Phones are digits: of phone JIDs, of assignments, and where members show one. *)
Record phones_valid (d : contact_tables) : Prop := PhonesValid {
  pv_jid v o : observed_identities d !! (IdentityType.PHONE_JID, v) = Some o ->
    Normalization.digits (default v (Normalization.chop "@c.us" v)) = true;
  pv_assigned k a p : resolved_assignments d !! k = Some a -> ia_resolved_phone_number a = Some p -> Normalization.digits p = true;
  pv_member k m : group_members d !! k = Some m -> phone_check m = true }.

Lemma projected_phone_valid cutoff run m d p phone : phones_valid d -> projected cutoff run m d = Some p ->
  pj_phone p = Some phone -> Normalization.digits phone = true.
Proof.
  intros Hv (id & Hid & H)%bind_Some. apply bind_Some in H as (k & Hk & [= <-]). cbn. unfold projected_phone.
  destruct (resolved_in run d id) as [a|] eqn:Ea.
  - apply bind_Some in Ea as (a' & Ha & E). destruct (ia_quarantined a'); [done|]. injection E as <-.
    apply bind_Some in Ha as (r & _ & Ha). by apply (pv_assigned d Hv (r, id) a').
  - destruct k as [t v]. cbn. destruct t; try done. intros [= <-]. unfold identity_by_id, find_where in Hk.
    destruct (select_where _ _) as [|[k' o] l] eqn:E; [done|]. injection Hk as ->.
    assert (Hin : ((IdentityType.PHONE_JID, v), o) ∈ select_where (fun _ o => bool_decide (oc_id o = id)) (observed_identities d))
      by (rewrite E; left).
    apply select_where_elem in Hin as [Hin _]. by apply (pv_jid d Hv v o).
Qed.

Lemma outcome_valid cfg lower now revision cutoff run d k m : phones_valid d -> group_members d !! k = Some m ->
  phone_check (outcome cfg lower now revision cutoff run d m) = true.
Proof.
  intros Hv Hm. pose proof (pv_member d Hv k m Hm) as Hc. unfold outcome. destruct (writable revision m); [|done].
  destruct (projected cutoff run m d) as [p|] eqn:Ep; [|done].
  assert (Hp : match pj_phone p with Some p => Normalization.digits p | None => true end = true).
  { destruct (pj_phone p) as [ph|] eqn:E; [|done]. by eapply projected_phone_valid. }
  unfold phone_check, write_projection in *. apply andb_true_iff in Hc as [_ Hc].
  destruct (mirrorLegacyProjection cfg); cbn; by rewrite Hp.
Qed.

(** A member stands for an identity: as itself, or as another of the same person. *)
Definition stands_for (run : option uuid) (d : contact_tables) (id : uuid) (m : group_member) : Prop :=
  exists e, gm_evidence_identity_id m = Some e /\ (e = id \/ in_cluster_of run d id e).

Lemma stands_in_affected run d id m : stands_in (affected_identities run d id) m = true <-> stands_for run d id m.
Proof.
  unfold stands_in, stands_for. destruct (gm_evidence_identity_id m) as [e|]; [|split; [done|by intros (? & ? & _)]].
  rewrite mem_true. unfold affected_identities. rewrite elem_of_cons.
  assert (H : e ∈ aliases run d id <-> in_cluster_of run d id e).
  { unfold in_cluster_of, aliases. destruct run as [r|]; [|split; [by intros ?%not_elem_of_nil|by intros (? & ? & ? & _)]].
    destruct (resolved_in (Some r) d id) as [root|]; [|split; [by intros ?%not_elem_of_nil|by intros (? & ? & ? & _)]].
    unfold cluster_ids. rewrite list_elem_of_fmap. split.
    - intros ([[r' e'] a] & -> & [Ha H]%select_where_elem). rewrite !andb_true_iff, !bool_decide_eq_true, negb_true_iff in H.
      cbn in H. destruct H as [[-> H] Hq]. exists root, a. split; [done|]. split; [|done].
      unfold resolved_in. cbn. rewrite Ha. cbn. by rewrite Hq.
    - intros (a & b & [= <-] & Hb & Hc). unfold resolved_in in Hb. cbn in Hb. apply bind_Some in Hb as (b' & Hb & Hq).
      destruct (ia_quarantined b') eqn:E; [done|]. injection Hq as <-. exists ((r, e), b'). split; [done|].
      apply select_where_elem. split; [done|]. cbn. by rewrite E, !bool_decide_true. }
  rewrite H. split; [intros ?; by exists e|]. by intros (? & [= ->] & ?).
Qed.

(** What a member shows afterwards, with the columns that readers still use where those are
    the projection's to write *)
Record shown_member (cfg : contact_config) (lower : string -> string) (revision cutoff : Z) (run : option uuid) (d : contact_tables)
    (e : uuid) (m m' : group_member) : Prop := ShownMember {
  sm_name : shows cutoff run d e (gm_participant_display_name m)
              (name ← sw_display_name (gm_shadow m'); source ← sw_display_name_source (gm_shadow m'); Some (name, source));
  sm_type : forall k, identity_by_id d e = Some k -> gm_identity_type m' = Some k.1 /\
              sw_resolved_phone_number (gm_shadow m') = projected_phone run e k d;
  sm_revision : sw_projection_revision (gm_shadow m') = revision /\ sw_resolution_run_id (gm_shadow m') = run;
  sm_sort : sw_sort_value (gm_shadow m') = Some (lower (default (default (gm_phone_number m) (sw_resolved_phone_number (gm_shadow m')))
                                                       (sw_display_name (gm_shadow m'))));
  sm_mirror : if CONTACT_LEGACY_MEMBER_FANOUT_ENABLED cfg
              then gm_display_name m' = gm_display_name m /\ gm_display_name_source m' = gm_display_name_source m
              else gm_display_name m' = sw_display_name (gm_shadow m') /\
                   gm_resolved_phone_number m' = sw_resolved_phone_number (gm_shadow m') }.

Lemma outcome_shown cfg lower now revision cutoff run d m e k : gm_evidence_identity_id m = Some e -> identity_by_id d e = Some k ->
  writable revision m = true -> shown_member cfg lower revision cutoff run d e m (outcome cfg lower now revision cutoff run d m).
Proof.
  intros He Hk Hw. unfold outcome, projected. rewrite Hw, He. cbn. rewrite Hk. cbn.
  pose proof (projected_name_shows cutoff run e m d) as Hn. unfold write_projection, mirrorLegacyProjection.
  split; [| |destruct (CONTACT_LEGACY_MEMBER_FANOUT_ENABLED cfg); done..].
  - destruct (CONTACT_LEGACY_MEMBER_FANOUT_ENABLED cfg); cbn; by destruct (projected_name cutoff run e m d) as [[n s]|].
  - intros k' Hk'. assert (k' = k) as -> by congruence. by destruct (CONTACT_LEGACY_MEMBER_FANOUT_ENABLED cfg).
Qed.


(** The group of the snapshot of [SnapshotLife]: one member is the contact that was listed,
    the other a LID. *)
Definition seeded : contact_tables :=
  ObservationRepo.replaceMembers SnapshotLife.example_cfg id id 1500 (fun _ => 1%positive) (fun _ => 2%positive) (fun _ => 3%positive)
    (Request 1500 1500 Zpos) "120@g.us"
    [ObservationRepo.Participant "62811@c.us" "62811" None false false; ObservationRepo.Participant "9000@lid" "" (Some "Bob") false false]
    SnapshotLife.finished.

Definition queued : contact_tables := (Resolution.enqueuePublished true 1990 (fun _ => 40%positive) 2 seeded).2.

Definition taken : contact_tables := (Resolution.claim true 2000 (fun _ => false) 30 queued).2.

Definition resolved_example : contact_tables :=
  (Resolution.resolve true (Request 2001 2002 (fun i => 100 + Zpos i)) 2001 2002 40 30 taken).2.

Definition example_fleet : fleet := {[ "main" := resolved_example ]}.

(** The work of the phone 62811 is claimed, that of its JID being locked. *)
Definition claimed_example : contact_tables :=
  tables (claim None 2500 (fun k => bool_decide (k.2 = 11%positive)) 50 example_fleet).2 "main".

Definition claimed_work : projection_work :=
  ProjectionWork WorkStatus.RUNNING 106 0 2002 2002 2002 (Some (106, 2002)) (Some 40%positive) None 1 2001 (Some 50%positive) (Some 302500) None None None.

Lemma claimed_work_found : contact_projection_work claimed_example !! 6%positive = Some claimed_work.
Proof. by vm_compute. Qed.

(** A check of [phones_valid] over the rows *)
Lemma phones_rows d :
  forallb (fun kv => negb (bool_decide (kv.1.1 = IdentityType.PHONE_JID))
                     || Normalization.digits (default kv.1.2 (Normalization.chop "@c.us" kv.1.2)))
    (map_to_list (observed_identities d)) = true ->
  forallb (fun kv => match ia_resolved_phone_number kv.2 with Some p => Normalization.digits p | None => true end)
    (map_to_list (resolved_assignments d)) = true ->
  forallb (fun kv => phone_check kv.2) (map_to_list (group_members d)) = true -> phones_valid d.
Proof.
  rewrite !forallb_forall. intros H1 H2 H3. split.
  - intros v o Ho%elem_of_map_to_list%list_elem_of_In%H1. done.
  - intros k a p Ha%elem_of_map_to_list%list_elem_of_In%H2 Hp. cbn in Ha. by rewrite Hp in Ha.
  - intros k m Hm%elem_of_map_to_list%list_elem_of_In%H3. done.
Qed.


End Batches.
