(* ===== verification/ContactRequests.v ===== *)
(** * What a resolution asks the projection to do

    A run that completes compares what it stored with the run before it, and requests the
    projection of what has changed.  Here: the results of every run fit together, and every
    member whose projection the run has changed is reached by the work it requested. *)

From S2P Require Import Prelude Schema SendPolicy Service ContactSchema ContactQueue ContactIdentity Relational ContactEvidence ContactStore ContactLife ContactSnapshots ContactResolution ContactPeople ContactProjection ContactBatches.
From stdpp Require Import relations.

Import Queue Snapshots SnapshotLife Resolution ContactPeople Projection.

Module Requests.

Local Open Scope Z_scope.

(** *** The results of a run *)

(** The assignments of a run to one of its clusters *)
Definition assigned_to (run c : uuid) (d : contact_tables) : list ((uuid * uuid) * identity_assignment) :=
  select_where (fun k x => bool_decide (k.1 = run) && bool_decide (ia_cluster_id x = c)) (resolved_assignments d).

Record run_fits (run : uuid) (d : contact_tables) : Prop := RunFits {
  rf_known a x : resolved_assignments d !! (run, a) = Some x -> exists k, identity_by_id d a = Some k;
  rf_cluster a x : resolved_assignments d !! (run, a) = Some x -> is_Some (resolved_clusters d !! (run, ia_cluster_id x));
  rf_root c row : resolved_clusters d !! (run, c) = Some row -> exists y,
    resolved_assignments d !! (run, c) = Some y /\ ia_cluster_id y = c;
  rf_count c row : resolved_clusters d !! (run, c) = Some row -> rc_identity_count row = Z.of_nat (length (assigned_to run c d));
  rf_alone a b x y : resolved_assignments d !! (run, a) = Some x -> resolved_assignments d !! (run, b) = Some y ->
    ia_quarantined x = true -> ia_cluster_id x = ia_cluster_id y -> a = b }.

Section Stored.
Context (generation : Z) (cutoff : timestamp) (run : uuid) (d : contact_tables).
Hypothesis Hids : forall k k' o o', observed_identities d !! k = Some o -> observed_identities d !! k' = Some o' -> oc_id o = oc_id o' -> k = k'.
Hypothesis Hsh : shaped d.
Hypothesis no_clusters : forall c, resolved_clusters d !! (run, c) = None.
Hypothesis no_assignments : forall a, resolved_assignments d !! (run, a) = None.

Abbreviation ls := (candidates generation cutoff d).
Abbreviation comps := (components (roots cutoff d) (eligible d ls)).
Abbreviation stored := (store run generation cutoff ls comps d).

Let Hk : keyed d := shaped_keyed d Hids Hsh.

(** A quarantined identity is a LID that no link is trusted of. *)
Lemma quarantined_lonely a b : contradicted generation cutoff d a -> trusted generation cutoff d a b \/ trusted generation cutoff d b a -> False.
Proof.
  intros Hc. assert (Hlid : exists v, is_identity d (IdentityType.LID, v) a).
  { destruct Hc as [(s & s' & b1 & b2 & H1 & H2 & Hne)|(b1 & x & y & H1 & _)].
    - apply (observed_shape generation cutoff d Hsh) in H1 as ([t v] & p & Hi & Hp & E), H2 as ([t' v'] & p' & Hi' & Hp' & E').
      pose proof (identity_unique d Hids _ _ _ Hi Hi') as Ei. destruct s, s'; cbn in E, E'; subst.
      + destruct Hne. assert (p = p') as <-.
        { injection E as -> ->. injection E' as -> ->. injection Ei as Ei. apply (f_equal (Normalization.chop "@c.us")) in Ei.
          rewrite !Normalization.chop_app in Ei. by injection Ei. }
        destruct Hp as (o & Ho & <-), Hp' as (o' & Ho' & <-). congruence.
      + injection E as -> ->. by injection Ei.
      + injection E' as -> ->. by injection Ei.
      + by exists v.
    - apply (observed_shape generation cutoff d Hsh) in H1 as ([t v] & p & Hi & _ & E). cbn in E. subst t. by exists v. }
  destruct Hlid as [v Hv]. intros [(s & Hl & Hs)|(s & Hl & Hs)].
  - destruct Hs as [->|Hs]; [|done]. apply (observed_shape generation cutoff d Hsh) in Hl as (i & p & Hi & _ & E). subst i.
    by pose proof (identity_unique d Hids _ _ _ Hv Hi).
  - apply (observed_shape generation cutoff d Hsh) in Hl as (i & p & _ & Hp & _). by pose proof (identity_unique d Hids _ _ _ Hv Hp).
Qed.

Lemma quarantined_cluster a b : contradicted generation cutoff d a -> same_cluster generation cutoff d a b -> a = b.
Proof. intros Hc Hs. destruct Hs as [a|a c b Hs _]; [done|]. by destruct (quarantined_lonely a c Hc). Qed.

Lemma stored_cluster c row : resolved_clusters stored !! (run, c) = Some row ->
  c ∈ comps.*2 /\ rc_identity_count row = Z.of_nat (length (in_cluster comps c)).
Proof.
  cbn. rewrite map_lookup_imap. intros (row0 & Hr & E)%bind_Some. rewrite bool_decide_true in E by done.
  apply (with_clusters_lookup generation cutoff run d Hk no_clusters) in Hr as [Hc ->]. split; [done|].
  assert (rc_identity_count row = rc_identity_count (cluster_row generation cutoff d c)) as ->.
  { injection E as <-. by case_match. }
  cbn. f_equal. unfold keys, in_cluster. assert (Hn : forall n, n ∈ map fst (List.filter (fun x : uuid * uuid => bool_decide (x.2 = c)) comps) ->
    is_Some (identity_by_id d n)).
  { intros n ([n' c'] & -> & [Hin _]%elem_filtered)%list_elem_of_fmap. destruct (node_identity generation cutoff d Hk n' c' Hin) as [k Hi].
    exists k. by apply identity_by_id_Some. }
  induction (map fst _) as [|n l IH]; [done|]. cbn. destruct (Hn n (list_elem_of_here _ _)) as [k ->]. cbn. f_equal. apply IH.
  intros n' Hin. apply Hn. by right.
Qed.

Lemma stored_has_cluster c : c ∈ comps.*2 -> is_Some (resolved_clusters stored !! (run, c)).
Proof.
  intros Hc. cbn. rewrite map_lookup_imap.
  pose proof (proj2 (with_clusters_lookup generation cutoff run d Hk no_clusters c (cluster_row generation cutoff d c)) (conj Hc eq_refl)) as H.
  unfold with_clusters in H. cbn in H. rewrite H. by eexists.
Qed.

Lemma stored_assigned a x : resolved_assignments stored !! (run, a) = Some x <->
  exists c, (a, c) ∈ comps /\ x = assignment generation cutoff d a c.
Proof. apply (stored_assignment generation cutoff run d Hk no_clusters no_assignments). Qed.

Lemma in_cluster_elem a c : a ∈ in_cluster comps c <-> (a, c) ∈ comps.
Proof.
  unfold in_cluster. rewrite list_elem_of_fmap. split.
  - intros ([a' c'] & -> & [Hin E%bool_decide_eq_true]%elem_filtered). cbn in E. by subst c'.
  - intros Hin. exists (a, c). split; [done|]. apply elem_filtered. split; [done|]. by apply bool_decide_eq_true.
Qed.

Lemma in_cluster_NoDup c : NoDup (in_cluster comps c).
Proof.
  unfold in_cluster. pose proof (components_NoDup (roots cutoff d) (eligible d ls)) as Hn. revert Hn. generalize comps. intros l.
  induction l as [|x l IH]; [done|]. cbn. intros [Hx Hn]%NoDup_cons. destruct (bool_decide _); [|by apply IH]. cbn.
  constructor; [|by apply IH]. intros (y & Ey & [Hy _]%elem_filtered)%list_elem_of_fmap. apply Hx. rewrite Ey.
  apply list_elem_of_fmap. by exists y.
Qed.

Lemma stored_count_of c : length (assigned_to run c stored) = length (in_cluster comps c).
Proof.
  transitivity (length (map (fun kv => kv.1.2) (assigned_to run c stored))); [by rewrite length_map|].
  apply Permutation_length, NoDup_Permutation; [|apply in_cluster_NoDup|].
  - unfold assigned_to. set (l := select_where _ _).
    assert (Hl : forall k x, (k, x) ∈ l -> k.1 = run).
    { intros k x [_ H]%select_where_elem. by apply andb_true_iff in H as [H%bool_decide_eq_true _]. }
    pose proof (select_where_NoDup (fun k x => bool_decide (k.1 = run) && bool_decide (ia_cluster_id x = c)) (resolved_assignments stored)) as Hn.
    fold l in Hn. induction l as [|[[r a] x] l IH]; [constructor|]. cbn in *. apply NoDup_cons in Hn as [Hx Hn]. constructor.
    + intros ([[r' a'] x'] & Ea & Hin)%list_elem_of_fmap. cbn in Ea. subst a'. apply Hx.
      pose proof (Hl (r, a) x (list_elem_of_here _ _)) as E1. pose proof (Hl (r', a) x' (list_elem_of_further _ _ _ Hin)) as E2.
      cbn in E1, E2. subst. apply list_elem_of_fmap. by exists ((run, a), x').
    + apply IH; [|done]. intros k y Hin. apply (Hl k y). by right.
  - intros a. rewrite in_cluster_elem, list_elem_of_fmap. unfold assigned_to. split.
    + intros ([[r a'] x] & -> & [Ha H]%select_where_elem). rewrite andb_true_iff, !bool_decide_eq_true in H. cbn in H. destruct H as [-> <-].
      by apply stored_assigned in Ha as (c' & Hin & ->).
    + intros Hin. exists ((run, a), assignment generation cutoff d a c). split; [done|]. apply select_where_elem. split.
      * apply stored_assigned. by exists c.
      * by rewrite !bool_decide_true.
Qed.

Lemma stored_fits : run_fits run stored.
Proof.
  split.
  - intros a x (c & Hin & _)%stored_assigned. destruct (node_identity generation cutoff d Hk a c Hin) as [k Hi].
    exists k. change (identity_by_id d a = Some k). by apply identity_by_id_Some.
  - intros a x (c & Hin & ->)%stored_assigned. apply stored_has_cluster. apply list_elem_of_fmap. by exists (a, c).
  - intros c row [Hc _]%stored_cluster. apply list_elem_of_fmap in Hc as ([a c'] & Ec & Hin). cbn in Ec. subst c'.
    exists (assignment generation cutoff d c c). split; [|done].
    apply stored_assigned. exists c. split; [|done]. apply components_elem in Hin as (H1 & H2 & H3). apply components_elem.
    split_and!; [done|reflexivity|]. intros r Hr Hrc. apply H3; [done|by transitivity c].
  - intros c row Hr. apply stored_cluster in Hr as [_ ->]. by rewrite stored_count_of.
  - intros a b x y (ca & Ha & ->)%stored_assigned (cb & Hb & ->)%stored_assigned. cbn. intros Hq E.
    apply (quarantined_cluster a b); [by apply quarantined_spec|]. apply same_cluster_connected; [done|].
    by apply (components_same _ _ _ _ _ _ Ha Hb).
Qed.

End Stored.

(** *** What a run that completes leaves *)

(** The effect of an owned run, but for what it requests *)
Record completed_with (clock : timestamp) (run : uuid) (d d3 : contact_tables) : Prop := CompletedWith {
  cw_fits : run_fits run d3;
  cw_run : exists r, resolution_runs d3 = <[run := r]> (resolution_runs d) /\ rn_status r = ResolutionStatus.COMPLETED /\
             rn_completed_at r = Some clock;
  cw_assignment run' a : run' <> run -> resolved_assignments d3 !! (run', a) = resolved_assignments d !! (run', a);
  cw_cluster run' c : run' <> run -> resolved_clusters d3 !! (run', c) = resolved_clusters d !! (run', c);
  cw_identities : observed_identities d3 = observed_identities d;
  cw_observations : contact_observations d3 = contact_observations d;
  cw_members : group_members d3 = group_members d;
  cw_work : contact_projection_work d3 = contact_projection_work d }.

Lemma run_fits_transfer run d d' : observed_identities d' = observed_identities d ->
  (forall a, resolved_assignments d' !! (run, a) = resolved_assignments d !! (run, a)) ->
  (forall c, resolved_clusters d' !! (run, c) = resolved_clusters d !! (run, c)) -> run_fits run d -> run_fits run d'.
Proof.
  intros E1 E2 E3 [F1 F2 F3 F4 F5]. split.
  - intros a x. rewrite E2. unfold identity_by_id. rewrite E1. apply F1.
  - intros a x. rewrite E2, E3. apply F2.
  - intros c row. rewrite E3. setoid_rewrite E2. apply F3.
  - intros c row. rewrite E3. intros Hr. rewrite (F4 c row Hr). f_equal. unfold assigned_to.
    apply Permutation_length, NoDup_Permutation; [eapply NoDup_fmap_1, select_where_NoDup..|].
    intros [[r a] x]. rewrite !select_where_elem, andb_true_iff, !bool_decide_eq_true. cbn.
    split; intros (Ha & -> & Hx); [rewrite <- E2 in Ha|rewrite E2 in Ha]; done.
  - intros a b x y. rewrite !E2. apply F5.
Qed.

Lemma name_clusters_other generation cutoff run d run' c : run' <> run ->
  resolved_clusters (name_clusters generation cutoff run d) !! (run', c) = resolved_clusters d !! (run', c).
Proof.
  intros Hne. cbn. rewrite map_lookup_imap. destruct (resolved_clusters d !! (run', c)); [|done]. cbn. by rewrite bool_decide_false.
Qed.

Lemma resolve_effect on rq now clock run token d r :
  (forall k k' o o', observed_identities d !! k = Some o -> observed_identities d !! k' = Some o' -> oc_id o = oc_id o' -> k = k') ->
  shaped d -> resolution_runs d !! run = Some r -> owned_run now token r = true ->
  exists m d3, resolve on rq now clock run token d = (inr m, request_changed on rq run d3) /\ completed_with clock run d d3.
Proof.
  intros Hids Hsh Hr Ho. set (generation := rn_source_generation r). set (cutoff := rn_evidence_cutoff_at r).
  set (d1 := clear_run run d). assert (Hids1 := Hids). change (observed_identities d) with (observed_identities d1) in Hids1.
  assert (Hsh1 : shaped d1) by by apply (shaped_same d).
  assert (Hnone : forall a, resolved_assignments d1 !! (run, a) = None).
  { intros a. cbn. rewrite lookup_delete_where. destruct (resolved_assignments d !! (run, a)); [|done]. by rewrite bool_decide_true. }
  assert (Hnone' : forall c, resolved_clusters d1 !! (run, c) = None).
  { intros a. cbn. rewrite lookup_delete_where. destruct (resolved_clusters d !! (run, a)); [|done]. by rewrite bool_decide_true. }
  set (ls := candidates generation cutoff d1). set (comps := components (roots cutoff d1) (eligible d1 ls)).
  set (d2 := store run generation cutoff ls comps d1). set (m := metrics (conflicted d1 ls) comps).
  assert (Hu : update_row run (fun r => bool_decide (rn_lease_token r = Some token)) (completed_run clock m d2) (resolution_runs d2)
    = (Some (completed_run clock m d2 r), <[run := completed_run clock m d2 r]> (resolution_runs d2))).
  { unfold update_row. change (resolution_runs d2) with (resolution_runs d). rewrite Hr. unfold owned_run in Ho.
    apply andb_true_iff in Ho as [[_ Ht]%andb_true_iff _]. by rewrite Ht. }
  exists m, (d2 <| resolution_runs := <[run := completed_run clock m d2 r]> (resolution_runs d2) |>). split.
  - unfold resolve. rewrite Hr, Ho. cbn [negb]. fold generation cutoff d1 ls comps m d2. by rewrite Hu.
  - split; [| | | |done..].
    + apply (run_fits_transfer run d2); [done..|]. exact (stored_fits generation cutoff run d1 Hids1 Hsh1 Hnone' Hnone).
    + by exists (completed_run clock m d2 r).
    + intros run' a Hne. transitivity (resolved_assignments d1 !! (run', a)).
      * exact (stored_other generation cutoff run d1 (shaped_keyed d1 Hids1 Hsh1) Hnone' run' a Hne).
      * cbn. rewrite lookup_delete_where. destruct (resolved_assignments d !! (run', a)); [|done]. by rewrite bool_decide_false.
    + intros run' c Hne. transitivity (resolved_clusters d1 !! (run', c)).
      * change (resolved_clusters (store run generation cutoff ls comps d1) !! (run', c) = resolved_clusters d1 !! (run', c)).
        unfold store. rewrite name_clusters_other by done. cbn. unfold comps, ls.
        apply option_eq. intros row. rewrite (foldl_insert_Some _ _ _ _ (cluster_rows_NoDup generation cutoff run d1)).
        setoid_rewrite (cluster_rows_elem generation cutoff run d1 (shaped_keyed d1 Hids1 Hsh1)). split.
        -- intros [(c' & [= ? _] & _)|[_ H]]; [congruence|exact H].
        -- intros H. right. split; [|exact H]. intros ([k y] & E & Hin)%list_elem_of_fmap. cbn in E. subst k.
           apply (cluster_rows_elem generation cutoff run d1 (shaped_keyed d1 Hids1 Hsh1)) in Hin as (c' & [= ? _] & _). congruence.
      * cbn. rewrite lookup_delete_where. destruct (resolved_clusters d !! (run', c)); [|done]. by rewrite bool_decide_false.
Qed.

(** *** What has changed *)

Section Changed.
Context (run : uuid) (d : contact_tables).

Abbreviation prev := (previous_run run d).
Abbreviation now_of := (assigned_in (Some run) d).
Abbreviation before_of := (assigned_in prev d).

Lemma assignments_of_elem r a x : (a, x) ∈ assignments_of r d <-> resolved_assignments d !! (r, a) = Some x.
Proof.
  unfold assignments_of. rewrite list_elem_of_fmap. split.
  - intros ([[r' a'] x'] & [= -> ->] & [Ha Hr%bool_decide_eq_true]%select_where_elem). cbn in Hr. by subst r'.
  - intros Ha. exists ((r, a), x). split; [done|]. apply select_where_elem. split; [done|]. by apply bool_decide_eq_true.
Qed.

Lemma changed_assignments_elem a : a ∈ changed_assignments run d <-> before_of a <> now_of a.
Proof.
  unfold changed_assignments. rewrite elem_of_remove_dups, elem_of_app, list_elem_of_fmap. split.
  - intros [([a' x] & -> & [Ha Hb]%elem_filtered)|Hb].
    + apply assignments_of_elem in Ha. cbn in Hb. apply negb_true_iff, bool_decide_eq_false in Hb. cbn. by rewrite Ha.
    + destruct prev as [p|] eqn:Ep; [|by apply not_elem_of_nil in Hb]. apply elem_filtered in Hb as [Hb Hn].
      apply list_elem_of_fmap in Hb as ([a' x] & -> & Ha%assignments_of_elem). cbn in *. rewrite Ha. by destruct (resolved_assignments d !! (run, a')).
  - intros Hne. destruct (now_of a) as [x|] eqn:En.
    + left. exists (a, x). split; [done|]. apply elem_filtered. split; [by apply assignments_of_elem|]. cbn.
      by apply negb_true_iff, bool_decide_eq_false.
    + right. destruct (before_of a) as [x|] eqn:Eb; [|done]. destruct prev as [p|] eqn:Ep; [|done]. apply elem_filtered.
      split; [|by rewrite En]. apply list_elem_of_fmap. exists (a, x). split; [done|]. by apply assignments_of_elem.
Qed.

Lemma changed_clusters_elem c : c ∈ changed_clusters run d <-> exists row, resolved_clusters d !! (run, c) = Some row /\
  cluster_facts <$> cluster_in prev d c <> Some (cluster_facts row).
Proof.
  unfold changed_clusters. rewrite list_elem_of_fmap. split.
  - intros ([[r c'] row] & -> & [Hr H]%select_where_elem). apply andb_true_iff in H as [H1%bool_decide_eq_true H2].
    cbn in *. subst r. exists row. split; [done|]. by apply negb_true_iff, bool_decide_eq_false in H2.
  - intros (row & Hr & Hne). exists ((run, c), row). split; [done|]. apply select_where_elem. split; [done|].
    rewrite bool_decide_true by done. by apply negb_true_iff, bool_decide_eq_false.
Qed.

Lemma affected_elem c : c ∈ affected run d <->
  (exists a, before_of a <> now_of a /\ c = default a (ia_cluster_id <$> now_of a)) \/ c ∈ changed_clusters run d.
Proof.
  unfold affected. rewrite order_by_elem, elem_of_remove_dups, elem_of_app, list_elem_of_fmap.
  setoid_rewrite changed_assignments_elem. split; (intros [(a & H1 & H2)|H]; [left; by exists a|by right]).
Qed.

Hypothesis fits : run_fits run d.
Hypothesis fits_before : forall p, prev = Some p -> run_fits p d.

(** A cluster that is not requested has the assignments and facts it had. *)
Lemma unaffected_assigned c a x : c ∉ affected run d -> now_of a = Some x -> ia_cluster_id x = c -> before_of a = Some x.
Proof.
  intros Hc Ha Hx. destruct (decide (before_of a = Some x)) as [|Hne]; [done|]. destruct Hc. apply affected_elem. left.
  exists a. split; [by rewrite Ha|]. by rewrite Ha.
Qed.

Lemma unaffected_facts c row : c ∉ affected run d -> resolved_clusters d !! (run, c) = Some row ->
  exists row', cluster_in prev d c = Some row' /\ cluster_facts row' = cluster_facts row.
Proof.
  intros Hc Hr. destruct (decide (cluster_facts <$> cluster_in prev d c = Some (cluster_facts row))) as [E|Hne].
  - apply fmap_Some in E as (row' & E & ->). by exists row'.
  - destruct Hc. apply affected_elem. right. apply changed_clusters_elem. by exists row.
Qed.

Lemma unaffected_before c a x row : c ∉ affected run d -> resolved_clusters d !! (run, c) = Some row ->
  before_of a = Some x -> ia_cluster_id x = c -> now_of a = Some x.
Proof.
  intros Hc Hr Ha Hx. destruct (unaffected_facts c row Hc Hr) as (row' & Hr' & Ef).
  destruct prev as [p|] eqn:Ep; [|done]. cbn in Ha, Hr'.
  pose proof (rf_count _ _ fits c row Hr) as H1. pose proof (rf_count _ _ (fits_before p eq_refl) c row' Hr') as H2.
  assert (Hlen : length (assigned_to run c d) = length (assigned_to p c d)).
  { unfold cluster_facts in Ef. injection Ef as _ Ec _. lia. }
  set (l := map (fun kv => kv.1.2) (assigned_to run c d)). set (l' := map (fun kv => kv.1.2) (assigned_to p c d)).
  assert (Hel : forall r b, b ∈ map (fun kv => kv.1.2) (assigned_to r c d) <-> exists y, resolved_assignments d !! (r, b) = Some y /\ ia_cluster_id y = c).
  { intros r b. rewrite list_elem_of_fmap. unfold assigned_to. split.
    - intros ([[r0 b0] y] & -> & [Hy H]%select_where_elem). rewrite andb_true_iff, !bool_decide_eq_true in H. destruct H as [H ?].
      cbn in H. subst r0. by exists y.
    - intros (y & Hy & Hcy). exists ((r, b), y). split; [done|]. apply select_where_elem. split; [done|]. by rewrite !bool_decide_true. }
  assert (Hnd : forall r, NoDup (map (fun kv => kv.1.2) (assigned_to r c d))).
  { intros r. assert (Hr0 : forall k y, (k, y) ∈ assigned_to r c d -> k.1 = r).
    { intros k y [_ H]%select_where_elem. by apply andb_true_iff in H as [H%bool_decide_eq_true _]. }
    assert (Hn : NoDup (assigned_to r c d).*1) by apply select_where_NoDup. revert Hr0 Hn.
    induction (assigned_to r c d) as [|[[r0 b] y] q IH]; [constructor|]. cbn. intros Hr0 [Hx0 Hn]%NoDup_cons. constructor.
    - intros ([[r' b'] y'] & Eb & Hin)%list_elem_of_fmap. cbn in Eb. subst b'. apply Hx0.
      pose proof (Hr0 (r0, b) y (list_elem_of_here _ _)). pose proof (Hr0 (r', b) y' (list_elem_of_further _ _ _ Hin)). cbn in *. subst.
      apply list_elem_of_fmap. by exists ((r, b), y').
    - apply IH; [|done]. intros k z Hin. apply (Hr0 k z). by right. }
  assert (Hsub : l ⊆ l').
  { intros b (y & Hy & Hcy)%Hel. apply Hel. exists y. split; [|done]. pose proof (unaffected_assigned c b y Hc Hy Hcy) as H. by rewrite Ep in H. }
  assert (Hperm : l ≡ₚ l').
  { apply submseteq_length_Permutation; [by apply NoDup_submseteq; [apply Hnd|]|]. unfold l, l'. rewrite !length_map. lia. }
  assert (Hin : a ∈ l) by (rewrite Hperm; apply Hel; by exists x). apply Hel in Hin as (y & Hy & Hcy).
  pose proof (unaffected_assigned c a y Hc Hy Hcy) as H. rewrite Ep in H. cbn in *. congruence.
Qed.

End Changed.

(** *** The order of completed runs *)

Lemma completed_total a b : completed_order a b = true \/ completed_order b a = true.
Proof.
  unfold completed_order. destruct (rn_completed_at a.2) as [x|], (rn_completed_at b.2) as [y|]; [|by right|by left|].
  - destruct (Z.ltb_spec x y) as [|Hx]; [by right|]. destruct (Z.ltb_spec y x) as [|Hy]; [by left|].
    assert (x = y) as -> by lia. rewrite !Z.eqb_refl, !orb_false_l, !andb_true_l, !Pos.leb_le. lia.
  - rewrite !Pos.leb_le. lia.
Qed.

Lemma completed_trans a b c : completed_order a b = true -> completed_order b c = true -> completed_order a c = true.
Proof.
  unfold completed_order. destruct (rn_completed_at a.2) as [x|], (rn_completed_at b.2) as [y|], (rn_completed_at c.2) as [z|]; try done.
  - rewrite !orb_true_iff, !andb_true_iff, !Z.ltb_lt, !Z.eqb_eq, !Pos.leb_le. lia.
  - rewrite !Pos.leb_le. lia.
Qed.

(** The run that completed last, among those that [p] looks at *)
Lemma latest_of (p : uuid -> resolution_run -> bool) run r clock (t : gmap uuid resolution_run) : t !! run = Some r ->
  rn_completed_at r = Some clock -> p run r = true ->
  (forall run' r', t !! run' = Some r' -> p run' r' = true -> run' <> run -> exists x, rn_completed_at r' = Some x /\ x < clock) ->
  head (order_by completed_order (select_where p t)) = Some (run, r).
Proof.
  intros Hr Hc Hp Hlast. assert (Hin : (run, r) ∈ select_where p t) by by apply select_where_elem.
  destruct (head (order_by completed_order (select_where p t))) as [[run' r']|] eqn:E.
  - pose proof (order_by_head _ _ _ _ completed_total completed_trans E Hin) as Hle.
    assert (Hin' : (run', r') ∈ select_where p t).
    { apply (order_by_elem completed_order). destruct (order_by _ _); [done|]. injection E as ->. left. }
    apply select_where_elem in Hin' as [Hr' Hp']. destruct (decide (run' = run)) as [->|Hne]; [congruence|].
    destruct (Hlast run' r' Hr' Hp' Hne) as (x & Hx & Hlt). unfold completed_order in Hle. cbn in Hle. rewrite Hx, Hc in Hle.
    apply orb_true_iff in Hle as [H%Z.ltb_lt|[H%Z.eqb_eq _]%andb_true_iff]; lia.
  - apply head_None in E. apply (order_by_elem completed_order) in Hin. rewrite E in Hin. by apply not_elem_of_nil in Hin.
Qed.

(** *** Unaffected projections *)

Section Unaffected.
Context (run : uuid) (d : contact_tables).
Hypothesis fits : run_fits run d.
Hypothesis fits_before : forall p, previous_run run d = Some p -> run_fits p d.

Abbreviation prev := (previous_run run d).

(** The identity whose work reaches the members of [e] *)
Definition reached_from (e : uuid) : uuid := default e (ia_cluster_id <$> assigned_in (Some run) d e).

Lemma unaffected_resolved e : reached_from e ∉ affected run d -> assigned_in prev d e = assigned_in (Some run) d e.
Proof.
  intros Hc. destruct (decide (assigned_in prev d e = assigned_in (Some run) d e)) as [|Hne]; [done|].
  destruct Hc. apply affected_elem. left. by exists e.
Qed.

Lemma unaffected_projection cutoff m e : gm_evidence_identity_id m = Some e -> reached_from e ∉ affected run d ->
  projected cutoff (Some run) m d = projected cutoff prev m d.
Proof.
  intros He Hc. pose proof (unaffected_resolved e Hc) as Ha. unfold projected. rewrite He. cbn.
  destruct (identity_by_id d e) as [k|]; [|done]. cbn.
  assert (Hres : resolved_in prev d e = resolved_in (Some run) d e) by by unfold resolved_in; rewrite Ha.
  unfold projected_phone, projected_name. rewrite Hres. destruct (resolved_in (Some run) d e) as [x|] eqn:Ex; [|done].
  unfold resolved_in in Ex. apply bind_Some in Ex as (x0 & Ex & Eq). destruct (ia_quarantined x0) eqn:Hq; [done|]. injection Eq as ->.
  unfold reached_from in Hc. rewrite Ex in Hc. cbn in Hc. set (c := ia_cluster_id x) in *.
  destruct (rf_cluster _ _ fits e x Ex) as [row Hrow]. fold c in Hrow.
  destruct (unaffected_facts run d c row Hc Hrow) as (row' & Hrow' & Ef).
  assert (Hname : cluster_display_name prev x d = cluster_display_name (Some run) x d).
  { unfold cluster_display_name. fold c. rewrite Hrow'. cbn. rewrite Hrow. cbn. unfold cluster_facts in Ef. by injection Ef as _ _ ->. }
  assert (Hpush : alias_push cutoff prev x e d = alias_push cutoff (Some run) x e d).
  { unfold alias_push. apply Batches.push_name_same; [by split_and!|]. intros i. f_equal. fold c.
    assert (Hiff : forall y, ia_cluster_id y = c -> resolved_in prev d i = Some y <-> resolved_in (Some run) d i = Some y).
    { intros y Hy. unfold resolved_in. rewrite !bind_Some. split; intros (z & Hz & Ez); (destruct (ia_quarantined z) eqn:Hqz; [done|]);
        injection Ez as Ez; subst z; exists y; (split; [|by rewrite Hqz]).
      - by apply (unaffected_before run d fits fits_before c i y row).
      - by apply (unaffected_assigned run d c i y). }
    destruct (resolved_in prev d i) as [y|] eqn:E1, (resolved_in (Some run) d i) as [z|] eqn:E2; [| | |done].
    - destruct (decide (ia_cluster_id y = c)) as [Hy|Hy]; destruct (decide (ia_cluster_id z = c)) as [Hz|Hz].
      + by rewrite !bool_decide_true.
      + pose proof (proj1 (Hiff y Hy) eq_refl) as H. injection H as H. subst z. done.
      + pose proof (proj2 (Hiff z Hz) eq_refl) as H. injection H as H. subst z. done.
      + by rewrite !bool_decide_false.
    - apply bool_decide_eq_false. intros Hy. by pose proof (proj1 (Hiff y Hy) eq_refl).
    - symmetry. apply bool_decide_eq_false. intros Hz. by pose proof (proj2 (Hiff z Hz) eq_refl). }
  cbn. by rewrite Hname, Hpush.
Qed.

End Unaffected.

Lemma previous_run_Some run d p : previous_run run d = Some p ->
  p <> run /\ exists rp, resolution_runs d !! p = Some rp /\ rn_status rp = ResolutionStatus.COMPLETED.
Proof.
  unfold previous_run. set (l := select_where _ _). destruct (head (order_by completed_order l)) as [[p' rp]|] eqn:E; [|done].
  cbn. intros [= ->]. assert (Hin : (p, rp) ∈ l).
  { apply (order_by_elem completed_order). destruct (order_by _ l); [done|]. injection E as ->. left. }
  apply select_where_elem in Hin as [Hr H]. apply andb_true_iff in H as [H1%bool_decide_eq_true H2%negb_true_iff%bool_decide_eq_false].
  split; [done|]. by exists rp.
Qed.

(** The row of a request: outstanding, and not to be settled by what came before it *)
Definition asked (rq : request) (c : uuid) (d : contact_tables) : Prop :=
  exists w, contact_projection_work d !! c = Some w /\ outstanding w = true /\
    pw_requested_revision w = rq_revision rq c /\ pw_requested_cutoff_at w = rq_at rq.

Lemma canonical_asked rq ids d c : c ∈ canonical ids d -> asked rq c (enqueueContactProjectionWork rq ids d).2.
Proof.
  intros (w & Hw & E)%(enqueued_row rq). exists w. split; [done|]. subst w.
  destruct (contact_projection_work d !! c) as [w0|]; [|done]. unfold requested_again, outstanding, started.
  destruct w0 as [st]. destruct st; cbn; try done; by destruct (is_null _).
Qed.

Section Run.
Context (run : uuid) (d : contact_tables) (r : resolution_run).
Hypothesis fits : run_fits run d.
Hypothesis latest : latest_run d = Some (run, r).

Lemma reached_canonical e k : identity_by_id d e = Some k -> reached_from run d e ∈ affected run d ->
  reached_from run d e ∈ canonical (affected run d) d.
Proof.
  intros Hk Hc. unfold canonical, known. rewrite elem_of_remove_dups, list_elem_of_fmap. exists (reached_from run d e).
  assert (Hroot : exists k', identity_by_id d (reached_from run d e) = Some k' /\ Queue.stands_for d (reached_from run d e) = reached_from run d e).
  { unfold Queue.stands_for. rewrite latest. unfold reached_from, assigned_in. cbn.
    destruct (resolved_assignments d !! (run, e)) as [x|] eqn:Ex; cbn; [|exists k; by rewrite Ex].
    destruct (rf_cluster _ _ fits e x Ex) as [row Hrow]. destruct (rf_root _ _ fits _ row Hrow) as (y & Hy & Ey).
    destruct (rf_known _ _ fits _ y Hy) as [k' Hk']. exists k'. rewrite Hy, Ey. split; [done|]. by destruct (ia_quarantined y). }
  destruct Hroot as (k' & Hk' & Hst). split; [by rewrite Hst|]. rewrite elem_of_remove_dups, elem_filtered. split; [done|]. by rewrite Hk'.
Qed.

Lemma reached_stands m e : gm_evidence_identity_id m = Some e -> Batches.stands_for (Some run) d (reached_from run d e) m.
Proof.
  intros He. exists e. split; [done|]. unfold reached_from, assigned_in. cbn.
  destruct (resolved_assignments d !! (run, e)) as [x|] eqn:Ex; cbn; [|by left].
  destruct (rf_cluster _ _ fits e x Ex) as [row Hrow]. destruct (rf_root _ _ fits _ row Hrow) as (y & Hy & Ey).
  destruct (decide (e = ia_cluster_id x)) as [|Hne]; [by left|right].
  exists y, x. unfold resolved_in, assigned_in. cbn. rewrite Hy, Ex. cbn.
  destruct (ia_quarantined y) eqn:Hqy; [destruct Hne; symmetry; by apply (rf_alone _ _ fits _ _ y x Hy Ex Hqy)|].
  destruct (ia_quarantined x) eqn:Hqx; [|done]. destruct Hne. by apply (rf_alone _ _ fits _ _ x y Ex Hy Hqx).
Qed.

End Run.

(** C19: a resolution requests every change.  When an owned run completes, with projections on
    and its clock past every run completed before, then for every member of a group either
    the projection of the member, at whatever cutoff, is what it was under the run before, or
    work is outstanding, under the revision of this request, whose batches reach the member;
    and work that is claimed afresh from then on projects this run.  The results of every
    completed run fit together again, as they must for the next. *)
Theorem resolution_requests_every_change (cfg : contact_config) (nfc md5 : string -> string) (rq : request) (now clock : timestamp)
    (run token : uuid) (d : contact_tables) (r : resolution_run)
    (Hreach : reachable cfg nfc md5 d)
    (Hids : forall k k' o o', observed_identities d !! k = Some o -> observed_identities d !! k' = Some o' ->
       oc_id o = oc_id o' -> k = k')
    (Hrun : resolution_runs d !! run = Some r) (Howned : owned_run now token r = true)
    (Hfits : forall p rp, resolution_runs d !! p = Some rp -> rn_status rp = ResolutionStatus.COMPLETED ->
       run_fits p d /\ exists x, rn_completed_at rp = Some x /\ x < clock)
    (Hclock : clock <= rq_at rq) :
  exists m d', resolve true rq now clock run token d = (inr m, d') /\
    (forall p rp, resolution_runs d' !! p = Some rp -> rn_status rp = ResolutionStatus.COMPLETED -> run_fits p d') /\
    run_at (rq_at rq) d' = Some run /\
    forall k gm e, group_members d' !! k = Some gm -> gm_evidence_identity_id gm = Some e ->
      (forall cutoff, projected cutoff (Some run) gm d' = projected cutoff (previous_run run d') gm d') \/
      exists c, asked rq c d' /\ Batches.stands_for (Some run) d' c gm.
Proof.
  apply shaped_always in Hreach as Hsh.
  destruct (resolve_effect true rq now clock run token d r Hids Hsh Hrun Howned) as (m & d3 & E & Hcw).
  destruct (cw_run _ _ _ _ Hcw) as (r3 & Hruns & Hst3 & Hc3).
  assert (Hfits3 : forall p rp, resolution_runs d3 !! p = Some rp -> rn_status rp = ResolutionStatus.COMPLETED ->
    run_fits p d3 /\ (p <> run -> exists x, rn_completed_at rp = Some x /\ x < clock)).
  { intros p rp. rewrite Hruns. intros [[<- <-]|[Hne Hp]]%lookup_insert_Some Hs; [split; [apply (cw_fits _ _ _ _ Hcw)|done]|].
    destruct (Hfits p rp Hp Hs) as [Hf Hx]. split; [|done]. apply (run_fits_transfer p d); [apply (cw_identities _ _ _ _ Hcw)| | |done].
    - intros a. apply (cw_assignment _ _ _ _ Hcw). congruence.
    - intros c. apply (cw_cluster _ _ _ _ Hcw). congruence. }
  assert (Hr3 : resolution_runs d3 !! run = Some r3) by (rewrite Hruns; apply lookup_insert_eq).
  assert (Hlatest : latest_run d3 = Some (run, r3)).
  { apply (latest_of _ run r3 clock); [done|done|by rewrite Hst3|]. intros p rp Hp Hs%bool_decide_eq_true Hne.
    by apply (Hfits3 p rp Hp Hs). }
  pose proof (cw_fits _ _ _ _ Hcw) as Hfit.
  assert (Hbefore : forall p, previous_run run d3 = Some p -> run_fits p d3).
  { intros p (Hne & rp & Hp & Hs)%previous_run_Some. by apply (Hfits3 p rp Hp Hs). }
  destruct (request_changed_only true rq run d3) as [q Hq].
  exists m, (d3 <| contact_projection_work := q |>). split; [by rewrite E, Hq|].
  split; [intros p rp Hp Hs; apply (run_fits_transfer p d3); [done..|by apply (Hfits3 p rp)]|]. split.
  - unfold run_at. change (resolution_runs (d3 <| contact_projection_work := q |>)) with (resolution_runs d3).
    rewrite (latest_of _ run r3 clock); [done|done|done|rewrite Hst3, Hc3; by apply Z.leb_le|].
    intros p rp Hp [Hs%bool_decide_eq_true _]%andb_true_iff Hne. by apply (Hfits3 p rp Hp Hs).
  - intros k gm e Hgm He. destruct (identity_by_id d3 e) as [ki|] eqn:Hki.
    + destruct (decide (reached_from run d3 e ∈ affected run d3)) as [Hin|Hout]; [right|left].
      * exists (reached_from run d3 e). split; [|exact (reached_stands run d3 Hfit gm e He)].
        change (request_changed true rq run d3) with (enqueueContactProjectionWork rq (affected run d3) d3).2 in Hq.
        rewrite <- Hq. apply canonical_asked. by apply (reached_canonical run d3 r3 Hfit Hlatest e ki).
      * intros cutoff. by apply (unaffected_projection run d3 Hfit Hbefore cutoff gm e).
    + left. intros cutoff. unfold projected. rewrite He. cbn. change (identity_by_id (d3 <| contact_projection_work := q |>) e)
        with (identity_by_id d3 e). by rewrite Hki.
Qed.

(** The first run over the group of [Batches.seeded] *)
Lemma taken_reachable : reachable SnapshotLife.example_cfg id id Batches.taken.
Proof.
  unfold reachable. eapply rtc_r; [|apply claim_op]. apply (rtc_r _ Batches.seeded); [|apply enqueue_op].
  eapply rtc_r; [exact finished_reachable|]. apply op_members.
Qed.

Lemma taken_keyed : keyed Batches.taken.
Proof. apply keyed_rows; [vm_compute; repeat (constructor; [set_solver|]); constructor|by vm_compute]. Qed.

Lemma resolution_requests_every_change_witness : exists m d' gm,
  resolve true (Request 2001 2002 (fun i => 100 + Zpos i)) 2001 2002 40 30 Batches.taken = (inr m, d') /\
  group_members d' !! ("120@g.us", "62811@c.us") = Some gm /\
  ((forall cutoff, projected cutoff (Some 40%positive) gm d' = projected cutoff (previous_run 40 d') gm d') \/
   exists c, asked (Request 2001 2002 (fun i => 100 + Zpos i)) c d' /\ Batches.stands_for (Some 40%positive) d' c gm).
Proof.
  destruct (resolution_runs Batches.taken !! 40%positive) as [r|] eqn:Er; [|by vm_compute in Er].
  assert (Ho : owned_run 2001 30 <$> Some r = Some true) by (rewrite <- Er; vm_compute; reflexivity). injection Ho as Ho.
  destruct (resolution_requests_every_change SnapshotLife.example_cfg id id (Request 2001 2002 (fun i => 100 + Zpos i)) 2001 2002 40 30
    Batches.taken r) as (m & d' & E & _ & _ & H).
  - exact taken_reachable.
  - exact (ky_id _ taken_keyed).
  - exact Er.
  - exact Ho.
  - intros p rp Hp Hs. destruct (exists_where_false (fun _ r => bool_decide (rn_status r = ResolutionStatus.COMPLETED))
      (resolution_runs Batches.taken)) as [Hnone _]. pose proof (Hnone ltac:(vm_compute; reflexivity) p rp Hp) as Hn.
    apply bool_decide_eq_false in Hn. exact (False_ind _ (Hn Hs)).
  - cbn. lia.
  - assert (Hg : exists gm, group_members (resolve true (Request 2001 2002 (fun i => 100 + Zpos i)) 2001 2002 40 30 Batches.taken).2
        !! ("120@g.us", "62811@c.us") = Some gm /\ gm_evidence_identity_id gm = Some 11%positive)
      by (vm_compute; eexists; split; reflexivity).
    rewrite E in Hg. destruct Hg as (gm & Hgm & He). exists m, d', gm. split; [exact E|]. split; [exact Hgm|]. exact (H _ gm _ Hgm He).
Defined.

End Requests.
