(* ===== verification/ContactBackfill.v ===== *)
(** * Filling in what older members lack

    The jobs of [src/src/modules/contacts/contact-projection.repository.ts] that run ahead of
    the claims of [contact-projection.tick.ts] (Module [Backfill]): evidence for members that
    were stored without it, requests for members that were never projected, and the requests
    of aliases moved to the identity of their cluster; and the tick itself.
    [contact-member-identity-backfill.repository.ts] and its tick are in Module
    [IdentityBackfill].  Both walk the members of every session. *)

From S2P Require Import Prelude Schema SendPolicy Service ContactSchema ContactQueue ContactIdentity Relational ContactEvidence ContactStore ContactSnapshots ContactResolution ContactProjection.

Import Queue Normalization Projection.

(** ** What the jobs share *)

Module Members.

Local Open Scope string_scope.

Definition member_key := (string * (string * string))%type.

(** (session_id, group_id, participant_id) *)
Definition row_leb (a b : member_key) : bool :=
  if bool_decide (a.1 = b.1) then member_leb a.2 b.2 else text_leb a.1 b.1.

Definition past_row (cursor : option member_key) (k : member_key) : bool :=
  match cursor with Some c => negb (row_leb k c) | None => true end.

(** The rows of [group_members] *)
Definition member_rows (f : fleet) : list (member_key * group_member) :=
  flat_map (fun sd => map (fun km => ((sd.1, km.1), km.2)) (map_to_list (group_members sd.2))) (map_to_list f).

(** The members [WHERE P], ORDER BY session_id, group_id, participant_id LIMIT n *)
Definition row_page (n : nat) (P : member_key -> group_member -> bool) (f : fleet) : list (member_key * group_member) :=
  page row_leb n (List.filter (fun r => P r.1 r.2) (member_rows f)).

Definition ends_with_phone (s : string) : bool := ends_with "@c.us" s || ends_with "@s.whatsapp.net" s.

(** CASE WHEN .. LIKE .. *)
Definition like_type (s : string) : IdentityType.t :=
  if ends_with "@lid" s then IdentityType.LID
  else if ends_with_phone s then IdentityType.PHONE_JID
  else IdentityType.OTHER_JID.

(** regexp_replace(.., '@(c\.us|s\.whatsapp\.net)$', '') *)
Definition without_suffix (s : string) : string := default s (strip_phone_suffix s).

(** The sessions of some rows, as the keys of a [Map] *)
Definition sessions {A : Type} (rows : list (string * A)) : list string := remove_dups (map fst rows).

Definition of_session {A : Type} (rows : list (string * A)) (sessionId : string) : list A :=
  map snd (List.filter (fun r => bool_decide (r.1 = sessionId)) rows).

(** One [enqueueContactProjectionWork] for each session, and the sum of their answers *)
Definition enqueue_by_session (rq : string -> request) (rows : list (string * uuid)) (f : fleet) : Z * fleet :=
  foldl (fun (acc : Z * fleet) s =>
    let '(n, d) := enqueueContactProjectionWork (rq s) (of_session rows s) (tables acc.2 s) in ((acc.1 + n)%Z, <[s := d]> acc.2))
    (0%Z, f) (sessions rows).

End Members.

Module Backfill.
Import Members.

Local Open Scope string_scope.

Section Jobs.
Context (cfg : contact_config) (md5 lower : string -> string) (allowed : option (list string)).
Context (drawn : string -> identity_key -> uuid) (ids : string -> NameSource.t * string -> uuid) (rq : string -> request).

Abbreviation may_work := (may_work allowed).

(** *** Evidence *)

(** A row of [member_evidence_backfill_page] *)
Record page_row := PageRow {
  pg_member : string * string;
  pg_identity : identity_key;
  pg_phone : option string;
  pg_name : option string;
  pg_synced_at : timestamp }.

Definition page_phone (participantId : string) (m : group_member) : option string :=
  let phone := default (without_suffix participantId) (gm_resolved_phone_number m) in
  if ends_with_phone participantId && digits phone then Some phone else None.

Definition page_value (participantId : string) : string :=
  match chop "@s.whatsapp.net" participantId with Some p => p ++ "@c.us" | None => participantId end.

Definition page_row_of (k : string * string) (m : group_member) : page_row :=
  PageRow k (like_type k.2, page_value k.2) (page_phone k.2 m) (gm_participant_display_name m) (gm_synced_at m).

Definition page_observations (now : timestamp) (ids : NameSource.t * string -> uuid) (rows : list page_row) (d : contact_tables)
    : list ((NameSource.t * string) * name_observation) :=
  omap (fun r =>
    name ← pg_name r;
    identity ← Evidence.identity_id d (pg_identity r);
    let k := (NameSource.GROUP_PARTICIPANT_NAME,
              "backfill:group:" ++ md5 ((pg_member r).1 ++ ":" ++ (pg_member r).2 ++ ":" ++ name)) in
    Some (k, NameObservation (ids k) identity (Some (pg_member r)) name None (pg_synced_at r) now)) rows.

Definition page_links (rows : list page_row) (d : contact_tables) : list ((LinkSource.t * string) * (uuid * uuid * timestamp)) :=
  omap (fun r =>
    match (pg_identity r).1, pg_phone r with
    | IdentityType.PHONE_JID, Some phone =>
        lid ← Evidence.identity_id d (pg_identity r);
        rid ← Evidence.identity_id d (Evidence.phone_key phone);
        Some ((LinkSource.PHONE_JID_DERIVATION, "backfill:derived:" ++ md5 ((pg_identity r).2 ++ ":" ++ phone)),
              (lid, rid, pg_synced_at r))
    | _, _ => None
    end) rows.

(** What a member of the page is linked to, if that is not what it says *)
Definition relinked (d : contact_tables) (rows : list page_row) (k : string * string) (m : group_member) : option (uuid * IdentityType.t) :=
  r ← List.find (fun r => bool_decide (pg_member r = k)) rows;
  id ← Evidence.identity_id d (pg_identity r);
  if bool_decide ((gm_evidence_identity_id m, gm_identity_type m) = (Some id, Some (pg_identity r).1)) then None
  else Some (id, (pg_identity r).1).

Definition materialize_session (now : timestamp) (sessionId : string) (rows : list page_row) (d : contact_tables)
    : list uuid * contact_tables :=
  let exact := map (fun r => (pg_identity r, pg_synced_at r)) rows in
  let phones := omap (fun r => (fun p => (Evidence.phone_key p, pg_synced_at r)) <$> pg_phone r) rows in
  let d1 := d <| observed_identities := foldl (Evidence.widen (drawn sessionId))
                   (foldl (Evidence.widen (drawn sessionId)) (observed_identities d) exact) phones |> in
  let d2 := d1 <| contact_observations := foldl (Evidence.add_observation now) (contact_observations d1)
                    (page_observations now (ids sessionId) rows d1) |> in
  let d3 := d2 <| contact_link_evidence := foldl (Evidence.add_link now None) (contact_link_evidence d2) (page_links rows d2) |> in
  (omap (fun km => fst <$> relinked d3 rows km.1 km.2) (map_to_list (group_members d3)),
   d3 <| group_members := map_imap (fun k m => Some (
           match relinked d3 rows k m with
           | Some (id, t) => m <| gm_evidence_identity_id := Some id |> <| gm_identity_type := Some t |>
           | None => m
           end)) (group_members d3) |>).

(** [materializeEvidenceBackfillPage]: how many members were linked *)
Definition materializeEvidenceBackfillPage (now : timestamp) (rows : list (member_key * group_member)) (f : fleet) : Z * fleet :=
  let paged := map (fun r => (r.1.1, page_row_of r.1.2 r.2)) rows in
  let '(linked, f1) :=
    foldl (fun (acc : list (string * uuid) * fleet) s =>
      let '(l, d) := materialize_session now s (of_session paged s) (tables acc.2 s) in (acc.1 ++ map (pair s) l, <[s := d]> acc.2)%list)
      ([], f) (sessions paged) in
  (Z.of_nat (length linked), (enqueue_by_session rq linked f1).2).

(** [contact_evidence_backfill_state], [contact_projection_bootstrap_state]: whether the job
    is done, its cursor, and how far it has come *)
Record job_state (K : Type) := JobState {
  js_completed : bool;
  js_last : option K;
  js_rows : Z;
  js_completed_at : option timestamp }.
#[global] Arguments JobState {K}. #[global] Arguments js_completed {K}. #[global] Arguments js_last {K}.
#[global] Arguments js_rows {K}. #[global] Arguments js_completed_at {K}.

Record jobs := Jobs {
  jb_fleet : fleet;
  jb_evidence : job_state member_key;
  jb_bootstrap : job_state (string * uuid) }.

Definition stepped {K : Type} (now : timestamp) (count limit : nat) (last_ : option K) (s : job_state K) : job_state K :=
  JobState (count <? limit)%nat (coalesce last_ (js_last s)) (js_rows s + Z.of_nat count)
    (if (count <? limit)%nat then Some now else None).

(** [locked]: another transaction has the row of the job. *)
Definition backfillEvidence (now : timestamp) (locked : bool) (limit : nat) (j : jobs) : Z * jobs :=
  let s := jb_evidence j in
  if js_completed s || locked then (0%Z, j)
  else
    let rows := row_page limit (fun k _ => past_row (js_last s) k) (jb_fleet j) in
    (Z.of_nat (length rows),
     Jobs (if bool_decide (rows = []) then jb_fleet j else (materializeEvidenceBackfillPage now rows (jb_fleet j)).2)
       (stepped now (length rows) limit (fst <$> last rows) s) (jb_bootstrap j)).

Definition lacks_evidence (m : group_member) : bool := is_null (gm_evidence_identity_id m).

(** [acquired]: whether the advisory lock was free *)
Definition catchUpMissingEvidence (now : timestamp) (acquired : bool) (limit : nat) (f : fleet) : Z * fleet :=
  if negb acquired then (0%Z, f)
  else match row_page 1 (fun k m => lacks_evidence m && may_work k.1) f with
       | [] => (0%Z, f)
       | ((sessionId, _), _) :: _ =>
           materializeEvidenceBackfillPage now (row_page limit (fun k m => bool_decide (k.1 = sessionId) && lacks_evidence m) f) f
       end.

(** *** Requests *)

Definition past_key (cursor : option (string * uuid)) (k : string * uuid) : bool :=
  match cursor with Some c => negb (key_order k c) | None => true end.

(** SELECT DISTINCT session_id, evidence_identity_id *)
Definition evidence_keys (f : fleet) : list (string * uuid) :=
  remove_dups (omap (fun r => (fun e => (r.1.1, e)) <$> gm_evidence_identity_id r.2) (member_rows f)).

Definition enqueueBootstrap (now : timestamp) (locked : bool) (limit : nat) (j : jobs) : Z * jobs :=
  let s := jb_bootstrap j in
  if js_completed s || locked then (0%Z, j)
  else
    let rows := take limit (order_by key_order (List.filter (past_key (js_last s)) (evidence_keys (jb_fleet j)))) in
    let '(enqueued, f1) := enqueue_by_session rq rows (jb_fleet j) in
    (enqueued, Jobs f1 (jb_evidence j) (stepped now (length rows) limit (last rows) s)).

(** The work of an identity whose cluster another identity stands for *)
Definition misplaced (d : contact_tables) (id : uuid) (w : projection_work) : bool :=
  match pw_status w with
  | WorkStatus.PENDING | WorkStatus.RETRY | WorkStatus.FAILED => negb (bool_decide (stands_for d id = id))
  | _ => false
  end.

(** ORDER BY first_requested_at, session_id, identity_id *)
Definition request_order (a b : (string * uuid) * projection_work) : bool :=
  if (pw_first_requested_at a.2 =? pw_first_requested_at b.2)%Z then key_order a.1 b.1
  else (pw_first_requested_at a.2 <? pw_first_requested_at b.2)%Z.

Definition coalesceResolvedAliases (locked : string * uuid -> bool) (limit : nat) (f : fleet) : Z * fleet :=
  enqueue_by_session rq
    (map fst (take limit (order_by request_order (List.filter (fun r =>
       misplaced (tables f r.1.1) r.1.2 r.2 && may_work r.1.1 && negb (locked r.1)) (work_rows f))))) f.

(** Members that were never projected, and for whose identity no work is outstanding *)
Definition unprojected (d : contact_tables) (m : group_member) : option uuid :=
  e ← gm_evidence_identity_id m;
  let target := stands_for d e in
  let idle := match contact_projection_work d !! target with
              | Some w => bool_decide (pw_status w = WorkStatus.IDLE) || bool_decide (pw_status w = WorkStatus.FAILED)
              | None => true
              end in
  if ((sw_projection_revision (gm_shadow m) =? 0)%Z || is_null (gm_identity_type m)) && idle then Some target else None.

Definition catchUpUnprojected (acquired : bool) (limit : nat) (f : fleet) : Z * fleet :=
  if negb acquired then (0%Z, f)
  else enqueue_by_session rq
    (take limit (order_by key_order (remove_dups (omap (fun r =>
       if may_work r.1.1 then pair r.1.1 <$> unprojected (tables f r.1.1) r.2 else None) (member_rows f))))) f.

(** *** [ContactProjectionTick] *)

Record options := Options {
  op_enabled : bool;
  op_batchSize : nat;
  op_bootstrapBatchSize : nat;
  op_evidenceBackfillEnabled : bool;
  op_evidenceBackfillBatchSize : nat }.

(** One round of the tick: when each transaction happens, one batch for each of the
    [maxBatchesPerJob], and what the claim draws *)
Record round := Round {
  rd_claim : timestamp;
  rd_locked : string * uuid -> bool;
  rd_token : uuid;
  rd_batches : list timestamp;
  rd_release : timestamp;
  rd_fail : timestamp }.

(** How many members were seen, how many jobs completed *)
Definition progress := (Z * Z)%type.

(** One round for each of the [maxJobsPerTick]; an error fails its job and ends the tick. *)
Fixpoint rounds (batchSize : nat) (rs : list round) (f : fleet) : (failure + progress) * fleet :=
  match rs with
  | [] => (inr (0, 0)%Z, f)
  | r :: rs' =>
      match claim allowed (rd_claim r) (rd_locked r) (rd_token r) f with
      | (None, f1) => (inr (0, 0)%Z, f1)
      | (Some c, f1) =>
          let '(o, updated, d) := job cfg lower (pc_identityId c) (pc_leaseToken c) batchSize (rd_batches r) (tables f1 (pc_sessionId c)) in
          match o with
          | inl e => (inl e, <[pc_sessionId c := fail (rd_fail r) (pc_identityId c) (pc_leaseToken c) d]> f1)
          | inr finished =>
              let d' := if finished then d else release (rd_release r) (pc_identityId c) (pc_leaseToken c) d in
              match rounds batchSize rs' (<[pc_sessionId c := d']> f1) with
              | (inr (u, n), f2) => (inr (updated + u, (if finished then 1 else 0) + n)%Z, f2)
              | (inl e, f2) => (inl e, f2)
              end
          end
      end
  end.

(** When each job of the tick happens, and which rows and locks are taken *)
Record moments := Moments {
  mo_evidence : timestamp; mo_evidence_locked : bool;
  mo_bootstrap : timestamp; mo_bootstrap_locked : bool;
  mo_aliases_locked : string * uuid -> bool;
  mo_missing : timestamp; mo_missing_acquired : bool;
  mo_unprojected_acquired : bool }.

Definition run (o : options) (t : moments) (rs : list round) (j : jobs) : (failure + unit) * jobs :=
  if negb (op_enabled o) then (inr tt, j)
  else
    let j1 := if op_evidenceBackfillEnabled o
              then (backfillEvidence (mo_evidence t) (mo_evidence_locked t) (op_evidenceBackfillBatchSize o) j).2 else j in
    let j2 := (enqueueBootstrap (mo_bootstrap t) (mo_bootstrap_locked t) (op_bootstrapBatchSize o) j1).2 in
    let f3 := (coalesceResolvedAliases (mo_aliases_locked t) (op_bootstrapBatchSize o) (jb_fleet j2)).2 in
    let f4 := (catchUpMissingEvidence (mo_missing t) (mo_missing_acquired t) (op_bootstrapBatchSize o) f3).2 in
    let f5 := (catchUpUnprojected (mo_unprojected_acquired t) (op_bootstrapBatchSize o) f4).2 in
    let '(answer, f6) := rounds (op_batchSize o) rs f5 in
    (match answer with inl e => inl e | inr _ => inr tt end, Jobs f6 (jb_evidence j2) (jb_bootstrap j2)).

End Jobs.
End Backfill.

(** ** The identities of members *)

Module IdentityBackfill.
Import Members.

Local Open Scope Z_scope.

Module Status.
Inductive t : Set := PENDING | RUNNING | RETRY | COMPLETED.
#[export] Instance t_eq_dec : EqDecision t.
Proof. solve_decision. Defined.
End Status.
Export (hints) Status.

(** [contact_member_identity_backfill_state] *)
Record state := State {
  is_status : Status.t;
  is_rows_processed : Z;
  is_last : option member_key;
  is_attempt_count : Z;
  is_next_attempt_at : timestamp;
  is_lease_token : option uuid;
  is_lease_expires_at : option timestamp;
  is_last_error_code : option string;
  is_started_at : option timestamp;
  is_completed_at : option timestamp }.
#[export] Instance state_eta : Eta state := fun s => State
  (is_status s) (is_rows_processed s) (is_last s) (is_attempt_count s) (is_next_attempt_at s) (is_lease_token s)
  (is_lease_expires_at s) (is_last_error_code s) (is_started_at s) (is_completed_at s).

Record store := Store { so_state : state; so_fleet : fleet }.

Definition untyped (m : group_member) : bool := is_null (gm_identity_type m).

Definition some_untyped (f : fleet) : bool := existsb (fun r => untyped r.2) (member_rows f).

Definition lease_ms : Z := 120000.

Definition claimable (now : timestamp) (st : store) : bool :=
  let s := so_state st in
  (is_next_attempt_at s <=? now)
  && match is_status s with
     | Status.PENDING | Status.RETRY => true
     | Status.RUNNING => before (is_lease_expires_at s) now
     | Status.COMPLETED => some_untyped (so_fleet st)
     end.

Definition claim (now : timestamp) (token : uuid) (st : store) : option uuid * store :=
  let s := so_state st in
  if claimable now st
  then (Some token,
        Store (s <| is_status := Status.RUNNING |>
                 <| is_attempt_count := match is_status s with
                                        | Status.RETRY | Status.RUNNING => is_attempt_count s + 1
                                        | _ => is_attempt_count s
                                        end |>
                 <| is_lease_token := Some token |> <| is_lease_expires_at := Some (now + lease_ms) |>
                 <| is_started_at := Some (default now (is_started_at s)) |> <| is_completed_at := None |>
                 <| is_last_error_code := None |>) (so_fleet st))
  else (None, st).

Definition held (token : uuid) (s : state) : bool :=
  bool_decide (is_status s = Status.RUNNING) && bool_decide (is_lease_token s = Some token).

Definition owned (now : timestamp) (token : uuid) (s : state) : bool := held token s && after (is_lease_expires_at s) now.

(** [identity_type] and [resolved_phone_number] of a participant *)
Definition typed_as (participantId : string) : IdentityType.t * option string :=
  let normalized := strip_device participantId in
  let phone := without_suffix normalized in
  let t := like_type normalized in
  (t, if bool_decide (t = IdentityType.PHONE_JID) && digits phone then Some phone else None).

Definition typed (k : member_key) (m : group_member) : group_member :=
  m <| gm_identity_type := Some (typed_as k.2.2).1 |> <| gm_resolved_phone_number := (typed_as k.2.2).2 |>.

Definition write_row (f : fleet) (r : member_key * group_member) : fleet :=
  let d := tables f r.1.1 in <[r.1.1 := d <| group_members := <[r.1.2 := typed r.1 r.2]> (group_members d) |>]> f.

(** [MemberIdentityBackfillBatchResult] *)
Record batch_result := BatchResult { br_updated : Z; br_completed : bool; br_lostOwnership : bool }.

Definition processBatch (now : timestamp) (locked : member_key -> bool) (token : uuid) (batchSize : nat) (st : store) : batch_result * store :=
  if negb (owned now token (so_state st)) then (BatchResult 0 false true, st)
  else
    let rows := row_page batchSize (fun k m => untyped m && negb (locked k)) (so_fleet st) in
    let f := foldl write_row (so_fleet st) rows in
    let completed := negb (some_untyped f) in
    let s := so_state st in
    (BatchResult (Z.of_nat (length rows)) completed false,
     Store (s <| is_status := if completed then Status.COMPLETED else Status.RUNNING |>
              <| is_rows_processed := is_rows_processed s + Z.of_nat (length rows) |>
              <| is_last := coalesce (fst <$> last rows) (is_last s) |>
              <| is_attempt_count := if completed then 0 else is_attempt_count s |>
              <| is_completed_at := if completed then Some now else None |>
              <| is_lease_token := if completed then None else is_lease_token s |>
              <| is_lease_expires_at := if completed then None else Some (now + lease_ms) |>) f).

Definition release (now : timestamp) (token : uuid) (st : store) : bool * store :=
  let s := so_state st in
  if owned now token s
  then (true, Store (s <| is_status := Status.PENDING |> <| is_next_attempt_at := now |>
                       <| is_lease_token := None |> <| is_lease_expires_at := None |>) (so_fleet st))
  else (false, st).

(** LEAST(300, 5 * power(2, LEAST(attempt_count, 6))) seconds *)
Definition retry_ms (attempts : Z) : Z := Z.min 300 (5 * 2 ^ Z.min attempts 6) * 1000.

Definition fail (now : timestamp) (token : uuid) (errorCode : string) (st : store) : store :=
  let s := so_state st in
  if held token s
  then Store (s <| is_status := Status.RETRY |> <| is_next_attempt_at := now + retry_ms (is_attempt_count s) |>
                <| is_lease_token := None |> <| is_lease_expires_at := None |> <| is_last_error_code := Some errorCode |>) (so_fleet st)
  else st.

(** The batches of [ContactMemberIdentityBackfillTick], each at its time and with the rows
    that are locked then *)
Fixpoint batches (token : uuid) (batchSize : nat) (at_ : list (timestamp * (member_key -> bool))) (st : store) : option bool * store :=
  match at_ with
  | [] => (Some false, st)
  | (now, locked) :: rest =>
      let '(r, st1) := processBatch now locked token batchSize st in
      if br_lostOwnership r then (None, st1)
      else if br_completed r then (Some true, st1)
      else batches token batchSize rest st1
  end.

Definition run (enabled : bool) (claimed_at : timestamp) (token : uuid) (batchSize : nat) (at_ : list (timestamp * (member_key -> bool)))
    (released_at : timestamp) (st : store) : store :=
  if negb enabled then st
  else match claim claimed_at token st with
       | (None, st1) => st1
       | (Some t, st1) =>
           match batches t batchSize at_ st1 with
           | (Some false, st2) => (release released_at t st2).2
           | (_, st2) => st2
           end
       end.

End IdentityBackfill.
