(* ===== verification/ContactTyping.v ===== *)
(** * The identities of members are filled in

    [IdentityBackfill] ends: its batches type every member that has no identity type yet,
    as [normalizeContactIdentity] types the participants that are received. *)

From S2P Require Import Prelude Schema SendPolicy Service ContactSchema ContactQueue ContactIdentity Relational ContactStore ContactProjection ContactBatches ContactBackfill.

Import Normalization Projection Members IdentityBackfill.

Module Typing.

Local Open Scope Z_scope.

(** *** Members of every session *)

Definition member (f : fleet) (k : member_key) : option group_member := group_members (tables f k.1) !! k.2.

Lemma member_rows_elem f k m : (k, m) ∈ member_rows f <-> member f k = Some m.
Proof.
  unfold member_rows, member, tables. rewrite list_elem_of_In, in_flat_map. split.
  - intros ([s d] & Hs%list_elem_of_In%elem_of_map_to_list & Hin%list_elem_of_In). cbn in Hin.
    apply list_elem_of_fmap in Hin as ([q m'] & [= -> ->] & Hm%elem_of_map_to_list).
    cbn [fst snd]. rewrite Hs. done.
  - destruct k as [s q]. cbn. destruct (f !! s) as [d|] eqn:Hs; cbn; [|by rewrite lookup_empty]. intros Hm.
    exists (s, d). rewrite <- !list_elem_of_In. split; [by apply elem_of_map_to_list|]. apply list_elem_of_fmap. exists (q, m).
    split; [done|]. by apply elem_of_map_to_list.
Qed.

Lemma member_rows_NoDup f : NoDup (member_rows f).*1.
Proof.
  unfold member_rows. pose proof (NoDup_fst_map_to_list f) as Hn. revert Hn. generalize (map_to_list f).
  intros l. induction l as [|[s d] l IH]; cbn; [constructor|]. intros [Hs Hn]%NoDup_cons. rewrite fmap_app. apply NoDup_app. split; [|split; [|by apply IH]].
  - assert (Hk : forall q : list ((string * string) * group_member), (map (fun km => (s, km.1, km.2)) q).*1 = map (pair s) q.*1)
      by (intros q; induction q as [|x q IHq]; [done|cbn; by f_equal]).
    rewrite Hk. apply NoDup_fmap; [by intros ? ? [=]|]. apply NoDup_fst_map_to_list.
  - intros k ([k1 m1] & -> & ([q m'] & [= -> ->] & _)%list_elem_of_fmap)%list_elem_of_fmap Hin. cbn in Hin.
    apply list_elem_of_fmap in Hin as ([k2 m2] & E & Hin). apply list_elem_of_In, in_flat_map in Hin as ([s' d'] & Hs' & Hin).
    apply list_elem_of_In, list_elem_of_fmap in Hin as (? & [= -> ->] & _). cbn in E. injection E as <- _.
    apply Hs, list_elem_of_fmap. exists (s, d'). split; [done|]. by apply list_elem_of_In.
Qed.

Lemma write_row_member f k0 m0 k : member (write_row f (k0, m0)) k = (if decide (k = k0) then Some (typed k0 m0) else member f k).
Proof.
  unfold member, tables, write_row. destruct k as [s q], k0 as [s0 q0]. cbn [fst snd]. destruct (decide (s = s0)) as [->|Hs].
  - rewrite lookup_insert_eq. cbn. destruct (decide (q = q0)) as [->|Hq].
    + by rewrite lookup_insert_eq, decide_True.
    + rewrite lookup_insert_ne by done. by rewrite decide_False by congruence.
  - rewrite lookup_insert_ne by done. by rewrite decide_False by congruence.
Qed.

Lemma write_rows_Some rows f k m : NoDup rows.*1 ->
  member (foldl write_row f rows) k = Some m <->
  ((exists m0, (k, m0) ∈ rows /\ m = typed k m0) \/ ((k ∉ rows.*1) /\ member f k = Some m)).
Proof.
  revert f. induction rows as [|[k0 m0] rows IH]; intros f Hn; cbn [foldl].
  - split; [intros; right; split; [by apply not_elem_of_nil|done]|]. intros [(m0 & Hin & _)|[_ ?]]; [|done]. by apply not_elem_of_nil in Hin.
  - cbn [fmap list_fmap] in Hn. apply NoDup_cons in Hn as [Hk0 Hn]. rewrite IH by done.
    rewrite write_row_member. setoid_rewrite elem_of_cons. cbn [fmap list_fmap fst].
    destruct (decide (k = k0)) as [->|Hne].
    + split.
      * intros [(m1 & Hin & _)|[_ [= <-]]]; [|left; exists m0; split; [by left|done]]. destruct Hk0. apply list_elem_of_fmap. by exists (k0, m1).
      * intros [(m1 & [[= ->]|Hin] & ->)|[Hout _]]; [by right| |by destruct Hout; left]. destruct Hk0. apply list_elem_of_fmap. by exists (k0, m1).
    + split.
      * intros [(m1 & Hin & ->)|[Hout Hm]]; [left; exists m1; split; [by right|done]|right; split; [by intros [?|?]|done]].
      * intros [(m1 & [[= -> _]|Hin] & ->)|[Hout Hm]]; [done|left; by exists m1|right; split; [|done]]. intros ?. apply Hout. by right.
Qed.

(** *** Batches *)

Definition untyped_rows (f : fleet) : list (member_key * group_member) := List.filter (fun r => untyped r.2) (member_rows f).

Lemma untyped_rows_elem f k m : (k, m) ∈ untyped_rows f <-> member f k = Some m /\ untyped m = true.
Proof. unfold untyped_rows. by rewrite list_elem_of_In, filter_In, <- list_elem_of_In, member_rows_elem. Qed.

Lemma filter_keys_NoDup {K V : Type} (p : K * V -> bool) (l : list (K * V)) : NoDup l.*1 -> NoDup (List.filter p l).*1.
Proof.
  induction l as [|x l IH]; [done|]. cbn. intros [Hx Hn]%NoDup_cons. destruct (p x); [|by apply IH]. cbn. constructor; [|by apply IH].
  intros (y & E & (Hy & _)%list_elem_of_In%filter_In)%list_elem_of_fmap. apply Hx, list_elem_of_fmap. exists y.
  split; [done|]. by apply list_elem_of_In.
Qed.

Lemma untyped_rows_NoDup f : NoDup (untyped_rows f).*1.
Proof. apply filter_keys_NoDup, member_rows_NoDup. Qed.

Lemma some_untyped_rows f : some_untyped f = negb (bool_decide (untyped_rows f = [])).
Proof.
  unfold some_untyped, untyped_rows. induction (member_rows f) as [|x l IH]; cbn; [done|].
  by destruct (untyped x.2).
Qed.

Lemma typed_typed k m : untyped (typed k m) = false.
Proof. done. Qed.

(** A batch with no row locked *)
Section Batch.
Context (batchSize : nat).
Hypothesis positive_size : (0 < batchSize)%nat.

Definition batch_rows (f : fleet) : list (member_key * group_member) := row_page batchSize (fun k m => untyped m && negb false) f.

Lemma batch_rows_page f : batch_rows f = page row_leb batchSize (untyped_rows f).
Proof. unfold batch_rows, row_page, untyped_rows. f_equal. apply filter_ext. intros [k m]. cbn. by rewrite andb_true_r. Qed.

Lemma batch_rows_NoDup f : NoDup (batch_rows f).*1.
Proof. rewrite batch_rows_page. apply take_order_by_NoDup, untyped_rows_NoDup. Qed.

Lemma batch_rows_elem f k m : (k, m) ∈ batch_rows f -> member f k = Some m /\ untyped m = true.
Proof. rewrite batch_rows_page. intros Hin%page_elem. by apply untyped_rows_elem. Qed.

Lemma batch_member f k : member (foldl write_row f (batch_rows f)) k =
  (fun m => if mem k (batch_rows f).*1 then typed k m else m) <$> member f k.
Proof.
  apply option_eq. intros m. rewrite write_rows_Some by apply batch_rows_NoDup. split.
  - intros [(m0 & Hin & ->)|[Hout Hm]].
    + destruct (batch_rows_elem f k m0 Hin) as [-> _]. cbn. rewrite (proj2 (mem_true k (batch_rows f).*1)); [done|].
      apply list_elem_of_fmap. by exists (k, m0).
    + rewrite Hm. cbn. by rewrite (proj2 (mem_false k (batch_rows f).*1)).
  - destruct (member f k) as [m0|] eqn:Em; [|done]. cbn. intros [= <-]. destruct (mem k (batch_rows f).*1) eqn:E.
    + apply mem_true, list_elem_of_fmap in E as ([k' m1] & Ek & Hin). cbn in Ek. subst k'. left. exists m1. split; [done|].
      destruct (batch_rows_elem f k m1 Hin) as [Hm _]. congruence.
    + right. split; [by apply mem_false|done].
Qed.

Lemma batch_leaves f : length (untyped_rows f) = (length (batch_rows f) + length (untyped_rows (foldl write_row f (batch_rows f))))%nat.
Proof.
  rewrite <- length_app. apply Permutation_length, NoDup_Permutation.
  - eapply NoDup_fmap_1, untyped_rows_NoDup.
  - apply NoDup_app. split; [eapply NoDup_fmap_1, batch_rows_NoDup|]. split; [|eapply NoDup_fmap_1, untyped_rows_NoDup].
    intros [k m] Hin [Hm Hu]%untyped_rows_elem. rewrite batch_member in Hm. destruct (member f k) as [m0|]; [|done]. cbn in Hm.
    rewrite (proj2 (mem_true k (batch_rows f).*1)) in Hm by (apply list_elem_of_fmap; by exists (k, m)).
    injection Hm as <-. by rewrite typed_typed in Hu.
  - intros [k m]. rewrite elem_of_app, !untyped_rows_elem, batch_member. split.
    + intros [Hm Hu]. rewrite Hm. cbn. destruct (mem k (batch_rows f).*1) eqn:E; [left|by right].
      apply mem_true, list_elem_of_fmap in E as ([k' m1] & Ek & Hin). cbn in Ek. subst k'.
      destruct (batch_rows_elem f k m1 Hin) as [Hm1 _]. by assert (m1 = m) as <- by congruence.
    + intros [Hin|[Hm Hu]]; [by apply batch_rows_elem|]. destruct (member f k) as [m0|]; [|done]. cbn in Hm.
      destruct (mem k _); injection Hm as <-; [by rewrite typed_typed in Hu|done].
Qed.

Lemma batch_full f : (length (batch_rows f) = batchSize \/ untyped_rows (foldl write_row f (batch_rows f)) = []).
Proof.
  destruct (Nat.ltb_spec (length (batch_rows f)) batchSize) as [Hs|Hs].
  - right. assert (Hl : length (batch_rows f) = length (untyped_rows f)).
    { rewrite batch_rows_page in *. apply Permutation_length, NoDup_Permutation.
      - eapply NoDup_fmap_1, take_order_by_NoDup, untyped_rows_NoDup.
      - eapply NoDup_fmap_1, untyped_rows_NoDup.
      - intros x. split; [apply page_elem|]. by apply page_short. }
    pose proof (batch_leaves f). apply length_zero_iff_nil. lia.
  - left. rewrite batch_rows_page in *. unfold page in *. rewrite length_take in *. lia.
Qed.

(** Each batch comes within the lease that the one before it has renewed. *)
Fixpoint on_time (expires : option timestamp) (at_ : list (timestamp * (member_key -> bool))) : Prop :=
  match at_ with
  | [] => True
  | (now, _) :: rest => after expires now = true /\ on_time (Some (now + lease_ms)) rest
  end.

Lemma batches_complete token at_ st : at_ <> [] -> (forall x k, x ∈ at_ -> x.2 k = false) ->
  is_status (so_state st) = Status.RUNNING -> is_lease_token (so_state st) = Some token ->
  on_time (is_lease_expires_at (so_state st)) at_ -> (length (untyped_rows (so_fleet st)) <= length at_ * batchSize)%nat ->
  exists st', batches token batchSize at_ st = (Some true, st') /\ is_status (so_state st') = Status.COMPLETED /\
    is_lease_token (so_state st') = None /\ is_rows_processed (so_state st') = is_rows_processed (so_state st) + Z.of_nat (length (untyped_rows (so_fleet st))) /\
    forall k, member (so_fleet st') k = (fun m => if untyped m then typed k m else m) <$> member (so_fleet st) k.
Proof.
  revert st. induction at_ as [|[now locked] rest IH]; intros st Hne Hfree Hs Ht Htime Hlen; [done|].
  destruct Htime as [Hnow Htime]. cbn [batches]. unfold processBatch at 1.
  assert (Ho : owned now token (so_state st) = true) by (unfold owned, held; by rewrite Hs, Ht, !bool_decide_true, Hnow).
  rewrite Ho. cbn [negb].
  assert (Hrows : row_page batchSize (fun k m => untyped m && negb (locked k)) (so_fleet st) = batch_rows (so_fleet st)).
  { unfold batch_rows, row_page. f_equal. apply filter_ext. intros [k m]. cbn. pose proof (Hfree (now, locked) k (list_elem_of_here _ _)) as H. cbn in H. by rewrite H. }
  rewrite Hrows. set (rows := batch_rows (so_fleet st)). set (f := foldl write_row (so_fleet st) rows). cbv zeta.
  rewrite some_untyped_rows, negb_involutive. cbn [br_lostOwnership br_completed].
  pose proof (batch_leaves (so_fleet st)) as Hl. fold rows f in Hl.
  assert (Hmem : forall k m, member (so_fleet st) k = Some m -> untyped m = false -> mem k rows.*1 = false).
  { intros k m Hm Hu. apply mem_false. intros ([k' m1] & Ek & Hin)%list_elem_of_fmap. cbn in Ek. subst k'.
    destruct (batch_rows_elem _ k m1 Hin) as [Hm1 Hu1]. congruence. }
  case_bool_decide as Hempty.
  - eexists. split_and!; [done|done|done|cbn; rewrite Hl, Hempty; cbn; do 2 f_equal; lia|].
    intros k. cbn [so_fleet]. unfold f. rewrite batch_member. fold rows. destruct (member (so_fleet st) k) as [m|] eqn:Em; [|done]. cbn.
    f_equal. destruct (untyped m) eqn:Hu; [|by rewrite (Hmem k m)].
    destruct (mem k rows.*1) eqn:E; [done|]. exfalso. assert (Hin : (k, m) ∈ untyped_rows f).
    { apply untyped_rows_elem. split; [|done]. unfold f. rewrite batch_member. fold rows. by rewrite Em, E. }
    rewrite Hempty in Hin. by apply not_elem_of_nil in Hin.
  - destruct (batch_full (so_fleet st)) as [Hfull|?]; [|done]. fold rows in Hfull.
    assert (Hrest : rest <> []).
    { intros ->. cbn in Hlen. apply Hempty, length_zero_iff_nil. lia. }
    match goal with |- context [batches _ _ rest ?s] => destruct (IH s) as (st' & E & H1 & H0 & H2 & H3) end;
      [done|intros x k Hx; apply Hfree; by right|done|done|done| |].
    { cbn [so_fleet length] in *. rewrite Hl, Hfull in Hlen. nia. }
    exists st'. split_and!; [exact E|exact H1|exact H0| |].
    + rewrite H2. cbn [so_state so_fleet is_rows_processed]. rewrite Hl. cbn. lia.
    + intros k. rewrite H3. cbn [so_fleet]. unfold f. rewrite batch_member. fold rows.
      destruct (member (so_fleet st) k) as [m|] eqn:Em; [|done]. cbn. f_equal. destruct (untyped m) eqn:Hu.
      * destruct (mem k rows.*1); [by rewrite typed_typed|by rewrite Hu].
      * by rewrite (Hmem k m), Hu.
Qed.

End Batch.

(** *** Types *)

Lemma ends_with_chop suffix s : ends_with suffix s = negb (is_null (chop suffix s)).
Proof.
  destruct (chop suffix s) as [p|] eqn:E; cbn; [apply chop_Some in E as ->; apply ends_with_app|].
  apply not_true_iff_false. intros (p & ->)%ends_with_inv. by rewrite chop_app in E.
Qed.

Lemma ends_with_phone_strip s : ends_with_phone s = negb (is_null (strip_phone_suffix s)).
Proof. unfold ends_with_phone, strip_phone_suffix. rewrite !ends_with_chop. by destruct (chop "@c.us" s). Qed.

(** What the identity backfill writes for a participant is what is received for it, but that
    an id of a phone's domain which is no phone is a [PHONE_JID] without a phone. *)
Definition agrees (t : IdentityType.t * option string) (i : identity) : Prop :=
  t.2 = nid_phone i /\
  (t.1 = nid_type i \/ (t.1 = IdentityType.PHONE_JID /\ nid_type i = IdentityType.OTHER_JID /\ nid_phone i = None)).

Lemma typed_agrees p : trim p = p -> agrees (typed_as p) (normalizeContactIdentity p).
Proof.
  intros Hp. unfold agrees, typed_as, normalizeContactIdentity, like_type, without_suffix. rewrite Hp. set (s := strip_device p).
  rewrite ends_with_phone_strip. destruct (ends_with "@lid" s); [by split; [|left]|].
  destruct (strip_phone_suffix s) as [phone|]; cbn; [|by split; [|left]]. destruct (digits phone); cbn; split; auto.
Qed.

Lemma none_untyped f : untyped_rows f = [] -> some_untyped f = false.
Proof. intros H. by rewrite some_untyped_rows, H. Qed.

(** A run of the identity backfill that keeps its lease, finds no row locked and has
    batches enough ends.  It is COMPLETED and its lease is free; no member is left without a
    type; [rows_processed] has grown by the members that had none; each of them has the type
    and the phone that its id is given when it is received, and every other member is as it
    was. *)
Theorem every_member_is_typed (batchSize : nat) (claimed_at released_at : timestamp) (token : uuid)
    (at_ : list (timestamp * (member_key -> bool))) (st : store)
    (Hsize : (0 < batchSize)%nat) (Hclaim : claimable claimed_at st = true) (Hne : at_ <> [])
    (Hfree : forall x k, x ∈ at_ -> x.2 k = false) (Htime : on_time (Some (claimed_at + lease_ms)) at_)
    (Henough : (length (untyped_rows (so_fleet st)) <= length at_ * batchSize)%nat) :
  let st' := run true claimed_at token batchSize at_ released_at st in
  is_status (so_state st') = Status.COMPLETED /\ is_lease_token (so_state st') = None /\
  is_rows_processed (so_state st') = is_rows_processed (so_state st) + Z.of_nat (length (untyped_rows (so_fleet st))) /\
  some_untyped (so_fleet st') = false /\
  forall k, member (so_fleet st') k = (fun m => if untyped m then typed k m else m) <$> member (so_fleet st) k /\
            (trim k.2.2 = k.2.2 -> agrees (typed_as k.2.2) (normalizeContactIdentity k.2.2)).
Proof.
  cbn zeta. unfold run, claim. cbn [negb]. rewrite Hclaim.
  match goal with |- context [batches _ _ _ ?s] =>
    destruct (batches_complete batchSize Hsize token at_ s) as (st' & E & H1 & H2 & H3 & H4) end; [done..|].
  rewrite E. split_and!; [done|done|done| |intros k; split; [done|apply typed_agrees]].
  apply none_untyped. destruct (untyped_rows (so_fleet st')) as [|[k m] l] eqn:El; [done|]. exfalso.
  assert (Hin : (k, m) ∈ untyped_rows (so_fleet st')) by (rewrite El; left).
  apply untyped_rows_elem in Hin as [Hm Hu]. rewrite H4 in Hm. cbn [so_fleet] in Hm.
  destruct (member (so_fleet st) k) as [m0|]; [|done]. cbn in Hm. injection Hm as <-.
  destruct (untyped m0) eqn:Hu0; [by rewrite typed_typed in Hu|congruence].
Qed.

Definition plain_member : group_member :=
  GroupMember "" false false None None None None None None None None no_shadow 0.

(** Two members that were stored before identities had types, in two sessions *)
Definition old_fleet : fleet :=
  {[ "main" := empty_contacts <| group_members := {[ ("120@g.us", "62811:4@s.whatsapp.net") := plain_member ]} |>;
     "other" := empty_contacts <| group_members := {[ ("120@g.us", "9000@lid") := plain_member ]} |> ]}.

Definition old_store : store := Store (State Status.PENDING 0 None 0 0 None None None None None) old_fleet.

Lemma every_member_is_typed_witness : exists st', run true 1000 7%positive 1 [(1500, fun _ => false); (1600, fun _ => false)] 1700 old_store = st' /\
  is_status (so_state st') = Status.COMPLETED /\ is_rows_processed (so_state st') = 2 /\
  member (so_fleet st') ("main", ("120@g.us", "62811:4@s.whatsapp.net"))
    = Some (plain_member <| gm_identity_type := Some IdentityType.PHONE_JID |> <| gm_resolved_phone_number := Some "62811" |>) /\
  agrees (typed_as "62811:4@s.whatsapp.net") (normalizeContactIdentity "62811:4@s.whatsapp.net").
Proof.
  destruct (every_member_is_typed 1 1000 1700 7 [(1500, fun _ => false); (1600, fun _ => false)] old_store) as (H1 & _ & H3 & _ & H5).
  - lia.
  - reflexivity.
  - done.
  - intros x k [->|[->|[]%not_elem_of_nil]%elem_of_cons]%elem_of_cons; reflexivity.
  - by vm_compute.
  - apply Nat.leb_le. vm_compute. reflexivity.
  - eexists. split; [reflexivity|]. split; [exact H1|]. split; [rewrite H3; vm_compute; reflexivity|].
    destruct (H5 ("main", ("120@g.us", "62811:4@s.whatsapp.net"))) as [Hm Ha]. split; [|apply Ha; vm_compute; reflexivity].
    rewrite Hm. vm_compute. reflexivity.
Defined.

End Typing.
