(* ===== verification/ContactSync.v ===== *)
(** * Synchronising the contacts of a session

    [src/src/modules/contacts/contact-sync.service.ts], [contact-sync-query.repository.ts] and
    [contact-periodic-sync.tick.ts].  A call is a [serv_over world]: between two awaits the
    other workers do what they like, and a statement may fail.  The gateway's pages are an
    argument, as in [OpenWAClient]. *)

From S2P Require Import Prelude Schema SendPolicy Service OpenWAClient ContactSchema ContactQueue ContactIdentity Relational ContactEvidence ContactStore ContactLife ContactMerge ContactSnapshots ContactProjection ContactBatches ContactBackfill.
From stdpp Require Import relations pretty.

Import Projection Members Queue Normalization Names ContactRepo ContactLife Snapshots SnapshotLife.

(** [gateway_sessions], and the contact tables of every session *)
Record world := World { wo_sessions : gmap string gateway_session; wo_contacts : fleet }.

Module ContactSync.

Local Open Scope Z_scope.

Definition contacts_of (w : world) (sessionId : string) : contact_tables := tables (wo_contacts w) sessionId.

Definition on_session {A : Type} (sessionId : string) (f : contact_tables -> A * contact_tables) (w : world) : A * world :=
  let '(a, d) := f (contacts_of w sessionId) in (a, World (wo_sessions w) (<[sessionId := d]> (wo_contacts w))).

(** *** [ContactSyncQueryRepository] *)

Section Queries.
Local Open Scope string_scope.

(** The identifier that is joined to a member *)
Definition identified (d : contact_tables) (k : string * string) (m : group_member) (t : IdentityType.t) : bool :=
  match gm_contact_id m, contact_identifiers d !! (like_type k.2, Backfill.page_value k.2) with
  | Some c, Some i => bool_decide (ci_contact_id i = c) && bool_decide (like_type k.2 = t)
  | _, _ => false
  end.

Definition named (m : group_member) : bool := negb (is_null (gm_display_name m)).

Definition getCoverageMetrics (d : contact_tables) : list (string * Z) :=
  let count P := count_where P (group_members d) in
  let from s m := bool_decide (gm_display_name_source m = Some s) in
  [("member_records", count (fun _ _ => true));
   ("linked_records", count (fun _ m => negb (is_null (gm_contact_id m))));
   ("named_records", count (fun _ m => named m));
   ("lid_records", count (fun k m => identified d k m IdentityType.LID));
   ("named_lid_records", count (fun k m => identified d k m IdentityType.LID && named m));
   ("phone_jid_records", count (fun k m => identified d k m IdentityType.PHONE_JID));
   ("named_phone_jid_records", count (fun k m => identified d k m IdentityType.PHONE_JID && named m));
   ("contact_name_records", count (fun _ m => from NameSource.OPENWA_CONTACT_NAME m));
   ("participant_name_records", count (fun _ m => from NameSource.GROUP_PARTICIPANT_NAME m));
   ("push_name_records", count (fun _ m => from NameSource.OPENWA_PUSH_NAME m));
   ("shadow_projected_records", count (fun _ m => (0 <? sw_projection_revision (gm_shadow m))%Z));
   ("shadow_named_records", count (fun _ m => negb (is_null (sw_display_name (gm_shadow m)))));
   ("shadow_resolved_phone_records", count (fun _ m => negb (is_null (sw_resolved_phone_number (gm_shadow m)))));
   ("shadow_alias_push_records",
      count (fun _ m => bool_decide (sw_display_name_source (gm_shadow m) = Some RESOLVED_ALIAS_PUSH_NAME)))].

End Queries.

(** WHERE .. of [listPeriodicSessionIds] *)
Definition periodic (now : timestamp) (allowed : list string) (f : fleet) (sessionId : string) (s : gateway_session) : bool :=
  mem sessionId allowed && bool_decide (gs_status s = "ready") && gs_engine_loaded s
  && match sync_state (tables f sessionId) with
     | None => true
     | Some st => (cs_next_attempt_at st <=? now) && no_lease now st
     end.

(** ORDER BY state.next_attempt_at NULLS FIRST, session.id *)
Definition periodic_order (f : fleet) (a b : string) : bool :=
  let next s := cs_next_attempt_at <$> sync_state (tables f s) in
  match next a, next b with
  | None, None => text_leb a b
  | None, Some _ => true
  | Some _, None => false
  | Some x, Some y => (x <? y) || (x =? y) && text_leb a b
  end.

Definition listPeriodicSessionIds (now : timestamp) (allowed : list string) (limit : nat) (w : world) : list string :=
  take limit (order_by (periodic_order (wo_contacts w))
    (select_where (periodic now allowed (wo_contacts w)) (wo_sessions w)).*1).

(** *** [ContactSyncService] *)

Definition cserv (A : Type) : Type := serv_over world A.

Section Calls.
Context (cfg : contact_config) (nfc md5 : string -> string).
(** What the request for a page answers, at an await *)
Context (page : nat -> string -> nat -> upstream_error + list openwa_contact).
Context (periodicIntervalMs : Z).

(** [OpenWAResponseValidationError] or [ContactSnapshotConflictError] *)
Definition error_code (error : failure) : string :=
  match error with
  | Upstream (InvalidResponse _) => "INVALID_RESPONSE"
  | JsError m => if String.eqb m (error_message snapshot_conflict) then "INVALID_RESPONSE" else "UPSTREAM_ERROR"
  | _ => "UPSTREAM_ERROR"
  end.

Section Session.
Context (sessionId : string).

Definition ingest (generation : Z) (leaseToken : uuid) (p : list openwa_contact) : cserv (Z * Z) :=
  attempt (fun now ids => on_session sessionId
    (ingestObservedPage cfg nfc md5 now (fun i => ids ("contact" ++ pretty i)%string) generation leaseToken p)).

(** [for await (const page of this.openwa.listContactPages(sessionId))]: a page that is
    yielded is ingested before the next one is asked for.  The answer: [records] and
    [enriched]. *)
Fixpoint pages (left pageNumber : nat) (generation : Z) (leaseToken : uuid) (ids : list string) (records enriched : Z)
    : cserv (Z * Z) :=
  match left with
  | O => throw (Upstream (OpenWAClient.invalid_listing "list_contacts"))
  | S left' =>
      let! p := ask (fun n => page n sessionId pageNumber) in
      match OpenWAClient.add_ids oa_id p ids with
      | None => throw (Upstream (OpenWAClient.invalid_listing "list_contacts"))
      | Some ids' =>
          let! r := if (0 <? length p)%nat then ingest generation leaseToken p else ret (0, 0) in
          if (length p <? OpenWAClient.pageSize)%nat then ret (records + r.1, enriched + r.2)
          else pages left' (S pageNumber) generation leaseToken ids' (records + r.1) (enriched + r.2)
      end
  end.

Definition complete_snapshot (generation : Z) (leaseToken : uuid) (records : Z) : cserv unit :=
  attempt (fun now ids => on_session sessionId
    (complete cfg now (fun k => ids ("identity" ++ key_text k)%string) (fun k => ids ("observation" ++ k.2)%string)
       generation leaseToken records periodicIntervalMs)).

(** The [try] of [reconcileObservedContacts] *)
Definition snapshot (generation : Z) (leaseToken : uuid) : cserv bool :=
  let! totals := pages OpenWAClient.maxPages 0 generation leaseToken [] 0 0 in
  let! _ := attempt (fun now _ => on_session sessionId (reconcileObservedIdentities cfg now generation leaseToken)) in
  let! _ := complete_snapshot generation leaseToken totals.1 in
  let! _ := catch (query (fun _ w => getCoverageMetrics (contacts_of w sessionId))) (fun _ => ret []) in
  ret true.

Definition fail_snapshot (generation : Z) (leaseToken : uuid) (error : failure) : cserv unit :=
  catch (await (fun now _ => on_session sessionId
           (fun d => (tt, fail cfg now generation leaseToken (error_code error) d))))
        (fun _ => ret tt).

Definition reconcileObservedContacts (force : bool) : cserv bool :=
  let! claim := attempt (fun now ids => on_session sessionId (begin cfg now (ids "lease") force)) in
  match claim with
  | None => ret false
  | Some (generation, leaseToken) =>
      catch_rethrow (snapshot generation leaseToken) (fail_snapshot generation leaseToken)
  end.

End Session.

(** *** [ContactPeriodicSyncTick] *)

Record tally := Tally { ta_claimed : Z; ta_completed : Z; ta_failed : Z }.
#[export] Instance tally_eta : Eta tally := fun t => Tally (ta_claimed t) (ta_completed t) (ta_failed t).

Fixpoint each_session (sessionIds : list string) (t : tally) : cserv tally :=
  match sessionIds with
  | [] => ret t
  | s :: rest =>
      let! t' := catch
        (let! done_ := reconcileObservedContacts s false in
         ret (if done_ then t <| ta_completed := ta_completed t + 1 |> else t))
        (fun _ => ret (t <| ta_failed := ta_failed t + 1 |>)) in
      each_session rest t'
  end.

(** What the tick logs, if it does *)
Definition run (enabled : bool) (allowedSessionIds : list string) : cserv (option tally) :=
  if negb enabled then ret None
  else
    let! sessionIds := query (fun now w => listPeriodicSessionIds now allowedSessionIds 10 w) in
    let! t := each_session sessionIds (Tally (Z.of_nat (length sessionIds)) 0 0) in
    ret (if (0 <? length sessionIds)%nat then Some t else None).

End Calls.

(** *** What is received stays received *)

Section Receiving.
Context (cfg : contact_config) (nfc md5 : string -> string).
Hypothesis staging : CONTACT_SNAPSHOT_STAGING_ENABLED cfg = true.

Definition receiving (g : Z) (d : contact_tables) : Prop :=
  exists row, snapshot_generations d !! g = Some row /\ is_receiving row = true.

Definition started (g : Z) (d : contact_tables) : Prop := exists s, sync_state d = Some s /\ g <= cs_sync_generation s.

(** While the generation [g] is received, what was staged in it stays. *)
Record still (g : Z) (d d' : contact_tables) : Prop := Still {
  st_started : started g d';
  st_receiving : receiving g d' -> receiving g d;
  st_staged k s : receiving g d' -> snapshot_observations d !! (g, k) = Some s -> snapshot_observations d' !! (g, k) = Some s }.

Lemma still_trans g d1 d2 d3 : still g d1 d2 -> still g d2 d3 -> still g d1 d3.
Proof. intros [A1 B1 C1] [A2 B2 C2]. split; auto. Qed.

Lemma still_quiet g d d' : started g d -> quiet d d' ->
  (forall k s, snapshot_observations d !! (g, k) = Some s -> snapshot_observations d' !! (g, k) = Some s) -> still g d d'.
Proof.
  intros (s & Hs & Hg) Q H. split; [|unfold receiving; by rewrite (qu_generations _ _ Q)|intros k x _; apply H].
  destruct (quiet_sync_back _ _ _ Q Hs) as (s' & Hs' & E). exists s'. by rewrite E.
Qed.

Lemma still_same g d d' : started g d -> quiet d d' -> snapshot_observations d' = snapshot_observations d -> still g d d'.
Proof. intros Hs Q E. apply still_quiet; [done..|]. intros k s. by rewrite E. Qed.

Lemma stage_keeps now g generation rows d d' k s : stage cfg md5 now generation rows d = inr d' ->
  snapshot_observations d !! (g, k) = Some s -> snapshot_observations d' !! (g, k) = Some s.
Proof.
  unfold stage. rewrite staging. cbn [negb]. destruct (is_null _); [done|]. destruct (forallb _ _); [|done]. intros [= <-] Hs. cbn.
  apply foldl_keeps; [done|]. intros t r _ Ht. unfold stage_row. by rewrite insert_absent_lookup, Ht.
Qed.

(** What a page that was ingested has staged *)
Lemma ingest_staged now drawn generation token p d r d' :
  ingestObservedPage cfg nfc md5 now drawn generation token p d = (inr r, d') -> p <> [] ->
  r.1 = Z.of_nat (length p) /\ owns now generation token d = true /\
  exists d0 d1, snapshot_observations d0 = snapshot_observations d /\
    stage cfg md5 now generation (page_rows nfc drawn p) d0 = inr d1 /\ snapshot_observations d' = snapshot_observations d1.
Proof.
  intros E Hp. unfold ingestObservedPage in E. rewrite bool_decide_false in E by done.
  destruct (renew _ _ _ _) as [e|d0] eqn:E0; [done|]. apply renew_quiet in E0 as (_ & S0 & Ho).
  unfold ingest_rows in E. destruct (stage _ _ _ _ _ _) as [e|d1] eqn:E1; [done|].
  set (d2 := create_missing _ _ _ _) in E. destruct (record_evidence _ _ _) as [e|d3] eqn:E3; [done|].
  assert (S3 : snapshot_observations d3 = snapshot_observations d2).
  { unfold record_evidence in E3. case_bool_decide; [|done]. by injection E3 as <-. }
  set (ids := (matched _ _).*2) in E. set (d7 := project_contacts _ _) in E.
  assert (S8 : snapshot_observations (project_members (CONTACT_LEGACY_MEMBER_FANOUT_ENABLED cfg) now ids d7).2 = snapshot_observations d7)
    by (unfold project_members; by destruct (CONTACT_LEGACY_MEMBER_FANOUT_ENABLED cfg)).
  destruct (project_members _ _ ids d7) as [n d8]. injection E as <- <-. cbn [snd] in S8. split; [done|]. split; [done|].
  exists d0, d1. split; [done|]. split; [done|]. rewrite S8. change (snapshot_observations d3 = snapshot_observations d1). by rewrite S3.
Qed.

Lemma ingest_still now drawn generation token p d g : started g d ->
  still g d (ingestObservedPage cfg nfc md5 now drawn generation token p d).2.
Proof.
  intros Hs. destruct (ingest_quiet cfg nfc md5 staging now drawn generation token p d) as [->|(_ & Q & _ & _)]; [by apply still_same|].
  apply still_quiet; [done..|]. intros k s Hk.
  destruct (ingestObservedPage cfg nfc md5 now drawn generation token p d) as [[f|r] d'] eqn:E; cbn.
  - revert E. unfold ingestObservedPage. case_bool_decide; [done|]. destruct (renew _ _ _ _); [by intros [= _ <-]|].
    destruct (ingest_rows _ _ _ _ _ _) as [|[]]; [by intros [= _ <-]|done].
  - destruct (decide (p = [])) as [->|Hp]; [by injection E as _ <-|].
    apply ingest_staged in E as (_ & _ & d0 & d1 & E0 & E1 & ->); [|done]. eapply stage_keeps; [exact E1|]. by rewrite E0.
Qed.

Lemma still_op d d' g : snapshots_sound d -> started g d -> op cfg nfc md5 d d' -> still g d d'.
Proof.
  intros H Hs Hop. destruct Hop.
  - destruct (begin_step cfg staging now token force d H) as [->|(s & E & Hnew & ->)]; [by apply still_same|]. cbn zeta.
    destruct Hs as (s0 & Hs0 & Hg). apply claim_generation in E as [_ E]. rewrite Hs0 in E. cbn in E.
    assert (Hno : ~ receiving g (receive now token (cs_sync_generation s)
        (drop_generations (outdated cfg now (expire now (cs_sync_generation s) (d <| sync_state := Some s |>)))
           (expire now (cs_sync_generation s) (d <| sync_state := Some s |>))))).
    { intros (row & Hrow & Hr). apply begin_row in Hrow as [[-> _]|(_ & _ & row0 & Hrow & ->)]; [lia|].
      rewrite (proj2 (Z.ltb_lt g (cs_sync_generation s))), andb_true_r in Hr by lia. by destruct (is_receiving row0) eqn:Er; [|congruence]. }
    split; [|by intros ?%Hno|by intros k x ?%Hno]. exists s. split; [done|lia].
  - by apply ingest_still.
  - destruct (reconcile_quiet cfg now generation token d) as [Q E]. by apply still_same.
  - destruct (complete_step cfg staging now drawn ids generation token records intervalMs d H) as [[_ ->]|(_ & row & Hrow & ->)];
      [by apply still_same|]. cbn zeta. cbn [snd]. destruct (publish_frame cfg drawn ids now generation d) as (F1 & F2 & F3). cbn zeta in F1, F2, F3.
    destruct Hs as (s0 & Hs0 & Hg). split.
    + exists (completed_state now records intervalMs s0). split; [|done]. cbn. by rewrite F3, Hs0.
    + intros (r & Hr & Hv). rewrite settle_lookup in Hr. case_bool_decide; [by injection Hr as <-|]. rewrite F1 in Hr. by exists r.
    + intros k x _. unfold settle. cbn. by rewrite F2.
  - destruct Hs as (s0 & Hs0 & Hg). split.
    + unfold started, fail. destruct (CONTACT_SNAPSHOT_STAGING_ENABLED cfg); cbn; rewrite Hs0; eexists; (split; [reflexivity|]); by destruct (_ && _).
    + unfold receiving, fail. rewrite staging. intros (r & Hr & Hv).
      change ((update_row generation (fun g => bool_decide (sg_lease_token g = token) && is_receiving g) (failed now code)
        (snapshot_generations d)).2 !! g = Some r) in Hr. rewrite lookup_update_row in Hr.
      destruct (snapshot_generations d !! g) as [r0|]; [|done]. injection Hr as <-. exists r0. split; [done|]. by destruct (bool_decide _ && _).
    + intros k x _. unfold fail. by destruct (CONTACT_SNAPSHOT_STAGING_ENABLED cfg).
  - destruct (observe_quiet cfg nfc md5 now candidate observationId drawn rq rawIdentity rawName observedAt k d) as [Q E]. by apply still_same.
  - destruct (members_quiet cfg nfc md5 now candidate drawn ids rq groupId participants d) as [Q E]. by apply still_same.
  - by apply still_same.
  - by apply still_same.
Qed.

Lemma still_ops d d' g : reachable cfg nfc md5 d -> started g d -> rtc (op cfg nfc md5) d d' ->
  reachable cfg nfc md5 d' /\ still g d d'.
Proof.
  intros Hr Hs Hops. split; [by unfold reachable in *; transitivity d|]. induction Hops as [d|d d1 d2 Hop Hops IH]; [by apply still_same|].
  pose proof (still_op d d1 g (snapshots_always cfg nfc md5 staging d Hr) Hs Hop) as H1.
  eapply still_trans; [exact H1|]. apply IH; [by unfold reachable in *; eapply rtc_r|apply H1].
Qed.

(** What is kept of a contact of the gateway, in a generation *)
Definition noted (g : Z) (c : openwa_contact) (d : contact_tables) : Prop :=
  let i := normalizeContactIdentity (oa_id c) in
  exists s, snapshot_observations d !! (g, key i) = Some s /\
    (so_phone s, so_contact_name s, so_push_name s)
    = (phone_of i (oa_number c), normalizeContactName nfc (oa_name c) i, normalizeContactName nfc (oa_pushName c) i).

Lemma stage_noted now drawn generation p d d' c : stage cfg md5 now generation (page_rows nfc drawn p) d = inr d' ->
  c ∈ p -> noted generation c d'.
Proof.
  unfold stage. rewrite staging. cbn [negb]. destruct (is_null _); [done|]. destruct (forallb _ _) eqn:E; [|done].
  intros [= <-] (n & Hn)%list_elem_of_lookup. rewrite forallb_forall in E. unfold noted. set (i := normalizeContactIdentity (oa_id c)).
  pose proof (E (PageRow (key i) (phone_of i (oa_number c)) (normalizeContactName nfc (oa_name c) i)
    (normalizeContactName nfc (oa_pushName c) i) (drawn n))) as H.
  assert (Hin : In (PageRow (key i) (phone_of i (oa_number c)) (normalizeContactName nfc (oa_name c) i)
    (normalizeContactName nfc (oa_pushName c) i) (drawn n)) (page_rows nfc drawn p)).
  { apply list_elem_of_In, list_elem_of_lookup. exists n. unfold page_rows. by rewrite list_lookup_imap, Hn. }
  apply H in Hin. unfold agrees in Hin. cbn in *. destruct (foldl _ _ _ !! _) as [x|]; [|done]. exists x. split; [done|].
  by apply bool_decide_eq_true in Hin.
Qed.

Lemma noted_still g c d d' : still g d d' -> receiving g d' -> noted g c d -> noted g c d'.
Proof. intros H Hr (x & Hx & E). exists x. split; [by apply (st_staged _ _ _ H)|done]. Qed.

End Receiving.

(** *** The whole listing *)

Section Listing.
Context (cfg : contact_config) (nfc md5 : string -> string).
Context (page : nat -> string -> nat -> upstream_error + list openwa_contact).
Context (periodicIntervalMs : Z) (sessionId : string).
Hypothesis staging : CONTACT_SNAPSHOT_STAGING_ENABLED cfg = true.

(** The pages from [n] on that the gateway answered with, at one await or another: all full
    but the last *)
Inductive listing (n : nat) : list (list openwa_contact) -> Prop :=
  | last_page k p : page k sessionId n = inr p -> (length p < OpenWAClient.pageSize)%nat -> listing n [p]
  | full_page k p ps : page k sessionId n = inr p -> (OpenWAClient.pageSize <= length p)%nat -> listing (S n) ps ->
      listing n (p :: ps).

(** The other workers do to the contacts of the session what transactions do. *)
Definition lawful (e : env_over world) : Prop :=
  forall n w, rtc (op cfg nfc md5) (contacts_of w sessionId) (contacts_of (Service.between e n w) sessionId).

Lemma on_session_inv {A} (f : contact_tables -> A * contact_tables) w a w' : on_session sessionId f w = (a, w') ->
  f (contacts_of w sessionId) = (a, contacts_of w' sessionId).
Proof.
  unfold on_session. destruct (f (contacts_of w sessionId)) as [b d] eqn:E. intros [= <- <-].
  f_equal. unfold contacts_of, tables. cbn. by rewrite lookup_insert_eq.
Qed.

Context (e : env_over world).
Hypothesis others_lawful : lawful e.

Lemma await_still g n w : reachable cfg nfc md5 (contacts_of w sessionId) -> started g (contacts_of w sessionId) ->
  let d := contacts_of (Service.between e n w) sessionId in
  reachable cfg nfc md5 d /\ started g d /\ still g (contacts_of w sessionId) d.
Proof.
  intros Hr Hs. destruct (still_ops cfg nfc md5 staging _ _ g Hr Hs (others_lawful n w)) as [H1 H2]. split_and!; [done|apply H2|done].
Qed.

Lemma pages_ok left pn g token ids records enriched n w r n' w' :
  pages cfg nfc md5 page sessionId left pn g token ids records enriched e n w = (inr r, n', w') -> NoDup ids ->
  reachable cfg nfc md5 (contacts_of w sessionId) -> started g (contacts_of w sessionId) ->
  exists ps, listing pn ps /\ r.1 = records + Z.of_nat (length (concat ps)) /\ NoDup (ids ++ map oa_id (concat ps)) /\
    reachable cfg nfc md5 (contacts_of w' sessionId) /\ still g (contacts_of w sessionId) (contacts_of w' sessionId) /\
    (receiving g (contacts_of w' sessionId) -> forall c, c ∈ concat ps -> noted nfc g c (contacts_of w' sessionId)).
Proof.
  revert pn ids records enriched n w. induction left as [|left IH]; intros pn ids records enriched n w; [done|].
  cbn [pages]. intros (p & n1 & w1 & E1 & E)%bind_ok Hn Hr Hs. apply ask_inv in E1 as (-> & -> & Hp).
  destruct (await_still g n w Hr Hs) as (Hr1 & Hs1 & H1). set (w1 := Service.between e n w) in *.
  destruct (OpenWAClient.add_ids oa_id p ids) as [ids'|] eqn:Ei; [|done].
  apply OpenWAClient.add_ids_Some in Ei as [-> Hn']; [|done].
  apply bind_ok in E as (x & n2 & w2 & E2 & E).
  assert (Hx : x.1 = Z.of_nat (length p) /\ reachable cfg nfc md5 (contacts_of w2 sessionId) /\
    still g (contacts_of w1 sessionId) (contacts_of w2 sessionId) /\
    forall c, c ∈ p -> noted nfc g c (contacts_of w2 sessionId)).
  { destruct (Nat.ltb_spec 0 (length p)) as [Hl|Hl].
    - apply attempt_ok in E2 as [-> E2%on_session_inv]. destruct (await_still g (S n) w1 Hr1 Hs1) as (Hr2 & Hs2 & H2).
      pose proof (ingest_still cfg nfc md5 staging (clock e (S n)) (fun i => drawn e (S n) ("contact" ++ pretty i)%string) g token p _ g Hs2) as H3.
      pose proof (op_ingest cfg nfc md5 (contacts_of (Service.between e (S n) w1) sessionId) (clock e (S n))
        (fun i => drawn e (S n) ("contact" ++ pretty i)%string) g token p) as Hop.
      rewrite E2 in H3, Hop. cbn [snd] in H3, Hop.
      apply ingest_staged in E2 as (Hrec & _ & d0 & d1 & _ & Hst & Eo); [|by intros ->; cbn in Hl; lia].
      split_and!; [done|by unfold reachable in *; eapply rtc_r|by eapply still_trans|].
      intros c Hc. destruct (stage_noted cfg nfc md5 staging _ _ _ _ _ _ c Hst Hc) as (y & Hy & E'). exists y. by rewrite Eo.
    - injection E2 as <- <- <-. destruct p; [|cbn in Hl; lia]. split_and!; [done|done|by apply still_same|].
      by intros c Hc%not_elem_of_nil. }
  destruct Hx as (Hx & Hr2 & H2 & Hnoted). pose proof (still_trans _ _ _ _ H1 H2) as H12.
  destruct (Nat.ltb_spec (length p) OpenWAClient.pageSize) as [Hl|Hl].
  - injection E as <- <- <-. exists [p]. cbn [concat]. rewrite app_nil_r. cbn [fst]. split_and!; [by eapply last_page|by rewrite Hx|done..|].
    intros _. done.
  - apply IH in E as (ps & A1 & A2 & A3 & A4 & A5 & A6); [|done|done|apply H2]. exists (p :: ps). cbn [concat].
    rewrite map_app, app_assoc. split_and!; [by eapply full_page| |done|done|by eapply still_trans|].
    + rewrite A2, Hx, length_app. lia.
    + intros Hrec c [Hc|Hc]%elem_of_app; [|by apply A6]. eapply noted_still; [exact A5|done|by apply Hnoted].
Qed.

Lemma begin_started now token force d g t d' : begin cfg now token force d = (inr (Some (g, t)), d') -> started g d' /\ t = token.
Proof.
  unfold begin. destruct (claim_state _ _ _ _) as [s|]; [|done]. rewrite staging. cbn [negb].
  match goal with |- context [match ?x with Some _ => _ | None => _ end] => destruct x end; [done|].
  intros [= <- <- <-]. split; [|done]. exists s. by split.
Qed.

(** What [complete] leaves of the generation it publishes *)
Record published_as (g records : Z) (d : contact_tables) : Prop := PublishedAs {
  pa_row : exists row, snapshot_generations d !! g = Some row /\ sg_state row = GenerationState.PUBLISHED /\
             sg_upstream_record_count row = Some records;
  pa_state : exists s, sync_state d = Some s /\ cs_sync_generation s = g /\ cs_lease_token s = None /\
               cs_last_successful_record_count s = Some records /\ cs_last_error_code s = None;
  pa_newest : newest_published d = Some g }.

Lemma complete_publishes now drawn ids g token records d d' : reachable cfg nfc md5 d ->
  complete cfg now drawn ids g token records periodicIntervalMs d = (inr tt, d') ->
  receiving g d /\ published_as g records d' /\ snapshot_observations d' = snapshot_observations d.
Proof.
  intros Hr E. pose proof (snapshots_always cfg nfc md5 staging d Hr) as H.
  assert (H' : snapshots_sound d') by (pose proof (complete_sound cfg staging now drawn ids g token records periodicIntervalMs d H) as Hc; by rewrite E in Hc).
  destruct (complete_step cfg staging now drawn ids g token records periodicIntervalMs d H) as [[_ E']|(Ho & row & Hrow & E')];
    rewrite E in E'; [done|]. cbn zeta in E'. destruct (publish_frame cfg drawn ids now g d) as (F1 & F2 & F3). cbn zeta in F1, F2, F3.
  destruct (owns_lease _ _ _ _ H Ho) as (s & row' & Hs & Hg & Hrow' & Hv). rewrite Hrow in Hrow'. injection Hrow' as <-.
  injection E' as ->. rewrite F3, Hs in *. cbn [fmap option_fmap option_map] in *. split_and!; [exists row; split; [done|]; by apply andb_true_iff in Hv as [? _]| |exact F2].
  assert (Hp : snapshot_generations (settle g (published now records (Z.of_nat (length (Evidence.staged g (Evidence.publishSnapshot cfg drawn ids now g d)))) row)
      (Some (completed_state now records periodicIntervalMs s)) (Evidence.publishSnapshot cfg drawn ids now g d)) !! g
    = Some (published now records (Z.of_nat (length (Evidence.staged g (Evidence.publishSnapshot cfg drawn ids now g d)))) row))
    by (rewrite settle_lookup; by rewrite bool_decide_true).
  split.
  - eexists. split; [exact Hp|done].
  - eexists. split; [done|]. cbn. by rewrite Hg.
  - apply newest_published_spec. split; [eexists; split; [exact Hp|done]|]. intros g' (r & Hr' & _).
    destruct (ss_range _ H' _ _ Hr') as (s' & [= <-] & Hle). cbn in Hle. lia.
Qed.


(** A failed attempt is over, unless the statement that ends it was not run either: its lease
    is free, its generation is not received any more under its token, and what would merge
    contacts is gone. *)
Record closed (g : Z) (token : uuid) (d : contact_tables) : Prop := Closed {
  cl_lease s : sync_state d = Some s -> cs_sync_generation s = g -> cs_lease_token s <> Some token;
  cl_row row : snapshot_generations d !! g = Some row -> is_receiving row = true -> sg_lease_token row <> token;
  cl_evidence k : contact_identity_evidence d !! (g, k) = None }.

Lemma fail_closes now g token code d : closed g token (fail cfg now g token code d) /\
  forall s, sync_state d = Some s -> cs_sync_generation s = g -> cs_lease_token s = Some token ->
    sync_state (fail cfg now g token code d) = Some (failed_state now code s).
Proof.
  unfold fail. rewrite staging. split; [split|].
  - cbn. intros s Hs Hg Ht. destruct (sync_state d) as [s0|]; [|done]. injection Hs as <-. revert Hg Ht.
    destruct (cs_sync_generation s0 =? g) eqn:Eg; [|by cbn; intros <-; rewrite Z.eqb_refl in Eg].
    cbn [andb]. by case_bool_decide.
  - intros row Hrow Hv Et. subst token. change ((update_row g (fun g => bool_decide (sg_lease_token g = sg_lease_token row) && is_receiving g) (failed now code)
      (snapshot_generations d)).2 !! g = Some row) in Hrow. rewrite lookup_update_row in Hrow.
    destruct (snapshot_generations d !! g) as [r0|]; [|done]. rewrite bool_decide_true in Hrow by done. cbn in Hrow. injection Hrow as E.
    destruct (bool_decide _ && is_receiving r0) eqn:Eb; [by rewrite <- E in Hv|].
    rewrite E, bool_decide_true, Hv in Eb by done. done.
  - intros k. cbn. rewrite lookup_delete_where. destruct (contact_identity_evidence d !! (g, k)); [|done]. cbn. by rewrite Z.eqb_refl.
  - intros s Hs Hg Ht. cbn. rewrite Hs. cbn. by rewrite Hg, Ht, Z.eqb_refl, bool_decide_true.
Qed.

Lemma failed_attempt_closes (force : bool) (f : failure) (n n' : nat) (w w' : world) :
  reconcileObservedContacts cfg nfc md5 page periodicIntervalMs sessionId force e n w = (inl f, n', w') ->
  n' = S n \/ exists g token, (exists m, faults e (pred n') = Some (NotRun m)) \/ closed g token (contacts_of w' sessionId).
Proof.
  intros [E|(claim & n1 & w1 & E1 & E)]%bind_inl; [left|right].
  - apply bind_inl in E as [E|(r & n1 & w1 & E1 & E)].
    + revert E. unfold await. destruct (faults e n) as [[]|]; by intros [= _ <- _].
    + apply await_ok in E1 as [-> _]. destruct r; [|done]. by injection E as _ <- _.
  - destruct claim as [[g token]|]; [|done]. exists g, token. unfold catch_rethrow in E.
    destruct (snapshot _ _ _ _ _ _ g token e n1 w1) as [[[f1|b] n2] w2] eqn:E2; [|done].
    apply bind_inl in E as [E|(u & n3 & w3 & E3 & E)].
    + revert E. unfold fail_snapshot, catch. destruct (await _ e n2 w2) as [[[]]]; done.
    + injection E as _ <- <-. revert E3. unfold fail_snapshot, catch, await.
      set (r := on_session _ _ _). assert (Hc : closed g token (contacts_of r.2 sessionId)).
      { destruct r as [a w4] eqn:Er. apply on_session_inv in Er. cbn [snd]. injection Er as _ <-. apply fail_closes. }
      destruct (faults e n2) as [[m|m]|] eqn:Ef; intros [= _ <- <-]; [left; by exists m|by right..].
Qed.

End Listing.

(** *** The tick *)

Section Tick.
Context (cfg : contact_config) (nfc md5 : string -> string).
Context (page : nat -> string -> nat -> upstream_error + list openwa_contact) (periodicIntervalMs : Z).

(** A session that fails does not stop the others. *)
Lemma each_session_total sessionIds t e n w : exists t' n' w',
  each_session cfg nfc md5 page periodicIntervalMs sessionIds t e n w = (inr t', n', w') /\ ta_claimed t' = ta_claimed t /\
  0 <= ta_completed t' - ta_completed t /\ 0 <= ta_failed t' - ta_failed t /\
  (ta_completed t' - ta_completed t) + (ta_failed t' - ta_failed t) <= Z.of_nat (length sessionIds).
Proof.
  revert t n w. induction sessionIds as [|s rest IH]; intros t n w; [exists t, n, w; split_and!; [done|done|lia..]|].
  cbn [each_session length].
  assert (Hone : exists t1 n1 w1, catch (bind (reconcileObservedContacts cfg nfc md5 page periodicIntervalMs s false)
      (fun done_ : bool => ret (if done_ then t <| ta_completed := ta_completed t + 1 |> else t)))
      (fun _ => ret (t <| ta_failed := ta_failed t + 1 |>)) e n w = (inr t1, n1, w1) /\ ta_claimed t1 = ta_claimed t /\
    0 <= ta_completed t1 - ta_completed t /\ 0 <= ta_failed t1 - ta_failed t /\
    (ta_completed t1 - ta_completed t) + (ta_failed t1 - ta_failed t) <= 1).
  { unfold catch, bind. destruct (reconcileObservedContacts _ _ _ _ _ _ _ e n w) as [[[f|[]] n1] w1]; cbn;
      eexists _, n1, w1; (split; [reflexivity|]); cbn; lia. }
  destruct Hone as (t1 & n1 & w1 & E & H1 & H2 & H3 & H4). destruct (IH t1 n1 w1) as (t' & n' & w' & E' & H1' & H2' & H3' & H4').
  exists t', n', w'. unfold bind at 1. rewrite E. split_and!; [exact E'|congruence|lia..].
Qed.

(** At most ten sessions a tick, each with its own outcome *)
Lemma run_tally enabled allowed e n w t n' w' : run cfg nfc md5 page periodicIntervalMs enabled allowed e n w = (inr (Some t), n', w') ->
  0 < ta_claimed t <= 10 /\ 0 <= ta_completed t /\ 0 <= ta_failed t /\ ta_completed t + ta_failed t <= ta_claimed t.
Proof.
  unfold run. destruct enabled; [|done]. cbn [negb]. intros (ids & n1 & w1 & E1 & E)%bind_ok. apply query_ok in E1 as (-> & -> & ->).
  set (ids := listPeriodicSessionIds _ _ _ _) in *.
  assert (Hl : (length ids <= 10)%nat) by (unfold ids, listPeriodicSessionIds; rewrite length_take; lia).
  apply bind_ok in E as (t1 & n2 & w2 & E2 & E).
  destruct (each_session_total ids (Tally (Z.of_nat (length ids)) 0 0) e (S n) (Service.between e n w)) as (t' & n3 & w3 & E3 & H1 & H2 & H3 & H4).
  rewrite E3 in E2. injection E2 as -> -> ->. destruct (Nat.ltb_spec 0 (length ids)); [|done]. injection E as <- _ _.
  cbn in H1, H2, H3, H4. lia.
Qed.

End Tick.

(** A session of two contacts, synchronised by itself *)
Definition small_listing (_ : nat) (_ : string) (n : nat) : upstream_error + list openwa_contact :=
  inr (match n with
       | O => [OpenWAContact "62811@c.us" "62811" (Some "Ann Lee") (Some "annie"); OpenWAContact "9000@lid" "62812" None (Some "bo")]
       | _ => []
       end).

Definition calm : env_over world := Env (fun n => 1000 + Z.of_nat n) (fun _ s => encode s) (fun _ w => w) (fun _ => None).

Definition first_sync := reconcileObservedContacts SnapshotLife.example_cfg id id small_listing 60000 "main" true calm 0%nat (World ∅ ∅).

Lemma first_sync_done : first_sync.1.1 = inr true.
Proof. vm_compute. reflexivity. Qed.


End ContactSync.
