(* ===== verification/Search.v ===== *)
(** * Searching and paging

    The paged lists of the repositories: a transaction that reads the rows of a predicate in
    an order, from an offset, and counts them ([LIMIT], [OFFSET], [count( * )]), and the
    search by [ILIKE] of an escaped text. *)

From S2P Require Import Prelude Schema.
From Stdlib Require Import Ascii.

Module Like.

Local Open Scope string_scope.

(** A pattern of LIKE: [%], [_], and a character for itself *)
Inductive token : Set := Any | One | Lit (c : Ascii.ascii).

(** [None]: the pattern ends with the escape character, which is an error. *)
Fixpoint tokens (pattern : string) : option (list token) :=
  match pattern with
  | EmptyString => Some []
  | String "\"%char (String c p) => cons (Lit c) <$> tokens p
  | String "\"%char EmptyString => None
  | String "%"%char p => cons Any <$> tokens p
  | String "_"%char p => cons One <$> tokens p
  | String c p => cons (Lit c) <$> tokens p
  end.

Section Fold.
(** The lower-case letter of a character, by the locale *)
Context (fold : Ascii.ascii -> Ascii.ascii).

Fixpoint matches (ts : list token) (s : string) : bool :=
  match ts with
  | [] => negb (truthy s)
  | Lit c :: ts' => match s with String x s' => Ascii.eqb (fold x) (fold c) && matches ts' s' | EmptyString => false end
  | One :: ts' => match s with String _ s' => matches ts' s' | EmptyString => false end
  | Any :: ts' =>
      (fix from (s : string) : bool :=
         matches ts' s || match s with String _ s' => from s' | EmptyString => false end) s
  end.

(** [text ILIKE pattern ESCAPE '\'] *)
Definition ilike (text pattern : string) : bool :=
  match tokens pattern with Some ts => matches ts text | None => false end.

(** A comparison with NULL is not true. *)
Definition ilike_opt (text : option string) (pattern : string) : bool :=
  match text with Some t => ilike t pattern | None => false end.

End Fold.

(** [query.replace(/[\\%_]/g, '\\$&')] *)
Fixpoint escape (q : string) : string :=
  match q with
  | EmptyString => EmptyString
  | String c q' => if mem c ["\"; "%"; "_"]%char then String "\"%char (String c (escape q')) else String c (escape q')
  end.

(** [`%${..}%`] *)
Definition containing (q : string) : string := "%" ++ escape q ++ "%".

(** [query?.trim()], and the pattern of a search that is not empty *)
Definition normalized (query : option string) : option string :=
  match trim <$> query with Some q => if truthy q then Some q else None | None => None end.

Definition searchPattern (query : option string) : option string := containing <$> normalized query.

(** *** The search is literal *)

Fixpoint map_chars (f : Ascii.ascii -> Ascii.ascii) (s : string) : string :=
  match s with String c s' => String (f c) (map_chars f s') | EmptyString => EmptyString end.

(** Some part of the text is the query, up to the case of letters. *)
Definition has_part (fold : Ascii.ascii -> Ascii.ascii) (q text : string) : Prop :=
  exists a m b, text = a ++ m ++ b /\ map_chars fold m = map_chars fold q.

Fixpoint literal (q : string) : list token :=
  match q with String c q' => Lit c :: literal q' | EmptyString => [] end.

Lemma tokens_escape q ts p : tokens p = Some ts -> tokens (escape q ++ p) = Some (literal q ++ ts)%list.
Proof.
  intros Hp. induction q as [|c q IH]; [done|]. cbn [escape literal].
  destruct (mem c _) eqn:E.
  - change ((String "\"%char (String c (escape q)) ++ p)) with (String "\"%char (String c (escape q ++ p))). cbn [tokens]. by rewrite IH.
  - change (String c (escape q) ++ p) with (String c (escape q ++ p)).
    assert (Hc : c <> "\"%char /\ c <> "%"%char /\ c <> "_"%char).
    { apply mem_false in E. rewrite !not_elem_of_cons in E. tauto. }
    destruct Hc as (H1 & H2 & H3). destruct c as [[] [] [] [] [] [] [] []]; cbn [tokens]; by rewrite ?IH.
Qed.

Lemma tokens_containing q : tokens (containing q) = Some (Any :: literal q ++ [Any])%list.
Proof.
  unfold containing. change ("%" ++ escape q ++ "%") with (String "%"%char (escape q ++ "%")). cbn [tokens].
  by rewrite (tokens_escape q [Any] "%").
Qed.

Section Literal.
Context (fold : Ascii.ascii -> Ascii.ascii).

Lemma matches_any ts s : matches fold (Any :: ts) s = true <-> exists a b, s = a ++ b /\ matches fold ts b = true.
Proof.
  cbn [matches]. induction s as [|c s IH].
  - rewrite orb_false_r. split; [intros H; by exists "", ""|]. by intros ([|] & [|] & E & H).
  - rewrite orb_true_iff, IH. split.
    + intros [H|(a & b & -> & H)]; [by exists "", (String c s)|by exists (String c a), b].
    + intros ([|x a] & b & E & H); [left; change ("" ++ b) with b in E; by rewrite E|right]. injection E as -> ->. by exists a, b.
Qed.

Lemma matches_literal q s : matches fold (literal q ++ [Any])%list s = true <->
  exists m b, s = m ++ b /\ map_chars fold m = map_chars fold q.
Proof.
  revert s. induction q as [|c q IH]; intros s.
  - change (literal "" ++ [Any])%list with [Any]. split; [intros _; by exists "", s|]. intros _. apply matches_any. exists s, "".
    split; [|done]. clear. by induction s as [|c s IH]; [|change (String c s ++ "") with (String c (s ++ "")); rewrite <- IH].
  - cbn [literal]. change (Lit c :: literal q ++ [Any])%list with ([Lit c] ++ literal q ++ [Any])%list. cbn. destruct s as [|x s].
    + split; [done|]. intros ([|] & b & E & H); done.
    + rewrite andb_true_iff, IH, Ascii.eqb_eq. split.
      * intros (Hx & m & b & -> & H). exists (String x m), b. split; [done|]. cbn. by rewrite Hx, H.
      * intros ([|y m] & b & E & H); [done|]. injection E as -> ->. cbn in H. injection H as H1 H2. split; [done|]. by exists m, b.
Qed.

Lemma ilike_containing q s : ilike fold s (containing q) = true <-> has_part fold q s.
Proof.
  unfold ilike. rewrite tokens_containing, matches_any. unfold has_part. split.
  - intros (a & b & -> & (m & b' & -> & H)%matches_literal). by exists a, m, b'.
  - intros (a & m & b & -> & H). exists a, (m ++ b). split; [done|]. apply matches_literal. by exists m, b.
Qed.

End Literal.
End Like.

(** ** Orders *)

(** [ORDER BY]: any two rows are comparable. *)
Class RowOrder {A : Type} (leb : A -> A -> bool) : Prop := {
  ro_total x y : leb x y = true \/ leb y x = true;
  ro_trans x y z : leb x y = true -> leb y z = true -> leb x z = true }.

(** By the first key, and by the second among equals *)
Definition then_by {A : Type} (first_ second : A -> A -> bool) (x y : A) : bool :=
  first_ x y && (negb (first_ y x) || second x y).

(** A column, ascending or descending *)
Definition asc {A B : Type} (leb : B -> B -> bool) (f : A -> B) (x y : A) : bool := leb (f x) (f y).
Definition desc {A B : Type} (leb : B -> B -> bool) (f : A -> B) (x y : A) : bool := leb (f y) (f x).

(** NULLS LAST *)
Definition nulls_last {B : Type} (leb : B -> B -> bool) (x y : option B) : bool :=
  match x, y with Some a, Some b => leb a b | _, None => true | None, Some _ => false end.

Definition bool_leb (x y : bool) : bool := negb x || y.

#[export] Instance then_by_order {A} (f s : A -> A -> bool) : RowOrder f -> RowOrder s -> RowOrder (then_by f s).
Proof.
  intros Hf Hs. unfold then_by. split.
  - intros x y. destruct (ro_total (leb := f) x y) as [E|E]; destruct (f y x) eqn:E1, (f x y) eqn:E2; try done; cbn; auto using ro_total.
  - intros x y z [H1 H2]%andb_true_iff [H3 H4]%andb_true_iff. apply andb_true_iff. split; [by eapply ro_trans|].
    destruct (f z x) eqn:E; [cbn|done]. rewrite (ro_trans z x y E H1) in H4. rewrite (ro_trans y z x H3 E) in H2.
    cbn in H2, H4. exact (ro_trans x y z H2 H4).
Qed.

#[export] Instance asc_order {A B} (leb : B -> B -> bool) (f : A -> B) : RowOrder leb -> RowOrder (asc leb f).
Proof. intros H. split; unfold asc; intros *; [apply ro_total|apply ro_trans]. Qed.

#[export] Instance desc_order {A B} (leb : B -> B -> bool) (f : A -> B) : RowOrder leb -> RowOrder (desc leb f).
Proof. intros H. split; unfold desc; intros *; [apply ro_total|]. intros H1 H2. by eapply ro_trans. Qed.

#[export] Instance nulls_last_order {B} (leb : B -> B -> bool) : RowOrder leb -> RowOrder (nulls_last leb).
Proof.
  intros H. split.
  - intros [x|] [y|]; cbn; first [by left|by right|apply ro_total].
  - intros [x|] [y|] [z|]; cbn; first [by intros|apply ro_trans].
Qed.

#[export] Instance text_order : RowOrder text_leb.
Proof. split; [apply text_leb_total|apply text_leb_trans]. Qed.

#[export] Instance Z_order : RowOrder Z.leb.
Proof. split; intros *; rewrite ?Z.leb_le, ?Pos.leb_le; lia. Qed.

#[export] Instance uuid_order : RowOrder Pos.leb.
Proof. split; intros *; rewrite ?Z.leb_le, ?Pos.leb_le; lia. Qed.

#[export] Instance bool_order : RowOrder bool_leb.
Proof. split; [intros [] []; cbn; auto|intros [] [] []; cbn; congruence]. Qed.

(** ** Pages *)

Module Paging.

Section Lists.
Context {K V : Type} `{Countable K} (P : K -> V -> bool) (leb : K * V -> K * V -> bool) (t : gmap K V).

(** SELECT .. WHERE P ORDER BY .. *)
Definition rows : list (K * V) := order_by leb (select_where P t).

(** .. LIMIT limit OFFSET offset *)
Definition data (limit offset : nat) : list (K * V) := take limit (drop offset rows).

(** SELECT count( * ) .. WHERE P *)
Definition total : Z := count_where P t.

Lemma rows_elem k v : (k, v) ∈ rows <-> t !! k = Some v /\ P k v = true.
Proof. unfold rows. by rewrite order_by_elem, select_where_elem. Qed.

Lemma rows_NoDup : NoDup rows.*1.
Proof. unfold rows. rewrite order_by_Permutation. apply select_where_NoDup. Qed.

Lemma rows_total : Z.of_nat (length rows) = total.
Proof. unfold rows, total, count_where. by rewrite order_by_Permutation. Qed.

Lemma rows_sorted `{!RowOrder leb} : StronglySorted (fun a b => Is_true (leb a b)) rows.
Proof.
  apply Sorted_StronglySorted; [|by apply order_by_sorted, ro_total].
  intros a b c. rewrite !Is_true_true. apply ro_trans.
Qed.

End Lists.

(** [n] pages of [limit] rows each, one after the other *)
Definition pages {A : Type} (limit : nat) (l : list A) (n : nat) : list (list A) :=
  map (fun i => take limit (drop (i * limit) l)) (seq 0 n).

Lemma pages_concat {A : Type} limit (l : list A) n : concat (pages limit l n) = take (n * limit) l.
Proof.
  unfold pages. induction n as [|n IH]; [done|]. rewrite seq_S, map_app, concat_app, IH. cbn. rewrite app_nil_r.
  rewrite take_take_drop. f_equal. lia.
Qed.

Lemma pages_all {A : Type} limit (l : list A) n : (length l <= n * limit)%nat -> concat (pages limit l n) = l.
Proof. intros Hn. rewrite pages_concat. by apply take_ge. Qed.

(** What a paged list promises: whatever the size of the pages, one after the other they are
    the rows of the predicate, each once and in order, and every page tells their number. *)
Definition whole {K V : Type} `{Countable K} (P : K -> V -> bool) (leb : K * V -> K * V -> bool) (t : gmap K V)
    (fetch : nat -> nat -> list (K * V) * Z) : Prop :=
  exists rows : list (K * V),
    NoDup rows.*1 /\ (forall k v, (k, v) ∈ rows <-> t !! k = Some v /\ P k v = true) /\
    StronglySorted (fun a b => Is_true (leb a b)) rows /\
    forall limit n : nat,
      (forall offset, (fetch limit offset).2 = Z.of_nat (length rows)) /\
      ((length rows <= n * limit)%nat -> concat (map (fun i => (fetch limit (i * limit)%nat).1) (seq 0 n)) = rows).

Lemma whole_list {K V : Type} `{Countable K} (P : K -> V -> bool) (leb : K * V -> K * V -> bool) `{!RowOrder leb} (t : gmap K V) :
  whole P leb t (fun limit offset => (data P leb t limit offset, total P t)).
Proof.
  exists (rows P leb t). split; [apply rows_NoDup|]. split; [apply rows_elem|]. split; [by apply rows_sorted|].
  intros limit n. split; [intros offset; cbn; by rewrite (rows_total P leb)|apply pages_all].
Qed.

End Paging.
