(* ===== verification/Listings.v ===== *)
(** * Paged lists

    The lists that the API shows: groups and their members
    ([src/src/modules/gateway/gateway-group-query.repository.ts], [group.service.ts]), saved
    group lists ([group-lists/group-list.repository.ts]), campaigns
    ([campaigns/campaign.repository.ts]), runs and deliveries
    ([campaign-run.repository.ts], [campaign-delivery.repository.ts]). *)

From S2P Require Import Prelude Schema SendPolicy Service Groups Campaigns CampaignRuns CampaignService CampaignRunService ContactSchema ContactProjection Search.

Import Like Paging.

Module Listings.

(** The columns of [gateway_groups] that only these lists show *)
Record group_columns := GroupColumns {
  gc_description : option string;
  gc_owner_id : option string;
  gc_linked_parent_id : option string;
  gc_settings_locked : option bool;
  gc_synced_at : timestamp;
  gc_member_dataset_revision : Z }.

Definition no_columns : group_columns := GroupColumns None None None None 0 0.

Record read_model := ReadModel {
  rm_db : db;
  rm_group_columns : gmap (string * string) group_columns;
  rm_contacts : Projection.fleet }.

Section Queries.
(** The lower-case letter of a character, and PostgreSQL's [lower] *)
Context (fold : Ascii.ascii -> Ascii.ascii) (lower : string -> string).
Context (readContactProjection : bool).

(** [$n::text IS NULL OR ..] *)
Definition searched (pattern : option string) (hit : string -> bool) : bool :=
  match pattern with None => true | Some p => hit p end.

(** [$n IS NULL OR x = ANY($n)] *)
Definition one_of {A : Type} `{EqDecision A} (wanted : option (list A)) (x : A) : bool :=
  match wanted with None => true | Some l => mem x l end.

(** *** Groups *)

Definition group_row : Type := gateway_group * group_columns.

Definition group_rows (r : read_model) : gmap (string * string) group_row :=
  map_imap (fun k g => Some (g, default no_columns (rm_group_columns r !! k))) (gateway_groups (rm_db r)).

(** [GroupCapabilityFreshnessFilter] *)
Inductive freshness : Set := CURRENT | STALE.
#[global] Instance freshness_eq_dec : EqDecision freshness.
Proof. solve_decision. Defined.

(** [GroupQueryDto] *)
Record group_query := GroupQuery {
  gq_sessionId : string;
  gq_query : option string;
  gq_capabilityStatus : option (list Capability.t);
  gq_capabilityFreshness : option (list freshness);
  gq_isActive : option bool;
  gq_minParticipants : option Z;
  gq_maxParticipants : option Z }.

(** A comparison of a column that may be NULL, if there is a bound *)
Definition bounded (bound : option Z) (column : option Z) (cmp : Z -> Z -> bool) : bool :=
  match bound with None => true | Some b => match column with Some c => cmp c b | None => false end end.

Definition group_found (q : group_query) (k : string * string) (g : group_row) : bool :=
  searched (searchPattern (gq_query q)) (fun p =>
    bool_decide (Some k.2 = normalized (gq_query q)) || ilike fold (gg_name g.1) p || ilike fold k.2 p
    || ilike_opt fold (gc_description g.2) p).

Definition group_predicate (q : group_query) (k : string * string) (g : group_row) : bool :=
  bool_decide (k.1 = gq_sessionId q) && eqb (gg_is_active g.1) (default true (gq_isActive q))
  && group_found q k g
  && one_of (gq_capabilityStatus q) (gg_send_capability g.1)
  && match gq_capabilityFreshness q with
     | None => true
     | Some l => mem CURRENT l && is_null (gg_capability_invalidated_at g.1)
                 || mem STALE l && negb (is_null (gg_capability_invalidated_at g.1))
     end
  && bounded (gq_minParticipants q) (gg_participants_count g.1) (fun c b => (b <=? c)%Z)
  && bounded (gq_maxParticipants q) (gg_participants_count g.1) (fun c b => (c <=? b)%Z).

(** ORDER BY name ASC, id ASC *)
Definition group_order : (string * string) * group_row -> (string * string) * group_row -> bool :=
  then_by (asc text_leb (fun x => gg_name x.2.1)) (asc text_leb (fun x => x.1.2)).

Definition list_groups (q : group_query) (limit offset : nat) (r : read_model) : list ((string * string) * group_row) * Z :=
  let t := group_rows r in
  (data (group_predicate q) group_order t limit offset, total (group_predicate q) t).

Definition find_group (sessionId groupId : string) (activeOnly : bool) (r : read_model) : option group_row :=
  match group_rows r !! (sessionId, groupId) with
  | Some g => if negb activeOnly || gg_is_active g.1 then Some g else None
  | None => None
  end.

(** *** Members *)

Definition projected (m : group_member) : bool :=
  readContactProjection && (0 <? sw_projection_revision (gm_shadow m))%Z.

Definition member_name (m : group_member) : option string :=
  if projected m then sw_display_name (gm_shadow m) else gm_display_name m.

Definition member_phone (m : group_member) : option string :=
  if projected m then sw_resolved_phone_number (gm_shadow m) else gm_resolved_phone_number m.

Definition member_source (m : group_member) : option shadow_source :=
  if projected m then sw_display_name_source (gm_shadow m) else Observed <$> gm_display_name_source m.

Definition member_sort_value (m : group_member) : option string :=
  if projected m then sw_sort_value (gm_shadow m) else Some (lower (default (gm_phone_number m) (gm_display_name m))).

(** [GroupMemberDto] *)
Record member_dto := MemberDto {
  md_participantId : string;
  md_phoneNumber : string;
  md_displayName : option string;
  md_identityType : option IdentityType.t;
  md_resolvedPhoneNumber : option string;
  md_displayNameSource : option shadow_source;
  md_projectionRevision : Z;
  md_isAdmin : bool;
  md_isSuperAdmin : bool }.

Definition mapMember (k : string * string) (m : group_member) : member_dto :=
  MemberDto k.2 (gm_phone_number m) (member_name m) (gm_identity_type m) (member_phone m) (member_source m)
    (if projected m then sw_projection_revision (gm_shadow m) else 0) (gm_is_admin m) (gm_is_super_admin m).

Definition member_predicate (groupId : string) (query : option string) (k : string * string) (m : group_member) : bool :=
  bool_decide (k.1 = groupId)
  && searched (searchPattern query) (fun p =>
       ilike_opt fold (member_name m) p || ilike_opt fold (member_phone m) p
       || ilike fold (gm_phone_number m) p || ilike fold k.2 p).

(** ORDER BY is_super_admin DESC, is_admin DESC, .. ASC, participant_id ASC *)
Definition member_order : (string * string) * group_member -> (string * string) * group_member -> bool :=
  then_by (desc bool_leb (fun x => gm_is_super_admin x.2)) (then_by (desc bool_leb (fun x => gm_is_admin x.2))
    (then_by (asc (nulls_last text_leb) (fun x => member_sort_value x.2)) (asc text_leb (fun x => x.1.2)))).

Definition list_members (sessionId groupId : string) (limit offset : nat) (query : option string) (r : read_model)
    : list ((string * string) * group_member) * Z * Z :=
  let t := group_members (Projection.tables (rm_contacts r) sessionId) in
  (data (member_predicate groupId query) member_order t limit offset, total (member_predicate groupId query) t,
   if readContactProjection
   then default 0%Z (gc_member_dataset_revision ∘ snd <$> group_rows r !! (sessionId, groupId)) else 0%Z).

(** *** Saved lists, campaigns, runs and deliveries *)

(** ORDER BY updated_at DESC, id ASC *)
Definition latest_first {V : Type} (at_ : V -> timestamp) : uuid * V -> uuid * V -> bool :=
  then_by (desc Z.leb (fun x => at_ x.2)) (asc Pos.leb fst).

Definition group_list_predicate (sessionId : string) (query : option string) (_ : uuid) (l : group_list) : bool :=
  bool_decide (gl_session_id l = sessionId) && is_null (gl_archived_at l)
  && searched (searchPattern query) (fun p => ilike fold (gl_name l) p || ilike fold (default "" (gl_description l)) p).

Definition list_group_lists (sessionId : string) (query : option string) (limit offset : nat) (d : db) : list (uuid * group_list) * Z :=
  (data (group_list_predicate sessionId query) (latest_first gl_updated_at) (group_lists d) limit offset,
   total (group_list_predicate sessionId query) (group_lists d)).

(** [getMembership] *)
Definition getMembership (id : uuid) (d : db) : option (group_list * list (string * gateway_group)) :=
  match group_lists d !! id with
  | Some l => if is_null (gl_archived_at l) then Some (l, GroupListRepo.listGroups lower id d) else None
  | None => None
  end.

Record campaign_query := CampaignQuery {
  cq_allowedSessionIds : list string;
  cq_sessionId : option string;
  cq_query : option string;
  cq_exactCampaignId : option uuid;
  cq_statuses : option (list CampaignStatus.t);
  cq_scheduleTypes : option (list ScheduleType.t) }.

(** [list?.length ? list : null] *)
Definition nonempty {A : Type} (l : option (list A)) : option (list A) :=
  match l with Some (_ :: _) => l | _ => None end.

Definition campaign_predicate (q : campaign_query) (id : uuid) (c : campaign) : bool :=
  mem (c_session_id c) (match cq_sessionId q with
                        | Some s => if truthy s then [s] else cq_allowedSessionIds q
                        | None => cq_allowedSessionIds q
                        end)
  && is_null (c_deleted_at c)
  && searched (searchPattern (cq_query q)) (fun p => ilike fold (c_name c) p || bool_decide (cq_exactCampaignId q = Some id))
  && one_of (nonempty (cq_statuses q)) (c_status c)
  && one_of (nonempty (cq_scheduleTypes q)) (c_schedule_type c).

Definition list_campaigns (q : campaign_query) (limit offset : nat) (d : db) : list (uuid * campaign) * Z :=
  (data (campaign_predicate q) (latest_first c_updated_at) (campaigns d) limit offset, total (campaign_predicate q) (campaigns d)).

Definition run_predicate (campaignId : uuid) (_ : uuid) (r : campaign_run) : bool := bool_decide (cr_campaign_id r = campaignId).

Definition listByCampaign (campaignId : uuid) (limit offset : nat) (d : db) : list (uuid * campaign_run) * Z :=
  (data (run_predicate campaignId) (latest_first cr_created_at) (campaign_runs d) limit offset,
   total (run_predicate campaignId) (campaign_runs d)).

(** A delivery joined with its run target *)
Definition delivery_rows (d : db) : gmap (uuid * string) (delivery * string) :=
  map_imap (fun k cd => (fun rt => (cd, rt_group_name rt)) <$> campaign_run_targets d !! k) (campaign_deliveries d).

(** ORDER BY cd.created_at, cd.id *)
Definition delivery_order : (uuid * string) * (delivery * string) -> (uuid * string) * (delivery * string) -> bool :=
  then_by (asc Z.leb (fun x => cd_created_at x.2.1)) (asc Pos.leb (fun x => cd_id x.2.1)).

Definition list_deliveries (runId : uuid) (limit offset : nat) (d : db) : list ((uuid * string) * (delivery * string)) * Z :=
  (data (fun k _ => bool_decide (k.1 = runId)) delivery_order (delivery_rows d) limit offset,
   count_where (fun k _ => bool_decide (k.1 = runId)) (campaign_deliveries d)).

(** *** [GroupService] *)

Section Service.
Context (cfg : config).

Definition lserv (A : Type) : Type := serv_over read_model A.

Definition visible (sessionId : string) : lserv unit :=
  match SessionScope.assertVisible cfg sessionId with Some e => throw (Exception_ e) | None => ret tt end.

Definition group_not_found : failure := Exception_ (NotFound "Group not found").

Definition range_invalid : failure :=
  Refused HttpStatus.BAD_REQUEST "GROUP_FILTER_PARTICIPANTS_RANGE_INVALID" "Participant count filter range is invalid.".

Definition groups (q : group_query) (limit offset : nat) : lserv (list ((string * string) * group_row) * Z) :=
  let! _ := visible (gq_sessionId q) in
  assert! match gq_minParticipants q, gq_maxParticipants q with Some lo, Some hi => (lo <=? hi)%Z | _, _ => true end
    else range_invalid in
  query (fun _ r => list_groups q limit offset r).

Definition found_group (sessionId groupId : string) (activeOnly : bool) : lserv group_row :=
  let! g := query (fun _ r => find_group sessionId groupId activeOnly r) in
  match g with Some g => ret g | None => throw group_not_found end.

Definition get (sessionId groupId : string) : lserv group_row :=
  let! _ := visible sessionId in found_group sessionId groupId false.

Definition members (sessionId groupId : string) (limit offset : nat) (q : option string) : lserv (list member_dto * Z * Z) :=
  let! _ := visible sessionId in
  let! _ := found_group sessionId groupId false in
  let! m := query (fun _ r => list_members sessionId groupId limit offset q r) in
  ret (map (fun x => mapMember x.1 x.2) m.1.1, m.1.2, m.2).

Definition refreshCapability (sessionId groupId : string) : lserv unit :=
  let! _ := visible sessionId in
  let! _ := found_group sessionId groupId true in
  let! _ := await (fun now _ r =>
    let '(ok, d) := CapabilityRepo.invalidate now sessionId groupId CapabilityReason.MANUAL_REFRESH (rm_db r) in
    (ok, ReadModel d (rm_group_columns r) (rm_contacts r))) in
  ret tt.

(** [GroupListService.list] *)
Definition saved_lists (sessionId : string) (q : option string) (limit offset : nat) : lserv (list (uuid * group_list) * Z) :=
  let! _ := visible sessionId in
  query (fun _ r => list_group_lists sessionId (normalized q) limit offset (rm_db r)).

(** [CampaignService.list] *)
Definition campaigns_page (isUUID : string -> option uuid) (sessionId q : option string)
    (statuses : option (list CampaignStatus.t)) (scheduleTypes : option (list ScheduleType.t)) (limit offset : nat)
    : lserv (list (uuid * campaign) * Z) :=
  let! _ := match sessionId with
            | Some s => if truthy s
                        then match SessionScope.assertAllowed cfg s with Some e => throw (Exception_ e) | None => ret tt end
                        else ret tt
            | None => ret tt
            end in
  query (fun _ r => list_campaigns (CampaignQuery (OPENWA_ALLOWED_SESSION_IDS cfg) sessionId (normalized q)
           (match normalized q with Some t => isUUID t | None => None end) statuses scheduleTypes) limit offset (rm_db r)).

(** [CampaignRunService.list] and [deliveries] *)
Definition runs_page (campaignId : uuid) (limit offset : nat) : serv (list (uuid * campaign_run) * Z) :=
  let! _ := CampaignService.get cfg campaignId in
  query (fun _ d => listByCampaign campaignId limit offset d).

Definition deliveries_page (runId : uuid) (limit offset : nat) : serv (list ((uuid * string) * (delivery * string)) * Z) :=
  let! _ := RunService.get cfg runId in
  query (fun _ d => list_deliveries runId limit offset d).

End Service.

(** *** What a search finds *)

Lemma found_literal (o : option string) pattern (Hp : searchPattern o = Some pattern) :
  exists text, normalized o = Some text /\
    (forall s, ilike fold s pattern = true <-> has_part fold text s) /\
    (forall s, ilike_opt fold s pattern = true <-> exists d, s = Some d /\ has_part fold text d).
Proof.
  unfold searchPattern in Hp. destruct (normalized o) as [text|]; [|done]. injection Hp as <-. exists text.
  split; [done|]. split; [intros s; apply ilike_containing|]. intros [s|]; cbn; [rewrite ilike_containing|].
  - split; [intros H; by exists s|by intros (d & [= ->] & H)].
  - by split; [|intros (d & ? & _)].
Qed.

(** A search is for the text itself.  Whatever [%], [_] or backslash the query holds, a
    group is found by a query that is not blank exactly when the trimmed query is its id, or
    is a part of its name, its id or its description up to the case of letters; a member when
    it is a part of the name or the phone shown, of the number or of the id; a saved list when
    it is a part of the name or the description; and a blank query finds everything. *)
Theorem search_is_literal (query : option string) (text : string) (Hq : normalized query = Some text) :
  (forall q k g, gq_query q = query ->
     group_found q k g = true <->
     (k.2 = text \/ has_part fold text (gg_name g.1) \/ has_part fold text k.2 \/
      exists d, gc_description g.2 = Some d /\ has_part fold text d)) /\
  (forall groupId k m,
     member_predicate groupId query k m = true <->
     k.1 = groupId /\ ((exists d, member_name m = Some d /\ has_part fold text d) \/
       (exists d, member_phone m = Some d /\ has_part fold text d) \/
       has_part fold text (gm_phone_number m) \/ has_part fold text k.2)) /\
  (forall sessionId id l,
     group_list_predicate sessionId query id l = true <->
     gl_session_id l = sessionId /\ gl_archived_at l = None /\
     (has_part fold text (gl_name l) \/ has_part fold text (default "" (gl_description l)))) /\
  (forall q k g blank, gq_query q = blank -> normalized blank = None -> group_found q k g = true).
Proof.
  assert (Hp : searchPattern query = Some (containing text)) by (unfold searchPattern; by rewrite Hq).
  destruct (found_literal query _ Hp) as (text' & Et & Hi & Ho). rewrite Hq in Et. injection Et as <-. split_and!.
  - intros q k g <-. unfold group_found, searched. rewrite Hp, !orb_true_iff, !Hi, Ho, bool_decide_eq_true, Hq.
    split; [intros [[[[= ->]|?]|?]|?]; tauto|]. intros [->|[?|[?|?]]]; tauto.
  - intros groupId k m. unfold member_predicate, searched. rewrite Hp, andb_true_iff, !orb_true_iff, !Hi, !Ho, bool_decide_eq_true. tauto.
  - intros sessionId id l. unfold group_list_predicate, searched.
    rewrite Hp, !andb_true_iff, orb_true_iff, !Hi, bool_decide_eq_true. destruct (gl_archived_at l); cbn; intuition congruence.
  - intros q k g blank <- Hb. unfold group_found, searchPattern. by rewrite Hb.
Qed.

(** *** Pages *)

#[local] Instance group_order_laws : RowOrder group_order.
Proof. unfold group_order. apply _. Qed.

#[local] Instance member_order_laws : RowOrder member_order.
Proof. unfold member_order. apply _. Qed.

#[local] Instance latest_first_laws {V} (at_ : V -> timestamp) : RowOrder (latest_first at_).
Proof. unfold latest_first. apply _. Qed.

#[local] Instance delivery_order_laws : RowOrder delivery_order.
Proof. unfold delivery_order. apply _. Qed.

(** With its foreign key every delivery is joined with its target. *)
Lemma delivery_rows_all d (P : uuid * string -> bool) :
  (forall k cd, campaign_deliveries d !! k = Some cd -> is_Some (campaign_run_targets d !! k)) ->
  count_where (fun k _ => P k) (campaign_deliveries d) = total (fun k _ => P k) (delivery_rows d).
Proof.
  intros Hfk. unfold total, count_where. f_equal.
  assert (Hperm : (select_where (fun k _ => P k) (campaign_deliveries d)).*1 ≡ₚ (select_where (fun k _ => P k) (delivery_rows d)).*1).
  { apply NoDup_Permutation; [apply select_where_NoDup..|]. intros k. rewrite !list_elem_of_fmap. split.
    - intros ([k' cd] & -> & [Hk HP]%select_where_elem). destruct (Hfk k' cd Hk) as [rt Hrt].
      exists (k', (cd, rt_group_name rt)). split; [done|]. apply select_where_elem. split; [|done].
      unfold delivery_rows. by rewrite map_lookup_imap, Hk, Hrt.
    - intros ([k' x] & -> & [Hk HP]%select_where_elem). unfold delivery_rows in Hk. rewrite map_lookup_imap in Hk.
      destruct (campaign_deliveries d !! k') as [cd|] eqn:E; [|done]. exists (k', cd). split; [done|]. by apply select_where_elem. }
  apply Permutation_length in Hperm. by rewrite !length_fmap in Hperm.
Qed.

(** Paging loses nothing.  Whatever the page size, the pages of groups, members, saved
    lists, campaigns, runs and deliveries, one after the other, are the rows of the filter,
    each exactly once and in the order asked for, and each page tells how many there are. *)
Theorem pages_are_whole (r : read_model)
    (Hfk : forall k cd, campaign_deliveries (rm_db r) !! k = Some cd -> is_Some (campaign_run_targets (rm_db r) !! k)) :
  let d := rm_db r in
  (forall q, whole (group_predicate q) group_order (group_rows r) (fun limit offset => list_groups q limit offset r)) /\
  (forall sessionId groupId query,
     whole (member_predicate groupId query) member_order (group_members (Projection.tables (rm_contacts r) sessionId))
       (fun limit offset => (list_members sessionId groupId limit offset query r).1)) /\
  (forall sessionId query, whole (group_list_predicate sessionId query) (latest_first gl_updated_at) (group_lists d)
     (fun limit offset => list_group_lists sessionId query limit offset d)) /\
  (forall q, whole (campaign_predicate q) (latest_first c_updated_at) (campaigns d) (fun limit offset => list_campaigns q limit offset d)) /\
  (forall id, whole (run_predicate id) (latest_first cr_created_at) (campaign_runs d) (fun limit offset => listByCampaign id limit offset d)) /\
  (forall id, whole (fun k _ => bool_decide (k.1 = id)) delivery_order (delivery_rows d)
     (fun limit offset => list_deliveries id limit offset d)).
Proof.
  cbn zeta. split_and!; intros *; try apply (whole_list _ _).
  unfold list_deliveries. rewrite (delivery_rows_all (rm_db r) (fun k => bool_decide (k.1 = id)) Hfk). apply (whole_list _ _).
Qed.

End Queries.

(** Two groups, one of which is named after a percentage *)
Definition example_group (name : string) : gateway_group :=
  GatewayGroup name (Some 12%Z) (Some true) (Some false) (Some false) true (Some 0%Z) Capability.ALLOWED
    CapabilityReason.SEND_ALLOWED (Some 0%Z) None 1 0 0 None None None.

Definition example_model : read_model :=
  ReadModel (empty_db <| gateway_groups := {[ ("main", "1@g.us") := example_group "Sale 100% today"; ("main", "2@g.us") := example_group "Sale 1000 today" ]} |>)
    ∅ ∅.

Definition percent : group_query := GroupQuery "main" (Some " 100% ") None None None None None.

Lemma search_is_literal_witness :
  normalized (Some " 100% ") = Some "100%" /\
  group_found id percent ("main", "1@g.us") (example_group "Sale 100% today", no_columns) = true /\
  group_found id percent ("main", "2@g.us") (example_group "Sale 1000 today", no_columns) = false.
Proof.
  split; [reflexivity|]. destruct (search_is_literal id id false (Some " 100% ") "100%" eq_refl) as (H & _). split.
  - apply (H percent); [reflexivity|]. right. left. exists "Sale ", "100%", " today". by split.
  - vm_compute. reflexivity.
Defined.

Lemma pages_are_whole_witness : exists rows : list ((string * string) * group_row),
  length rows = 2%nat /\
  (list_groups id (GroupQuery "main" None None None None None None) 1 0 example_model).1 ++
  (list_groups id (GroupQuery "main" None None None None None None) 1 1 example_model).1 = rows.
Proof.
  assert (Hfk : forall k cd, campaign_deliveries (rm_db example_model) !! k = Some cd -> is_Some (campaign_run_targets (rm_db example_model) !! k))
    by (intros k cd; cbn; by rewrite lookup_empty).
  destruct (pages_are_whole id id false example_model Hfk) as (H & _).
  destruct (H (GroupQuery "main" None None None None None None)) as (rows & _ & _ & _ & Hr).
  destruct (Hr 1%nat 2%nat) as [Ht Hc]. exists rows. assert (Hl : Z.of_nat (length rows) = 2%Z) by (rewrite <- (Ht 0%nat); vm_compute; reflexivity).
  split; [lia|]. rewrite <- Hc by lia. cbn [seq map concat]. by rewrite app_nil_r.
Defined.

End Listings.
