(* ===== verification/Cleanup.v ===== *)
(** * The cleanup of every table

    [src/src/modules/orchestration/data-retention.tick.ts] as a whole: the statements on the
    event ledger, the inbox, the webhooks, the sync runs and the contact observations beside
    those of [Retention], one batch of them all, and the loop over batches under its limits.
    The clock of the loop, the locks of other transactions and what they write between two
    batches are arguments. *)

From S2P Require Import Prelude Schema GatewaySchema WebhookSchema Retention ContactSchema ContactIdentity Relational ContactEvidence ContactStore ContactProjection ContactBatches.

Module Cleanup.

Local Open Scope Z_scope.

Record store := Store { so_db : wdb; so_contacts : Projection.fleet }.
#[export] Instance store_eta : Eta store := fun s => Store (so_db s) (so_contacts s).

(** The rows that another transaction holds, by table *)
Record locks := Locks {
  lk_runs : uuid -> bool;
  lk_jobs : uuid -> bool;
  lk_inbound : string * string -> bool;
  lk_events : string -> bool;
  lk_webhooks : string -> bool;
  lk_syncs : uuid -> bool;
  lk_observations : string * (NameSource.t * string) -> bool }.

Definition no_locks : locks :=
  Locks (fun _ => false) (fun _ => false) (fun _ => false) (fun _ => false) (fun _ => false) (fun _ => false) (fun _ => false).

(** ORDER BY .., .. LIMIT n over some rows *)
Definition oldest {A I : Type} (at_ : A -> timestamp) (id : A -> I) (id_leb : I -> I -> bool) (limit : nat) (rows : list A) : list A :=
  take limit (order_by (fun a b => (at_ a <? at_ b) || (at_ a =? at_ b) && id_leb (id a) (id b)) rows).

(** *** Inbox and ledger *)

Definition old_inbound (cutoff : timestamp) (_ : string * string) (m : inbound_message) : bool := im_created_at m <? cutoff.

Definition inbound_candidates (cutoff : timestamp) (limit : nat) (lk : locks) (d : wdb) : list string :=
  map (fun r => im_event_id r.2) (oldest (fun r => im_created_at r.2) (fun r => im_event_id r.2) text_leb limit
    (select_where (fun k m => old_inbound cutoff k m && negb (lk_inbound lk k)) (inbound_messages d))).

Definition of_events (events : list string) (m : inbound_message) : bool := mem (im_event_id m) events.

Definition deleteInboundMessages (cutoff : timestamp) (limit : nat) (lk : locks) (d : wdb) : Z * wdb :=
  let events := inbound_candidates cutoff limit lk d in
  (count_where (fun _ m => of_events events m) (inbound_messages d),
   d <| inbound_messages := delete_where (fun _ m => of_events events m) (inbound_messages d) |>).

Definition old_event (cutoff : timestamp) (_ : string) (e : ledger_event) : bool := le_created_at e <? cutoff.

Definition event_candidates (cutoff : timestamp) (limit : nat) (lk : locks) (d : wdb) : list string :=
  (oldest (fun r => le_created_at r.2) fst text_leb limit
    (select_where (fun k e => old_event cutoff k e && negb (lk_events lk k)) (runtime_events d))).*1.

(** What refers to the events goes with them: message events and inbound messages by the
    statement, observation intents by ON DELETE CASCADE. *)
Definition deleteRuntimeEvents (cutoff : timestamp) (limit : nat) (lk : locks) (d : wdb) : Z * wdb :=
  let events := event_candidates cutoff limit lk d in
  (Z.of_nat (length events),
   d <| message_events := delete_where (fun k _ => mem k events) (message_events d) |>
     <| inbound_messages := delete_where (fun _ m => of_events events m) (inbound_messages d) |>
     <| observation_intents := delete_where (fun k _ => mem k events) (observation_intents d) |>
     <| runtime_events := delete_where (fun k _ => mem k events) (runtime_events d) |>).

(** *** Webhooks and sync runs *)

(** COALESCE(processed_at, received_at) *)
Definition settled_at (w : webhook_event) : timestamp := default (we_received_at w) (we_processed_at w).

Definition old_webhook (cutoff : timestamp) (_ : string) (w : webhook_event) : bool :=
  mem (we_processing_state w) [ProcessingState.PROCESSED; ProcessingState.DEAD] && (settled_at w <? cutoff).

Definition webhook_candidates (cutoff : timestamp) (limit : nat) (lk : locks) (d : wdb) : list string :=
  (oldest (fun r => settled_at r.2) (fun r => we_id r.2) Pos.leb limit
    (select_where (fun k w => old_webhook cutoff k w && negb (lk_webhooks lk k)) (webhook_events d))).*1.

Definition deleteWebhookEvents (cutoff : timestamp) (limit : nat) (lk : locks) (d : wdb) : Z * wdb :=
  let keys := webhook_candidates cutoff limit lk d in
  (Z.of_nat (length keys), d <| webhook_events := delete_where (fun k _ => mem k keys) (webhook_events d) |>).

Definition old_sync (cutoff : timestamp) (_ : uuid) (r : sync_run) : bool :=
  mem (sr_status r) [SyncStatus.COMPLETED; SyncStatus.FAILED] && before (sr_completed_at r) cutoff.

Definition sync_candidates (cutoff : timestamp) (limit : nat) (lk : locks) (g : gdb) : list uuid :=
  (oldest (fun r => default 0 (sr_completed_at r.2)) fst Pos.leb limit
    (select_where (fun k r => old_sync cutoff k r && negb (lk_syncs lk k)) (sync_runs g))).*1.

(** The items follow by ON DELETE CASCADE. *)
Definition deleteSyncRuns (cutoff : timestamp) (limit : nat) (lk : locks) (g : gdb) : Z * gdb :=
  let ids := sync_candidates cutoff limit lk g in
  (Z.of_nat (length ids),
   g <| sync_runs := delete_where (fun k _ => mem k ids) (sync_runs g) |>
     <| gateway_sync_items := delete_where (fun _ i => mem (si_sync_run_id i) ids) (gateway_sync_items g) |>).

(** *** Contact observations *)

Abbreviation observation_key := (NameSource.t * string)%type.

Definition is_push (k : observation_key) (o : name_observation) : bool :=
  bool_decide (k.1 = NameSource.OPENWA_PUSH_NAME) && is_null (no_source_generation o).

(** (source_observed_at, source_observation_key, id) > (..) *)
Definition newer (a b : observation_key * name_observation) : bool :=
  (no_source_observed_at b.2 <? no_source_observed_at a.2)
  || (no_source_observed_at b.2 =? no_source_observed_at a.2)
     && (Names.text_ltb b.1.2 a.1.2 || bool_decide (b.1.2 = a.1.2) && (no_id b.2 <? no_id a.2)%positive).

Definition superseded (d : contact_tables) (k : observation_key) (o : name_observation) : bool :=
  exists_where (fun k' o' => bool_decide (no_identity_id o' = no_identity_id o) && is_push k' o' && newer (k', o') (k, o))
    (contact_observations d).

(** A resolution or a projection of the session is under way. *)
Definition in_use (d : contact_tables) : bool :=
  exists_where (fun _ r => mem (rn_status r) [ResolutionStatus.PENDING; ResolutionStatus.RUNNING; ResolutionStatus.RETRY]) (resolution_runs d)
  || exists_where (fun _ w => mem (pw_status w) [WorkStatus.PENDING; WorkStatus.RUNNING; WorkStatus.RETRY]) (contact_projection_work d).

Definition names_cluster (d : contact_tables) (o : name_observation) : bool :=
  exists_where (fun _ c => match rc_name c with Some n => bool_decide (n.1 = no_id o) | None => false end) (resolved_clusters d).

Definition redundant (cutoff : timestamp) (d : contact_tables) (k : observation_key) (o : name_observation) : bool :=
  is_push k o && (no_created_at o <? cutoff) && superseded d k o && negb (in_use d) && negb (names_cluster d o).

Definition redundant_rows (cutoff : timestamp) (lk : locks) (f : Projection.fleet) : list ((string * observation_key) * name_observation) :=
  flat_map (fun sd => map (fun ko => ((sd.1, ko.1), ko.2))
    (select_where (fun k o => redundant cutoff sd.2 k o && negb (lk_observations lk (sd.1, k))) (contact_observations sd.2))) (map_to_list f).

Definition observation_candidates (cutoff : timestamp) (limit : nat) (lk : locks) (f : Projection.fleet)
    : list (string * observation_key) :=
  (oldest (fun r => no_created_at r.2) (fun r => no_id r.2) Pos.leb limit (redundant_rows cutoff lk f)).*1.

Definition deleteRedundantContactObservations (cutoff : timestamp) (limit : nat) (lk : locks) (f : Projection.fleet)
    : Z * Projection.fleet :=
  let keys := observation_candidates cutoff limit lk f in
  (Z.of_nat (length keys),
   map_imap (fun s d => Some (d <| contact_observations := delete_where (fun k _ => mem (s, k) keys) (contact_observations d) |>)) f).

(** *** One batch, and the loop *)

(** The retention of [RuntimeConfig], in days *)
Record retention_config := RetentionConfig {
  RUNTIME_RETENTION_DAYS : Z;
  RUNTIME_EVENT_RETENTION_DAYS : Z;
  RUNTIME_INBOX_RETENTION_DAYS : Z;
  RUNTIME_RAW_WEBHOOK_RETENTION_DAYS : Z;
  CONTACT_MESSAGE_OBSERVATION_RETENTION_DAYS : Z }.

Definition day_ms : Z := 86400000.

(** How many rows of each table a batch deleted *)
Record counts := Counts {
  campaignRuns : Z; messageJobs : Z; inboundMessages : Z; runtimeEvents : Z;
  webhookEvents : Z; syncRuns : Z; contactObservations : Z }.

Definition no_counts : counts := Counts 0 0 0 0 0 0 0.

Definition add_counts (a b : counts) : counts :=
  Counts (campaignRuns a + campaignRuns b) (messageJobs a + messageJobs b) (inboundMessages a + inboundMessages b)
    (runtimeEvents a + runtimeEvents b) (webhookEvents a + webhookEvents b) (syncRuns a + syncRuns b)
    (contactObservations a + contactObservations b).

(** [Object.values(current).every(count => count < limit)] *)
Definition all_below (limit : nat) (c : counts) : bool :=
  forallb (fun n => n <? Z.of_nat limit)
    [campaignRuns c; messageJobs c; inboundMessages c; runtimeEvents c; webhookEvents c; syncRuns c; contactObservations c].

Definition batch (cfg : retention_config) (now : timestamp) (limit : nat) (lk : locks) (s : store) : counts * store :=
  let ago days := now - days * day_ms in
  let operational := ago (RUNTIME_RETENTION_DAYS cfg) in
  let g0 := gateway (so_db s) in
  let runs := Retention.deleteCampaignRuns operational limit (lk_runs lk) (core g0) in
  let jobs := Retention.deleteMessageJobs operational limit (lk_jobs lk) runs.2 in
  let inbound := deleteInboundMessages (ago (RUNTIME_INBOX_RETENTION_DAYS cfg)) limit lk (so_db s) in
  let events := deleteRuntimeEvents (ago (RUNTIME_EVENT_RETENTION_DAYS cfg)) limit lk inbound.2 in
  let webhooks := deleteWebhookEvents (ago (RUNTIME_RAW_WEBHOOK_RETENTION_DAYS cfg)) limit lk events.2 in
  let syncs := deleteSyncRuns operational limit lk g0 in
  let observations := deleteRedundantContactObservations (ago (CONTACT_MESSAGE_OBSERVATION_RETENTION_DAYS cfg)) limit lk (so_contacts s) in
  let g := syncs.2 in
  let w := webhooks.2 in
  (Counts runs.1 jobs.1 inbound.1 events.1 webhooks.1 syncs.1 observations.1,
   Store (w <| gateway := g <| core := jobs.2 |> |>) observations.2).

(** [RetentionResult] *)
Record result := Result { rs_deleted : counts; rs_batches : nat; rs_capacityExhausted : bool }.

Section Loop.
Context (cfg : retention_config) (now : timestamp) (limit : nat) (timeBudgetMs : Z).
(** At the [i]-th round: the time since the start, the rows locked, and what the other
    transactions have written before *)
Context (elapsed : nat -> Z) (locked : nat -> locks) (between : nat -> store -> store).

(** The rounds that are left, the number of the next one, and the totals *)
Fixpoint rounds (left i : nat) (total : counts) (s : store) : result * store :=
  match left with
  | O => (Result total i true, s)
  | S left' =>
      if timeBudgetMs <=? elapsed i then (Result total i true, s)
      else
        let '(current, s1) := batch cfg now limit (locked i) (between i s) in
        let total' := add_counts total current in
        if all_below limit current then (Result total' (S i) false, s1)
        else rounds left' (S i) total' s1
  end.

Definition cleanup (maxBatches : nat) (s : store) : result * store := rounds maxBatches 0 no_counts s.

End Loop.

(** *** A batch that is not full leaves nothing *)

Lemma oldest_elem {A I : Type} (at_ : A -> timestamp) (id : A -> I) id_leb limit rows x :
  x ∈ oldest at_ id id_leb limit rows -> x ∈ rows.
Proof. unfold oldest. intros Hx%take_elem. by rewrite order_by_elem in Hx. Qed.

Lemma oldest_short {A I : Type} (at_ : A -> timestamp) (id : A -> I) id_leb limit rows x :
  (length (oldest at_ id id_leb limit rows) < limit)%nat -> x ∈ rows -> x ∈ oldest at_ id id_leb limit rows.
Proof.
  unfold oldest. rewrite length_take. intros Hn Hx. rewrite take_ge by lia. by rewrite order_by_elem.
Qed.

Lemma candidates_short {V : Type} (at_ : V -> timestamp) P cutoff limit (t : gmap uuid V) id v :
  (length (Retention.candidates at_ P cutoff limit (fun _ => false) t) < limit)%nat ->
  t !! id = Some v -> P id v = true -> at_ v < cutoff -> id ∈ Retention.candidates at_ P cutoff limit (fun _ => false) t.
Proof.
  unfold Retention.candidates. rewrite length_fmap, length_take. intros Hn Hv HP Hc. apply list_elem_of_fmap. exists (id, v).
  split; [done|]. rewrite take_ge by lia. rewrite order_by_elem. apply select_where_elem. split; [done|]. cbn.
  rewrite HP. cbn. rewrite andb_true_r. by apply Z.ltb_lt.
Qed.

(** The rows of a table that are old and not locked are all taken by a batch that is not full. *)
Lemma old_rows_taken {K V I : Type} `{Countable K} (old : K -> V -> bool) (at_ : K * V -> timestamp) (id : K * V -> I) id_leb limit (t : gmap K V) k v :
  (length (oldest at_ id id_leb limit (select_where (fun k v => old k v && negb false) t)).*1 < limit)%nat ->
  t !! k = Some v -> old k v = true -> k ∈ (oldest at_ id id_leb limit (select_where (fun k v => old k v && negb false) t)).*1.
Proof.
  rewrite length_fmap. intros Hn Hv Ho. apply list_elem_of_fmap. exists (k, v). split; [done|]. apply oldest_short; [done|].
  apply select_where_elem. split; [done|]. by rewrite Ho.
Qed.

Lemma inbound_counted cutoff limit lk d :
  Z.of_nat (length (inbound_candidates cutoff limit lk d)) <= (deleteInboundMessages cutoff limit lk d).1.
Proof.
  unfold deleteInboundMessages. cbn [fst]. unfold count_where. apply Nat2Z.inj_le. unfold inbound_candidates at 1.
  rewrite length_map. set (rows := oldest _ _ _ _ _). apply submseteq_length, NoDup_submseteq.
  - unfold rows, oldest. eapply NoDup_fmap_1. rewrite fmap_take.
    assert (Hn : NoDup (order_by (fun a b : (string * string) * inbound_message => (im_created_at a.2 <? im_created_at b.2)
      || (im_created_at a.2 =? im_created_at b.2) && text_leb (im_event_id a.2) (im_event_id b.2))
      (select_where (fun k m => old_inbound cutoff k m && negb (lk_inbound lk k)) (inbound_messages d))).*1)
      by (rewrite order_by_Permutation; apply select_where_NoDup).
    rewrite <- (take_drop limit) in Hn. by apply NoDup_app in Hn as [? _].
  - intros [k m] Hin. assert (Hev : im_event_id m ∈ inbound_candidates cutoff limit lk d).
    { unfold inbound_candidates. fold rows. apply list_elem_of_fmap. by exists (k, m). }
    apply oldest_elem, select_where_elem in Hin as [Hm _]. apply select_where_elem. split; [done|]. by apply mem_true.
Qed.

(** No row is left that the cleanup is for. *)
Record spotless (cfg : retention_config) (now : timestamp) (s : store) : Prop := Spotless {
  sp_runs id r : campaign_runs (core (gateway (so_db s))) !! id = Some r -> cr_status r ∈ Retention.ended ->
    now - RUNTIME_RETENTION_DAYS cfg * day_ms <= cr_updated_at r;
  sp_jobs id j : message_jobs (core (gateway (so_db s))) !! id = Some j -> mj_status j ∈ Retention.decided ->
    Retention.referenced (core (gateway (so_db s))) id = false -> now - RUNTIME_RETENTION_DAYS cfg * day_ms <= mj_updated_at j;
  sp_inbound k m : inbound_messages (so_db s) !! k = Some m -> now - RUNTIME_INBOX_RETENTION_DAYS cfg * day_ms <= im_created_at m;
  sp_events k e : runtime_events (so_db s) !! k = Some e -> now - RUNTIME_EVENT_RETENTION_DAYS cfg * day_ms <= le_created_at e;
  sp_webhooks k w : webhook_events (so_db s) !! k = Some w ->
    old_webhook (now - RUNTIME_RAW_WEBHOOK_RETENTION_DAYS cfg * day_ms) k w = false;
  sp_syncs id r : sync_runs (gateway (so_db s)) !! id = Some r -> old_sync (now - RUNTIME_RETENTION_DAYS cfg * day_ms) id r = false;
  sp_observations session d k o : so_contacts s !! session = Some d -> contact_observations d !! k = Some o ->
    redundant (now - CONTACT_MESSAGE_OBSERVATION_RETENTION_DAYS cfg * day_ms) d k o = false }.

(** A row that was not deleted was no candidate. *)
Lemma kept {K V : Type} `{Countable K} (keys : list K) (t : gmap K V) k v :
  delete_where (fun k _ => mem k keys) t !! k = Some v <-> t !! k = Some v /\ k ∉ keys.
Proof. by rewrite delete_where_Some, mem_false. Qed.

(** Fewer observations make fewer redundant. *)
Lemma redundant_fewer cutoff (P : observation_key -> bool) d k o :
  let d' := d <| contact_observations := delete_where (fun k _ => P k) (contact_observations d) |> in
  redundant cutoff d' k o = true -> redundant cutoff d k o = true.
Proof.
  cbn zeta. unfold redundant. rewrite !andb_true_iff. intros ((((H1 & H2) & H3) & H4) & H5). split_and!; try done.
  unfold superseded in *. apply exists_where_true in H3 as (k' & o' & Hk & Ho). apply exists_where_true.
  exists k', o'. split; [|done]. by apply delete_where_Some in Hk as [? _].
Qed.

Lemma redundant_rows_elem cutoff lk f s k o : ((s, k), o) ∈ redundant_rows cutoff lk f <->
  exists d, f !! s = Some d /\ contact_observations d !! k = Some o /\ redundant cutoff d k o = true /\ lk_observations lk (s, k) = false.
Proof.
  unfold redundant_rows. rewrite list_elem_of_In, in_flat_map. split.
  - intros ([s' d] & Hd%list_elem_of_In%elem_of_map_to_list & Hin%list_elem_of_In). apply list_elem_of_fmap in Hin as ([k' o'] & E & Hin).
    cbn in E. injection E as -> -> ->. apply select_where_elem in Hin as [Ho Hb]. cbn in Hb. apply andb_true_iff in Hb as [Hb Hl%negb_true_iff].
    by exists d.
  - intros (d & Hd & Ho & Hb & Hl). exists (s, d). rewrite <- !list_elem_of_In. split; [by apply elem_of_map_to_list|].
    apply list_elem_of_fmap. exists (k, o). split; [done|]. apply select_where_elem. split; [done|]. cbn. by rewrite Hb, Hl.
Qed.

(** Table by table *)

Lemma runs_clean cutoff limit d id r : (Retention.deleteCampaignRuns cutoff limit (fun _ => false) d).1 < Z.of_nat limit ->
  campaign_runs (Retention.deleteCampaignRuns cutoff limit (fun _ => false) d).2 !! id = Some r ->
  cr_status r ∈ Retention.ended -> cutoff <= cr_updated_at r.
Proof.
  cbn. intros Hn [Hr Hk]%kept Hs. destruct (Z.le_gt_cases cutoff (cr_updated_at r)) as [|Hlt]; [done|]. destruct Hk.
  unfold Retention.run_candidates in *. apply (candidates_short _ _ _ _ _ _ r); [lia|done|by apply mem_true|done].
Qed.

Lemma jobs_clean cutoff limit d id j : (Retention.deleteMessageJobs cutoff limit (fun _ => false) d).1 < Z.of_nat limit ->
  message_jobs (Retention.deleteMessageJobs cutoff limit (fun _ => false) d).2 !! id = Some j ->
  mj_status j ∈ Retention.decided -> Retention.referenced d id = false -> cutoff <= mj_updated_at j.
Proof.
  cbn. intros Hn [Hj Hk]%kept Hs Href. destruct (Z.le_gt_cases cutoff (mj_updated_at j)) as [|Hlt]; [done|]. destruct Hk.
  unfold Retention.job_candidates in *. apply (candidates_short _ _ _ _ _ _ j); [lia|done| |done].
  apply andb_true_iff. split; [by apply mem_true|by rewrite Href].
Qed.

Lemma inbound_clean cutoff limit d k m : (deleteInboundMessages cutoff limit no_locks d).1 < Z.of_nat limit ->
  inbound_messages (deleteInboundMessages cutoff limit no_locks d).2 !! k = Some m -> cutoff <= im_created_at m.
Proof.
  intros Hn Hm. pose proof (inbound_counted cutoff limit no_locks d) as Hc.
  apply (delete_where_Some (fun _ m => of_events (inbound_candidates cutoff limit no_locks d) m)) in Hm as [Hm Hk].
  destruct (Z.le_gt_cases cutoff (im_created_at m)) as [|Hlt]; [done|]. apply mem_false in Hk. destruct Hk.
  apply list_elem_of_fmap. exists (k, m). split; [done|]. apply oldest_short.
  - unfold inbound_candidates in Hc. rewrite length_map in Hc. lia.
  - apply select_where_elem. split; [done|]. unfold old_inbound. cbn. rewrite andb_true_r. by apply Z.ltb_lt.
Qed.

Lemma events_clean cutoff limit d k e : (deleteRuntimeEvents cutoff limit no_locks d).1 < Z.of_nat limit ->
  runtime_events (deleteRuntimeEvents cutoff limit no_locks d).2 !! k = Some e -> cutoff <= le_created_at e.
Proof.
  intros Hn [He Hk]%kept. destruct (Z.le_gt_cases cutoff (le_created_at e)) as [|Hlt]; [done|]. destruct Hk.
  refine (old_rows_taken (old_event cutoff) _ _ _ limit _ k e _ He _); [by apply Nat2Z.inj_lt|by apply Z.ltb_lt].
Qed.

Lemma webhooks_clean cutoff limit d k w : (deleteWebhookEvents cutoff limit no_locks d).1 < Z.of_nat limit ->
  webhook_events (deleteWebhookEvents cutoff limit no_locks d).2 !! k = Some w -> old_webhook cutoff k w = false.
Proof.
  intros Hn [Hw Hk]%kept. apply not_true_iff_false. intros Ho. destruct Hk.
  refine (old_rows_taken (old_webhook cutoff) _ _ _ limit _ k w _ Hw Ho). by apply Nat2Z.inj_lt.
Qed.

Lemma syncs_clean cutoff limit g id r : (deleteSyncRuns cutoff limit no_locks g).1 < Z.of_nat limit ->
  sync_runs (deleteSyncRuns cutoff limit no_locks g).2 !! id = Some r -> old_sync cutoff id r = false.
Proof.
  intros Hn [Hr Hk]%kept. apply not_true_iff_false. intros Ho. destruct Hk.
  refine (old_rows_taken (old_sync cutoff) _ _ _ limit _ id r _ Hr Ho). by apply Nat2Z.inj_lt.
Qed.

(** The tables of a session after the observations [keys] are deleted *)
Definition without (keys : list (string * observation_key)) (s : string) (d : contact_tables) : contact_tables :=
  d <| contact_observations := delete_where (fun k _ => mem (s, k) keys) (contact_observations d) |>.

Lemma observations_after cutoff limit lk f s d' :
  (deleteRedundantContactObservations cutoff limit lk f).2 !! s = Some d' ->
  exists d, f !! s = Some d /\ d' = without (observation_candidates cutoff limit lk f) s d.
Proof. cbn. rewrite map_lookup_imap. destruct (f !! s) as [d|]; [|done]. intros [= <-]. by exists d. Qed.

Lemma observations_clean cutoff limit f s d' k o : (deleteRedundantContactObservations cutoff limit no_locks f).1 < Z.of_nat limit ->
  (deleteRedundantContactObservations cutoff limit no_locks f).2 !! s = Some d' -> contact_observations d' !! k = Some o ->
  redundant cutoff d' k o = false.
Proof.
  intros Hn (d & Hd & ->)%observations_after Ho. apply not_true_iff_false. intros Hr%redundant_fewer.
  apply delete_where_Some in Ho as [Ho Hk]. apply mem_false in Hk. destruct Hk. cbn in Hn. unfold observation_candidates in *.
  rewrite length_fmap in Hn. apply list_elem_of_fmap. exists ((s, k), o). split; [done|]. apply oldest_short; [lia|].
  apply redundant_rows_elem. by exists d.
Qed.

(** A batch, statement by statement *)
Lemma batch_steps cfg now limit lk s c s' : batch cfg now limit lk s = (c, s') ->
  let ago days := now - days * day_ms in
  let core0 := core (gateway (so_db s)) in
  let r1 := Retention.deleteCampaignRuns (ago (RUNTIME_RETENTION_DAYS cfg)) limit (lk_runs lk) core0 in
  let r2 := Retention.deleteMessageJobs (ago (RUNTIME_RETENTION_DAYS cfg)) limit (lk_jobs lk) r1.2 in
  let r3 := deleteInboundMessages (ago (RUNTIME_INBOX_RETENTION_DAYS cfg)) limit lk (so_db s) in
  let r4 := deleteRuntimeEvents (ago (RUNTIME_EVENT_RETENTION_DAYS cfg)) limit lk r3.2 in
  let r5 := deleteWebhookEvents (ago (RUNTIME_RAW_WEBHOOK_RETENTION_DAYS cfg)) limit lk r4.2 in
  let r6 := deleteSyncRuns (ago (RUNTIME_RETENTION_DAYS cfg)) limit lk (gateway (so_db s)) in
  let r7 := deleteRedundantContactObservations (ago (CONTACT_MESSAGE_OBSERVATION_RETENTION_DAYS cfg)) limit lk (so_contacts s) in
  c = Counts r1.1 r2.1 r3.1 r4.1 r5.1 r6.1 r7.1 /\
  core (gateway (so_db s')) = r2.2 /\ inbound_messages (so_db s') = inbound_messages r4.2 /\
  runtime_events (so_db s') = runtime_events r4.2 /\ message_events (so_db s') = message_events r4.2 /\
  observation_intents (so_db s') = observation_intents r4.2 /\ webhook_events (so_db s') = webhook_events r5.2 /\
  sync_runs (gateway (so_db s')) = sync_runs r6.2 /\ gateway_sync_items (gateway (so_db s')) = gateway_sync_items r6.2 /\
  so_contacts s' = r7.2.
Proof.
  cbn zeta. intros E. apply (f_equal fst) in E as E1. apply (f_equal snd) in E as E2. cbn [fst snd] in E1, E2. rewrite <- E1, <- E2.
  by split_and!.
Qed.

Lemma batch_spotless cfg now limit s c s' : batch cfg now limit no_locks s = (c, s') -> all_below limit c = true ->
  spotless cfg now s'.
Proof.
  intros E Hb. apply batch_steps in E. cbn zeta in E.
  destruct E as (-> & E1 & E2 & E3 & _ & _ & E6 & E7 & _ & E9).
  unfold all_below in Hb. cbn [forallb campaignRuns messageJobs inboundMessages runtimeEvents webhookEvents syncRuns contactObservations] in Hb.
  rewrite !andb_true_iff, !Z.ltb_lt in Hb. destruct Hb as (B1 & B2 & B3 & B4 & B5 & B6 & B7 & _). split.
  - intros id r. rewrite E1. cbn [no_locks lk_runs lk_jobs] in *. intros Hr. eapply runs_clean; [exact B1|exact Hr].
  - intros id j. rewrite E1. intros Hj Hs Href. eapply jobs_clean; [exact B2|exact Hj|done|exact Href].
  - intros k m. rewrite E2. intros Hm. apply delete_where_Some in Hm as [Hm _]. eapply inbound_clean; [exact B3|exact Hm].
  - intros k e. rewrite E3. intros He. eapply events_clean; [exact B4|exact He].
  - intros k w. rewrite E6. intros Hw. eapply webhooks_clean; [exact B5|exact Hw].
  - intros id r. rewrite E7. intros Hr. eapply syncs_clean; [exact B6|exact Hr].
  - intros session d k o. rewrite E9. intros Hd Ho. eapply observations_clean; [exact B7|exact Hd|exact Ho].
Qed.

(** *** The loop *)

Section Drained.
Context (cfg : retention_config) (now : timestamp) (limit : nat) (timeBudgetMs : Z).
Context (elapsed : nat -> Z) (locked : nat -> locks) (between : nat -> store -> store).

Abbreviation rounds := (rounds cfg now limit timeBudgetMs elapsed locked between).

Lemma rounds_spec left i total s r s' : rounds left i total s = (r, s') ->
  (i <= rs_batches r <= i + left)%nat /\
  (if rs_capacityExhausted r then rs_batches r = (i + left)%nat \/ timeBudgetMs <= elapsed (rs_batches r)
   else exists s0 c, batch cfg now limit (locked (pred (rs_batches r))) s0 = (c, s') /\ all_below limit c = true).
Proof.
  revert i total s. induction left as [|left IH]; intros i total s; cbn [Cleanup.rounds].
  - intros [= <- <-]. cbn. split; [lia|]. left. lia.
  - destruct (timeBudgetMs <=? elapsed i) eqn:Et; [intros [= <- <-]; cbn; split; [lia|]; right; by apply Z.leb_le|].
    destruct (batch cfg now limit (locked i) (between i s)) as [current s1] eqn:Eb. destruct (all_below limit current) eqn:Ea.
    + intros [= <- <-]. cbn. split; [lia|]. exists (between i s), current. by split.
    + intros [H1 H2]%IH. split; [lia|]. destruct (rs_capacityExhausted r); [|done]. destruct H2 as [H2|H2]; [left; lia|by right].
Qed.


End Drained.

(** *** What a batch keeps *)

Lemma newer_first a b : newer a b = true -> Evidence.newest_first b a = false.
Proof.
  unfold newer, Evidence.newest_first, Names.text_ltb. intros [H|H]%orb_true_iff.
  - apply Z.ltb_lt in H. destruct (Z.eqb_spec (no_source_observed_at b.2) (no_source_observed_at a.2)); [lia|]. apply Z.ltb_ge. lia.
  - apply andb_true_iff in H as [Et H]. apply Z.eqb_eq in Et. rewrite Et, Z.eqb_refl.
    apply orb_true_iff in H as [H|[Hk Hi]%andb_true_iff].
    + rewrite bool_decide_false; [by apply negb_true_iff in H|]. intros E. rewrite E in H. by destruct (text_leb_total a.1.2 a.1.2) as [F|F]; rewrite F in H.
    + rewrite Hk. apply Pos.ltb_lt in Hi. apply Pos.leb_gt. lia.
Qed.

(** Two push names of one rank are one row. *)
Lemma first_unique a b : a.1.1 = b.1.1 -> Evidence.newest_first a b = true -> Evidence.newest_first b a = true -> a.1 = b.1.
Proof.
  destruct a as [[s k] o], b as [[s' k'] o']. cbn. intros <-. unfold Evidence.newest_first. cbn.
  destruct (Z.eqb_spec (no_source_observed_at o) (no_source_observed_at o')) as [Et|Et].
  - rewrite Et, Z.eqb_refl. destruct (decide (k = k')) as [->|Hk]; [done|].
    rewrite !bool_decide_false by congruence. intros H1 H2. by destruct Hk; apply text_leb_antisym.
  - destruct (Z.eqb_spec (no_source_observed_at o') (no_source_observed_at o)); [congruence|]. intros H1%Z.ltb_lt H2%Z.ltb_lt. lia.
Qed.

(** The rows that are looked at for a push name *)
Definition push_rows (cutoff : timestamp) (of_ : uuid -> bool) (d : contact_tables) : list (observation_key * name_observation) :=
  select_where (fun k o => bool_decide (k.1 = NameSource.OPENWA_PUSH_NAME) && of_ (no_identity_id o) && (no_created_at o <=? cutoff))
    (contact_observations d).

Lemma push_rows_elem cutoff of_ d k o : (k, o) ∈ push_rows cutoff of_ d <->
  contact_observations d !! k = Some o /\ k.1 = NameSource.OPENWA_PUSH_NAME /\ of_ (no_identity_id o) = true /\ no_created_at o <= cutoff.
Proof. unfold push_rows. rewrite select_where_elem, !andb_true_iff, bool_decide_eq_true, Z.leb_le. tauto. Qed.

Lemma push_name_kept cutoff of_ d d' :
  (forall k o, contact_observations d' !! k = Some o -> contact_observations d !! k = Some o) ->
  (forall k o, contact_observations d !! k = Some o -> contact_observations d' !! k = None -> superseded d k o = true) ->
  (forall k o, contact_observations d !! k = Some o -> k.1 = NameSource.OPENWA_PUSH_NAME -> no_created_at o <= cutoff) ->
  Projection.push_name cutoff of_ d' = Projection.push_name cutoff of_ d.
Proof.
  intros Hsub Hdel Hall. unfold Projection.push_name. fold (push_rows cutoff of_ d'). fold (push_rows cutoff of_ d). f_equal.
  assert (Hin : forall x, x ∈ push_rows cutoff of_ d' -> x ∈ push_rows cutoff of_ d).
  { intros [k o]. rewrite !push_rows_elem. intros (Ho & H). by split; [apply Hsub|]. }
  destruct (head (order_by Evidence.newest_first (push_rows cutoff of_ d))) as [[k o]|] eqn:E.
  - pose proof (head_Some_elem_of _ _ E) as Hx. rewrite order_by_elem in Hx. apply push_rows_elem in Hx as Hx'.
    destruct Hx' as (Ho & Hk & Hof & Hc).
    assert (Hx' : (k, o) ∈ push_rows cutoff of_ d').
    { apply push_rows_elem. split; [|done]. destruct (contact_observations d' !! k) as [o'|] eqn:Eo; [by rewrite <- Ho; symmetry; apply Hsub|].
      exfalso. pose proof (Hdel k o Ho Eo) as Hs. apply exists_where_true in Hs as (k' & o' & Ho' & Hb).
      apply andb_true_iff in Hb as [[Hi Hp]%andb_true_iff Hn]. apply bool_decide_eq_true in Hi. apply andb_true_iff in Hp as [Hp _].
      apply bool_decide_eq_true in Hp. apply newer_first in Hn.
      assert (Hy : (k', o') ∈ push_rows cutoff of_ d) by (apply push_rows_elem; rewrite Hi; split_and!; [done..|by apply (Hall k' o')]).
      pose proof (order_by_head Evidence.newest_first _ _ _ Batches.newest_total Batches.newest_trans E Hy). congruence. }
    destruct (head (order_by Evidence.newest_first (push_rows cutoff of_ d'))) as [[k2 o2]|] eqn:E2.
    + pose proof (head_Some_elem_of _ _ E2) as Hy. rewrite order_by_elem in Hy. apply push_rows_elem in Hy as Hy'. destruct Hy' as (Ho2 & Hk2 & _).
      pose proof (order_by_head Evidence.newest_first _ _ _ Batches.newest_total Batches.newest_trans E (Hin _ Hy)) as H1.
      pose proof (order_by_head Evidence.newest_first _ _ _ Batches.newest_total Batches.newest_trans E2 Hx') as H2.
      assert (Ek : k = k2) by (apply (first_unique (k, o) (k2, o2)); [cbn; congruence|done|done]). subst k2. apply Hsub in Ho2. congruence.
    + apply head_None in E2. rewrite <- (order_by_elem Evidence.newest_first), E2 in Hx'. by apply not_elem_of_nil in Hx'.
  - apply head_None in E. destruct (head (order_by Evidence.newest_first (push_rows cutoff of_ d'))) as [x|] eqn:E2; [|done].
    apply head_Some_elem_of in E2. rewrite order_by_elem in E2. apply Hin in E2. rewrite <- (order_by_elem Evidence.newest_first), E in E2.
    by apply not_elem_of_nil in E2.
Qed.

(** The foreign keys of the tables that a batch deletes from *)
Record store_refs (s : store) : Prop := StoreRefs {
  rf_core : Retention.refs_ok (core (gateway (so_db s)));
  rf_inbound k m : inbound_messages (so_db s) !! k = Some m -> is_Some (runtime_events (so_db s) !! im_event_id m);
  rf_message k m : message_events (so_db s) !! k = Some m -> is_Some (runtime_events (so_db s) !! k);
  rf_intent k o : observation_intents (so_db s) !! k = Some o -> is_Some (runtime_events (so_db s) !! k);
  rf_item id i : gateway_sync_items (gateway (so_db s)) !! id = Some i -> is_Some (sync_runs (gateway (so_db s)) !! si_sync_run_id i) }.

Lemma still_there {K V : Type} `{Countable K} (keys : list K) (t : gmap K V) k : is_Some (t !! k) -> k ∉ keys ->
  is_Some (delete_where (fun k _ => mem k keys) t !! k).
Proof. intros [v Hv] Hk. exists v. by apply kept. Qed.

Lemma batch_refs cfg now limit lk s c s' : batch cfg now limit lk s = (c, s') -> store_refs s -> store_refs s'.
Proof.
  intros E [R1 R2 R3 R4 R5]. apply batch_steps in E. cbn zeta in E. destruct E as (_ & E1 & E2 & E3 & E4 & E5 & _ & E7 & E8 & _). split.
  - rewrite E1. by apply Retention.deleteMessageJobs_refs, Retention.deleteCampaignRuns_refs.
  - intros k m. rewrite E2, E3. intros [Hm Hk]%delete_where_Some. apply mem_false in Hk. apply delete_where_Some in Hm as [Hm _].
    apply still_there; [by apply (R2 k m)|done].
  - intros k m. rewrite E4, E3. intros [Hm Hk]%kept. apply still_there; [by apply (R3 k m)|done].
  - intros k o. rewrite E5, E3. intros [Ho Hk]%kept. apply still_there; [by apply (R4 k o)|done].
  - intros id i. rewrite E8, E7. intros [Hi Hk]%delete_where_Some. apply mem_false in Hk. apply still_there; [by apply (R5 id i)|done].
Qed.

(** A key that is deleted is that of an old row. *)
Lemma oldest_old {K V I : Type} `{Countable K} (P : K -> V -> bool) (at_ : K * V -> timestamp) (id : K * V -> I) id_leb limit (t : gmap K V) k v :
  k ∈ (oldest at_ id id_leb limit (select_where P t)).*1 -> t !! k = Some v -> P k v = true.
Proof.
  intros ([k' v'] & E & Hin%oldest_elem)%list_elem_of_fmap Hv. cbn in E. subst k'. apply select_where_elem in Hin as [Hv' HP]. congruence.
Qed.

Lemma deleted_redundant cutoff limit lk f s k o d : (s, k) ∈ observation_candidates cutoff limit lk f -> f !! s = Some d ->
  contact_observations d !! k = Some o -> redundant cutoff d k o = true.
Proof.
  intros ([[s' k'] o'] & E & Hin%oldest_elem)%list_elem_of_fmap Hd Ho. cbn in E. injection E as <- <-.
  apply redundant_rows_elem in Hin as (d' & Hd' & Ho' & Hr & _). congruence.
Qed.

(** The cleanup deletes nothing that counts.  Whatever rows are locked, a batch deletes
    only webhooks that are settled and sync runs that have ended, and leaves no row that
    refers to a deleted one.  Of the observations of a session that is being resolved or
    projected it deletes none; it never deletes one that names a cluster; and the push name
    that any set of identities shows, with any cutoff that admits what is stored, is after the
    batch what it was before. *)
Theorem cleanup_keeps_what_counts (cfg : retention_config) (now : timestamp) (limit : nat) (lk : locks) (s s' : store) (c : counts)
    (H : batch cfg now limit lk s = (c, s')) :
  (store_refs s -> store_refs s') /\
  (forall k w, webhook_events (so_db s) !! k = Some w -> webhook_events (so_db s') !! k = Some w \/
     (webhook_events (so_db s') !! k = None /\ we_processing_state w ∈ [ProcessingState.PROCESSED; ProcessingState.DEAD])) /\
  (forall id r, sync_runs (gateway (so_db s)) !! id = Some r -> sync_runs (gateway (so_db s')) !! id = Some r \/
     (sync_runs (gateway (so_db s')) !! id = None /\ sr_status r ∈ [SyncStatus.COMPLETED; SyncStatus.FAILED])) /\
  (forall session d, so_contacts s !! session = Some d -> exists d', so_contacts s' !! session = Some d' /\
     (in_use d = true -> contact_observations d' = contact_observations d) /\
     (forall k o, contact_observations d !! k = Some o -> names_cluster d o = true -> contact_observations d' !! k = Some o) /\
     (forall cutoff of_, (forall k o, contact_observations d !! k = Some o -> k.1 = NameSource.OPENWA_PUSH_NAME -> no_created_at o <= cutoff) ->
        Projection.push_name cutoff of_ d' = Projection.push_name cutoff of_ d)).
Proof.
  pose proof H as E. apply batch_steps in E. cbn zeta in E. destruct E as (_ & _ & _ & _ & _ & _ & E6 & E7 & _ & E9).
  split; [by eapply batch_refs|]. split; [|split].
  - intros k w Hw. rewrite E6. cbn. rewrite lookup_delete_where, Hw. destruct (mem k _) eqn:Em; [right|by left]. split; [done|].
    apply mem_true in Em. pose proof (oldest_old _ _ _ _ _ _ _ _ Em Hw) as [Ho _]%andb_true_iff. apply andb_true_iff in Ho as [Ho _]. by apply mem_true.
  - intros id r Hr. rewrite E7. cbn. rewrite lookup_delete_where, Hr. destruct (mem id _) eqn:Em; [right|by left]. split; [done|].
    apply mem_true in Em. pose proof (oldest_old _ _ _ _ _ _ _ _ Em Hr) as [Ho _]%andb_true_iff. apply andb_true_iff in Ho as [Ho _]. by apply mem_true.
  - intros session d Hd. rewrite E9. cbn [snd deleteRedundantContactObservations]. rewrite map_lookup_imap, Hd. cbn. eexists. split; [done|].
    set (keys := observation_candidates _ _ _ _).
    assert (Hdel : forall k o, contact_observations d !! k = Some o -> mem (session, k) keys = true ->
      superseded d k o = true /\ in_use d = false /\ names_cluster d o = false).
    { intros k o Ho Hk%mem_true. pose proof (deleted_redundant _ _ _ _ _ _ _ _ Hk Hd Ho) as Hr. unfold redundant in Hr.
      rewrite !andb_true_iff, !negb_true_iff in Hr. tauto. }
    split; [|split].
    + intros Hu. cbn. apply map_eq. intros k. rewrite lookup_delete_where. destruct (contact_observations d !! k) as [o|] eqn:Ho; [|done].
      destruct (mem (session, k) keys) eqn:Em; [|done]. destruct (Hdel k o Ho Em) as (_ & Hu' & _). congruence.
    + intros k o Ho Hn. cbn. rewrite lookup_delete_where, Ho. destruct (mem (session, k) keys) eqn:Em; [|done].
      destruct (Hdel k o Ho Em) as (_ & _ & Hn'). congruence.
    + intros cutoff of_ Hall. apply push_name_kept; [| |done].
      * intros k o. cbn. intros Ho. by apply delete_where_Some in Ho as [? _].
      * intros k o Ho. cbn. rewrite lookup_delete_where, Ho. destruct (mem (session, k) keys) eqn:Em; [|done]. intros _. by apply (Hdel k o).
Qed.

(** Two names that a sender was seen with: the older one goes. *)
Definition seen (id : uuid) (name : string) (at_ : timestamp) : name_observation := NameObservation id 1 None name None at_ at_.

Definition two_names : store :=
  Store empty_wdb {[ "main" := empty_contacts <| contact_observations :=
    {[ (NameSource.OPENWA_PUSH_NAME, "a") := seen 5 "Ann" 1000; (NameSource.OPENWA_PUSH_NAME, "b") := seen 6 "Annie" 2000 ]} |> ]}.

Definition week : retention_config := RetentionConfig 90 30 30 7 30.

Definition later : timestamp := 31 * day_ms.

Definition cleaned : result * store := cleanup week later 100 240000 (fun _ => 0) (fun _ => no_locks) (fun _ s => s) 10 two_names.


Lemma rows_created cutoff s session d : so_contacts s !! session = Some d ->
  forallb (fun ko => no_created_at ko.2 <=? cutoff)
    (map_to_list (default ∅ (contact_observations <$> so_contacts s !! session))) = true ->
  forall k o, contact_observations d !! k = Some o -> no_created_at o <= cutoff.
Proof.
  intros -> Hf k o Ho%elem_of_map_to_list%list_elem_of_In. rewrite forallb_forall in Hf. apply Hf in Ho. by apply Z.leb_le in Ho.
Qed.

Lemma last_name session d : so_contacts two_names !! session = Some d -> session = "main" ->
  Projection.push_name 5000 (fun _ => true) d = Some "Annie".
Proof.
  intros Hd ->. transitivity (so_contacts two_names !! "main" ≫= Projection.push_name 5000 (fun _ => true)); [by rewrite Hd|].
  vm_compute. reflexivity.
Qed.

Lemma cleanup_keeps_what_counts_witness : exists d', so_contacts cleaned.2 !! "main" = Some d' /\
  Projection.push_name 5000 (fun _ => true) d' = Some "Annie".
Proof.
  pose (b := batch week later 100 no_locks two_names).
  assert (Eb : batch week later 100 no_locks two_names = (b.1, b.2)) by apply surjective_pairing.
  destruct (cleanup_keeps_what_counts week later 100 no_locks two_names b.2 b.1 Eb) as (_ & _ & _ & H).
  destruct (so_contacts two_names !! "main") as [d|] eqn:Ed; [|by vm_compute in Ed].
  destruct (H "main" d Ed) as (d' & Hd' & _ & _ & Hp). exists d'. split.
  - rewrite <- Hd'. vm_compute. reflexivity.
  - rewrite Hp; [by apply (last_name "main")|]. intros k o Ho _. by apply (rows_created 5000 two_names "main" d Ed eq_refl k).
Defined.

End Cleanup.
