(* ===== verification/Rely.v ===== *)
(** * What a call does when the others keep to a rule

    [R] relates a state to those that follow it.  When the other clients only take such
    steps between the awaits of a call ([relies]), a call all of whose statements do
    ([within]) takes only such steps too, wherever it stops. *)

From S2P Require Import Prelude Schema Service.

Section Rely.
Context {St : Type} (R : St -> St -> Prop) `{HR : PreOrder St R}.

Definition relies (e : env_over St) : Prop := forall n w, R w (between e n w).

Definition within {A : Type} (m : serv_over St A) : Prop := forall e n w r n' w',
  relies e -> m e n w = (r, n', w') -> R w w'.

Lemma within_ret {A} (a : A) : within (ret a).
Proof. by intros e n w r n' w' _ [= _ _ <-]. Qed.

Lemma within_throw {A} f : within (throw (A := A) f).
Proof. by intros e n w r n' w' _ [= _ _ <-]. Qed.

(** What follows a completed call may use what the call established. *)
Lemma within_bind_post {A B} (m : serv_over St A) (k : A -> serv_over St B) : within m ->
  (forall e n w a n1 w1, relies e -> m e n w = (inr a, n1, w1) -> forall r n' w', k a e n1 w1 = (r, n', w') -> R w1 w') ->
  within (bind m k).
Proof.
  intros Hm Hk e n w r n' w' He. unfold bind. destruct (m e n w) as [[[f|a] n1] w1] eqn:E.
  - intros [= _ _ <-]. by eapply Hm.
  - intros E2. transitivity w1; [by eapply Hm|by eapply Hk].
Qed.

Lemma within_bind {A B} (m : serv_over St A) (k : A -> serv_over St B) : within m -> (forall a, within (k a)) -> within (bind m k).
Proof. intros Hm Hk. apply within_bind_post; [done|]. intros e n w a n1 w1 He _ r n' w'. by apply Hk. Qed.

Lemma within_catch {A} (m : serv_over St A) h : within m -> (forall f, within (h f)) -> within (catch m h).
Proof.
  intros Hm Hh e n w r n' w' He. unfold catch. destruct (m e n w) as [[[f|a] n1] w1] eqn:E.
  - intros E2. transitivity w1; [by eapply Hm|by eapply Hh].
  - intros [= _ _ <-]. by eapply Hm.
Qed.

Lemma within_await {A} (f : timestamp -> (string -> uuid) -> St -> A * St) :
  (forall now ids w, R w (f now ids w).2) -> within (await f).
Proof.
  intros Hf e n w r n' w' He. specialize (He n w). unfold await.
  destruct (faults e n) as [[m|m]|]; intros [= _ _ <-]; [done|..]; (etransitivity; [exact He|apply Hf]).
Qed.

Lemma within_query {A} (f : timestamp -> St -> A) : within (query f).
Proof. apply within_await. by intros now ids w. Qed.

End Rely.

#[export] Hint Resolve within_ret within_throw within_query : runtime.

(** Walk through a call down to its statements. *)
Ltac rely_walk :=
  repeat first
    [ apply within_ret | apply within_throw | apply within_query
    | apply within_catch; [|intros ?]
    | apply within_bind; [|intros ?]
    | match goal with |- within _ (if ?b then _ else _) => destruct b end ].

(** *** A call that nobody disturbs; its statements may fail, or not *)

Section Alone.
Context {St : Type}.

Definition alone (e : env_over St) : Prop := (forall n w, between e n w = w) /\ forall n, faults e n = None.

Lemma await_alone {A} (f : timestamp -> (string -> uuid) -> St -> A * St) e n w : alone e ->
  await f e n w = (inr (f (clock e n) (drawn e n) w).1, S n, (f (clock e n) (drawn e n) w).2).
Proof. intros [Hb Hf]. unfold await. by rewrite Hb, Hf. Qed.

Definition undisturbed (e : env_over St) : Prop := forall n s, between e n s = s.

Lemma await_undisturbed {B} f e n s (r : failure + B) n' s' : undisturbed e ->
  await f e n s = (r, n', s') ->
  (s' = (f (clock e n) (drawn e n) s).2 /\ forall b, r = inr b -> b = (f (clock e n) (drawn e n) s).1) \/
  (s' = s /\ exists g, r = inl g).
Proof.
  intros He. unfold await. rewrite He. destruct (faults e n) as [[m|m]|]; intros [= <- <- <-]; [right; by eauto|left..];
    (split; [done|]); [done|]. by intros b [= <-].
Qed.

Lemma query_undisturbed {B} (f : timestamp -> St -> B) e n s r n' s' : undisturbed e ->
  query f e n s = (r, n', s') -> s' = s /\ (forall b, r = inr b -> b = f (clock e n) s).
Proof. intros He H. by destruct (await_undisturbed _ _ _ _ _ _ _ He H) as [[-> ?]|[-> [g ->]]]. Qed.

Lemma attempt_undisturbed {B} f e n s (r : failure + B) n' s' : undisturbed e ->
  attempt f e n s = (r, n', s') ->
  (exists x, f (clock e n) (drawn e n) s = (x, s') /\ forall b, r = inr b -> x = inr b) \/
  (s' = s /\ exists g, r = inl g).
Proof.
  intros He. unfold attempt, bind, await. rewrite He.
  destruct (f _ _ s) as [x s1] eqn:E. destruct (faults e n) as [[m|m]|].
  - intros [= <- <- <-]. right. by eauto.
  - intros [= <- <- <-]. left. exists x. by split.
  - destruct x as [g|b]; intros [= <- <- <-]; left; eexists; by split.
Qed.

Lemma alone_relies (R : St -> St -> Prop) `{Reflexive St R} e : alone e -> relies R e.
Proof. intros [Hb _] n w. by rewrite Hb. Qed.

End Alone.
