(* ===== verification/ContactObserver.v ===== *)
(** * Names seen in messages

    [src/src/modules/contacts/contact-message-observer.service.ts] and
    [contact-message-observation.tick.ts]: the names of senders that the webhooks queue
    ([Observations] of [WebhookEvents]) are written to the contacts of their session
    ([ObservationRepo] of [ContactStore]).  The tick is a service call over the inbox and
    the contacts; [wstep] is whatever any process does to them. *)

From S2P Require Import Prelude Schema SendPolicy Service Rely WebhookSchema WebhookEvents ContactSchema ContactQueue ContactIdentity Relational ContactEvidence ContactStore ContactLife ContactMerge ContactSnapshots ContactProjection.
From stdpp Require Import relations pretty.

Import Projection Normalization Names ContactRepo ObservationRepo ContactLife ContactMerge Snapshots SnapshotLife.

(** The tables of the webhooks, and the contact tables of every session *)
Record seen_world := SeenWorld { se_inbox : wdb; se_contacts : fleet }.

Module Observer.

Local Open Scope Z_scope.

Definition on_inbox {A : Type} (f : wdb -> A * wdb) (w : seen_world) : A * seen_world :=
  let '(a, i) := f (se_inbox w) in (a, SeenWorld i (se_contacts w)).

Definition on_contacts {A : Type} (sessionId : string) (f : contact_tables -> A * contact_tables) (w : seen_world) : A * seen_world :=
  let '(a, d) := f (tables (se_contacts w) sessionId) in (a, SeenWorld (se_inbox w) (<[sessionId := d]> (se_contacts w))).

Definition oserv (A : Type) : Type := serv_over seen_world A.

(** What [claim] returns of a row *)
Record observation_claim := ObservationClaim {
  oc_eventId : string;
  oc_intent : observation_intent;
  oc_leaseToken : uuid }.

Record summary := Summary {
  su_claimed : Z; su_completed : Z; su_retried : Z; su_dead : Z; su_recovered : Z; su_lostOwnership : Z }.

#[export] Instance summary_eta : Eta summary := fun s =>
  Summary (su_claimed s) (su_completed s) (su_retried s) (su_dead s) (su_recovered s) (su_lostOwnership s).

Section Tick.
Context (cfg : contact_config) (nfc md5 : string -> string).
(** The rows of the queue that other transactions hold *)
Context (locked : timestamp -> string -> bool).
(** CONTACT_MESSAGE_ENRICHMENT_ENABLED: the service and the tick read the same setting. *)
Context (enabled : bool).

Definition observe (c : observation_claim) : oserv bool :=
  if negb enabled then ret false
  else await (fun now ids => on_contacts (oi_session_id (oc_intent c))
    (observeMessageSender cfg nfc md5 now (ids "contact") (ids "observation") (fun k => ids ("identity" ++ key_text k)%string)
       (Queue.Request now now (fun id => Z.pos (ids ("revision" ++ pretty id)%string))) (oi_sender_id (oc_intent c)) (Some (oi_push_name (oc_intent c)))
       (oi_observed_at (oc_intent c)) (oc_eventId c))).

Definition complete (c : observation_claim) : oserv bool :=
  await (fun _ _ => on_inbox (Observations.complete (oc_eventId c) (oc_leaseToken c))).

Definition fail (c : observation_claim) (error : failure) : oserv (option ProcessingState.t) :=
  await (fun now _ => on_inbox (Observations.fail now (oc_eventId c) (oc_leaseToken c) (error_message error))).

(** One claim: observed and completed, or its attempt ends. *)
Definition handle (c : observation_claim) (s : summary) : oserv summary :=
  catch
    (let! _ := observe c in
     let! done_ := complete c in
     ret (if done_ then s <| su_completed := su_completed s + 1 |> else s <| su_lostOwnership := su_lostOwnership s + 1 |>))
    (fun error =>
     let! result := fail c error in
     ret (match result with
          | Some ProcessingState.RETRY => s <| su_retried := su_retried s + 1 |>
          | Some ProcessingState.DEAD => s <| su_dead := su_dead s + 1 |>
          | _ => s <| su_lostOwnership := su_lostOwnership s + 1 |>
          end)).

Fixpoint each_claim (claims : list observation_claim) (s : summary) : oserv summary :=
  match claims with
  | [] => ret s
  | c :: rest => let! s' := handle c s in each_claim rest s'
  end.

Definition claim_rows (limit : nat) : oserv (list observation_claim) :=
  await (fun now ids => on_inbox (fun d =>
    let token k := ids ("lease" ++ k)%string in
    let '(rows, d') := Observations.claim now token (locked now) limit d in
    (map (fun r => ObservationClaim r.1 r.2 (token r.1)) rows, d'))).

(** What the tick logs, if it does *)
Definition run (maxPerTick : nat) : oserv (option summary) :=
  if negb enabled then ret None
  else
    let! recovered := await (fun now _ => on_inbox (Observations.recoverExpired now)) in
    let! claims := claim_rows maxPerTick in
    let! s := each_claim claims (Summary (Z.of_nat (length claims)) 0 0 0 recovered 0) in
    ret (if (0 <? recovered) || (0 <? length claims)%nat then Some s else None).

End Tick.

(** *** A name that was seen stays seen *)

(** The contact of the identity shows a push name of that observation, or of a later one. *)
Definition seen_since (k : identity_key) (at_ : timestamp * string) (d : contact_tables) : Prop :=
  exists c n, contact_of d k = Some c /\ contact_names d !! (c, NameSource.OPENWA_PUSH_NAME) = Some n /\
    older (stamp n) at_ = false.

Definition forward (d d' : contact_tables) : Prop := forall k at_, seen_since k at_ d -> seen_since k at_ d'.

Lemma forward_refl d : forward d d.
Proof. by intros k at_. Qed.

Lemma forward_trans d1 d2 d3 : forward d1 d2 -> forward d2 d3 -> forward d1 d3.
Proof. intros H1 H2 k at_ H. by apply H2, H1. Qed.

Lemma not_older_trans a b c : older b a = false -> older c b = false -> older c a = false.
Proof.
  intros H1 H2. destruct (older c a) eqn:E; [|done]. destruct (decide (a = b)) as [->|Hne]; [congruence|].
  destruct (older_total a b Hne) as [Hab|Hab]; [|congruence].
  by rewrite (older_trans c a b E Hab) in H2.
Qed.

(** Names grow in place. *)
Definition names_grow (t t' : gmap (uuid * NameSource.t) contact_name) : Prop :=
  forall k n, t !! k = Some n -> exists n', t' !! k = Some n' /\ older (stamp n') (stamp n) = false.

Lemma names_grow_refl t : names_grow t t.
Proof. intros k n Hn. exists n. split; [done|]. apply older_irrefl. Qed.

Lemma names_grow_trans t1 t2 t3 : names_grow t1 t2 -> names_grow t2 t3 -> names_grow t1 t3.
Proof.
  intros H1 H2 k n (n2 & Hn2 & Ho2)%H1. destruct (H2 k n2 Hn2) as (n3 & Hn3 & Ho3).
  exists n3. split; [done|]. by eapply not_older_trans.
Qed.

Lemma write_name_grows now k name at_ t : names_grow t (write_name now k name at_ t).2.
Proof.
  intros k' n Hn. destruct (decide (k' = k)) as [->|Hne].
  - unfold write_name. rewrite Hn. destruct (older (stamp n) at_) eqn:Ho; cbn [snd].
    + rewrite lookup_insert_eq. eexists. split; [done|]. unfold stamp at 1. cbn.
      destruct (older (at_.1, at_.2) (stamp n)) eqn:E; [|done].
      pose proof (older_trans _ _ _ Ho E) as Hx. by rewrite older_irrefl in Hx.
    + exists n. split; [done|]. apply older_irrefl.
  - exists n. rewrite write_name_other by done. split; [done|]. apply older_irrefl.
Qed.

(** Afterwards the name that was written, or a later one, is there. *)
Lemma write_name_there now k name at_ t : exists n, (write_name now k name at_ t).2 !! k = Some n /\ older (stamp n) at_ = false.
Proof.
  unfold write_name. destruct (t !! k) as [n|] eqn:E.
  - destruct (older (stamp n) at_) eqn:Ho; cbn [snd]; [rewrite lookup_insert_eq; eexists; split; [done|]|by exists n].
    unfold stamp. cbn. destruct at_. apply older_irrefl.
  - cbn [snd]. rewrite lookup_insert_eq. eexists. split; [done|]. unfold stamp. cbn. destruct at_. apply older_irrefl.
Qed.

Lemma forward_grow d d' : (forall k c, contact_of d k = Some c -> contact_of d' k = Some c) ->
  names_grow (contact_names d) (contact_names d') -> forward d d'.
Proof.
  intros Hc Hn k at_ (c & n & H1 & (n' & H2 & Ho)%Hn & H3). exists c, n'. split; [by apply Hc|]. split; [done|].
  by eapply not_older_trans.
Qed.

Lemma forward_same d d' : same_contacts d d' -> forward d d'.
Proof.
  intros (_ & E1 & E2 & _). apply forward_grow; [by unfold contact_of; rewrite E1|]. rewrite E2. apply names_grow_refl.
Qed.

Lemma forward_mapped d d' now source l :
  contact_identifiers d' = foldl (map_identity now source) (contact_identifiers d) l ->
  contact_names d' = contact_names d -> forward d d'.
Proof.
  intros Ei En. apply forward_grow; [|rewrite En; apply names_grow_refl].
  intros k c. unfold contact_of. rewrite Ei. destruct (contact_identifiers d !! k) as [i|] eqn:E; [|done]. intros [= <-].
  destruct (map_identities_keep now source l _ _ _ E) as (i' & -> & H). cbn. by rewrite H.
Qed.

Lemma forward_touched now keys d : forward d (touch_identifiers now keys d).
Proof.
  apply forward_grow; [|apply names_grow_refl]. intros k c. unfold contact_of. cbn. rewrite lookup_update_where.
  destruct (contact_identifiers d !! k) as [i|]; [|done]. cbn. by destruct (mem k keys).
Qed.

Lemma forward_projected fanout now ids d d1 : contact_identifiers d1 = contact_identifiers d ->
  contact_names d1 = contact_names d -> forward d (project_members fanout now ids (project_contacts ids d1)).2.
Proof.
  intros Ei En. pose proof (project_members_same fanout now ids (project_contacts ids d1)) as (_ & P2 & P3).
  apply forward_grow.
  - unfold contact_of. rewrite P2. cbn. by rewrite Ei.
  - rewrite P3. cbn. rewrite En. apply names_grow_refl.
Qed.

Section Forward.
Context (cfg : contact_config) (nfc md5 : string -> string).

Lemma forward_names now generation source infix f m d : forward d (write_names md5 now generation source infix f m d).
Proof.
  apply forward_grow; [done|]. unfold write_names. cbn. set (named := distinct_on _ _).
  apply (foldl_keeps (names_grow (contact_names d))); [apply names_grow_refl|].
  intros t x _ Ht. destruct (f x.1) as [name|]; [|done]. eapply names_grow_trans; [exact Ht|]. apply write_name_grows.
Qed.

Lemma forward_ingest now drawn generation token page d : forward d (ingestObservedPage cfg nfc md5 now drawn generation token page d).2.
Proof.
  unfold ingestObservedPage. case_bool_decide as He; [apply forward_refl|].
  destruct (renew _ _ _ _) as [e|d0] eqn:E0; [apply forward_refl|]. pose proof (forward_same _ _ (renew_same _ _ _ _ _ E0)) as F0.
  set (rows := page_rows nfc drawn page). unfold ingest_rows.
  destruct (stage _ _ _ _ _ _) as [e|d1] eqn:E1; [apply forward_refl|]. pose proof (forward_same _ _ (stage_same _ _ _ _ _ _ _ E1)) as F1.
  destruct (record_evidence _ _ _) as [e|d3] eqn:E3; [apply forward_refl|]. pose proof (forward_same _ _ (record_evidence_same _ _ _ _ E3)) as F3.
  set (d4 := map_phones now rows d3). set (m := matched rows d4).
  set (d5 := write_names md5 now generation NameSource.OPENWA_CONTACT_NAME _ _ m d4).
  set (d6 := write_names md5 now generation NameSource.OPENWA_PUSH_NAME _ _ m d5).
  assert (H : forward d d6).
  { eapply forward_trans; [exact F0|]. eapply forward_trans; [exact F1|].
    eapply forward_trans; [by eapply (forward_mapped _ (create_missing now MappingSource.OPENWA_CONTACT (missing_rows rows d1) d1))|].
    eapply forward_trans; [exact F3|].
    eapply forward_trans; [|eapply forward_trans; [apply (forward_names now generation NameSource.OPENWA_CONTACT_NAME "contact:" pr_contact_name m)|apply forward_names]].
    unfold d4, map_phones. eapply forward_trans; [apply (forward_touched now (map (fun x => pr_key x.1) (matched rows d3)))|].
    by eapply forward_mapped. }
  pose proof (forward_projected (CONTACT_LEGACY_MEMBER_FANOUT_ENABLED cfg) now m.*2 d6 d6 eq_refl eq_refl) as Hp.
  destruct (project_members _ now m.*2 (project_contacts m.*2 d6)) as [z d7]. by eapply forward_trans.
Qed.

Lemma forward_reconcile now generation token d : sound (CONTACT_LEGACY_MEMBER_FANOUT_ENABLED cfg) d ->
  forward d (reconcileObservedIdentities cfg now generation token d).2.
Proof.
  intros H%nearly_sound. unfold reconcileObservedIdentities. destruct (renew _ _ _ _) as [e|d1] eqn:E; [apply forward_refl|].
  apply renew_same in E. pose proof (nearly_same _ _ _ _ E H) as H1.
  set (edges := merge_edges generation d1). set (plan := merge_plan edges d1).
  eapply forward_trans; [by apply forward_same|]. eapply (forward_trans _ (apply_plan plan d1)).
  - intros k at_ (c & n & Hc & Hn & Ho).
    assert (Hex : forall n, n ∈ nodes edges -> is_Some (contacts d1 !! n)) by by eapply merge_nodes_exist.
    destruct (merged_names edges d1 (after_merge edges d1) Hex (Merged edges d1 _ ltac:(done) eq_refl eq_refl ltac:(done)) _ _ _ Hn)
      as (n' & Hn' & Ho').
    exists (target plan c), n'. split_and!; [|exact Hn'|by eapply not_older_trans].
    unfold contact_of in *. pose proof (after_identifier edges d1 k) as Ek. unfold after_merge in Ek. fold plan in Ek.
    rewrite Ek. destruct (contact_identifiers d1 !! k) as [i|]; [|done]. cbn in *. congruence.
  - pose proof (forward_projected (CONTACT_LEGACY_MEMBER_FANOUT_ENABLED cfg) now (winners plan) (apply_plan plan d1) (apply_plan plan d1)
      eq_refl eq_refl) as Hp.
    destruct (project_members _ _ _ _) as [z d3]. cbn [snd] in *. eapply forward_trans; [exact Hp|]. by apply forward_same.
Qed.

(** The sender's name is there afterwards. *)
Lemma observe_seen now candidate id drawn rq raw name observedAt k d i n : observable nfc raw name = Some (i, n) ->
  let d' := (observeMessageSender cfg nfc md5 now candidate id drawn rq raw name observedAt k d).2 in
  forward d d' /\ seen_since (key i) (observedAt, k) d'.
Proof.
  intros Hi. cbn zeta. unfold observeMessageSender. rewrite Hi.
  set (missing := if is_null (contact_of d (key i)) then _ else _).
  set (d1 := create_missing _ _ missing d). set (d2 := touch_identifiers now [key i] d1).
  set (d3 := Evidence.observeMessageSender _ _ _ _ _ _ _ _ _ _ _).
  pose proof (evidence_sender_same cfg md5 drawn id rq now (EvidenceInput (key i) (nid_phone i) "" None) n observedAt k d2) as H3. fold d3 in H3.
  assert (F3 : forward d d3).
  { eapply forward_trans; [by eapply (forward_mapped d d1)|]. eapply forward_trans; [apply forward_touched|]. by apply forward_same. }
  assert (Hc : is_Some (contact_of d3 (key i))).
  { destruct H3 as (_ & E & _). unfold contact_of. rewrite E. apply fmap_is_Some. cbn. rewrite lookup_update_where. apply fmap_is_Some.
    apply map_identities_dom. unfold missing, contact_of. destruct (contact_identifiers d !! key i); [left; by eexists|right; cbn; by left]. }
  destruct Hc as [c Hc]. rewrite Hc.
  pose proof (write_name_grows now (c, NameSource.OPENWA_PUSH_NAME) n (observedAt, k) (contact_names d3)) as Hg.
  pose proof (write_name_there now (c, NameSource.OPENWA_PUSH_NAME) n (observedAt, k) (contact_names d3)) as (nm & Hn & Ho).
  destruct (write_name _ _ _ _ (contact_names d3)) as [accepted names] eqn:Ew. cbn [snd] in *. destruct accepted; cbn [snd].
  - set (d4 := d3 <| contact_names := names |> <| contacts := _ |>).
    assert (F4 : forward d3 d4) by by apply forward_grow.
    pose proof (forward_projected (CONTACT_LEGACY_MEMBER_FANOUT_ENABLED cfg) now [c] d4 d4 eq_refl eq_refl) as Hp.
    split; [eapply forward_trans; [exact F3|]; by eapply forward_trans|]. apply Hp. by exists c, nm.
  - split; [done|]. exists c, nm. split_and!; [done| |done].
    assert (names = contact_names d3) as <-; [|done]. unfold write_name in Ew. repeat case_match; by simplify_eq.
Qed.

Lemma forward_members now candidate drawn ids rq groupId participants d :
  forward d (replaceMembers cfg nfc md5 now candidate drawn ids rq groupId participants d).
Proof.
  unfold replaceMembers, seedGroupMembers. set (w := write_members _ _ _ _).
  eapply (forward_trans _ w); [by apply forward_grow, names_grow_refl|]. case_bool_decide; [by apply forward_grow, names_grow_refl|].
  set (inputs := member_inputs _ _). unfold seed_contacts.
  pose proof (forward_same _ _ (evidence_members_same cfg md5 drawn ids rq now groupId (map evidence_of inputs) w)) as H1.
  set (d1 := Evidence.observeGroupMembers _ _ _ _ _ _ _ _ w) in *.
  eapply forward_trans; [exact H1|].
  eapply forward_trans; [by eapply (forward_mapped d1 (create_missing now MappingSource.GROUP_PARTICIPANT (missing_members candidate inputs d1) d1))|].
  eapply forward_trans; [apply (forward_touched now (map mi_key inputs))|]. by eapply forward_mapped.
Qed.

Lemma forward_op d d' : sound (CONTACT_LEGACY_MEMBER_FANOUT_ENABLED cfg) d -> op cfg nfc md5 d d' -> forward d d'.
Proof.
  intros Hs Hop. destruct Hop.
  - apply forward_same, begin_same.
  - apply forward_ingest.
  - by apply forward_reconcile.
  - apply forward_same, complete_same.
  - apply forward_same, fail_same.
  - destruct (observable nfc rawIdentity rawName) as [[i n]|] eqn:E; [by eapply observe_seen|].
    unfold observeMessageSender. rewrite E. apply forward_refl.
  - apply forward_members.
  - by apply forward_same.
  - by apply forward_grow, names_grow_refl.
Qed.

End Forward.

(** *** What every process does to the queue and to the contacts *)

Record message := Message { ms_session : string; ms_sender : string; ms_pushName : string; ms_observedAt : timestamp }.

Definition message_of (o : observation_intent) : message :=
  Message (oi_session_id o) (oi_sender_id o) (oi_push_name o) (oi_observed_at o).

Section World.
Context (cfg : contact_config) (nfc md5 : string -> string).
(** The message an event id stands for *)
Context (sent : string -> message).

Definition intents (w : seen_world) : gmap string observation_intent := observation_intents (se_inbox w).

(** The name of the message is among the contacts, if it is one that is kept. *)
Definition noted (w : seen_world) (ev : string) : Prop :=
  let m := sent ev in
  match observable nfc (ms_sender m) (Some (ms_pushName m)) with
  | Some (i, _) => seen_since (key i) (ms_observedAt m, ev) (tables (se_contacts w) (ms_session m))
  | None => True
  end.

Record well_formed (w : seen_world) : Prop := WellFormed {
  wf_named ev o : intents w !! ev = Some o -> message_of o = sent ev;
  wf_sound sessionId : sound (CONTACT_LEGACY_MEMBER_FANOUT_ENABLED cfg) (tables (se_contacts w) sessionId) }.

Inductive wstep (w : seen_world) : seen_world -> Prop :=
  (** events are queued; claims, failed attempts, recoveries: no queued message is lost *)
  | step_inbox i :
      (forall ev, is_Some (intents w !! ev) -> is_Some (observation_intents i !! ev)) ->
      (forall ev o, observation_intents i !! ev = Some o -> message_of o = sent ev) ->
      wstep w (SeenWorld i (se_contacts w))
  (** an event leaves the queue when its name was noted *)
  | step_done ev : noted w ev ->
      wstep w (SeenWorld ((se_inbox w) <| observation_intents := base.delete ev (intents w) |>) (se_contacts w))
  (** any transaction on the contacts of a session *)
  | step_contacts sessionId d' : op cfg nfc md5 (tables (se_contacts w) sessionId) d' ->
      wstep w (SeenWorld (se_inbox w) (<[sessionId := d']> (se_contacts w))).

Definition kept (w : seen_world) (ev : string) : Prop := is_Some (intents w !! ev) \/ noted w ev.

Lemma tables_insert (f : fleet) s s' d : tables (<[s := d]> f) s' = if decide (s = s') then d else tables f s'.
Proof. unfold tables. rewrite lookup_insert. by destruct (decide (s = s')). Qed.

Lemma wstep_wf w w' : well_formed w -> wstep w w' -> well_formed w'.
Proof.
  intros [H1 H2] Hst. destruct Hst as [i Hi Hn|ev _|s d' Hop]; split; cbn [se_contacts]; try done.
  - intros ev' o. unfold intents at 1. cbn. rewrite lookup_delete_Some. intros [_ Ho]. by apply H1.
  - intros s'. rewrite tables_insert. destruct (decide (s = s')); [|done]. eapply sound_op; [apply H2|exact Hop].
Qed.

Lemma wstep_noted w w' ev : well_formed w -> wstep w w' -> noted w ev -> noted w' ev.
Proof.
  intros [_ Hs] Hst. destruct Hst as [i Hi Hn|ev' _|s d' Hop]; try done. unfold noted. cbn [se_contacts].
  destruct (observable _ _ _) as [[i x]|]; [|done]. rewrite tables_insert. destruct (decide (s = _)) as [->|]; [|done].
  by apply (forward_op cfg nfc md5 _ _ (Hs _) Hop).
Qed.

Lemma wstep_kept w w' ev : well_formed w -> wstep w w' -> kept w ev -> kept w' ev.
Proof.
  intros Hw Hst [Hi|Hn]; [|right; by eapply wstep_noted]. destruct Hst as [i Hk _|ev' Hn|s d' Hop]; [by left; apply Hk| |by left].
  destruct (decide (ev' = ev)) as [->|Hne]; [by right|]. left. unfold intents. cbn. by rewrite lookup_delete_ne.
Qed.

Lemma rtc_wstep (P : seen_world -> Prop) : (forall w w', well_formed w -> wstep w w' -> P w -> P w') ->
  forall w w', rtc wstep w w' -> well_formed w -> P w -> well_formed w' /\ P w'.
Proof.
  intros Hst w w' Hr. induction Hr as [x|x y z Hxy Hr IH]; intros Hw Hp; [done|].
  apply IH; [by eapply wstep_wf|by eapply Hst].
Qed.

Lemma rtc_wf w w' : rtc wstep w w' -> well_formed w -> well_formed w'.
Proof. intros Hr Hw. by apply (rtc_wstep (fun _ => True) ltac:(done) w w' Hr Hw). Qed.

Lemma rtc_noted ev w w' : rtc wstep w w' -> well_formed w -> noted w ev -> noted w' ev.
Proof. intros Hr Hw Hn. refine (proj2 (rtc_wstep (fun x => noted x ev) _ w w' Hr Hw Hn)). intros. by eapply wstep_noted. Qed.

Lemma rtc_kept ev w w' : rtc wstep w w' -> well_formed w -> kept w ev -> kept w' ev.
Proof. intros Hr Hw Hn. refine (proj2 (rtc_wstep (fun x => kept x ev) _ w w' Hr Hw Hn)). intros. by eapply wstep_kept. Qed.

(** The steps of a well-formed world *)
Definition evolves (w w' : seen_world) : Prop := well_formed w -> well_formed w' /\ rtc wstep w w'.

#[export] Instance evolves_preorder : PreOrder evolves.
Proof.
  split; [intros w Hw; by split; [|apply rtc_refl]|]. intros w1 w2 w3 H12 H23 H1.
  destruct (H12 H1) as [H2 R12]. destruct (H23 H2) as [H3 R23]. split; [done|by eapply rtc_trans].
Qed.

Lemma evolves_step w w' : wstep w w' -> evolves w w'.
Proof. intros Hst Hw. split; [by eapply wstep_wf|by apply rtc_once]. Qed.

Lemma evolves_noted ev w w' : well_formed w -> evolves w w' -> noted w ev -> noted w' ev.
Proof. intros Hw Hev. destruct (Hev Hw) as [_ Hr]. by apply rtc_noted. Qed.

(** *** The tick *)

Context (locked : timestamp -> string -> bool).

(** A statement on the queue that keeps its rows and their messages *)
Lemma inbox_evolves {A} (f : wdb -> A * wdb) w :
  (forall ev, message_of <$> observation_intents (f (se_inbox w)).2 !! ev = message_of <$> intents w !! ev) ->
  evolves w (on_inbox f w).2.
Proof.
  intros Hf Hw. unfold on_inbox. destruct (f (se_inbox w)) as [a i] eqn:E. cbn [snd].
  refine (evolves_step _ _ (step_inbox _ _ _ _) Hw).
  - intros ev. cbn in Hf. rewrite <- (fmap_is_Some message_of), <- Hf, fmap_is_Some. done.
  - intros ev o Ho. specialize (Hf ev). cbn in Hf. rewrite Ho in Hf. cbn in Hf. symmetry in Hf.
    apply fmap_Some in Hf as (o' & Ho' & ->). by apply (wf_named _ Hw).
Qed.

Lemma recover_within : within evolves (await (fun now _ => on_inbox (Observations.recoverExpired now))).
Proof.
  apply within_await; [apply _|]. intros now _ w. apply inbox_evolves. intros ev. cbn. rewrite lookup_update_where. unfold intents.
  destruct (observation_intents (se_inbox w) !! ev) as [o|]; [|done]. cbn. by destruct (Observations.expired now ev o).
Qed.

Lemma fail_within c error : within evolves (fail c error).
Proof.
  apply within_await; [apply _|]. intros now ids w. apply inbox_evolves. intros ev. unfold Observations.fail, Observations.on_intents.
  pose proof (lookup_update_row (oc_eventId c) (Observations.held (oc_leaseToken c))
    (fun o => Observations.end_attempt (now + Observations.backoff_ms (oi_attempt_count o)) (error_message error) o)
    (observation_intents (se_inbox w)) ev) as H.
  destruct (update_row _ _ _ _) as [row t]. cbn in H |- *. rewrite H. unfold intents.
  destruct (observation_intents (se_inbox w) !! ev) as [o|]; [|done]. cbn. by destruct (_ && _).
Qed.

Lemma claimed_row_lookup now token lk limit d ev :
  message_of <$> observation_intents (Observations.claim now token lk limit d).2 !! ev = message_of <$> observation_intents d !! ev.
Proof.
  unfold Observations.claim, Observations.on_intents. cbn. rewrite map_lookup_imap.
  destruct (observation_intents d !! ev) as [o|]; [|done]. cbn. by destruct (mem ev _).
Qed.

Lemma claim_rows_within limit : within evolves (claim_rows locked limit).
Proof.
  apply within_await; [apply _|]. intros now ids w. apply inbox_evolves. intros ev.
  pose proof (claimed_row_lookup now (fun k => ids ("lease" ++ k)%string) (locked now) limit (se_inbox w) ev) as H.
  cbv zeta. destruct (Observations.claim _ _ _ _ _) as [rows d]. exact H.
Qed.

(** The rows a claim answers are in the queue. *)
Lemma claim_rows_there limit e n w claims n' w' : claim_rows locked limit e n w = (inr claims, n', w') ->
  Forall (fun c => intents w' !! oc_eventId c = Some (oc_intent c)) claims.
Proof.
  intros [-> E]%await_ok. unfold on_inbox, Observations.claim, Observations.on_intents in E. cbv zeta in E.
  injection E as <- <-. apply Forall_forall. intros c (r & -> & Hr)%list_elem_of_fmap. cbn [oc_intent oc_eventId].
  apply list_elem_of_omap in Hr as (k & _ & Hk). apply fmap_Some in Hk as (o & Ho & ->). exact Ho.
Qed.

Context (enabled : bool).

Abbreviation observe := (observe cfg nfc md5 enabled).
Abbreviation handle := (handle cfg nfc md5 enabled).
Abbreviation each_claim := (each_claim cfg nfc md5 enabled).
Abbreviation run := (run cfg nfc md5 locked enabled).

Lemma observe_within c : within evolves (observe c).
Proof.
  unfold Observer.observe. destruct enabled; [|apply within_ret; apply _]. apply within_await; [apply _|]. intros now ids w. unfold on_contacts.
  match goal with |- context [observeMessageSender cfg nfc md5 now ?a ?b ?f ?rq ?raw ?nm ?at_ ?k ?d] =>
    pose proof (op_observe cfg nfc md5 d now a b f rq raw nm at_ k) as H;
    destruct (observeMessageSender cfg nfc md5 now a b f rq raw nm at_ k d) as [x d'] end.
  apply evolves_step, step_contacts, H.
Qed.

Lemma observe_notes c e n w b n' w' : enabled = true -> message_of (oc_intent c) = sent (oc_eventId c) ->
  observe c e n w = (inr b, n', w') -> noted w' (oc_eventId c).
Proof.
  intros Hen Hc. unfold Observer.observe. rewrite Hen. cbn [negb]. intros [_ E]%await_ok. unfold noted. rewrite <- Hc.
  cbn [ms_sender ms_pushName ms_observedAt ms_session message_of].
  destruct (observable nfc _ _) as [[i nm]|] eqn:Ei; [|done]. unfold on_contacts in E.
  match type of E with context [observeMessageSender cfg nfc md5 ?now ?a ?b ?f ?rq ?raw ?nm ?at_ ?k ?d] =>
    destruct (observe_seen cfg nfc md5 now a b f rq raw nm at_ k d i _ Ei) as [_ H];
    destruct (observeMessageSender cfg nfc md5 now a b f rq raw nm at_ k d) as [x d'] end.
  injection E as _ <-. cbn [se_contacts]. rewrite tables_insert, decide_True by done. exact H.
Qed.

(** What is noted may leave the queue. *)
Lemma complete_evolves c e n w r n' w' : relies evolves e -> noted w (oc_eventId c) ->
  complete c e n w = (r, n', w') -> evolves w w'.
Proof.
  intros He Hn E Hw. destruct (He n w Hw) as [Hw1 Hb]. pose proof (rtc_noted _ _ _ Hb Hw Hn) as Hn1.
  set (w1 := Service.between e n w) in *.
  assert (H : evolves w1 (on_inbox (Observations.complete (oc_eventId c) (oc_leaseToken c)) w1).2).
  { unfold on_inbox, Observations.complete, Observations.on_intents. cbn zeta.
    destruct (observation_intents (se_inbox w1) !! oc_eventId c) as [o|]; [destruct (Observations.held _ o)|];
      [by apply evolves_step, step_done|by destruct w1 as [[] ?]..]. }
  destruct (H Hw1) as [Hw2 Hr]. revert E.
  unfold complete, await. fold w1. destruct (faults e n) as [[m|m]|]; intros [= _ _ <-]; (split; [done|]); [done|..]; by eapply rtc_trans.
Qed.

Lemma handle_within c s : enabled = true -> message_of (oc_intent c) = sent (oc_eventId c) -> within evolves (handle c s).
Proof.
  intros Hen Hc. unfold Observer.handle. apply within_catch; [apply _| |intros f; apply within_bind; [apply _|apply fail_within|
    intros; apply within_ret; apply _]].
  apply within_bind_post; [apply _|apply observe_within|].
  intros e n w b n1 w1 He E1 r n' w'. pose proof (observe_notes c _ _ _ _ _ _ Hen Hc E1) as Hn. unfold bind.
  destruct (complete c e n1 w1) as [[[f|d] n2] w2] eqn:E2; intros [= _ _ <-]; by eapply complete_evolves.
Qed.

Lemma each_claim_within claims s : enabled = true -> Forall (fun c => message_of (oc_intent c) = sent (oc_eventId c)) claims ->
  within evolves (each_claim claims s).
Proof.
  intros Hen Hc. revert s. induction Hc as [|c rest Hh Hc IH]; intros s; [apply within_ret; apply _|].
  cbn [Observer.each_claim]. apply within_bind; [apply _|by apply handle_within|done].
Qed.

Lemma run_within maxPerTick : within evolves (run maxPerTick).
Proof.
  unfold Observer.run. destruct (negb enabled) eqn:Hen; [apply within_ret; apply _|]. apply negb_false_iff in Hen.
  apply within_bind; [apply _|apply recover_within|]. intros recovered.
  apply within_bind_post; [apply _|apply claim_rows_within|].
  intros e n w claims n1 w1 He Ht%claim_rows_there r n' w' E Hw1.
  assert (Hc : Forall (fun c => message_of (oc_intent c) = sent (oc_eventId c)) claims)
    by (eapply Forall_impl; [exact Ht|]; intros c; by apply (wf_named _ Hw1)).
  refine (within_bind evolves _ _ (each_claim_within claims _ Hen Hc) _ _ _ _ _ _ _ He E Hw1). intros. apply within_ret; apply _.
Qed.

(** Every claim has one outcome. *)
Definition outcomes (s : summary) : Z := su_completed s + su_retried s + su_dead s + su_lostOwnership s.

Lemma handle_counts c s e n w s' n' w' : handle c s e n w = (inr s', n', w') ->
  su_claimed s' = su_claimed s /\ outcomes s' = outcomes s + 1.
Proof.
  unfold Observer.handle. intros [E|(f & n1 & w1 & _ & E)]%catch_ok.
  - apply bind_ok in E as (b & n1 & w1 & _ & E). apply bind_ok in E as (d & n2 & w2 & _ & E).
    injection E as <- _ _. unfold outcomes. destruct d; cbn; lia.
  - apply bind_ok in E as (st & n2 & w2 & _ & E). injection E as <- _ _. unfold outcomes.
    destruct st as [[]|]; cbn; lia.
Qed.

Lemma each_claim_counts claims s e n w s' n' w' : each_claim claims s e n w = (inr s', n', w') ->
  su_claimed s' = su_claimed s /\ outcomes s' = outcomes s + Z.of_nat (length claims).
Proof.
  revert s n w. induction claims as [|c rest IH]; intros s n w; cbn [Observer.each_claim length].
  - intros [= <- _ _]. split; [done|lia].
  - intros (s1 & n1 & w1 & H1%handle_counts & H2%IH)%bind_ok. lia.
Qed.

(** *** A tick by itself *)

Lemma observe_alone c e n w : alone e -> exists b n' w', observe c e n w = (inr b, n', w') /\ intents w' = intents w.
Proof.
  intros He. unfold Observer.observe. destruct enabled; cbn [negb]; [|by exists false, n, w].
  rewrite await_alone by done. eexists _, _, _. split; [reflexivity|]. unfold on_contacts.
  by destruct (observeMessageSender _ _ _ _ _ _ _ _ _ _ _ _ _).
Qed.

Definition claimed_in (t : gmap string observation_intent) (c : observation_claim) : Prop :=
  exists o, t !! oc_eventId c = Some o /\ Observations.held (oc_leaseToken c) o = true.

Lemma handle_alone c s e n w : alone e -> claimed_in (intents w) c -> exists n' w',
  handle c s e n w = (inr (s <| su_completed := su_completed s + 1 |>), n', w') /\
  intents w' = base.delete (oc_eventId c) (intents w).
Proof.
  intros He (o & Ho & Hh). unfold Observer.handle. destruct (observe_alone c e n w He) as (b & n1 & w1 & E1 & Hi).
  unfold catch, bind. rewrite E1. unfold complete. rewrite await_alone by done.
  unfold on_inbox, Observations.complete, Observations.on_intents. unfold intents in *. rewrite Hi, Ho, Hh. cbn.
  eexists _, _. split; [reflexivity|]. cbn. by rewrite ?Hi.
Qed.

Lemma each_claim_alone claims s e n w : alone e -> NoDup (map oc_eventId claims) -> Forall (claimed_in (intents w)) claims ->
  exists s' n' w', each_claim claims s e n w = (inr s', n', w') /\
    su_completed s' = su_completed s + Z.of_nat (length claims) /\ su_claimed s' = su_claimed s /\
    forall ev, intents w' !! ev = if decide (ev ∈ map oc_eventId claims) then None else intents w !! ev.
Proof.
  intros He. revert s n w. induction claims as [|c rest IH]; intros s n w Hd Hc; cbn [Observer.each_claim length].
  - exists s, n, w. split_and!; [done|lia|done|]. intros ev. by rewrite decide_False by (by intros ?%elem_of_nil).
  - cbn in Hd. apply NoDup_cons in Hd as [Hn Hd]. apply Forall_cons in Hc as [Hc Hr].
    destruct (handle_alone c s e n w He Hc) as (n1 & w1 & E1 & Hi). unfold bind. rewrite E1.
    destruct (IH (s <| su_completed := su_completed s + 1 |>) n1 w1 Hd) as (s' & n' & w' & E & H1 & H2 & H3).
    { apply Forall_forall. intros c' Hc'. destruct (proj1 (Forall_forall _ _) Hr c' Hc') as (o & Ho & Hh). exists o.
      split; [|done]. rewrite Hi, lookup_delete_ne; [done|]. intros Heq. apply Hn. rewrite Heq. apply list_elem_of_fmap. by exists c'. }
    exists s', n', w'. split_and!; [done|cbn in H1; lia|done|]. intros ev. rewrite H3, Hi. cbn [map].
    destruct (decide (ev ∈ map oc_eventId rest)) as [Hin|Hin].
    + by rewrite decide_True by by right.
    + destruct (decide (ev = oc_eventId c)) as [->|Hne].
      * rewrite lookup_delete_eq, decide_True by left. done.
      * rewrite lookup_delete_ne, decide_False by (done || by rewrite elem_of_cons; intros [?|?]). done.
Qed.

(** What a claim without other workers takes *)
Lemma claim_rows_alone limit e n w : alone e ->
  let keys := (take limit (order_by Observations.by_due
                (select_where (Observations.due (clock e n) (locked (clock e n))) (intents w)))).*1 in
  exists claims w1, claim_rows locked limit e n w = (inr claims, S n, w1) /\ map oc_eventId claims = keys /\
    NoDup keys /\ Forall (claimed_in (intents w1)) claims /\
    forall ev, ev ∉ keys -> intents w1 !! ev = intents w !! ev.
Proof.
  intros He keys. unfold claim_rows. rewrite await_alone by done. unfold on_inbox. cbv zeta.
  unfold Observations.claim, Observations.on_intents. fold (intents w). cbv zeta. fold keys.
  set (token := fun k : string => drawn e n ("lease" ++ k)%string).
  set (t1 := map_imap _ (intents w)). cbn [fst snd].
  assert (Hd : NoDup keys).
  { unfold keys. rewrite fmap_take. apply sublist_NoDup with (l2 := (order_by Observations.by_due
      (select_where (Observations.due (clock e n) (locked (clock e n))) (intents w))).*1); [|apply sublist_take].
    rewrite order_by_Permutation. apply select_where_NoDup. }
  assert (Hk : forall k, k ∈ keys -> exists o, t1 !! k = Some (Observations.claim_row (clock e n) (token k) o)).
  { intros k Hk. assert (Ho : exists o, intents w !! k = Some o).
    { unfold keys in Hk. apply list_elem_of_fmap in Hk as ([k' o] & -> & Hin).
      set (l := order_by _ _) in Hin. assert (Hl : (k', o) ∈ l) by (rewrite <- (take_drop limit l); apply elem_of_app; by left).
      unfold l in Hl. rewrite order_by_elem in Hl. apply select_where_elem in Hl as [Hl _]. by exists o. }
    destruct Ho as [o Ho]. exists o. unfold t1. rewrite map_lookup_imap, Ho. cbn. by rewrite (proj2 (mem_true _ _) Hk). }
  eexists _, _. split; [reflexivity|]. cbn [se_inbox intents]. split_and!.
  - rewrite map_map. cbn. clearbody t1 keys. clear Hd. induction keys as [|k keys IH]; [done|]. cbn [omap list_omap].
    destruct (Hk k ltac:(left)) as [o ->]. cbn [fmap option_fmap option_map map]. f_equal. apply IH. intros k' Hk'. apply Hk. by right.
  - exact Hd.
  - apply Forall_forall. intros c (r & -> & (k & Hin & Hr)%list_elem_of_omap)%list_elem_of_fmap.
    destruct (Hk k Hin) as [o Ho]. rewrite Ho in Hr. injection Hr as <-. exists (Observations.claim_row (clock e n) (token k) o).
    split; [exact Ho|]. unfold Observations.held. cbn. by rewrite bool_decide_true.
  - intros ev Hev. cbn. unfold t1. rewrite map_lookup_imap. destruct (intents w !! ev) as [o|]; [|done]. cbn.
    destruct (mem ev keys) eqn:E; [|done]. by apply mem_true in E.
Qed.

End World.


(** A tick that is left alone empties the queue of what is due: every event that is due
    once the expired claims are recovered, and that the limit of the tick admits, is gone and
    the name of its sender noted; the rest of the queue is untouched. *)
Theorem quiet_tick_notes_what_is_due (cfg : contact_config) (nfc md5 : string -> string) (sent : string -> message)
    (locked : timestamp -> string -> bool) (maxPerTick : nat)
    (e : env_over seen_world) (n : nat) (w : seen_world)
    (He : alone e) (Hw : well_formed cfg sent w) :
  let queue := intents (on_inbox (Observations.recoverExpired (clock e n)) w).2 in
  let due := select_where (Observations.due (clock e (S n)) (locked (clock e (S n)))) queue in
  (length due <= maxPerTick)%nat ->
  exists r n' w', run cfg nfc md5 locked true maxPerTick e n w = (inr r, n', w') /\
    (forall ev, ev ∈ due.*1 -> intents w' !! ev = None /\ noted nfc sent w' ev) /\
    (forall ev, ev ∉ due.*1 -> intents w' !! ev = queue !! ev).
Proof.
  intros queue due Hlen. set (w1 := (on_inbox (Observations.recoverExpired (clock e n)) w).2) in queue.
  destruct (claim_rows_alone locked maxPerTick e (S n) w1 He) as (claims & w2 & E2 & Hk & Hd & Hc & Hrest).
  fold queue in Hk, Hd, Hrest. fold due in Hk, Hd, Hrest. rewrite take_ge in Hk, Hd, Hrest by by rewrite order_by_Permutation.
  assert (Hin : forall ev, ev ∈ map oc_eventId claims <-> ev ∈ due.*1) by (intros ev; by rewrite Hk, order_by_Permutation).
  rewrite <- Hk in Hd.
  destruct (each_claim_alone cfg nfc md5 true claims
    (Summary (Z.of_nat (length claims)) 0 0 0 (on_inbox (Observations.recoverExpired (clock e n)) w).1 0) e (S (S n)) w2 He Hd Hc)
    as (s & n' & w' & E3 & _ & _ & Hq).
  assert (E : exists r, run cfg nfc md5 locked true maxPerTick e n w = (inr r, n', w')).
  { unfold run. cbn [negb]. unfold bind. rewrite await_alone by done. fold w1. rewrite E2, E3. eexists. reflexivity. }
  destruct E as [r E]. exists r, n', w'. split_and!; [done|..].
  - intros ev Hev. assert (Hgone : intents w' !! ev = None) by by rewrite Hq, decide_True by by apply Hin.
    split; [done|]. assert (Hkept : kept nfc sent w ev).
    { left. unfold due in Hev. apply list_elem_of_fmap in Hev as ([k o] & -> & [Hl _]%select_where_elem).
      unfold queue, w1, on_inbox in Hl. cbn in Hl. rewrite lookup_update_where in Hl. apply fmap_Some in Hl as (o' & Hl & _). by exists o'. }
    assert (Hr : rtc (wstep cfg nfc md5 sent) w w').
    { eapply (run_within cfg nfc md5 sent locked true maxPerTick e n w); [by apply alone_relies; [apply _|]|exact E|done]. }
    destruct (rtc_kept cfg nfc md5 sent ev w w' Hr Hw Hkept) as [[o Ho]|]; [congruence|done].
  - intros ev Hev. rewrite Hq, decide_False by by rewrite Hin. apply Hrest. by rewrite order_by_Permutation.
Qed.

(** Two messages are queued; a tick writes the names of their senders. *)
Definition example_sent (ev : string) : message :=
  if bool_decide (ev = "m1") then Message "main" "62811:4@c.us" "Ann" 500 else Message "main" "9000@lid" "Bo" 600.

Definition example_inbox : wdb :=
  (Observations.enqueue 900 "m2" "main" "9000@lid" "Bo" 600
     (Observations.enqueue 900 "m1" "main" "62811:4@c.us" "Ann" 500 empty_wdb).2).2.

Definition example_world : seen_world := SeenWorld example_inbox ∅.

Definition calm : env_over seen_world := Env (fun n => 1000 + Z.of_nat n) (fun _ s => encode s) (fun _ w => w) (fun _ => None).

Lemma example_wf : well_formed SnapshotLife.example_cfg example_sent example_world.
Proof.
  split.
  - intros ev o. unfold intents, example_world, example_inbox. cbn.
    rewrite insert_absent_lookup. case_match; [|case_bool_decide; [|done]]; intros [= <-].
    + revert H. rewrite insert_absent_lookup, lookup_empty. case_bool_decide; [|done]. intros [= <-]. by subst.
    + subst. done.
  - intros s. unfold tables. cbn. rewrite lookup_empty. apply sound_empty.
Qed.


Lemma quiet_tick_notes_what_is_due_witness : exists r n' w',
  run SnapshotLife.example_cfg id id (fun _ _ => false) true 10 calm 0%nat example_world = (inr r, n', w') /\
  forall ev, ev ∈ ["m1"; "m2"]%string -> intents w' !! ev = None /\ noted id example_sent w' ev.
Proof.
  destruct (quiet_tick_notes_what_is_due SnapshotLife.example_cfg id id example_sent (fun _ _ => false) 10 calm 0%nat example_world)
    as (r & n' & w' & E & H & _).
  - by split.
  - apply example_wf.
  - vm_compute. lia.
  - exists r, n', w'. split; [exact E|]. intros ev Hev. apply H.
    replace (_.*1) with ["m1"; "m2"]%string by by vm_compute. done.
Defined.

End Observer.
