(* ===== verification/Dispatch.v ===== *)
(** * Dispatching work to the queues

    The ticks [message-dispatch.tick.ts], [webhook-dispatch.tick.ts], [campaign-dispatch.tick.ts]
    and [gateway-dispatch.tick.ts] of [src/src/modules/orchestration], with
    [src/src/core/queue/queue-job-id.ts].  The work is in the database; a tick recovers what
    was abandoned, lists what is due and hands each row to a queue, where a worker finds it.
    What the queue library does with a job is not modelled: [po_jobs] lists the jobs that
    were added, in their order, and an addition is an await that may fail. *)

From S2P Require Import Prelude Schema SendPolicy Service Rely MessageJobs Groups CampaignRuns CampaignLifecycle GatewaySchema GatewayPacing GatewayIntents GatewayRuns GatewayItems GatewayService WebhookSchema WebhookEvents Webhooks.
From stdpp Require Import relations pretty.
From Stdlib Require Import Ascii.

(** [queues.messageSend.add('send-text', ..)] and the others, with their payloads *)
Inductive queue_job : Type :=
  | SendText (messageJobId : uuid)
  | ProcessWebhook (idempotencyKey : string)
  | PrepareRun (runId : uuid)
  | FullSessionSync (syncRunId : uuid) (sessionId : string)
  | ReconcileSessionGroup (itemId syncRunId : uuid) (sessionId groupId : string)
  | RefreshGroupCapability (sessionId groupId : string) (expectedRevision : Z)
  | ReconcileTargetedGroup (sessionId groupId : string) (requestedRevision : Z).

#[export] Instance queue_job_eq_dec : EqDecision queue_job.
Proof. solve_decision. Defined.

(** The options that differ; every job has one attempt. *)
Record job_options := JobOptions { jo_jobId : string; jo_priority : option Z; jo_delay : Z }.

(** The database and what was added to the queues *)
Record posted := Posted { po_db : wdb; po_jobs : list (queue_job * job_options) }.

Module Dispatch.

Local Open Scope Z_scope.

Definition dserv (A : Type) : Type := serv_over posted A.

Definition on_wdb {A : Type} (f : wdb -> A * wdb) (w : posted) : A * posted :=
  let '(a, d) := f (po_db w) in (a, Posted d (po_jobs w)).

Definition on_gdb {A : Type} (f : gdb -> A * gdb) : posted -> A * posted :=
  on_wdb (fun d => let '(a, g) := f (gateway d) in (a, d <| gateway := g |>)).

Definition on_db {A : Type} (f : db -> A * db) : posted -> A * posted :=
  on_gdb (fun g => let '(a, d) := f (core g) in (a, g <| core := d |>)).

Definition db_of (w : posted) : db := core (gateway (po_db w)).

Definition statement {A : Type} (f : timestamp -> db -> A * db) : dserv A := await (fun now _ => on_db (f now)).
Definition gateway_statement {A : Type} (f : timestamp -> gdb -> A * gdb) : dserv A := await (fun now _ => on_gdb (f now)).
Definition webhook_statement {A : Type} (f : timestamp -> wdb -> A * wdb) : dserv A := await (fun now _ => on_wdb (f now)).

Section Ticks.
Context (sha256 to_iso : string -> string) (uuid_text : uuid -> string).
(** The rows that other transactions hold *)
Context (locked : timestamp -> uuid -> bool).

Definition stableQueueJobId (prefix value : string) : string := prefix ++ "-" ++ sha256 value.

(** [queues.<queue>.add] *)
Definition add (now : timestamp) (job : queue_job) (options : job_options) (w : posted) : unit * posted :=
  (tt, Posted (po_db w) (po_jobs w ++ [(job, options)])).

Definition publish (job : queue_job) (options : timestamp -> job_options) : dserv unit :=
  await (fun now _ => add now job (options now)).

(** [for (const row of rows) try { await add(..) } catch { log }] *)
Fixpoint offer {A : Type} (job : A -> queue_job) (options : A -> timestamp -> job_options) (rows : list A) : dserv unit :=
  match rows with
  | [] => ret tt
  | row :: rest =>
      let! _ := catch (publish (job row) (options row)) (fun _ => ret tt) in
      offer job options rest
  end.

(** *** [MessageDispatchTick] *)

Definition send_options (id : uuid) (_ : timestamp) : job_options := JobOptions (uuid_text id) None 0.

Definition send (id : uuid) : dserv unit :=
  catch (publish (SendText id) (send_options id))
    (fun error => statement (fun now d => (tt, Repo.resetQueued now id (error_message error) d))).

Fixpoint send_all (ids : list uuid) : dserv unit :=
  match ids with
  | [] => ret tt
  | id :: rest => let! _ := send id in send_all rest
  end.

Definition messages : dserv unit :=
  let! _ := statement Repo.recoverStaleQueued in
  let! _ := statement Repo.markExpiredProcessingUnknown in
  let! jobs := statement (fun now => Repo.claimDue (locked now) now 100) in
  send_all jobs.*1.

(** *** [WebhookDispatchTick]: the first failure ends the tick. *)

Definition webhook_options (key : string) (_ : timestamp) : job_options :=
  JobOptions (stableQueueJobId "webhook" key) None 0.

Fixpoint process_all (keys : list string) : dserv unit :=
  match keys with
  | [] => ret tt
  | key :: rest => let! _ := publish (ProcessWebhook key) (webhook_options key) in process_all rest
  end.

Definition webhooks : dserv unit :=
  let! _ := webhook_statement WebhookRepo.recoverExpiredProcessing in
  let! keys := query (fun now w => WebhookRepo.listDispatchable now 100 (po_db w)) in
  process_all keys.

(** *** [CampaignDispatchTick] *)

Definition prepare_options (id : uuid) (_ : timestamp) : job_options := JobOptions ("prepare-run-" ++ uuid_text id) None 0.

Definition materialize (runId : uuid) : dserv Z :=
  catch (await (fun now ids => on_db (DeliveryRepo.materializePending sha256 to_iso uuid_text now (locked now) ids runId 5)))
    (fun _ => ret 0).

Fixpoint materialize_all (runIds : list uuid) : dserv unit :=
  match runIds with
  | [] => ret tt
  | id :: rest => let! _ := materialize id in materialize_all rest
  end.

Definition campaigns : dserv unit :=
  let! _ := statement RunRepo.recoverExpiredPreparations in
  let! preparing := query (fun now w => RunRepo.listPreparing now 100 (db_of w)) in
  let! _ := offer PrepareRun prepare_options preparing in
  let! _ := statement LifecycleRepo.activateDue in
  let! _ := statement DeliveryRepo.reconcile in
  let! _ := statement (fun now => LifecycleRepo.finalize now 100) in
  let! running := query (fun _ w => LifecycleRepo.listRunningIds 100 (db_of w)) in
  materialize_all running.

(** *** [dispatchOnce] of [GatewayDispatchTick] *)

Context (cfg : gateway_config).

(** [Math.max(0, availableAt.valueOf() - Date.now())] *)
Definition delay (availableAt now : timestamp) : Z := Z.max 0 (availableAt - now).

Definition sync_options (run : uuid * sync_run) (_ : timestamp) : job_options := JobOptions (uuid_text run.1) None 0.

Definition item_options (item : uuid * sync_item * timestamp) (now : timestamp) : job_options :=
  JobOptions (stableQueueJobId "group-reconciliation" (uuid_text item.1.1)) (Some 10) (delay item.2 now).

(** `${sessionId}:${groupId}:${revision}` *)
Definition revision_text (sessionId groupId : string) (revision : Z) : string :=
  sessionId ++ ":" ++ groupId ++ ":" ++ pretty revision.

Definition refresh_options (r : string * string * Z) (_ : timestamp) : job_options :=
  JobOptions (stableQueueJobId "group-capability" (revision_text r.1.1 r.1.2 r.2)) (Some 1) 0.

Definition intent_options (i : (string * string) * Z * timestamp) (now : timestamp) : job_options :=
  JobOptions (stableQueueJobId "targeted-group-reconciliation" (revision_text i.1.1.1 i.1.1.2 i.1.2)) (Some 5) (delay i.2 now).

Definition sync_job (run : uuid * sync_run) : queue_job := FullSessionSync run.1 (sr_session_id run.2).
Definition item_job (item : uuid * sync_item * timestamp) : queue_job :=
  ReconcileSessionGroup item.1.1 (si_sync_run_id item.1.2) (si_session_id item.1.2) (si_group_id item.1.2).
Definition refresh_job (r : string * string * Z) : queue_job := RefreshGroupCapability r.1.1 r.1.2 r.2.
Definition intent_job (i : (string * string) * Z * timestamp) : queue_job := ReconcileTargetedGroup i.1.1.1 i.1.1.2 i.1.2.

(** NOT EXISTS an open intent of the group *)
Definition intent_open (g : gdb) (sessionId groupId : string) : bool :=
  match group_intents g !! (sessionId, groupId) with
  | Some i => Intents.is_open (gi_status i) || bool_decide (gi_status i = IntentStatus.RUNNING)
  | None => false
  end.

Definition dispatchOnce : dserv unit :=
  let! _ := gateway_statement Runs.recoverExpired in
  let! _ := gateway_statement (Items.recoverExpired cfg) in
  let! _ := statement CapabilityRepo.recoverExpired in
  let! _ := gateway_statement (Intents.recoverExpired cfg) in
  let! runs := query (fun now w => Runs.listPending now 100 (gateway (po_db w))) in
  let! _ := offer sync_job sync_options runs in
  let! items := query (fun now w => Items.listDispatchable cfg now 100 (gateway (po_db w))) in
  let! _ := offer item_job item_options items in
  let! refreshes := query (fun now w => CapabilityRepo.listNeedingRefresh
      (SyncService.sync_ahead (gateway (po_db w))) (intent_open (gateway (po_db w))) now 100 (db_of w)) in
  let! _ := offer refresh_job refresh_options refreshes in
  let! intents := query (fun now w => Intents.listDispatchable cfg now 100 (gateway (po_db w))) in
  offer intent_job intent_options intents.

End Ticks.

(** *** What the ticks do to the database and to the queues *)

Definition longer (w w' : posted) : Prop := exists more, po_jobs w' = po_jobs w ++ more.

Lemma longer_refl w : longer w w.
Proof. exists []. by rewrite app_nil_r. Qed.

Lemma longer_trans w1 w2 w3 : longer w1 w2 -> longer w2 w3 -> longer w1 w3.
Proof. intros [l1 E1] [l2 E2]. exists (l1 ++ l2). by rewrite E2, E1, app_assoc. Qed.

Lemma longer_in w w' x : longer w w' -> x ∈ po_jobs w -> x ∈ po_jobs w'.
Proof. intros [more ->] Hx. apply elem_of_app. by left. Qed.

#[export] Instance longer_preorder : PreOrder longer.
Proof. split; [exact longer_refl|exact longer_trans]. Qed.

(** The others, and every statement, follow [T] on the database, and only add jobs. *)
Definition follows (T : db -> db -> Prop) (w w' : posted) : Prop := rtc T (db_of w) (db_of w') /\ longer w w'.

#[export] Instance follows_preorder T : PreOrder (follows T).
Proof.
  split; [intros w; split; [apply rtc_refl|reflexivity]|]. intros w1 w2 w3 [H1 L1] [H2 L2].
  split; [by eapply rtc_trans|by eapply longer_trans].
Qed.

Lemma on_wdb_jobs {A} (f : wdb -> A * wdb) w : po_jobs (on_wdb f w).2 = po_jobs w.
Proof. unfold on_wdb. by destruct (f (po_db w)). Qed.

Lemma on_db_spec {A} (f : db -> A * db) w :
  (on_db f w).1 = (f (db_of w)).1 /\ db_of (on_db f w).2 = (f (db_of w)).2 /\ po_jobs (on_db f w).2 = po_jobs w.
Proof. unfold on_db, on_gdb, on_wdb, db_of. by destruct (f (core (gateway (po_db w)))). Qed.

Lemma on_db_follows {A} (T : db -> db -> Prop) (f : db -> A * db) w : T (db_of w) (f (db_of w)).2 -> follows T w (on_db f w).2.
Proof.
  intros H. pose proof (on_db_spec f w) as (_ & E1 & E2). split; [rewrite E1; by apply rtc_once|]. exists []. by rewrite E2, app_nil_r.
Qed.

Section Follow.
Context (T : db -> db -> Prop).

Lemma statement_follows {A} (f : timestamp -> db -> A * db) : (forall now d, T d (f now d).2) -> within (follows T) (statement f).
Proof. intros Hf. apply within_await; [apply _|]. intros now _ w. by apply on_db_follows. Qed.

Lemma publish_follows job options : within (follows T) (publish job options).
Proof. apply within_await; [apply _|]. intros now _ w. split; [apply rtc_refl|by eexists]. Qed.

Lemma offer_follows {A} (job : A -> queue_job) options rows : within (follows T) (offer job options rows).
Proof.
  induction rows as [|row rest IH]; cbn [offer]; [apply within_ret; apply _|].
  apply within_bind; [apply _| |done]. apply within_catch; [apply _|apply publish_follows|]. intros f. apply within_ret; apply _.
Qed.

End Follow.

(** The queue has the job, or its addition was not run. *)
Definition offered (e : env_over posted) (k : nat) (x : queue_job * job_options) (w : posted) : Prop :=
  x ∈ po_jobs w \/ exists m, faults e k = Some (NotRun m).

Lemma offered_later e k x w w' : longer w w' -> offered e k x w -> offered e k x w'.
Proof. intros Hl [Hx|Hf]; [left; by eapply longer_in|by right]. Qed.

Lemma publish_offers job options e n w (r : failure + unit) n' w' : publish job options e n w = (r, n', w') ->
  n' = S n /\ offered e n (job, options (clock e n)) w'.
Proof.
  unfold publish, await, add, offered. destruct (faults e n) as [[m|m]|] eqn:Ef; intros [= _ <- <-]; (split; [done|]).
  - right. by exists m.
  - left. cbn. apply elem_of_app. right. by left.
  - left. cbn. apply elem_of_app. right. by left.
Qed.

(** Every row is offered once, in order; a failure does not keep the next ones back. *)
Lemma offer_offers {A} (job : A -> queue_job) options rows e n w (r : failure + unit) n' w' : relies longer e ->
  offer job options rows e n w = (r, n', w') ->
  r = inr tt /\ n' = (n + length rows)%nat /\ longer w w' /\
  forall i row, rows !! i = Some row -> offered e (n + i) (job row, options row (clock e (n + i)%nat)) w'.
Proof.
  intros He. revert n w. induction rows as [|row rest IH]; intros n w; cbn [offer].
  - intros [= <- <- <-]. split_and!; [done|cbn; lia|reflexivity|done].
  - unfold bind, catch. pose proof (He n w) as Hb. destruct (publish (job row) (options row) e n w) as [[r1 n1] w1] eqn:E1.
    assert (Hl : longer w w1).
    { transitivity (Service.between e n w); [done|]. revert E1. unfold publish, await, add.
      destruct (faults e n) as [[m|m]|]; intros [= _ _ <-]; [reflexivity|by eexists..]. }
    apply publish_offers in E1 as [-> Ho]. intros E.
    assert (E' : offer job options rest e (S n) w1 = (r, n', w')) by by destruct r1 as [f|[]].
    destruct (IH _ _ E') as (-> & -> & Hl' & Hrest). split_and!; [done|cbn; lia|by transitivity w1|].
    intros [|i] x; cbn [lookup list_lookup].
    + intros [= <-]. rewrite Nat.add_0_r. by eapply offered_later.
    + intros Hx. replace (n + S i)%nat with (S n + i)%nat by lia. by apply Hrest.
Qed.

(** *** Messages *)

Section Messages.
Context (uuid_text : uuid -> string) (locked : timestamp -> uuid -> bool).

Abbreviation outbox := (follows Lifecycle.op).

(** The job is not QUEUED. *)
Definition unqueued (id : uuid) (w : posted) : Prop :=
  forall j, message_jobs (db_of w) !! id = Some j -> mj_status j <> JobStatus.QUEUED.

Lemma reset_unqueues now id error w : unqueued id (on_db (fun d => (tt, Repo.resetQueued now id error d)) w).2.
Proof.
  intros j. pose proof (on_db_spec (fun d => (tt, Repo.resetQueued now id error d)) w) as (_ & -> & _). cbn [snd].
  unfold Repo.resetQueued. cbn. rewrite lookup_update_row, bool_decide_true by done.
  destruct (message_jobs (db_of w) !! id) as [j0|]; [|done]. cbn [fmap option_fmap option_map andb].
  case_bool_decide as Hq; intros [= <-]; done.
Qed.

Lemma send_within id : within outbox (send uuid_text id).
Proof.
  apply within_catch; [apply _|apply publish_follows|]. intros f. apply statement_follows. intros now d. apply Lifecycle.op_reset.
Qed.

(** The job was added, or was put back. *)
Definition handed (w0 w : posted) (id : uuid) : Prop :=
  (exists options, (SendText id, options) ∈ po_jobs w) \/ exists w1, outbox w0 w1 /\ outbox w1 w /\ unqueued id w1.

Lemma handed_later w0 w w' id : outbox w w' -> handed w0 w id -> handed w0 w' id.
Proof.
  intros Hw [[o Ho]|(w1 & H1 & H2 & Hu)].
  - left. exists o. eapply longer_in; [apply Hw|done].
  - right. exists w1. split_and!; [done|by transitivity w|done].
Qed.

Lemma send_hands id e n w n' w' : relies outbox e -> send uuid_text id e n w = (inr tt, n', w') -> handed w w' id.
Proof.
  intros He E. unfold send in E. apply catch_ok in E as [E|(f & n1 & w1 & E1 & E2)].
  - left. pose proof (publish_offers _ _ _ _ _ _ _ _ E) as [_ [Ho|[m Hf]]]; [by eexists|].
    unfold publish, await in E. by rewrite Hf in E.
  - right. exists w'. split_and!.
    + by eapply send_within; [done|]; unfold send, catch; rewrite E1.
    + reflexivity.
    + unfold statement in E2. apply await_ok in E2 as [_ E2].
      pose proof (reset_unqueues (clock e n1) id (error_message f) (Service.between e n1 w1)) as H. by rewrite E2 in H.
Qed.

Lemma send_all_hands ids e n w n' w' : relies outbox e -> send_all uuid_text ids e n w = (inr tt, n', w') ->
  outbox w w' /\ forall id, id ∈ ids -> handed w w' id.
Proof.
  intros He. revert n w. induction ids as [|id rest IH]; intros n w; cbn [send_all].
  - intros [= <- <-]. split; [reflexivity|]. by intros id ?%elem_of_nil.
  - intros ([] & n1 & w1 & E1 & E2)%bind_ok. destruct (IH _ _ E2) as [Hw Hr].
    assert (H1 : outbox w w1) by by eapply send_within. split; [by transitivity w1|].
    intros id' [->|Hin]%elem_of_cons; [by eapply handed_later; [done|]; eapply send_hands|].
    destruct (Hr _ Hin) as [?|(w2 & ? & ? & ?)]; [by left|right; exists w2; split_and!; [by transitivity w1|done|done]].
Qed.

Lemma send_all_within ids : within outbox (send_all uuid_text ids).
Proof.
  induction ids as [|id rest IH]; cbn [send_all]; [apply within_ret; apply _|].
  apply within_bind; [apply _|apply send_within|done].
Qed.

Lemma messages_within : within outbox (messages uuid_text locked).
Proof.
  unfold messages. apply within_bind; [apply _|apply statement_follows; intros; apply Lifecycle.op_recover|]. intros _.
  apply within_bind; [apply _|apply statement_follows; intros; apply Lifecycle.op_expire|]. intros _.
  apply within_bind; [apply _|apply statement_follows; intros; apply Lifecycle.op_claim|]. intros rows. apply send_all_within.
Qed.

(** The rows the claim of a completed tick took *)
Lemma messages_claim e n w n' w' : relies outbox e -> messages uuid_text locked e n w = (inr tt, n', w') ->
  exists w1 w2 rows, outbox w w1 /\ outbox w2 w' /\
    Repo.claimDue (locked (clock e (S (S n)))) (clock e (S (S n))) 100 (db_of w1) = (rows, db_of w2) /\
    forall id, id ∈ rows.*1 -> handed w2 w' id.
Proof.
  intros He (a1 & n1 & w1 & E1 & E)%bind_ok. apply bind_ok in E as (a2 & n2 & w2 & E2 & E).
  apply bind_ok in E as (rows & n3 & w3 & E3 & E).
  assert (H1 : outbox w w1) by (eapply statement_follows; [|done|exact E1]; intros; apply Lifecycle.op_recover).
  assert (H2 : outbox w1 w2) by (eapply statement_follows; [|done|exact E2]; intros; apply Lifecycle.op_expire).
  destruct (send_all_hands _ _ _ _ _ _ He E) as [H3 Hh].
  apply await_ok in E1 as [-> _]. apply await_ok in E2 as [-> _]. apply await_ok in E3 as [-> E3].
  exists (Service.between e (S (S n)) w2), w3, rows. split_and!; [|done| |done].
  - transitivity w1; [done|]. transitivity w2; [done|]. apply He.
  - pose proof (on_db_spec (Repo.claimDue (locked (clock e (S (S n)))) (clock e (S (S n))) 100) (Service.between e (S (S n)) w2)) as (F1 & F2 & _).
    rewrite E3 in F1, F2. cbn in F1, F2. by rewrite F1, F2, <- surjective_pairing.
Qed.

End Messages.


(** *** Campaigns *)

Lemma campaigns_within sha256 to_iso uuid_text locked :
  within (follows (Life.cstep sha256 to_iso uuid_text)) (campaigns sha256 to_iso uuid_text locked).
Proof.
  set (T := Life.cstep sha256 to_iso uuid_text). unfold campaigns.
  apply within_bind; [apply _|apply statement_follows; intros; apply Life.r_recover|]. intros _.
  apply within_bind; [apply _|apply within_query; apply _|]. intros preparing.
  apply within_bind; [apply _|apply offer_follows|]. intros _.
  apply within_bind; [apply _|apply statement_follows; intros; apply Life.r_activate|]. intros _.
  apply within_bind; [apply _|apply statement_follows; intros; by apply Life.r_other|]. intros _.
  apply within_bind; [apply _|apply statement_follows; intros; apply Life.r_finalize|]. intros _.
  apply within_bind; [apply _|apply within_query; apply _|]. intros running.
  induction running as [|id rest IH]; cbn [materialize_all]; [apply within_ret; apply _|].
  apply within_bind; [apply _| |done]. unfold materialize.
  apply within_catch; [apply _| |intros f; apply within_ret; apply _].
  apply within_await; [apply _|]. intros now ids w. apply on_db_follows, Life.r_materialize.
Qed.

(** The tick over campaigns takes the steps of the campaign life cycle only, whatever others
    do and wherever it stops: what [CampaignLifecycle] shows of those steps holds of it. *)
Theorem campaign_tick_is_lawful (sha256 to_iso : string -> string) (uuid_text : uuid -> string)
    (locked : timestamp -> uuid -> bool) (e : env_over posted) (n : nat) (w : posted) r n' w'
    (He : relies (follows (Life.cstep sha256 to_iso uuid_text)) e)
    (E : campaigns sha256 to_iso uuid_text locked e n w = (r, n', w')) :
  rtc (Life.cstep sha256 to_iso uuid_text) (db_of w) (db_of w') /\ longer w w'.
Proof. by eapply campaigns_within. Qed.

(** *** The gateway *)

Definition offered_all {A : Type} (e : env_over posted) (k : nat) (job : A -> queue_job)
    (options : A -> timestamp -> job_options) (rows : list A) (w : posted) : Prop :=
  forall i row, rows !! i = Some row -> offered e (k + i) (job row, options row (clock e (k + i)%nat)) w.

Lemma offered_all_later {A} e k job options (rows : list A) w w' : longer w w' ->
  offered_all e k job options rows w -> offered_all e k job options rows w'.
Proof. intros Hl H i row Hi. eapply offered_later; [done|by apply H]. Qed.

(** A statement that does not add jobs *)
Lemma quiet_statement {A} (f : timestamp -> (string -> uuid) -> posted -> A * posted) e n w a n' w' :
  relies longer e -> (forall now ids w, po_jobs (f now ids w).2 = po_jobs w) ->
  await f e n w = (inr a, n', w') -> n' = S n /\ longer w w'.
Proof.
  intros He Hf [-> E]%await_ok. split; [done|]. transitivity (Service.between e n w); [apply He|].
  exists []. specialize (Hf (clock e n) (drawn e n) (Service.between e n w)). rewrite E in Hf. cbn in Hf. by rewrite Hf, app_nil_r.
Qed.

Lemma gateway_statement_quiet {A} (f : timestamp -> gdb -> A * gdb) e n w a n' w' : relies longer e ->
  gateway_statement f e n w = (inr a, n', w') -> n' = S n /\ longer w w'.
Proof. intros He. apply quiet_statement; [done|]. intros. apply on_wdb_jobs. Qed.

(** One list, read and offered *)
Lemma listed_and_offered {A} (rows_of : timestamp -> posted -> list A) job options (k : dserv unit) e n w n' w' : relies longer e ->
  bind (query rows_of) (fun rows => bind (offer job options rows) (fun _ => k)) e n w = (inr tt, n', w') ->
  exists wr w1, let rows := rows_of (clock e n) wr in
    longer w wr /\ longer wr w1 /\ offered_all e (S n) job options rows w1 /\ k e (S n + length rows)%nat w1 = (inr tt, n', w').
Proof.
  intros He (rows & n1 & w1 & E1 & E)%bind_ok. apply query_ok in E1 as (-> & -> & ->).
  apply bind_ok in E as ([] & n2 & w2 & E2 & E). destruct (offer_offers _ _ _ _ _ _ _ _ _ He E2) as (_ & -> & Hl & Ho).
  exists (Service.between e n w), w2. split_and!; [apply He|done|exact Ho|exact E].
Qed.

(** C33: every row that is due is offered to the queue: a dispatch that completes has read the
    pending runs, the open items, the groups to refresh and the open intents, each list once,
    and has added a job for each row of each list, under the row's own job id and with the
    delay until the row is available, unless that very addition failed; a failed addition
    keeps no other row back. *)
Theorem every_due_row_is_offered (sha256 : string -> string) (uuid_text : uuid -> string) (cfg : gateway_config)
    (e : env_over posted) (n : nat) (w : posted) (n' : nat) (w' : posted)
    (He : relies longer e) (E : dispatchOnce sha256 uuid_text cfg e n w = (inr tt, n', w')) :
  exists wr wi wc wt : posted,
    let k1 := (n + 4)%nat in let runs := Runs.listPending (clock e k1) 100 (gateway (po_db wr)) in
    let k2 := (S k1 + length runs)%nat in let items := Items.listDispatchable cfg (clock e k2) 100 (gateway (po_db wi)) in
    let k3 := (S k2 + length items)%nat in
    let refreshes := CapabilityRepo.listNeedingRefresh (SyncService.sync_ahead (gateway (po_db wc)))
                       (intent_open (gateway (po_db wc))) (clock e k3) 100 (db_of wc) in
    let k4 := (S k3 + length refreshes)%nat in let intents := Intents.listDispatchable cfg (clock e k4) 100 (gateway (po_db wt)) in
    longer w wr /\ longer wr wi /\ longer wi wc /\ longer wc wt /\ longer wt w' /\
    offered_all e (S k1) sync_job (sync_options uuid_text) runs w' /\
    offered_all e (S k2) item_job (item_options sha256 uuid_text) items w' /\
    offered_all e (S k3) refresh_job (refresh_options sha256) refreshes w' /\
    offered_all e (S k4) intent_job (intent_options sha256) intents w'.
Proof.
  unfold dispatchOnce in E.
  apply bind_ok in E as (a1 & n1 & w1 & [-> L1]%gateway_statement_quiet & E); [|done].
  apply bind_ok in E as (a2 & n2 & w2 & [-> L2]%gateway_statement_quiet & E); [|done].
  apply bind_ok in E as (a3 & n3 & w3 & [-> L3]%quiet_statement & E); [|done|intros; apply on_db_spec].
  apply bind_ok in E as (a4 & n4 & w4 & [-> L4]%gateway_statement_quiet & E); [|done].
  apply listed_and_offered in E as (wr & v1 & Lr & M1 & O1 & E); [|done].
  apply listed_and_offered in E as (wi & v2 & Li & M2 & O2 & E); [|done].
  apply listed_and_offered in E as (wc & v3 & Lc & M3 & O3 & E); [|done].
  apply bind_ok in E as (rows & n5 & w5 & E5 & E). apply query_ok in E5 as (-> & -> & ->).
  destruct (offer_offers _ _ _ _ _ _ _ _ _ He E) as (_ & _ & M4 & O4).
  exists wr, wi, wc. eexists (Service.between e _ v3). replace (n + 4)%nat with (S (S (S (S n)))) by lia. cbv zeta.
  assert (N4 : longer v3 w') by (etransitivity; [apply He|exact M4]).
  assert (N3 : longer v2 w') by (transitivity wc; [done|]; by transitivity v3).
  assert (N2 : longer v1 w') by (transitivity wi; [done|]; by transitivity v2).
  split_and!.
  - transitivity w1; [done|]. transitivity w2; [done|]. transitivity w3; [done|]. by transitivity w4.
  - by transitivity v1.
  - by transitivity v2.
  - transitivity v3; [done|]. apply He.
  - exact M4.
  - eapply offered_all_later; [exact N2|exact O1].
  - eapply offered_all_later; [exact N3|exact O2].
  - eapply offered_all_later; [exact N4|exact O3].
  - exact O4.
Qed.

(** *** Webhooks *)

(** The additions stop at the first that fails; the rows before it were added, and those
    after it are dispatchable still, for nothing was written. *)
Lemma process_all_spec sha256 keys e n w (r : failure + unit) n' w' : relies longer e ->
  process_all sha256 keys e n w = (r, n', w') ->
  exists k, (k <= length keys)%nat /\ (r = inr tt -> k = length keys) /\
    forall key, key ∈ take k keys -> exists options, (ProcessWebhook key, options) ∈ po_jobs w'.
Proof.
  intros He. revert n w. induction keys as [|key rest IH]; intros n w; cbn [process_all].
  - intros [= <- <- <-]. exists 0%nat. split_and!; [done|done|]. by intros key ?%elem_of_nil.
  - unfold bind. destruct (publish (ProcessWebhook key) (webhook_options sha256 key) e n w) as [[[f|[]] n1] w1] eqn:E1.
    + intros [= <- _ <-]. exists 0%nat. split_and!; [lia|done|]. by intros ? ?%elem_of_nil.
    + intros E. destruct (IH _ _ E) as (k & Hk & Hr & Hin). exists (S k). cbn [length take].
      split_and!; [lia|intros Hx; by rewrite (Hr Hx)|]. intros key' [->|Hx]%elem_of_cons; [|by apply Hin].
      pose proof (publish_offers _ _ _ _ _ _ _ _ E1) as [_ [Ho|[m Hf]]].
      * eexists. eapply longer_in; [|exact Ho].
        assert (Hp : within longer (process_all sha256 rest)).
        { clear. induction rest as [|x l IH]; cbn [process_all]; [apply within_ret; apply _|].
          apply within_bind; [apply _| |done]. apply within_await; [apply _|]. intros. by eexists. }
        by eapply Hp.
      * unfold publish, await in E1. by rewrite Hf in E1.
Qed.

(** *** Job ids *)

Fixpoint colonless (s : string) : bool :=
  match s with
  | EmptyString => true
  | String c s' => negb (Ascii.eqb c ":"%char) && colonless s'
  end.

Lemma cut_at_colon s s' t t' : colonless s = true -> colonless s' = true ->
  (s ++ ":" ++ t)%string = (s' ++ ":" ++ t')%string -> s = s' /\ t = t'.
Proof.
  revert s'. induction s as [|c s IH]; intros [|c' s']; cbn [colonless]; rewrite ?andb_true_iff, ?negb_true_iff; intros Hs Hs' E.
  - split; [done|]. by injection E.
  - injection E as <- _. by destruct Hs' as [Hs' _].
  - injection E as -> _. by destruct Hs as [Hs _].
  - injection E as <- E. destruct (IH s' (proj2 Hs) (proj2 Hs') E) as [-> ->]. done.
Qed.

(** The queue drops a job whose id it has; the texts behind the ids of two different
    refreshes, or of two requests for groups, are different. *)
Lemma revision_text_names_the_work s g r s' g' r' :
  colonless s = true -> colonless s' = true -> colonless g = true -> colonless g' = true ->
  revision_text s g r = revision_text s' g' r' -> s = s' /\ g = g' /\ r = r'.
Proof.
  unfold revision_text. intros Hs Hs' Hg Hg' E. apply cut_at_colon in E as [-> E]; [|done..].
  apply cut_at_colon in E as [-> E]; [|done..]. split_and!; [done..|]. by apply (inj pretty) in E.
Qed.

(** *** Examples *)

(** One due message; the queue is down, so it is put back; then it is up. *)
Definition outage : env_over posted :=
  Env (fun n => 2000 + Z.of_nat n) (fun _ _ => 9%positive) (fun _ w => w) (fun n => if Nat.eqb n 3 then Some (NotRun "no redis") else None).

Definition one_message : posted := Posted (empty_wdb <| gateway := empty_gdb <| core := Runs.created |> |>) [].

Definition text_of_uuid (id : uuid) : string := pretty (Zpos id).


Example outage_puts_back :
  let w' := (messages text_of_uuid (fun _ _ => false) outage 0%nat one_message).2 in
  po_jobs w' = [] /\ mj_status <$> message_jobs (db_of w') !! 7%positive = Some JobStatus.SCHEDULED.
Proof. by vm_compute. Qed.

(** One pending synchronisation *)
Definition one_run : posted :=
  Posted (empty_wdb <| gateway := (Runs.create 1000 5 "s" SyncMode.FULL empty_gdb).2 |>) [].

Definition calm : env_over posted := Env (fun n => 2000 + Z.of_nat n) (fun _ _ => 9%positive) (fun _ w => w) (fun _ => None).

Definition gateway_cfg : gateway_config := default_gateway_config (Config false ["s"] 0 0).

Lemma every_due_row_is_offered_witness : exists n' w',
  dispatchOnce id text_of_uuid gateway_cfg calm 0%nat one_run = (inr tt, n', w') /\
  exists wr, offered_all calm 5 sync_job (sync_options text_of_uuid) (Runs.listPending (clock calm 4) 100 (gateway (po_db wr))) w'.
Proof.
  destruct (dispatchOnce id text_of_uuid gateway_cfg calm 0%nat one_run) as [[r n'] w'] eqn:E.
  assert (Hr : r = inr tt) by by (vm_compute in E; injection E as <- _ _). subst r. exists n', w'. split; [done|].
  assert (He : relies longer calm) by (intros n w; cbn; reflexivity).
  destruct (every_due_row_is_offered id text_of_uuid gateway_cfg calm 0%nat one_run n' w' He E) as (wr & wi & wc & wt & H).
  cbv zeta in H. exists wr. apply H.
Defined.

Example run_is_posted :
  po_jobs (dispatchOnce id text_of_uuid gateway_cfg calm 0%nat one_run).2 = [(FullSessionSync 5 "s", JobOptions "5" None 0)].
Proof. by vm_compute. Qed.

End Dispatch.
