(* ===== verification/CampaignRepair.v ===== *)
(** * Repairing campaigns

    [src/scripts/reconcile-campaign-live-status.ts]: an audit of the status of campaigns
    against their LIVE runs, and a transaction that sets the status of each campaign from its
    LIVE run.  It is run by an operator on tables of which nothing is known beforehand. *)

From S2P Require Import Prelude Schema CampaignRuns CampaignLifecycle.

Module Repair.
Import Persistence RunRepo Life.

Local Open Scope Z_scope.

(** [CampaignLifecycleReconciliationAudit] *)
Record audit := Audit { duplicateLiveCampaigns : Z; lifecycleDrift : Z }.

(** [CampaignLifecycleReconciliationResult] *)
Record result := Result { applied : bool; updated : Z; before_ : audit; after_ : audit }.

(** WHERE .. of the audit's count of drift *)
Definition drifted (d : db) (id : uuid) (c : campaign) : bool :=
  match c_status c with
  | CampaignStatus.DRAFT => 0 <? live_count id d
  | CampaignStatus.ACTIVE => negb (has_live_in non_terminal id d)
  | CampaignStatus.PAUSED => negb (has_live_in [RunStatus.PAUSED; RunStatus.BLOCKED] id d)
  | CampaignStatus.ARCHIVED => has_live_in non_terminal id d
  end.

Definition auditCampaignLifecycle (d : db) : audit :=
  Audit (count_where (fun id _ => 1 <? live_count id d) (campaigns d)) (count_where (drifted d) (campaigns d)).

(** The row of [single_live] of a campaign: min(status) of its only LIVE run *)
Definition single_live (d : db) (id : uuid) : option RunStatus.t :=
  match select_where (live_of id) (campaign_runs d) with
  | [(_, r)] => Some (cr_status r)
  | _ => None
  end.

(** CASE .. END *)
Definition repaired (run : RunStatus.t) (status : CampaignStatus.t) : CampaignStatus.t :=
  if bool_decide (run = RunStatus.PAUSED) then CampaignStatus.PAUSED
  else if bool_decide (run = RunStatus.BLOCKED) && mem status [CampaignStatus.ACTIVE; CampaignStatus.PAUSED] then status
  else if mem run [RunStatus.COMPLETED; RunStatus.PARTIAL_FAILED; RunStatus.CANCELLED; RunStatus.FAILED]
  then CampaignStatus.ARCHIVED
  else CampaignStatus.ACTIVE.

(** The status a campaign is to get, if it is to change *)
Definition repair (d : db) (id : uuid) (c : campaign) : option CampaignStatus.t :=
  match single_live d id with
  | Some run => if bool_decide (c_status c = repaired run (c_status c)) then None else Some (repaired run (c_status c))
  | None => None
  end.

Definition reconcileCampaignLifecycle (now : timestamp) (d : db) : Z * db :=
  (count_where (fun id c => negb (is_null (repair d id c))) (campaigns d),
   d <| campaigns := map_imap (fun id c => Some (match repair d id c with
                                                 | Some s => c <| c_status := s |> <| c_updated_at := now |>
                                                 | None => c
                                                 end)) (campaigns d) |>).

(** One transaction, under a lock on both tables *)
Definition applyCampaignLifecycleReconciliation (now : timestamp) (d : db) : result * db :=
  let before := auditCampaignLifecycle d in
  if 0 <? duplicateLiveCampaigns before then (Result false 0 before before, d)
  else
    let '(n, d1) := reconcileCampaignLifecycle now d in
    (Result true n before (auditCampaignLifecycle d1), d1).

(** [process.exitCode] of a run with or without --apply *)
Definition exit_code (apply : bool) (now : timestamp) (d : db) : Z :=
  if apply
  then let '(r, _) := applyCampaignLifecycleReconciliation now d in
       if negb (applied r) || (0 <? duplicateLiveCampaigns (after_ r)) || (0 <? lifecycleDrift (after_ r)) then 2 else 0
  else let a := auditCampaignLifecycle d in
       if (0 <? duplicateLiveCampaigns a) || (0 <? lifecycleDrift a) then 2 else 0.

(** *** The status that is set *)

(** The CASE is the invariant of the life cycle: it gives a status that fits the run, and
    the old one when that fits already. *)
Lemma repaired_fits run status : live_ok run (repaired run status) = true /\
  (live_ok run status = true <-> repaired run status = status).
Proof. by destruct run, status. Qed.

Lemma single_live_run d id s : single_live d id = Some s -> exists k r, live_run d id k r /\ cr_status r = s /\
  forall k' r', live_run d id k' r' -> k' = k /\ r' = r.
Proof.
  unfold single_live. destruct (select_where (live_of id) (campaign_runs d)) as [|[k r] [|]] eqn:E; [done| |done].
  intros [= <-]. exists k, r.
  assert (Hin : (k, r) ∈ select_where (live_of id) (campaign_runs d)) by (rewrite E; left).
  apply select_where_elem in Hin as [Hk Hl]. split_and!; [by apply live_of_true|done|].
  intros k' r' Hr'. assert (Hin : (k', r') ∈ select_where (live_of id) (campaign_runs d))
    by (apply select_where_elem; split; [apply Hr'|by eapply live_run_of]).
  rewrite E in Hin. apply list_elem_of_singleton in Hin. by injection Hin.
Qed.

(** Without a second LIVE run, the only one decides. *)
Lemma single_live_only d id k r : live_count id d <= 1 -> live_run d id k r -> single_live d id = Some (cr_status r).
Proof.
  unfold live_count, count_where, single_live. intros Hc Hr.
  assert (Hin : (k, r) ∈ select_where (live_of id) (campaign_runs d))
    by (apply select_where_elem; split; [apply Hr|by eapply live_run_of]).
  destruct (select_where _ _) as [|x [|y l]]; [by apply elem_of_nil in Hin| |cbn in Hc; lia].
  apply list_elem_of_singleton in Hin as <-. done.
Qed.

Lemma no_live_count d id : (forall k r, ~ live_run d id k r) -> live_count id d = 0.
Proof.
  intros Hn. apply count_where_zero. intros k r Hk. destruct (live_of id k r) eqn:E; [|done].
  destruct (Hn k r). by apply live_of_true.
Qed.

Lemma no_live_in d id statuses : (forall k r, ~ live_run d id k r) -> has_live_in statuses id d = false.
Proof. intros Hn. apply has_live_in_false. intros k r Hr. by destruct (Hn k r). Qed.

Lemma no_single_live d id : (forall k r, ~ live_run d id k r) -> single_live d id = None.
Proof.
  intros Hn. destruct (single_live d id) as [s|] eqn:E; [|done].
  apply single_live_run in E as (k & r & Hr & _). by destruct (Hn k r).
Qed.

Lemma live_or_none d id : (exists k r, live_run d id k r) \/ forall k r, ~ live_run d id k r.
Proof.
  destruct (exists_where (live_of id) (campaign_runs d)) eqn:E.
  - left. apply exists_where_true in E as (k & r & Hk & Hl). exists k, r. by apply live_of_true.
  - right. intros k r Hr. pose proof (proj1 (exists_where_false _ _) E k r (proj1 Hr)) as H. by rewrite (live_run_of _ _ _ _ Hr) in H.
Qed.

(** A campaign whose status fits its only LIVE run has not drifted. *)
Lemma fits_not_drifted d id c k r : live_count id d <= 1 -> live_run d id k r -> live_ok (cr_status r) (c_status c) = true ->
  drifted d id c = false.
Proof.
  intros Hc Hr Hok. assert (Hall : forall k' r', live_run d id k' r' -> r' = r).
  { intros k' r' Hr'. pose proof (single_live_only d id k r Hc Hr) as Hs. apply single_live_run in Hs as (k0 & r0 & H0 & _ & Hu).
    destruct (Hu _ _ Hr) as [_ ->]. by destruct (Hu _ _ Hr') as [_ ->]. }
  unfold drifted. destruct (c_status c) eqn:Es.
  - exfalso. by destruct (cr_status r).
  - apply negb_false_iff. eapply has_live_in_true; [exact Hr|]. by destruct (cr_status r).
  - apply negb_false_iff. eapply has_live_in_true; [exact Hr|]. by destruct (cr_status r).
  - apply has_live_in_false. intros k' r' ->%Hall. by destruct (cr_status r).
Qed.

(** What no LIVE run can explain *)
Definition orphaned (d : db) (id : uuid) (c : campaign) : bool :=
  mem (c_status c) [CampaignStatus.ACTIVE; CampaignStatus.PAUSED] && (live_count id d =? 0).

Lemma drifted_orphan d id c : (forall k r, ~ live_run d id k r) -> drifted d id c = orphaned d id c.
Proof.
  intros Hn. unfold drifted, orphaned. rewrite (no_live_count _ _ Hn), !(no_live_in _ _ _ Hn). by destruct (c_status c).
Qed.

Lemma count_where_ext {K V : Type} `{Countable K} (P Q : K -> V -> bool) (t : gmap K V) :
  (forall k v, t !! k = Some v -> P k v = Q k v) -> count_where P t = count_where Q t.
Proof.
  intros Heq. unfold count_where, select_where. do 2 f_equal. apply filter_ext_in.
  intros [k v] Hin%list_elem_of_In%elem_of_map_to_list. by apply Heq.
Qed.

(** What a repair makes of one campaign *)
Lemma repaired_campaign now d id : campaigns (reconcileCampaignLifecycle now d).2 !! id =
  (fun c => match repair d id c with Some s => c <| c_status := s |> <| c_updated_at := now |> | None => c end)
  <$> campaigns d !! id.
Proof. cbn. rewrite map_lookup_imap. by destruct (campaigns d !! id). Qed.

Lemma repair_None d id c : repair d id c = None <-> forall run, single_live d id = Some run -> live_ok run (c_status c) = true.
Proof.
  unfold repair. destruct (single_live d id) as [run|]; [|split; [by intros _ run|done]].
  pose proof (repaired_fits run (c_status c)) as [_ Hf]. case_bool_decide as Hb.
  - split; [|done]. intros _ ? [= <-]. by apply Hf.
  - split; [done|]. intros H. destruct Hb. symmetry. by apply Hf, H.
Qed.

Lemma repair_fits d id c run : single_live d id = Some run ->
  live_ok run (match repair d id c with Some s => s | None => c_status c end) = true.
Proof.
  intros Hs. destruct (repair d id c) as [s|] eqn:E; [|by apply (proj1 (repair_None d id c) E)].
  unfold repair in E. rewrite Hs in E. case_bool_decide; [done|]. injection E as <-. apply (repaired_fits run (c_status c)).
Qed.

(** The repair looks at runs only. *)
Lemma repair_same_runs d d' id : campaign_runs d' = campaign_runs d -> single_live d' id = single_live d id.
Proof. unfold single_live. by intros ->. Qed.

Lemma no_duplicates d : (0 <? duplicateLiveCampaigns (auditCampaignLifecycle d)) = false ->
  forall id c, campaigns d !! id = Some c -> live_count id d <= 1.
Proof.
  intros H id c Hc. apply Z.ltb_ge in H. cbn in H.
  pose proof (count_where_nonneg (fun id _ => 1 <? live_count id d) (campaigns d)).
  assert (Hz : count_where (fun id _ => 1 <? live_count id d) (campaigns d) = 0) by lia.
  pose proof (proj1 (count_where_zero _ _) Hz id c Hc) as Hl. cbn in Hl. by apply Z.ltb_ge in Hl.
Qed.

Section Repaired.
Context (now : timestamp) (d : db).
Hypothesis Hone : forall id c, campaigns d !! id = Some c -> live_count id d <= 1.

Abbreviation d' := (reconcileCampaignLifecycle now d).2.

Lemma repair_fits_all id c k run : live_run d id k run -> campaigns d !! id = Some c ->
  exists c', campaigns d' !! id = Some c' /\ live_ok (cr_status run) (c_status c') = true /\
             (live_ok (cr_status run) (c_status c) = true -> c' = c).
Proof.
  intros Hk Hc. pose proof (single_live_only d id k run (Hone id c Hc) Hk) as Hs.
  rewrite repaired_campaign, Hc. eexists. split; [reflexivity|]. pose proof (repair_fits d id c _ Hs) as Hf. split.
  - by destruct (repair d id c).
  - intros Hok. rewrite (proj2 (repair_None d id c)); [done|]. intros s. rewrite Hs. by intros [= <-].
Qed.

Lemma repair_spares id : (forall k run, ~ live_run d id k run) -> campaigns d' !! id = campaigns d !! id.
Proof.
  intros Hn. rewrite repaired_campaign. destruct (campaigns d !! id) as [c|]; [|done]. cbn.
  unfold repair. by rewrite (no_single_live _ _ Hn).
Qed.

Lemma repaired_was id c' : campaigns d' !! id = Some c' -> exists c, campaigns d !! id = Some c.
Proof. rewrite repaired_campaign. intros (c & Hc & _)%fmap_Some. by exists c. Qed.

(** A campaign with a LIVE run fits it afterwards. *)
Lemma repaired_ok id c' k run : live_run d id k run -> campaigns d' !! id = Some c' -> live_ok (cr_status run) (c_status c') = true.
Proof.
  intros Hk Hc'. destruct (repaired_was _ _ Hc') as [c Hc]. destruct (repair_fits_all id c k run Hk Hc) as (c2 & Hc2 & Hok & _).
  congruence.
Qed.

Lemma drift_left : lifecycleDrift (auditCampaignLifecycle d') = count_where (orphaned d') (campaigns d').
Proof.
  apply count_where_ext. intros id c' Hc'. destruct (live_or_none d' id) as [(k & run & Hk)|Hn]; [|by apply drifted_orphan].
  destruct (repaired_was _ _ Hc') as [c Hc].
  rewrite (fits_not_drifted d' id c' k run); [|exact (Hone id c Hc)|done|by eapply repaired_ok]. symmetry. unfold orphaned.
  rewrite (proj2 (Z.eqb_neq _ _)), andb_false_r; [done|]. intros Hz.
  pose proof (proj1 (count_where_zero _ _) Hz k run (proj1 Hk)) as Hx. by rewrite (live_run_of _ _ _ _ Hk) in Hx.
Qed.

Lemma repair_once now2 : (reconcileCampaignLifecycle now2 d').1 = 0.
Proof.
  apply count_where_zero. intros id c' Hc'. rewrite (proj2 (repair_None d' id c')); [done|]. intros s Hs.
  apply single_live_run in Hs as (k & run & Hk & <- & _). by eapply repaired_ok.
Qed.

End Repaired.

(** *** The states the runtime reaches by itself *)

Section Healthy.
Context (d : db).
Hypothesis Hd : life_ok d.

Lemma healthy_single id : live_count id d <= 1.
Proof. apply count_where_le_one. intros k1 r1 k2 r2 H1 L1 H2 L2. eapply (lo_single _ Hd id); by apply live_of_true. Qed.

Lemma healthy_audit : auditCampaignLifecycle d = Audit 0 0.
Proof.
  unfold auditCampaignLifecycle. f_equal; apply count_where_zero; intros id c Hc.
  - apply Z.ltb_ge, healthy_single.
  - destruct (live_or_none d id) as [(k & run & Hk)|Hn].
    + eapply fits_not_drifted; [apply healthy_single|exact Hk|by eapply (lo_live _ Hd)].
    + rewrite drifted_orphan by done. unfold orphaned.
      destruct (lo_launched _ Hd _ _ Hc) as [->|[->|(k & run & Hk)]]; [done|done|by destruct (Hn k run)].
Qed.

Lemma healthy_repair id c : campaigns d !! id = Some c -> repair d id c = None.
Proof.
  intros Hc. apply repair_None. intros s Hs. apply single_live_run in Hs as (k & run & Hk & <- & _). by eapply (lo_live _ Hd).
Qed.

Lemma healthy_reconcile now : reconcileCampaignLifecycle now d = (0, d).
Proof.
  unfold reconcileCampaignLifecycle. rewrite (proj2 (count_where_zero _ _)) by (intros id c Hc; by rewrite (healthy_repair _ _ Hc)).
  pose proof (repaired_campaign now d) as Hrow. cbn in Hrow. set (t := map_imap _ _) in *.
  assert (Ht : t = campaigns d); [|rewrite Ht; by destruct d].
  apply map_eq. intros id. rewrite Hrow. destruct (campaigns d !! id) as [c|] eqn:Hc; [|done]. cbn. by rewrite (healthy_repair _ _ Hc).
Qed.

End Healthy.

(** C11: the repair restores the life cycle.  With two LIVE runs of a campaign it refuses and
    changes nothing.  Otherwise the status of every campaign that has a LIVE run fits that
    run, campaigns that fitted and campaigns without a LIVE run keep their rows, no run is
    touched, a second repair changes nothing, and the drift that is left is exactly the
    campaigns that are ACTIVE or PAUSED without any LIVE run; on every state the runtime
    reaches by itself the repair does nothing and the audit finds nothing. *)
Theorem repair_restores_the_lifecycle (sha256 to_iso : string -> string) (uuid_text : uuid -> string)
    (now now2 : timestamp) (d : db) :
  let '(r, d') := applyCampaignLifecycleReconciliation now d in
  (applied r = false -> d' = d /\ exists id c, campaigns d !! id = Some c /\ 1 < live_count id d) /\
  (applied r = true ->
     campaign_runs d' = campaign_runs d /\
     (forall id c k run, live_run d id k run -> campaigns d !! id = Some c ->
        exists c', campaigns d' !! id = Some c' /\ live_ok (cr_status run) (c_status c') = true /\
                   (live_ok (cr_status run) (c_status c) = true -> c' = c)) /\
     (forall id, (forall k run, ~ live_run d id k run) -> campaigns d' !! id = campaigns d !! id) /\
     lifecycleDrift (after_ r) = count_where (orphaned d') (campaigns d') /\
     (reconcileCampaignLifecycle now2 d').1 = 0) /\
  (lives sha256 to_iso uuid_text d -> r = Result true 0 (Audit 0 0) (Audit 0 0) /\ d' = d).
Proof.
  assert (Hhealthy : lives sha256 to_iso uuid_text d -> life_ok d) by apply lives_ok.
  unfold applyCampaignLifecycleReconciliation.
  destruct (0 <? duplicateLiveCampaigns (auditCampaignLifecycle d)) eqn:Hdup.
  - cbn [applied]. split_and!; [intros _; split; [done|]|done|].
    + apply Z.ltb_lt in Hdup. cbn in Hdup. destruct (exists_where (fun id _ => 1 <? live_count id d) (campaigns d)) eqn:E.
      * apply exists_where_true in E as (id & c & Hc & Hl%Z.ltb_lt). by exists id, c.
      * pose proof (proj2 (count_where_zero (fun id _ => 1 <? live_count id d) (campaigns d)) (proj1 (exists_where_false _ _) E)). lia.
    + intros Hd%Hhealthy. by rewrite (healthy_audit d Hd) in Hdup.
  - pose proof (no_duplicates d Hdup) as Hone. rewrite (surjective_pairing (reconcileCampaignLifecycle now d)).
    split_and!; [done|intros _; split_and!|].
    + done.
    + by apply repair_fits_all.
    + by apply repair_spares.
    + by apply drift_left.
    + by apply repair_once.
    + intros Hd%Hhealthy. rewrite (healthy_reconcile d Hd). cbn [fst snd]. by rewrite (healthy_audit d Hd).
Qed.

(** A campaign that is ACTIVE although its run is paused: the audit does not count it, and
    the repair pauses it. *)
Definition drifting : db := Story.paused <| campaigns := (fun c => c <| c_status := CampaignStatus.ACTIVE |>) <$> campaigns Story.paused |>.

Example audit_misses_a_paused_run : exit_code false 0 drifting = 0 /\
  updated (applyCampaignLifecycleReconciliation 9000 drifting).1 = 1 /\
  c_status <$> campaigns (applyCampaignLifecycleReconciliation 9000 drifting).2 !! 1%positive = Some CampaignStatus.PAUSED.
Proof. by vm_compute. Qed.

Lemma repair_restores_the_lifecycle_witness :
  let d' := (applyCampaignLifecycleReconciliation 9000 drifting).2 in
  (reconcileCampaignLifecycle 9500 d').1 = 0 /\ campaign_runs d' = campaign_runs drifting.
Proof.
  pose proof (repair_restores_the_lifecycle Story.digest Story.iso Story.text_of 9000 9500 drifting) as H.
  destruct (applyCampaignLifecycleReconciliation 9000 drifting) as [r d'] eqn:E.
  assert (Hr : applied r = true) by by (vm_compute in E; injection E as <- _).
  destruct H as (_ & H & _). destruct (H Hr) as (H1 & _ & _ & _ & H2). by split.
Defined.

End Repair.
