(* ===== verification/Migrations.v ===== *)
(** * Schema migrations

    [src/src/core/database/migration-runner.ts]: the SQL files of a directory are applied
    once each, in the order of their names, and their checksums are compared on every later
    run.  The advisory lock of the runner keeps other runners out, so nobody else writes
    while it runs; its statements may still fail, before or after they took effect. *)

From S2P Require Import Prelude Schema SendPolicy Service Rely.

Module Migrations.

(** The rows of [schema_migrations], if the table exists, with their checksums; and what the
    migrations have made of the rest of the database *)
Record migrated (A : Type) := Migrated { schema_migrations : option (gmap string (option string)); content : A }.
Arguments Migrated {A} _ _.
Arguments schema_migrations {A} _.
Arguments content {A} _.

(** [MigrationRunResult] *)
Record run_result := RunResult { applied : list string; checksumsBackfilled : list string }.
#[export] Instance run_result_eta : Eta run_result := fun r => RunResult (applied r) (checksumsBackfilled r).

Section Runner.
Context {A : Type}.
(** The effect of a file's statements, or their error *)
Context (execute : string -> A -> failure + A).
Context (sha256 : string -> string).
(** The directory: [readdir], and [readFile] of a name *)
Context (listing : failure + list string) (readFile : string -> failure + string).

Definition mserv (B : Type) : Type := serv_over (migrated A) B.

Definition rows (s : migrated A) : gmap string (option string) := default ∅ (schema_migrations s).

Definition checksum (contents : string) : string := sha256 contents.

(** [m] and then [h], whether [m] failed or not; the error of [h] comes first. *)
Definition finally {B : Type} (m : mserv B) (h : mserv unit) : mserv B := fun e n s =>
  let '(r, n1, s1) := m e n s in
  match h e n1 s1 with
  | (inl f, n2, s2) => (inl f, n2, s2)
  | (inr _, n2, s2) => (r, n2, s2)
  end.

Definition lift {B : Type} (r : failure + B) : mserv B := match r with inl f => throw f | inr b => ret b end.

Definition lock : mserv unit := query (fun _ _ => tt).
Definition unlock : mserv unit := query (fun _ _ => tt).

(** CREATE TABLE IF NOT EXISTS, and ALTER TABLE .. ADD COLUMN IF NOT EXISTS checksum *)
Definition create_table : mserv unit := await (fun _ _ s => (tt, Migrated (Some (rows s)) (content s))).

Definition is_sql (name : string) : bool := ends_with ".sql" name.

(** SELECT name .. WHERE name LIKE '%.sql' ORDER BY name *)
Definition recorded (s : migrated A) : list string :=
  List.filter is_sql (order_by text_leb (map_to_list (rows s)).*1).

Definition record_file (file sum : string) (s : migrated A) : migrated A :=
  Migrated (Some (<[file := Some sum]> (rows s))) (content s).

(** BEGIN; the file; INSERT; COMMIT *)
Definition migration (file contents : string) (s : migrated A) : (failure + unit) * migrated A :=
  match execute contents (content s) with
  | inl f => (inl f, s)
  | inr a => (inr tt, record_file file (checksum contents) (Migrated (schema_migrations s) a))
  end.

Definition error (m : string) : failure := JsError m.

(** One round of [for (const file of files)] *)
Definition apply_file (file : string) (r : run_result) : mserv run_result :=
  let! contents := lift (readFile file) in
  let! existing := query (fun _ s => rows s !! file) in
  match existing with
  | Some None =>
      let! _ := await (fun _ _ s => (tt, record_file file (checksum contents) s)) in
      ret (r <| checksumsBackfilled := checksumsBackfilled r ++ [file] |>)
  | Some (Some sum) =>
      if String.eqb sum (checksum contents) then ret r
      else throw (error ("Applied migration checksum mismatch: " ++ file))
  | None =>
      let! _ := attempt (fun _ _ => migration file contents) in
      ret (r <| applied := applied r ++ [file] |>)
  end.

Fixpoint apply_files (files : list string) (r : run_result) : mserv run_result :=
  match files with
  | [] => ret r
  | file :: rest => let! r' := apply_file file r in apply_files rest r'
  end.

Definition migrate : mserv run_result :=
  let! _ := create_table in
  let! names := lift listing in
  let files := order_by text_leb (List.filter is_sql names) in
  let! known := query (fun _ s => recorded s) in
  match List.find (fun name => negb (mem name files)) known with
  | Some missing => throw (error ("Applied migration file missing: " ++ missing))
  | None => apply_files files (RunResult [] [])
  end.

Definition runMigrations : mserv run_result := let! _ := lock in finally migrate unlock.

(** *** What a run does *)

(** The contents of the files, applied one after the other *)
Fixpoint execute_all (files : list string) (a : A) : option A :=
  match files with
  | [] => Some a
  | file :: rest =>
      match readFile file with
      | inr contents => match execute contents a with inr a' => execute_all rest a' | inl _ => None end
      | inl _ => None
      end
  end.

Lemma execute_all_app l1 l2 a : execute_all (l1 ++ l2) a = a' ← execute_all l1 a; execute_all l2 a'.
Proof.
  revert a. induction l1 as [|f l1 IH]; intros a; cbn; [done|]. destruct (readFile f) as [|c]; [done|].
  by destruct (execute c a).
Qed.

(** The file is recorded with the checksum of what it holds. *)
Definition vouched (t : gmap string (option string)) (file : string) : Prop :=
  exists contents, readFile file = inr contents /\ t !! file = Some (Some (checksum contents)).

(** [s'] has [done_] executed after [s], in this order, and recorded; the checksums of [named]
    were filled in; nothing else differs. *)
Record advanced (s s' : migrated A) (done_ named : list string) : Prop := Advanced {
  ad_content : execute_all done_ (content s) = Some (content s');
  ad_new file : file ∈ done_ -> rows s !! file = None;
  ad_named file : file ∈ named -> rows s !! file = Some None;
  ad_vouched file : file ∈ done_ ++ named -> vouched (rows s') file;
  ad_other file : file ∉ done_ ++ named -> rows s' !! file = rows s !! file }.

Lemma advanced_refl s : advanced s s [] [].
Proof. split; [done|by intros f ?%elem_of_nil..|done]. Qed.

Lemma advanced_trans s1 s2 s3 d1 n1 d2 n2 : advanced s1 s2 d1 n1 -> advanced s2 s3 d2 n2 ->
  advanced s1 s3 (d1 ++ d2) (n1 ++ n2).
Proof.
  intros [C1 N1 M1 V1 O1] [C2 N2 M2 V2 O2].
  assert (Hkeep : forall f, f ∈ d1 ++ n1 -> f ∉ d2 ++ n2).
  { intros f Hf Hin. destruct (V1 f Hf) as (c & _ & Hc). apply elem_of_app in Hin as [Hin|Hin];
      [specialize (N2 f Hin)|specialize (M2 f Hin)]; congruence. }
  assert (Hold : forall f, f ∈ d2 ++ n2 -> rows s2 !! f = rows s1 !! f).
  { intros f Hf. apply O1. intros Hf1. by destruct (Hkeep f Hf1). }
  split.
  - by rewrite execute_all_app, C1.
  - intros f [Hf|Hf]%elem_of_app; [by apply N1|]. rewrite <- Hold; [by apply N2|]. apply elem_of_app. by left.
  - intros f [Hf|Hf]%elem_of_app; [by apply M1|]. rewrite <- Hold; [by apply M2|]. apply elem_of_app. by right.
  - intros f Hf. destruct (decide (f ∈ d2 ++ n2)) as [H2|H2]; [by apply V2|].
    unfold vouched. rewrite (O2 f H2). apply V1. set_solver.
  - intros f Hf. rewrite O2, O1 by set_solver. done.
Qed.

Lemma vouched_advanced s s' d m f : advanced s s' d m -> vouched (rows s) f -> vouched (rows s') f.
Proof.
  intros Ha Hv. destruct (decide (f ∈ d ++ m)) as [H|H]; [by apply (ad_vouched _ _ _ _ Ha)|].
  unfold vouched. by rewrite (ad_other _ _ _ _ Ha f H).
Qed.

Lemma vouched_recorded s file contents : readFile file = inr contents ->
  vouched (rows (record_file file (checksum contents) s)) file.
Proof. intros H. exists contents. split; [done|]. cbn. by rewrite lookup_insert_eq. Qed.

(** One file: executed, or its checksum filled in, or neither *)
Inductive filed (file : string) : list string -> list string -> Prop :=
  | filed_not : filed file [] []
  | filed_applied : filed file [file] []
  | filed_named : filed file [] [file].

Definition filed_run (file : string) (r : run_result) (s : migrated A) (x : failure + run_result) (s' : migrated A) : Prop :=
  exists d m, filed file d m /\ advanced s s' d m /\
    forall r', x = inr r' -> vouched (rows s') file /\ r' = RunResult (applied r ++ d) (checksumsBackfilled r ++ m).

Lemma filed_run_failed file r s f : filed_run file r s (inl f) s.
Proof. exists [], []. split; [constructor|]. split; [apply advanced_refl|done]. Qed.

Lemma filed_run_kept file r s : vouched (rows s) file -> filed_run file r s (inr r) s.
Proof.
  intros Hv. exists [], []. split; [constructor|]. split; [apply advanced_refl|]. intros r' [= <-].
  split; [done|]. rewrite !app_nil_r. by destruct r.
Qed.

Lemma filed_run_named file contents r s x : readFile file = inr contents -> rows s !! file = Some None ->
  (forall r', x = inr r' -> r' = RunResult (applied r) (checksumsBackfilled r ++ [file])) ->
  filed_run file r s x (record_file file (checksum contents) s).
Proof.
  intros Er Erow Hx. exists [], [file]. split; [constructor|]. split.
  - split; [done|by intros ? ?%elem_of_nil|by intros ? ->%list_elem_of_singleton| |].
    + intros ? ->%list_elem_of_singleton. by apply vouched_recorded.
    + intros f Hf. cbn. rewrite lookup_insert_ne; [done|]. set_solver.
  - intros r' Hr'. split; [by apply vouched_recorded|]. rewrite app_nil_r. by apply Hx.
Qed.

Lemma filed_run_applied file contents a r s x : readFile file = inr contents -> rows s !! file = None ->
  execute contents (content s) = inr a ->
  (forall r', x = inr r' -> r' = RunResult (applied r ++ [file]) (checksumsBackfilled r)) ->
  filed_run file r s x (record_file file (checksum contents) (Migrated (schema_migrations s) a)).
Proof.
  intros Er Erow Ex Hx. exists [file], []. split; [constructor|]. split.
  - split; cbn; rewrite ?Er, ?Ex; [done|by intros ? ->%list_elem_of_singleton|by intros ? ?%elem_of_nil| |].
    + intros ? ->%list_elem_of_singleton. by apply vouched_recorded.
    + intros f Hf. rewrite lookup_insert_ne; [done|]. set_solver.
  - intros r' Hr'. split; [by apply vouched_recorded|]. rewrite app_nil_r. by apply Hx.
Qed.

Lemma apply_file_spec file r e n s x n' s' : undisturbed e -> apply_file file r e n s = (x, n', s') ->
  filed_run file r s x s'.
Proof.
  intros He. unfold apply_file. unfold bind at 1, lift.
  destruct (readFile file) as [f|contents] eqn:Er; [intros [= <- _ <-]; apply filed_run_failed|]. cbn.
  unfold bind at 1. destruct (query _ e n s) as [[[f|row] n1] s1] eqn:E1;
    destruct (query_undisturbed _ _ _ _ _ _ _ He E1) as [-> Hrow]; [intros [= <- _ <-]; apply filed_run_failed|].
  rewrite (Hrow row eq_refl). destruct (rows s !! file) as [[sum|]|] eqn:Erow.
  - destruct (String.eqb_spec sum (checksum contents)) as [->|]; intros [= <- _ <-]; [|apply filed_run_failed].
    apply filed_run_kept. by exists contents.
  - unfold bind. destruct (await _ e n1 s) as [[x2 n2] s2] eqn:E2.
    destruct (await_undisturbed _ _ _ _ _ _ _ He E2) as [[-> _]|[-> [g ->]]];
      [|intros [= <- _ <-]; apply filed_run_failed].
    destruct x2; intros [= <- _ <-]; apply filed_run_named; try done. by intros r' [= <-].
  - unfold bind. destruct (attempt _ e n1 s) as [[x2 n2] s2] eqn:E2.
    destruct (attempt_undisturbed _ _ _ _ _ _ _ He E2) as [(y & Hy & Hok)|[-> [g ->]]];
      [|intros [= <- _ <-]; apply filed_run_failed].
    unfold migration in Hy. destruct (execute contents (content s)) as [g|a] eqn:Ex; injection Hy as <- <-.
    { destruct x2 as [f|[]]; [|by specialize (Hok tt eq_refl)]. intros [= <- _ <-]. apply filed_run_failed. }
    destruct x2; intros [= <- _ <-]; eapply filed_run_applied; try done. by intros r' [= <-].
Qed.

(** The SQL files of the directory, in order *)
Definition sql_files : list string :=
  match listing with inl _ => [] | inr names => order_by text_leb (List.filter is_sql names) end.

(** From [s] to [s'] the files [front] of [files] were gone through. *)
Record walked (files : list string) (s s' : migrated A) (front done_ named : list string) : Prop := Walked {
  wk_front : front `prefix_of` files;
  wk_done : done_ `sublist_of` front;
  wk_named : named `sublist_of` front;
  wk_advanced : advanced s s' done_ named;
  wk_vouched file : file ∈ front -> vouched (rows s') file }.

Lemma walked_refl files s : walked files s s [] [] [].
Proof. split; [apply prefix_nil|done..|apply advanced_refl|by intros f ?%elem_of_nil]. Qed.

Lemma walked_cons file files s1 s2 s3 d1 m1 front d2 m2 : filed file d1 m1 -> advanced s1 s2 d1 m1 ->
  vouched (rows s2) file -> walked files s2 s3 front d2 m2 ->
  walked (file :: files) s1 s3 (file :: front) (d1 ++ d2) (m1 ++ m2).
Proof.
  intros Hf Ha Hv [Hp Hd Hm Ha2 Hv2]. split.
  - by apply prefix_cons.
  - destruct Hf; by constructor.
  - destruct Hf; by constructor.
  - by eapply advanced_trans.
  - intros f [->|Hin]%elem_of_cons; [by eapply vouched_advanced|by apply Hv2].
Qed.

(** A round that stopped at [file] *)
Lemma walked_stopped file files s s' d m : filed file d m -> advanced s s' d m ->
  exists front, walked (file :: files) s s' front d m.
Proof.
  intros Hf Ha. destruct Hf; [exists []|exists [file]..].
  1: by split; [apply prefix_nil|done..|by intros f ?%elem_of_nil].
  all: split; [by apply prefix_cons, prefix_nil|by repeat constructor..|done|].
  all: by intros f ->%list_elem_of_singleton; apply (ad_vouched _ _ _ _ Ha), elem_of_app; set_solver.
Qed.

Lemma apply_files_spec files : forall r e n s x n' s', undisturbed e -> apply_files files r e n s = (x, n', s') ->
  exists front d m, walked files s s' front d m /\
    forall r', x = inr r' -> front = files /\ r' = RunResult (applied r ++ d) (checksumsBackfilled r ++ m).
Proof.
  induction files as [|file files IH]; intros r e n s x n' s' He; cbn.
  - intros [= <- _ <-]. exists [], [], []. split; [apply walked_refl|]. intros r' [= <-]. split; [done|].
    rewrite !app_nil_r. by destruct r.
  - unfold bind. destruct (apply_file file r e n s) as [[x1 n1] s1] eqn:E1.
    destruct (apply_file_spec _ _ _ _ _ _ _ _ He E1) as (d1 & m1 & Hf & Ha & Hok). destruct x1 as [f|r1].
    + intros [= <- _ <-]. destruct (walked_stopped _ files _ _ _ _ Hf Ha) as [front Hw]. by exists front, d1, m1.
    + intros E2. destruct (Hok _ eq_refl) as [Hv ->].
      destruct (IH _ _ _ _ _ _ _ He E2) as (front & d2 & m2 & Hw & Hr).
      exists (file :: front), (d1 ++ d2), (m1 ++ m2). split; [by eapply walked_cons|].
      intros r' E. destruct (Hr r' E) as [-> ->]. by rewrite !app_assoc.
Qed.

Lemma recorded_elem s name : name ∈ recorded s <-> is_Some (rows s !! name) /\ is_sql name = true.
Proof.
  unfold recorded. rewrite list_elem_of_In, filter_In, <- list_elem_of_In, order_by_elem, list_elem_of_fmap.
  split; intros [H1 H2]; (split; [|done]).
  - destruct H1 as ([k v] & -> & Hk%elem_of_map_to_list). by exists v.
  - destruct H1 as [v Hv]. exists (name, v). by rewrite elem_of_map_to_list.
Qed.

Lemma none_missing s files : List.find (fun name => negb (mem name files)) (recorded s) = None <->
  forall name, is_Some (rows s !! name) -> is_sql name = true -> name ∈ files.
Proof.
  split.
  - intros H name H1 H2. assert (Hin : name ∈ recorded s) by by apply recorded_elem.
    apply list_elem_of_In in Hin. pose proof (find_none _ _ H _ Hin) as Hn. apply negb_false_iff in Hn. by apply mem_true.
  - intros H. destruct (List.find _ _) as [name|] eqn:E; [|done]. apply find_some in E as [Hin Hn].
    apply list_elem_of_In, recorded_elem in Hin as [H1 H2]. specialize (H name H1 H2). apply negb_true_iff in Hn.
    by apply mem_false in Hn.
Qed.

Definition with_table (s : migrated A) : migrated A := Migrated (Some (rows s)) (content s).

Lemma walked_table files s s' front d m : walked files (with_table s) s' front d m -> walked files s s' front d m.
Proof. intros [? ? ? [? ? ? ? ?] ?]. by split. Qed.

Lemma walked_from_table files s : walked files s (with_table s) [] [] [].
Proof. by apply walked_table, walked_refl. Qed.

Lemma finally_undisturbed {B} (m : mserv B) e n s r n' s' : undisturbed e -> finally m unlock e n s = (r, n', s') ->
  exists r1 n1, m e n s = (r1, n1, s') /\ forall b, r = inr b -> r1 = inr b.
Proof.
  intros He. unfold finally. destruct (m e n s) as [[r1 n1] s1]. destruct (unlock e n1 s1) as [[u n2] s2] eqn:Eu.
  apply query_undisturbed in Eu as [-> _]; [|done]. destruct u as [f|[]]; intros [= <- <- <-]; by exists r1, n1.
Qed.

(** A run that ends well went through all the files; one that fails stopped somewhere. *)
Definition run_report (s : migrated A) (r : failure + run_result) (s' : migrated A) : Prop :=
  exists front done_ named, walked sql_files s s' front done_ named /\
    forall res, r = inr res -> front = sql_files /\ res = RunResult done_ named /\
      forall name, is_Some (rows s !! name) -> is_sql name = true -> name ∈ sql_files.

Lemma run_report_failed s f : run_report s (inl f) s.
Proof. exists [], [], []. by split; [apply walked_refl|]. Qed.

Lemma migrate_spec e n s r n' s' : undisturbed e -> migrate e n s = (r, n', s') -> run_report s r s'.
Proof.
  intros He. unfold migrate. unfold bind at 1. destruct (create_table e n s) as [[x1 n1] s1] eqn:E1.
  destruct (await_undisturbed _ _ _ _ _ _ _ He E1) as [[Hs _]|[-> [g ->]]];
    [|intros [= <- _ <-]; apply run_report_failed].
  cbn in Hs. fold (with_table s) in Hs. subst s1.
  assert (Hnot : forall f, run_report s (inl f) (with_table s)).
  { intros f. exists [], [], []. by split; [apply walked_from_table|]. }
  destruct x1 as [f|[]]; [intros [= <- _ <-]; apply Hnot|].
  unfold bind at 1, lift. destruct listing as [f|names] eqn:El; [intros [= <- _ <-]; apply Hnot|]. cbn.
  unfold bind at 1. destruct (query _ e n1 _) as [[known n2] s2] eqn:E2.
  destruct (query_undisturbed _ _ _ _ _ _ _ He E2) as [-> Hk]. destruct known as [f|known]; [intros [= <- _ <-]; apply Hnot|].
  rewrite (Hk _ eq_refl). destruct (List.find _ _) as [name|] eqn:Em; [intros [= <- _ <-]; apply Hnot|].
  rewrite none_missing in Em. intros E3. destruct (apply_files_spec _ _ _ _ _ _ _ _ He E3) as (front & d & m & Hw & Hr).
  exists front, d, m. unfold sql_files. rewrite El. split; [by apply walked_table|].
  intros res E. by destruct (Hr res E) as [-> ->].
Qed.

(** *** A run that nothing disturbs *)

Definition pending (s : migrated A) (files : list string) : list string :=
  List.filter (fun f => bool_decide (rows s !! f = None)) files.
Definition unnamed (s : migrated A) (files : list string) : list string :=
  List.filter (fun f => bool_decide (rows s !! f = Some None)) files.

(** The file can be read, and if it is recorded with a checksum, it is the one it has. *)
Definition intact (s : migrated A) (file : string) : Prop :=
  exists contents, readFile file = inr contents /\
    (rows s !! file = None \/ rows s !! file = Some None \/ rows s !! file = Some (Some (checksum contents))).

Lemma same_rows_elsewhere s s' file files : file ∉ files -> (forall f, f <> file -> rows s' !! f = rows s !! f) ->
  pending s' files = pending s files /\ unnamed s' files = unnamed s files /\
  ((forall f, f ∈ files -> intact s f) -> forall f, f ∈ files -> intact s' f).
Proof.
  intros Hn Hr. assert (Hin : forall f, f ∈ files -> rows s' !! f = rows s !! f).
  { intros f Hf. apply Hr. by intros ->. }
  split; [|split].
  - apply filter_ext_in. intros f Hf%list_elem_of_In. by rewrite Hin.
  - apply filter_ext_in. intros f Hf%list_elem_of_In. by rewrite Hin.
  - intros H f Hf. destruct (H f Hf) as (c & Hc & Ht). exists c. split; [done|]. by rewrite Hin.
Qed.

(** One file then: the steps of [apply_file] *)
Lemma apply_file_alone file r e n s a : alone e -> intact s file -> execute_all (pending s [file]) (content s) = Some a ->
  exists n' s', apply_file file r e n s =
      (inr (RunResult (applied r ++ pending s [file]) (checksumsBackfilled r ++ unnamed s [file])), n', s') /\
    content s' = a /\ forall f, f <> file -> rows s' !! f = rows s !! f.
Proof.
  intros He (contents & Hc & Ht). unfold apply_file. unfold bind at 1, lift. rewrite Hc. cbn.
  unfold bind at 1. unfold query at 1. rewrite (await_alone _ _ _ _ He). cbn.
  unfold pending, unnamed. destruct Ht as [Ht|[Ht|Ht]]; cbn [List.filter]; rewrite Ht; cbn.
  - rewrite Hc. destruct (execute contents (content s)) as [f|a'] eqn:Ex; [done|]. intros [= ->].
    unfold bind at 1, attempt, bind. rewrite (await_alone _ _ _ _ He). unfold migration. rewrite Ex. cbn.
    eexists _, _. split; [by rewrite app_nil_r|]. split; [done|]. intros f Hf. cbn. by rewrite lookup_insert_ne.
  - intros [= <-]. unfold bind at 1. rewrite (await_alone _ _ _ _ He). cbn.
    eexists _, _. split; [by rewrite app_nil_r|]. split; [done|]. intros f Hf. cbn. by rewrite lookup_insert_ne.
  - intros [= <-]. rewrite String.eqb_refl. eexists _, _. rewrite !app_nil_r. by destruct r.
Qed.

Lemma apply_files_alone files : forall r e n s a, alone e -> NoDup files -> (forall f, f ∈ files -> intact s f) ->
  execute_all (pending s files) (content s) = Some a ->
  exists n' s', apply_files files r e n s =
      (inr (RunResult (applied r ++ pending s files) (checksumsBackfilled r ++ unnamed s files)), n', s') /\ content s' = a.
Proof.
  induction files as [|file files IH]; intros r e n s a He Hnd Hin Hex; cbn [apply_files].
  - exists n, s. injection Hex as <-. cbn. rewrite !app_nil_r. by destruct r.
  - apply NoDup_cons in Hnd as [Hnew Hnd].
    assert (Hp : forall g : string -> bool, List.filter g (file :: files) = List.filter g [file] ++ List.filter g files)
      by (intros g; cbn; by destruct (g file)).
    unfold pending in Hex. rewrite Hp, execute_all_app in Hex. apply bind_Some in Hex as (a1 & Ha1 & Ha2).
    destruct (apply_file_alone file r e n s a1 He) as (n1 & s1 & E1 & Hc1 & Hr1); [apply Hin; set_solver|done|].
    unfold bind. rewrite E1. destruct (same_rows_elsewhere s s1 file files Hnew Hr1) as (Hpe & Hu & Hint).
    edestruct (IH (RunResult (applied r ++ pending s [file]) (checksumsBackfilled r ++ unnamed s [file])) e n1 s1 a He Hnd)
      as (n' & s' & E & Hc).
    + apply Hint. intros f Hf. apply Hin. set_solver.
    + rewrite Hpe, Hc1. exact Ha2.
    + exists n', s'. rewrite E, Hpe, Hu. cbn [applied checksumsBackfilled]. unfold pending, unnamed.
      by rewrite !(Hp (fun f => bool_decide _)), !app_assoc.
Qed.

(** When nothing disturbs a run, the directory holds every recorded migration, what is
    recorded of its files is right and the files still to apply execute, the run succeeds:
    it applies exactly these, in order, fills in exactly the missing checksums, and leaves
    what the files make of the database. *)
Theorem pending_migrations_are_applied e n s names a : alone e -> listing = inr names -> NoDup names ->
  (forall name, is_Some (rows s !! name) -> is_sql name = true -> name ∈ sql_files) ->
  (forall file, file ∈ sql_files -> intact s file) ->
  execute_all (pending s sql_files) (content s) = Some a ->
  exists n' s', runMigrations e n s = (inr (RunResult (pending s sql_files) (unnamed s sql_files)), n', s') /\ content s' = a.
Proof.
  intros He El Hnd Hknown Hin Hex. unfold runMigrations, bind. unfold lock, query. rewrite (await_alone _ _ _ _ He). cbn.
  unfold finally, migrate. unfold bind at 1, create_table. rewrite (await_alone _ _ _ _ He). cbn. fold (with_table s).
  unfold sql_files in *. rewrite El in *. cbn. unfold bind at 1, query. rewrite (await_alone _ _ _ _ He). cbn.
  rewrite (proj2 (none_missing (with_table s) _) Hknown).
  edestruct (apply_files_alone (order_by text_leb (List.filter is_sql names)) (RunResult [] []) e (S (S (S n))) (with_table s) a He)
    as (n' & s' & E & Hc); [|exact Hin|exact Hex|].
  - rewrite order_by_Permutation. by apply NoDup_ListNoDup, List.NoDup_filter, NoDup_ListNoDup.
  - rewrite E. unfold unlock, query. rewrite (await_alone _ _ _ _ He). by exists (S n'), s'.
Qed.

(** C35: whatever statement of a run fails, before or after it took effect, the migrations
    that were executed are the files of a beginning of the directory, in the order of their
    names, that were not recorded; each was executed once, on what the ones before it had
    made, and stands recorded with the checksum of what it holds; nothing else is changed.
    A run that ends well has gone through all the files, reports exactly what it did, and
    leaves no recorded migration without its file and no file whose content is not the one
    recorded: a file changed after it was applied makes every later run fail. *)
Theorem migrations_are_applied_once_in_order e n s r n' s' : undisturbed e ->
  runMigrations e n s = (r, n', s') -> run_report s r s'.
Proof.
  intros He. unfold runMigrations, bind. destruct (lock e n s) as [[x n1] s1] eqn:E1.
  destruct (query_undisturbed _ _ _ _ _ _ _ He E1) as [-> _]. destruct x as [f|[]].
  - intros [= <- _ <-]. apply run_report_failed.
  - intros E2. destruct (finally_undisturbed _ _ _ _ _ _ _ He E2) as (r1 & n2 & E3 & Hr).
    apply migrate_spec in E3 as (front & d & m & Hw & Hok); [|done].
    exists front, d, m. split; [done|]. intros res E. by apply Hok, Hr.
Qed.

End Runner.
(** *** A directory of three migrations, one applied before checksums were recorded *)
Module Story.

Definition run_sql (contents : string) (log : list string) : failure + list string :=
  if String.eqb contents "broken" then inl (error "syntax error") else inr (log ++ [contents]).
Definition digest (contents : string) : string := "#" ++ contents.
Definition names : list string := ["003_c.sql"; "001_a.sql"; "README.md"; "002_b.sql"].
Definition read (name : string) : failure + string :=
  if String.eqb name "001_a.sql" then inr "a" else if String.eqb name "002_b.sql" then inr "b" else inr "c".
Definition start : migrated (list string) := Migrated (Some {["001_a.sql" := None]}) ["a"].
Definition calm : env_over (migrated (list string)) :=
  Env (fun n => Z.of_nat n) (fun _ _ => 1%positive) (fun _ w => w) (fun _ => None).

(** The connection breaks when the second file was committed (await 5, after the lock, the
    table, the list, and two awaits for the first file, the lookup of the second). *)
Definition flaky : env_over (migrated (list string)) :=
  Env (fun n => Z.of_nat n) (fun _ _ => 1%positive) (fun _ w => w)
    (fun n => if (n =? 6)%nat then Some (NotAnswered "connection reset") else None).

Abbreviation run e w := (runMigrations run_sql digest (inr names) read e 0 w).

Example broken_run : (run flaky start).1.1 = inl (Broken "connection reset") /\
  content (run flaky start).2 = ["a"; "b"] /\
  (run calm (run flaky start).2).1.1 = inr (RunResult ["003_c.sql"] []) /\
  content (run calm (run flaky start).2).2 = ["a"; "b"; "c"].
Proof. by vm_compute. Qed.

Lemma migrations_are_applied_once_in_order_witness :
  exists front done_ named, walked run_sql digest read ["001_a.sql"; "002_b.sql"; "003_c.sql"] start (run flaky start).2 front done_ named.
Proof.
  assert (He : undisturbed flaky) by by intros n w. destruct (run flaky start) as [[r n'] s'] eqn:E.
  destruct (migrations_are_applied_once_in_order run_sql digest (inr names) read flaky 0 start r n' s' He E) as (f & d & m & H & _).
  exists f, d, m.
  replace ["001_a.sql"; "002_b.sql"; "003_c.sql"] with (sql_files (inr names)) by (by vm_compute). exact H.
Defined.

Lemma pending_migrations_are_applied_witness :
  exists n' s', run calm start = (inr (RunResult ["002_b.sql"; "003_c.sql"] ["001_a.sql"]), n', s') /\ content s' = ["a"; "b"; "c"].
Proof.
  apply (pending_migrations_are_applied run_sql digest (inr names) read calm 0 start names ["a"; "b"; "c"]).
  - by split.
  - reflexivity.
  - by apply (bool_decide_eq_true_1 _); vm_compute.
  - intros name [v Hv] _. cbn in Hv. apply lookup_singleton_Some in Hv as [<- _]. vm_compute. left.
  - intros file Hf. change (file ∈ ["001_a.sql"; "002_b.sql"; "003_c.sql"]) in Hf.
    apply elem_of_cons in Hf as [->|[->|[->|Hf%elem_of_nil]%elem_of_cons]%elem_of_cons]; [..|done].
    + exists "a". split; [done|]. right. by left.
    + exists "b". split; [done|]. by left.
    + exists "c". split; [done|]. by left.
  - by vm_compute.
Defined.

End Story.

End Migrations.
