(* ===== verification/StorageAcceptance.v ===== *)
(** * The storage acceptance gate

    [evaluateRuntimeStorageAcceptance] of
    [src/src/core/observability/runtime-storage-acceptance.ts], which reads the hourly
    samples of the disk, the tables and the retention ticks and decides PASS, PENDING or FAIL.
    Numbers are exact rationals: the samples are integers below 2^53, where sums,
    differences and comparisons of doubles are exact; a quotient (a slope, a rate, a ratio)
    is rounded to a double by the program and not here.  The [evidence] texts and the ISO
    form of the dates are left out, and so are the two parsers. *)

From S2P Require Import Prelude.
From Stdlib Require Import QArith Qminmax Qround Lqa.

Module Acceptance.

Local Open Scope Q_scope.

Abbreviation number := Q.

Definition lt (a b : number) : bool := negb (Qle_bool b a).
Definition le (a b : number) : bool := Qle_bool a b.
Definition same (a b : number) : bool := Qeq_bool a b.
Definition of_nat (n : nat) : number := inject_Z (Z.of_nat n).

Definition DAY_MS : number := 86400000.
Definition HOUR_MS : number := 3600000.
Definition GIB : number := 1073741824.

Inductive retained_table := webhook_events | runtime_events | inbound_messages | contact_observations.
Definition RETAINED_TABLES : list retained_table :=
  [webhook_events; runtime_events; inbound_messages; contact_observations].

Inductive acceptance_status := PASS | PENDING | FAIL.
#[export] Instance acceptance_status_eq_dec : EqDecision acceptance_status.
Proof. solve_decision. Defined.

(** [TableObservation] *)
Record table_observation := TableObservation {
  bytes : number; liveRows : number; deadRows : number;
  insertedTotal : number; deletedTotal : number; autovacuumTotal : number }.

(** [RuntimeStorageObservation] *)
Record storage_observation := StorageObservation {
  observedAtMs : number;
  rootSizeBytes : number; rootUsedBytes : number; rootAvailableBytes : number; rootUsedPercent : number;
  databaseBytes : number;
  tables : retained_table -> table_observation;
  pendingRows : number; processingRows : number; retryRows : number; intentDeadRows : number;
  oldestActiveSeconds : number }.

(** [RuntimeRetentionObservation] *)
Record retention_observation := RetentionObservation {
  timestampMs : number; durationMs : number; capacityExhausted : bool; batches : number;
  deleted : retained_table -> number }.

(** [StorageAcceptanceOptions] *)
Record acceptance_options := AcceptanceOptions {
  minimumObservationDays : number; expectedIntervalMs : number; minimumCoverageRatio : number;
  maximumSampleGapMs : number; targetDiskGiB : number; filesystemSizeTolerance : number;
  minimumHeadroomDays : number; retentionTimeBudgetMs : number; maximumIntentAgeSeconds : number;
  minimumDeleteToInsertRatio : number }.

Definition DEFAULT_STORAGE_ACCEPTANCE_OPTIONS : acceptance_options :=
  AcceptanceOptions 7 HOUR_MS (8 # 10) (3 * HOUR_MS) 150 (95 # 100) 30 240000 300 (9 # 10).

(** [TableAcceptanceMetrics] *)
Record table_metrics := TableMetrics {
  insertedRows : number; deletedRows : number; counterResets : nat; deleteToInsertRatio : option number;
  averageInsertRowsPerHour : number; peakDeleteRowsPerHour : number; autovacuumRuns : number;
  latestDeadRows : number; latestAutovacuumTriggerRows : number; retentionActivated : bool }.

(** The names of the checks *)
Inductive check_name :=
  | filesystem_expanded | filesystem_utilization | observation_coverage | retention_capacity
  | delete_throughput (t : retained_table) | contact_intent_health | autovacuum_health | projected_headroom.

Record report := Report {
  rp_status : acceptance_status;
  rp_startedAt : number; rp_endedAt : number; rp_elapsedDays : number; rp_sampleCount : nat;
  rp_expectedSampleCount : Z; rp_maximumGapHours : number; rp_rootSizeGiB : number;
  rp_rootUsedBytesPerDay : number; rp_databaseBytesPerDay : number; rp_projectedConsumption : number;
  rp_projectedHeadroomDays : option number;
  rp_retentionSamples : nat; rp_p95DurationMs : option number; rp_consecutiveExhaustions : nat;
  rp_tables : retained_table -> table_metrics;
  rp_checks : list (check_name * acceptance_status) }.

(** *** Statistics *)

Definition percentile (values : list number) (probability : number) : option number :=
  match values with
  | [] => None
  | _ =>
      let sorted := order_by Qle_bool values in
      sorted !! Z.to_nat (Z.max 0 (Qceiling (probability * of_nat (length sorted)) - 1))
  end.

(** The slopes between all pairs, earlier sample first *)
Fixpoint slopes (selector : storage_observation -> number) (l : list storage_observation) : list number :=
  match l with
  | [] => []
  | first :: rest =>
      map (fun second => (selector second - selector first) * DAY_MS / (observedAtMs second - observedAtMs first)) rest
      ++ slopes selector rest
  end.

Definition medianSlopePerDay (observations : list storage_observation) (selector : storage_observation -> number) : number :=
  default 0 (percentile (slopes selector observations) (1 # 2)).

Record deltas := Deltas { total : number; resets : nat; peakPerHour : number }.

(** One round of the loop of [counterDeltas] *)
Definition count_delta (selector : storage_observation -> number) (previous current : storage_observation) (c : deltas) : deltas :=
  let delta := if le (selector previous) (selector current) then selector current - selector previous
               else selector current in
  let elapsedHours := (observedAtMs current - observedAtMs previous) / HOUR_MS in
  Deltas (total c + delta)
    (if lt (selector current) (selector previous) then S (resets c) else resets c)
    (if lt 0 elapsedHours then Qmax (peakPerHour c) (delta / elapsedHours) else peakPerHour c).

Fixpoint count_deltas (selector : storage_observation -> number) (previous : storage_observation)
    (l : list storage_observation) (c : deltas) : deltas :=
  match l with
  | [] => c
  | current :: rest => count_deltas selector current rest (count_delta selector previous current c)
  end.

Definition counterDeltas (observations : list storage_observation) (selector : storage_observation -> number) : deltas :=
  match observations with
  | [] => Deltas 0 0 0
  | first :: rest => count_deltas selector first rest (Deltas 0 0 0)
  end.

Definition maximumConsecutiveExhaustions (l : list retention_observation) : nat :=
  (fold_left (fun '(current, maximum) observation =>
     let current := if capacityExhausted observation then S current else 0%nat in
     (current, Nat.max maximum current)) l (0%nat, 0%nat)).2.

Fixpoint gaps (previous : storage_observation) (l : list storage_observation) (m : number) : number :=
  match l with
  | [] => m
  | o :: rest => gaps o rest (Qmax m (observedAtMs o - observedAtMs previous))
  end.

(** *** The window *)

(** [for (position = length - 1; position > 0; ..)]: the first sample of the present size *)
Fixpoint window_start (l : list storage_observation) (size : number) (position : nat) : nat :=
  match position with
  | O => O
  | S p => if same (from_option rootSizeBytes size (l !! p)) size then window_start l size p else position
  end.

(** The last sample before the samples later than [desired] *)
Fixpoint recent_start (l : list storage_observation) (desired : number) (position : nat) (best : option nat) : option nat :=
  match l with
  | [] => best
  | o :: rest => if le (observedAtMs o) desired then recent_start rest desired (S position) (Some position) else best
  end.

Definition window (o : acceptance_options) (allObservations : list storage_observation) (last_ : storage_observation) :
    list storage_observation :=
  let postResize := drop (window_start allObservations (rootSizeBytes last_) (length allObservations - 1)) allObservations in
  match recent_start postResize (observedAtMs last_ - minimumObservationDays o * DAY_MS) 0 None with
  | Some position => drop position postResize
  | None => postResize
  end.

(** *** The tables *)

Definition trigger (rows : number) : number := 10000 + inject_Z (Qfloor (rows * (5 # 100))).

Definition metrics (observations : list storage_observation) (retention : list retention_observation) (elapsedMs : number)
    (last_ : storage_observation) (name : retained_table) : table_metrics :=
  let inserted := counterDeltas observations (fun item => insertedTotal (tables item name)) in
  let deletions := counterDeltas observations (fun item => deletedTotal (tables item name)) in
  let vacuum := counterDeltas observations (fun item => autovacuumTotal (tables item name)) in
  let retentionDeleted := fold_left (fun sum item => sum + deleted item name) retention 0 in
  let latest := tables last_ name in
  TableMetrics (total inserted) (total deletions) (resets inserted + resets deletions + resets vacuum)
    (if lt 0 (total inserted) then Some (total deletions / total inserted) else None)
    (if lt 0 elapsedMs then total inserted / (elapsedMs / HOUR_MS) else 0)
    (peakPerHour deletions) (total vacuum) (deadRows latest) (trigger (liveRows latest)) (lt 0 retentionDeleted).

(** *** The checks *)

Definition pass_or_fail (b : bool) : acceptance_status := if b then PASS else FAIL.

Definition throughput (o : acceptance_options) (coverageComplete : bool) (m : table_metrics) : acceptance_status :=
  if negb (retentionActivated m) then (if coverageComplete then PASS else PENDING)
  else
    let ratioPass := match deleteToInsertRatio m with None => true | Some r => le (minimumDeleteToInsertRatio o) r end in
    let burstPass := lt (averageInsertRowsPerHour m) (peakDeleteRowsPerHour m) in
    if negb coverageComplete then PENDING else pass_or_fail (ratioPass && burstPass).

(** [observations.slice(-2).every(..)] *)
Definition unhealthy (observations : list storage_observation) (name : retained_table) : bool :=
  forallb (fun item => let t := tables item name in lt (trigger (liveRows t) * 2) (deadRows t))
    (drop (length observations - 2) observations).

Definition overall (checks : list (check_name * acceptance_status)) : acceptance_status :=
  if existsb (fun c => bool_decide (c.2 = FAIL)) checks then FAIL
  else if existsb (fun c => bool_decide (c.2 = PENDING)) checks then PENDING else PASS.

(** [Math.max(...)] of numbers that include [n] *)
Definition maximum (n : number) (l : list number) : number := fold_left Qmax l n.

Definition requiredFilesystemBytes (o : acceptance_options) : number := targetDiskGiB o * GIB * filesystemSizeTolerance o.

(** What the checks look at *)
Record measured := Measured {
  ms_observations : list storage_observation; ms_first : storage_observation; ms_last : storage_observation;
  ms_retention : list retention_observation }.

Section Measures.
Context (o : acceptance_options) (m : measured).
Local Abbreviation observations := (ms_observations m).
Local Abbreviation last_ := (ms_last m).

Definition elapsedMs : number := observedAtMs last_ - observedAtMs (ms_first m).
Definition elapsedDays : number := elapsedMs / DAY_MS.
Definition expectedSampleCount : Z := Qfloor (elapsedMs / expectedIntervalMs o) + 1.
Definition maximumGapMs : number := match observations with [] => 0 | first :: rest => gaps first rest 0 end.
Definition coverageComplete : bool := le (minimumObservationDays o) elapsedDays.
Definition sampleCoverage : number := of_nat (length observations) / inject_Z (Z.max 1 expectedSampleCount).
Definition p95DurationMs : option number := percentile (map durationMs (ms_retention m)) (95 # 100).
Definition rootGrowth : number := medianSlopePerDay observations rootUsedBytes.
Definition databaseGrowth : number := medianSlopePerDay observations databaseBytes.
Definition projectedConsumption : number := Qmax (Qmax 0 rootGrowth) databaseGrowth.
Definition projectedHeadroomDays : option number :=
  if lt 0 projectedConsumption then Some (rootAvailableBytes last_ / projectedConsumption) else None.
Definition table_metrics_of : retained_table -> table_metrics := metrics observations (ms_retention m) elapsedMs last_.
Definition retentionHasCoverage : bool :=
  (Qceiling (inject_Z expectedSampleCount * minimumCoverageRatio o) <=? Z.of_nat (length (ms_retention m)))%Z.
Definition expanded : bool := le (requiredFilesystemBytes o) (rootSizeBytes last_).

Definition check (name : check_name) : acceptance_status :=
  match name with
  | filesystem_expanded => if expanded then PASS else PENDING
  | filesystem_utilization =>
      if lt (rootSizeBytes last_) (requiredFilesystemBytes o) then PENDING
      else pass_or_fail (lt (rootUsedPercent last_) 80)
  | observation_coverage =>
      if negb coverageComplete then PENDING
      else pass_or_fail (le (minimumCoverageRatio o) sampleCoverage && le maximumGapMs (maximumSampleGapMs o))
  | retention_capacity =>
      if negb coverageComplete then PENDING
      else pass_or_fail (retentionHasCoverage && (maximumConsecutiveExhaustions (ms_retention m) <? 2)%nat
        && match p95DurationMs with Some p => lt p (retentionTimeBudgetMs o * (25 # 100)) | None => false end)
  | delete_throughput t => throughput o coverageComplete (table_metrics_of t)
  | contact_intent_health =>
      if negb coverageComplete then PENDING
      else pass_or_fail (le (maximum (oldestActiveSeconds (ms_first m)) (map oldestActiveSeconds observations)) (maximumIntentAgeSeconds o)
        && same (intentDeadRows last_) 0)
  | autovacuum_health =>
      if negb coverageComplete then PENDING
      else pass_or_fail (forallb (fun t => negb (unhealthy observations t)) RETAINED_TABLES)
  | projected_headroom =>
      if negb coverageComplete || lt (rootSizeBytes last_) (requiredFilesystemBytes o) then PENDING
      else pass_or_fail match projectedHeadroomDays with None => true | Some d => le (minimumHeadroomDays o) d end
  end.

(** In the order they are pushed *)
Definition check_names : list check_name :=
  [filesystem_expanded; filesystem_utilization; observation_coverage; retention_capacity]
  ++ map delete_throughput RETAINED_TABLES ++ [contact_intent_health; autovacuum_health; projected_headroom].

Definition the_report : report :=
  let checks := map (fun name => (name, check name)) check_names in
  Report (overall checks)
    (observedAtMs (ms_first m)) (observedAtMs last_) elapsedDays (length observations) expectedSampleCount
    (maximumGapMs / HOUR_MS) (rootSizeBytes last_ / GIB)
    rootGrowth databaseGrowth projectedConsumption projectedHeadroomDays
    (length (ms_retention m)) p95DurationMs (maximumConsecutiveExhaustions (ms_retention m))
    table_metrics_of checks.

End Measures.

Definition measure (o : acceptance_options) (allObservations : list storage_observation)
    (allRetentionObservations : list retention_observation) (last_ : storage_observation) : measured :=
  let observations := window o allObservations last_ in
  let first := default last_ (head observations) in
  Measured observations first last_
    (List.filter (fun item => le (observedAtMs first) (timestampMs item) && le (timestampMs item) (observedAtMs last_))
       allRetentionObservations).

Definition evaluateRuntimeStorageAcceptance (o : acceptance_options) (allObservations : list storage_observation)
    (allRetentionObservations : list retention_observation) : string + report :=
  match list.last allObservations with
  | Some last_ =>
      if (length allObservations <? 2)%nat then inl "At least two storage observations are required"
      else inr (the_report o (measure o allObservations allRetentionObservations last_))
  | None => inl "At least two storage observations are required"
  end.

(** [process.exitCode] of [src/scripts/evaluate-runtime-storage.ts] *)
Definition exit_code (r : report) : Z :=
  match rp_status r with PASS => 0 | FAIL => 1 | PENDING => 2 end.

(** *** Comparisons *)

Lemma le_true a b : le a b = true <-> a <= b.
Proof. apply Qle_bool_iff. Qed.

Lemma lt_true a b : lt a b = true <-> a < b.
Proof.
  unfold lt. rewrite negb_true_iff. split.
  - intros H. apply Qnot_le_lt. intros Hle%Qle_bool_iff. congruence.
  - intros H. destruct (Qle_bool b a) eqn:E; [|done]. apply Qle_bool_iff in E. by apply Qlt_not_le in H.
Qed.

Lemma lt_false a b : lt a b = false <-> b <= a.
Proof. unfold lt. by rewrite negb_false_iff, Qle_bool_iff. Qed.

Lemma le_div a b c : 0 < c -> (a <= b / c <-> a * c <= b).
Proof.
  intros Hc. split; [|by apply Qle_shift_div_l]. intros H. apply (Qmult_le_compat_r _ _ c) in H; [|lra].
  assert (E : b / c * c == b) by (field; lra). lra.
Qed.

Lemma same_true a b : same a b = true <-> a == b.
Proof. apply Qeq_bool_iff. Qed.

Lemma pass_or_fail_pass b : pass_or_fail b = PASS <-> b = true.
Proof. by destruct b. Qed.

Lemma decided b : pass_or_fail b <> PENDING.
Proof. by destruct b. Qed.

Lemma of_nat_S n : of_nat (S n) == of_nat n + 1.
Proof. unfold of_nat. rewrite Nat2Z.inj_succ, <- Z.add_1_r, inject_Z_plus. reflexivity. Qed.

Lemma of_nat_le n m : (n <= m)%nat <-> of_nat n <= of_nat m.
Proof. unfold of_nat. rewrite <- Zle_Qle. lia. Qed.

(** *** Nearest-rank percentiles *)

Definition count (f : number -> bool) (l : list number) : nat := length (List.filter f l).

#[export] Instance count_perm f : Proper ((≡ₚ) ==> eq) (count f).
Proof.
  intros l1 l2 H. unfold count. induction H; cbn; [done| | |congruence].
  - destruct (f x); cbn; congruence.
  - by destruct (f x), (f y).
Qed.

Lemma count_app f l1 l2 : count f (l1 ++ l2) = (count f l1 + count f l2)%nat.
Proof. unfold count. by rewrite List.filter_app, length_app. Qed.

Lemma count_all f l : Forall (fun x => f x = true) l -> count f l = length l.
Proof. unfold count. induction 1 as [|x l Hx _ IH]; cbn; [done|]. rewrite Hx. cbn. by f_equal. Qed.

Lemma count_none f l : Forall (fun x => f x = false) l -> count f l = O.
Proof. unfold count. induction 1 as [|x l Hx _ IH]; cbn; [done|]. by rewrite Hx. Qed.

Lemma sorted_numbers l : StronglySorted Qle (order_by Qle_bool l).
Proof.
  apply Sorted_StronglySorted; [intros x y z; apply Qle_trans|].
  assert (H : Sorted (fun x y => Is_true (Qle_bool x y)) (order_by Qle_bool l)).
  { apply order_by_sorted. intros x y. destruct (Qlt_le_dec x y) as [Hlt|Hle].
    - left. apply Qle_bool_iff. lra.
    - right. by apply Qle_bool_iff. }
  induction H as [|x l' H IH Hd]; constructor; [done|]. destruct Hd; constructor. by apply Qle_bool_iff, Is_true_true.
Qed.

(** What a sorted list has below and above one of its elements *)
Lemma sorted_split (s : list number) k x : StronglySorted Qle s -> s !! k = Some x ->
  Forall (fun y => y <= x) (take (S k) s) /\ Forall (fun y => x <= y) (drop k s).
Proof.
  intros Hs Hk. revert k Hk. induction Hs as [|y s Hs IH Hy]; intros [|k] Hk; [done..| |].
  - injection Hk as <-. cbn. rewrite take_0. split; [constructor; [lra|constructor]|]. constructor; [lra|done].
  - destruct (IH k Hk) as [H1 H2]. split; [|done]. cbn. constructor; [|done].
    rewrite Forall_forall in Hy. apply Hy. by eapply list_elem_of_lookup_2.
Qed.

Section Percentile.
Context (values : list number) (p : number) (Hv : values <> []) (Hp : 0 <= p <= 1).

Local Abbreviation n := (length values).
Local Abbreviation rank := (Z.max 0 (Qceiling (p * of_nat n) - 1)).

Lemma rank_bounds : (0 <= rank < Z.of_nat n)%Z /\ p * of_nat n <= inject_Z rank + 1 /\ inject_Z rank <= p * of_nat n.
Proof.
  assert (Hn : 0 < of_nat n). { destruct values; [done|]. unfold of_nat. apply (Qlt_le_trans _ 1); [done|]. rewrite <- (Zle_Qle 1). cbn [length]. lia. }
  assert (H0 : 0 <= p * of_nat n) by nra. assert (H1 : p * of_nat n <= of_nat n) by nra.
  assert (Hc : (Qceiling (p * of_nat n) <= Z.of_nat n)%Z).
  { rewrite <- (Qceiling_Z (Z.of_nat n)). by apply Qceiling_resp_le. }
  pose proof (Qle_ceiling (p * of_nat n)) as Hup. pose proof (Qceiling_lt (p * of_nat n)) as Hlow.
  assert (Hpos : (0 < Z.of_nat n)%Z) by (destruct values; [done|cbn [length]; lia]).
  split; [lia|].
  destruct (Z.max_spec 0 (Qceiling (p * of_nat n) - 1)) as [[Hm ->]|[Hm ->]].
  - unfold Z.sub in *. rewrite inject_Z_plus in *. change (inject_Z (-(1))) with (-(1)) in *. split; lra.
  - assert (Hc2 : inject_Z (Qceiling (p * of_nat n)) <= 1) by (rewrite <- (Zle_Qle _ 1); lia). change (inject_Z 0) with 0. split; lra.
Qed.

Lemma percentile_at : exists x, percentile values p = Some x /\ order_by Qle_bool values !! Z.to_nat rank = Some x.
Proof.
  assert (Hlen : length (order_by Qle_bool values) = n) by by rewrite order_by_Permutation.
  destruct (lookup_lt_is_Some_2 (order_by Qle_bool values) (Z.to_nat rank)) as [x Hx].
  { rewrite Hlen. pose proof rank_bounds. lia. }
  exists x. split; [|done]. unfold percentile. destruct values; [done|]. by rewrite Hlen.
Qed.

End Percentile.

(** A percentile is one of the values; the share [p] of them is at most it, and the share
    [1 - p] at least. *)
Lemma percentile_spec values p : values <> [] -> 0 <= p <= 1 ->
  exists x, percentile values p = Some x /\ x ∈ values /\
    p * of_nat (length values) <= of_nat (count (fun v => le v x) values) /\
    (1 - p) * of_nat (length values) <= of_nat (count (fun v => le x v) values).
Proof.
  intros Hv Hp. destruct (percentile_at values p Hv Hp) as (x & E & Hx). exists x. split; [done|].
  set (s := order_by Qle_bool values) in *. set (k := Z.to_nat (Z.max 0 (Qceiling (p * of_nat (length values)) - 1))) in *.
  assert (Hperm : s ≡ₚ values) by apply order_by_Permutation.
  destruct (sorted_split s k x (sorted_numbers _) Hx) as [Hlow Hup].
  destruct (rank_bounds values p Hv Hp) as (Hr & Hr1 & Hr2).
  assert (Hkr : of_nat k == inject_Z (Z.max 0 (Qceiling (p * of_nat (length values)) - 1))).
  { unfold of_nat, k. rewrite Z2Nat.id by lia. reflexivity. }
  assert (Hls : length s = length values) by by rewrite Hperm.
  assert (Hk : (k < length s)%nat) by (apply lookup_lt_is_Some_1; by exists x).
  assert (Hcut : forall f j, count f values = (count f (take j s) + count f (drop j s))%nat).
  { intros f j. by rewrite <- count_app, take_drop, Hperm. }
  split; [|split].
  - rewrite <- Hperm. by eapply list_elem_of_lookup_2.
  - apply (Qle_trans _ (of_nat (S k))); [rewrite of_nat_S, Hkr; done|]. apply of_nat_le.
    rewrite (Hcut _ (S k)), (count_all _ (take _ _)), length_take; [lia|].
    eapply Forall_impl; [exact Hlow|]. intros y Hy. by apply le_true.
  - apply (Qle_trans _ (of_nat (length s - k))).
    + assert (Hsum : of_nat (length s - k) + of_nat k == of_nat (length values)).
      { unfold of_nat. rewrite <- inject_Z_plus. rewrite Hls in *. replace (Z.of_nat (length values - k) + Z.of_nat k)%Z with (Z.of_nat (length values)) by lia. reflexivity. }
      lra.
    + apply of_nat_le. rewrite (Hcut _ k), (count_all _ (drop _ _)), length_drop; [lia|].
      eapply Forall_impl; [exact Hup|]. intros y Hy. by apply le_true.
Qed.

(** A percentile is below a bound if and only if the share [p] of the values is. *)
Lemma percentile_below values p b : 0 < p <= 1 ->
  (exists x, percentile values p = Some x /\ x < b) <->
  values <> [] /\ p * of_nat (length values) <= of_nat (count (fun v => lt v b) values).
Proof.
  intros Hp. split.
  - intros (x & Hx & Hb). assert (Hv : values <> []) by by intros ->. split; [done|].
    destruct (percentile_spec values p Hv) as (x' & E & _ & Hlow & _); [lra|]. assert (x' = x) as -> by congruence.
    apply (Qle_trans _ _ _ Hlow). apply of_nat_le. unfold count. clear -Hb.
    induction values as [|v l IH]; cbn; [done|]. destruct (le v x) eqn:Hl; [|destruct (lt v b); cbn; lia].
    rewrite (proj2 (lt_true v b)); [cbn; lia|]. apply le_true in Hl. lra.
  - intros [Hv Hc]. destruct (percentile_at values p Hv) as (x & E & Hx); [lra|]. exists x. split; [done|].
    apply Qnot_le_lt. intros Hb. set (s := order_by Qle_bool values) in *.
    set (k := Z.to_nat (Z.max 0 (Qceiling (p * of_nat (length values)) - 1))) in *.
    assert (Hperm : s ≡ₚ values) by apply order_by_Permutation.
    destruct (sorted_split s k x (sorted_numbers _) Hx) as [_ Hup].
    assert (Hcb : (count (fun v => lt v b) values <= k)%nat).
    { rewrite <- (count_perm _ _ _ Hperm), <- (take_drop k s), count_app, (count_none _ (drop k s)).
      - unfold count. etransitivity; [apply Nat.add_le_mono_r, List.filter_length_le|]. rewrite length_take. lia.
      - eapply Forall_impl; [exact Hup|]. intros y Hy. apply lt_false. cbn in Hy. lra. }
    apply of_nat_le in Hcb. assert (Hpos : 0 < p * of_nat (length values)).
    { assert (0 < of_nat (length values)); [|nra]. destruct values as [|v l]; [done|]. cbn [length]. rewrite of_nat_S.
      assert (0 <= of_nat (length l)); [|lra]. change 0 with (of_nat 0). apply of_nat_le. lia. }
    assert (Hk : of_nat k < p * of_nat (length values)); [|lra].
    unfold of_nat at 1, k. rewrite Z2Nat.id by lia. pose proof (Qceiling_lt (p * of_nat (length values))) as Hlow.
    destruct (Z.max_spec 0 (Qceiling (p * of_nat (length values)) - 1)) as [[_ ->]|[_ ->]]; [exact Hlow|exact Hpos].
Qed.

(** *** Growth *)

Lemma slopes_elem selector l x : x ∈ slopes selector l -> exists i j a b,
  (i < j)%nat /\ l !! i = Some a /\ l !! j = Some b /\
  x = (selector b - selector a) * DAY_MS / (observedAtMs b - observedAtMs a).
Proof.
  induction l as [|a l IH]; cbn; [by intros ?%elem_of_nil|]. intros [Hx|Hx]%elem_of_app.
  - apply list_elem_of_fmap in Hx as (b & -> & Hb). apply list_elem_of_lookup_1 in Hb as [j Hj].
    exists O, (S j), a, b. split; [lia|done].
  - destruct (IH Hx) as (i & j & a' & b & Hij & H). exists (S i), (S j), a', b. split; [lia|done].
Qed.

(** Samples in the order of their times, as the parser has them *)
Definition earlier (a b : storage_observation) : Prop := observedAtMs a < observedAtMs b.
Definition chronological (l : list storage_observation) : Prop := StronglySorted earlier l.

Lemma chronological_lookup l i j a b : chronological l -> (i < j)%nat -> l !! i = Some a -> l !! j = Some b -> earlier a b.
Proof.
  intros H. revert i j. induction H as [|x l H IH Hx]; intros i j Hij Ha Hb; [done|]. destruct j as [|j]; [lia|].
  destruct i as [|i]; cbn in *; [|eapply IH; [|done..]; lia].
  injection Ha as <-. rewrite Forall_forall in Hx. apply Hx. by eapply list_elem_of_lookup_2.
Qed.

(** The growth lies between bounds on the growth between any two samples; of samples that
    grow linearly it is the rate. *)
Lemma growth_between selector l low high : chronological l -> (2 <= length l)%nat ->
  (forall i j a b, (i < j)%nat -> l !! i = Some a -> l !! j = Some b ->
     low * (observedAtMs b - observedAtMs a) <= (selector b - selector a) * DAY_MS <= high * (observedAtMs b - observedAtMs a)) ->
  low <= medianSlopePerDay l selector <= high.
Proof.
  intros Hl Hlen Hb. unfold medianSlopePerDay.
  assert (Hne : slopes selector l <> []) by (destruct l as [|? [|? ?]]; cbn in *; [lia..|done]).
  destruct (percentile_spec (slopes selector l) (1 # 2) Hne) as (x & -> & Hx & _); [done|]. cbn.
  destruct (slopes_elem _ _ _ Hx) as (i & j & a & b & Hij & Ha & Hb' & ->).
  specialize (Hb i j a b Hij Ha Hb'). pose proof (chronological_lookup _ _ _ _ _ Hl Hij Ha Hb') as Ht. unfold earlier in Ht.
  split; [apply Qle_shift_div_l|apply Qle_shift_div_r]; lra.
Qed.

(** *** Counters *)

Definition delta_of (selector : storage_observation -> number) (previous current : storage_observation) : number :=
  if le (selector previous) (selector current) then selector current - selector previous else selector current.

(** What the statistics resets took: the value before each of them *)
Fixpoint lost (selector : storage_observation -> number) (previous : storage_observation) (l : list storage_observation) : number :=
  match l with
  | [] => 0
  | current :: rest => (if lt (selector current) (selector previous) then selector previous else 0) + lost selector current rest
  end.

Lemma count_deltas_total selector l : forall previous c,
  total (count_deltas selector previous l c) ==
  total c + (selector (default previous (list.last l)) - selector previous) + lost selector previous l.
Proof.
  induction l as [|current l IH]; intros previous c; [cbn; ring|]. cbn [count_deltas lost]. rewrite IH.
  assert (Hlast : default previous (list.last (current :: l)) = default current (list.last l)).
  { rewrite last_cons. by destruct (list.last l). }
  rewrite Hlast. cbn [count_delta total]. unfold lt, le.
  destruct (Qle_bool (selector previous) (selector current)); cbn [negb]; ring.
Qed.

(** The increments add up to the difference of the last and the first value, and what was
    counted before each reset is added to it. *)
Lemma counter_total selector first l :
  total (counterDeltas (first :: l) selector) ==
  selector (default first (list.last l)) - selector first + lost selector first l.
Proof. cbn. rewrite count_deltas_total. cbn. ring. Qed.

Lemma lost_nothing selector previous l : resets (count_deltas selector previous l (Deltas 0 0 0)) = O -> lost selector previous l == 0.
Proof.
  assert (Hmono : forall l previous c, (resets c <= resets (count_deltas selector previous l c))%nat).
  { induction l0 as [|x l0 IH]; intros p c; cbn; [done|]. etransitivity; [|apply IH]. cbn. destruct (lt _ _); lia. }
  assert (Hgen : forall l previous c, resets (count_deltas selector previous l c) = resets c -> lost selector previous l == 0).
  { induction l0 as [|x l0 IH]; intros p c; cbn; [reflexivity|]. intros H.
    specialize (Hmono l0 x (count_delta selector p x c)). rewrite H in Hmono. cbn in Hmono.
    destruct (lt (selector x) (selector p)) eqn:E; [lia|]. rewrite (IH x (count_delta selector p x c)); [ring|].
    rewrite H. cbn. by rewrite E. }
  intros H. by apply (Hgen l previous (Deltas 0 0 0)).
Qed.

(** *** Runs of exhausted ticks, gaps, maxima *)

Definition exhausted_run (n : nat) (l : list retention_observation) : Prop :=
  exists before run after, l = before ++ run ++ after /\ length run = n /\ Forall (fun r => capacityExhausted r = true) run.

Definition exhausted_prefix (n c : nat) (l : list retention_observation) : Prop :=
  exists run after, l = run ++ after /\ Forall (fun r => capacityExhausted r = true) run /\ (n <= c + length run)%nat.

Lemma exhausted_run_head n run after : Forall (fun r => capacityExhausted r = true) run -> (n <= length run)%nat ->
  exhausted_run n (run ++ after).
Proof.
  intros Hr Hn. exists [], (take n run), (drop n run ++ after). split_and!.
  - by rewrite app_nil_l, (assoc_L (++)), take_drop.
  - rewrite length_take. lia.
  - by apply Forall_take.
Qed.

Lemma exhausted_run_cons n o l : exhausted_run n (o :: l) <->
  n = O \/ (capacityExhausted o = true /\ exists run after, l = run ++ after /\ n = S (length run) /\
             Forall (fun r => capacityExhausted r = true) run) \/ exhausted_run n l.
Proof.
  split.
  - intros ([|x before] & run & after & E & Hn & Hr); cbn in E.
    + destruct Hr as [|x run Hx Hr]; [by left|]. injection E as -> ->. right. left. split; [done|]. by exists run, after.
    + injection E as -> ->. right. right. by exists before, run, after.
  - intros [->|[(Ho & run & after & -> & -> & Hr)|(before & run & after & -> & Hn & Hr)]].
    + by exists [], [], (o :: l).
    + exists [], (o :: run), after. split_and!; [done..|by constructor].
    + by exists (o :: before), run, after.
Qed.

Lemma exhausted_prefix_cons n c o l : exhausted_prefix n c (o :: l) <->
  (n <= c)%nat \/ capacityExhausted o = true /\ exhausted_prefix n (S c) l.
Proof.
  split.
  - intros (run & after & E & Hr & Hn). destruct Hr as [|x run Hx Hr]; [left; cbn in Hn; lia|]. injection E as -> ->.
    right. split; [done|]. exists run, after. cbn in Hn. split_and!; [done..|lia].
  - intros [Hn|(Ho & run & after & -> & Hr & Hn)].
    + exists [], (o :: l). cbn. split_and!; [done..|lia].
    + exists (o :: run), after. cbn. split_and!; [done|by constructor|lia].
Qed.

Lemma consecutive_from l n : forall c m, (c <= m)%nat ->
  (n <= (fold_left (fun '(current, maximum) observation =>
     let current := if capacityExhausted observation then S current else 0%nat in
     (current, Nat.max maximum current)) l (c, m)).2)%nat <->
  (n <= m)%nat \/ exhausted_prefix n c l \/ exhausted_run n l.
Proof.
  induction l as [|o l IH]; intros c m Hcm.
  - cbn. split; [by left|]. intros [H|[(run & after & E & _ & H)|(b & run & a & E & H & _)]]; [done|..].
    + symmetry in E. apply app_eq_nil in E as [-> ->]. cbn in H. lia.
    + symmetry in E. apply app_eq_nil in E as [-> E]. apply app_eq_nil in E as [-> ->]. cbn in H. lia.
  - cbn [fold_left]. rewrite IH by (destruct (capacityExhausted o); lia).
    rewrite exhausted_prefix_cons, exhausted_run_cons. destruct (capacityExhausted o) eqn:Eo.
    + split.
      * intros [H|[H|H]]; [|by right; left; right|by right; right; right; right].
        destruct (decide (n <= m)%nat); [by left|]. right. left. right. split; [done|].
        exists [], l. split_and!; [done..|cbn; lia].
      * intros [H|[[H|[_ H]]|[H|[(_ & run & after & -> & -> & Hr)|H]]]]; [left; lia|left; lia|by right; left|left; lia| |by right; right].
        right. left. exists run, after. split_and!; [done..|lia].
    + split.
      * intros [H|[(run & after & -> & Hr & Hn)|H]]; [left; lia| |by right; right; right; right]. right. right. right. right. by apply exhausted_run_head.
      * intros [H|[[H|[H _]]|[H|[[H _]|H]]]]; [left; lia..|done|left; lia|done|by right; right].
Qed.

(** It is at least [n] if and only if some [n] ticks in a row were exhausted. *)
Lemma consecutive_exhaustions l n : (n <= maximumConsecutiveExhaustions l)%nat <-> exhausted_run n l.
Proof.
  unfold maximumConsecutiveExhaustions. rewrite consecutive_from by lia. split; [|by right; right].
  intros [H|[(run & after & -> & Hr & Hn)|H]]; [| |done].
  - assert (n = O) as -> by lia. by exists [], [], l.
  - by apply exhausted_run_head.
Qed.

Definition consecutive (l : list storage_observation) (a b : storage_observation) : Prop :=
  exists i, l !! i = Some a /\ l !! S i = Some b.

Lemma gaps_le l : forall p m bound, gaps p l m <= bound <->
  m <= bound /\ forall a b, consecutive (p :: l) a b -> observedAtMs b - observedAtMs a <= bound.
Proof.
  induction l as [|o l IH]; intros p m bound; cbn.
  - split; [|by intros [H _]]. intros H. split; [done|]. by intros a b ([|i] & ? & ?).
  - rewrite IH, Q.max_lub_iff. split.
    + intros [[Hm Ho] H]. split; [done|]. intros a b ([|i] & Ha & Hb); [by injection Ha as <-; injection Hb as <-|].
      apply H. by exists i.
    + intros [Hm H]. split; [split; [done|]|]; [apply H; by exists O|]. intros a b (i & Ha & Hb). apply H. by exists (S i).
Qed.

Lemma maximum_le l : forall n bound, maximum n l <= bound <-> n <= bound /\ Forall (fun x => x <= bound) l.
Proof.
  unfold maximum. induction l as [|x l IH]; intros n bound; cbn.
  - split; [by split|by intros [H _]].
  - rewrite IH, Q.max_lub_iff, Forall_cons. tauto.
Qed.

(** *** The window *)

Lemma window_start_spec l size position : let ws := window_start l size position in
  (ws <= position)%nat /\
  (forall p a, (ws <= p < position)%nat -> l !! p = Some a -> rootSizeBytes a == size) /\
  (ws = O \/ exists k a, ws = S k /\ l !! k = Some a /\ ~ rootSizeBytes a == size).
Proof.
  induction position as [|p IH]; cbn; [split_and!; [done|lia|by left]|].
  destruct (same _ size) eqn:E.
  - destruct IH as (H1 & H2 & H3). split_and!; [lia| |done]. intros q a Hq Ha.
    destruct (decide (q = p)) as [->|]; [|apply (H2 q a); [lia|done]]. rewrite Ha in E. by apply same_true.
  - split_and!; [done|lia|]. right. destruct (l !! p) as [a|] eqn:Ea; cbn in E.
    + exists p, a. split_and!; [done..|]. intros H%same_true. congruence.
    + assert (H : size == size) by reflexivity. apply same_true in H. congruence.
Qed.

(** [n] samples are not later than [desired]; the loop stops at the next one. *)
Lemma recent_start_spec l desired : forall position best, exists n, (n <= length l)%nat /\
  recent_start l desired position best = match n with O => best | S k => Some (position + k)%nat end /\
  Forall (fun x => observedAtMs x <= desired) (take n l) /\ forall a, l !! n = Some a -> desired < observedAtMs a.
Proof.
  induction l as [|o l IH]; intros position best; cbn; [by exists O|].
  destruct (le (observedAtMs o) desired) eqn:E.
  - destruct (IH (S position) (Some position)) as (n & Hn & -> & Hf & Ha). exists (S n). split_and!; [cbn; lia| | |done].
    + destruct n as [|k]; f_equal; lia.
    + cbn. constructor; [by apply le_true|done].
  - exists O. split_and!; [lia|done|constructor|]. intros a [= <-]. apply Qnot_le_lt. intros H%le_true. congruence.
Qed.

(** What the gate looks at: the samples since the last change of the size of the disk; of
    these only the shortest end that spans the required days, if they do. *)
Record windowed (o : acceptance_options) (allObservations wd_before w : list storage_observation) (last_ : storage_observation) : Prop := Windowed {
  wd_split : allObservations = wd_before ++ w;
  wd_last : list.last w = Some last_;
  wd_size : Forall (fun x => rootSizeBytes x == rootSizeBytes last_) w;
  wd_span : let desired := observedAtMs last_ - minimumObservationDays o * DAY_MS in
    (exists first rest, w = first :: rest /\ observedAtMs first <= desired /\ Forall (fun x => desired < observedAtMs x) rest) \/
    (Forall (fun x => desired < observedAtMs x) w /\
     (wd_before = [] \/ exists a, list.last wd_before = Some a /\ ~ rootSizeBytes a == rootSizeBytes last_)) }.

Lemma last_drop {A} (l : list A) k : (k < length l)%nat -> list.last (drop k l) = list.last l.
Proof.
  intros Hk. rewrite <- (take_drop k l) at 2. rewrite last_app. destruct (list.last (drop k l)) eqn:E; [done|].
  apply last_None in E. apply (f_equal length) in E. rewrite length_drop in E. cbn in E. lia.
Qed.

Lemma last_take {A} (l : list A) k a : l !! k = Some a -> list.last (take (S k) l) = Some a.
Proof. intros H. erewrite take_S_r by exact H. apply last_snoc. Qed.

Lemma Forall_later l k desired a : chronological l -> l !! k = Some a -> desired < observedAtMs a ->
  Forall (fun x => desired < observedAtMs x) (drop k l).
Proof.
  intros Hl Ha Hd. apply Forall_forall. intros x Hx. apply list_elem_of_lookup_1 in Hx as [j Hj]. rewrite lookup_drop in Hj.
  destruct j as [|j]; [rewrite Nat.add_0_r in Hj; congruence|].
  assert (He : earlier a x) by (eapply chronological_lookup; [done| |done..]; lia). unfold earlier in He. lra.
Qed.

Lemma chronological_drop l k : chronological l -> chronological (drop k l).
Proof. intros H. unfold chronological in *. rewrite <- (take_drop k l) in H. by apply StronglySorted_app_1_r in H. Qed.

Lemma window_spec o all last_ : chronological all -> list.last all = Some last_ ->
  exists before, windowed o all before (window o all last_) last_.
Proof.
  intros Hall Hlast. unfold window.
  destruct (window_start_spec all (rootSizeBytes last_) (length all - 1)) as (Hws & Hsize & Hstart).
  set (ws := window_start _ _ _) in *.
  assert (Hlen : (0 < length all)%nat) by (destruct all; [done|cbn; lia]).
  assert (Hsz : forall k, (ws <= k)%nat -> Forall (fun x => rootSizeBytes x == rootSizeBytes last_) (drop k all)).
  { intros k Hk. apply Forall_forall. intros x Hx. apply list_elem_of_lookup_1 in Hx as [j Hj]. rewrite lookup_drop in Hj.
    destruct (decide (k + j = length all - 1)%nat) as [E|E].
    - rewrite last_lookup, <- Nat.sub_1_r, <- E, Hj in Hlast. injection Hlast as ->. reflexivity.
    - apply (Hsize (k + j)%nat); [|done]. apply lookup_lt_Some in Hj. lia. }
  set (desired := observedAtMs last_ - minimumObservationDays o * DAY_MS).
  destruct (recent_start_spec (drop ws all) desired 0 None) as (n & Hn & -> & Hf & Hnext). rewrite length_drop in Hn.
  destruct n as [|k].
  - exists (take ws all). split; [by rewrite take_drop|rewrite last_drop; [done|lia]|by apply Hsz|]. right. split.
    + destruct (lookup_lt_is_Some_2 (drop ws all) 0) as [a Ha]; [rewrite length_drop; lia|].
      rewrite <- (drop_0 (drop ws all)). eapply Forall_later; [by apply chronological_drop|exact Ha|by apply Hnext].
    + destruct Hstart as [->|(k & a & -> & Ha & Hne)]; [by left|right]. exists a. split; [by apply last_take|done].
  - rewrite drop_drop. exists (take (ws + k) all).
    destruct (lookup_lt_is_Some_2 all (ws + k)) as [first Hfirst]; [lia|].
    split; [by rewrite take_drop|rewrite last_drop; [done|lia]|apply Hsz; lia|]. left.
    exists first, (drop (S (ws + k)) all). split_and!; [by apply drop_S| |].
    + rewrite Forall_forall in Hf. apply Hf. apply (list_elem_of_lookup_2 _ k). rewrite lookup_take_lt by lia.
      by rewrite lookup_drop.
    + destruct (all !! S (ws + k)) as [a|] eqn:Ea.
      * eapply Forall_later; [done|exact Ea|]. apply Hnext. rewrite lookup_drop. rewrite <- Ea. f_equal. lia.
      * rewrite drop_ge; [constructor|]. by apply lookup_ge_None_1.
Qed.

(** *** What the gate accepts *)

Definition spans (o : acceptance_options) (m : measured) : Prop :=
  minimumObservationDays o * DAY_MS <= observedAtMs (ms_last m) - observedAtMs (ms_first m).

Definition counted (m : measured) (column : table_observation -> number) (t : retained_table) : deltas :=
  counterDeltas (ms_observations m) (fun item => column (tables item t)).

(** The deletions of the retention keep up with the insertions. *)
Definition keeps_up (o : acceptance_options) (m : measured) (t : retained_table) : Prop :=
  fold_left (fun sum item => sum + deleted item t) (ms_retention m) 0 <= 0 \/
  ((0 < total (counted m insertedTotal t) ->
      minimumDeleteToInsertRatio o * total (counted m insertedTotal t) <= total (counted m deletedTotal t)) /\
   averageInsertRowsPerHour (table_metrics_of m t) < peakPerHour (counted m deletedTotal t)).

(** [docs/operations.md]: when the present design is kept *)
Record healthy (o : acceptance_options) (m : measured) : Prop := Healthy {
  hl_disk : requiredFilesystemBytes o <= rootSizeBytes (ms_last m);
  hl_used : rootUsedPercent (ms_last m) < 80;
  hl_spans : spans o m;
  hl_sampled : minimumCoverageRatio o * inject_Z (Z.max 1 (expectedSampleCount o m)) <= of_nat (length (ms_observations m));
  hl_gaps a b : consecutive (ms_observations m) a b -> observedAtMs b - observedAtMs a <= maximumSampleGapMs o;
  hl_ticks : inject_Z (expectedSampleCount o m) * minimumCoverageRatio o <= of_nat (length (ms_retention m));
  hl_capacity : ~ exhausted_run 2 (ms_retention m);
  hl_duration : ms_retention m <> [] /\ (95 # 100) * of_nat (length (ms_retention m)) <=
    of_nat (count (fun d => lt d (retentionTimeBudgetMs o * (25 # 100))) (map durationMs (ms_retention m)));
  hl_tables t : keeps_up o m t;
  hl_intents item : item ∈ ms_observations m -> oldestActiveSeconds item <= maximumIntentAgeSeconds o;
  hl_no_dead : intentDeadRows (ms_last m) == 0;
  hl_vacuum t : exists item, item ∈ drop (length (ms_observations m) - 2) (ms_observations m) /\
    deadRows (tables item t) <= trigger (liveRows (tables item t)) * 2;
  hl_headroom : 0 < projectedConsumption m ->
    minimumHeadroomDays o * projectedConsumption m <= rootAvailableBytes (ms_last m) }.

Lemma names_complete name : name ∈ check_names.
Proof. destruct name as [| | | |[]| | |]; cbn; set_solver. Qed.

Lemma overall_pass (checks : list (check_name * acceptance_status)) : overall checks = PASS <-> Forall (fun c => c.2 = PASS) checks.
Proof.
  unfold overall. induction checks as [|[name s] l IH]; cbn; [by split|]. rewrite Forall_cons. cbn.
  destruct (existsb _ l) eqn:Ef; rewrite ?orb_true_r, ?orb_false_r.
  - split; [done|]. intros [_ H%IH]. done.
  - destruct s; cbn; [rewrite IH; tauto|split; [done|by intros [? _]]..].
Qed.

Lemma overall_pending (checks : list (check_name * acceptance_status)) : overall checks = PENDING ->
  exists c, c ∈ checks /\ c.2 = PENDING.
Proof.
  unfold overall. destruct (existsb _ checks); [discriminate|].
  destruct (existsb (fun c => bool_decide (c.2 = PENDING)) checks) eqn:E; [intros _|discriminate].
  apply existsb_exists in E as (c & Hin%list_elem_of_In & Hc%bool_decide_eq_true). by exists c.
Qed.

Section Checks.
Context (o : acceptance_options) (m : measured).
Context (Hfirst : head (ms_observations m) = Some (ms_first m)) (Hgap : 0 <= maximumSampleGapMs o).

Lemma covers : coverageComplete o m = true <-> spans o m.
Proof.
  unfold coverageComplete, spans, elapsedDays, elapsedMs. rewrite le_true. by apply le_div.
Qed.

Lemma pending_unless b s : (if negb b then PENDING else s) = PASS <-> b = true /\ s = PASS.
Proof. destruct b; cbn; [tauto|]. split; [done|by intros [? _]]. Qed.

Lemma expanded_check : check o m filesystem_expanded = PASS <-> requiredFilesystemBytes o <= rootSizeBytes (ms_last m).
Proof. cbn. unfold expanded. rewrite <- le_true. by destruct (le _ _). Qed.

Lemma not_shrunk : lt (rootSizeBytes (ms_last m)) (requiredFilesystemBytes o) = negb (expanded o m).
Proof. done. Qed.

Lemma utilization_check : check o m filesystem_utilization = PASS <->
  requiredFilesystemBytes o <= rootSizeBytes (ms_last m) /\ rootUsedPercent (ms_last m) < 80.
Proof. cbn. rewrite not_shrunk, pending_unless, pass_or_fail_pass, lt_true. unfold expanded. by rewrite le_true. Qed.

Lemma coverage_check : check o m observation_coverage = PASS <-> spans o m /\
  minimumCoverageRatio o * inject_Z (Z.max 1 (expectedSampleCount o m)) <= of_nat (length (ms_observations m)) /\
  forall a b, consecutive (ms_observations m) a b -> observedAtMs b - observedAtMs a <= maximumSampleGapMs o.
Proof.
  cbn. rewrite pending_unless, pass_or_fail_pass, andb_true_iff, covers, !le_true.
  assert (Hpos : 0 < inject_Z (Z.max 1 (expectedSampleCount o m))) by (rewrite <- (Zlt_Qlt 0); lia).
  assert (Hg : maximumGapMs m <= maximumSampleGapMs o <->
    forall a b, consecutive (ms_observations m) a b -> observedAtMs b - observedAtMs a <= maximumSampleGapMs o).
  { unfold maximumGapMs. destruct (ms_observations m) as [|first rest]; [by cbn in Hfirst|]. rewrite gaps_le. tauto. }
  rewrite Hg. unfold sampleCoverage. by rewrite (le_div _ _ _ Hpos).
Qed.

Lemma capacity_check : check o m retention_capacity = PASS <-> spans o m /\
  inject_Z (expectedSampleCount o m) * minimumCoverageRatio o <= of_nat (length (ms_retention m)) /\
  ~ exhausted_run 2 (ms_retention m) /\
  (ms_retention m <> [] /\ (95 # 100) * of_nat (length (ms_retention m)) <=
     of_nat (count (fun d => lt d (retentionTimeBudgetMs o * (25 # 100))) (map durationMs (ms_retention m)))).
Proof.
  cbn. rewrite pending_unless, pass_or_fail_pass, !andb_true_iff, covers.
  assert (H1 : retentionHasCoverage o m = true <->
    inject_Z (expectedSampleCount o m) * minimumCoverageRatio o <= of_nat (length (ms_retention m))).
  { unfold retentionHasCoverage. rewrite Z.leb_le. split; intros H.
    - apply (Qle_trans _ _ _ (Qle_ceiling _)). unfold of_nat. by rewrite <- Zle_Qle.
    - rewrite <- (Qceiling_Z (Z.of_nat _)). by apply Qceiling_resp_le. }
  assert (H2 : (maximumConsecutiveExhaustions (ms_retention m) <? 2)%nat = true <-> ~ exhausted_run 2 (ms_retention m)).
  { rewrite Nat.ltb_lt, <- consecutive_exhaustions. lia. }
  pose proof (percentile_below (map durationMs (ms_retention m)) (95 # 100) (retentionTimeBudgetMs o * (25 # 100))) as H3.
  rewrite length_map in H3. rewrite H1, H2. unfold p95DurationMs.
  assert (H4 : match percentile (map durationMs (ms_retention m)) (95 # 100) with
               | Some p => lt p (retentionTimeBudgetMs o * (25 # 100)) | None => false end = true <->
               exists x, percentile (map durationMs (ms_retention m)) (95 # 100) = Some x /\ x < retentionTimeBudgetMs o * (25 # 100)).
  { destruct (percentile _ _) as [x|]; [rewrite lt_true|]; split; [by eauto|by intros (? & [= <-] & ?)|done|by intros (? & ? & _)]. }
  rewrite H4, H3 by done. assert (H5 : map durationMs (ms_retention m) <> [] <-> ms_retention m <> []) by by destruct (ms_retention m).
  rewrite H5. tauto.
Qed.

Lemma throughput_check t : check o m (delete_throughput t) = PASS <-> spans o m /\ keeps_up o m t.
Proof.
  cbn [check]. unfold throughput, keeps_up. cbn [retentionActivated table_metrics_of metrics].
  rewrite <- covers. destruct (lt 0 _) eqn:Er; cbn [negb].
  - apply lt_true in Er. rewrite pending_unless, pass_or_fail_pass, andb_true_iff.
    cbn [deleteToInsertRatio peakDeleteRowsPerHour table_metrics_of metrics]. rewrite lt_true. unfold counted.
    set (ins := counterDeltas _ (fun item => insertedTotal _)). set (del := counterDeltas _ (fun item => deletedTotal _)).
    assert (Hratio : match (if lt 0 (total ins) then Some (total del / total ins) else None) with
                     | Some r => le (minimumDeleteToInsertRatio o) r | None => true end = true <->
                     (0 < total ins -> minimumDeleteToInsertRatio o * total ins <= total del)).
    { destruct (lt 0 (total ins)) eqn:El.
      - apply lt_true in El. rewrite le_true, (le_div _ _ _ El). tauto.
      - apply lt_false in El. split; [|done]. intros _ H. lra. }
    rewrite Hratio. split; [tauto|]. intros [Hc [Hz|H]]; [lra|tauto].
  - apply lt_false in Er. destruct (coverageComplete o m); [split; [by auto|done]|]. split; [done|by intros [? _]].
Qed.

Lemma intent_check : check o m contact_intent_health = PASS <-> spans o m /\
  (forall item, item ∈ ms_observations m -> oldestActiveSeconds item <= maximumIntentAgeSeconds o) /\
  intentDeadRows (ms_last m) == 0.
Proof.
  cbn. rewrite pending_unless, pass_or_fail_pass, andb_true_iff, covers, le_true, same_true, maximum_le, Forall_map, Forall_forall.
  cbn. assert (Hin : ms_first m ∈ ms_observations m).
  { destruct (ms_observations m) as [|x l]; [done|]. injection Hfirst as ->. apply elem_of_cons. by left. }
  split; [tauto|]. intros (H1 & H2 & H3). split_and!; [done|by apply H2|done..].
Qed.

Lemma vacuum_check : check o m autovacuum_health = PASS <-> spans o m /\
  forall t, exists item, item ∈ drop (length (ms_observations m) - 2) (ms_observations m) /\
    deadRows (tables item t) <= trigger (liveRows (tables item t)) * 2.
Proof.
  cbn [check]. rewrite pending_unless, pass_or_fail_pass, covers, forallb_forall.
  assert (Hu : forall t, negb (unhealthy (ms_observations m) t) = true <->
    exists item, item ∈ drop (length (ms_observations m) - 2) (ms_observations m) /\
      deadRows (tables item t) <= trigger (liveRows (tables item t)) * 2).
  { intros t. unfold unhealthy. rewrite negb_true_iff. induction (drop _ _) as [|x l IH]; cbn.
    - split; [done|by intros (? & ?%elem_of_nil & _)].
    - rewrite andb_false_iff, lt_false, IH. split.
      + intros [H|(y & Hy & H)]; [exists x|exists y]; (split; [set_solver|done]).
      + intros (y & [->|Hy]%elem_of_cons & H); [by left|right; by exists y]. }
  split; intros [H1 H2]; (split; [done|]); intros t; [apply Hu, H2; destruct t; cbn; tauto|intros _; by apply Hu].
Qed.

Lemma headroom_check : check o m projected_headroom = PASS <->
  spans o m /\ requiredFilesystemBytes o <= rootSizeBytes (ms_last m) /\
  (0 < projectedConsumption m -> minimumHeadroomDays o * projectedConsumption m <= rootAvailableBytes (ms_last m)).
Proof.
  cbn [check]. rewrite not_shrunk, <- negb_andb, pending_unless, pass_or_fail_pass, andb_true_iff, covers.
  unfold expanded, projectedHeadroomDays. rewrite le_true. destruct (lt 0 _) eqn:E.
  - apply lt_true in E. rewrite le_true, (le_div _ _ _ E). tauto.
  - apply lt_false in E. split; [|tauto]. intros [[H1 H2] _]. split_and!; [done..|]. intros H. lra.
Qed.

Lemma all_checks : (forall name, check o m name = PASS) <-> healthy o m.
Proof.
  split.
  - intros H. pose proof (proj1 coverage_check (H _)) as (? & ? & ?). pose proof (proj1 capacity_check (H _)) as (_ & ? & ? & ?).
    pose proof (proj1 utilization_check (H _)) as [? ?]. pose proof (proj1 intent_check (H _)) as (_ & ? & ?).
    pose proof (proj1 vacuum_check (H _)) as [_ ?]. pose proof (proj1 headroom_check (H _)) as (_ & _ & ?).
    split; try done. intros t. by apply throughput_check.
  - intros [] [| | | |t| | |].
    + by apply expanded_check.
    + by apply utilization_check.
    + by apply coverage_check.
    + by apply capacity_check.
    + by apply throughput_check.
    + by apply intent_check.
    + by apply vacuum_check.
    + by apply headroom_check.
Qed.

(** A check is not decided only before the disk and the window are there. *)
Lemma pending_check name : check o m name = PENDING -> ~ spans o m \/ rootSizeBytes (ms_last m) < requiredFilesystemBytes o.
Proof.
  rewrite <- covers. intros H.
  destruct (coverageComplete o m) eqn:Ec; [|by left]. destruct (expanded o m) eqn:Ee; [exfalso|right; by apply lt_true; rewrite not_shrunk, Ee].
  destruct name; cbn [check] in H; unfold throughput in H; rewrite ?Ec, ?not_shrunk, ?Ee in H; cbn [negb orb] in H;
    repeat case_match; try done; by eapply decided.
Qed.

End Checks.

(** *** Three hours after the disk was enlarged *)
Module Story.

Definition two_hours : acceptance_options :=
  AcceptanceOptions (1 # 12) HOUR_MS (8 # 10) (3 * HOUR_MS) 150 (95 # 100) 30 240000 300 (9 # 10).

Definition grow (gib hour : Z) : storage_observation :=
  StorageObservation (inject_Z hour * HOUR_MS) (inject_Z gib * GIB) (40 * GIB + inject_Z hour * 10485760)
    (inject_Z (gib - 45) * GIB) 30 (20 * GIB + inject_Z hour * 5242880)
    (fun t => TableObservation GIB 1000000 1000 (100000 + inject_Z hour * 1000)
       (match t with runtime_events => 0 | _ => 10000 + inject_Z hour * 1050 end) (inject_Z hour))
    10 0 0 0 15.
Definition samples : list storage_observation := [grow 60 0; grow 149 1; grow 149 2; grow 149 3; grow 149 4].
Definition tick (exhausted : bool) (hour : Z) : retention_observation :=
  RetentionObservation (inject_Z hour * HOUR_MS) 5000 exhausted 1 (fun t => match t with runtime_events => 0 | _ => 1050 end).
Definition ticks (exhausted : Z -> bool) : list retention_observation := map (fun h => tick (exhausted h) h) [0; 1; 2; 3; 4]%Z.

Definition status_of (r : string + report) : option (acceptance_status * nat * number) :=
  match r with inr r => Some (rp_status r, rp_sampleCount r, Qred (rp_rootUsedBytesPerDay r)) | inl _ => None end.

Example verdicts :
  status_of (evaluateRuntimeStorageAcceptance two_hours samples (ticks (fun _ => false))) = Some (PASS, 3%nat, 251658240) /\
  status_of (evaluateRuntimeStorageAcceptance two_hours samples (ticks (Z.eqb 3))) = Some (PASS, 3%nat, 251658240) /\
  status_of (evaluateRuntimeStorageAcceptance two_hours samples (ticks (Z.leb 3))) = Some (FAIL, 3%nat, 251658240) /\
  status_of (evaluateRuntimeStorageAcceptance DEFAULT_STORAGE_ACCEPTANCE_OPTIONS samples (ticks (Z.leb 3))) = Some (PENDING, 4%nat, 251658240).
Proof. by vm_compute. Qed.


End Story.

End Acceptance.
