(* ===== verification/WebhookRegistration.v ===== *)
(** * Keeping the webhook registered with the gateway

    [src/src/modules/webhooks/webhook-registration-reconciliation.tick.ts].  The registrations
    are kept by the gateway, which is not part of the repository: [webhook_store] lists what
    its requests do, as far as the tick relies on it.  A request may fail, before or after
    the gateway carried it out. *)

From S2P Require Import Prelude Schema SendPolicy Service Rely.

Module Registration.

Definition RUNTIME_OPENWA_WEBHOOK_EVENTS : list string :=
  ["message.received"; "message.sent"; "message.ack"; "message.failed"; "session.status";
   "session.restriction"; "group.join"; "group.leave"; "group.update"].

(** [OpenWAWebhook], with the secret that the gateway does not tell *)
Record registration := Registered {
  rg_id : string; rg_url : string; rg_events : list string; rg_secret : string; rg_active : bool; rg_retryCount : Z }.

(** The body of [registerWebhook] and [updateWebhook] *)
Record hook_input := HookInput { hk_url : string; hk_events : list string; hk_secret : string; hk_retryCount : Z }.

Definition stored_as (id : string) (i : hook_input) : registration :=
  Registered id (hk_url i) (hk_events i) (hk_secret i) true (hk_retryCount i).

(** The registrations of a session, and the requests that change them.  A new registration
    is active and has an id of its own; a request changes no other registration. *)
Class webhook_store (G : Type) := WebhookStore {
  hooks : G -> string -> list registration;
  register : string -> hook_input -> G -> G;
  update : string -> string -> hook_input -> G -> G;
  remove : string -> string -> G -> G;
  hooks_ids g sid : NoDup (map rg_id (hooks g sid));
  register_law g sid i : exists id, hooks (register sid i g) sid ≡ₚ stored_as id i :: hooks g sid;
  update_law g sid id i : hooks (update sid id i g) sid ≡ₚ
    map (fun r => if String.eqb (rg_id r) id then stored_as id i else r) (hooks g sid);
  remove_law g sid id : hooks (remove sid id g) sid ≡ₚ List.filter (fun r => negb (String.eqb (rg_id r) id)) (hooks g sid);
  register_other g sid i sid' : sid' <> sid -> hooks (register sid i g) sid' = hooks g sid';
  update_other g sid id i sid' : sid' <> sid -> hooks (update sid id i g) sid' = hooks g sid';
  remove_other g sid id sid' : sid' <> sid -> hooks (remove sid id g) sid' = hooks g sid' }.

(** [WebhookRegistrationReconciliationOptions] *)
Record reconciliation_options := ReconciliationOptions {
  ro_enabled : bool; ro_callbackUrl : option string; ro_secret : string; ro_allowedSessionIds : list string }.

(** [ReconciliationCounts] *)
Record reconciliation_counts := Counts { created : Z; updated : Z; deleted : Z }.

(** The entry the tick logs *)
Record reconciled := Reconciled { rd_sessions : nat; rd_failed : nat; rd_totals : reconciliation_counts }.

#[export] Instance filter_perm (f : registration -> bool) : Proper ((≡ₚ) ==> (≡ₚ)) (List.filter f).
Proof.
  intros l1 l2 H. induction H; cbn; [done| | |by etransitivity].
  - destruct (f x); [by constructor|done].
  - destruct (f x), (f y); (apply Permutation_swap || done).
Qed.

Section Tick.
Context {G : Type} `{!webhook_store G}.
(** [new URL(value).toString()], which throws on what is not a URL, and [localeCompare] *)
Context (normalizeUrl : string -> failure + string) (localeCompare : string -> string -> bool).
Context (options : reconciliation_options).

Definition gserv (A : Type) : Type := serv_over G A.

Definition lift {A : Type} (r : failure + A) : gserv A := match r with inl f => throw f | inr a => ret a end.

(** [registrations.filter(..)] *)
Fixpoint managed_of (url : string) (l : list registration) : failure + list registration :=
  match l with
  | [] => inr []
  | r :: rest =>
      match normalizeUrl (rg_url r) with
      | inl f => inl f
      | inr u =>
          match managed_of url rest with
          | inl f => inl f
          | inr ms => inr (if String.eqb u url then r :: ms else ms)
          end
      end
  end.

Definition input (url : string) : hook_input := HookInput url RUNTIME_OPENWA_WEBHOOK_EVENTS (ro_secret options) 3.

Fixpoint delete_all (sid : string) (duplicates : list registration) : gserv unit :=
  match duplicates with
  | [] => ret tt
  | d :: rest => let! _ := await (fun _ _ g => (tt, remove sid (rg_id d) g)) in delete_all sid rest
  end.

Definition reconcileSession (sid callbackUrl : string) : gserv reconciliation_counts :=
  let! url := lift (normalizeUrl callbackUrl) in
  let! registrations := query (fun _ g => hooks g sid) in
  let! managed := lift (managed_of url registrations) in
  match order_by (fun a b => localeCompare (rg_id a) (rg_id b)) managed with
  | [] =>
      let! _ := await (fun _ _ g => (tt, register sid (input url) g)) in
      ret (Counts 1 0 0)
  | retained :: duplicates =>
      let! _ := await (fun _ _ g => (tt, update sid (rg_id retained) (input url) g)) in
      let! _ := delete_all sid duplicates in
      ret (Counts 0 1 (Z.of_nat (length managed) - 1))
  end.

Definition add_counts (a b : reconciliation_counts) : reconciliation_counts :=
  Counts (created a + created b) (updated a + updated b) (deleted a + deleted b).

Fixpoint sessions (callbackUrl : string) (sids : list string) (failed : nat) (totals : reconciliation_counts) :
    gserv (nat * reconciliation_counts) :=
  match sids with
  | [] => ret (failed, totals)
  | sid :: rest =>
      let! c := catch (let! c := reconcileSession sid callbackUrl in ret (Some c)) (fun _ => ret None) in
      match c with
      | Some c => sessions callbackUrl rest failed (add_counts totals c)
      | None => sessions callbackUrl rest (S failed) totals
      end
  end.

Definition run : gserv (option reconciled) :=
  if negb (ro_enabled options) then ret None
  else match ro_callbackUrl options with
  | None | Some "" => throw (JsError "Webhook reconciliation is enabled without a callback URL")
  | Some callbackUrl =>
      let! r := sessions callbackUrl (ro_allowedSessionIds options) 0 (Counts 0 0 0) in
      if (0 <? r.1)%nat then throw (JsError "OpenWA webhook registration reconciliation failed")
      else ret (Some (Reconciled (length (ro_allowedSessionIds options)) r.1 r.2))
  end.

(** *** What a run does to the registrations *)

Context (url : string).

Definition ours (r : registration) : bool := match normalizeUrl (rg_url r) with inr u => String.eqb u url | inl _ => false end.
Definition mine (l : list registration) : list registration := List.filter ours l.
Definition others (l : list registration) : list registration := List.filter (fun r => negb (ours r)) l.

Lemma managed_mine l ms : managed_of url l = inr ms -> ms = mine l.
Proof.
  revert ms. induction l as [|r l IH]; intros ms; cbn; [by intros [= <-]|]. unfold ours.
  destruct (normalizeUrl (rg_url r)) as [f|u]; [done|].
  destruct (managed_of url l) as [f|ms']; [done|]. rewrite (IH ms' eq_refl). by intros [= <-].
Qed.

Lemma same_id l r1 r2 : NoDup (map rg_id l) -> r1 ∈ l -> r2 ∈ l -> rg_id r1 = rg_id r2 -> r1 = r2.
Proof.
  intros Hnd H1 H2 E. apply list_elem_of_lookup_1 in H1 as [i Hi]. apply list_elem_of_lookup_1 in H2 as [j Hj].
  assert (i = j) as ->; [|congruence].
  eapply (NoDup_lookup _ _ _ (rg_id r1) Hnd); rewrite list_lookup_fmap; [by rewrite Hi|by rewrite Hj, E].
Qed.

Lemma mine_elem l r : r ∈ mine l <-> ours r = true /\ r ∈ l.
Proof. unfold mine. rewrite !list_elem_of_In, filter_In. tauto. Qed.

Lemma mine_ids l : NoDup (map rg_id l) -> NoDup (map rg_id (mine l)).
Proof.
  induction l as [|x l IH]; [done|]. cbn. intros [Hx Hl]%NoDup_cons. specialize (IH Hl). unfold mine in *. cbn.
  destruct (ours x); [|done]. cbn. apply NoDup_cons. split; [|done]. intros (y & E & Hy)%list_elem_of_fmap.
  apply Hx, list_elem_of_fmap. exists y. split; [exact E|]. by apply (proj1 (mine_elem l y)) in Hy as [_ Hy].
Qed.

(** What the gateway lists after a request about one of ours *)
Lemma after_update l r i : NoDup (map rg_id l) -> r ∈ mine l -> ours (stored_as (rg_id r) i) = true ->
  let l' := map (fun x => if String.eqb (rg_id x) (rg_id r) then stored_as (rg_id r) i else x) l in
  others l' = others l /\ mine l' = map (fun x => if String.eqb (rg_id x) (rg_id r) then stored_as (rg_id r) i else x) (mine l).
Proof.
  intros Hnd [Hr Hin]%mine_elem Hs. cbn.
  assert (Hours : forall x, x ∈ l -> rg_id x = rg_id r -> ours x = true) by (intros x Hx E; by rewrite (same_id l x r Hnd Hx Hin E)).
  clear Hnd Hin. induction l as [|x l IH]; [done|]. cbn. destruct IH as [IH1 IH2]; [intros y Hy; apply Hours; set_solver|].
  unfold others, mine in *. destruct (String.eqb_spec (rg_id x) (rg_id r)) as [E|E].
  - rewrite Hs, (Hours x); [|set_solver|done]. cbn. rewrite IH1, IH2. destruct (String.eqb_spec (rg_id x) (rg_id r)); done.
  - rewrite IH1, IH2. destruct (ours x); cbn; [|done].
    destruct (String.eqb_spec (rg_id x) (rg_id r)); done.
Qed.

Lemma after_remove l d : NoDup (map rg_id l) -> d ∈ mine l ->
  let l' := List.filter (fun x => negb (String.eqb (rg_id x) (rg_id d))) l in
  others l' = others l /\ mine l' = List.filter (fun x => negb (String.eqb (rg_id x) (rg_id d))) (mine l).
Proof.
  intros Hnd [Hd Hin]%mine_elem. cbn.
  assert (Hours : forall x, x ∈ l -> rg_id x = rg_id d -> ours x = true) by (intros x Hx E; by rewrite (same_id l x d Hnd Hx Hin E)).
  clear Hnd Hin. induction l as [|x l IH]; [done|]. cbn. destruct IH as [IH1 IH2]; [intros y Hy; apply Hours; set_solver|].
  unfold others, mine in *. destruct (String.eqb_spec (rg_id x) (rg_id d)) as [E|E]; cbn.
  - rewrite IH1, IH2, (Hours x); [|set_solver|done]. cbn. by rewrite E, String.eqb_refl.
  - rewrite IH1, IH2. destruct (ours x); cbn; [|done]. destruct (String.eqb_spec (rg_id x) (rg_id d)); done.
Qed.

(** The registrations of others stay, and ours do not all go. *)
Record kept (g g' : G) (sid : string) : Prop := Kept {
  kp_others : others (hooks g' sid) ≡ₚ others (hooks g sid);
  kp_mine : mine (hooks g sid) <> [] -> mine (hooks g' sid) <> [] }.

Lemma kept_refl g sid : kept g g sid.
Proof. done. Qed.

Lemma kept_trans g1 g2 g3 sid : kept g1 g2 sid -> kept g2 g3 sid -> kept g1 g3 sid.
Proof. intros [O1 M1] [O2 M2]. split; [by rewrite O2|auto]. Qed.

Lemma kept_same g g' sid : hooks g' sid = hooks g sid -> kept g g' sid.
Proof. intros E. by split; rewrite E. Qed.

Definition elsewhere (g g' : G) (sid : string) : Prop := forall sid', sid' <> sid -> hooks g' sid' = hooks g sid'.

Lemma elsewhere_trans g1 g2 g3 sid : elsewhere g1 g2 sid -> elsewhere g2 g3 sid -> elsewhere g1 g3 sid.
Proof. intros H1 H2 sid' Hne. by rewrite (H2 sid' Hne), (H1 sid' Hne). Qed.

Lemma remove_duplicate g sid (k d : registration) ds : mine (hooks g sid) ≡ₚ k :: d :: ds ->
  others (hooks (remove sid (rg_id d) g) sid) ≡ₚ others (hooks g sid) /\
  mine (hooks (remove sid (rg_id d) g) sid) ≡ₚ k :: ds.
Proof.
  intros Hm. assert (Hd : d ∈ mine (hooks g sid)) by (rewrite Hm; set_solver).
  destruct (after_remove _ _ (hooks_ids g sid) Hd) as [Ho Hmi]. pose proof (remove_law g sid (rg_id d)) as Hl.
  unfold others, mine in *. rewrite Hl, Ho, Hmi, Hm. split; [done|].
  assert (Hnd : NoDup (map rg_id (k :: d :: ds))).
  { rewrite <- Hm. apply (mine_ids _ (hooks_ids g sid)). }
  cbn in Hnd. apply NoDup_cons in Hnd as [Hk Hnd]. apply NoDup_cons in Hnd as [Hdd _]. cbn.
  destruct (String.eqb_spec (rg_id k) (rg_id d)) as [E|_]; [set_solver|]. rewrite String.eqb_refl. cbn.
  apply Permutation_cons; [done|]. clear -Hdd. induction ds as [|x ds IH]; [done|]. cbn in *.
  destruct (String.eqb_spec (rg_id x) (rg_id d)) as [E|_]; [set_solver|]. cbn. rewrite IH; [done|]. set_solver.
Qed.

Lemma delete_all_spec sid k ds : forall e n g r n' g', undisturbed e -> mine (hooks g sid) ≡ₚ k :: ds ->
  delete_all sid ds e n g = (r, n', g') ->
  elsewhere g g' sid /\ others (hooks g' sid) ≡ₚ others (hooks g sid) /\ k ∈ mine (hooks g' sid) /\
  forall u, r = inr u -> mine (hooks g' sid) = [k].
Proof.
  induction ds as [|d ds IH]; intros e n g r n' g' He Hm; cbn.
  - intros [= <- _ <-]. split_and!; [done|done|rewrite Hm; set_solver|]. intros u _. by apply Permutation_singleton_r.
  - unfold bind. destruct (await _ e n g) as [[x n1] g1] eqn:E1.
    destruct (await_undisturbed _ _ _ _ _ _ _ He E1) as [[Hg _]|[-> [f ->]]].
    2: { intros [= <- _ <-]. split_and!; [done|done|rewrite Hm; set_solver|done]. }
    cbn in Hg. subst g1. destruct (remove_duplicate g sid k d ds Hm) as [Ho Hmi].
    assert (Hel : elsewhere g (remove sid (rg_id d) g) sid) by (intros sid' Hne; by apply remove_other).
    destruct x as [f|[]].
    + intros [= <- _ <-]. split_and!; [done|done|rewrite Hmi; set_solver|done].
    + intros E2. destruct (IH _ _ _ _ _ _ He Hmi E2) as (H1 & H2 & H3 & H4).
      split_and!; [by eapply elsewhere_trans|by rewrite H2|done|done].
Qed.

Context (callbackUrl : string) (Hcallback : normalizeUrl callbackUrl = inr url) (Hurl : normalizeUrl url = inr url).

(** One registration of ours, as the tick wants it *)
Definition settled (g : G) (sid : string) : Prop := exists id, mine (hooks g sid) = [stored_as id (input url)].

Lemma ours_stored id : ours (stored_as id (input url)) = true.
Proof. unfold ours. cbn. by rewrite Hurl, String.eqb_refl. Qed.

Lemma first_registration g sid : mine (hooks g sid) = [] ->
  others (hooks (register sid (input url) g) sid) ≡ₚ others (hooks g sid) /\ settled (register sid (input url) g) sid.
Proof.
  intros Hm. destruct (register_law g sid (input url)) as [id Hl]. unfold settled, others, mine in *.
  split; [|exists id; apply Permutation_singleton_r]; rewrite Hl; cbn; rewrite ours_stored; [done|by rewrite Hm].
Qed.

Lemma update_retained g sid r ds : mine (hooks g sid) ≡ₚ r :: ds ->
  others (hooks (update sid (rg_id r) (input url) g) sid) ≡ₚ others (hooks g sid) /\
  mine (hooks (update sid (rg_id r) (input url) g) sid) ≡ₚ stored_as (rg_id r) (input url) :: ds.
Proof.
  intros Hm. assert (Hr : r ∈ mine (hooks g sid)) by (rewrite Hm; set_solver).
  destruct (after_update _ _ (input url) (hooks_ids g sid) Hr (ours_stored _)) as [Ho Hmi].
  pose proof (update_law g sid (rg_id r) (input url)) as Hl. pose proof (mine_ids _ (hooks_ids g sid)) as Hnd.
  rewrite Hm in Hnd. cbn in Hnd. apply NoDup_cons in Hnd as [Hrd _].
  unfold others, mine in *. rewrite Hl, Ho, Hmi, Hm. split; [done|]. cbn. rewrite String.eqb_refl.
  apply Permutation_cons; [done|]. clear -Hrd. induction ds as [|x ds IH]; [done|]. cbn in *.
  destruct (String.eqb_spec (rg_id x) (rg_id r)) as [E|_]; [set_solver|]. rewrite IH; [done|]. set_solver.
Qed.

Lemma reconcile_spec sid e n g r n' g' : undisturbed e -> reconcileSession sid callbackUrl e n g = (r, n', g') ->
  elsewhere g g' sid /\ kept g g' sid /\
  forall c, r = inr c -> settled g' sid /\
    c = match mine (hooks g sid) with [] => Counts 1 0 0 | l => Counts 0 1 (Z.of_nat (length l) - 1) end.
Proof.
  intros He. unfold reconcileSession, lift. rewrite Hcallback.
  assert (Hnot : forall f, (inl f : failure + reconciliation_counts, n', g) = (r, n', g') -> elsewhere g g' sid /\ kept g g' sid /\
    forall c, r = inr c -> settled g' sid /\
    c = match mine (hooks g sid) with [] => Counts 1 0 0 | l => Counts 0 1 (Z.of_nat (length l) - 1) end)
    by (intros f [= <- <-]; done).
  unfold bind at 1. cbn. unfold bind at 1. destruct (query _ e n g) as [[x1 n1] g1] eqn:E1.
  destruct (query_undisturbed _ _ _ _ _ _ _ He E1) as [-> Hx]. destruct x1 as [f|l]; [intros [= <- <- <-]; by eapply Hnot|].
  rewrite (Hx _ eq_refl). unfold bind at 1. destruct (managed_of url (hooks g sid)) as [f|ms] eqn:Em;
    [intros [= <- <- <-]; by eapply Hnot|]. apply managed_mine in Em as ->. cbn [ret].
  assert (Hperm : order_by (fun a b => localeCompare (rg_id a) (rg_id b)) (mine (hooks g sid)) ≡ₚ mine (hooks g sid)) by apply order_by_Permutation.
  unfold ret at 1. destruct (order_by _ _) as [|retained ds].
  - apply Permutation_nil in Hperm. rewrite Hperm. destruct (first_registration g sid Hperm) as [Ho Hs].
    unfold bind. destruct (await _ e n1 g) as [[x2 n2] g2] eqn:E2.
    destruct (await_undisturbed _ _ _ _ _ _ _ He E2) as [[-> _]|[-> [f ->]]]; [|intros [= <- <- <-]; rewrite Hperm in Hnot; by eapply Hnot].
    cbn. assert (Hel : elsewhere g (register sid (input url) g) sid) by (intros sid' Hne; by apply register_other).
    destruct x2; intros [= <- <- <-]; (split; [done|]); (split; [by split|]); [done|]. by intros c [= <-].
  - symmetry in Hperm. destruct (update_retained g sid retained ds Hperm) as [Ho Hm].
    assert (Hne : mine (hooks g sid) <> []) by (intros E; rewrite E in Hperm; by apply Permutation_nil_cons in Hperm).
    assert (Hel : elsewhere g (update sid (rg_id retained) (input url) g) sid) by (intros sid' Hs; by apply update_other).
    unfold bind at 1. destruct (await _ e n1 g) as [[x2 n2] g2] eqn:E2.
    destruct (await_undisturbed _ _ _ _ _ _ _ He E2) as [[-> _]|[-> [f ->]]]; [|intros [= <- <- <-]; by eapply Hnot]. cbn.
    destruct x2 as [f|[]].
    { intros [= <- <- <-]. split; [done|]. split; [|done]. split; [done|]. intros _ E. rewrite E in Hm. by apply Permutation_nil_cons in Hm. }
    unfold bind. destruct (delete_all sid ds e n2 _) as [[x3 n3] g3] eqn:E3.
    destruct (delete_all_spec _ _ _ _ _ _ _ _ _ He Hm E3) as (H1 & H2 & H3 & H4).
    assert (Hk : elsewhere g g3 sid /\ kept g g3 sid).
    { split; [by eapply elsewhere_trans|]. split; [by rewrite H2|]. intros _ E. rewrite E in H3. by apply elem_of_nil in H3. }
    destruct x3 as [f|[]]; intros [= <- <- <-]; (split; [apply Hk|]); (split; [apply Hk|]); [done|]. intros c [= <-].
    split; [exists (rg_id retained); by apply (H4 tt)|]. by destruct (mine (hooks g sid)).
Qed.

Record went (sids : list string) (g g' : G) (failed failed' : nat) (totals totals' : reconciliation_counts) : Prop := Went {
  wt_failed : (failed <= failed')%nat;
  wt_elsewhere sid : sid ∉ sids -> hooks g' sid = hooks g sid;
  wt_kept sid : kept g g' sid;
  wt_settled sid : failed' = failed -> sid ∈ sids \/ settled g sid -> settled g' sid;
  wt_quiet : failed' = failed -> (forall sid, sid ∈ sids -> settled g sid) ->
    created totals' = created totals /\ deleted totals' = deleted totals /\
    updated totals' = (updated totals + Z.of_nat (length sids))%Z }.

Lemma one_session sid e n g x n' g' : undisturbed e ->
  catch (let! c := reconcileSession sid callbackUrl in ret (Some c)) (fun _ => ret None) e n g = (x, n', g') ->
  elsewhere g g' sid /\ kept g g' sid /\
  (x = inr None \/ exists c, x = inr (Some c) /\ settled g' sid /\ (settled g sid -> c = Counts 0 1 0)).
Proof.
  intros He. unfold catch, bind. destruct (reconcileSession sid callbackUrl e n g) as [[r n1] g1] eqn:E.
  destruct (reconcile_spec _ _ _ _ _ _ _ He E) as (H1 & H2 & H3).
  destruct r as [f|c]; intros [= <- <- <-]; (split; [done|]); (split; [done|]); [by left|right]. exists c. split; [done|].
  destruct (H3 c eq_refl) as [H4 ->]. split; [done|]. by intros [id ->].
Qed.

Lemma settled_same g g' sid : hooks g' sid = hooks g sid -> settled g sid -> settled g' sid.
Proof. intros E [id H]. exists id. by rewrite E. Qed.

Lemma sessions_spec sids : forall failed totals e n g r n' g', undisturbed e ->
  sessions callbackUrl sids failed totals e n g = (r, n', g') ->
  exists failed' totals', r = inr (failed', totals') /\ went sids g g' failed failed' totals totals'.
Proof.
  induction sids as [|sid sids IH]; intros failed totals e n g r n' g' He; cbn [sessions].
  - intros [= <- _ <-]. exists failed, totals. split; [done|].
    split; [done|done|intros; apply kept_refl|by intros sid _ [?%elem_of_nil|?]|]. intros _ _. cbn. by rewrite Z.add_0_r.
  - unfold bind at 1. destruct (catch _ _ e n g) as [[x n1] g1] eqn:E1.
    destruct (one_session _ _ _ _ _ _ _ He E1) as (Hel & Hk & Hx).
    assert (Hall : forall s, kept g g1 s).
    { intros s. destruct (decide (s = sid)) as [->|]; [done|]. apply kept_same. by apply Hel. }
    destruct Hx as [->|(c & -> & Hs & Hc)]; intros E2; destruct (IH _ _ _ _ _ _ _ _ He E2) as (f' & t' & -> & [W1 W2 W3 W4 W5]);
      exists f', t'; (split; [done|]); split.
    all: try (intros s Hs'; rewrite W2 by set_solver; apply Hel; set_solver).
    all: try (intros s; eapply kept_trans; [apply Hall|apply W3]).
    + lia.
    + intros; lia.
    + intros; lia.
    + done.
    + intros s Hf Hin. apply W4; [done|]. destruct (decide (s = sid)) as [->|Hne]; [by right|].
      destruct Hin as [Hin|Hin]; [left; set_solver|right]. eapply settled_same; [by apply Hel|done].
    + intros Hf Hin. destruct W5 as (-> & -> & ->); [done| |].
      * intros s Hs'. destruct (decide (s = sid)) as [->|Hne]; [done|]. eapply settled_same; [by apply Hel|apply Hin; set_solver].
      * rewrite (Hc (Hin sid ltac:(set_solver))). cbn [add_counts created updated deleted length]. lia.
Qed.

Lemma run_sessions : ro_enabled options = true -> ro_callbackUrl options = Some callbackUrl -> callbackUrl <> "" ->
  run = let! r := sessions callbackUrl (ro_allowedSessionIds options) 0 (Counts 0 0 0) in
        if (0 <? r.1)%nat then throw (JsError "OpenWA webhook registration reconciliation failed")
        else ret (Some (Reconciled (length (ro_allowedSessionIds options)) r.1 r.2)).
Proof. unfold run. intros -> -> Hne. revert Hne. by case callbackUrl. Qed.

(** C30: whatever request of a run fails, no registration of others changes, no session outside the
    allowed ones is touched, and a session that had a registration of the runtime still has one:
    the one that is kept is updated before its duplicates go.  A run that ends well leaves
    every allowed session with exactly one registration for the callback, active, with the
    events and the secret of the runtime; when they were like this before, it creates and
    deletes none. *)
Theorem registrations_converge e n g r n' g' : undisturbed e -> ro_enabled options = true ->
  ro_callbackUrl options = Some callbackUrl -> callbackUrl <> "" -> run e n g = (r, n', g') ->
  (forall sid, sid ∉ ro_allowedSessionIds options -> hooks g' sid = hooks g sid) /\
  (forall sid, kept g g' sid) /\
  (forall x, r = inr x -> exists totals,
     x = Some (Reconciled (length (ro_allowedSessionIds options)) 0 totals) /\
     (forall sid, sid ∈ ro_allowedSessionIds options -> settled g' sid) /\
     ((forall sid, sid ∈ ro_allowedSessionIds options -> settled g sid) ->
        totals = Counts 0 (Z.of_nat (length (ro_allowedSessionIds options))) 0)).
Proof.
  intros He Hen Hcb Hne. rewrite (run_sessions Hen Hcb Hne). unfold bind.
  destruct (sessions _ _ _ _ e n g) as [[x n1] g1] eqn:E.
  destruct (sessions_spec _ _ _ _ _ _ _ _ _ He E) as (failed & totals & -> & [W1 W2 W3 W4 W5]). cbn [fst snd].
  destruct (Nat.ltb_spec 0 failed) as [Hf|Hf]; intros [= <- <- <-]; (split; [done|]); (split; [done|]); [done|].
  assert (failed = O) as -> by lia. intros y [= <-]. exists totals. split; [done|]. split.
  - intros sid Hin. by apply W4; [|left].
  - intros Hs. destruct (W5 eq_refl Hs) as (H1 & H2 & H3). destruct totals. cbn in *. subst. by rewrite Z.add_0_l.
Qed.

End Tick.

(** *** A gateway that keeps the promises of [webhook_store] *)
Module Story.

(** For every session the registrations by id, each with its active flag *)
Abbreviation gateway := (gmap string (gmap string (bool * hook_input))).

Definition listed (p : string * (bool * hook_input)) : registration :=
  Registered p.1 (hk_url p.2.2) (hk_events p.2.2) (hk_secret p.2.2) p.2.1 (hk_retryCount p.2.2).
Definition of_session (g : gateway) (sid : string) : gmap string (bool * hook_input) := default ∅ (g !! sid).
Definition gw_hooks (g : gateway) (sid : string) : list registration := map listed (map_to_list (of_session g sid)).
Definition gw_register (sid : string) (i : hook_input) (g : gateway) : gateway :=
  <[sid := <[fresh (dom (of_session g sid)) := (true, i)]> (of_session g sid)]> g.
Definition gw_update (sid id : string) (i : hook_input) (g : gateway) : gateway :=
  <[sid := if bool_decide (is_Some (of_session g sid !! id)) then <[id := (true, i)]> (of_session g sid) else of_session g sid]> g.
Definition gw_remove (sid id : string) (g : gateway) : gateway := <[sid := delete id (of_session g sid)]> g.

Lemma of_session_put g sid m : of_session (<[sid := m]> g) sid = m.
Proof. unfold of_session. by rewrite lookup_insert_eq. Qed.

Lemma of_session_other g sid sid' m : sid' <> sid -> of_session (<[sid := m]> g) sid' = of_session g sid'.
Proof. intros H. unfold of_session. by rewrite lookup_insert_ne. Qed.

Lemma listed_delete (m : gmap string (bool * hook_input)) id x : m !! id = Some x ->
  map listed (map_to_list m) ≡ₚ listed (id, x) :: map listed (map_to_list (delete id m)).
Proof. intros H. by rewrite <- (map_to_list_delete m id x H). Qed.

Lemma listed_elsewhere (m : gmap string (bool * hook_input)) id : m !! id = None ->
  Forall (fun r => rg_id r <> id) (map listed (map_to_list m)).
Proof.
  intros H. apply Forall_map, Forall_forall. intros [id' x] Hin%elem_of_map_to_list. cbn. by intros ->; rewrite H in Hin.
Qed.

Lemma map_elsewhere (f : registration -> registration) id l : Forall (fun r => rg_id r <> id) l ->
  map (fun r => if String.eqb (rg_id r) id then f r else r) l = l /\
  List.filter (fun r => negb (String.eqb (rg_id r) id)) l = l.
Proof.
  induction 1 as [|r l Hr _ [IH1 IH2]]; [done|]. cbn. destruct (String.eqb_spec (rg_id r) id); [done|]. cbn. by rewrite IH1, IH2.
Qed.

#[export] Program Instance kept_by_maps : webhook_store gateway :=
  {| hooks := gw_hooks; register := gw_register; update := gw_update; remove := gw_remove |}.
Next Obligation.
  intros g sid. unfold gw_hooks. rewrite map_map. change (fun x => rg_id (listed x)) with (@fst string (bool * hook_input)).
  apply NoDup_fst_map_to_list.
Qed.
Next Obligation.
  intros g sid i. exists (fresh (dom (of_session g sid))). unfold gw_hooks, gw_register. rewrite of_session_put.
  rewrite map_to_list_insert; [done|]. apply not_elem_of_dom, is_fresh.
Qed.
Next Obligation.
  intros g sid id i. unfold gw_hooks, gw_update. rewrite of_session_put. case_bool_decide as H.
  - destruct H as [x Hx]. rewrite (listed_delete _ id x Hx).
    rewrite (listed_delete (<[id := (true, i)]> _) id (true, i)) by apply lookup_insert_eq.
    rewrite delete_insert_eq. cbn. rewrite String.eqb_refl. apply Permutation_cons; [done|].
    by rewrite (proj1 (map_elsewhere (fun _ => stored_as id i) id _ (listed_elsewhere _ id (lookup_delete_eq _ _)))).
  - apply eq_None_not_Some in H. by rewrite (proj1 (map_elsewhere (fun _ => stored_as id i) id _ (listed_elsewhere _ id H))).
Qed.
Next Obligation.
  intros g sid id. unfold gw_hooks, gw_remove. rewrite of_session_put.
  destruct (of_session g sid !! id) as [x|] eqn:E.
  - rewrite (listed_delete _ id x E). cbn. rewrite String.eqb_refl. cbn.
    by rewrite (proj2 (map_elsewhere (fun r => r) id _ (listed_elsewhere _ id (lookup_delete_eq _ _)))).
  - rewrite (proj2 (map_elsewhere (fun r => r) id _ (listed_elsewhere _ id E))). by rewrite delete_id.
Qed.
Next Obligation. intros g sid i sid' H. unfold gw_hooks, gw_register. by rewrite of_session_other. Qed.
Next Obligation. intros g sid id i sid' H. unfold gw_hooks, gw_update. by rewrite of_session_other. Qed.
Next Obligation. intros g sid id sid' H. unfold gw_hooks, gw_remove. by rewrite of_session_other. Qed.

(** A URL of this story ends in a slash once it is parsed. *)
Definition parse (value : string) : failure + string :=
  if String.prefix "https://" value then inr (if ends_with "/" value then value else (value ++ "/")%string) else inl (JsError "Invalid URL").

Definition wanted : reconciliation_options := ReconciliationOptions true (Some "https://runtime") "new-secret" ["s1"; "s2"].
Definition old (url : string) : bool * hook_input := (false, HookInput url ["message.received"] "old-secret" 0).

(** Two registrations of the runtime and one of another client; the second session has none. *)
Definition before_ : gateway := {["s1" := {["a" := old "https://runtime"; "b" := old "https://runtime/"; "c" := old "https://other/"]}]}.
Definition calm : env_over gateway := Env (fun n => Z.of_nat n) (fun _ _ => 1%positive) (fun _ w => w) (fun _ => None).

Abbreviation after_ := (run parse text_leb wanted calm 0 before_).

Example after_a_run : after_.1.1 = inr (Some (Reconciled 2 0 (Counts 1 1 1))) /\
  map (fun r => (rg_id r, rg_secret r)) (hooks after_.2 "s1") = [("c", "old-secret"); ("a", "new-secret")].
Proof. by vm_compute. Qed.

Lemma registrations_converge_witness : settled parse wanted "https://runtime/" after_.2 "s1" /\ kept parse "https://runtime/" before_ after_.2 "s1".
Proof.
  assert (He : undisturbed calm) by by intros n w.
  assert (Hok : exists x, after_.1.1 = inr x) by (eexists; vm_compute; reflexivity).
  destruct after_ as [[r n'] g'] eqn:E. cbn [fst snd] in *. destruct Hok as [x ->].
  destruct (registrations_converge parse text_leb wanted "https://runtime/" "https://runtime" eq_refl eq_refl calm 0 before_ (inr x) n' g' He eq_refl eq_refl)
    as (_ & Hk & Hs); [discriminate|exact E|]. destruct (Hs x eq_refl) as (t & _ & Hset & _).
  split; [|apply Hk]. apply Hset. apply elem_of_cons. by left.
Defined.

End Story.

End Registration.
