(* ===== verification/ErrorResponses.v ===== *)
(** * Error responses

    [src/src/core/http/runtime-http-exception.filter.ts] and the filters of the controllers:
    [gateway/group-http-exception.filter.ts], [group-lists/group-list-http-exception.filter.ts]
    and [campaigns/campaign-http-exception.filter.ts].  A filter turns an exception into a
    status and a body.  A body that a feature gave its exception is a value of [V]; the
    empty [details] of the others are left out. *)

From S2P Require Import Prelude.
From stdpp Require Import pretty.
From Stdlib Require Import Ascii.

Module ErrorResponse.

Local Open Scope Z_scope.

(** [getResponse()] of an [HttpException]: its text, an object with a code, with messages
    (a single one counts as a list of one), or without either *)
Inductive response (V : Type) : Type :=
  | RText (s : string)
  | RCoded (v : V)
  | RMessages (l : list string)
  | RPlain.
Arguments RText {V} _.
Arguments RCoded {V} _.
Arguments RMessages {V} _.
Arguments RPlain {V}.

Record http_exception (V : Type) := HttpException { ex_status : Z; ex_message : string; ex_response : response V }.
Arguments HttpException {V} _ _ _.
Arguments ex_status {V} _.
Arguments ex_message {V} _.
Arguments ex_response {V} _.

(** [RuntimeErrorDto] *)
Record runtime_error := RuntimeError {
  re_code : string; re_message : string; re_fieldErrors : option (gmap string (list string)) }.

Inductive body (V : Type) : Type :=
  | Passed (v : V)
  | Normal (e : runtime_error).
Arguments Passed {V} _.
Arguments Normal {V} _.

(** *** Texts *)

Fixpoint includes (w s : string) : bool :=
  String.prefix w s || match s with String _ s' => includes w s' | EmptyString => false end.

Definition is_letter (c : ascii) : bool :=
  let n := nat_of_ascii c in ((65 <=? n) && (n <=? 90))%nat || ((97 <=? n) && (n <=? 122))%nat.
Definition is_digit (c : ascii) : bool := let n := nat_of_ascii c in ((48 <=? n) && (n <=? 57))%nat.
Definition is_word (c : ascii) : bool := is_letter c || is_digit c || Ascii.eqb c "_".

(** What is left of [s] after [w], which it starts with *)
Fixpoint strip (w s : string) : string :=
  match w, s with String _ w', String _ s' => strip w' s' | _, _ => s end.

Definition starts_inside (s : string) : bool := match s with String c _ => is_word c | EmptyString => false end.

(** [/\bw\b/u.test(s)], for a word [w]; [inside] when a word character precedes [s] *)
Fixpoint has_word_from (inside : bool) (w s : string) : bool :=
  (negb inside && String.prefix w s && negb (starts_inside (strip w s)))
  || match s with String c s' => has_word_from (is_word c) w s' | EmptyString => false end.
Definition has_word (w s : string) : bool := has_word_from false w s.

(** [/^([^\s]+)\s/u]: what is before the first space, if there is one and it is not the first *)
Fixpoint before_space (s : string) : option string :=
  match s with
  | EmptyString => None
  | String c s' => if is_space c then Some EmptyString else String c <$> before_space s'
  end.
Definition first_word (s : string) : option string :=
  match before_space s with Some EmptyString => None | w => w end.

(** [/^property\s+([^\s]+)\s/u] *)
Definition forbidden_property (s : string) : option string :=
  if String.prefix "property" s
  then match strip "property" s with
       | String c rest => if is_space c then first_word (trim_start rest) else None
       | EmptyString => None
       end
  else None.

Fixpoint all_chars (f : ascii -> bool) (s : string) : bool :=
  match s with EmptyString => true | String c s' => f c && all_chars f s' end.

(** [/^[A-Za-z][A-Za-z0-9_.-]*$/u] *)
Definition is_field (s : string) : bool :=
  match s with
  | EmptyString => false
  | String c s' => is_letter c && all_chars (fun c => is_word c || mem c ["."; "-"]%char) s'
  end.

(** [message.split(' ')[0]] *)
Fixpoint until_blank (s : string) : string :=
  match s with
  | EmptyString => EmptyString
  | String c s' => if Ascii.eqb c " " then EmptyString else String c (until_blank s')
  end.

(** *** Field errors *)

(** What every object has: [fieldErrors[field] ??= []] finds it, and it has no [push]. *)
Definition inherited : list string :=
  ["constructor"; "__proto__"; "hasOwnProperty"; "isPrototypeOf"; "propertyIsEnumerable"; "toLocaleString"; "toString";
   "valueOf"; "__defineGetter__"; "__defineSetter__"; "__lookupGetter__"; "__lookupSetter__"].

(** [(fieldErrors[field] ??= []).push(message)], or its TypeError *)
Definition push_error (field message : string) (errors : gmap string (list string)) : option (gmap string (list string)) :=
  if mem field inherited then None
  else Some (<[field := default [] (errors !! field) ++ [message]]> errors).

Fixpoint group_from (field : string -> string) (messages : list string) (errors : gmap string (list string)) :
    option (gmap string (list string)) :=
  match messages with
  | [] => Some errors
  | m :: rest => match push_error (field m) m errors with Some errors' => group_from field rest errors' | None => None end
  end.
Definition group_errors (field : string -> string) (messages : list string) : option (gmap string (list string)) :=
  group_from field messages ∅.

(** *** [runtimeErrorFromHttpException] *)

Definition BAD_REQUEST : Z := 400.
Definition NOT_FOUND : Z := 404.

Definition statusCode (status : Z) : string :=
  match status with
  | 400 => "VALIDATION_ERROR" | 401 => "UNAUTHORIZED" | 403 => "FORBIDDEN" | 404 => "RESOURCE_NOT_FOUND"
  | 409 => "CONFLICT" | 422 => "UNPROCESSABLE_ENTITY" | 429 => "RATE_LIMITED" | 503 => "SERVICE_UNAVAILABLE"
  | _ => "HTTP_" +:+ pretty status
  end.

Definition validationField (message : string) : string :=
  match forbidden_property message with
  | Some field => field
  | None => match first_word message with
            | Some field => if is_field field then field else "request"
            | None => "request"
            end
  end.

Section Filters.
Context {V : Type}.

Definition messagesFrom (e : http_exception V) : list string :=
  match ex_response e with RMessages l => l | _ => [ex_message e] end.

Definition first_message (e : http_exception V) : string := default (ex_message e) (head (messagesFrom e)).

(** [...(status === HttpStatus.BAD_REQUEST ? { fieldErrors } : {})] *)
Definition if_bad_request (status : Z) (errors : gmap string (list string)) : option (gmap string (list string)) :=
  if status =? BAD_REQUEST then Some errors else None.

(** [None] is a TypeError. *)
Definition runtimeErrorFromHttpException (e : http_exception V) : option (body V) :=
  match ex_response e with
  | RCoded v => Some (Passed v)
  | _ =>
      errors ← (if ex_status e =? BAD_REQUEST then group_errors validationField (messagesFrom e) else Some ∅);
      Some (Normal (RuntimeError (statusCode (ex_status e)) (first_message e) (if_bad_request (ex_status e) errors)))
  end.

(** What is caught: an [HttpException], or anything else, [tt] *)
Definition runtimeErrorFromException (exception : http_exception V + unit) : option (Z * body V) :=
  match exception with
  | inl e => b ← runtimeErrorFromHttpException e; Some (ex_status e, b)
  | inr _ => Some (500, Normal (RuntimeError "INTERNAL_ERROR" "Internal server error" None))
  end.

Definition generic (e : http_exception V) : option (Z * body V) :=
  b ← runtimeErrorFromHttpException e; Some (ex_status e, b).

(** *** [GroupHttpExceptionFilter] *)

Definition participantFields : list string := ["minParticipants"; "maxParticipants"].

Definition group_field (message : string) : string :=
  default (until_blank message) (List.find (fun f => includes f message) participantFields).

Definition group_filter (e : http_exception V) : option (Z * body V) :=
  match ex_response e with
  | RCoded v => Some (ex_status e, Passed v)
  | _ =>
      let messages := messagesFrom e in
      let participants := existsb (fun f => existsb (includes f) messages) participantFields in
      errors ← group_errors group_field messages;
      let code :=
        if participants then Some "GROUP_FILTER_PARTICIPANTS_INVALID"
        else if existsb (has_word "query") messages then Some "GROUP_QUERY_INVALID"
        else if (ex_status e =? NOT_FOUND) && bool_decide (head messages = Some "Group not found") then Some "GROUP_NOT_FOUND"
        else None in
      match code with
      | None => generic e
      | Some code =>
          Some (ex_status e, Normal (RuntimeError code
            (if participants then "Participant count filters are invalid." else first_message e)
            (if_bad_request (ex_status e) errors)))
      end
  end.

(** *** [GroupListHttpExceptionFilter] *)

Definition list_fields : list string := ["sessionId"; "name"; "description"; "groupIds"; "query"; "limit"; "offset"].

Definition list_field (message : string) : string :=
  default "request" (List.find (fun f => includes f message) list_fields).

Definition list_filter (e : http_exception V) : option (Z * body V) :=
  match ex_response e with
  | RCoded v => Some (ex_status e, Passed v)
  | _ =>
      let messages := messagesFrom e in
      let invalid w := (ex_status e =? BAD_REQUEST) && existsb (includes w) messages in
      errors ← group_errors list_field messages;
      let code :=
        if invalid "query" then Some "GROUP_LIST_QUERY_INVALID"
        else if invalid "groupIds" then Some "GROUP_LIST_GROUP_INVALID"
        else if invalid "sessionId" then Some "GROUP_LIST_SESSION_INVALID"
        else if invalid "name" then Some "GROUP_LIST_NAME_INVALID"
        else None in
      match code with
      | None => generic e
      | Some code => Some (ex_status e, Normal (RuntimeError code (first_message e) (if_bad_request (ex_status e) errors)))
      end
  end.

(** *** [CampaignHttpExceptionFilter] *)

Definition campaignValidationError (messages : list string) : option (string * string) :=
  if existsb (has_word "expectedTargetsRevision") messages then Some ("CAMPAIGN_TARGETS_REVISION_INVALID", "expectedTargetsRevision")
  else if existsb (has_word "expectedRevision") messages then Some ("CAMPAIGN_REVISION_INVALID", "expectedRevision")
  else if existsb (has_word "status") messages then Some ("CAMPAIGN_FILTER_STATUS_INVALID", "status")
  else if existsb (has_word "scheduleType") messages then Some ("CAMPAIGN_FILTER_SCHEDULE_TYPE_INVALID", "scheduleType")
  else if existsb (has_word "query") messages then Some ("CAMPAIGN_QUERY_INVALID", "query")
  else None.

Definition campaign_filter (e : http_exception V) : option (Z * body V) :=
  match ex_response e with
  | RCoded v => Some (ex_status e, Passed v)
  | _ =>
      let messages := messagesFrom e in
      match campaignValidationError messages with
      | Some (code, field) =>
          if ex_status e =? BAD_REQUEST
          then Some (ex_status e, Normal (RuntimeError code (first_message e) (Some {[field := messages]})))
          else generic e
      | None => generic e
      end
  end.

End Filters.

(** *** What is answered *)

Inductive filter := Runtime | Group_ | GroupList | Campaign.

Definition answer {V : Type} (f : filter) : http_exception V -> option (Z * body V) :=
  match f with Runtime => generic | Group_ => group_filter | GroupList => list_filter | Campaign => campaign_filter end.

(** *** Grouping *)

Definition nonempty {A : Type} (l : list A) : option (list A) := match l with [] => None | _ => Some l end.

(** Every message stands under its field, in the order of the messages, and nothing else does. *)
Definition filed (field : string -> string) (messages : list string) (errors : gmap string (list string)) : Prop :=
  forall f, errors !! f = nonempty (List.filter (fun m => bool_decide (field m = f)) messages).

Lemma group_from_spec field messages : forall done_ errors, filed field done_ errors ->
  (forall m, m ∈ messages -> field m ∉ inherited) ->
  exists errors', group_from field messages errors = Some errors' /\ filed field (done_ ++ messages) errors'.
Proof.
  induction messages as [|m rest IH]; intros done_ errors Hf Hin; cbn.
  - exists errors. by rewrite app_nil_r.
  - unfold push_error. rewrite (proj2 (mem_false _ _)) by (apply Hin; set_solver).
    destruct (IH (done_ ++ [m]) (<[field m := default [] (errors !! field m) ++ [m]]> errors)) as (e & E & H).
    + intros f. rewrite List.filter_app. cbn. case_bool_decide as Hm.
      * subst f. rewrite lookup_insert_eq, (Hf (field m)). by destruct (List.filter _ done_).
      * by rewrite lookup_insert_ne, app_nil_r by done.
    + intros m' Hm'. apply Hin. set_solver.
    + exists e. by rewrite <- (assoc_L (++)) in H.
Qed.

Lemma group_errors_spec field messages : (forall m, m ∈ messages -> field m ∉ inherited) ->
  exists errors, group_errors field messages = Some errors /\ filed field messages errors.
Proof. apply (group_from_spec field messages [] ∅). intros f. by rewrite lookup_empty. Qed.

Lemma filed_once field messages : messages <> [] -> filed (fun _ => field) messages {[field := messages]}.
Proof.
  intros Hne f. assert (Hall : List.filter (fun _ => true) messages = messages) by (clear; induction messages; cbn; congruence).
  assert (Hnone : List.filter (fun _ => false) messages = []) by (clear; induction messages; cbn; done).
  destruct (decide (field = f)) as [->|Hf].
  - rewrite lookup_singleton_eq. rewrite bool_decide_eq_true_2 by done. rewrite Hall. by destruct messages.
  - rewrite lookup_singleton_ne by done. rewrite bool_decide_eq_false_2 by done. by rewrite Hnone.
Qed.

(** *** The contract *)

(** The codes of a feature *)
Definition special_codes (f : filter) : list string :=
  match f with
  | Runtime => []
  | Group_ => ["GROUP_FILTER_PARTICIPANTS_INVALID"; "GROUP_QUERY_INVALID"; "GROUP_NOT_FOUND"]
  | GroupList => ["GROUP_LIST_QUERY_INVALID"; "GROUP_LIST_GROUP_INVALID"; "GROUP_LIST_SESSION_INVALID"; "GROUP_LIST_NAME_INVALID"]
  | Campaign => ["CAMPAIGN_TARGETS_REVISION_INVALID"; "CAMPAIGN_REVISION_INVALID"; "CAMPAIGN_FILTER_STATUS_INVALID";
                 "CAMPAIGN_FILTER_SCHEDULE_TYPE_INVALID"; "CAMPAIGN_QUERY_INVALID"]
  end.

Section Contract.
Context {V : Type}.

(** No message names, as its field, what every object inherits. *)
Definition ordinary (e : http_exception V) : Prop :=
  forall m, m ∈ messagesFrom e -> (validationField m ∉ inherited) /\ (until_blank m ∉ inherited).

(** What the filter makes of an exception without a code *)
Record answered (f : filter) (e : http_exception V) (err : runtime_error) : Prop := Answered {
  an_code : re_code err = statusCode (ex_status e) \/ re_code err ∈ special_codes f;
  an_fields : match re_fieldErrors err with
              | None => ex_status e <> BAD_REQUEST
              | Some errors => ex_status e = BAD_REQUEST /\ exists field, filed field (messagesFrom e) errors
              end;
  an_status : f <> Group_ -> ex_status e <> BAD_REQUEST -> re_code err = statusCode (ex_status e) }.

Lemma if_bad_request_fields (e : http_exception V) field errors : filed field (messagesFrom e) errors ->
  match if_bad_request (ex_status e) errors with
  | None => ex_status e <> BAD_REQUEST
  | Some errors => ex_status e = BAD_REQUEST /\ exists field, filed field (messagesFrom e) errors
  end.
Proof.
  intros Hf. unfold if_bad_request. destruct (Z.eqb_spec (ex_status e) BAD_REQUEST); [|done]. split; [done|]. by exists field.
Qed.

Lemma generic_answers f (e : http_exception V) : ordinary e -> (forall v, ex_response e <> RCoded v) ->
  exists err, generic e = Some (ex_status e, Normal err) /\ answered f e err.
Proof.
  intros Ho Hc. unfold generic, runtimeErrorFromHttpException.
  assert (Hg : exists err, (errors ← (if ex_status e =? BAD_REQUEST then group_errors validationField (messagesFrom e) else Some ∅);
      Some (Normal (V := V) (RuntimeError (statusCode (ex_status e)) (first_message e) (if_bad_request (ex_status e) errors)))) = Some (Normal err) /\
      answered f e err).
  { destruct (Z.eqb_spec (ex_status e) BAD_REQUEST) as [Hs|Hs].
    - destruct (group_errors_spec validationField (messagesFrom e)) as (errors & -> & Hf); [intros m Hm; by apply Ho|].
      eexists. split; [done|]. split; [by left|cbn; by eapply if_bad_request_fields|done].
    - eexists. split; [done|]. split; [by left| |done]. cbn. unfold if_bad_request. by destruct (Z.eqb_spec (ex_status e) BAD_REQUEST). }
  destruct Hg as (err & Hg & Ha). exists err. split; [|done].
  destruct (ex_response e) as [s|v|l|]; [|by destruct (Hc v)|..]; by rewrite Hg.
Qed.

(** A code of the feature, which keeps to bad requests unless it is that of the groups *)
Lemma special_answers f (e : http_exception V) code message field errors : code ∈ special_codes f ->
  f = Group_ \/ ex_status e = BAD_REQUEST -> filed field (messagesFrom e) errors ->
  answered f e (RuntimeError code message (if_bad_request (ex_status e) errors)).
Proof.
  intros Hc Hs Hf. split; [by right|by eapply if_bad_request_fields|]. by destruct Hs.
Qed.

Lemma group_field_ordinary m : until_blank m ∉ inherited -> group_field m ∉ inherited.
Proof.
  intros Hm. unfold group_field. destruct (List.find _ _) as [f|] eqn:E; [|done]. cbn.
  apply find_some in E as [Hin _]. apply list_elem_of_In in Hin. intros H. apply mem_true in H.
  repeat (apply elem_of_cons in Hin as [->|Hin]; [by vm_compute in H|]). by apply elem_of_nil in Hin.
Qed.

Lemma list_field_ordinary m : list_field m ∉ inherited.
Proof.
  unfold list_field. intros H%mem_true. destruct (List.find _ _) as [f|] eqn:E; [|by vm_compute in H]. cbn in H.
  apply find_some in E as [Hin _]. apply list_elem_of_In in Hin.
  repeat (apply elem_of_cons in Hin as [->|Hin]; [by vm_compute in H|]). by apply elem_of_nil in Hin.
Qed.

Lemma group_answers (e : http_exception V) : ordinary e -> (forall v, ex_response e <> RCoded v) ->
  exists err, group_filter e = Some (ex_status e, Normal err) /\ answered Group_ e err.
Proof.
  intros Ho Hc. destruct (generic_answers Group_ e Ho Hc) as (err & Hg & Ha).
  destruct (group_errors_spec group_field (messagesFrom e)) as (errors & He & Hf); [intros m Hm; apply group_field_ordinary, Ho, Hm|].
  assert (E : group_filter e = _) by (unfold group_filter; destruct (ex_response e); [reflexivity|by destruct (Hc v)|reflexivity..]).
  rewrite E, He. cbn [mbind option_bind]. repeat case_match; simplify_eq; eauto; eexists; (split; [done|]);
    eapply special_answers; try done; try (by left); cbn; set_solver.
Qed.

Lemma list_answers (e : http_exception V) : ordinary e -> (forall v, ex_response e <> RCoded v) ->
  exists err, list_filter e = Some (ex_status e, Normal err) /\ answered GroupList e err.
Proof.
  intros Ho Hc. destruct (generic_answers GroupList e Ho Hc) as (err & Hg & Ha).
  destruct (group_errors_spec list_field (messagesFrom e)) as (errors & He & Hf); [intros m _; apply list_field_ordinary|].
  assert (E : list_filter e = _) by (unfold list_filter; destruct (ex_response e); [reflexivity|by destruct (Hc v)|reflexivity..]).
  rewrite E, He. cbn [mbind option_bind]. destruct (Z.eqb_spec (ex_status e) BAD_REQUEST) as [Hs|Hs]; cbn [andb]; [|by eauto].
  repeat case_match; simplify_eq; eauto; eexists; (split; [done|]);
    eapply special_answers; try done; try (by right); cbn; set_solver.
Qed.

Lemma campaign_answers (e : http_exception V) : ordinary e -> (forall v, ex_response e <> RCoded v) ->
  exists err, campaign_filter e = Some (ex_status e, Normal err) /\ answered Campaign e err.
Proof.
  intros Ho Hc. destruct (generic_answers Campaign e Ho Hc) as (err & Hg & Ha).
  assert (E : campaign_filter e = match campaignValidationError (messagesFrom e) with
    | Some (code, field) => if ex_status e =? BAD_REQUEST
        then Some (ex_status e, Normal (RuntimeError code (first_message e) (Some {[field := messagesFrom e]}))) else generic e
    | None => generic e end) by (unfold campaign_filter; destruct (ex_response e); [reflexivity|by destruct (Hc v)|reflexivity..]).
  rewrite E. destruct (campaignValidationError (messagesFrom e)) as [[code field]|] eqn:Ev; [|by eauto].
  destruct (Z.eqb_spec (ex_status e) BAD_REQUEST) as [Hs|Hs]; [|by eauto].
  assert (Hne : messagesFrom e <> []) by (intros E0; by rewrite E0 in Ev).
  eexists. split; [done|].
  replace (Some {[field := messagesFrom e]}) with (if_bad_request (ex_status e) {[field := messagesFrom e]})
    by (unfold if_bad_request; by rewrite Hs).
  eapply special_answers; [|by right|by apply filed_once].
  unfold campaignValidationError in Ev. repeat case_match; simplify_eq; cbn; set_solver.
Qed.

(** Every filter answers every exception with the exception's own status: a body that has a
    code as it is, and otherwise a code that follows from the status or belongs to the
    feature.  A 400, and nothing else, has field errors, in which every message stands
    under one field; outside the filter of groups a code of a feature is given to a 400 only.
    This needs that no message names an inherited member as its field, on which the filters
    throw.  Of an exception that is none of HTTP nothing is told. *)
Theorem every_error_is_answered (f : filter) (e : http_exception V) :
  (forall v, ex_response e = RCoded v -> answer f e = Some (ex_status e, Passed v)) /\
  ((forall v, ex_response e <> RCoded v) -> ordinary e ->
     exists err, answer f e = Some (ex_status e, Normal err) /\ answered f e err) /\
  (forall u, runtimeErrorFromException (V := V) (inr u) = Some (500, Normal (RuntimeError "INTERNAL_ERROR" "Internal server error" None))).
Proof.
  split_and!; [|intros Hc Ho|done].
  - intros v Hv. destruct f; cbn; [unfold generic, runtimeErrorFromHttpException|unfold group_filter|unfold list_filter|unfold campaign_filter]; by rewrite Hv.
  - destruct f; [by apply generic_answers|by apply group_answers|by apply list_answers|by apply campaign_answers].
Qed.

End Contract.

(** What the texts make of it: a message that does not begin with a field is filed under its
    first word, and the filter of groups answers a failure that is no bad request with the code of
    a query. *)
Example first_words :
  validationField "limit must not be greater than 200" = "limit" /\
  validationField "property unexpected should not exist" = "unexpected" /\
  validationField "Validation failed (uuid is expected)" = "Validation" /\
  answer (V := unit) Group_ (HttpException 503 "no query now" (RMessages ["no query now"])) =
    Some (503, Normal (RuntimeError "GROUP_QUERY_INVALID" "no query now" None)) /\
  answer (V := unit) Runtime (HttpException 400 "" (RMessages ["property toString should not exist"])) = None.
Proof. by vm_compute. Qed.

(** Two invalid fields of a request for campaigns: both messages stand under the first. *)
Example campaign_fields :
  answer (V := unit) Campaign (HttpException 400 "Bad Request" (RMessages ["limit must be an integer"; "status must be valid"])) =
  Some (400, Normal (RuntimeError "CAMPAIGN_FILTER_STATUS_INVALID" "limit must be an integer"
    (Some {["status" := ["limit must be an integer"; "status must be valid"]]}))).
Proof. by vm_compute. Qed.

(** The answer of [health/ready] while a dependency is down: the exception of the controller has
    neither a code nor a message in its object, so the body that it was given is lost. *)
Example not_ready_is_replaced :
  answer (V := unit) Runtime (HttpException 503 "Service Unavailable Exception" RPlain) =
  Some (503, Normal (RuntimeError "SERVICE_UNAVAILABLE" "Service Unavailable Exception" None)).
Proof. by vm_compute. Qed.

End ErrorResponse.
