(* ===== verification/Logging.v ===== *)
(** * What the logs tell

    [sanitize] of [src/src/core/observability/json-logger.ts], through which every structured
    log entry passes, and the levels.  A value is what JSON has, or an [Error]. *)

From S2P Require Import Prelude ErrorResponses.
From Stdlib Require Import Ascii.

#[local] Set Warnings "-register-all".

Module Logging.

Inductive value : Type :=
  | Text (s : string)
  (** a number, a boolean, null or undefined *)
  | Scalar (n : option Z)
  | Array_ (l : list value)
  | Object_ (l : list (string * value))
  | Error_ (name message : string).

Definition lower (c : ascii) : ascii :=
  let n := nat_of_ascii c in if ((65 <=? n) && (n <=? 90))%nat then ascii_of_nat (n + 32) else c.
Fixpoint lower_all (s : string) : string :=
  match s with EmptyString => EmptyString | String c s' => String (lower c) (lower_all s') end.

(** [sensitiveKey.test(key)] *)
Definition sensitive (key : string) : bool :=
  existsb (fun w => ErrorResponse.includes w (lower_all key))
    ["authorization"; "api-key"; "api_key"; "apikey"; "secret"; "token"; "password"; "payload"; "body"; "text"; "phone"].
Arguments sensitive : simpl never.

Fixpoint sanitize (v : value) (depth : nat) : value :=
  if (3 <? depth)%nat then Text "[truncated]"
  else match v with
  | Error_ name message => Object_ [("name", Text name); ("message", Text message)]
  | Array_ l => Array_ (take 20 (map (fun item => sanitize item (S depth)) l))
  | Object_ l => Object_ (map (fun '(key, item) => (key, if sensitive key then Text "[redacted]" else sanitize item (S depth))) l)
  | _ => v
  end.

(** *** The induction over values *)

Lemma value_rect_all (P : value -> Prop) :
  (forall s, P (Text s)) -> (forall n, P (Scalar n)) -> (forall name m, P (Error_ name m)) ->
  (forall l, Forall P l -> P (Array_ l)) -> (forall l, Forall (fun p => P p.2) l -> P (Object_ l)) -> forall v, P v.
Proof.
  intros Ht Hn He Ha Ho. fix IH 1. intros [s|n|l|l|name m]; [apply Ht|apply Hn|apply Ha|apply Ho|apply He].
  - induction l as [|x l IHl]; constructor; [apply IH|apply IHl].
  - induction l as [|[k x] l IHl]; constructor; [apply IH|apply IHl].
Qed.

(** *** What is shown *)

(** Nothing stands under a sensitive key but the mark, no list is long, and nothing is deep. *)
Fixpoint presentable (fuel : nat) (v : value) : Prop :=
  match fuel with
  | O => False
  | S fuel =>
      match v with
      | Array_ l => (length l <= 20)%nat /\ Forall (presentable fuel) l
      | Object_ l => Forall (fun p => if sensitive p.1 then p.2 = Text "[redacted]" else presentable fuel p.2) l
      | Error_ _ _ => False
      | _ => True
      end
  end.

(** Two values that differ only where [sanitize] does not look: under sensitive keys, beyond
    the twentieth element of a list, and deeper than three levels *)
Inductive alike : nat -> value -> value -> Prop :=
  | alike_deep depth v w : (3 < depth)%nat -> alike depth v w
  | alike_same depth v : alike depth v v
  | alike_array depth l l' : alike_items depth 20 l l' -> alike depth (Array_ l) (Array_ l')
  | alike_object depth l l' : alike_fields depth l l' -> alike depth (Object_ l) (Object_ l')
with alike_items : nat -> nat -> list value -> list value -> Prop :=
  | items_cut depth l l' : alike_items depth 0 l l'
  | items_nil depth n : alike_items depth n [] []
  | items_cons depth n v w l l' : alike (S depth) v w -> alike_items depth n l l' -> alike_items depth (S n) (v :: l) (w :: l')
with alike_fields : nat -> list (string * value) -> list (string * value) -> Prop :=
  | fields_nil depth : alike_fields depth [] []
  | fields_hidden depth key v w l l' : sensitive key = true -> alike_fields depth l l' ->
      alike_fields depth ((key, v) :: l) ((key, w) :: l')
  | fields_shown depth key v w l l' : alike (S depth) v w -> alike_fields depth l l' ->
      alike_fields depth ((key, v) :: l) ((key, w) :: l').

Scheme alike_ind' := Induction for alike Sort Prop
  with alike_items_ind' := Induction for alike_items Sort Prop
  with alike_fields_ind' := Induction for alike_fields Sort Prop.
Combined Scheme alike_mutual from alike_ind', alike_items_ind', alike_fields_ind'.

Lemma sanitize_deep v depth : (3 < depth)%nat -> sanitize v depth = Text "[truncated]".
Proof. intros H. apply Nat.ltb_lt in H. by destruct v; cbn [sanitize]; rewrite H. Qed.

Lemma sanitize_alike :
  (forall depth v w, alike depth v w -> sanitize v depth = sanitize w depth) /\
  (forall depth n l l', alike_items depth n l l' ->
     take n (map (fun item => sanitize item (S depth)) l) = take n (map (fun item => sanitize item (S depth)) l')) /\
  (forall depth l l', alike_fields depth l l' ->
     map (fun '(key, item) => (key, if sensitive key then Text "[redacted]" else sanitize item (S depth))) l =
     map (fun '(key, item) => (key, if sensitive key then Text "[redacted]" else sanitize item (S depth))) l').
Proof.
  apply alike_mutual; intros; cbn [sanitize map take]; try done.
  - by rewrite !sanitize_deep.
  - by rewrite H.
  - by rewrite H.
  - by rewrite H, H0.
  - by rewrite e, H.
  - by rewrite H, H0.
Qed.

Lemma sanitize_presentable v : forall depth, presentable (5 - depth) (sanitize v depth) \/ (4 < depth)%nat.
Proof.
  assert (Hdeep : forall (depth : nat) w, (3 < depth)%nat -> presentable (5 - depth) (sanitize w depth) \/ (4 < depth)%nat).
  { intros depth w Hd. rewrite sanitize_deep by done. destruct (decide (depth = 4%nat)) as [->|]; [by left|right; lia]. }
  induction v as [s|n|name m|l IH|l IH] using value_rect_all; intros depth;
    (destruct (decide (3 < depth)%nat) as [Hd|Hd]; [by apply Hdeep|]); left;
    assert (Hlt : (3 <? depth)%nat = false) by (apply Nat.ltb_ge; lia); cbn [sanitize]; rewrite Hlt;
    (destruct (5 - depth)%nat as [|fuel] eqn:Ef; [lia|]); cbn; try done;
    assert (Hnext : fuel = (5 - S depth)%nat) by lia.
  - destruct fuel; [lia|]. by repeat constructor.
  - split; [rewrite length_take; lia|]. apply Forall_take, Forall_map. eapply Forall_impl; [exact IH|]. intros v Hv. cbn.
    rewrite Hnext. destruct (Hv (S depth)); [done|lia].
  - apply Forall_map. eapply Forall_impl; [exact IH|]. intros [k v] Hv. cbn [fst snd]. destruct (sensitive k) eqn:E; cbn [fst snd]; rewrite ?E; [done|].
    rewrite Hnext. cbn in Hv. destruct (Hv (S depth)); [done|lia].
Qed.

(** A structured entry shows nothing under a sensitive key but the mark, no more than twenty
    elements of a list and four levels, and it does not depend on what it leaves out: entries
    that differ only under sensitive keys are written the same. *)
Theorem logs_are_redacted (v w : value) :
  presentable 5 (sanitize v 0) /\ (alike 0 v w -> sanitize v 0 = sanitize w 0).
Proof.
  split; [|apply sanitize_alike]. by destruct (sanitize_presentable v 0) as [H|H]; [|lia].
Qed.

Example redacted_key :
  sanitize (Object_ [("event", Text "message.sent"); ("apiKey", Text "k"); ("recipientPhone", Text "84"); ("context", Text "worker")]) 0 =
  Object_ [("event", Text "message.sent"); ("apiKey", Text "[redacted]"); ("recipientPhone", Text "[redacted]"); ("context", Text "[redacted]")].
Proof. by vm_compute. Qed.

(** *** Levels *)

Inductive level := verbose | debug | log_ | warn | error | fatal.
#[export] Instance level_eq_dec : EqDecision level.
Proof. solve_decision. Defined.

Definition levels (l : level) : Z := match l with verbose => 10 | debug => 20 | log_ => 30 | warn => 40 | error => 50 | fatal => 60 end.

Definition activeLevels (configured : level) : list level :=
  List.filter (fun l => (levels configured <=? levels l)%Z) [verbose; debug; log_; warn; error; fatal].

(** Where [write] puts an entry, if anywhere *)
Inductive stream := Stderr | Stdout.
Definition destination (configured l : level) : option stream :=
  if mem l (activeLevels configured) then Some (if (levels warn <=? levels l)%Z then Stderr else Stdout) else None.

Lemma destination_spec configured l : destination configured l =
  if (levels configured <=? levels l)%Z then Some (if (40 <=? levels l)%Z then Stderr else Stdout) else None.
Proof. by destruct configured, l. Qed.

End Logging.
