(* ===== verification/Listener.v ===== *)
(** * Listening for work

    [GatewayWorkListenerService] of [src/src/modules/orchestration/gateway-work-listener.service.ts].
    What happens to it (calls, answers of the database, timers, notifications) is a sequence
    of events in any order; a connection is a number, and several may be on their way.  The
    coordinator of wake-up calls is that of [Scheduler]. *)

From S2P Require Import Prelude Scheduler.

Module Listener.

Local Open Scope Z_scope.

(** The fields of the service, the connections it is about to open ([connecting]) or to give up
    ([closing]), and those that listen ([listening]).  Every [start] makes a coordinator; an old
    one still finishes what it has begun.  [unserved]: work was announced, and no call of [wake]
    was begun since. *)
Record listener := MkListener {
  client : option nat; reconnectTimer : option Z; stopped : bool; reconnectAttempt : Z;
  coordinators : list Wake.coordinator;
  connecting : list nat; closing : list nat; listening : list nat; next : nat; unserved : bool }.
#[export] Instance listener_eta : Eta listener := fun l =>
  MkListener (client l) (reconnectTimer l) (stopped l) (reconnectAttempt l) (coordinators l)
    (connecting l) (closing l) (listening l) (next l) (unserved l).

Definition initial : listener := MkListener None None true 0 [] [] [] [] 0 false.

Definition without (id : nat) (l : list nat) : list nat := List.filter (fun x => negb (Nat.eqb x id)) l.

(** [scheduleReconnect] *)
Definition reconnect_delay (attempt : Z) : Z := Z.min 30000 (500 * 2 ^ Z.min attempt 6).
Definition scheduleReconnect (l : listener) : listener :=
  if stopped l || bool_decide (is_Some (reconnectTimer l)) then l
  else l <| reconnectTimer := Some (reconnect_delay (reconnectAttempt l)) |> <| reconnectAttempt := reconnectAttempt l + 1 |>.

(** [connect], up to its first await *)
Definition connect (l : listener) : listener :=
  if stopped l then l else l <| connecting := next l :: connecting l |> <| next := S (next l) |>.

(** A call of [wake] begins. *)
Definition called_now (called : bool) (l : listener) : listener := if called then l <| unserved := false |> else l.

(** [requestWake] *)
Definition requestWake (l : listener) : listener :=
  if stopped l then l
  else match coordinators l with
       | [] => l
       | c :: old => let '(called, c') := Wake.request c in called_now called (l <| coordinators := c' :: old |>)
       end.

Inductive event : Type :=
  | Start | Stop
  (** [client.connect()] and LISTEN have succeeded, or one of them has failed *)
  | Ready (id : nat) | Failed_ (id : nat)
  (** the end of a connection that was not wanted any more *)
  | Closed (id : nat) (failed : bool)
  (** 'error' or 'end' of a connection that listens *)
  | Lost (id : nat)
  | Fire
  (** somebody announces work to all connections that listen *)
  | Announce
  (** a call of [wake] of the [i]-th coordinator has settled *)
  | Settle (i : nat).

Definition ready (id : nat) (l : listener) : listener :=
  let l1 := l <| connecting := without id (connecting l) |> in
  if stopped l then l1 <| closing := id :: closing l |>
  else requestWake (l1 <| client := Some id |> <| reconnectAttempt := 0 |> <| listening := id :: listening l |>).

Definition stop (l : listener) : listener :=
  l <| stopped := true |> <| reconnectTimer := None |> <| client := None |>
    <| listening := match client l with Some id => without id (listening l) | None => listening l end |>.

Definition lost (id : nat) (l : listener) : listener :=
  let l1 := l <| listening := without id (listening l) |> in
  if bool_decide (client l = Some id) && negb (stopped l) then scheduleReconnect (l1 <| client := None |>) else l1.

Definition announce (l : listener) : listener :=
  let l1 := l <| unserved := true |> in
  match listening l with [] => l1 | _ => requestWake l1 end.

Definition settle (i : nat) (l : listener) : listener :=
  match coordinators l !! i with
  | Some c =>
      if Wake.wakeInFlight c
      then let '(called, c') := Wake.settled c in called_now called (l <| coordinators := <[i := c']> (coordinators l) |>)
      else l
  | None => l
  end.

Definition on_event (enabled : bool) (e : event) (l : listener) : listener :=
  match e with
  | Start =>
      let l1 := l <| coordinators := Wake.idle :: coordinators l |> in
      if negb enabled || negb (stopped l) then l1 else connect (l1 <| stopped := false |>)
  | Stop => stop l
  | Ready id => if mem id (connecting l) then ready id l else l
  | Failed_ id =>
      if mem id (connecting l) then scheduleReconnect (l <| connecting := without id (connecting l) |>) else l
  | Closed id failed =>
      if mem id (closing l)
      then let l1 := l <| closing := without id (closing l) |> in if failed then scheduleReconnect l1 else l1
      else l
  | Lost id => if mem id (listening l) then lost id l else l
  | Fire => match reconnectTimer l with Some _ => connect (l <| reconnectTimer := None |>) | None => l end
  | Announce => announce l
  | Settle i => settle i l
  end.

Fixpoint after (enabled : bool) (es : list event) (l : listener) : listener :=
  match es with [] => l | e :: es' => after enabled es' (on_event enabled e l) end.

(** *** What holds after any events *)

(** A call of [wake] will follow the one in progress. *)
Definition will_wake (c : Wake.coordinator) : Prop := Wake.wakeInFlight c = true /\ Wake.wakeAgain c = true.

Record alive (l : listener) : Prop := Alive {
  al_stopped : stopped l = true -> reconnectTimer l = None /\ client l = None;
  al_started : stopped l = false -> coordinators l <> [] /\
    (client l <> None \/ reconnectTimer l <> None \/ connecting l <> []);
  al_client id : client l = Some id -> id ∈ listening l;
  al_served : unserved l = true -> client l = None \/ exists c, c ∈ coordinators l /\ will_wake c;
  al_attempt : 0 <= reconnectAttempt l;
  al_delay d : reconnectTimer l = Some d -> 500 <= d <= 30000 }.

Lemma alive_initial : alive initial.
Proof. by split. Qed.

Lemma without_elem id id' l : id' ∈ l -> id' <> id -> id' ∈ without id l.
Proof.
  intros H Hne. apply list_elem_of_In, filter_In. split; [by apply list_elem_of_In|]. by apply negb_true_iff, Nat.eqb_neq.
Qed.

Lemma reconnect_delay_bounds attempt : 0 <= attempt -> 500 <= reconnect_delay attempt <= 30000.
Proof.
  intros H. unfold reconnect_delay. assert (1 <= 2 ^ Z.min attempt 6); [|lia].
  rewrite <- (Z.pow_0_r 2). apply Z.pow_le_mono_r; lia.
Qed.

(** [scheduleReconnect] restores what the loss of the last way back breaks. *)
Lemma schedule_alive l : (stopped l = true -> reconnectTimer l = None /\ client l = None) ->
  (stopped l = false -> coordinators l <> []) -> (forall id, client l = Some id -> id ∈ listening l) ->
  (unserved l = true -> client l = None \/ exists c, c ∈ coordinators l /\ will_wake c) ->
  0 <= reconnectAttempt l -> (forall d, reconnectTimer l = Some d -> 500 <= d <= 30000) -> alive (scheduleReconnect l).
Proof.
  intros H1 H2 H3 H4 H5 H6. unfold scheduleReconnect. destruct (stopped l) eqn:Es; cbn [orb].
  - split; rewrite ?Es; done.
  - case_bool_decide as Ht.
    + split; rewrite ?Es; try done. intros _. split; [by apply H2|]. right. left. by apply not_eq_None_Some.
    + split; cbn; rewrite ?Es; try done; [intros _; split; [by apply H2|by right; left]|lia|].
      intros d [= <-]. by apply reconnect_delay_bounds.
Qed.

Lemma connect_alive l : (stopped l = true -> reconnectTimer l = None /\ client l = None) ->
  (stopped l = false -> coordinators l <> []) -> (forall id, client l = Some id -> id ∈ listening l) ->
  (unserved l = true -> client l = None \/ exists c, c ∈ coordinators l /\ will_wake c) ->
  0 <= reconnectAttempt l -> (forall d, reconnectTimer l = Some d -> 500 <= d <= 30000) -> alive (connect l).
Proof.
  intros H1 H2 H3 H4 H5 H6. unfold connect. destruct (stopped l) eqn:Es.
  - split; rewrite ?Es; done.
  - split; cbn; rewrite ?Es; try done. intros _. split; [by apply H2|by right; right].
Qed.

Lemma request_wakes c : (Wake.request c).1 = true \/ will_wake (Wake.request c).2.
Proof. unfold Wake.request. destruct (Wake.wakeInFlight c); [by right|by left]. Qed.

(** [requestWake] serves what was announced, whether it calls [wake] or has it noted. *)
Lemma requestWake_alive l : (stopped l = true -> reconnectTimer l = None /\ client l = None) ->
  (stopped l = false -> coordinators l <> [] /\ (client l <> None \/ reconnectTimer l <> None \/ connecting l <> [])) ->
  (forall id, client l = Some id -> id ∈ listening l) ->
  0 <= reconnectAttempt l -> (forall d, reconnectTimer l = Some d -> 500 <= d <= 30000) -> alive (requestWake l).
Proof.
  intros H1 H2 H3 H5 H6. unfold requestWake. destruct (stopped l) eqn:Es.
  - split; rewrite ?Es; try done. intros _. left. by apply H1.
  - destruct (H2 eq_refl) as [Hc Hw]. destruct (coordinators l) as [|c old] eqn:Ec; [done|].
    destruct (Wake.request c) as [called c'] eqn:Er. pose proof (request_wakes c) as Hr. rewrite Er in Hr. cbn in Hr.
    destruct called; cbn [called_now]; split; cbn; rewrite ?Es; try done.
    intros _. right. exists c'. split; [apply elem_of_cons; by left|]. by destruct Hr.
Qed.

Lemma settle_alive i l : alive l -> alive (settle i l).
Proof.
  intros [H1 H2 H3 H4 H5 H6]. unfold settle. destruct (coordinators l !! i) as [c|] eqn:Ei; [|by split].
  destruct (Wake.wakeInFlight c) eqn:Ef; [|by split]. destruct (Wake.settled c) as [called c'] eqn:Es.
  assert (Hne : stopped l = false -> <[i := c']> (coordinators l) <> []).
  { intros _ E. apply (f_equal length) in E. rewrite length_insert in E. apply lookup_lt_Some in Ei. cbn in E. lia. }
  destruct called; cbn [called_now]; split; cbn; try done; try (intros Hs; split; [by apply Hne|by apply H2]).
  intros Hu. destruct (H4 Hu) as [Hc|(d & Hd & Hw)]; [by left|right]. exists d. split; [|done].
  apply list_elem_of_lookup_1 in Hd as [j Hj]. destruct (decide (j = i)) as [->|Hji].
  - assert (d = c) as -> by congruence. destruct Hw as [_ Ha]. unfold Wake.settled in Es. rewrite Ha in Es. by injection Es.
  - apply (list_elem_of_lookup_2 _ j). by rewrite list_lookup_insert_ne.
Qed.

Lemma on_event_alive enabled e l : alive l -> alive (on_event enabled e l).
Proof.
  intros Hl. pose proof Hl as [H1 H2 H3 H4 H5 H6]. destruct e as [| |id|id|id failed|id| | |i]; cbn [on_event].
  - assert (Hs : unserved l = true -> client l = None \/ exists c, c ∈ Wake.idle :: coordinators l /\ will_wake c).
    { intros Hu. destruct (H4 Hu) as [?|(c & Hc & Hw)]; [by left|right]. exists c. split; [set_solver|done]. }
    destruct enabled; cbn [negb orb]; [destruct (stopped l) eqn:Es; cbn [negb]|].
    + apply connect_alive; cbn; try done.
    + split; cbn; rewrite ?Es; try done. intros _. split; [done|]. by apply H2.
    + split; cbn; try done. intros Hf. split; [done|]. by apply H2.
  - unfold stop. split; cbn; try done. intros Hu. by left.
  - destruct (mem id (connecting l)); [|done]. unfold ready. destruct (stopped l) eqn:Es.
    + split; cbn; rewrite ?Es; done.
    + apply requestWake_alive; cbn; rewrite ?Es; try done.
      * intros _. split; [by apply H2|by left].
      * intros id' [= ->]. apply elem_of_cons. by left.
  - destruct (mem id (connecting l)); [|done]. apply schedule_alive; cbn; try done. intros Hs. by apply H2.
  - destruct (mem id (closing l)); [|done]. destruct failed; [|by split].
    apply schedule_alive; cbn; try done. intros Hs. by apply H2.
  - destruct (mem id (listening l)); [|done]. unfold lost. case_bool_decide as Hc; cbn [andb].
    + destruct (stopped l) eqn:Es; cbn [negb]; [by destruct (H1 eq_refl) as [_ H]; congruence|].
      apply schedule_alive; cbn; rewrite ?Es; try done; [intros _; by apply H2|intros _; by left].
    + split; cbn; try done. intros id' Hid. apply without_elem; [by apply H3|congruence].
  - destruct (reconnectTimer l) as [d|] eqn:Et; [|done]. apply connect_alive; cbn; try done.
    + intros Hs. split; [done|]. by apply H1.
    + intros Hs. by apply H2.
  - unfold announce. destruct (listening l) as [|x rest] eqn:Eo.
    + assert (Hc : client l = None).
      { destruct (client l) as [id|]; [|done]. specialize (H3 id eq_refl). by apply elem_of_nil in H3. }
      split; cbn; try done; [intros id Hid; congruence|by left].
    + apply requestWake_alive; cbn; try done. intros id Hid. rewrite Eo. by apply H3.
  - by apply settle_alive.
Qed.

(** However calls, failures, losses, timers and announcements follow each other: while the
    service is not stopped it is connected, or a connection is on its way, or a timer will
    begin one within half a second to thirty seconds; and work that was announced, be it
    while no connection listened, is followed by a call of [wake]: one will follow the call in
    progress, or the next connection asks for one. *)
Theorem listener_stays_alive (enabled : bool) (es : list event) : alive (after enabled es initial).
Proof.
  assert (H : forall es l, alive l -> alive (after enabled es l)).
  { induction es0 as [|e es0 IH]; intros l Hl; [done|]. cbn. apply IH. by apply on_event_alive. }
  apply H, alive_initial.
Qed.

(** The delays of connections that keep failing *)
Example back_off :
  reconnectTimer (after true [Start; Failed_ 0] initial) = Some 500 /\
  reconnectTimer (after true [Start; Failed_ 0; Fire; Failed_ 1] initial) = Some 1000 /\
  reconnect_delay 5 = 16000 /\ reconnect_delay 6 = 30000 /\ reconnect_delay 60 = 30000.
Proof. by vm_compute. Qed.

(** Work announced during an outage: the connection that is restored calls [wake]. *)
Example outage_is_made_up :
  let during := after true [Start; Ready 0; Settle 0; Lost 0; Announce; Fire] initial in
  let restored := on_event true (Ready 1) during in
  unserved during = true /\ client during = None /\ unserved restored = false /\ client restored = Some 1%nat.
Proof. by vm_compute. Qed.

(** A service that is stopped and started again while it connects loses track of a connection:
    both listen, and only the later one is ended by the next stop.  (The scheduler starts it once.) *)
Example restart_while_connecting :
  let l := after true [Start; Stop; Start; Ready 0; Ready 1] initial in
  client l = Some 1%nat /\ listening l = [1; 0]%nat /\ listening (stop l) = [0]%nat.
Proof. by vm_compute. Qed.

End Listener.
