(* ===== verification/Configuration.v ===== *)
(** * Configuration

    [src/src/core/config/runtime-config.ts]: what the processes accept as their environment.
    The fields of one kind are tables, with their bounds and defaults; the configuration has
    a value for each.  [Number], the parsing of URLs and the test for uuids are arguments.
    Which complaints are listed is not modelled, only that there are none. *)

From S2P Require Import Prelude.
From Stdlib Require Import QArith Qround Ascii.

Module Configuration.

Local Open Scope Z_scope.

Inductive node_env := development | test | production.
#[export] Instance node_env_eq_dec : EqDecision node_env.
Proof. solve_decision. Defined.

(** [z.coerce.number().int().min(..).max(..).default(..)] *)
Record number_field := NumberField { nf_name : string; nf_min : Z; nf_max : option Z; nf_default : Z }.
#[export] Instance number_field_eq_dec : EqDecision number_field.
Proof. solve_decision. Defined.

Definition number_fields : list number_field :=
  [ NumberField "PORT" 1 (Some 65535) 3100;
    NumberField "OPENWA_WEBHOOK_RECONCILIATION_INTERVAL_MS" 60000 (Some 86400000) 300000;
    NumberField "OUTBOUND_MIN_DELAY_MS" 0 (Some 60000) 3000;
    NumberField "OUTBOUND_MAX_DELAY_MS" 0 (Some 60000) 7000;
    NumberField "MESSAGE_WORKER_CONCURRENCY" 1 (Some 100) 1;
    NumberField "WEBHOOK_WORKER_CONCURRENCY" 1 (Some 100) 10;
    NumberField "GATEWAY_WORKER_CONCURRENCY" 1 (Some 100) 1;
    NumberField "CAMPAIGN_WORKER_CONCURRENCY" 1 (Some 100) 2;
    NumberField "RUNTIME_RETENTION_DAYS" 7 (Some 3650) 90;
    NumberField "RUNTIME_EVENT_RETENTION_DAYS" 7 (Some 3650) 30;
    NumberField "RUNTIME_RAW_WEBHOOK_RETENTION_DAYS" 1 (Some 3650) 7;
    NumberField "RUNTIME_RETENTION_INTERVAL_MS" 60000 None 3600000;
    NumberField "RUNTIME_RETENTION_BATCH_SIZE" 100 (Some 10000) 5000;
    NumberField "RUNTIME_RETENTION_MAX_BATCHES_PER_RUN" 1 (Some 1000) 100;
    NumberField "RUNTIME_RETENTION_TIME_BUDGET_MS" 1000 (Some 240000) 240000;
    NumberField "GATEWAY_SYNC_GROUPS_PER_MINUTE" 1 (Some 120) 40;
    NumberField "GATEWAY_SYNC_ITEM_MAX_ATTEMPTS" 1 (Some 10) 5;
    NumberField "GATEWAY_GROUP_DETAILS_STALE_AFTER_HOURS" 1 (Some 8760) 24;
    NumberField "GATEWAY_SYNC_SNAPSHOT_MIN_BASELINE" 1 (Some 100000) 20;
    NumberField "GATEWAY_SYNC_SNAPSHOT_CONFIRMATIONS" 2 (Some 5) 2;
    NumberField "GATEWAY_GROUP_EVENT_DEBOUNCE_MS" 0 (Some 60000) 3000;
    NumberField "GATEWAY_GROUP_EVENT_MAX_WAIT_MS" 1000 (Some 300000) 10000;
    NumberField "GATEWAY_SYNC_POLL_INTERVAL_MS" 1000 (Some 60000) 10000;
    NumberField "GATEWAY_SYNC_MIN_GROUPS_PER_MINUTE" 1 (Some 120) 5;
    NumberField "GATEWAY_SYNC_RATE_RECOVERY_SUCCESSES" 1 (Some 1000) 25;
    NumberField "CONTACT_SNAPSHOT_RETENTION_DAYS" 7 (Some 365) 30;
    NumberField "CONTACT_MESSAGE_OBSERVATION_RETENTION_DAYS" 7 (Some 3650) 30;
    NumberField "CONTACT_RESOLUTION_MAX_RUNS_PER_TICK" 1 (Some 20) 2;
    NumberField "CONTACT_PROJECTION_BATCH_SIZE" 1 (Some 5000) 500;
    NumberField "CONTACT_PROJECTION_MAX_JOBS_PER_TICK" 1 (Some 100) 10;
    NumberField "CONTACT_PROJECTION_MAX_BATCHES_PER_JOB" 1 (Some 100) 4;
    NumberField "CONTACT_PROJECTION_BOOTSTRAP_BATCH_SIZE" 1 (Some 10000) 1000;
    NumberField "CONTACT_EVIDENCE_BACKFILL_BATCH_SIZE" 1 (Some 10000) 2000;
    NumberField "CONTACT_PERIODIC_SYNC_INTERVAL_MS" 300000 None 86400000;
    NumberField "CONTACT_MEMBER_IDENTITY_BACKFILL_BATCH_SIZE" 100 (Some 10000) 1000;
    NumberField "CONTACT_MEMBER_IDENTITY_BACKFILL_MAX_BATCHES" 1 (Some 100) 20 ].

(** [booleanFromEnv(..)] *)
Definition flag_fields : list (string * bool) :=
  [ ("OPENWA_WEBHOOK_RECONCILIATION_ENABLED", false);
    ("ALLOW_LIVE_SENDS", false);
    ("RUNTIME_COMPACT_EVENT_PAYLOAD_ENABLED", false);
    ("RUNTIME_COMPACT_PROCESSED_WEBHOOK_PAYLOAD_ENABLED", false);
    ("GATEWAY_TARGETED_RECONCILIATION_ENABLED", false);
    ("GATEWAY_SYNC_NOTIFY_WAKEUP_ENABLED", false);
    ("GATEWAY_SYNC_ADAPTIVE_PACING", false);
    ("CONTACT_SNAPSHOT_SYNC_ENABLED", false);
    ("CONTACT_SNAPSHOT_STAGING_ENABLED", false);
    ("CONTACT_EVIDENCE_DUAL_WRITE_ENABLED", false);
    ("CONTACT_RESOLUTION_SHADOW_ENABLED", false);
    ("CONTACT_PROJECTION_SHADOW_ENABLED", false);
    ("CONTACT_EVIDENCE_BACKFILL_ENABLED", false);
    ("CONTACT_PROJECTION_READ_ENABLED", false);
    ("CONTACT_LEGACY_MEMBER_FANOUT_ENABLED", true);
    ("CONTACT_MESSAGE_ENRICHMENT_ENABLED", false);
    ("CONTACT_PERIODIC_SYNC_ENABLED", false);
    ("CONTACT_MEMBER_IDENTITY_BACKFILL_ENABLED", false) ].

(** What [new URL(..)] tells *)
Record url_parts := UrlParts {
  up_protocol : string; up_pathname : string; up_search : string; up_hash : string; up_username : string; up_password : string }.

(** [RuntimeConfig] *)
Record configuration := MkConfiguration {
  NODE_ENV : node_env;
  DATABASE_URL : string; REDIS_URL : string; RUNTIME_API_KEY : string;
  OPENWA_BASE_URL : string; OPENWA_API_KEY : string; OPENWA_RELEASE_TAG : string; OPENWA_WEBHOOK_SECRET : string;
  OPENWA_WEBHOOK_CALLBACK_URL : option string;
  OPENWA_ALLOWED_SESSION_IDS : list string;
  GATEWAY_SYNC_SNAPSHOT_DROP_RATIO : Q;
  RUNTIME_INBOX_RETENTION_DAYS : Z;
  enableRuntimeDocs : bool;
  numbers : gmap string Z;
  flags : gmap string bool }.

Section Parse.
Context (Number : string -> option Q) (parseUrl : string -> option url_parts) (isUuid : string -> bool).
Context (env : string -> option string).

(** *** The fields *)

Definition max_safe : Z := 9007199254740991.

Definition integer (q : Q) : option Z :=
  if Qeq_bool q (inject_Z (Qfloor q)) && (Z.abs (Qfloor q) <=? max_safe) then Some (Qfloor q) else None.

Definition within (low : Z) (high : option Z) (z : Z) : bool :=
  (low <=? z) && match high with Some h => z <=? h | None => true end.

Definition bounded (low : Z) (high : option Z) (s : string) : option Z :=
  q ← Number s; z ← integer q; if within low high z then Some z else None.

Definition number_value (f : number_field) : option (string * Z) :=
  match env (nf_name f) with
  | None => Some (nf_name f, nf_default f)
  | Some s => z ← bounded (nf_min f) (nf_max f) s; Some (nf_name f, z)
  end.

(** [z.enum(['true', 'false'])] *)
Definition boolean (s : string) : option bool :=
  if String.eqb s "true" then Some true else if String.eqb s "false" then Some false else None.

Definition flag_value (f : string * bool) : option (string * bool) :=
  match env f.1 with None => Some f | Some s => b ← boolean s; Some (f.1, b) end.

Definition url (s : string) : option string := if bool_decide (is_Some (parseUrl s)) then Some s else None.
Definition at_least (n : nat) (s : string) : option string := if (n <=? String.length s)%nat then Some s else None.
Definition required {A : Type} (name : string) (p : string -> option A) : option A := s ← env name; p s.

(** [.optional()] *)
Definition optional {A : Type} (name : string) (p : string -> option A) : option (option A) :=
  match env name with None => Some None | Some s => Some <$> p s end.

Definition parse_env (s : string) : option node_env :=
  if String.eqb s "development" then Some development else if String.eqb s "test" then Some test
  else if String.eqb s "production" then Some production else None.

(** [split(',')] *)
Fixpoint split_at (c : ascii) (s : string) : list string :=
  match s with
  | EmptyString => [EmptyString]
  | String x s' =>
      if Ascii.eqb x c then EmptyString :: split_at c s'
      else match split_at c s' with w :: ws => String x w :: ws | [] => [String x EmptyString] end
  end.

Definition session_ids (s : string) : option (list string) :=
  let ids := List.filter (fun w => negb (String.eqb w "")) (map trim (split_at "," s)) in
  if (1 <=? String.length s)%nat && forallb isUuid ids && negb (bool_decide (ids = [])) then Some ids else None.

Definition ratio (s : string) : option Q :=
  q ← Number s; if Qle_bool 0 q && Qle_bool q 1 then Some q else None.

(** *** [superRefine] *)

Definition num (c : configuration) (name : string) : Z := default 0 (numbers c !! name).
Definition flag (c : configuration) (name : string) : bool := default false (flags c !! name).

Definition callback_allowed (u : url_parts) : bool :=
  String.eqb (up_protocol u) "https:".

(** [pathname.replace(/\/+$/u, '')] *)
Fixpoint strip_slashes (s : string) : string :=
  match s with
  | EmptyString => EmptyString
  | String c s' => match strip_slashes s' with
                   | EmptyString => if Ascii.eqb c "/" then EmptyString else String c EmptyString
                   | t => String c t
                   end
  end.

Definition callback_target (u : url_parts) : bool :=
  String.eqb (strip_slashes (up_pathname u)) "/api/v1/webhooks/openwa"
  && String.eqb (up_search u) "" && String.eqb (up_hash u) "" && String.eqb (up_username u) "" && String.eqb (up_password u) "".

Definition requires (c : configuration) (a b : string) : bool := negb (flag c a) || flag c b.

Definition refined (c : configuration) : bool :=
  (num c "OUTBOUND_MIN_DELAY_MS" <=? num c "OUTBOUND_MAX_DELAY_MS")
  && (num c "GATEWAY_GROUP_EVENT_DEBOUNCE_MS" <=? num c "GATEWAY_GROUP_EVENT_MAX_WAIT_MS")
  && (num c "GATEWAY_SYNC_MIN_GROUPS_PER_MINUTE" <=? num c "GATEWAY_SYNC_GROUPS_PER_MINUTE")
  && (negb (flag c "OPENWA_WEBHOOK_RECONCILIATION_ENABLED") || negb (is_null (OPENWA_WEBHOOK_CALLBACK_URL c)))
  && match OPENWA_WEBHOOK_CALLBACK_URL c with
     | Some u => match parseUrl u with Some p => callback_allowed p && callback_target p | None => false end
     | None => true
     end
  && requires c "CONTACT_EVIDENCE_DUAL_WRITE_ENABLED" "CONTACT_SNAPSHOT_STAGING_ENABLED"
  && requires c "CONTACT_RESOLUTION_SHADOW_ENABLED" "CONTACT_EVIDENCE_DUAL_WRITE_ENABLED"
  && requires c "CONTACT_PROJECTION_SHADOW_ENABLED" "CONTACT_RESOLUTION_SHADOW_ENABLED"
  && requires c "CONTACT_PROJECTION_READ_ENABLED" "CONTACT_PROJECTION_SHADOW_ENABLED"
  && requires c "CONTACT_EVIDENCE_BACKFILL_ENABLED" "CONTACT_EVIDENCE_DUAL_WRITE_ENABLED"
  && (flag c "CONTACT_LEGACY_MEMBER_FANOUT_ENABLED" || flag c "CONTACT_PROJECTION_SHADOW_ENABLED").

(** *** [parseRuntimeConfig] *)

Definition parseRuntimeConfig : option configuration :=
  mode ← match env "NODE_ENV" with None => Some development | Some s => parse_env s end;
  database ← required "DATABASE_URL" url;
  redis ← required "REDIS_URL" url;
  api_key ← required "RUNTIME_API_KEY" (at_least 32);
  docs ← optional "ENABLE_RUNTIME_DOCS" boolean;
  base ← required "OPENWA_BASE_URL" url;
  openwa_key ← required "OPENWA_API_KEY" (at_least 1);
  tag ← match env "OPENWA_RELEASE_TAG" with None => Some "0.22.0" | Some s => at_least 1 s end;
  secret ← required "OPENWA_WEBHOOK_SECRET" (at_least 32);
  callback ← optional "OPENWA_WEBHOOK_CALLBACK_URL" url;
  sessions ← required "OPENWA_ALLOWED_SESSION_IDS" session_ids;
  drop_ratio ← match env "GATEWAY_SYNC_SNAPSHOT_DROP_RATIO" with None => Some (1 # 4)%Q | Some s => ratio s end;
  inbox ← optional "RUNTIME_INBOX_RETENTION_DAYS" (bounded 1 (Some 3650));
  ns ← mapM number_value number_fields;
  fs ← mapM flag_value flag_fields;
  let values := list_to_map ns in
  let c := MkConfiguration mode database redis api_key base openwa_key tag secret callback sessions drop_ratio
             (default (default 0 (values !! "RUNTIME_EVENT_RETENTION_DAYS")) inbox)
             (default (negb (bool_decide (mode = production))) docs) values (list_to_map fs) in
  if refined c then Some c else None.

End Parse.

(** *** What an accepted configuration promises *)

Lemma names_distinct : NoDup (map nf_name number_fields) /\ NoDup flag_fields.*1.
Proof. split; apply (bool_decide_eq_true_1 _); by vm_compute. Qed.

Lemma defaults_within f : f ∈ number_fields -> within (nf_min f) (nf_max f) (nf_default f) = true.
Proof.
  intros Hf. assert (H : forallb (fun f => within (nf_min f) (nf_max f) (nf_default f)) number_fields = true) by by vm_compute.
  rewrite forallb_forall in H. apply H. by apply list_elem_of_In.
Qed.

Lemma within_spec low high z : within low high z = true <-> low <= z /\ forall h, high = Some h -> z <= h.
Proof.
  unfold within. rewrite andb_true_iff, Z.leb_le. destruct high as [h|]; [rewrite Z.leb_le|]; split; intros [H1 H2]; (split; [done|]).
  - by intros ? [= <-].
  - by apply H2.
  - done.
  - done.
Qed.

(** The value of every field is in the table. *)
Lemma table_lookup {F A : Type} (key : F -> string) (val : F -> option (string * A)) (fields : list F) l f :
  mapM val fields = Some l -> (forall f p, val f = Some p -> p.1 = key f) -> NoDup (map key fields) -> f ∈ fields ->
  exists v, val f = Some (key f, v) /\ (list_to_map l : gmap string A) !! key f = Some v.
Proof.
  intros Hm Hk Hnd Hf. apply mapM_Some in Hm.
  assert (Hkeys : l.*1 = map key fields).
  { clear -Hm Hk. induction Hm as [|g p fields l Hp _ IH]; [done|]. cbn. by rewrite IH, (Hk g p Hp). }
  assert (Hex : exists p, val f = Some p /\ p ∈ l).
  { clear -Hm Hf. induction Hm as [|g p fields l Hp _ IH]; [by apply elem_of_nil in Hf|].
    apply elem_of_cons in Hf as [->|Hf]; [exists p; split; [done|]; apply elem_of_cons; by left|].
    destruct (IH Hf) as (q & Hq & Hin). exists q. split; [done|]. apply elem_of_cons. by right. }
  destruct Hex as ([k v] & Hp & Hin). assert (k = key f) as -> by apply (Hk f _ Hp). exists v. split; [done|].
  apply elem_of_list_to_map; [by rewrite Hkeys|done].
Qed.

Definition event_field : number_field := NumberField "RUNTIME_EVENT_RETENTION_DAYS" 7 (Some 3650) 30.
Lemma event_field_in : event_field ∈ number_fields.
Proof. apply (bool_decide_eq_true_1 _); by vm_compute. Qed.

Section Sound.
Context (Number : string -> option Q) (parseUrl : string -> option url_parts) (isUuid : string -> bool).
Context (env : string -> option string).

Lemma bounded_within low high s z : bounded Number low high s = Some z -> within low high z = true.
Proof. unfold bounded. intros (q & _ & (z' & _ & H)%bind_Some)%bind_Some. destruct (within low high z') eqn:E; [by injection H as <-|done]. Qed.

Lemma number_value_spec f p : number_value Number env f = Some p -> f ∈ number_fields ->
  p.1 = nf_name f /\ within (nf_min f) (nf_max f) p.2 = true /\ (env (nf_name f) = None -> p.2 = nf_default f).
Proof.
  unfold number_value. destruct (env (nf_name f)) as [s|].
  - intros (z & Hz & [= <-])%bind_Some _. split; [done|]. split; [by eapply bounded_within|done].
  - intros [= <-] Hf. split; [done|]. split; [by apply defaults_within|done].
Qed.

Lemma number_value_name f p : number_value Number env f = Some p -> p.1 = nf_name f.
Proof. unfold number_value. destruct (env (nf_name f)); [by intros (z & _ & [= <-])%bind_Some|by intros [= <-]]. Qed.

Lemma flag_value_name f p : flag_value env f = Some p -> p.1 = f.1.
Proof. unfold flag_value. destruct (env f.1); [by intros (z & _ & [= <-])%bind_Some|by intros [= <-]]. Qed.

(** The switches of the contact pipeline from the staging of snapshots to the projection *)
Definition pipeline_on (c : configuration) : Prop :=
  flag c "CONTACT_SNAPSHOT_STAGING_ENABLED" = true /\ flag c "CONTACT_EVIDENCE_DUAL_WRITE_ENABLED" = true /\
  flag c "CONTACT_RESOLUTION_SHADOW_ENABLED" = true /\ flag c "CONTACT_PROJECTION_SHADOW_ENABLED" = true.

Record accepted (c : configuration) : Prop := Accepted {
  ac_number f : f ∈ number_fields -> exists z, numbers c !! nf_name f = Some z /\
    nf_min f <= z /\ (forall h, nf_max f = Some h -> z <= h) /\ (env (nf_name f) = None -> z = nf_default f);
  ac_flag f : f ∈ flag_fields -> exists b, flags c !! f.1 = Some b /\ (env f.1 = None -> b = f.2);
  ac_delays : num c "OUTBOUND_MIN_DELAY_MS" <= num c "OUTBOUND_MAX_DELAY_MS";
  ac_debounce : num c "GATEWAY_GROUP_EVENT_DEBOUNCE_MS" <= num c "GATEWAY_GROUP_EVENT_MAX_WAIT_MS";
  ac_rate : num c "GATEWAY_SYNC_MIN_GROUPS_PER_MINUTE" <= num c "GATEWAY_SYNC_GROUPS_PER_MINUTE";
  ac_callback : flag c "OPENWA_WEBHOOK_RECONCILIATION_ENABLED" = true -> OPENWA_WEBHOOK_CALLBACK_URL c <> None;
  ac_target u : OPENWA_WEBHOOK_CALLBACK_URL c = Some u -> exists p, parseUrl u = Some p /\
    up_protocol p = "https:" /\ callback_target p = true;
  ac_read : flag c "CONTACT_PROJECTION_READ_ENABLED" = true \/ flag c "CONTACT_LEGACY_MEMBER_FANOUT_ENABLED" = false -> pipeline_on c;
  ac_backfill : flag c "CONTACT_EVIDENCE_BACKFILL_ENABLED" = true ->
    flag c "CONTACT_SNAPSHOT_STAGING_ENABLED" = true /\ flag c "CONTACT_EVIDENCE_DUAL_WRITE_ENABLED" = true;
  ac_sessions : OPENWA_ALLOWED_SESSION_IDS c <> [] /\ Forall (fun s => isUuid s = true) (OPENWA_ALLOWED_SESSION_IDS c);
  ac_secrets : (32 <= String.length (RUNTIME_API_KEY c))%nat /\ (32 <= String.length (OPENWA_WEBHOOK_SECRET c))%nat;
  ac_inbox : 1 <= RUNTIME_INBOX_RETENTION_DAYS c <= 3650 /\
    (env "RUNTIME_INBOX_RETENTION_DAYS" = None -> RUNTIME_INBOX_RETENTION_DAYS c = num c "RUNTIME_EVENT_RETENTION_DAYS");
  ac_docs : env "ENABLE_RUNTIME_DOCS" = None -> enableRuntimeDocs c = negb (bool_decide (NODE_ENV c = production)) }.

Lemma required_some {A} name (p : string -> option A) a : required env name p = Some a -> exists s, env name = Some s /\ p s = Some a.
Proof. unfold required. by intros (s & Hs & Hp)%bind_Some; exists s. Qed.

Lemma at_least_some n s t : at_least n s = Some t -> (n <= String.length t)%nat.
Proof. unfold at_least. destruct (n <=? String.length s)%nat eqn:E; [|done]. intros [= <-]. by apply Nat.leb_le. Qed.

Lemma session_ids_some s l : session_ids isUuid s = Some l -> l <> [] /\ Forall (fun s => isUuid s = true) l.
Proof.
  unfold session_ids. destruct (_ && _ && _) eqn:E; [|done]. intros [= <-].
  apply andb_true_iff in E as [[_ E]%andb_true_iff Hne]. split; [by apply negb_true_iff, bool_decide_eq_false in Hne|].
  apply Forall_forall. intros x Hx. rewrite forallb_forall in E. apply E. by apply list_elem_of_In.
Qed.

Lemma requires_true c a b : requires c a b = true <-> (flag c a = true -> flag c b = true).
Proof. unfold requires. destruct (flag c a), (flag c b); cbn; split; auto. Qed.

Lemma refined_spec c : refined parseUrl c = true ->
  num c "OUTBOUND_MIN_DELAY_MS" <= num c "OUTBOUND_MAX_DELAY_MS" /\
  num c "GATEWAY_GROUP_EVENT_DEBOUNCE_MS" <= num c "GATEWAY_GROUP_EVENT_MAX_WAIT_MS" /\
  num c "GATEWAY_SYNC_MIN_GROUPS_PER_MINUTE" <= num c "GATEWAY_SYNC_GROUPS_PER_MINUTE" /\
  (flag c "OPENWA_WEBHOOK_RECONCILIATION_ENABLED" = true -> OPENWA_WEBHOOK_CALLBACK_URL c <> None) /\
  (forall u, OPENWA_WEBHOOK_CALLBACK_URL c = Some u -> exists p, parseUrl u = Some p /\ up_protocol p = "https:" /\ callback_target p = true) /\
  (flag c "CONTACT_PROJECTION_READ_ENABLED" = true \/ flag c "CONTACT_LEGACY_MEMBER_FANOUT_ENABLED" = false -> pipeline_on c) /\
  (flag c "CONTACT_EVIDENCE_BACKFILL_ENABLED" = true ->
    flag c "CONTACT_SNAPSHOT_STAGING_ENABLED" = true /\ flag c "CONTACT_EVIDENCE_DUAL_WRITE_ENABLED" = true).
Proof.
  unfold refined. rewrite !andb_true_iff, !Z.leb_le. setoid_rewrite requires_true. rewrite !orb_true_iff, !negb_true_iff.
  intros ((((((((((H1 & H2) & H3) & H4) & H5) & H6) & H7) & H8) & H9) & H10) & H11). split_and!; [done..| | | |].
  - intros Hf. destruct H4 as [H4|H4]; [congruence|]. by destruct (OPENWA_WEBHOOK_CALLBACK_URL c).
  - intros u Hu. rewrite Hu in H5. destruct (parseUrl u) as [p|]; [|done]. exists p. apply andb_true_iff in H5 as [Hp Ht].
    split_and!; [done|by apply String.eqb_eq|done].
  - intros Hr. assert (H : flag c "CONTACT_PROJECTION_SHADOW_ENABLED" = true) by (destruct Hr as [Hr|Hr]; [auto|destruct H11; congruence]).
    split_and!; auto.
  - intros Hb. split; auto.
Qed.

End Sound.

(** An environment that is accepted gives a configuration in which every number is within its
    bounds, every unset field has its default, the fields fit each other, a reconciliation of
    webhooks has a callback that is the runtime's own over TLS, reads of the projection and
    the end of the old fan-out come only with the whole pipeline before them, there is a session
    and each is a uuid, and the secrets are long. *)
Theorem configuration_is_sound (Number : string -> option Q) (parseUrl : string -> option url_parts) (isUuid : string -> bool)
    (env : string -> option string) (c : configuration) :
  parseRuntimeConfig Number parseUrl isUuid env = Some c -> accepted parseUrl isUuid env c.
Proof.
  unfold parseRuntimeConfig.
  intros (mode & _ & (db & _ & (redis & _ & (key & Hkey & (docs & Hdocs & (base & _ & (okey & _ & (tag & _ & (secret & Hsecret &
    (callback & _ & (sessions & Hsessions & (drop_ratio & _ & (inbox & Hinbox & (ns & Hns & (fs & Hfs & H)
    %bind_Some)%bind_Some)%bind_Some)%bind_Some)%bind_Some)%bind_Some)%bind_Some)%bind_Some)%bind_Some)%bind_Some)%bind_Some)%bind_Some)%bind_Some)%bind_Some)%bind_Some.
  destruct (refined parseUrl _) eqn:Hr; [|done]. injection H as <-. apply refined_spec in Hr as (H1 & H2 & H3 & H4 & H5 & H6 & H7).
  destruct names_distinct as [Hn Hf].
  assert (Hnum : forall f, f ∈ number_fields -> exists z, number_value Number env f = Some (nf_name f, z) /\ (list_to_map ns : gmap string Z) !! nf_name f = Some z).
  { intros f Hin. apply (table_lookup nf_name (number_value Number env) number_fields ns f); [done| |done..]. apply number_value_name. }
  apply required_some in Hkey as (s1 & _ & Hkey%at_least_some). apply required_some in Hsecret as (s2 & _ & Hsecret%at_least_some).
  apply required_some in Hsessions as (s3 & _ & Hsessions%session_ids_some).
  split; try done.
  - intros f Hin. destruct (Hnum f Hin) as (z & Hv & Hl). exists z. split; [exact Hl|].
    destruct (number_value_spec _ _ _ _ Hv Hin) as (_ & [Hlow Hhigh]%within_spec & Hd). done.
  - intros f Hin. destruct (table_lookup fst (flag_value env) flag_fields fs f Hfs) as (b & Hv & Hl); [apply flag_value_name|done..|].
    exists b. split; [exact Hl|]. intros Hnone. unfold flag_value in Hv. rewrite Hnone in Hv. by injection Hv as ->.
  - unfold optional in Hinbox. cbn [RUNTIME_INBOX_RETENTION_DAYS num numbers].
    destruct (Hnum event_field event_field_in) as (z & Hv & Hl). change (nf_name event_field) with "RUNTIME_EVENT_RETENTION_DAYS" in *. rewrite Hl.
    destruct (env "RUNTIME_INBOX_RETENTION_DAYS") as [s|].
    + apply fmap_Some in Hinbox as (d & Hd & ->). apply bounded_within, within_spec in Hd as [Hlow Hhigh]. cbn. split; [|done].
      split; [done|by apply Hhigh].
    + injection Hinbox as <-. destruct (number_value_spec _ _ _ _ Hv event_field_in) as (_ & [Hlow Hhigh]%within_spec & _).
      cbn in Hlow, Hhigh. specialize (Hhigh 3650 eq_refl). cbn. split; [lia|]. intros _. unfold num. cbn [numbers]. by rewrite Hl.
  - cbn. intros Hnone. unfold optional in Hdocs. rewrite Hnone in Hdocs. by injection Hdocs as <-.
Qed.


(** *** Environments *)
Module Story.

(** Decimal digits *)
Fixpoint digits (s : string) (n : Z) : option Q :=
  match s with
  | EmptyString => Some (inject_Z n)
  | String c s' =>
      let d := Z.of_nat (nat_of_ascii c) - 48 in
      if (0 <=? d) && (d <=? 9) then digits s' (10 * n + d) else None
  end.
Definition parse_url (s : string) : option url_parts :=
  if String.prefix "https://" s then Some (UrlParts "https:" "/api/v1/webhooks/openwa/" "" "" "" "")
  else if String.prefix "http://" s then Some (UrlParts "http:" "/" "" "" "" "") else None.
Definition secret : string := "0123456789abcdef0123456789abcdef".
Definition given : list (string * string) :=
  [("DATABASE_URL", "http://db"); ("REDIS_URL", "http://redis"); ("RUNTIME_API_KEY", secret); ("OPENWA_BASE_URL", "http://api");
   ("OPENWA_API_KEY", "k"); ("OPENWA_WEBHOOK_SECRET", secret); ("OPENWA_ALLOWED_SESSION_IDS", "s1, s2,")].
Definition parse (more : list (string * string)) : option configuration :=
  parseRuntimeConfig (fun s => digits s 0) parse_url (fun _ => true)
    (fun name => (list_to_map (more ++ given) : gmap string string) !! name).

Example accepted_and_refused :
  (fun c => (num c "PORT", OPENWA_ALLOWED_SESSION_IDS c, RUNTIME_INBOX_RETENTION_DAYS c, enableRuntimeDocs c)) <$>
    parse [("NODE_ENV", "production"); ("RUNTIME_EVENT_RETENTION_DAYS", "14")] = Some (3100, ["s1"; "s2"], 14, false) /\
  parse [("OUTBOUND_MAX_DELAY_MS", "2000")] = None /\
  (fun c => num c "OUTBOUND_MIN_DELAY_MS") <$> parse [("OUTBOUND_MAX_DELAY_MS", "2000"); ("OUTBOUND_MIN_DELAY_MS", "")] = Some 0 /\
  parse [("CONTACT_PROJECTION_READ_ENABLED", "true")] = None /\
  parse [("OPENWA_WEBHOOK_RECONCILIATION_ENABLED", "true")] = None.
Proof. split_and!; vm_compute; reflexivity. Qed.

Lemma configuration_is_sound_witness : exists c, parse [("OUTBOUND_MIN_DELAY_MS", "1000")] = Some c /\
  num c "OUTBOUND_MIN_DELAY_MS" <= num c "OUTBOUND_MAX_DELAY_MS" /\ OPENWA_ALLOWED_SESSION_IDS c <> [].
Proof.
  assert (H : is_null (parse [("OUTBOUND_MIN_DELAY_MS", "1000")]) = false) by (vm_compute; reflexivity).
  destruct (parse _) as [c|] eqn:E; [clear H|discriminate H]. exists c. split; [reflexivity|].
  unfold parse in E. apply configuration_is_sound in E. split; [apply (ac_delays _ _ _ _ E)|apply (ac_sessions _ _ _ _ E)].
Defined.

End Story.

End Configuration.
